(* ===== verification/_CoqProject ===== *)
-Q . S2P
Prelude.v
CdrBuffer.v
Utf8.v
RustStr.v
RustText.v
RustColl.v
TopicName.v
CdrPrimitives.v
CdrSpec.v
CdrSerializer.v
CdrDeserializer.v
CdrSerde.v
CdrTyped.v
CdrCodec.v
MsgSerdes.v
Queue.v
Attachment.v
Qos.v
ProfileQos.v
RmwQos.v
RmwCallbacks.v
Entity.v
Events.v
SchemaModel.v
RmwZenoh.v
Ros2Dds.v
Config.v
Service.v
ServiceNet.v
DescriptionWire.v
Graph.v
GraphInv.v
GraphProps.v
DynTypes.v
TypeDescription.v
DescriptionRoundtrip.v
DescriptionService.v
DynCdr.v
DynCodec.v
DynAccess.v
DynSerdes.v
DynErase.v
PubSub.v
TopicNet.v
Node.v
Context.v
ActionBuild.v
NodeProps.v
RmwPubSub.v
RmwEndpoints.v
RmwGraph.v
RmwService.v
RmwWait.v
RmwContext.v
Action.v
ActionClient.v
ActionClientProps.v
ActionDriver.v
ActionInvariant.v
MsgParser.v
MsgRoundtrip.v
SrvActionParser.v
DynRegistry.v
TypeHashing.v
Resolver.v
ResolverProps.v
RustGen.v
RustGenProps.v
StaticDynamic.v
ConsoleText.v
Console.v
ConsoleFormat.v
ConsoleMonitor.v
ConsoleProps.v
