(* ===== verification/Prelude.v ===== *)
(** * ros-z: a verification library for the core of the ros-z workspace

    ros-z is a Rust implementation of the ROS 2 middleware over zenoh.  This
    library models the parts of it that are logic rather than I/O, from the
    source, and proves what makes them correct.  The theorems named below are
    the main ones; each file's own header says the rest.

    ** The program and the files that model it

    The wire format (crates/ros-z-cdr, crates/ros-z/src/msg.rs, shm.rs).  A
    message is serialized by serde's [Serializer] over a [CdrWriter], which
    appends aligned primitives to a [CdrBuffer]; [from_bytes] runs a
    [Deserializer] over a [CdrReader].
    - CdrBuffer.v: the trait of buffer.rs as a class with laws, [Vec<u8>] and
      the zero-copy [ZBufWriter] of zbuf_writer.rs as instances;
    - CdrPrimitives.v: primitives.rs and error.rs, every read and write;
    - CdrSpec.v: the encoding as a function of the stream position, and the
      relations [appends], [decodes] and [safe] between actions and encodings;
    - CdrSerializer.v, CdrDeserializer.v: serializer.rs and deserializer.rs;
    - CdrSerde.v, CdrTyped.v, CdrCodec.v: the theorems.  [from_bytes_to_vec]:
      whatever value [to_vec] writes, [from_bytes] reads back.
      [from_bytes_safe]: on any bytes it answers or errs, without panic or a read
      out of bounds; [from_bytes_typed]: what it answers is a value of the type.
      [zbuf_writer_refines_vec], [serialize_zbuf_as_bytes]: the zero-copy writer
      produces the bytes of the plain vector.
    - MsgSerdes.v: the serdes of typed messages and their encapsulation header,
      in memory or in a block of shared memory, the third [CdrBuffer];
      [published_payload_decodes]: whichever of them the publisher chose.

    Names and identities (crates/ros-z/src/topic_name.rs,
    crates/ros-z-protocol/src).  An entity of the ROS graph is announced by a
    liveliness token, a zenoh key expression made of its qualified topic, its
    type and type hash, and its QoS; peers parse the token.
    - TopicName.v: topic_name.rs; [qualify_topic_name_spec] gives the result for
      every input, errors included.
    - Qos.v: qos.rs of the protocol crate; ProfileQos.v: qos.rs of the library,
      [profile_text_roundtrip].  The two read each other's text.
    - Entity.v: entity.rs; [rihs_roundtrip] for type hashes.
    - RmwZenoh.v: format/rmw_zenoh.rs; [liveliness_roundtrip]: a token parses to
      the normal form of its entity; [topic_key_expr_match].
    - Ros2Dds.v: format/ros2dds.rs and format/mod.rs; [dds_liveliness_roundtrip].

    Endpoints (crates/ros-z/src).  Contexts make nodes, nodes make endpoints;
    every one of them takes a number of the context's counter.  The tokens that are
    declared differ, except those of the Ros2Dds format, which have no number.
    - Context.v, Config.v: context.rs and config.rs, what configuration a session
      is opened with; Node.v: node.rs; NodeProps.v: [tokens_distinct], and
      [dynamic_topic_end_to_end], from a node's publisher to the message that
      another node receives after discovering its schema.
    - Queue.v: queue.rs, with threads as any interleaving of critical sections.
      [queue_run_spec]: any run is a run of a bounded FIFO that drops its oldest.
    - Attachment.v: attachment.rs; PubSub.v: pubsub.rs; TopicNet.v: a publisher, a
      subscription and the samples between them; [topic_delivery].
    - Service.v: service.rs and common.rs; ServiceNet.v: any number of clients, a
      server and what is in flight; [responses_answer_requests],
      [requests_taken_once].

    Dynamic messages (crates/ros-z/src/dynamic, crates/ros-z-codegen/src/parser).
    A [.msg] text is parsed, converted to a schema, and messages of the schema
    are built, accessed by path and coded to CDR at run time.
    - DynTypes.v: schema.rs, value.rs, message.rs, error.rs;
    - DynCdr.v: serialization/cdr.rs and serialization/mod.rs; DynCodec.v:
      [cdr_roundtrip], [from_cdr_safe] (decoding any bytes gives a well typed
      message or an error; it panics only on a schema with a fixed array that no
      vector can hold, [oversized_array_panics]);
    - DynAccess.v: [set_get_laws], [access_typed], [sb_build_spec];
    - DynSerdes.v: serdes.rs; DynErase.v: a message over its discovered schema has
      the bytes of the original; DynRegistry.v: registry.rs;
    - TypeDescription.v: type_description.rs, from a schema to the description
      that a peer is sent and back; DescriptionRoundtrip.v:
      [description_roundtrip] (which schemas survive, and what comes back of the
      others);
    - DescriptionWire.v, DescriptionService.v: the messages of the type
      description service, the service and its client;
      [discovery_returns_schema].
    - MsgParser.v: types.rs, parser/mod.rs, parser/msg.rs; MsgRoundtrip.v:
      [parse_msg_print] (what a printed definition parses to).

    The code generator (crates/ros-z-schema, crates/ros-z-codegen).  Messages,
    services and actions are parsed, ordered by their dependencies, described
    and hashed; the hash is the one that the dynamic side must compute too.
    - SchemaModel.v: ros-z-schema: descriptions, their ROS 2 JSON, the RIHS01
      hash; [calculate_hash_determines]: equal hashes mean equal descriptions up
      to default values.
    - SrvActionParser.v: parser/srv.rs and parser/action.rs.
    - TypeHashing.v: hashing.rs; [generator_and_schema_agree] (with the
      description the dynamic side makes).
    - Resolver.v: resolver.rs, the queue with its stagnation counter and the
      hashes of services and actions; ResolverProps.v:
      [solvable_messages_resolved], [resolution_stalls],
      [service_dependencies_closed].
    - RustGen.v: generator/rust.rs, the Rust types that are emitted, as the
      constructs that are quoted, and what the emitted code computes;
      RustGenProps.v: [estimate_accounts] (the emitted size estimate against the
      serialization); StaticDynamic.v: [generated_read_dynamically], which ties
      the generated types to the dynamic messages of DynRegistry.v and DynCdr.v.

    The graph of the ROS network (crates/ros-z/src/graph.rs, entity.rs,
    event.rs).  Liveliness tokens come and go; a cache parses them lazily, keeps
    entities behind counted pointers, indexes them and answers queries, and
    notifies the RMW layer.
    - Graph.v: graph.rs and entity.rs, with the heap of [Arc]s and what is left
      of a [Weak] when its [Arc] is gone;
    - GraphInv.v: the invariant of the indexes, and the abstraction [tokens] of a
      cache to a map from tokens to entities; GraphProps.v:
      [graph_refines_token_map], [graph_counts_endpoints] (a token whose entity is
      removed locally must be the one that the entity has, [canonical_ops]);
    - Events.v: event.rs; [events_accounted], [event_counters_bounded].

    Actions (crates/ros-z/src/action).  Goals live in a table behind a mutex; a
    goal moves from accepted to executing to a terminal state through typestate
    handles; result requests wait on channels; the driver loop serves the
    protocol, and a client routes what it publishes.
    - Action.v: mod.rs, state.rs, server.rs, as computations of a state monad;
    - ActionDriver.v: driver.rs, the handlers as functions and the loop, the
      goal tasks and the users as a step relation; ActionInvariant.v: the
      invariant of every run, and its consequences: [status_transitions],
      [result_replies_agree], [waiters_of_terminated_resolved]; and
      [handle_goal_request_runs], which ties the whole handler to the steps;
    - ActionClient.v: client.rs; ActionClientProps.v: any run of a client and its
      callers; [channels_get_what_arrived], [result_asks_when_terminal];
    - ActionBuild.v: both builders; [action_client_meets_server].

    The RMW layer (crates/rmw-zenoh-rs/src).  The C functions that ROS 2 calls, on
    top of the library.  An object behind a handle is a record; a pointer that may
    be null is an option; an array that is written through a pointer is returned.
    - RmwContext.v: context.rs, node.rs, the handles of traits.rs, guard
      conditions; [context_lifecycle], [conditions_live], [graph_change_wakes];
    - RmwQos.v: qos.rs; [qos_compatibility_spec], for the profiles as C callers give
      them, with the system defaults;
    - RmwCallbacks.v: the callbacks for new data; [arrivals_announced];
    - RmwPubSub.v: publishing and taking; RmwEndpoints.v: creation, events and
      destruction; [create_publisher_spec];
    - RmwService.v: service.rs; [rmw_call_spec], [request_ids];
    - RmwGraph.v: the graph queries; [node_names_and_types_spec];
    - RmwWait.v: wait_set.rs; [rmw_wait_arrays], [rmw_wait_returns].

    The console (crates/ros-z-console/src).  A terminal application over the
    library: a loop updates what is cached and measured, draws, and handles a key;
    the callbacks of the measured topics count between its updates.  A drawing is
    modelled as what each pane shows, since computing it can panic and changes the
    caches.
    - ConsoleText.v: app/render/common.rs, the constants and the filter: text cut
      and highlighted at byte positions; [create_highlighted_spans_spec];
    - Console.v: app/mod.rs, state.rs, input.rs, main.rs and the panes of
      app/render: the state [App], every key, update, sample and drawing as a
      [ConsoleEvent], and any run of them; ConsoleProps.v: [console_invariant],
      [samples_accounted], [turn_returns], [measure_key_selected];
    - ConsoleFormat.v: core/message_formatter.rs; [message_json_determines];
    - ConsoleMonitor.v: the monitor of core/engine.rs, its events, the headless
      mode and the exports; [monitor_replays].

    Shared: this prelude (the error monad, list and option lemmas, automation),
    Utf8.v (Rust's [str] as validated bytes), RustStr.v and RustText.v (the
    string operations of the standard library, with their laws), RustColl.v
    (ordered maps and stable sorting).

    ** Conventions

    - A fallible function returns [res E A]: [Ok], [Err], or [Panic] for an
      unwinding panic, which the theorems exclude or characterise.  In the
      action server a panic is the monad's [None]; the mutex it held is then
      poisoned, and later operations panic on it.
    - An integer is a [Z] within its width; arithmetic wraps where the release
      profile wraps; [usize] is 64 bits.  The counters of events are the
      exception: their additions are checked, and [event_counters_bounded] says
      when the check cannot fail.  A float that is only transported is its
      IEEE 754 bit pattern; the console, which computes with floats, has those of
      [SpecFloat], rounded as the hardware does.
    - A [str] is the [string] of its UTF-8 bytes; a [HashMap] is a [gmap], and a
      theorem never depends on an iteration order: where the code iterates, the
      order is a parameter ([HashOrder]) of which only the elements are known.
    - Shared cells ([Arc<AtomicBool>], oneshot channels, guard conditions) live in
      heaps indexed by allocation order, so aliasing is visible; an [Arc] or [Box]
      of immutable data is its contents.
    - Concurrency is interleaving.  A step is what happens under one lock, between
      two awaits, or as one message of the network; a run is any list of steps,
      and a theorem about runs holds for every scheduling, loss included.
    - Packages outside the repository are parameters: a class of operations and
      a class of the laws relied on, each with a concrete instance on which the
      witnesses are evaluated.  zenoh: [ZBufApi], [ZenohApi], [ZExtApi],
      [SlabApi], [SessionApi], [PubSubApi], [ConfigApi]; serialization and hashing:
      [ByteOrder], [ZSerializerApi], [JsonApi], [HashApi], [HexApi], [GidApi];
      channels: [ChannelApi] of flume, [TokioApi]; the environment of a process:
      [ContextApi]; the C side: [TypeSupport], [RcutilsApi], [OptionsApi]; the
      console: [DbApi] (its database) with [DbLaws], [KeyExprMatch] (which samples a
      subscriber gets), [Lowercase] (of Unicode), [FloatDisplay],
      the record [Outside] (clock, files and network in one turn); proc_macro2 and
      syn: [SynApi]; and the
      message types of users: [Serde], [ZMessage], [ZService], [TopicType],
      [ActionMessages].  The compiler: [DynLayout], the size of a [DynamicValue],
      which says how long a vector of them can be.
    - Fuel appears where a visitor loops over a sequence ([visit_vec],
      [visit_entries]).  It is the number of elements the header announces; the
      access object returns [None] after that many, so the loop never stops
      early, as [visit_vec_safe] and the round trip show.  The resolution
      of references ([resolve_loop]) has one unit of fuel per reference, enough
      because a pass that makes no progress ends it
      ([description_resolution_terminates]).  The recursions over dependencies
      ([collect_nested_deps], [collect_referenced_types]) have one more than the
      number of known descriptions: [service_dependencies_closed] and
      [hashed_references_are_direct] show that they return; in the second, a
      deeper recursion would be the endless one of the code.  The budget of
      [resolve_queue] is the code's own limit of iterations.  [rmw_wait] has no
      fuel: a timeout whose seconds overflow panics, and otherwise it recurses on the
      list of notifications, and [rmw_wait_returns] says
      which lists make it return.  [highlight_loop] has one more than the length
      of the text in lower case; [highlight_loop_returns] shows that this is enough
      for any filter but the empty one, which is answered before the loop.  Everything else recurses on its data.

    ** What is not modelled

    The bindings that bindgen makes of the C headers, except the constants that
    the RMW layer reads; the C functions of rmw.rs that answer "unsupported" at
    once; the Python module and its bridge, which only convert between Python
    objects and the values above; the emission of Python and protobuf source, the
    printing of the emitted Rust and the search of packages in the file system; the derive macros
    (what they generate is [Serde] and [sty]); the optional protobuf format;
    of the console, the setup of the terminal and the session, the layout and the
    drawing of its widgets, and the loop that prints what it receives; tests.  Of the rest: zenoh itself
    beyond the classes above, the real time that a sleep takes and fairness of
    threads (a theorem of progress names the step that must happen), allocation
    failure of Rust (the one of rcutils is modelled, and so is the panic on the
    capacity of the decoder's vectors; that of [vec!] in [default_for_type], for the
    same arrays, is not, and the theorems on defaults leave such arrays out). *)
From Stdlib Require Export ZArith List Ascii String Bool Lia.
From Stdlib Require Export Strings.Byte.
From stdpp Require Export base tactics option list numbers strings.

(** The error monad of the whole library.  [Ok] and [Err] are Rust's
    [Result]; [Panic] is an unwinding panic (slice index out of range,
    [unwrap] of an error, remainder by zero).  A Rust function that returns no
    [Result] but can panic is modelled in [res E] for every [E]. *)
Inductive res (E A : Type) : Type :=
| Ok (a : A)
| Err (e : E)
| Panic.
Arguments Ok {E A} a.
Arguments Err {E A} e.
Arguments Panic {E A}.

#[export] Instance res_ret {E} : MRet (res E) := fun A a => Ok a.
#[export] Instance res_bind {E} : MBind (res E) := fun A B f m =>
  match m with
  | Ok a => f a
  | Err e => Err e
  | Panic => Panic
  end.

#[export] Instance res_fmap {E} : FMap (res E) := fun A B f m =>
  match m with
  | Ok a => Ok (f a)
  | Err e => Err e
  | Panic => Panic
  end.

(** [map_err] on [Result]. *)
Definition map_err {E F A} (f : E -> F) (m : res E A) : res F A :=
  match m with
  | Ok a => Ok a
  | Err e => Err (f e)
  | Panic => Panic
  end.

(** [Option::ok_or]. *)
Definition ok_or {E A} (o : option A) (e : E) : res E A :=
  match o with
  | Some a => Ok a
  | None => Err e
  end.

(** [Option::unwrap] and [expect]. *)
Definition unwrap {E A} (o : option A) : res E A :=
  match o with
  | Some a => Ok a
  | None => Panic
  end.

Definition is_ok {E A} (m : res E A) : bool :=
  match m with
  | Ok _ => true
  | _ => false
  end.

Definition no_panic {E A} (m : res E A) : Prop := m <> Panic.

(** [l\[i\]] on a Rust slice: out of range panics. *)
Definition index {E A} (l : list A) (i : nat) : res E A := unwrap (l !! i).

(** [&l\[a..b\]] on a Rust slice: [a > b] or [b > len] panics. *)
Definition slice {E A} (l : list A) (a b : nat) : res E (list A) :=
  if decide (a <= b /\ b <= length l)%nat then Ok (take (b - a) (drop a l))
  else Panic.

(** [iter.map(f).collect::<Result<Vec<_>, _>>()]: left to right, stopping at
    the first error. *)
Section Traverse.
Context {E A B : Type} (f : A -> res E B).
Fixpoint traverse (l : list A) : res E (list B) :=
  match l with
  | [] => Ok []
  | x :: l' => y ← f x; ys ← traverse l'; Ok (y :: ys)
  end.
End Traverse.

(** A left fold that can fail, [for x in l { s = f(s, x)?; }]. *)
Section ForEach.
Context {E S A : Type} (f : S -> A -> res E S).
Fixpoint for_each (s : S) (l : list A) : res E S :=
  match l with
  | [] => Ok s
  | x :: l' => s' ← f s x; for_each s' l'
  end.
End ForEach.

(** ** Machine integers: a [w]-bit integer is a [Z] in its range. *)
Definition u_range (w : Z) (z : Z) : Prop := (0 <= z < 2 ^ w)%Z.
Definition i_range (w : Z) (z : Z) : Prop := (- 2 ^ (w - 1) <= z < 2 ^ (w - 1))%Z.

(** [x as uW]. *)
Definition wrap_u (w : Z) (z : Z) : Z := (z mod 2 ^ w)%Z.

(** [x as iW], two's complement. *)
Definition wrap_i (w : Z) (z : Z) : Z :=
  ((z + 2 ^ (w - 1)) mod 2 ^ w - 2 ^ (w - 1))%Z.

Definition u8_of_byte (b : byte) : Z := Z.of_N (Byte.to_N b).

(** [x as u8]. *)
Definition byte_of_Z (z : Z) : byte :=
  match Byte.of_N (Z.to_N (z mod 256)) with
  | Some b => b
  | None => x00
  end.

#[export] Instance byte_eq_decision : EqDecision byte := Byte.byte_eq_dec.

(** ** Tactics *)

(** Split every monadic bind in the hypotheses. *)
Ltac res_inv :=
  repeat match goal with
  | H : mbind _ ?m = Ok _ |- _ =>
      let E := fresh "E" in
      destruct m eqn:E; cbn [mbind res_bind] in H; [ | discriminate H | discriminate H ]
  | H : (let '(_, _) := ?p in _) = Ok _ |- _ => destruct p
  | H : Ok _ = Ok _ |- _ => injection H; clear H; intros; subst
  | H : map_err _ ?m = Ok _ |- _ =>
      let E := fresh "E" in
      destruct m eqn:E; cbn [map_err] in H; [ | discriminate H | discriminate H ]
  | H : ok_or ?o _ = Ok _ |- _ =>
      let E := fresh "E" in
      destruct o eqn:E; cbn [ok_or] in H; [ | discriminate H ]
  | H : Err _ = Ok _ |- _ => discriminate H
  | H : Panic = Ok _ |- _ => discriminate H
  end.

(** ** Generic lemmas *)

Lemma res_bind_assoc {E A B C} (m : res E A) (f : A -> res E B) (g : B -> res E C) :
  (y ← (x ← m; f x); g y) = (x ← m; y ← f x; g y).
Proof. by destruct m. Qed.

Lemma no_panic_Ok {E A} (a : A) : no_panic (E := E) (Ok a).
Proof. discriminate. Qed.

Lemma no_panic_Err {E A} (e : E) : no_panic (A := A) (Err e).
Proof. discriminate. Qed.

Lemma no_panic_bind {E A B} (m : res E A) (f : A -> res E B) :
  no_panic m -> (forall a, m = Ok a -> no_panic (f a)) -> no_panic (x ← m; f x).
Proof. destruct m; intros Hm Hf; [by apply Hf | apply no_panic_Err | done]. Qed.

Lemma no_panic_map_err {E F A} (f : E -> F) (m : res E A) :
  no_panic m -> no_panic (map_err f m).
Proof. by destruct m; intros H. Qed.

Lemma no_panic_ok_or {E A} (o : option A) (e : E) : no_panic (ok_or o e).
Proof. by destruct o. Qed.

Create HintDb rosz.
#[export] Hint Resolve no_panic_Ok no_panic_Err no_panic_map_err no_panic_ok_or : rosz.

Lemma slice_ok {E A} (pre mid post : list A) :
  slice (E := E) (pre ++ mid ++ post) (length pre) (length pre + length mid) = Ok mid.
Proof.
  unfold slice. rewrite decide_True by (rewrite !length_app; lia).
  rewrite drop_app_length. f_equal.
  replace (length pre + length mid - length pre)%nat with (length mid) by lia.
  apply take_app_length.
Qed.

Lemma slice_in_range {E A} (l : list A) (a b : nat) :
  (a <= b)%nat -> (b <= length l)%nat ->
  exists m, slice (E := E) l a b = Ok m /\ length m = (b - a)%nat.
Proof.
  intros. unfold slice. rewrite decide_True by done.
  eexists. split; [done|]. rewrite length_take, length_drop. lia.
Qed.

Lemma slice_no_panic {E A} (l : list A) (a b : nat) :
  (a <= b)%nat -> (b <= length l)%nat -> no_panic (slice (E := E) l a b).
Proof. intros. destruct (slice_in_range (E := E) l a b) as (m & -> & _); auto with rosz. Qed.

Lemma slice_replicate {E A} (n k : nat) (x : A) :
  (k <= n)%nat -> slice (E := E) (replicate n x) 0 k = Ok (replicate k x).
Proof.
  intros. unfold slice. rewrite decide_True by (rewrite length_replicate; lia).
  f_equal. rewrite Nat.sub_0_r. change (drop 0 (replicate n x)) with (replicate n x).
  rewrite take_replicate. f_equal. lia.
Qed.

Lemma traverse_length {E A B} (f : A -> res E B) l ys :
  traverse f l = Ok ys -> length ys = length l.
Proof.
  revert ys. induction l as [|x l IH]; intros ys H; cbn in H; [by simplify_eq|].
  res_inv. cbn. f_equal. by apply IH.
Qed.

Lemma u8_of_byte_range b : (0 <= u8_of_byte b < 256)%Z.
Proof.
  unfold u8_of_byte. pose proof (Byte.to_N_bounded b). lia.
Qed.

Lemma u8_of_byte_of_Z z : u8_of_byte (byte_of_Z z) = (z mod 256)%Z.
Proof.
  unfold byte_of_Z, u8_of_byte.
  pose proof (Z.mod_pos_bound z 256 ltac:(lia)) as Hb.
  destruct (Byte.of_N (Z.to_N (z mod 256))) as [b|] eqn:E.
  - apply Byte.to_of_N in E. rewrite E. lia.
  - apply Byte.of_N_None_iff in E. lia.
Qed.

Lemma byte_of_Z_u8 b : byte_of_Z (u8_of_byte b) = b.
Proof.
  unfold byte_of_Z. rewrite Z.mod_small by apply u8_of_byte_range.
  unfold u8_of_byte. rewrite N2Z.id, Byte.of_to_N. done.
Qed.

Lemma u8_of_byte_inj b c : u8_of_byte b = u8_of_byte c -> b = c.
Proof. intros H. by rewrite <- (byte_of_Z_u8 b), H, byte_of_Z_u8. Qed.

Lemma wrap_u_range w z : (0 <= w)%Z -> u_range w (wrap_u w z).
Proof. intros. apply Z.mod_pos_bound. by apply Z.pow_pos_nonneg. Qed.

Lemma wrap_u_id w z : u_range w z -> wrap_u w z = z.
Proof. intros. by apply Z.mod_small. Qed.

Lemma wrap_i_wrap_u w z : (0 < w)%Z -> i_range w z -> wrap_i w (wrap_u w z) = z.
Proof.
  intros Hw [Hl Hh]. unfold wrap_i, wrap_u.
  assert (2 ^ w = 2 * 2 ^ (w - 1))%Z as Hp.
  { rewrite <- Z.pow_succ_r by lia. f_equal. lia. }
  rewrite Z.add_mod_idemp_l by lia.
  rewrite Z.mod_small by lia. lia.
Qed.


(** [x & !(2^k - 1)] clears the low [k] bits, on 64-bit unsigned integers. *)
Lemma land_align_down x k :
  (0 <= x < 2 ^ 64)%Z -> (0 <= k <= 64)%Z ->
  Z.land x (wrap_u 64 (Z.lnot (2 ^ k - 1))) = (2 ^ k * (x / 2 ^ k))%Z.
Proof.
  intros Hx Hk. unfold wrap_u. rewrite <- Z.land_ones by lia.
  rewrite (Z.mul_comm (2 ^ k)), <- Z.shiftr_div_pow2, <- Z.shiftl_mul_pow2 by lia.
  apply Z.bits_inj'. intros i Hi. rewrite !Z.land_spec, Z.lnot_spec by lia.
  replace (2 ^ k - 1)%Z with (Z.ones k) by (rewrite Z.ones_equiv; lia).
  destruct (Z.ltb_spec i k).
  - by rewrite Z.ones_spec_low, Z.shiftl_spec_low, !andb_false_r by lia.
  - rewrite Z.ones_spec_high, Z.shiftl_spec, Z.shiftr_spec by lia. cbn [negb].
    replace (i - k + k)%Z with i by lia.
    destruct (Z.ltb_spec i 64).
    + rewrite Z.ones_spec_low by lia. by rewrite !andb_true_r.
    + rewrite (Z.ones_spec_high 64), andb_false_r by lia. symmetry.
      destruct (decide (x = 0)%Z) as [->|]; [apply Z.bits_0|].
      apply Z.bits_above_log2; [lia|].
      apply (Z.lt_le_trans _ 64); [apply Z.log2_lt_pow2; lia | lia].
Qed.

Lemma sublist_map {A B} (f : A -> B) l1 l2 : l1 `sublist_of` l2 -> map f l1 `sublist_of` map f l2.
Proof. induction 1; cbn; by constructor. Qed.

Lemma sublist_remove {A} (l1 : list A) x l2 : (l1 ++ l2) `sublist_of` (l1 ++ x :: l2).
Proof. apply sublist_app; [done|]. by apply sublist_cons. Qed.

(** The other elements of a list without repetition. *)
Lemma NoDup_map_others {A B} (f : A -> B) l1 x l2 y :
  NoDup (map f (l1 ++ x :: l2)) -> y ∈ l1 ++ l2 -> f y <> f x.
Proof.
  rewrite map_app, map_cons. intros Hn Hy Heq.
  apply NoDup_app in Hn as (_ & Hn1 & [Hn2 _]%NoDup_cons).
  apply elem_of_app in Hy as [Hy|Hy].
  - apply (Hn1 (f y)); [by apply list_elem_of_fmap_2|]. rewrite Heq. by left.
  - apply Hn2. rewrite <- Heq. by apply list_elem_of_fmap_2.
Qed.
