(* ===== verification/CdrBuffer.v ===== *)
(** * The output buffers of the CDR codec (crates/ros-z-cdr/src/buffer.rs and
    zbuf_writer.rs)

    [CdrBuffer] is the trait of buffer.rs; [Vec<u8>] and [ZBufWriter] are its
    two implementations.  [CdrBufferLaws] states what the codec relies on (every
    operation appends to one sequence of bytes and [len] is its length); both
    implementations are shown to satisfy it, so that everything proved against
    the interface holds for the zero-copy writer as well.  [ZBuf] and [ZSlice]
    belong to the zenoh-buffers package: [ZBufApi] names the operations the
    code calls and [ZBufLaws] their documented effect; a [ZSlice] is the
    sequence of bytes it shows. *)
From S2P Require Import Prelude.
Open Scope Z_scope.

(** ** Definitions *)

(** The zenoh-buffers operations the codec calls. *)
Class ZBufApi (ZBuf : Type) := {
  zbuf_empty : ZBuf;
  zbuf_push_zslice : ZBuf -> list byte -> ZBuf;
  zbuf_zslices : ZBuf -> list (list byte);
  zbuf_clear : ZBuf -> ZBuf;
}.

(** [SplitBuffer::contiguous]: all the slices, in order. *)
Definition zbuf_contiguous {ZBuf} `{ZBufApi ZBuf} (z : ZBuf) : list byte :=
  concat (zbuf_zslices z).

Class ZBufLaws (ZBuf : Type) `{ZBufApi ZBuf} := {
  contiguous_empty : zbuf_contiguous zbuf_empty = [];
  contiguous_push : forall z s,
    zbuf_contiguous (zbuf_push_zslice z s) = zbuf_contiguous z ++ s;
  contiguous_clear : forall z, zbuf_contiguous (zbuf_clear z) = [];
}.

(** The trait [CdrBuffer]; [reserve] and [reserve_4k] only change the capacity
    of the allocation, see [vec_reserve_4k_amount]. *)
Class CdrBuffer (ZBuf : Type) (B : Type) := {
  extend_from_slice : B -> list byte -> B;
  push : B -> byte -> B;
  len : B -> nat;
  clear : B -> B;
  append_zbuf : B -> ZBuf -> B;
}.

(** [CdrBuffer::is_empty], the provided method. *)
Definition is_empty {ZBuf B} `{CdrBuffer ZBuf B} (b : B) : bool := Nat.eqb (len b) 0.

(** [CdrBuffer::append_zbuf], the provided method: copies the bytes. *)
Definition append_zbuf_default {ZBuf B} `{ZBufApi ZBuf}
    (extend : B -> list byte -> B) (b : B) (z : ZBuf) : B :=
  extend b (zbuf_contiguous z).

(** [impl CdrBuffer for Vec<u8>]. *)
#[export] Instance Vec_CdrBuffer {ZBuf} `{ZBufApi ZBuf} : CdrBuffer ZBuf (list byte) := {
  extend_from_slice v data := v ++ data;
  push v b := v ++ [b];
  len v := length v;
  clear v := [];
  append_zbuf := append_zbuf_default (fun v data => v ++ data);
}.

(** 4KB alignment mask for buffer growth. *)
Definition ALIGN_4K : Z := 0xfff.

(** [<Vec<u8> as CdrBuffer>::reserve_4k]: the argument of the call to
    [Vec::reserve], if it is called.  [usize] is 64 bits wide and wraps, [!] is
    the bitwise complement. *)
Definition vec_reserve_4k_amount (current_cap vec_len needed_total : Z) : option Z :=
  if needed_total >? current_cap then
    let new_cap :=
      Z.land (wrap_u 64 (needed_total + ALIGN_4K)) (wrap_u 64 (Z.lnot ALIGN_4K)) in
    Some (wrap_u 64 (new_cap - vec_len))
  else None.

(** [CdrBuffer::reserve_4k], the provided method. *)
Definition default_reserve_4k_amount (current needed_total : Z) : option Z :=
  if needed_total >? current then Some (needed_total - current) else None.

(** [struct ZBufWriter]. *)
Record ZBufWriter (ZBuf : Type) := mkZBufWriter {
  zw_zbuf : ZBuf;
  zw_current : list byte;
  zw_total_len : nat;
}.
Arguments mkZBufWriter {ZBuf} _ _ _.
Arguments zw_zbuf {ZBuf} _.
Arguments zw_current {ZBuf} _.
Arguments zw_total_len {ZBuf} _.

Section ZBufWriter.
Context {ZBuf : Type} `{ZBufApi ZBuf}.

(** [ZBufWriter::new] and [with_capacity] (a capacity shows no bytes). *)
Definition zw_new : ZBufWriter ZBuf := mkZBufWriter zbuf_empty [] 0.
Definition zw_with_capacity (capacity : nat) : ZBufWriter ZBuf :=
  mkZBufWriter zbuf_empty [] 0.

(** [ZBufWriter::flush_current]. *)
Definition zw_flush_current (w : ZBufWriter ZBuf) : ZBufWriter ZBuf :=
  match zw_current w with
  | [] => w
  | _ :: _ =>
      mkZBufWriter (zbuf_push_zslice (zw_zbuf w) (zw_current w)) [] (zw_total_len w)
  end.

(** [ZBufWriter::append_zslice]. *)
Definition zw_append_zslice (w : ZBufWriter ZBuf) (s : list byte) : ZBufWriter ZBuf :=
  let w := zw_flush_current w in
  mkZBufWriter (zbuf_push_zslice (zw_zbuf w) s) (zw_current w)
    (zw_total_len w + length s).

(** [ZBufWriter::into_zbuf]. *)
Definition zw_into_zbuf (w : ZBufWriter ZBuf) : ZBuf := zw_zbuf (zw_flush_current w).

(** [<ZBufWriter as CdrBuffer>::append_zbuf]: slice by slice, without copying. *)
Definition zw_append_zbuf (w : ZBufWriter ZBuf) (z : ZBuf) : ZBufWriter ZBuf :=
  fold_left zw_append_zslice (zbuf_zslices z) w.

(** [impl CdrBuffer for ZBufWriter]. *)
#[export] Instance ZBufWriter_CdrBuffer : CdrBuffer ZBuf (ZBufWriter ZBuf) := {
  extend_from_slice w data :=
    mkZBufWriter (zw_zbuf w) (zw_current w ++ data) (zw_total_len w + length data);
  push w b := mkZBufWriter (zw_zbuf w) (zw_current w ++ [b]) (zw_total_len w + 1);
  len w := zw_total_len w;
  clear w := mkZBufWriter (zbuf_clear (zw_zbuf w)) [] 0;
  append_zbuf := zw_append_zbuf;
}.
End ZBufWriter.

(** What the codec relies on.  [contents] is the byte sequence written so far
    and [buf_ok] the representation invariant. *)
Class CdrBufferLaws (ZBuf B : Type) `{ZBufApi ZBuf} `{CdrBuffer ZBuf B} := {
  contents : B -> list byte;
  buf_ok : B -> Prop;
  extend_ok : forall b d, buf_ok b -> buf_ok (extend_from_slice b d);
  extend_contents : forall b d, buf_ok b ->
    contents (extend_from_slice b d) = contents b ++ d;
  push_ok : forall b x, buf_ok b -> buf_ok (push b x);
  push_contents : forall b x, buf_ok b -> contents (push b x) = contents b ++ [x];
  len_contents : forall b, buf_ok b -> len b = length (contents b);
  clear_ok : forall b, buf_ok b -> buf_ok (clear b);
  clear_contents : forall b, buf_ok b -> contents (clear b) = [];
  append_zbuf_ok : forall b z, buf_ok b -> buf_ok (append_zbuf b z);
  append_zbuf_contents : forall b z, buf_ok b ->
    contents (append_zbuf b z) = contents b ++ zbuf_contiguous z;
}.

(** A concrete [ZBuf]: the list of its slices; like zenoh's, it drops an empty
    slice. *)
#[export] Instance list_ZBufApi : ZBufApi (list (list byte)) := {
  zbuf_empty := [];
  zbuf_push_zslice z s := match s with [] => z | _ => z ++ [s] end;
  zbuf_zslices z := z;
  zbuf_clear z := [];
}.

(** ** The two implementations satisfy the interface *)

#[export] Instance list_ZBufLaws : ZBufLaws (list (list byte)).
Proof.
  split; try done.
  intros z [|x s]; unfold zbuf_contiguous; cbn; [by rewrite app_nil_r|].
  rewrite concat_app. cbn. by rewrite app_nil_r.
Qed.

#[export] Instance Vec_CdrBufferLaws {ZBuf} `{ZBufLaws ZBuf} :
  CdrBufferLaws ZBuf (list byte).
Proof. by refine {| contents := fun v => v; buf_ok := fun _ => True |}. Defined.

Section ZBufWriterLaws.
Context {ZBuf : Type} `{ZBufLaws ZBuf}.

(** The bytes of a writer: the flushed slices, then the pending bytes. *)
Definition zw_contents (w : ZBufWriter ZBuf) : list byte :=
  zbuf_contiguous (zw_zbuf w) ++ zw_current w.

(** [total_len] counts every byte written. *)
Definition zw_ok (w : ZBufWriter ZBuf) : Prop := zw_total_len w = length (zw_contents w).

Lemma zw_new_ok : zw_ok zw_new /\ zw_contents zw_new = [].
Proof. unfold zw_ok, zw_contents. cbn. by rewrite contiguous_empty. Qed.

Lemma zw_flush_contents w :
  zw_contents (zw_flush_current w) = zw_contents w /\
  zw_current (zw_flush_current w) = [] /\
  zw_total_len (zw_flush_current w) = zw_total_len w.
Proof.
  unfold zw_flush_current, zw_contents.
  destruct (zw_current w) as [|x c] eqn:E; [by rewrite E|].
  cbn. by rewrite contiguous_push, app_nil_r.
Qed.

Lemma zw_append_zslice_spec w s :
  zw_ok w ->
  zw_ok (zw_append_zslice w s) /\
  zw_contents (zw_append_zslice w s) = zw_contents w ++ s.
Proof.
  unfold zw_ok. intros Hw. destruct (zw_flush_contents w) as (Hc & Hn & Hl).
  assert (zw_contents (zw_append_zslice w s) = zw_contents w ++ s) as Hs.
  { rewrite <- Hc. unfold zw_append_zslice, zw_contents. cbn.
    by rewrite Hn, contiguous_push, !app_nil_r. }
  split; [|done]. rewrite Hs, length_app. cbn. rewrite Hl. lia.
Qed.

Lemma zw_append_zslices_spec ss w :
  zw_ok w ->
  zw_ok (fold_left zw_append_zslice ss w) /\
  zw_contents (fold_left zw_append_zslice ss w) = zw_contents w ++ concat ss.
Proof.
  revert w. induction ss as [|s ss IH]; intros w Hw; cbn [fold_left concat].
  - by rewrite app_nil_r.
  - destruct (zw_append_zslice_spec w s Hw) as [Hok Hc].
    destruct (IH _ Hok) as [Hok' Hc']. split; [done|].
    by rewrite Hc', Hc, <- app_assoc.
Qed.

Lemma zw_into_zbuf_contents w : zbuf_contiguous (zw_into_zbuf w) = zw_contents w.
Proof.
  unfold zw_into_zbuf. destruct (zw_flush_contents w) as (Hc & Hn & _).
  rewrite <- Hc. unfold zw_contents. by rewrite Hn, app_nil_r.
Qed.

#[export] Instance ZBufWriter_CdrBufferLaws : CdrBufferLaws ZBuf (ZBufWriter ZBuf).
Proof.
  refine {| contents := zw_contents; buf_ok := zw_ok;
    append_zbuf_ok b z H := proj1 (zw_append_zslices_spec (zbuf_zslices z) b H);
    append_zbuf_contents b z H := proj2 (zw_append_zslices_spec (zbuf_zslices z) b H) |};
    unfold zw_ok, zw_contents; cbn; intros;
    rewrite ?contiguous_clear, ?app_assoc, ?length_app in *; cbn in *; lia || done.
Defined.
End ZBufWriterLaws.
