(* ===== verification/Utf8.v ===== *)
(** * Rust's [str]: a byte sequence that is valid UTF-8

    A Rust [str] or [String] is modelled by [string] (each [ascii] is one
    byte), [as_bytes] by [str_bytes].  [from_utf8] is the validation of the Rust
    standard library (core::str::validations), with the [Utf8Error] it
    reports. *)
From S2P Require Import Prelude.
Open Scope Z_scope.

(** ** Definitions *)

(** [core::str::Utf8Error]. *)
Record Utf8Error := mkUtf8Error {
  valid_up_to : nat;
  error_len : option Z;
}.

Definition str_bytes (s : string) : list byte := String.list_byte_of_string s.
Definition str_of_bytes (bs : list byte) : string := String.string_of_list_byte bs.

(** [s.len()]: the length in bytes. *)
Definition str_len (s : string) : nat := String.length s.

Definition in_byte_range (lo hi : Z) (b : byte) : bool :=
  (lo <=? u8_of_byte b) && (u8_of_byte b <=? hi).

(** A continuation byte, [b as i8 < -64]. *)
Definition utf8_cont (b : byte) : bool := in_byte_range 0x80 0xBF b.

(** [utf8_char_width] for a first byte that is not ASCII. *)
Definition utf8_char_width (b : byte) : nat :=
  if in_byte_range 0xC2 0xDF b then 2
  else if in_byte_range 0xE0 0xEF b then 3
  else if in_byte_range 0xF0 0xF4 b then 4
  else 0.

(** The second byte of a three byte sequence. *)
Definition utf8_second3 (first b : byte) : bool :=
  if in_byte_range 0xE0 0xE0 first then in_byte_range 0xA0 0xBF b
  else if in_byte_range 0xED 0xED first then in_byte_range 0x80 0x9F b
  else in_byte_range 0x80 0xBF b.

(** The second byte of a four byte sequence. *)
Definition utf8_second4 (first b : byte) : bool :=
  if in_byte_range 0xF0 0xF0 first then in_byte_range 0x90 0xBF b
  else if in_byte_range 0xF4 0xF4 first then in_byte_range 0x80 0x8F b
  else in_byte_range 0x80 0xBF b.

(** [run_utf8_validation]: [None] when the bytes from offset [off] are valid. *)
Fixpoint utf8_run (off : nat) (bs : list byte) : option Utf8Error :=
  let bad n := Some (mkUtf8Error off n) in
  match bs with
  | [] => None
  | b0 :: t0 =>
      if u8_of_byte b0 <? 128 then utf8_run (off + 1) t0
      else match utf8_char_width b0, t0 with
      | 2%nat, [] | 3%nat, [] | 4%nat, [] => bad None
      | 2%nat, b1 :: t1 =>
          if utf8_cont b1 then utf8_run (off + 2) t1 else bad (Some 1)
      | 3%nat, b1 :: t1 =>
          if utf8_second3 b0 b1 then
            match t1 with
            | [] => bad None
            | b2 :: t2 => if utf8_cont b2 then utf8_run (off + 3) t2 else bad (Some 2)
            end
          else bad (Some 1)
      | 4%nat, b1 :: t1 =>
          if utf8_second4 b0 b1 then
            match t1 with
            | [] => bad None
            | b2 :: t2 =>
                if utf8_cont b2 then
                  match t2 with
                  | [] => bad None
                  | b3 :: t3 =>
                      if utf8_cont b3 then utf8_run (off + 4) t3 else bad (Some 3)
                  end
                else bad (Some 2)
            end
          else bad (Some 1)
      | _, _ => bad (Some 1)
      end
  end.

(** [str::from_utf8] and [String::from_utf8]. *)
Definition from_utf8 (bs : list byte) : res Utf8Error string :=
  match utf8_run 0 bs with
  | None => Ok (str_of_bytes bs)
  | Some e => Err e
  end.

(** The invariant of the type [str]. *)
Definition str_valid (s : string) : Prop := utf8_run 0 (str_bytes s) = None.

Definition bytes_ascii (bs : list byte) : bool :=
  forallb (fun b => u8_of_byte b <? 128) bs.

(** ** Lemmas *)

Lemma str_of_bytes_of_str s : str_of_bytes (str_bytes s) = s.
Proof. apply String.string_of_list_byte_of_string. Qed.

Lemma str_bytes_of_bytes bs : str_bytes (str_of_bytes bs) = bs.
Proof. apply String.list_byte_of_string_of_list_byte. Qed.

Lemma str_bytes_length s : length (str_bytes s) = str_len s.
Proof.
  unfold str_bytes, String.list_byte_of_string, str_len.
  rewrite length_map. induction s; cbn; congruence.
Qed.

Lemma from_utf8_valid s : str_valid s -> from_utf8 (str_bytes s) = Ok s.
Proof. unfold str_valid, from_utf8. intros ->. by rewrite str_of_bytes_of_str. Qed.

Lemma from_utf8_inv bs s : from_utf8 bs = Ok s -> str_valid s /\ bs = str_bytes s.
Proof.
  unfold from_utf8, str_valid. destruct (utf8_run 0 bs) eqn:E; intros; simplify_eq.
  by rewrite str_bytes_of_bytes.
Qed.

Lemma from_utf8_no_panic bs : no_panic (from_utf8 bs).
Proof. unfold from_utf8. destruct (utf8_run 0 bs); auto with rosz. Qed.

(** ASCII text is valid UTF-8. *)
Lemma utf8_run_ascii bs off : bytes_ascii bs = true -> utf8_run off bs = None.
Proof.
  revert off. induction bs as [|b bs IH]; intros off H; [done|].
  cbn in H. apply andb_true_iff in H as [Hb H]. cbn. rewrite Hb. by apply IH.
Qed.

Lemma str_valid_ascii s : bytes_ascii (str_bytes s) = true -> str_valid s.
Proof. apply utf8_run_ascii. Qed.

#[export] Hint Resolve from_utf8_no_panic : rosz.
