(* ===== verification/RustStr.v ===== *)
(** * The string operations of the Rust standard library the program uses

    [str::split], [starts_with], [ends_with], [strip_prefix], [strip_suffix],
    [replace], the decimal and hexadecimal formatting of unsigned integers and
    their parsing, with the laws the components rely on.  A [str] is a
    [string] of bytes (see Utf8.v), so a non-ASCII [char] is the string of its
    UTF-8 bytes. *)
From S2P Require Import Prelude Utf8.
From Stdlib Require Import NArith DecimalString DecimalN.
From Stdlib Require HexadecimalString.
Open Scope string_scope.
Open Scope Z_scope.

(** ** Definitions *)

(** [s.split(c)] for an ASCII [char]: always at least one piece. *)
Fixpoint split_on (c : ascii) (s : string) : list string :=
  match s with
  | EmptyString => [EmptyString]
  | String a r =>
      if Ascii.eqb a c then EmptyString :: split_on c r
      else match split_on c r with
           | [] => [String a EmptyString]
           | p :: ps => String a p :: ps
           end
  end.

(** The pieces put back together. *)
Fixpoint join_on (c : ascii) (ps : list string) : string :=
  match ps with
  | [] => EmptyString
  | [p] => p
  | p :: ps' => p ++ String c (join_on c ps')
  end.

(** [s.starts_with(c)], [s.ends_with(c)], [s.contains(c)] for an ASCII [char]. *)
Definition starts_with_char (c : ascii) (s : string) : bool :=
  match s with
  | EmptyString => false
  | String a _ => Ascii.eqb a c
  end.

Fixpoint ends_with_char (c : ascii) (s : string) : bool :=
  match s with
  | EmptyString => false
  | String a EmptyString => Ascii.eqb a c
  | String _ r => ends_with_char c r
  end.

Fixpoint contains_char (c : ascii) (s : string) : bool :=
  match s with
  | EmptyString => false
  | String a r => Ascii.eqb a c || contains_char c r
  end.

(** [s.strip_prefix(p)] for a string pattern. *)
Fixpoint strip_prefix (p s : string) : option string :=
  match p, s with
  | EmptyString, _ => Some s
  | String a p', String b s' => if Ascii.eqb a b then strip_prefix p' s' else None
  | String _ _, EmptyString => None
  end.

(** [s.strip_suffix(c)] for an ASCII [char]. *)
Fixpoint strip_suffix_char (c : ascii) (s : string) : option string :=
  match s with
  | EmptyString => None
  | String a EmptyString => if Ascii.eqb a c then Some EmptyString else None
  | String a r => String a <$> strip_suffix_char c r
  end.

(** [s.replace(pat, rep)] for a pattern that is not empty: left to right,
    without overlaps; [skip] bytes belong to the last match. *)
Fixpoint replace_go (pat rep : string) (skip : nat) (s : string) : string :=
  match s with
  | EmptyString => EmptyString
  | String a r =>
      match skip with
      | S k => replace_go pat rep k r
      | O =>
          if String.prefix pat s then rep ++ replace_go pat rep (String.length pat - 1) r
          else String a (replace_go pat rep 0 r)
      end
  end.
Definition replace (pat rep s : string) : string := replace_go pat rep 0 s.

(** [format!("{}", n)] for an unsigned integer. *)
Definition Z_dec (n : Z) : string := NilZero.string_of_uint (N.to_uint (Z.to_N n)).

(** [format!("{:#x}", n)] for an unsigned integer. *)
Definition Z_hex (n : Z) : string :=
  "0x" ++ HexadecimalString.NilZero.string_of_uint (N.to_hex_uint (Z.to_N n)).

(** [Display] of [core::str::Utf8Error]. *)
Definition Utf8Error_fmt (e : Utf8Error) : string :=
  match error_len e with
  | Some n => "invalid utf-8 sequence of " ++ Z_dec n ++ " bytes from index "
      ++ Z_dec (Z.of_nat (valid_up_to e))
  | None => "incomplete utf-8 byte sequence from index " ++ Z_dec (Z.of_nat (valid_up_to e))
  end.

(** [s.parse::<usize>()]: an optional sign ['+'], at least one digit, no overflow. *)
Definition parse_usize (s : string) : option Z :=
  let digits := default s (strip_prefix "+" s) in
  match NilZero.uint_of_string digits with
  | Some d =>
      let n := Z.of_N (N.of_uint d) in
      if n <? 2 ^ 64 then Some n else None
  | None => None
  end.

(** [char::to_digit(16)] and the digits of [{:x}]. *)
Definition hex_value (a : ascii) : option Z :=
  let n := Z.of_N (N_of_ascii a) in
  if (48 <=? n) && (n <=? 57) then Some (n - 48)
  else if (97 <=? n) && (n <=? 102) then Some (n - 87)
  else if (65 <=? n) && (n <=? 70) then Some (n - 55)
  else None.

Definition hex_digit (v : Z) : ascii :=
  ascii_of_N (Z.to_N (if v <? 10 then 48 + v else 87 + v)).

(** [format!("{:02x}", b)] for a [u8]. *)
Definition hex2 (b : Z) : string :=
  String (hex_digit (b / 16)) (String (hex_digit (b mod 16)) EmptyString).

(** [u8::from_str_radix(s, 16)] for [s] of at most two bytes. *)
Definition u8_from_hex (s : string) : option Z :=
  match s with
  | String a EmptyString => hex_value a
  | String a (String b EmptyString) =>
      if Ascii.eqb a "+" then hex_value b
      else match hex_value a, hex_value b with
           | Some x, Some y => Some (16 * x + y)
           | _, _ => None
           end
  | _ => None
  end.

(** ASCII classes, on bytes. *)
Definition is_ascii_alphabetic (a : ascii) : bool :=
  let n := Z.of_N (N_of_ascii a) in
  ((65 <=? n) && (n <=? 90)) || ((97 <=? n) && (n <=? 122)).
Definition is_ascii_digit (a : ascii) : bool :=
  let n := Z.of_N (N_of_ascii a) in (48 <=? n) && (n <=? 57).
Definition is_ascii_alphanumeric (a : ascii) : bool :=
  is_ascii_alphabetic a || is_ascii_digit a.

Fixpoint all_chars (f : ascii -> bool) (s : string) : bool :=
  match s with
  | EmptyString => true
  | String a r => f a && all_chars f r
  end.

(** [format!("{:?}", bytes)]. *)
Fixpoint debug_bytes_from (bs : list byte) : string :=
  (match bs with
   | [] => "]"
   | [b] => Z_dec (u8_of_byte b) ++ "]"
   | b :: bs' => Z_dec (u8_of_byte b) ++ ", " ++ debug_bytes_from bs'
   end)%string.
Definition debug_bytes (bs : list byte) : string := ("[" ++ debug_bytes_from bs)%string.

(** ** Lemmas *)

#[global] Arguments String.append !s1 s2 : simpl nomatch.

Lemma app_nil_r_str s : s ++ "" = s.
Proof. induction s as [|a s IH]; cbn; congruence. Qed.

Lemma app_assoc_str (a b c : string) : (a ++ b) ++ c = a ++ b ++ c.
Proof. induction a as [|x a IH]; cbn; congruence. Qed.

Lemma app_cons_str a s t : String a s ++ t = String a (s ++ t).
Proof. done. Qed.

Lemma length_app_str (a b : string) :
  String.length (a ++ b) = (String.length a + String.length b)%nat.
Proof. induction a as [|x a IH]; cbn; congruence. Qed.

Lemma app_inj_r_str (a b t : string) : a ++ t = b ++ t -> a = b.
Proof.
  revert b. induction a as [|x a IH]; intros [|y b] H; [done|..].
  - apply (f_equal String.length) in H. rewrite !length_app_str in H. cbn in H. lia.
  - apply (f_equal String.length) in H. rewrite !length_app_str in H. cbn in H. lia.
  - injection H as -> H. f_equal. by apply IH.
Qed.

Lemma contains_char_app c a b :
  contains_char c (a ++ b) = contains_char c a || contains_char c b.
Proof. induction a as [|x a IH]; cbn; [done|]. by rewrite IH, orb_assoc. Qed.

Lemma split_on_nonempty c s : split_on c s <> [].
Proof. destruct s as [|a s]; cbn; [done|]. repeat case_match; done. Qed.

Lemma split_on_none c s : contains_char c s = false -> split_on c s = [s].
Proof.
  induction s as [|a s IH]; cbn; [done|].
  intros [Ha Hs]%orb_false_iff. by rewrite Ha, IH.
Qed.

Lemma split_on_app c a b :
  contains_char c a = false -> split_on c (a ++ String c b) = a :: split_on c b.
Proof.
  induction a as [|x a IH]; cbn.
  - intros _. by rewrite Ascii.eqb_refl.
  - intros [Ha Hs]%orb_false_iff. by rewrite Ha, IH.
Qed.

Lemma split_on_cons_sep c s : split_on c (String c s) = "" :: split_on c s.
Proof. cbn. by rewrite Ascii.eqb_refl. Qed.

Lemma split_on_app_sep c a b :
  split_on c (a ++ String c b) = (split_on c a ++ split_on c b)%list.
Proof.
  induction a as [|x a IH]; cbn [append].
  - by rewrite split_on_cons_sep.
  - cbn [split_on]. destruct (Ascii.eqb x c); [by rewrite IH|].
    rewrite IH. pose proof (split_on_nonempty c a).
    by destruct (split_on c a) as [|p ps].
Qed.

Lemma split_on_join c ps :
  ps <> [] -> Forall (fun p => contains_char c p = false) ps ->
  split_on c (join_on c ps) = ps.
Proof.
  intros Hne Hf. induction Hf as [|p ps Hp Hf IH]; [done|].
  destruct ps as [|q ps]; [by apply split_on_none|].
  change (join_on c (p :: q :: ps)) with (p ++ String c (join_on c (q :: ps))).
  rewrite split_on_app by done. by rewrite IH.
Qed.

Lemma join_split_on c s : join_on c (split_on c s) = s.
Proof.
  induction s as [|a s IH]; [done|]. cbn [split_on].
  pose proof (split_on_nonempty c s) as Hne.
  destruct (Ascii.eqb_spec a c) as [->|Ha].
  - destruct (split_on c s) as [|p ps]; [done|].
    change (join_on c ("" :: p :: ps)) with (String c (join_on c (p :: ps))). by rewrite IH.
  - destruct (split_on c s) as [|p [|q ps]]; [done|..]; cbn in *; by rewrite IH.
Qed.

Lemma split_on_pieces c s : Forall (fun p => contains_char c p = false) (split_on c s).
Proof.
  induction s as [|a s IH]; cbn; [by repeat constructor|].
  destruct (Ascii.eqb a c) eqn:E; [by constructor|].
  destruct (split_on c s) as [|p ps]; inversion_clear IH; constructor; try done.
  - cbn. by rewrite E.
  - cbn. by rewrite E.
Qed.

Lemma strip_prefix_app p s : strip_prefix p (p ++ s) = Some s.
Proof. induction p as [|a p IH]; cbn; [done|]. by rewrite Ascii.eqb_refl. Qed.

Lemma strip_prefix_Some p s r : strip_prefix p s = Some r -> s = p ++ r.
Proof.
  revert s. induction p as [|a p IH]; intros s; cbn; [congruence|].
  destruct s as [|b s]; [done|]. destruct (Ascii.eqb_spec a b) as [->|]; [|done].
  intros H. by rewrite (IH _ H).
Qed.

Lemma starts_with_char_prefix c s :
  starts_with_char c s = true <-> exists r, s = String c r.
Proof.
  destruct s as [|a s]; cbn; [split; [done|by intros [? ?]]|].
  rewrite Ascii.eqb_eq. split; [intros ->; eauto | by intros [r [= -> _]]].
Qed.

Lemma strip_suffix_char_Some c s r : strip_suffix_char c s = Some r -> s = r ++ String c "".
Proof.
  revert r. induction s as [|a s IH]; intros r; [done|]. destruct s as [|b s].
  - cbn. destruct (Ascii.eqb_spec a c) as [->|]; [|done]. by intros [= <-].
  - change (strip_suffix_char c (String a (String b s)))
      with (String a <$> strip_suffix_char c (String b s)).
    destruct (strip_suffix_char c (String b s)) as [t|]; [|done].
    intros [= <-]. rewrite (IH t eq_refl). done.
Qed.

Lemma strip_suffix_char_app c s : strip_suffix_char c (s ++ String c "") = Some s.
Proof.
  induction s as [|a s IH]; cbn; [by rewrite Ascii.eqb_refl|].
  destruct s as [|b s]; cbn in *; by rewrite IH.
Qed.

Lemma ends_with_strip c s :
  ends_with_char c s = match strip_suffix_char c s with Some _ => true | None => false end.
Proof.
  induction s as [|a s IH]; [done|]. destruct s as [|b s].
  - cbn. by destruct (Ascii.eqb a c).
  - change (ends_with_char c (String b s) = match String a <$> strip_suffix_char c (String b s)
      with Some _ => true | None => false end).
    rewrite IH. by destruct (strip_suffix_char c (String b s)).
Qed.

Lemma strip_suffix_char_None c s : ends_with_char c s = false -> strip_suffix_char c s = None.
Proof. rewrite ends_with_strip. by destruct (strip_suffix_char c s). Qed.

(** Replacing one character by another. *)
Lemma replace_char_cons c rep a s :
  replace (String c "") rep (String a s) =
    (if Ascii.eqb a c then rep else String a "") ++ replace (String c "") rep s.
Proof.
  unfold replace. cbn [replace_go String.prefix String.length Nat.sub].
  destruct (ascii_dec c a) as [->|Hne].
  - rewrite Ascii.eqb_refl. by destruct s.
  - destruct (Ascii.eqb_spec a c); [congruence|done].
Qed.

Lemma replace_char_absent c rep s :
  contains_char c s = false -> replace (String c "") rep s = s.
Proof.
  induction s as [|a s IH]; [done|]. cbn [contains_char]. intros [Ha Hs]%orb_false_iff.
  by rewrite replace_char_cons, Ha, IH.
Qed.

Lemma replace_char_contains c rep s :
  contains_char c rep = false -> contains_char c (replace (String c "") rep s) = false.
Proof.
  intros Hr. induction s as [|a s IH]; [done|].
  rewrite replace_char_cons, contains_char_app, IH, orb_false_r.
  destruct (Ascii.eqb a c) eqn:E; [done|]. cbn. by rewrite E.
Qed.

Lemma replace_char_other c d rep s :
  contains_char d rep = false -> contains_char d s = false ->
  contains_char d (replace (String c "") rep s) = false.
Proof.
  intros Hr. induction s as [|a s IH]; [done|]. cbn [contains_char].
  intros [Ha Hs]%orb_false_iff. rewrite replace_char_cons, contains_char_app, IH by done.
  rewrite orb_false_r. destruct (Ascii.eqb a c); [done|]. cbn. by rewrite Ha.
Qed.

(** Replacing [c] by [d] and back is the identity on strings without [d]. *)
Lemma replace_char_inverse c d s :
  contains_char d s = false ->
  replace (String d "") (String c "") (replace (String c "") (String d "") s) = s.
Proof.
  induction s as [|a s IH]; [done|]. cbn [contains_char]. intros [Ha Hs]%orb_false_iff.
  rewrite replace_char_cons. destruct (Ascii.eqb_spec a c) as [->|Hne]; cbn [append];
    rewrite replace_char_cons, (IH Hs).
  - by rewrite Ascii.eqb_refl.
  - by rewrite Ha.
Qed.

(** *** Decimal numbers *)

Lemma uint_nonnil n : N.to_uint n <> Decimal.Nil.
Proof. destruct n as [|p]; [done|]. apply DecimalPos.Unsigned.to_uint_nonnil. Qed.

Lemma string_of_uint_digits d : all_chars is_ascii_digit (NilZero.string_of_uint d) = true.
Proof.
  assert (forall d, all_chars is_ascii_digit (NilEmpty.string_of_uint d) = true) as Hd.
  { clear. induction d; cbn; try done. }
  destruct d; try apply Hd. done.
Qed.

Lemma Z_dec_digits n : all_chars is_ascii_digit (Z_dec n) = true.
Proof. apply string_of_uint_digits. Qed.

Lemma all_chars_contains f c s :
  all_chars f s = true -> f c = false -> contains_char c s = false.
Proof.
  intros Hs Hc. induction s as [|a s IH]; [done|]. cbn in *.
  apply andb_true_iff in Hs as [Ha Hs]. rewrite IH by done.
  destruct (Ascii.eqb_spec a c); [congruence|done].
Qed.

Lemma Z_dec_contains c n : is_ascii_digit c = false -> contains_char c (Z_dec n) = false.
Proof. apply all_chars_contains, Z_dec_digits. Qed.

Lemma parse_usize_Z_dec n : 0 <= n < 2 ^ 64 -> parse_usize (Z_dec n) = Some n.
Proof.
  intros Hn. unfold parse_usize.
  assert (strip_prefix "+" (Z_dec n) = None) as ->.
  { pose proof (Z_dec_contains "+" n eq_refl) as Hc.
    destruct (Z_dec n) as [|a s]; [done|]. cbn [contains_char] in Hc.
    change (strip_prefix "+" (String a s)) with (if Ascii.eqb "+" a then Some s else None).
    apply orb_false_iff in Hc as [Ha _]. rewrite Ascii.eqb_sym. by rewrite Ha. }
  cbn [default]. unfold Z_dec. rewrite NilZero.usu by apply uint_nonnil.
  rewrite DecimalN.Unsigned.of_to, Z2N.id by lia.
  by destruct (Z.ltb_spec n (2 ^ 64)); [|lia].
Qed.

(** *** Hexadecimal *)

Lemma hex_value_digit v : 0 <= v < 16 -> hex_value (hex_digit v) = Some v.
Proof.
  intros Hv. assert (v = 0 \/ v = 1 \/ v = 2 \/ v = 3 \/ v = 4 \/ v = 5 \/ v = 6 \/ v = 7 \/
    v = 8 \/ v = 9 \/ v = 10 \/ v = 11 \/ v = 12 \/ v = 13 \/ v = 14 \/ v = 15) as Hc by lia.
  repeat (destruct Hc as [->|Hc]; [done|]). by subst.
Qed.

Lemma hex_digit_alnum v : 0 <= v < 16 -> is_ascii_alphanumeric (hex_digit v) = true.
Proof.
  intros Hv. assert (v = 0 \/ v = 1 \/ v = 2 \/ v = 3 \/ v = 4 \/ v = 5 \/ v = 6 \/ v = 7 \/
    v = 8 \/ v = 9 \/ v = 10 \/ v = 11 \/ v = 12 \/ v = 13 \/ v = 14 \/ v = 15) as Hc by lia.
  repeat (destruct Hc as [->|Hc]; [done|]). by subst.
Qed.

Lemma hex2_chars b : 0 <= b < 256 -> all_chars is_ascii_alphanumeric (hex2 b) = true.
Proof.
  intros Hb. unfold hex2. cbn [all_chars]. rewrite !hex_digit_alnum; [done| |].
  - apply Z.mod_pos_bound. lia.
  - split; [apply Z.div_pos; lia | apply Z.div_lt_upper_bound; lia].
Qed.

Lemma u8_from_hex2 b : 0 <= b < 256 -> u8_from_hex (hex2 b) = Some b.
Proof.
  intros Hb. unfold hex2, u8_from_hex.
  assert (0 <= b / 16 < 16) as Hq
    by (split; [apply Z.div_pos; lia | apply Z.div_lt_upper_bound; lia]).
  pose proof (Z.mod_pos_bound b 16 ltac:(lia)) as Hm.
  pose proof (hex_digit_alnum _ Hq) as Ha.
  destruct (Ascii.eqb_spec (hex_digit (b / 16)) "+") as [E|_]; [by rewrite E in Ha|].
  rewrite !hex_value_digit by done. f_equal. pose proof (Z.div_mod b 16). lia.
Qed.

(** *** Patterns and suffixes *)

(** A pattern whose first character does not occur is not replaced. *)
Lemma replace_absent c p rep s :
  contains_char c s = false -> replace (String c p) rep s = s.
Proof.
  unfold replace. induction s as [|a s IH]; [done|]. cbn [contains_char]. intros [Ha Hs]%orb_false_iff.
  cbn [replace_go String.prefix]. destruct (ascii_dec c a) as [->|_]; [by rewrite Ascii.eqb_refl in Ha|].
  by rewrite IH.
Qed.

Lemma replace_go_skip pat rep p s : replace_go pat rep (String.length p) (p ++ s) = replace_go pat rep 0 s.
Proof. induction p as [|a p IH]; [done|exact IH]. Qed.

Lemma prefix_app_str p s : String.prefix p (p ++ s) = true.
Proof.
  induction p as [|a p IH]; [by destruct s|]. cbn. destruct (ascii_dec a a) as [_|]; [exact IH|done].
Qed.

(** The first occurrence, after a text without the pattern's first character. *)
Lemma replace_first c p rep a b :
  contains_char c a = false ->
  replace (String c p) rep (a ++ String c p ++ b) = a ++ rep ++ replace (String c p) rep b.
Proof.
  unfold replace. induction a as [|x a IH]; cbn [contains_char append].
  - intros _. cbn [replace_go]. change (String c (p ++ b)) with (String c p ++ b). rewrite prefix_app_str.
    cbn [String.length]. rewrite Nat.sub_succ, Nat.sub_0_r. by rewrite replace_go_skip.
  - intros [Hx Ha]%orb_false_iff. cbn [replace_go String.prefix].
    destruct (ascii_dec c x) as [->|_]; [by rewrite Ascii.eqb_refl in Hx|]. by rewrite <- IH.
Qed.

Lemma ends_with_char_app c a b : b <> "" -> ends_with_char c (a ++ b) = ends_with_char c b.
Proof.
  intros Hb. induction a as [|x a IH]; [done|]. cbn [append ends_with_char]. rewrite <- IH.
  destruct a; [|done]. by destruct b.
Qed.

Lemma starts_with_char_app c a b : a <> "" -> starts_with_char c (a ++ b) = starts_with_char c a.
Proof. by destruct a. Qed.
