(* ===== verification/RustText.v ===== *)
(** * Text processing of the Rust standard library

    [str::lines], [trim], [split_whitespace], [find], [splitn], slicing, and the
    parsing of [i64] and [f64], as the message parser uses them.  White space is
    Unicode's White_Space, on the UTF-8 bytes. *)
From S2P Require Import Prelude Utf8 RustStr.
From Stdlib Require Import DecimalString.
Open Scope string_scope.
Open Scope Z_scope.

(** ** Definitions *)

Definition code (a : ascii) : Z := Z.of_N (N_of_ascii a).

(** The bytes of the white space [char] at the front, 0 when there is none. *)
Definition ws_width (s : string) : nat :=
  match s with
  | EmptyString => 0%nat
  | String a r =>
      if ((9 <=? code a) && (code a <=? 13)) || (code a =? 32) then 1%nat
      else match r with
      | EmptyString => 0%nat
      | String b r' =>
          if (code a =? 0xC2) && ((code b =? 0x85) || (code b =? 0xA0)) then 2%nat
          else match r' with
          | EmptyString => 0%nat
          | String c _ =>
              if ((code a =? 0xE1) && (code b =? 0x9A) && (code c =? 0x80)) ||
                 ((code a =? 0xE2) && (code b =? 0x80) &&
                  (((0x80 <=? code c) && (code c <=? 0x8A)) || (code c =? 0xA8)
                   || (code c =? 0xA9) || (code c =? 0xAF))) ||
                 ((code a =? 0xE2) && (code b =? 0x81) && (code c =? 0x9F)) ||
                 ((code a =? 0xE3) && (code b =? 0x80) && (code c =? 0x80)) then 3%nat
              else 0%nat
          end
      end
  end.

(** Only white space; [skip] bytes belong to the last one. *)
Fixpoint all_ws (skip : nat) (s : string) : bool :=
  match s with
  | EmptyString => true
  | String _ r =>
      match skip with
      | S k => all_ws k r
      | O => match ws_width s with S k => all_ws k r | O => false end
      end
  end.

Fixpoint trim_start_go (skip : nat) (s : string) : string :=
  match s with
  | EmptyString => EmptyString
  | String _ r =>
      match skip with
      | S k => trim_start_go k r
      | O => match ws_width s with S k => trim_start_go k r | O => s end
      end
  end.
Definition trim_start (s : string) : string := trim_start_go 0 s.
Fixpoint trim_end (s : string) : string :=
  match s with
  | EmptyString => EmptyString
  | String a r => if all_ws 0 s then EmptyString else String a (trim_end r)
  end.
(** [s.trim()]. *)
Definition trim (s : string) : string := trim_end (trim_start s).

(** [s.split_whitespace()]. *)
Fixpoint ws_pieces (skip : nat) (s : string) : list string :=
  match s with
  | EmptyString => [EmptyString]
  | String a r =>
      match skip with
      | S k => ws_pieces k r
      | O =>
          match ws_width s with
          | S k => EmptyString :: ws_pieces k r
          | O => match ws_pieces 0 r with
                 | [] => [String a EmptyString]
                 | p :: ps => String a p :: ps
                 end
          end
      end
  end.
Definition nonempty (s : string) : bool := negb (String.eqb s EmptyString).
Definition split_whitespace (s : string) : list string := List.filter nonempty (ws_pieces 0 s).

(** [s.lines()]: a line loses its newline, and a carriage return before it. *)
Definition newline : ascii := "010".
Definition carriage_return : ascii := "013".
Fixpoint lines_of (pieces : list string) : list string :=
  match pieces with
  | [] => []
  | [p] => if nonempty p then [p] else []
  | p :: ps => default p (strip_suffix_char carriage_return p) :: lines_of ps
  end.
Definition lines (s : string) : list string := lines_of (split_on newline s).

(** [s.find(c)] for an ASCII [char], [s.find("..")], [s.matches(c).count()]. *)
Fixpoint find_char (c : ascii) (s : string) : option nat :=
  match s with
  | EmptyString => None
  | String a r => if Ascii.eqb a c then Some O else S <$> find_char c r
  end.
Definition find_str (pat s : string) : option nat := String.index 0 pat s.
Fixpoint count_char (c : ascii) (s : string) : nat :=
  match s with
  | EmptyString => O
  | String a r => if Ascii.eqb a c then S (count_char c r) else count_char c r
  end.

(** [s.splitn(2, c)]: one piece without [c], else what is around the first. *)
Definition splitn2 (c : ascii) (s : string) : list string :=
  match find_char c s with
  | None => [s]
  | Some i => [String.substring 0 i s; String.substring (S i) (String.length s - S i) s]
  end.

(** [&s\[a..b\]]; every index the code uses is next to an ASCII [char], so only
    the range can be wrong. *)
Definition str_slice {E} (s : string) (a b : nat) : res E string :=
  if decide (a <= b /\ b <= String.length s)%nat then Ok (String.substring a (b - a) s) else Panic.

(** [parts.join(" ")]. *)
Definition join_space (ps : list string) : string := String.concat " " ps.

(** [s.parse::<i64>()]. *)
Definition parse_i64 (s : string) : option Z :=
  let '(neg, digits) :=
    match s with
    | String a r => if Ascii.eqb a "-" then (true, r) else if Ascii.eqb a "+" then (false, r)
                    else (false, s)
    | EmptyString => (false, s)
    end in
  match NilZero.uint_of_string digits with
  | Some d =>
      let n := Z.of_N (N.of_uint d) in
      let n := if (neg : bool) then - n else n in
      if (- 2 ^ 63 <=? n) && (n <? 2 ^ 63) then Some n else None
  | None => None
  end.

(** [s.parse::<f64>()]: the bits of the binary64 nearest to [m * 10^e], ties to
    even.  The bounds on the decimal exponent are beyond the finite range. *)
Definition f64_bits (neg : bool) (m e : Z) : Z :=
  let sign := if neg then 2 ^ 63 else 0 in
  let inf := 2047 * 2 ^ 52 in
  if m =? 0 then sign
  else
    let magnitude := Z.log2 m * 30103 / 100000 + e in
    if 310 <? magnitude then sign + inf
    else if magnitude <? -330 then sign
    else
      let num := m * 10 ^ Z.max e 0 in
      let den := 10 ^ Z.max (- e) 0 in
      let k := Z.log2 num - Z.log2 den in
      let k := if (num * 2 ^ Z.max (- k) 0 <? den * 2 ^ Z.max k 0) then k - 1 else k in
      let e2 := Z.max (k - 52) (-1074) in
      let a := num * 2 ^ Z.max (- e2) 0 in
      let b := den * 2 ^ Z.max e2 0 in
      let q := a / b in
      let r := 2 * (a mod b) in
      let q := if (b <? r) || ((r =? b) && Z.odd q) then q + 1 else q in
      sign + Z.min inf ((e2 + 1075) * 2 ^ 52 + (q - 2 ^ 52)).

Definition digit (a : ascii) : Z := code a - 48.
(** The leading digits: their value after [acc], how many, and the rest. *)
Fixpoint take_digits (acc : Z) (n : nat) (s : string) : Z * nat * string :=
  match s with
  | String a r => if is_ascii_digit a then take_digits (10 * acc + digit a) (S n) r else (acc, n, s)
  | EmptyString => (acc, n, s)
  end.
Definition to_lower (a : ascii) : ascii :=
  if (65 <=? code a) && (code a <=? 90) then ascii_of_N (Z.to_N (code a + 32)) else a.
Fixpoint lowercase (s : string) : string :=
  match s with EmptyString => EmptyString | String a r => String (to_lower a) (lowercase r) end.

Definition parse_exponent (s : string) : option Z :=
  match s with
  | EmptyString => Some 0
  | String a r =>
      if Ascii.eqb (to_lower a) "e" then
        let '(neg, r) := match r with
          | String b r' => if Ascii.eqb b "-" then (true, r') else if Ascii.eqb b "+" then (false, r')
                           else (false, r)
          | EmptyString => (false, r)
          end in
        match take_digits 0 0 r with
        | (x, S _, EmptyString) => Some (if (neg : bool) then - x else x)
        | _ => None
        end
      else None
  end.
Definition parse_f64_unsigned (neg : bool) (s : string) : option Z :=
  let special := if neg then 2 ^ 63 else 0 in
  let low := lowercase s in
  if String.eqb low "inf" || String.eqb low "infinity" then Some (special + 2047 * 2 ^ 52)
  else if String.eqb low "nan" then Some (special + 2047 * 2 ^ 52 + 2 ^ 51)
  else
    let '(m, n, r) := take_digits 0 0 s in
    let '(m, f, r) := match r with
      | String a r' => if Ascii.eqb a "." then take_digits m 0 r' else (m, O, r)
      | EmptyString => (m, O, r)
      end in
    if Nat.eqb (n + f) 0 then None
    else e ← parse_exponent r; Some (f64_bits neg m (e - Z.of_nat f)).
Definition parse_f64 (s : string) : option Z :=
  match s with
  | String a r =>
      if Ascii.eqb a "-" then parse_f64_unsigned true r
      else if Ascii.eqb a "+" then parse_f64_unsigned false r
      else parse_f64_unsigned false s
  | EmptyString => None
  end.

(** ** Lemmas *)

Example parse_f64_values :
  map parse_f64 ["0.1"; "1"; "-2.5e3"; "1e400"; "5e-324"; "1.7976931348623157e308"; "."; "1e"; "NaN"]
  = [Some 0x3FB999999999999A; Some 0x3FF0000000000000; Some 0xC0A3880000000000;
     Some 0x7FF0000000000000; Some 1; Some 0x7FEFFFFFFFFFFFFF; None; None; Some 0x7FF8000000000000].
Proof. vm_compute. reflexivity. Qed.

Example split_whitespace_values :
  split_whitespace "  a	bc  d " = ["a"; "bc"; "d"] /\ trim " a b " = "a b" /\
  lines ("a" ++ String carriage_return (String newline "b")) = ["a"; "b"].
Proof. vm_compute. auto. Qed.
