(* ===== verification/RustColl.v ===== *)
(** * Ordered collections of the Rust standard library

    [BTreeMap<String, V>] and [slice::sort_by] on a string key.  Strings are
    ordered by their bytes. A [BTreeMap] is a [gmap] with an iteration in the
    order of its keys; [sort_by] is stable, as in Rust. *)
From stdpp Require Import gmap strings sorting.
From S2P Require Import Prelude Utf8 RustStr.
Open Scope string_scope.

(** ** Definitions *)

(** [a.cmp(b) != Greater] on strings. *)
Definition str_le (a b : string) : Prop := String.leb a b = true.
#[export] Instance str_le_dec : RelDecision str_le := fun a b => decide (String.leb a b = true).

(** [v.sort_by(|a, b| a.key.cmp(&b.key))]: a stable sort. *)
Fixpoint insert_by {A} (key : A -> string) (x : A) (l : list A) : list A :=
  match l with
  | [] => [x]
  | y :: l' => if String.leb (key x) (key y) then x :: l else y :: insert_by key x l'
  end.
Definition sort_by {A} (key : A -> string) (l : list A) : list A := foldr (insert_by key) [] l.

(** [BTreeMap::iter] and [into_values]. *)
Definition btree_iter {V} (m : gmap string V) : list (string * V) := sort_by fst (map_to_list m).
Definition btree_values {V} (m : gmap string V) : list V := map snd (btree_iter m).

(** [str::ends_with], [strip_suffix] and [contains] with a string pattern. *)
Definition strip_suffix (p s : string) : option string :=
  let n := (String.length s - String.length p)%nat in
  if (String.length p <=? String.length s)%nat && String.eqb (String.substring n (String.length p) s) p
  then Some (String.substring 0 n s) else None.
Definition ends_with (p s : string) : bool :=
  match strip_suffix p s with Some _ => true | None => false end.
Fixpoint str_contains (p s : string) : bool :=
  String.prefix p s || match s with String _ r => str_contains p r | EmptyString => false end.

(** ** Lemmas *)

Lemma str_compare_lt_trans a b c :
  String.compare a b = Lt -> String.compare b c = Lt -> String.compare a c = Lt.
Proof.
  assert (forall x y : ascii, Ascii.compare x y = Eq -> x = y) as He by apply Ascii.compare_eq_iff.
  revert b c. induction a as [|x a IH]; intros [|y b] [|z c]; cbn; try done.
  unfold Ascii.compare in *.
  destruct (N.compare_spec (N_of_ascii x) (N_of_ascii y)) as [H1|H1|H1]; try done;
    destruct (N.compare_spec (N_of_ascii y) (N_of_ascii z)) as [H2|H2|H2]; try done;
    destruct (N.compare_spec (N_of_ascii x) (N_of_ascii z)) as [H3|H3|H3]; try done; try lia.
  apply IH.
Qed.

#[export] Instance str_le_trans : Transitive str_le.
Proof.
  intros a b c. unfold str_le, String.leb. intros H1 H2.
  destruct (String.compare a b) eqn:E1; [|clear H1|done].
  - apply String.compare_eq_iff in E1 as ->. done.
  - destruct (String.compare b c) eqn:E2; [|clear H2|done].
    + apply String.compare_eq_iff in E2 as <-. by rewrite E1.
    + by rewrite (str_compare_lt_trans _ _ _ E1 E2).
Qed.
#[export] Instance str_le_antisymm : AntiSymm (=) str_le.
Proof. intros a b. apply String.leb_antisym. Qed.
#[export] Instance str_le_total : Total str_le.
Proof. intros a b. apply String.leb_total. Qed.

Section Sort.
Context {A : Type} (key : A -> string).
Definition key_le (x y : A) : Prop := str_le (key x) (key y).

Lemma insert_by_perm x l : insert_by key x l ≡ₚ x :: l.
Proof.
  induction l as [|y l IH]; [done|]. cbn. destruct (String.leb _ _); [done|].
  rewrite IH. apply Permutation_swap.
Qed.

Lemma sort_by_perm l : sort_by key l ≡ₚ l.
Proof. induction l as [|x l IH]; [done|]. cbn. by rewrite insert_by_perm, IH. Qed.

Lemma insert_by_sorted x l : StronglySorted key_le l -> StronglySorted key_le (insert_by key x l).
Proof.
  induction 1 as [|y l Hs IH Hy]; cbn; [repeat constructor|].
  destruct (String.leb (key x) (key y)) eqn:E.
  - constructor; [by constructor|]. constructor; [done|].
    eapply Forall_impl; [exact Hy|]. intros z Hz. exact (str_le_trans _ _ _ E Hz).
  - constructor; [done|]. rewrite insert_by_perm. constructor; [|done].
    destruct (str_le_total (key x) (key y)) as [H|H]; [congruence | done].
Qed.

Lemma sort_by_sorted l : StronglySorted key_le (sort_by key l).
Proof. induction l as [|x l IH]; cbn; [constructor | by apply insert_by_sorted]. Qed.

(** Sorting forgets the order when the keys are distinct. *)
Lemma sort_by_unique l k :
  NoDup (map key l) -> l ≡ₚ k -> sort_by key l = sort_by key k.
Proof.
  intros Hn Hp.
  apply (StronglySorted_unique_strong key_le); [|apply sort_by_sorted..|by rewrite !sort_by_perm].
  intros x y Hx Hy Hxy Hyx. rewrite sort_by_perm in Hx, Hy.
  assert (key x = key y) as He by (by apply (anti_symm str_le)).
  clear -Hn Hx Hy He Hp. rewrite <- Hp in Hy. clear Hp. induction l as [|z l IH]; [by apply elem_of_nil in Hx|].
  cbn in Hn. apply NoDup_cons in Hn as [Hz Hn].
  apply elem_of_cons in Hx as [->|Hx], Hy as [->|Hy]; [done| | |by apply IH].
  - destruct Hz. rewrite He. by apply list_elem_of_fmap_2.
  - destruct Hz. rewrite <- He. by apply list_elem_of_fmap_2.
Qed.

Lemma sort_by_sorted_id l : StronglySorted key_le l -> sort_by key l = l.
Proof.
  induction 1 as [|x l Hs IH Hx]; [done|].
  change (insert_by key x (sort_by key l) = x :: l). rewrite IH.
  destruct l as [|y l]; [done|]. cbn. inversion_clear Hx as [|?? Hy _].
  unfold key_le, str_le in Hy. by rewrite Hy.
Qed.
End Sort.

Lemma btree_iter_elem {V} (m : gmap string V) k v : (k, v) ∈ btree_iter m <-> m !! k = Some v.
Proof. unfold btree_iter. rewrite sort_by_perm. apply elem_of_map_to_list. Qed.

Lemma btree_values_elem {V} (m : gmap string V) v :
  v ∈ btree_values m <-> exists k, m !! k = Some v.
Proof.
  unfold btree_values. rewrite list_elem_of_fmap. split.
  - intros ([k w] & -> & H). exists k. by apply btree_iter_elem.
  - intros [k H]. exists (k, v). split; [done|]. by apply btree_iter_elem.
Qed.

Lemma substring_front a b : String.substring 0 (String.length a) (a ++ b) = a.
Proof. induction a as [|c a IH]; [by destruct b|]. exact (f_equal (String c) IH). Qed.

Lemma substring_back a b :
  String.substring (String.length a) (String.length b) (a ++ b) = b.
Proof.
  induction a as [|c a IH]; [|done]. cbn. pose proof (substring_front b "") as H.
  by rewrite app_nil_r_str in H.
Qed.

Lemma substring_parts n s :
  (n <= String.length s)%nat ->
  String.substring 0 n s ++ String.substring n (String.length s - n) s = s.
Proof.
  revert n. induction s as [|c s IH]; intros [|n] H; cbn in *; try done; try lia.
  - f_equal. specialize (IH 0%nat ltac:(lia)). rewrite Nat.sub_0_r in IH.
    destruct s; exact IH.
  - apply (f_equal (String c)). apply IH. lia.
Qed.

Lemma strip_suffix_Some p s r : strip_suffix p s = Some r <-> s = r ++ p.
Proof.
  unfold strip_suffix. split.
  - destruct (Nat.leb_spec (String.length p) (String.length s)) as [Hle|]; [|done]. cbn [andb].
    destruct (String.eqb_spec (String.substring (String.length s - String.length p) (String.length p) s) p)
      as [He|]; [|done].
    intros [= <-]. rewrite <- (substring_parts (String.length s - String.length p) s) at 1 by lia.
    f_equal. by replace (String.length s - (String.length s - String.length p))%nat
      with (String.length p) by lia.
  - intros ->. rewrite length_app_str, Nat.add_sub.
    destruct (Nat.leb_spec (String.length p) (String.length r + String.length p)); [|lia].
    by rewrite substring_back, String.eqb_refl, substring_front.
Qed.

Lemma ends_with_iff p s : ends_with p s = true <-> exists r, s = r ++ p.
Proof.
  unfold ends_with. destruct (strip_suffix p s) as [r|] eqn:E.
  - split; [|done]. intros _. exists r. by apply strip_suffix_Some.
  - split; [done|]. intros [r Hr]. apply strip_suffix_Some in Hr. congruence.
Qed.

Lemma prefix_iff p s : String.prefix p s = true <-> exists b, s = p ++ b.
Proof.
  split.
  - revert s. induction p as [|c p IH]; intros s H; [by exists s|]. destruct s as [|d s]; [done|]. cbn in H.
    destruct (ascii_dec c d) as [<-|]; [|done]. destruct (IH s H) as [b ->]. by exists b.
  - intros [b ->]. induction p as [|c p IH]; [by destruct b|]. cbn. by destruct (ascii_dec c c).
Qed.

Lemma str_contains_iff p s : str_contains p s = true <-> exists a b, s = a ++ p ++ b.
Proof.
  split.
  - induction s as [|c s IH]; cbn [str_contains].
    + rewrite orb_false_r. intros [b Hb]%prefix_iff. by exists "", b.
    + intros [[b Hb]%prefix_iff|H]%orb_true_iff; [by exists "", b|].
      destruct (IH H) as (a & b & ->). by exists (String c a), b.
  - intros (a & b & ->). induction a as [|c a IH]; cbn [append].
    + assert (String.prefix p (p ++ b) = true) as H by (apply prefix_iff; by eexists).
      destruct (p ++ b); cbn [str_contains]; by rewrite H.
    + cbn [str_contains]. by rewrite IH, orb_true_r.
Qed.

(** A stable sort keeps an order that the list has among equal keys. *)
Section Stable.
Context {A : Type} (key : A -> string) (le2 : A -> A -> Prop).
Definition lex_le (x y : A) : Prop := str_le (key x) (key y) /\ (key x = key y -> le2 x y).

Lemma insert_by_stable x l :
  Forall (le2 x) l -> StronglySorted lex_le l -> StronglySorted lex_le (insert_by key x l).
Proof.
  intros Hx Hs. induction Hs as [|y l Hs IH Hy]; cbn; [repeat constructor|]. apply Forall_cons in Hx as [Hxy Hx].
  destruct (String.leb (key x) (key y)) eqn:E.
  - constructor; [by constructor|]. constructor; [by split|].
    apply list.Forall_forall. intros z Hz. split.
    + apply (str_le_trans _ (key y)); [done|]. by apply (proj1 (list.Forall_forall _ _) Hy).
    + intros _. by apply (proj1 (list.Forall_forall _ _) Hx).
  - constructor; [by apply IH|]. rewrite insert_by_perm. constructor; [|done].
    destruct (str_le_total (key x) (key y)) as [H|H]; [unfold str_le in H; congruence|]. split; [done|].
    intros He. unfold str_le in H. rewrite He in H. congruence.
Qed.

Lemma sort_by_stable l : StronglySorted le2 l -> StronglySorted lex_le (sort_by key l).
Proof.
  induction 1 as [|x l Hs IH Hx]; [constructor|]. apply (insert_by_stable x (sort_by key l)); [|done].
  by rewrite sort_by_perm.
Qed.
End Stable.
