(* ===== verification/TopicName.v ===== *)
(** * Topic and service name qualification (crates/ros-z/src/topic_name.rs)

    [qualify_topic_name] with its validation helpers, every branch and error.
    The theorems give the components of the qualified name, the exact inputs
    that qualify, and the stability of a qualified name. *)
From S2P Require Import Prelude Utf8 RustStr.
Open Scope string_scope.

(** ** Definitions *)

(** [enum TopicNameError]. *)
Inductive TopicNameError :=
| Empty
| EndsWithSlash
| InvalidCharacters (s : string)
| InvalidNamespace (s : string)
| InvalidNodeName (s : string).

(** [impl Display for TopicNameError]. *)
Definition TopicNameError_fmt (e : TopicNameError) : string :=
  match e with
  | Empty => "Topic name is empty"
  | EndsWithSlash => "Topic name ends with forward slash"
  | InvalidCharacters s => "Topic name contains invalid characters: " ++ s
  | InvalidNamespace s => "Invalid namespace: " ++ s
  | InvalidNodeName s => "Invalid node name: " ++ s
  end.

Definition is_empty_str (s : string) : bool := String.eqb s "".

(** [is_valid_topic_component]. *)
Definition is_valid_topic_component (component : string) : bool :=
  match component with
  | EmptyString => false
  | String b0 rest =>
      if negb (is_ascii_alphabetic b0) && negb (Ascii.eqb b0 "_") then false
      else all_chars (fun b => is_ascii_alphanumeric b || Ascii.eqb b "_") rest
  end.

(** [validate_namespace]. *)
Definition validate_namespace (namespace : string) : res TopicNameError unit :=
  if is_empty_str namespace || String.eqb namespace "/" then Ok tt
  else if ends_with_char "/" namespace then
    Err (InvalidNamespace "namespace cannot end with '/'")
  else
    for_each (fun _ part =>
      if is_empty_str part then Ok tt
      else if negb (is_valid_topic_component part) then
        Err (InvalidNamespace ("invalid component '" ++ part ++ "'"))
      else Ok tt) tt (split_on "/" namespace).

(** [validate_node_name]. *)
Definition validate_node_name (node_name : string) : res TopicNameError unit :=
  if is_empty_str node_name then Err (InvalidNodeName "node name is empty")
  else if negb (is_valid_topic_component node_name) then
    Err (InvalidNodeName ("invalid node name '" ++ node_name ++ "'"))
  else Ok tt.

(** The namespace starts with a slash unless it is empty. *)
Definition normalize_namespace (namespace : string) : string :=
  if is_empty_str namespace then ""
  else if starts_with_char "/" namespace then namespace
  else "/" ++ namespace.

(** [qualify_topic_name]. *)
Definition qualify_topic_name (topic namespace node_name : string)
    : res TopicNameError string :=
  if is_empty_str topic then Err Empty else
  _ ← validate_namespace namespace;
  _ ← validate_node_name node_name;
  let namespace := normalize_namespace namespace in
  if starts_with_char "/" topic then
    let topic := default topic (strip_suffix_char "/" topic) in
    if is_empty_str topic || String.eqb topic "/" then
      Err (InvalidCharacters "topic cannot be just '/'")
    else Ok topic
  else if starts_with_char "~" topic then
    topic_suffix ← unwrap (strip_prefix "~" topic);
    let topic_suffix := default topic_suffix (strip_prefix "/" topic_suffix) in
    _ ← (if negb (is_empty_str topic_suffix) then
           for_each (fun _ part =>
             if negb (is_empty_str part) && negb (is_valid_topic_component part) then
               Err (InvalidCharacters ("invalid component '" ++ part ++ "' in private topic"))
             else Ok tt) tt (split_on "/" topic_suffix)
         else Ok tt);
    Ok (if is_empty_str namespace || String.eqb namespace "/" then
          if is_empty_str topic_suffix then "/" ++ node_name
          else "/" ++ node_name ++ "/" ++ topic_suffix
        else if is_empty_str topic_suffix then namespace ++ "/" ++ node_name
        else namespace ++ "/" ++ node_name ++ "/" ++ topic_suffix)
  else
    let topic := default topic (strip_suffix_char "/" topic) in
    _ ← for_each (fun _ part =>
          if negb (is_empty_str part) && negb (is_valid_topic_component part) then
            Err (InvalidCharacters ("invalid component '" ++ part ++ "'"))
          else Ok tt) tt (split_on "/" topic);
    Ok (if is_empty_str namespace || String.eqb namespace "/" then "/" ++ topic
        else namespace ++ "/" ++ topic).

(** [qualify_service_name]. *)
Definition qualify_service_name (service namespace node_name : string)
    : res TopicNameError string :=
  qualify_topic_name service namespace node_name.

(** *** Specification *)

(** The components of a name: the non-empty pieces between slashes. *)
Definition components (s : string) : list string :=
  List.filter (fun p => negb (is_empty_str p)) (split_on "/" s).

(** Every component is a valid one. *)
Definition valid_components (s : string) : bool :=
  forallb is_valid_topic_component (components s).

Definition namespace_ok (ns : string) : bool :=
  is_empty_str ns || String.eqb ns "/" || (negb (ends_with_char "/" ns) && valid_components ns).

(** The part of a private topic after the tilde. *)
Definition after_tilde (topic : string) : string :=
  match topic with
  | EmptyString => EmptyString
  | String _ r => r
  end.

(** The kinds of name the documentation distinguishes. *)
Definition expected_components (topic ns node : string) : list string :=
  if starts_with_char "/" topic then components topic
  else if starts_with_char "~" topic then components ns ++ node :: components (after_tilde topic)
  else components ns ++ components topic.

Definition qualifies (topic ns node : string) : bool :=
  negb (is_empty_str topic) && namespace_ok ns && is_valid_topic_component node &&
  (if starts_with_char "/" topic then
     negb (String.eqb topic "/" || String.eqb topic "//")
   else if starts_with_char "~" topic then valid_components (after_tilde topic)
   else valid_components topic).

(** ** Lemmas *)

Lemma is_empty_str_spec s : reflect (s = "") (is_empty_str s).
Proof. apply String.eqb_spec. Qed.

(** A validation loop succeeds when every piece passes. *)
Lemma for_each_unit {X} (f : string -> res X unit) (ok : string -> bool) l :
  (forall p, f p = if ok p then Ok tt else f p) -> (forall p, ok p = false -> exists e, f p = Err e) ->
  if forallb ok l then for_each (fun _ p => f p) tt l = Ok tt
  else exists e, for_each (fun _ p => f p) tt l = Err e.
Proof.
  intros Hok Herr. induction l as [|p l IH]; [done|]. cbn [forallb for_each].
  destruct (ok p) eqn:E; cbn [andb].
  - rewrite Hok, E. cbn. exact IH.
  - destruct (Herr p E) as [e He]. exists e. by rewrite He.
Qed.

Lemma forallb_components s :
  forallb (fun p => is_empty_str p || is_valid_topic_component p) (split_on "/" s) =
    valid_components s.
Proof.
  unfold valid_components, components. induction (split_on "/" s) as [|p l IH]; [done|].
  cbn. rewrite IH. by destruct (is_empty_str p).
Qed.

Lemma validate_namespace_spec ns :
  if namespace_ok ns then validate_namespace ns = Ok tt
  else exists e, validate_namespace ns = Err e.
Proof.
  unfold validate_namespace, namespace_ok.
  destruct (is_empty_str ns || String.eqb ns "/"); [done|]. cbn [orb].
  destruct (ends_with_char "/" ns); [by eexists|]. cbn [negb andb].
  rewrite <- forallb_components.
  apply (for_each_unit (fun part => if is_empty_str part then Ok tt
    else if negb (is_valid_topic_component part) then
      Err (InvalidNamespace ("invalid component '" ++ part ++ "'")) else Ok tt)).
  - intros p. by destruct (is_empty_str p), (is_valid_topic_component p).
  - intros p [-> ->]%orb_false_iff. by eexists.
Qed.

Lemma validate_node_name_spec node :
  if is_valid_topic_component node then validate_node_name node = Ok tt
  else exists e, validate_node_name node = Err e.
Proof.
  unfold validate_node_name. destruct (is_empty_str_spec node) as [->|_].
  - by eexists.
  - destruct (is_valid_topic_component node); [done | by eexists].
Qed.

Lemma validate_parts_spec (msg : string -> string) s :
  let m := for_each (fun _ part =>
    if negb (is_empty_str part) && negb (is_valid_topic_component part) then
      Err (InvalidCharacters (msg part)) else Ok tt) tt (split_on "/" s) in
  if valid_components s then m = Ok tt else exists e, m = Err e.
Proof.
  cbn zeta. rewrite <- forallb_components.
  apply (for_each_unit (fun part =>
    if negb (is_empty_str part) && negb (is_valid_topic_component part) then
      Err (InvalidCharacters (msg part)) else Ok tt)).
  - intros p. by destruct (is_empty_str p), (is_valid_topic_component p).
  - intros p [-> ->]%orb_false_iff. by eexists.
Qed.

(** *** Components of composed names *)

Lemma components_app a b : components (a ++ String "/" b) = (components a ++ components b)%list.
Proof. unfold components. by rewrite split_on_app_sep, List.filter_app. Qed.

Lemma components_cons s : components (String "/" s) = components s.
Proof. exact (components_app "" s). Qed.

Lemma components_strip_suffix s :
  components (default s (strip_suffix_char "/" s)) = components s.
Proof.
  destruct (strip_suffix_char "/" s) as [r|] eqn:E; [|done].
  apply strip_suffix_char_Some in E as ->. cbn [default]. by rewrite components_app, app_nil_r.
Qed.

Lemma components_strip_prefix s :
  components (default s (strip_prefix "/" s)) = components s.
Proof.
  destruct (strip_prefix "/" s) as [r|] eqn:E; [|done].
  apply strip_prefix_Some in E as ->. cbn [default append]. by rewrite components_cons.
Qed.

Lemma components_normalize ns : components (normalize_namespace ns) = components ns.
Proof.
  unfold normalize_namespace. destruct (is_empty_str_spec ns) as [->|_]; [done|].
  destruct (starts_with_char "/" ns); [done|]. apply components_cons.
Qed.

Lemma components_none s : s = "" \/ s = "/" -> components s = [].
Proof. by intros [-> | ->]. Qed.

Lemma valid_component_no_slash n :
  is_valid_topic_component n = true -> contains_char "/" n = false /\ n <> "".
Proof.
  destruct n as [|a n]; [done|]. unfold is_valid_topic_component.
  destruct (negb (is_ascii_alphabetic a) && negb (Ascii.eqb a "_")) eqn:E; [done|].
  intros Hn. split; [|done]. cbn [contains_char].
  rewrite (all_chars_contains _ "/" n Hn) by done. rewrite orb_false_r.
  destruct (Ascii.eqb_spec a "/") as [->|]; done.
Qed.

Lemma components_valid n : is_valid_topic_component n = true -> components n = [n].
Proof.
  intros Hn. destruct (valid_component_no_slash n Hn) as [Hc Hne].
  unfold components. rewrite split_on_none by done. cbn.
  by destruct (is_empty_str_spec n).
Qed.

(** The prefix a namespace contributes. *)
Lemma components_prefixed ns s :
  components (if is_empty_str ns || String.eqb ns "/" then "/" ++ s else ns ++ "/" ++ s) =
    (components ns ++ components s)%list.
Proof.
  destruct (is_empty_str_spec ns) as [->|_]; [apply components_cons|].
  destruct (String.eqb_spec ns "/") as [->|_]; [apply components_cons|]. apply components_app.
Qed.

Lemma starts_prefixed ns s :
  ns = "" \/ starts_with_char "/" ns = true ->
  starts_with_char "/" (if is_empty_str ns || String.eqb ns "/" then "/" ++ s else ns ++ "/" ++ s)
    = true.
Proof.
  intros Hns. destruct (is_empty_str_spec ns) as [->|Hne]; [done|].
  destruct (String.eqb ns "/"); [done|]. cbn [orb]. destruct Hns as [->|Hns]; [done|].
  by apply starts_with_char_prefix in Hns as [r ->].
Qed.

Lemma normalize_starts ns :
  normalize_namespace ns = "" \/ starts_with_char "/" (normalize_namespace ns) = true.
Proof.
  unfold normalize_namespace. destruct (is_empty_str ns); [by left|].
  destruct (starts_with_char "/" ns) eqn:E; by right.
Qed.

(** The suffix of a private topic. *)
Lemma private_suffix topic :
  starts_with_char "~" topic = true ->
  strip_prefix "~" topic = Some (after_tilde topic).
Proof. intros [r ->]%starts_with_char_prefix. by destruct r. Qed.

(** What each kind of topic qualifies to; the common core of the theorems. *)
Definition private_name (ns node suffix : string) : string :=
  if is_empty_str ns || String.eqb ns "/" then
    if is_empty_str suffix then "/" ++ node else "/" ++ node ++ "/" ++ suffix
  else if is_empty_str suffix then ns ++ "/" ++ node
  else ns ++ "/" ++ node ++ "/" ++ suffix.

Definition qualified_name (topic ns node : string) : string :=
  let ns := normalize_namespace ns in
  if starts_with_char "/" topic then default topic (strip_suffix_char "/" topic)
  else if starts_with_char "~" topic then
    private_name ns node (default (after_tilde topic) (strip_prefix "/" (after_tilde topic)))
  else
    let topic := default topic (strip_suffix_char "/" topic) in
    if is_empty_str ns || String.eqb ns "/" then "/" ++ topic else ns ++ "/" ++ topic.

Lemma valid_components_strip_suffix s :
  valid_components (default s (strip_suffix_char "/" s)) = valid_components s.
Proof. unfold valid_components. by rewrite components_strip_suffix. Qed.

Lemma valid_components_strip_prefix s :
  valid_components (default s (strip_prefix "/" s)) = valid_components s.
Proof. unfold valid_components. by rewrite components_strip_prefix. Qed.

Lemma eqb_app_str_r a b t : String.eqb (a ++ t) (b ++ t) = String.eqb a b.
Proof.
  destruct (String.eqb_spec a b) as [->|Hne]; [apply String.eqb_refl|].
  apply String.eqb_neq. contradict Hne. by apply app_inj_r_str in Hne.
Qed.

Lemma absolute_not_root topic :
  starts_with_char "/" topic = true ->
  let t := default topic (strip_suffix_char "/" topic) in
  is_empty_str t || String.eqb t "/" = String.eqb topic "/" || String.eqb topic "//".
Proof.
  intros Hs. cbn zeta. destruct (strip_suffix_char "/" topic) as [r|] eqn:E; cbn [default].
  - apply strip_suffix_char_Some in E as ->. unfold is_empty_str, id.
    rewrite <- (eqb_app_str_r r "" "/"), <- (eqb_app_str_r r "/" "/"). done.
  - destruct (is_empty_str_spec topic) as [->|_]; [done|].
    destruct (String.eqb_spec topic "/") as [->|_]; [done|].
    by destruct (String.eqb_spec topic "//") as [->|_].
Qed.

(** Qualification succeeds exactly on the inputs [qualifies] accepts. *)
Lemma qualify_topic_name_cases topic ns node :
  if qualifies topic ns node then
    qualify_topic_name topic ns node = Ok (qualified_name topic ns node)
  else exists e, qualify_topic_name topic ns node = Err e.
Proof.
  unfold qualify_topic_name, qualifies, qualified_name.
  destruct (is_empty_str topic); [by eexists|]. cbn [negb andb].
  pose proof (validate_namespace_spec ns) as Hns.
  destruct (namespace_ok ns); cbn [andb]; [rewrite Hns|destruct Hns as [e ->]; by eexists].
  pose proof (validate_node_name_spec node) as Hn.
  destruct (is_valid_topic_component node); cbn [andb mbind res_bind];
    [rewrite Hn|destruct Hn as [e ->]; by eexists].
  cbn [mbind res_bind]. destruct (starts_with_char "/" topic) eqn:Eabs.
  { rewrite absolute_not_root by done.
    destruct (String.eqb topic "/" || String.eqb topic "//"); [by eexists|done]. }
  destruct (starts_with_char "~" topic) eqn:Epriv.
  - rewrite private_suffix by done. cbn [unwrap mbind res_bind].
    rewrite <- valid_components_strip_prefix.
    set (suffix := default (after_tilde topic) (strip_prefix "/" (after_tilde topic))).
    pose proof (validate_parts_spec
      (fun part => "invalid component '" ++ part ++ "' in private topic") suffix) as Hp.
    cbn zeta in Hp. unfold private_name. destruct (is_empty_str_spec suffix) as [->|_]; cbn [negb].
    + done.
    + destruct (valid_components suffix); [by rewrite Hp | destruct Hp as [e ->]; by eexists].
  - rewrite <- valid_components_strip_suffix.
    set (t := default topic (strip_suffix_char "/" topic)).
    pose proof (validate_parts_spec (fun part => "invalid component '" ++ part ++ "'") t) as Hp.
    cbn zeta in Hp.
    destruct (valid_components t); [by rewrite Hp | destruct Hp as [e ->]; by eexists].
Qed.

Lemma components_private ns node suffix :
  is_valid_topic_component node = true ->
  components (private_name ns node suffix) =
    (components ns ++ node :: components suffix)%list.
Proof.
  intros Hn. unfold private_name.
  assert (components (if is_empty_str suffix then node else node ++ "/" ++ suffix) =
    node :: components suffix) as Hs.
  { destruct (is_empty_str_spec suffix) as [->|_]; [by apply components_valid|].
    cbn [append]. rewrite components_app. by rewrite components_valid. }
  rewrite <- Hs, <- components_prefixed.
  by destruct (is_empty_str ns || String.eqb ns "/"), (is_empty_str suffix).
Qed.

Lemma starts_private ns node suffix :
  ns = "" \/ starts_with_char "/" ns = true ->
  starts_with_char "/" (private_name ns node suffix) = true.
Proof.
  intros Hns. unfold private_name.
  pose proof (starts_prefixed ns (if is_empty_str suffix then node else node ++ "/" ++ suffix) Hns).
  by destruct (is_empty_str ns || String.eqb ns "/"), (is_empty_str suffix).
Qed.

(** A qualified name is absolute. *)
Lemma qualified_name_absolute topic ns node :
  qualifies topic ns node = true -> starts_with_char "/" (qualified_name topic ns node) = true.
Proof.
  intros Eq. unfold qualified_name. destruct (starts_with_char "/" topic) eqn:Eabs.
  - unfold qualifies in Eq. rewrite Eabs in Eq. apply andb_true_iff in Eq as [_ Eq].
    destruct (strip_suffix_char "/" topic) as [r|] eqn:E; [|done].
    apply strip_suffix_char_Some in E as ->. cbn [default]. by destruct r.
  - destruct (starts_with_char "~" topic);
      [apply starts_private, normalize_starts | apply starts_prefixed, normalize_starts].
Qed.
Lemma qualify_topic_name_inv topic ns node name :
  qualify_topic_name topic ns node = Ok name ->
  qualifies topic ns node = true /\ name = qualified_name topic ns node /\ starts_with_char "/" name = true.
Proof.
  intros Hq. pose proof (qualify_topic_name_cases topic ns node) as Hc.
  destruct (qualifies topic ns node) eqn:Eq; [|destruct Hc as [e Hc]; congruence].
  rewrite Hc in Hq. injection Hq as <-. by rewrite qualified_name_absolute.
Qed.

(** An absolute name that does not end in a slash qualifies to itself. *)
Lemma qualify_absolute name ns node :
  starts_with_char "/" name = true -> ends_with_char "/" name = false ->
  namespace_ok ns = true -> is_valid_topic_component node = true ->
  qualify_topic_name name ns node = Ok name.
Proof.
  intros Hs He Hns Hn. pose proof (qualify_topic_name_cases name ns node) as Hc.
  assert (qualifies name ns node = true) as Hq'.
  { unfold qualifies. rewrite Hns, Hn, Hs, !andb_true_r.
    destruct (is_empty_str_spec name) as [->|_]; [done|].
    destruct (String.eqb_spec name "/") as [->|_]; [done|].
    by destruct (String.eqb_spec name "//") as [->|_]. }
  rewrite Hq' in Hc. rewrite Hc. unfold qualified_name. rewrite Hs.
  by rewrite strip_suffix_char_None.
Qed.

(** ** Properties *)

(** The outcome of [qualify_topic_name] on every input: it never panics;
    it succeeds exactly when the topic is not empty, the namespace is empty,
    ["/"] or a slash-separated path of valid components without a trailing
    slash, the node name is a valid component, and the topic is an absolute
    name other than ["/"] and ["//"] or has only valid components; the
    qualified name is then absolute and its components are those the
    documentation promises (the topic's own, the namespace's and the topic's, or
    the namespace's, the node name and the rest). *)
Theorem qualify_topic_name_spec topic ns node :
  match qualify_topic_name topic ns node with
  | Ok name =>
      qualifies topic ns node = true /\ starts_with_char "/" name = true /\
      components name = expected_components topic ns node
  | Err _ => qualifies topic ns node = false
  | Panic => False
  end.
Proof.
  pose proof (qualify_topic_name_cases topic ns node) as Hc.
  destruct (qualifies topic ns node) eqn:Eq; [rewrite Hc | by destruct Hc as [e ->]].
  split; [done|]. split; [by apply qualified_name_absolute|]. unfold qualified_name, expected_components.
  destruct (starts_with_char "/" topic) eqn:Eabs; [by rewrite components_strip_suffix|].
  apply andb_true_iff in Eq as [[[_ _]%andb_true_iff Hn]%andb_true_iff Eq].
  destruct (starts_with_char "~" topic).
  - by rewrite components_private, components_strip_prefix, components_normalize by done.
  - by rewrite components_prefixed, components_strip_suffix, components_normalize.
Qed.

(** A qualified name is stable: unless it ends in a slash (an absolute
    topic with two trailing slashes, or a private or relative one whose slashes
    survive), qualifying it again, from any valid node, returns it unchanged; a
    service name follows the same rules. *)
Theorem qualify_service_name_stable topic ns node name ns' node' :
  qualify_service_name topic ns node = Ok name ->
  ends_with_char "/" name = false ->
  namespace_ok ns' = true -> is_valid_topic_component node' = true ->
  qualify_service_name name ns' node' = Ok name.
Proof.
  intros (_ & _ & Hs)%qualify_topic_name_inv He Hns Hn. by apply qualify_absolute.
Qed.

Lemma qualify_service_name_stable_witness :
  qualify_service_name "/ns/node/srv" "other" "_n2" = Ok "/ns/node/srv".
Proof.
  by apply (qualify_service_name_stable "~/srv" "/ns" "node" "/ns/node/srv" "other" "_n2").
Defined.
