(* ===== verification/CdrPrimitives.v ===== *)
(** * CDR primitives (crates/ros-z-cdr/src/primitives.rs and error.rs)

    [CdrWriter] and [CdrReader], every operation of both, and the refinement of
    each pair of operations to one position-dependent encoding: a writer action
    [appends] the encoding, a reader action [decodes] it.  The byte order is the
    [ByteOrder] trait of the byteorder package, a parameter with its laws;
    floats are their IEEE 754 bit patterns, which is what byteorder writes. *)
From S2P Require Import Prelude CdrBuffer Utf8 RustStr.
Open Scope Z_scope.

(** ** Definitions *)

(** The trait [byteorder::ByteOrder]: [bo_write n v] are the [n] bytes of the
    unsigned integer [v], [bo_read] reads them back. *)
Class ByteOrder := {
  bo_write : nat -> Z -> list byte;
  bo_read : list byte -> Z;
}.

Class ByteOrderLaws `{ByteOrder} := {
  bo_write_length : forall n v, length (bo_write n v) = n;
  bo_read_write : forall n v, bo_read (bo_write n v) = v mod 2 ^ (8 * Z.of_nat n);
  bo_read_range : forall l, 0 <= bo_read l < 2 ^ (8 * Z.of_nat (length l));
}.

(** Concrete byte orders, for the executable examples. *)
Fixpoint le_bytes (n : nat) (v : Z) : list byte :=
  match n with
  | O => []
  | S n' => byte_of_Z v :: le_bytes n' (v / 256)
  end.

Fixpoint le_value (l : list byte) : Z :=
  match l with
  | [] => 0
  | b :: l' => u8_of_byte b + 256 * le_value l'
  end.

Definition LittleEndian : ByteOrder := {| bo_write := le_bytes; bo_read := le_value |}.
Definition BigEndian : ByteOrder :=
  {| bo_write n v := rev (le_bytes n v); bo_read l := le_value (rev l) |}.

(** [ros_z_cdr::Error]. *)
Inductive CdrError :=
| Custom (msg : string)
| UnsupportedAny
| UnknownLength
| UnexpectedEof
| InvalidBool (b : Z)
| InvalidChar (c : Z)
| InvalidOptionTag (t : Z)
| Utf8 (e : Utf8Error).

(** [Display] of [Error], as thiserror derives it. *)
Definition CdrError_fmt (e : CdrError) : string :=
  (match e with
   | Custom msg => msg
   | UnsupportedAny => "cannot deserialize unknown type in CDR"
   | UnknownLength => "sequence length required"
   | UnexpectedEof => "unexpected end of input"
   | InvalidBool b => "invalid boolean value: " ++ Z_dec b
   | InvalidChar c => "invalid char codepoint: " ++ Z_hex c
   | InvalidOptionTag t => "invalid option discriminant: " ++ Z_dec t
   | Utf8 e => Utf8Error_fmt e
   end)%string.

(** [struct CdrWriter]; the buffer it borrows mutably is a field. *)
Record CdrWriter (B : Type) := mkWriter { buffer : B; start_offset : nat }.
Arguments mkWriter {B} _ _.
Arguments buffer {B} _.
Arguments start_offset {B} _.

Section Writer.
Context `{BO : ByteOrder} {ZBuf B : Type} `{CdrBuffer ZBuf B} {E : Type}.
Abbreviation writer := (CdrWriter B).

(** [CdrWriter::new]. *)
Definition writer_new (b : B) : writer := mkWriter b (len b).

(** [CdrWriter::position]. *)
Definition writer_position (w : writer) : nat := len (buffer w) - start_offset w.

(** [self.buffer.extend_from_slice] and [self.buffer.push]. *)
Definition writer_extend (w : writer) (d : list byte) : writer :=
  mkWriter (extend_from_slice (buffer w) d) (start_offset w).
Definition writer_push (w : writer) (b : byte) : writer :=
  mkWriter (push (buffer w) b) (start_offset w).

(** [CdrWriter::align]: [ZEROS] has eight bytes, so [&ZEROS\[..padding\]] panics
    for a longer padding, as does the remainder by zero. *)
Definition writer_align (w : writer) (alignment : nat) : res E writer :=
  if Nat.eqb alignment 0 then Panic else
  let modulo := (writer_position w mod alignment)%nat in
  if negb (Nat.eqb modulo 0) then
    let padding := (alignment - modulo)%nat in
    let ZEROS := replicate 8 x00 in
    zeros ← slice ZEROS 0 padding;
    Ok (writer_extend w zeros)
  else Ok w.

Definition write_bool (w : writer) (v : bool) : res E writer :=
  Ok (writer_push w (if v then x01 else x00)).
Definition write_i8 (w : writer) (v : Z) : res E writer :=
  Ok (writer_push w (byte_of_Z (wrap_u 8 v))).
Definition write_u8 (w : writer) (v : Z) : res E writer :=
  Ok (writer_push w (byte_of_Z v)).

Definition write_i16 (w : writer) (v : Z) : res E writer :=
  w ← writer_align w 2; Ok (writer_extend w (bo_write 2 (wrap_u 16 v))).
Definition write_u16 (w : writer) (v : Z) : res E writer :=
  w ← writer_align w 2; Ok (writer_extend w (bo_write 2 v)).
Definition write_i32 (w : writer) (v : Z) : res E writer :=
  w ← writer_align w 4; Ok (writer_extend w (bo_write 4 (wrap_u 32 v))).
Definition write_u32 (w : writer) (v : Z) : res E writer :=
  w ← writer_align w 4; Ok (writer_extend w (bo_write 4 v)).
Definition write_i64 (w : writer) (v : Z) : res E writer :=
  w ← writer_align w 8; Ok (writer_extend w (bo_write 8 (wrap_u 64 v))).
Definition write_u64 (w : writer) (v : Z) : res E writer :=
  w ← writer_align w 8; Ok (writer_extend w (bo_write 8 v)).

(** Floats are given by their bits. *)
Definition write_f32 (w : writer) (bits : Z) : res E writer :=
  w ← writer_align w 4; Ok (writer_extend w (bo_write 4 bits)).
Definition write_f64 (w : writer) (bits : Z) : res E writer :=
  w ← writer_align w 8; Ok (writer_extend w (bo_write 8 bits)).

(** [CdrWriter::write_string]: the [u32] byte count wraps. *)
Definition write_string (w : writer) (s : string) : res E writer :=
  let byte_count := wrap_u 32 (wrap_u 32 (Z.of_nat (str_len s)) + 1) in
  w ← write_u32 w byte_count;
  let w := writer_extend w (str_bytes s) in
  Ok (writer_push w x00).

(** [CdrWriter::write_bytes]. *)
Definition write_bytes (w : writer) (bytes : list byte) : res E writer :=
  w ← write_u32 w (wrap_u 32 (Z.of_nat (length bytes)));
  Ok (writer_extend w bytes).

(** [CdrWriter::write_sequence_length]. *)
Definition write_sequence_length (w : writer) (n : nat) : res E writer :=
  write_u32 w (wrap_u 32 (Z.of_nat n)).
End Writer.

(** [struct CdrReader]. *)
Record CdrReader := mkReader { input : list byte; position : nat }.

Section Reader.
Context `{BO : ByteOrder}.
Abbreviation reader := CdrReader.

(** [CdrReader::new]. *)
Definition reader_new (bytes : list byte) : reader := mkReader bytes 0.

(** [CdrReader::remaining]. *)
Definition remaining (r : reader) : nat := length (input r) - position r.

(** [CdrReader::align]. *)
Definition reader_align (r : reader) (alignment : nat) : res CdrError reader :=
  if Nat.eqb alignment 0 then Panic else
  let modulo := (position r mod alignment)%nat in
  if negb (Nat.eqb modulo 0) then
    let padding := (alignment - modulo)%nat in
    if (remaining r <? padding)%nat then Err UnexpectedEof
    else Ok (mkReader (input r) (position r + padding))
  else Ok r.

(** [CdrReader::read_bytes]; [count] is a [usize]. *)
Definition read_bytes (r : reader) (count : Z) : res CdrError (list byte * reader) :=
  if Z.of_nat (remaining r) <? count then Err UnexpectedEof
  else
    let n := Z.to_nat count in
    bytes ← slice (input r) (position r) (position r + n);
    Ok (bytes, mkReader (input r) (position r + n)).

(** [read_bytes(1)?\[0\]]. *)
Definition read_u8 (r : reader) : res CdrError (Z * reader) :=
  '(bs, r) ← read_bytes r 1;
  b ← index bs 0;
  Ok (u8_of_byte b, r).

Definition read_i8 (r : reader) : res CdrError (Z * reader) :=
  '(bs, r) ← read_bytes r 1;
  b ← index bs 0;
  Ok (wrap_i 8 (u8_of_byte b), r).

Definition read_bool (r : reader) : res CdrError (bool * reader) :=
  '(bs, r) ← read_bytes r 1;
  b ← index bs 0;
  if u8_of_byte b =? 0 then Ok (false, r)
  else if u8_of_byte b =? 1 then Ok (true, r)
  else Err (InvalidBool (u8_of_byte b)).

(** [(&bytes\[..\]).read_uXX::<BO>().unwrap()] on a slice of at least [n] bytes. *)
Definition read_order (n : nat) (bytes : list byte) : res CdrError Z :=
  if (length bytes <? n)%nat then Panic else Ok (bo_read (take n bytes)).

Definition read_u16 (r : reader) : res CdrError (Z * reader) :=
  r ← reader_align r 2; '(bs, r) ← read_bytes r 2; v ← read_order 2 bs; Ok (v, r).
Definition read_i16 (r : reader) : res CdrError (Z * reader) :=
  r ← reader_align r 2; '(bs, r) ← read_bytes r 2; v ← read_order 2 bs;
  Ok (wrap_i 16 v, r).
Definition read_u32 (r : reader) : res CdrError (Z * reader) :=
  r ← reader_align r 4; '(bs, r) ← read_bytes r 4; v ← read_order 4 bs; Ok (v, r).
Definition read_i32 (r : reader) : res CdrError (Z * reader) :=
  r ← reader_align r 4; '(bs, r) ← read_bytes r 4; v ← read_order 4 bs;
  Ok (wrap_i 32 v, r).
Definition read_u64 (r : reader) : res CdrError (Z * reader) :=
  r ← reader_align r 8; '(bs, r) ← read_bytes r 8; v ← read_order 8 bs; Ok (v, r).
Definition read_i64 (r : reader) : res CdrError (Z * reader) :=
  r ← reader_align r 8; '(bs, r) ← read_bytes r 8; v ← read_order 8 bs;
  Ok (wrap_i 64 v, r).
Definition read_f32 (r : reader) : res CdrError (Z * reader) :=
  r ← reader_align r 4; '(bs, r) ← read_bytes r 4; v ← read_order 4 bs; Ok (v, r).
Definition read_f64 (r : reader) : res CdrError (Z * reader) :=
  r ← reader_align r 8; '(bs, r) ← read_bytes r 8; v ← read_order 8 bs; Ok (v, r).

(** The null terminator, if there is one, is removed. *)
Definition strip_nul (bytes : list byte) : res CdrError (list byte) :=
  match last bytes with
  | Some x00 => slice bytes 0 (length bytes - 1)
  | _ => Ok bytes
  end.

(** [CdrReader::read_str], the borrowed string. *)
Definition read_str (r : reader) : res CdrError (string * reader) :=
  '(len, r) ← read_u32 r;
  if len =? 0 then Ok (""%string, r)
  else
    '(bytes, r) ← read_bytes r len;
    str_bytes ← strip_nul bytes;
    s ← map_err Utf8 (from_utf8 str_bytes);
    Ok (s, r).

(** [CdrReader::read_string], the owned string. *)
Definition read_string (r : reader) : res CdrError (string * reader) :=
  '(len, r) ← read_u32 r;
  if len =? 0 then Ok (""%string, r)
  else
    '(bytes, r) ← read_bytes r len;
    str_bytes ← strip_nul bytes;
    s ← map_err Utf8 (from_utf8 str_bytes);
    Ok (s, r).

Definition MAX_SEQUENCE_LENGTH : Z := 100000000.

(** [CdrReader::read_sequence_length]. *)
Definition read_sequence_length (r : reader) : res CdrError (Z * reader) :=
  '(len, r) ← read_u32 r;
  if len >? MAX_SEQUENCE_LENGTH then
    Err (Custom ("Sequence length " ++ Z_dec len ++ " exceeds maximum allowed ("
      ++ Z_dec MAX_SEQUENCE_LENGTH
      ++ "). Possible schema mismatch or corrupted data."))
  else Ok (len, r).

(** [CdrReader::read_byte_sequence]. *)
Definition read_byte_sequence (r : reader) : res CdrError (list byte * reader) :=
  '(len, r) ← read_u32 r;
  read_bytes r len.
End Reader.
