(* ===== verification/CdrSpec.v ===== *)
(** * The CDR encoding the primitives implement

    [encoding] is the abstract specification: the bytes of a value as a function
    of the position it starts at (CDR aligns relative to the start of the
    stream).  [appends f e] says a writer action appends [e], [decodes f e a]
    that a reader action reads [e] back to [a] whatever surrounds it, and [safe f]
    that it neither panics nor leaves the input.  The three are closed under
    sequencing, so a codec built from the primitives is proved by composing
    them. *)
From S2P Require Import Prelude CdrBuffer Utf8 CdrPrimitives.
Open Scope Z_scope.

(** ** Definitions *)

Definition encoding := nat -> list byte.

Definition enc_nil : encoding := fun _ => [].
Definition enc_raw (bs : list byte) : encoding := fun _ => bs.
Definition enc_seq (e1 e2 : encoding) : encoding :=
  fun p => let bs := e1 p in bs ++ e2 (p + length bs)%nat.
Notation "e1 ;+ e2" := (enc_seq e1 e2) (at level 60, right associativity).

(** Padding up to the next multiple of [a]. *)
Definition pad_len (p a : nat) : nat :=
  if Nat.eqb (p mod a) 0 then 0 else a - p mod a.
Definition enc_align (a : nat) : encoding := fun p => replicate (pad_len p a) x00.

Definition enc_order `{ByteOrder} (n : nat) (v : Z) : encoding :=
  enc_align n ;+ enc_raw (bo_write n v).

Definition enc_string `{ByteOrder} (s : string) : encoding :=
  enc_order 4 (Z.of_nat (str_len s) + 1) ;+ enc_raw (str_bytes s ++ [x00]).

Definition enc_bytes `{ByteOrder} (bs : list byte) : encoding :=
  enc_order 4 (Z.of_nat (length bs)) ;+ enc_raw bs.

Definition enc_list {A} (f : A -> encoding) (l : list A) : encoding :=
  foldr (fun a e => f a ;+ e) enc_nil l.

Section Specs.
Context {ZBuf B : Type} `{CdrBufferLaws ZBuf B}.

Definition writer_ok (w : CdrWriter B) : Prop :=
  buf_ok (buffer w) /\ (start_offset w <= len (buffer w))%nat.

Definition appends {E} (f : CdrWriter B -> res E (CdrWriter B)) (e : encoding) : Prop :=
  forall w, writer_ok w ->
  exists w', f w = Ok w' /\ writer_ok w' /\ start_offset w' = start_offset w /\
    contents (buffer w') = contents (buffer w) ++ e (writer_position w).
End Specs.

Definition decodes {A} (f : CdrReader -> res CdrError (A * CdrReader)) (e : encoding)
    (a : A) : Prop :=
  forall pre post,
  let bytes := pre ++ e (length pre) ++ post in
  f (mkReader bytes (length pre)) =
    Ok (a, mkReader bytes (length pre + length (e (length pre)))).

Definition reader_ok (r : CdrReader) : Prop := (position r <= length (input r))%nat.

(** [r'] is [r] further on in the same input. *)
Definition advanced (r r' : CdrReader) : Prop :=
  input r' = input r /\ (position r <= position r')%nat /\ reader_ok r'.

Definition safe {E A} (f : CdrReader -> res E (A * CdrReader)) : Prop :=
  forall r, reader_ok r ->
  no_panic (f r) /\ forall a r', f r = Ok (a, r') -> advanced r r'.

(** ** Byte orders *)

Lemma le_bytes_length n v : length (le_bytes n v) = n.
Proof. revert v. induction n as [|n IH]; intros v; cbn; [done|]. by rewrite IH. Qed.

Lemma le_value_range l : 0 <= le_value l < 2 ^ (8 * Z.of_nat (length l)).
Proof.
  induction l as [|b l IH]; [done|].
  cbn [le_value length]. pose proof (u8_of_byte_range b).
  replace (8 * Z.of_nat (S (length l))) with (8 + 8 * Z.of_nat (length l)) by lia.
  rewrite Z.pow_add_r by lia. change (2 ^ 8) with 256. lia.
Qed.

Lemma le_value_bytes n v : le_value (le_bytes n v) = v mod 2 ^ (8 * Z.of_nat n).
Proof.
  revert v. induction n as [|n IH]; intros v.
  - cbn. by rewrite Z.mod_1_r.
  - cbn [le_bytes le_value]. rewrite IH, u8_of_byte_of_Z.
    replace (8 * Z.of_nat (S n)) with (8 + 8 * Z.of_nat n) by lia.
    rewrite Z.pow_add_r by lia. change (2 ^ 8) with 256.
    rewrite Z.rem_mul_r by lia. done.
Qed.

#[export] Instance LittleEndian_laws : @ByteOrderLaws LittleEndian.
Proof. split; [apply le_bytes_length | apply le_value_bytes | apply le_value_range]. Qed.

#[export] Instance BigEndian_laws : @ByteOrderLaws BigEndian.
Proof.
  split; cbn [bo_write bo_read BigEndian]; intros.
  - by rewrite length_rev, le_bytes_length.
  - by rewrite rev_involutive, le_value_bytes.
  - rewrite <- (length_rev l). apply le_value_range.
Qed.

(** ** Alignment *)

Lemma pad_len_aligned p a : (0 < a)%nat -> ((p + pad_len p a) mod a = 0)%nat.
Proof.
  intros. unfold pad_len. destruct (Nat.eqb_spec (p mod a) 0) as [E|E].
  - by rewrite Nat.add_0_r.
  - pose proof (Nat.mod_upper_bound p a ltac:(lia)).
    rewrite (Nat.div_mod_eq p a) at 1.
    replace (a * (p / a) + p mod a + (a - p mod a))%nat with (S (p / a) * a)%nat by lia.
    apply Nat.Div0.mod_mul.
Qed.

Lemma pad_len_lt p a : (0 < a)%nat -> (pad_len p a < a)%nat.
Proof. intros. unfold pad_len. destruct (Nat.eqb_spec (p mod a) 0); lia. Qed.

Lemma enc_align_length a p : length (enc_align a p) = pad_len p a.
Proof. apply length_replicate. Qed.

(** ** Writer actions *)

Section WriterLemmas.
Context `{BL : ByteOrderLaws} {ZBuf B : Type} `{BufL : CdrBufferLaws ZBuf B} {E : Type}.
Abbreviation appends := (appends (ZBuf := ZBuf) (B := B) (E := E)).

Lemma position_contents w :
  writer_ok w -> (start_offset w + writer_position w)%nat = length (contents (buffer w)).
Proof.
  intros [Hb Hs]. unfold writer_position. rewrite <- (len_contents _ Hb). lia.
Qed.

(** The position after an action. *)
Lemma position_after w w' bs :
  writer_ok w -> writer_ok w' -> start_offset w' = start_offset w ->
  contents (buffer w') = contents (buffer w) ++ bs ->
  writer_position w' = (writer_position w + length bs)%nat.
Proof.
  intros Hw Hw' Hs Hc.
  pose proof (position_contents _ Hw). pose proof (position_contents _ Hw').
  rewrite Hc, length_app in *. lia.
Qed.

Lemma writer_new_ok b : buf_ok b -> writer_ok (writer_new b).
Proof. by split. Qed.

Lemma writer_new_position b : writer_position (writer_new b) = 0%nat.
Proof. unfold writer_position, writer_new. cbn. lia. Qed.

Lemma appends_ret : appends (fun w => Ok w) enc_nil.
Proof. intros w Hw. exists w. cbn. by rewrite app_nil_r. Qed.

Lemma appends_bind f g e1 e2 :
  appends f e1 -> appends g e2 -> appends (fun w => w ← f w; g w) (e1 ;+ e2).
Proof.
  intros Hf Hg w Hw. destruct (Hf w Hw) as (w1 & E1 & Hok1 & Hs1 & Hc1).
  destruct (Hg w1 Hok1) as (w2 & E2 & Hok2 & Hs2 & Hc2).
  exists w2. rewrite E1. cbn. split; [|split; [|split]]; try done; [congruence|].
  rewrite Hc2, Hc1, (position_after w w1 _ Hw Hok1 Hs1 Hc1), <- app_assoc. done.
Qed.

Lemma appends_ext f g e : (forall w, f w = g w) -> appends f e -> appends g e.
Proof. intros Hfg Hf w Hw. rewrite <- Hfg. by apply Hf. Qed.

Lemma appends_ext_enc f e e' : (forall p, e p = e' p) -> appends f e -> appends f e'.
Proof. intros He Hf w Hw. rewrite <- He. by apply Hf. Qed.

Lemma appends_extend bs : appends (fun w => Ok (writer_extend w bs)) (enc_raw bs).
Proof.
  intros w [Hb Hs]. eexists. split; [done|]. cbn.
  pose proof (extend_ok (buffer w) bs Hb) as Hb'.
  repeat split; [done | | by apply extend_contents].
  cbn. rewrite (len_contents _ Hb'), extend_contents, length_app by done.
  rewrite (len_contents _ Hb) in Hs. lia.
Qed.

Lemma appends_push x : appends (fun w => Ok (writer_push w x)) (enc_raw [x]).
Proof.
  intros w [Hb Hs]. eexists. split; [done|]. cbn.
  pose proof (push_ok (buffer w) x Hb) as Hb'.
  repeat split; [done | | by apply push_contents].
  cbn. rewrite (len_contents _ Hb'), push_contents, length_app by done.
  rewrite (len_contents _ Hb) in Hs. lia.
Qed.

(** [align] up to eight never panics and pads with zeros. *)
Lemma appends_align a :
  (0 < a <= 8)%nat -> appends (fun w => writer_align w a) (enc_align a).
Proof.
  intros Ha w Hw. unfold writer_align.
  destruct (Nat.eqb_spec a 0) as [|_]; [lia|].
  destruct (Nat.eqb_spec (writer_position w mod a) 0) as [E0|E0]; cbn [negb].
  - destruct (appends_ret w Hw) as (w' & Hw'). exists w'.
    destruct Hw' as (? & ? & ? & Hc). split; [|split; [|split]]; try done.
    rewrite Hc. unfold enc_nil. f_equal. unfold enc_align, pad_len. by rewrite E0.
  - pose proof (Nat.mod_upper_bound (writer_position w) a ltac:(lia)).
    rewrite slice_replicate by lia. cbn [mbind res_bind].
    replace (replicate (a - writer_position w mod a) x00)
      with (enc_align a (writer_position w)).
    2: { unfold enc_align, pad_len.
      by destruct (Nat.eqb_spec (writer_position w mod a) 0). }
    by apply (appends_extend _ w).
Qed.

Lemma appends_order n v :
  (0 < n <= 8)%nat ->
  appends (fun w => w ← writer_align w n; Ok (writer_extend w (bo_write n v))) (enc_order n v).
Proof. intros. apply appends_bind; [by apply appends_align | apply appends_extend]. Qed.
End WriterLemmas.

(** ** The writer operations implement the encoding *)

Section WriterOps.
Context `{BL : ByteOrderLaws} {ZBuf B : Type} `{BufL : CdrBufferLaws ZBuf B} {E : Type}.
Abbreviation appends := (appends (ZBuf := ZBuf) (B := B) (E := E)).

Lemma write_bool_appends v :
  appends (fun w => write_bool w v) (enc_raw [if v then x01 else x00]).
Proof. apply appends_push. Qed.

Lemma write_u8_appends v : appends (fun w => write_u8 w v) (enc_raw [byte_of_Z v]).
Proof. apply appends_push. Qed.

Lemma write_i8_appends v :
  appends (fun w => write_i8 w v) (enc_raw [byte_of_Z (wrap_u 8 v)]).
Proof. apply appends_push. Qed.

Lemma write_u16_appends v : appends (fun w => write_u16 w v) (enc_order 2 v).
Proof. apply appends_order. lia. Qed.

Lemma write_u32_appends v : appends (fun w => write_u32 w v) (enc_order 4 v).
Proof. apply appends_order. lia. Qed.

Lemma write_u64_appends v : appends (fun w => write_u64 w v) (enc_order 8 v).
Proof. apply appends_order. lia. Qed.

Lemma write_i16_appends v :
  appends (fun w => write_i16 w v) (enc_order 2 (wrap_u 16 v)).
Proof. apply appends_order. lia. Qed.

Lemma write_i32_appends v :
  appends (fun w => write_i32 w v) (enc_order 4 (wrap_u 32 v)).
Proof. apply appends_order. lia. Qed.

Lemma write_i64_appends v :
  appends (fun w => write_i64 w v) (enc_order 8 (wrap_u 64 v)).
Proof. apply appends_order. lia. Qed.

Lemma write_f32_appends v : appends (fun w => write_f32 w v) (enc_order 4 v).
Proof. apply appends_order. lia. Qed.

Lemma write_f64_appends v : appends (fun w => write_f64 w v) (enc_order 8 v).
Proof. apply appends_order. lia. Qed.

Lemma write_string_appends s :
  Z.of_nat (str_len s) + 1 < 2 ^ 32 ->
  appends (fun w => write_string w s) (enc_string s).
Proof.
  intros Hs. unfold write_string.
  rewrite (wrap_u_id 32 (Z.of_nat (str_len s))) by (unfold u_range; lia).
  rewrite wrap_u_id by (unfold u_range; lia).
  apply (appends_bind (fun w => write_u32 w (Z.of_nat (str_len s) + 1))
    (fun w => Ok (writer_push (writer_extend w (str_bytes s)) x00))).
  { apply write_u32_appends. }
  apply (appends_ext_enc _ (enc_raw (str_bytes s) ;+ enc_raw [x00])); [done|].
  apply (appends_bind (fun w => Ok (writer_extend w (str_bytes s)))
    (fun w => Ok (writer_push w x00))).
  - apply appends_extend.
  - apply appends_push.
Qed.

Lemma write_bytes_appends bs :
  Z.of_nat (length bs) < 2 ^ 32 ->
  appends (fun w => write_bytes w bs) (enc_bytes bs).
Proof.
  intros Hs. unfold write_bytes. rewrite wrap_u_id by (unfold u_range; lia).
  apply appends_bind; [apply write_u32_appends | apply appends_extend].
Qed.

Lemma write_sequence_length_appends n :
  Z.of_nat n < 2 ^ 32 ->
  appends (fun w => write_sequence_length w n) (enc_order 4 (Z.of_nat n)).
Proof.
  intros Hs. unfold write_sequence_length. rewrite wrap_u_id by (unfold u_range; lia).
  apply write_u32_appends.
Qed.

(** A loop of actions appends the encodings in order. *)
Lemma appends_for_each {A} (f : CdrWriter B -> A -> res E (CdrWriter B))
    (e : A -> encoding) (l : list A) :
  Forall (fun a => appends (fun w => f w a) (e a)) l ->
  appends (fun w => for_each f w l) (enc_list e l).
Proof.
  induction 1 as [|a l Ha _ IH]; [apply appends_ret|].
  apply (appends_bind (fun w => f w a) (fun w => for_each f w l)); done.
Qed.

(** What a whole run leaves in the buffer. *)
Lemma appends_run f e (b : B) :
  appends f e -> buf_ok b ->
  exists w, f (writer_new b) = Ok w /\ buf_ok (buffer w) /\
    contents (buffer w) = contents b ++ e 0%nat.
Proof.
  intros Hf Hb. destruct (Hf _ (writer_new_ok b Hb)) as (w & Hw & [? _] & _ & Hc).
  exists w. rewrite writer_new_position in Hc. done.
Qed.
End WriterOps.

(** ** Reader actions *)

Lemma decodes_ret {A} (a : A) : decodes (fun r => Ok (a, r)) enc_nil a.
Proof. intros pre post. cbn. by rewrite Nat.add_0_r. Qed.

Lemma decodes_bind {A C} (f : CdrReader -> res CdrError (A * CdrReader))
    (g : A -> CdrReader -> res CdrError (C * CdrReader)) e1 e2 a c :
  decodes f e1 a -> decodes (g a) e2 c ->
  decodes (fun r => x ← f r; let '(a, r) := x in g a r) (e1 ;+ e2) c.
Proof.
  intros Hf Hg pre post. unfold enc_seq. cbn zeta.
  set (b1 := e1 (length pre)). set (b2 := e2 (length pre + length b1)%nat).
  pose proof (Hf pre (b2 ++ post)) as H1.
  pose proof (Hg (pre ++ b1) post) as H2.
  rewrite length_app in H2. fold b1 in H1. fold b2 in H2. cbn zeta in *.
  rewrite <- !app_assoc in *. rewrite H1. cbn [mbind res_bind].
  rewrite H2, length_app. do 3 f_equal. lia.
Qed.

Lemma decodes_ext {A} (f g : CdrReader -> res CdrError (A * CdrReader)) e a :
  (forall r, f r = g r) -> decodes f e a -> decodes g e a.
Proof. intros Hfg Hf pre post. cbn. rewrite <- Hfg. apply Hf. Qed.

Lemma decodes_ext_enc {A} (f : CdrReader -> res CdrError (A * CdrReader)) e e' a :
  (forall p, e p = e' p) -> decodes f e a -> decodes f e' a.
Proof. intros He Hf pre post. cbn. rewrite <- !He. apply Hf. Qed.

(** Post-processing a decoded value. *)
Lemma decodes_fmap {A C} (f : CdrReader -> res CdrError (A * CdrReader))
    (k : A -> res CdrError C) e a c :
  decodes f e a -> k a = Ok c ->
  decodes (fun r => x ← f r; let '(a, r) := x in c ← k a; Ok (c, r)) e c.
Proof. intros Hf Hk pre post. cbn. rewrite Hf. cbn. by rewrite Hk. Qed.

Lemma reader_align_decodes a pre post :
  (0 < a)%nat ->
  reader_align (mkReader (pre ++ enc_align a (length pre) ++ post) (length pre)) a =
    Ok (mkReader (pre ++ enc_align a (length pre) ++ post)
          (length pre + length (enc_align a (length pre)))).
Proof.
  intros Ha. unfold reader_align, enc_align. cbn [position input].
  rewrite length_replicate. unfold pad_len.
  destruct (Nat.eqb_spec a 0) as [|_]; [lia|].
  destruct (Nat.eqb_spec (length pre mod a) 0) as [E0|E0]; cbn [negb].
  - by rewrite Nat.add_0_r.
  - unfold remaining. cbn [position input].
    rewrite !length_app, length_replicate.
    destruct (Nat.ltb_spec (length pre + (a - length pre mod a + length post) - length pre)
      (a - length pre mod a)); [lia|done].
Qed.

Lemma read_bytes_decodes bs n :
  n = Z.of_nat (length bs) -> decodes (fun r => read_bytes r n) (enc_raw bs) bs.
Proof.
  intros -> pre post. unfold read_bytes, remaining, enc_raw. cbn [position input].
  rewrite !length_app, Nat2Z.id.
  destruct (Z.ltb_spec (Z.of_nat (length pre + (length bs + length post) - length pre))
    (Z.of_nat (length bs))); [lia|].
  by rewrite slice_ok.
Qed.

Section ReaderOps.
Context `{BL : ByteOrderLaws}.

(** The common shape of the aligned reads. *)
Definition read_aligned {A} (n : nat) (g : Z -> A) (r : CdrReader)
    : res CdrError (A * CdrReader) :=
  r ← reader_align r n;
  '(bs, r) ← read_bytes r (Z.of_nat n);
  v ← read_order n bs;
  Ok (g v, r).

Lemma strip_nul_length bs bs' : strip_nul bs = Ok bs' -> (length bs' <= length bs)%nat.
Proof.
  unfold strip_nul. assert (forall b, Ok (E := CdrError) bs = Ok b -> (length b <= length bs)%nat) as Hs
    by (intros ? [= <-]; done).
  destruct (last bs) as [[]|]; try apply Hs. unfold slice. case_match; [|done]. intros [= <-].
  rewrite length_take, length_drop. lia.
Qed.

Lemma wrap_i_range w z : 0 < w -> i_range w (wrap_i w z).
Proof.
  intros Hw. unfold i_range, wrap_i.
  assert (2 ^ w = 2 * 2 ^ (w - 1)) as Hp by (rewrite <- Z.pow_succ_r by lia; f_equal; lia).
  assert (0 < 2 ^ (w - 1)) by (apply Z.pow_pos_nonneg; lia).
  pose proof (Z.mod_pos_bound (z + 2 ^ (w - 1)) (2 ^ w) ltac:(lia)). lia.
Qed.

Lemma read_aligned_decodes {A} n (g : Z -> A) v :
  (0 < n)%nat -> decodes (read_aligned n g) (enc_order n v) (g (v mod 2 ^ (8 * Z.of_nat n))).
Proof.
  intros Hn pre post. unfold read_aligned, enc_order, enc_seq. cbn zeta.
  set (ps := enc_align n (length pre)).
  set (bs := enc_raw (bo_write n v) (length pre + length ps)%nat).
  rewrite <- app_assoc.
  pose proof (reader_align_decodes n pre (bs ++ post) Hn) as Ha. fold ps in Ha.
  rewrite Ha. cbn [mbind res_bind].
  pose proof (read_bytes_decodes bs (Z.of_nat n)) as Hr.
  unfold bs, enc_raw in Hr. rewrite bo_write_length in Hr.
  specialize (Hr eq_refl (pre ++ ps) post). cbn zeta in Hr.
  rewrite length_app, <- app_assoc in Hr. unfold bs, enc_raw. rewrite Hr.
  cbn [mbind res_bind]. unfold read_order. rewrite bo_write_length, Nat.ltb_irrefl.
  cbn [mbind res_bind].
  rewrite take_ge by (rewrite bo_write_length; lia).
  rewrite bo_read_write, length_app, bo_write_length. do 3 f_equal. lia.
Qed.

Lemma read_u16_decodes v : u_range 16 v -> decodes read_u16 (enc_order 2 v) v.
Proof.
  intros Hv. pose proof (read_aligned_decodes 2 (fun v => v) v ltac:(lia)) as H0.
  change (8 * Z.of_nat 2) with 16 in H0. by rewrite (Z.mod_small v) in H0 by done.
Qed.

Lemma read_u32_decodes v : u_range 32 v -> decodes read_u32 (enc_order 4 v) v.
Proof.
  intros Hv. pose proof (read_aligned_decodes 4 (fun v => v) v ltac:(lia)) as H0.
  change (8 * Z.of_nat 4) with 32 in H0. by rewrite (Z.mod_small v) in H0 by done.
Qed.

Lemma read_u64_decodes v : u_range 64 v -> decodes read_u64 (enc_order 8 v) v.
Proof.
  intros Hv. pose proof (read_aligned_decodes 8 (fun v => v) v ltac:(lia)) as H0.
  change (8 * Z.of_nat 8) with 64 in H0. by rewrite (Z.mod_small v) in H0 by done.
Qed.

Lemma read_f32_decodes v : u_range 32 v -> decodes read_f32 (enc_order 4 v) v.
Proof. apply read_u32_decodes. Qed.

Lemma read_f64_decodes v : u_range 64 v -> decodes read_f64 (enc_order 8 v) v.
Proof. apply read_u64_decodes. Qed.

Lemma read_i16_decodes v :
  i_range 16 v -> decodes read_i16 (enc_order 2 (wrap_u 16 v)) v.
Proof.
  intros Hv. pose proof (read_aligned_decodes 2 (wrap_i 16) (wrap_u 16 v) ltac:(lia)) as H0.
  change (8 * Z.of_nat 2) with 16 in H0.
  rewrite (Z.mod_small (wrap_u 16 v)), wrap_i_wrap_u in H0 by (done || by apply wrap_u_range).
  exact H0.
Qed.

Lemma read_i32_decodes v :
  i_range 32 v -> decodes read_i32 (enc_order 4 (wrap_u 32 v)) v.
Proof.
  intros Hv. pose proof (read_aligned_decodes 4 (wrap_i 32) (wrap_u 32 v) ltac:(lia)) as H0.
  change (8 * Z.of_nat 4) with 32 in H0.
  rewrite (Z.mod_small (wrap_u 32 v)), wrap_i_wrap_u in H0 by (done || by apply wrap_u_range).
  exact H0.
Qed.

Lemma read_i64_decodes v :
  i_range 64 v -> decodes read_i64 (enc_order 8 (wrap_u 64 v)) v.
Proof.
  intros Hv. pose proof (read_aligned_decodes 8 (wrap_i 64) (wrap_u 64 v) ltac:(lia)) as H0.
  change (8 * Z.of_nat 8) with 64 in H0.
  rewrite (Z.mod_small (wrap_u 64 v)), wrap_i_wrap_u in H0 by (done || by apply wrap_u_range).
  exact H0.
Qed.

(** The one byte reads. *)
Lemma read_byte_decodes {A} (k : byte -> res CdrError A) b a :
  k b = Ok a ->
  decodes (fun r => x ← read_bytes r 1; let '(bs, r) := x in
    b ← index bs 0; a ← k b; Ok (a, r)) (enc_raw [b]) a.
Proof.
  intros Hk pre post. cbn zeta. pose proof (read_bytes_decodes [b] 1 eq_refl pre post) as Hr.
  cbn zeta in Hr. rewrite Hr. cbn. by rewrite Hk.
Qed.

Lemma read_u8_decodes v : u_range 8 v -> decodes read_u8 (enc_raw [byte_of_Z v]) v.
Proof.
  intros Hv. apply (read_byte_decodes (fun b => Ok (u8_of_byte b))).
  by rewrite u8_of_byte_of_Z, Z.mod_small.
Qed.

Lemma read_i8_decodes v :
  i_range 8 v -> decodes read_i8 (enc_raw [byte_of_Z (wrap_u 8 v)]) v.
Proof.
  intros Hv. apply (read_byte_decodes (fun b => Ok (wrap_i 8 (u8_of_byte b)))).
  rewrite u8_of_byte_of_Z. change 256 with (2 ^ 8).
  rewrite Z.mod_small by (by apply wrap_u_range). by rewrite wrap_i_wrap_u.
Qed.

Lemma read_bool_decodes (v : bool) : decodes read_bool (enc_raw [if v then x01 else x00]) v.
Proof.
  intros pre post. cbn zeta. unfold read_bool.
  pose proof (read_bytes_decodes [if v then x01 else x00] 1 eq_refl pre post) as Hr.
  cbn zeta in Hr. rewrite Hr. by destruct v.
Qed.

Lemma strip_nul_snoc bs : strip_nul (bs ++ [x00]) = Ok bs.
Proof.
  unfold strip_nul. rewrite last_snoc.
  replace (length (bs ++ [x00]) - 1)%nat with (0 + length bs)%nat
    by (rewrite length_app; cbn; lia).
  apply (slice_ok [] bs [x00]).
Qed.

Lemma read_string_decodes s :
  str_valid s -> Z.of_nat (str_len s) + 1 < 2 ^ 32 ->
  decodes read_string (enc_string s) s.
Proof.
  intros Hv Hl. unfold read_string, enc_string.
  apply decodes_bind with (a := Z.of_nat (str_len s) + 1)
    (g := fun len r => if len =? 0 then Ok (""%string, r) else
      x ← read_bytes r len; let '(bytes, r) := x in
      str_bytes ← strip_nul bytes; s ← map_err Utf8 (from_utf8 str_bytes); Ok (s, r)).
  { apply read_u32_decodes. unfold u_range. lia. }
  destruct (Z.eqb_spec (Z.of_nat (str_len s) + 1) 0) as [|_]; [lia|].
  intros pre post. cbn zeta.
  assert (Z.of_nat (str_len s) + 1 = Z.of_nat (length (str_bytes s ++ [x00]))) as Hn.
  { rewrite length_app, str_bytes_length. cbn. lia. }
  pose proof (read_bytes_decodes _ _ Hn pre post) as Hr. cbn zeta in Hr.
  rewrite Hr. cbn [mbind res_bind]. rewrite strip_nul_snoc. cbn [mbind res_bind].
  by rewrite from_utf8_valid.
Qed.

Lemma read_str_decodes s :
  str_valid s -> Z.of_nat (str_len s) + 1 < 2 ^ 32 ->
  decodes read_str (enc_string s) s.
Proof. apply read_string_decodes. Qed.

Lemma read_sequence_length_decodes n :
  Z.of_nat n <= MAX_SEQUENCE_LENGTH ->
  decodes read_sequence_length (enc_order 4 (Z.of_nat n)) (Z.of_nat n).
Proof.
  unfold MAX_SEQUENCE_LENGTH. intros Hn. unfold read_sequence_length.
  apply (decodes_ext_enc _ (enc_order 4 (Z.of_nat n) ;+ enc_nil)).
  { intros p. unfold enc_seq at 1. by rewrite app_nil_r. }
  apply decodes_bind with (a := Z.of_nat n)
    (g := fun len r => if len >? MAX_SEQUENCE_LENGTH then _ else Ok (len, r)).
  { apply read_u32_decodes. unfold u_range. lia. }
  unfold MAX_SEQUENCE_LENGTH.
  destruct (Z.gtb_spec (Z.of_nat n) 100000000); [lia | apply decodes_ret].
Qed.

Lemma read_byte_sequence_decodes bs :
  Z.of_nat (length bs) < 2 ^ 32 -> decodes read_byte_sequence (enc_bytes bs) bs.
Proof.
  intros Hn. unfold read_byte_sequence, enc_bytes.
  apply decodes_bind with (a := Z.of_nat (length bs)) (g := fun len r => read_bytes r len).
  - apply read_u32_decodes. unfold u_range. lia.
  - by apply read_bytes_decodes.
Qed.
End ReaderOps.

(** ** The reader is safe on every input *)

Lemma advanced_refl r : reader_ok r -> advanced r r.
Proof. by split. Qed.

Lemma advanced_trans r1 r2 r3 : advanced r1 r2 -> advanced r2 r3 -> advanced r1 r3.
Proof. intros (? & ? & ?) (? & ? & ?). split; [congruence|split; [lia|done]]. Qed.

Lemma advanced_ok r r' : advanced r r' -> reader_ok r'.
Proof. by intros (_ & _ & ?). Qed.

#[export] Hint Resolve advanced_refl advanced_ok : rosz.
#[export] Hint Resolve advanced_trans | 10 : rosz.

Lemma safe_ret {E A} (a : A) : safe (E := E) (fun r => Ok (a, r)).
Proof. intros r Hr. split; [done|]. intros ? ? [= <- <-]. by apply advanced_refl. Qed.

Lemma safe_err {E A} (e : E) : safe (A := A) (fun _ => Err e).
Proof. intros r Hr. by split. Qed.

Lemma safe_bind {E A C} (f : CdrReader -> res E (A * CdrReader))
    (g : A -> CdrReader -> res E (C * CdrReader)) :
  safe f -> (forall a, safe (g a)) ->
  safe (fun r => x ← f r; let '(a, r) := x in g a r).
Proof.
  intros Hf Hg r Hr. destruct (Hf r Hr) as [Hp Ha].
  destruct (f r) as [[a r1]|e|]; [|by split|done].
  pose proof (Ha a r1 eq_refl) as H1. cbn [mbind res_bind].
  destruct (Hg a r1 (advanced_ok _ _ H1)) as [Hp' Ha'].
  split; [done|]. intros c r' Hc. eapply advanced_trans; [exact H1 | exact (Ha' c r' Hc)].
Qed.

(** A pure, non-panicking computation between two reads. *)
Lemma safe_pure {E A C} (m : res E A) (g : A -> CdrReader -> res E (C * CdrReader)) :
  no_panic m -> (forall a, m = Ok a -> safe (g a)) ->
  safe (fun r => x ← m; g x r).
Proof.
  intros Hm Hg. destruct m as [a|e|]; cbn [mbind res_bind]; [|by apply safe_err|done].
  by apply Hg.
Qed.

Lemma safe_map_err {E F A} (h : E -> F) (f : CdrReader -> res E (A * CdrReader)) :
  safe f -> safe (fun r => map_err h (f r)).
Proof.
  intros Hf r Hr. destruct (Hf r Hr) as [Hp Ha].
  destruct (f r) as [[a r1]|e|]; [|by split|done].
  split; [done|]. cbn. intros ? ? [= <- <-]. exact (Ha a r1 eq_refl).
Qed.

Lemma safe_if {E A} (b : bool) (f g : CdrReader -> res E (A * CdrReader)) :
  safe f -> safe g -> safe (fun r => if b then f r else g r).
Proof. by destruct b. Qed.

Lemma reader_align_safe r n :
  (0 < n)%nat -> reader_ok r ->
  no_panic (reader_align r n) /\ forall r', reader_align r n = Ok r' -> advanced r r'.
Proof.
  intros Hn Hr. unfold reader_align, reader_ok, remaining, advanced in *.
  destruct (Nat.eqb_spec n 0) as [|_]; [lia|].
  destruct (negb _) eqn:E0; [|split; [done|by intros ? [= <-]]].
  case_match eqn:E1; [by split|]. apply Nat.ltb_ge in E1.
  split; [done|]. intros r' [= <-]. unfold reader_ok. cbn. split; [done|split]; lia.
Qed.

(** A successful [read_bytes] returns exactly [count] bytes. *)
Lemma read_bytes_inv r n bs r' :
  0 <= n -> reader_ok r -> read_bytes r n = Ok (bs, r') ->
  Z.of_nat (length bs) = n /\ advanced r r'.
Proof.
  unfold read_bytes, reader_ok, remaining. intros Hn Hr H.
  case_match eqn:E; [done|]. apply Z.ltb_ge in E.
  destruct (slice_in_range (E := CdrError) (input r) (position r) (position r + Z.to_nat n))
    as (m & Hm & Hl); [lia..|].
  rewrite Hm in H. cbn in H. simplify_eq. unfold advanced, reader_ok. cbn.
  split; [lia|]. split; [done|]. lia.
Qed.

Lemma read_bytes_safe n : 0 <= n -> safe (fun r => read_bytes r n).
Proof.
  intros Hn r Hr. split.
  - unfold read_bytes, reader_ok, remaining in *. case_match eqn:E; [done|].
    apply Z.ltb_ge in E. apply no_panic_bind; [|done].
    apply slice_no_panic; lia.
  - intros bs r' H. by eapply read_bytes_inv.
Qed.

Section ReaderSafety.
Context `{BL : ByteOrderLaws}.

Lemma read_aligned_safe {A} n (g : Z -> A) : (0 < n)%nat -> safe (read_aligned n g).
Proof.
  intros Hn r Hr. unfold read_aligned.
  destruct (reader_align_safe r n Hn Hr) as [Hp Ha].
  destruct (reader_align r n) as [r1|e|]; [|by split|done]. cbn [mbind res_bind].
  pose proof (Ha r1 eq_refl) as H1. pose proof (advanced_ok _ _ H1) as Hr1.
  destruct (read_bytes_safe (Z.of_nat n) ltac:(lia) r1 Hr1) as [Hp' _].
  destruct (read_bytes r1 (Z.of_nat n)) as [[bs r2]|e|] eqn:E2; [|by split|done].
  destruct (read_bytes_inv _ _ _ _ (Nat2Z.is_nonneg n) Hr1 E2) as [Hl H2]. cbn [mbind res_bind].
  unfold read_order. destruct (Nat.ltb_spec (length bs) n); [lia|].
  cbn. split; [done|]. intros ? ? [= <- <-]. by eapply advanced_trans.
Qed.

Lemma read_u16_safe : safe read_u16.
Proof. apply (read_aligned_safe 2 (fun v => v)). lia. Qed.
Lemma read_i16_safe : safe read_i16.
Proof. apply (read_aligned_safe 2 (wrap_i 16)). lia. Qed.
Lemma read_u32_safe : safe read_u32.
Proof. apply (read_aligned_safe 4 (fun v => v)). lia. Qed.
Lemma read_i32_safe : safe read_i32.
Proof. apply (read_aligned_safe 4 (wrap_i 32)). lia. Qed.
Lemma read_u64_safe : safe read_u64.
Proof. apply (read_aligned_safe 8 (fun v => v)). lia. Qed.
Lemma read_i64_safe : safe read_i64.
Proof. apply (read_aligned_safe 8 (wrap_i 64)). lia. Qed.
Lemma read_f32_safe : safe read_f32.
Proof. apply read_u32_safe. Qed.
Lemma read_f64_safe : safe read_f64.
Proof. apply read_u64_safe. Qed.

(** The aligned reads return a value of their width. *)
Lemma read_aligned_inv {A} n (g : Z -> A) r a r' :
  reader_ok r -> read_aligned n g r = Ok (a, r') ->
  exists v, a = g v /\ u_range (8 * Z.of_nat n) v.
Proof.
  intros Hr Hx. unfold read_aligned in Hx. res_inv. eexists. split; [done|].
  unfold read_order in *. case_match eqn:El; simplify_eq. apply Nat.ltb_ge in El.
  unfold u_range. pose proof (bo_read_range (take n l)) as Hb.
  by rewrite length_take_le in Hb.
Qed.

Lemma read_u8_safe : safe read_u8.
Proof.
  intros r Hr. destruct (read_bytes_safe 1 ltac:(lia) r Hr) as [Hp _]. unfold read_u8.
  destruct (read_bytes r 1) as [[bs r2]|e|] eqn:E2; [|by split|done].
  destruct (read_bytes_inv _ 1 _ _ ltac:(lia) Hr E2) as [Hl H2].
  destruct bs as [|b [|]]; [cbn in Hl; lia| |cbn in Hl; lia]. cbn. split; [done|].
  by intros ? ? [= <- <-].
Qed.

(** Reads of one byte are post-processings of [read_u8]. *)
Lemma read_i8_safe : safe read_i8.
Proof.
  intros r Hr. pose proof (read_u8_safe r Hr) as [Hp Ha]. unfold read_u8, read_i8 in *.
  destruct (read_bytes r 1) as [[bs r2]|e|]; [|by split|done]. cbn in *.
  destruct (index bs 0) as [b|e|]; [|by split|done]. cbn in *. split; [done|].
  intros ? ? [= <- <-]. exact (Ha _ _ eq_refl).
Qed.

Lemma read_bool_safe : safe read_bool.
Proof.
  intros r Hr. pose proof (read_u8_safe r Hr) as [Hp Ha]. unfold read_u8, read_bool in *.
  destruct (read_bytes r 1) as [[bs r2]|e|]; [|by split|done]. cbn in *.
  destruct (index bs 0) as [b|e|]; [|by split|done]. cbn in *.
  repeat case_match; (split; [done|]); intros ? ? Hx; simplify_eq; exact (Ha _ _ eq_refl).
Qed.

Lemma strip_nul_no_panic bs : no_panic (strip_nul bs).
Proof.
  unfold strip_nul. destruct (last bs) as [[]|]; try apply no_panic_Ok.
  apply slice_no_panic; lia.
Qed.

Lemma read_string_safe : safe read_string.
Proof.
  intros r Hr. unfold read_string.
  destruct (read_u32_safe r Hr) as [Hp Ha].
  destruct (read_u32 r) as [[n r1]|e|] eqn:E1; [|by split|done].
  pose proof (Ha _ _ eq_refl) as H1. cbn [mbind res_bind].
  destruct (read_aligned_inv 4 (fun v => v) r n r1 Hr E1) as (v & -> & Hv).
  destruct (v =? 0); [split; [done|]; by intros ? ? [= <- <-]|].
  pose proof (advanced_ok _ _ H1) as Hr1.
  destruct (read_bytes_safe v ltac:(apply Hv) r1 Hr1) as [Hp' Ha'].
  destruct (read_bytes r1 v) as [[bs r2]|e|]; [|by split|done].
  pose proof (Ha' _ _ eq_refl) as H2. cbn [mbind res_bind].
  pose proof (strip_nul_no_panic bs) as Hn.
  destruct (strip_nul bs) as [bs'|e|]; [|by split|done]. cbn [mbind res_bind].
  pose proof (from_utf8_no_panic bs') as Hf.
  destruct (from_utf8 bs') as [s|e|]; [|by split|done]. cbn. split; [done|].
  intros ? ? [= <- <-]. by eapply advanced_trans.
Qed.

Lemma read_str_safe : safe read_str.
Proof. apply read_string_safe. Qed.

(** [read_sequence_length] is bounded by [MAX_SEQUENCE_LENGTH]. *)
Lemma read_sequence_length_inv r n r' :
  reader_ok r -> read_sequence_length r = Ok (n, r') ->
  0 <= n <= MAX_SEQUENCE_LENGTH /\ advanced r r'.
Proof.
  intros Hr Hx. unfold read_sequence_length in Hx. res_inv.
  destruct (read_u32_safe r Hr) as [_ Ha]. specialize (Ha _ _ E).
  destruct (read_aligned_inv 4 (fun v => v) r z c Hr E) as (v & -> & Hv).
  destruct (Z.gtb_spec v MAX_SEQUENCE_LENGTH); [done|]. simplify_eq.
  split; [|done]. destruct Hv. lia.
Qed.

Lemma read_sequence_length_safe : safe read_sequence_length.
Proof.
  intros r Hr. split; [|intros n r' Hx; by apply (read_sequence_length_inv r n r' Hr)].
  unfold read_sequence_length. apply no_panic_bind; [by apply read_u32_safe|].
  intros [n r1] _. by case_match.
Qed.

Lemma read_byte_sequence_safe : safe read_byte_sequence.
Proof.
  intros r Hr. unfold read_byte_sequence.
  destruct (read_u32_safe r Hr) as [Hp Ha].
  destruct (read_u32 r) as [[n r1]|e|] eqn:E1; [|by split|done].
  pose proof (Ha _ _ eq_refl) as H1. cbn [mbind res_bind].
  destruct (read_aligned_inv 4 (fun v => v) r n r1 Hr E1) as (v & -> & Hv).
  destruct (read_bytes_safe v ltac:(apply Hv) r1 (advanced_ok _ _ H1)) as [Hp' Ha'].
  split; [done|]. intros bs r' Hb. eapply advanced_trans; [done|]. by apply Ha' in Hb.
Qed.

(** The values the one byte and the aligned reads return are in range. *)
Lemma read_u8_range r v r' : read_u8 r = Ok (v, r') -> u_range 8 v.
Proof. unfold read_u8. intros Hx. res_inv. apply u8_of_byte_range. Qed.
End ReaderSafety.

#[export] Hint Resolve read_u8_safe read_i8_safe read_bool_safe read_u16_safe
  read_i16_safe read_u32_safe read_i32_safe read_u64_safe read_i64_safe
  read_f32_safe read_f64_safe read_string_safe read_str_safe
  read_sequence_length_safe read_byte_sequence_safe safe_ret safe_err : rosz.
