(* ===== verification/CdrSerializer.v ===== *)
(** * The serde serializer (crates/ros-z-cdr/src/serializer.rs)

    [CdrSerializer] has one field, its [CdrWriter], and is identified with it.
    Each method of [ser::Serializer] and of the compound traits is a definition;
    [value.serialize(serializer)] is an argument of the methods that recurse.
    [sval] is serde's data model: a value as the sequence of calls its
    [Serialize] implementation makes, which [serialize] plays on the
    serializer. *)
From S2P Require Import Prelude CdrBuffer Utf8 CdrPrimitives CdrSpec.
Open Scope Z_scope.

(** ** Definitions *)

(** serde's data model.  [VSeq] and [VMap] carry the length hint the value
    passes to [serialize_seq] and [serialize_map]. *)
Inductive sval :=
| VBool (b : bool)
| VI8 (z : Z) | VI16 (z : Z) | VI32 (z : Z) | VI64 (z : Z)
| VU8 (z : Z) | VU16 (z : Z) | VU32 (z : Z) | VU64 (z : Z) | VU128 (z : Z)
| VF32 (bits : Z) | VF64 (bits : Z)
| VChar (c : Z)
| VStr (s : string)
| VBytes (bs : list byte)
| VNone
| VSome (v : sval)
| VUnit
| VUnitStruct
| VUnitVariant (variant_index : Z)
| VNewtypeStruct (v : sval)
| VNewtypeVariant (variant_index : Z) (v : sval)
| VSeq (len_hint : option nat) (vs : list sval)
| VTuple (vs : list sval)
| VTupleStruct (vs : list sval)
| VTupleVariant (variant_index : Z) (vs : list sval)
| VMap (len_hint : option nat) (kvs : list (sval * sval))
| VStruct (vs : list sval)
| VStructVariant (variant_index : Z) (vs : list sval).

Definition CdrSerializer (B : Type) : Type := CdrWriter B.

Section Serializer.
Context `{BO : ByteOrder} {ZBuf B : Type} `{ZApi : ZBufApi ZBuf} `{CB : CdrBuffer ZBuf B}.
Abbreviation ser := (CdrSerializer B).
Abbreviation result := (res CdrError ser).

(** [CdrSerializer::new] and [position]. *)
Definition serializer_new (b : B) : ser := writer_new b.
Definition serializer_position (s : ser) : nat := writer_position s.

Definition serialize_bool (s : ser) (v : bool) : result := write_bool s v.
Definition serialize_u8 (s : ser) (v : Z) : result := write_u8 s v.
Definition serialize_u16 (s : ser) (v : Z) : result := write_u16 s v.
Definition serialize_u32 (s : ser) (v : Z) : result := write_u32 s v.
Definition serialize_u64 (s : ser) (v : Z) : result := write_u64 s v.
Definition serialize_u128 (s : ser) (v : Z) : result :=
  s ← writer_align s 16;
  Ok (writer_extend s (bo_write 16 v)).
Definition serialize_i8 (s : ser) (v : Z) : result := write_i8 s v.
Definition serialize_i16 (s : ser) (v : Z) : result := write_i16 s v.
Definition serialize_i32 (s : ser) (v : Z) : result := write_i32 s v.
Definition serialize_i64 (s : ser) (v : Z) : result := write_i64 s v.
Definition serialize_f32 (s : ser) (v : Z) : result := write_f32 s v.
Definition serialize_f64 (s : ser) (v : Z) : result := write_f64 s v.
Definition serialize_char (s : ser) (v : Z) : result := serialize_u32 s v.
Definition serialize_str (s : ser) (v : string) : result := write_string s v.
Definition serialize_bytes (s : ser) (v : list byte) : result := write_bytes s v.
Definition serialize_none (s : ser) : result := serialize_u32 s 0.
Definition serialize_some (s : ser) (value : ser -> result) : result :=
  s ← serialize_u32 s 1; value s.
Definition serialize_unit (s : ser) : result := Ok s.
Definition serialize_unit_struct (s : ser) : result := serialize_unit s.
Definition serialize_unit_variant (s : ser) (variant_index : Z) : result :=
  serialize_u32 s variant_index.
Definition serialize_newtype_struct (s : ser) (value : ser -> result) : result := value s.
Definition serialize_newtype_variant (s : ser) (variant_index : Z)
    (value : ser -> result) : result :=
  s ← serialize_u32 s variant_index; value s.
Definition serialize_seq (s : ser) (len : option nat) : result :=
  match len with
  | None => Err UnknownLength
  | Some elem_count => write_sequence_length s elem_count
  end.
Definition serialize_tuple (s : ser) (len : nat) : result := Ok s.
Definition serialize_tuple_struct (s : ser) (len : nat) : result := Ok s.
Definition serialize_tuple_variant (s : ser) (variant_index : Z) (len : nat) : result :=
  s ← serialize_u32 s variant_index; Ok s.
Definition serialize_map (s : ser) (len : option nat) : result :=
  match len with
  | None => Err UnknownLength
  | Some elem_count => write_sequence_length s elem_count
  end.
Definition serialize_struct (s : ser) (len : nat) : result := Ok s.
Definition serialize_struct_variant (s : ser) (variant_index : Z) (len : nat) : result :=
  s ← serialize_u32 s variant_index; Ok s.

(** [SerializeSeq], [SerializeTuple], [SerializeTupleStruct],
    [SerializeTupleVariant], [SerializeMap], [SerializeStruct],
    [SerializeStructVariant]. *)
Definition seq_serialize_element (s : ser) (value : ser -> result) : result := value s.
Definition tuple_serialize_element (s : ser) (value : ser -> result) : result := value s.
Definition tuple_struct_serialize_field (s : ser) (value : ser -> result) : result := value s.
Definition tuple_variant_serialize_field (s : ser) (value : ser -> result) : result := value s.
Definition map_serialize_key (s : ser) (key : ser -> result) : result := key s.
Definition map_serialize_value (s : ser) (value : ser -> result) : result := value s.
Definition struct_serialize_field (s : ser) (value : ser -> result) : result := value s.
Definition struct_variant_serialize_field (s : ser) (value : ser -> result) : result := value s.
Definition compound_end (s : ser) : result := Ok s.

(** The calls of a compound value: every element in order, then [end]. *)
Definition play_elements (call : ser -> (ser -> result) -> result) {A}
    (value : A -> ser -> result) : list A -> ser -> result :=
  fix go vs s :=
    match vs with
    | [] => compound_end s
    | v :: vs' => s ← call s (value v); go vs' s
    end.

(** [value.serialize(serializer)]. *)
Fixpoint serialize (v : sval) (s : ser) : result :=
  match v with
  | VBool b => serialize_bool s b
  | VI8 z => serialize_i8 s z
  | VI16 z => serialize_i16 s z
  | VI32 z => serialize_i32 s z
  | VI64 z => serialize_i64 s z
  | VU8 z => serialize_u8 s z
  | VU16 z => serialize_u16 s z
  | VU32 z => serialize_u32 s z
  | VU64 z => serialize_u64 s z
  | VU128 z => serialize_u128 s z
  | VF32 z => serialize_f32 s z
  | VF64 z => serialize_f64 s z
  | VChar c => serialize_char s c
  | VStr t => serialize_str s t
  | VBytes bs => serialize_bytes s bs
  | VNone => serialize_none s
  | VSome v => serialize_some s (serialize v)
  | VUnit => serialize_unit s
  | VUnitStruct => serialize_unit_struct s
  | VUnitVariant i => serialize_unit_variant s i
  | VNewtypeStruct v => serialize_newtype_struct s (serialize v)
  | VNewtypeVariant i v => serialize_newtype_variant s i (serialize v)
  | VSeq hint vs =>
      s ← serialize_seq s hint; play_elements seq_serialize_element serialize vs s
  | VTuple vs =>
      s ← serialize_tuple s (length vs);
      play_elements tuple_serialize_element serialize vs s
  | VTupleStruct vs =>
      s ← serialize_tuple_struct s (length vs);
      play_elements tuple_struct_serialize_field serialize vs s
  | VTupleVariant i vs =>
      s ← serialize_tuple_variant s i (length vs);
      play_elements tuple_variant_serialize_field serialize vs s
  | VMap hint kvs =>
      s ← serialize_map s hint;
      play_elements (fun s entry => entry s)
        (fun kv s => s ← map_serialize_key s (serialize kv.1);
                     map_serialize_value s (serialize kv.2)) kvs s
  | VStruct vs =>
      s ← serialize_struct s (length vs);
      play_elements struct_serialize_field serialize vs s
  | VStructVariant i vs =>
      s ← serialize_struct_variant s i (length vs);
      play_elements struct_variant_serialize_field serialize vs s
  end.

(** [to_buffer]: any buffer, cleared first. *)
Definition to_buffer (v : sval) (b : B) : res CdrError B :=
  let b := clear b in
  let serializer := serializer_new b in
  s ← serialize v serializer;
  Ok (buffer s).
End Serializer.

Section Entry.
Context `{BO : ByteOrder} {ZBuf : Type} `{ZApi : ZBufApi ZBuf}.

(** [to_vec]: a new vector ([capacity_hint] only sizes the allocation). *)
Definition to_vec (v : sval) (capacity_hint : nat) : res CdrError (list byte) :=
  s ← serialize (ZBuf := ZBuf) (B := list byte) v (serializer_new []);
  Ok (buffer s).

(** [to_vec_reuse]: an existing vector, cleared, with room reserved. *)
Definition to_vec_reuse (v : sval) (b : list byte) : res CdrError (list byte) :=
  let b := clear (ZBuf := ZBuf) b in
  s ← serialize (ZBuf := ZBuf) v (serializer_new b);
  Ok (buffer s).

(** [CdrSerializer::<BO, ZBufWriter>::serialize_zbuf]. *)
Definition serialize_zbuf (s : CdrSerializer (ZBufWriter ZBuf)) (z : ZBuf)
    : res CdrError (CdrSerializer (ZBufWriter ZBuf)) :=
  let n := foldr (fun sl n => (length sl + n)%nat) 0%nat (zbuf_zslices z) in
  s ← write_u32 (E := CdrError) s (wrap_u 32 (Z.of_nat n));
  Ok (mkWriter (append_zbuf (buffer s) z) (start_offset s)).
End Entry.

(** The specification: the encoding of a value. *)
Fixpoint enc_sval `{ByteOrder} (v : sval) : encoding :=
  match v with
  | VBool b => enc_raw [if b then x01 else x00]
  | VI8 z => enc_raw [byte_of_Z (wrap_u 8 z)]
  | VI16 z => enc_order 2 (wrap_u 16 z)
  | VI32 z => enc_order 4 (wrap_u 32 z)
  | VI64 z => enc_order 8 (wrap_u 64 z)
  | VU8 z => enc_raw [byte_of_Z z]
  | VU16 z => enc_order 2 z
  | VU32 z | VChar z | VUnitVariant z | VF32 z => enc_order 4 z
  | VU64 z | VF64 z => enc_order 8 z
  | VU128 z => enc_order 16 z
  | VStr s => enc_string s
  | VBytes bs => enc_bytes bs
  | VNone => enc_order 4 0
  | VSome v => enc_order 4 1 ;+ enc_sval v
  | VUnit | VUnitStruct => enc_nil
  | VNewtypeStruct v => enc_sval v
  | VNewtypeVariant i v => enc_order 4 i ;+ enc_sval v
  | VSeq _ vs => enc_order 4 (Z.of_nat (length vs)) ;+ enc_list enc_sval vs
  | VTuple vs | VTupleStruct vs | VStruct vs => enc_list enc_sval vs
  | VTupleVariant i vs | VStructVariant i vs => enc_order 4 i ;+ enc_list enc_sval vs
  | VMap _ kvs =>
      enc_order 4 (Z.of_nat (length kvs)) ;+
      enc_list (fun kv => enc_sval kv.1 ;+ enc_sval kv.2) kvs
  end.
