(* ===== verification/CdrDeserializer.v ===== *)
(** * The serde deserializer (crates/ros-z-cdr/src/deserializer.rs)

    Each method of [de::Deserializer], [EnumAccess], [VariantAccess], [SeqAccess]
    and [MapAccess] is a definition; a [Visitor] or a [DeserializeSeed] is an
    argument.  [sty] is the shape of a [Deserialize] type (the calls its
    generated implementation makes) and [decode] plays it on the deserializer;
    the two errors serde's generated code raises itself (an unknown variant
    index, a missing element) are parameters. *)
From S2P Require Import Prelude CdrBuffer Utf8 CdrPrimitives CdrSpec CdrSerializer.
Open Scope Z_scope.

(** ** Definitions *)

(** [CdrDeserializer] has one field, its [CdrReader], and is identified with it. *)
Definition CdrDeserializer : Type := CdrReader.

(** What a visitor does with the deserializer it is handed. *)
Definition visit (V : Type) : Type := CdrDeserializer -> res CdrError (V * CdrDeserializer).

(** [char::from_u32]: a Unicode scalar value. *)
Definition is_scalar_value (c : Z) : bool :=
  ((0 <=? c) && (c <? 0xD800)) || ((0xE000 <=? c) && (c <=? 0x10FFFF)).

Section Deserializer.
Context `{BO : ByteOrder}.
Abbreviation de := CdrDeserializer.

(** [CdrDeserializer::new] and [bytes_consumed]. *)
Definition deserializer_new (bytes : list byte) : de := reader_new bytes.
Definition bytes_consumed (d : de) : nat := position d.

Definition deserialize_any {V} (d : de) : res CdrError (V * de) := Err UnsupportedAny.
Definition deserialize_bool {V} (visit_bool : bool -> res CdrError V) : visit V := fun d =>
  '(v, d) ← read_bool d; v ← visit_bool v; Ok (v, d).
Definition deserialize_i8 {V} (visit_i8 : Z -> res CdrError V) : visit V := fun d =>
  '(v, d) ← read_i8 d; v ← visit_i8 v; Ok (v, d).
Definition deserialize_u8 {V} (visit_u8 : Z -> res CdrError V) : visit V := fun d =>
  '(v, d) ← read_u8 d; v ← visit_u8 v; Ok (v, d).
Definition deserialize_i16 {V} (visit_i16 : Z -> res CdrError V) : visit V := fun d =>
  '(v, d) ← read_i16 d; v ← visit_i16 v; Ok (v, d).
Definition deserialize_u16 {V} (visit_u16 : Z -> res CdrError V) : visit V := fun d =>
  '(v, d) ← read_u16 d; v ← visit_u16 v; Ok (v, d).
Definition deserialize_i32 {V} (visit_i32 : Z -> res CdrError V) : visit V := fun d =>
  '(v, d) ← read_i32 d; v ← visit_i32 v; Ok (v, d).
Definition deserialize_u32 {V} (visit_u32 : Z -> res CdrError V) : visit V := fun d =>
  '(v, d) ← read_u32 d; v ← visit_u32 v; Ok (v, d).
Definition deserialize_i64 {V} (visit_i64 : Z -> res CdrError V) : visit V := fun d =>
  '(v, d) ← read_i64 d; v ← visit_i64 v; Ok (v, d).
Definition deserialize_u64 {V} (visit_u64 : Z -> res CdrError V) : visit V := fun d =>
  '(v, d) ← read_u64 d; v ← visit_u64 v; Ok (v, d).
Definition deserialize_f32 {V} (visit_f32 : Z -> res CdrError V) : visit V := fun d =>
  '(v, d) ← read_f32 d; v ← visit_f32 v; Ok (v, d).
Definition deserialize_f64 {V} (visit_f64 : Z -> res CdrError V) : visit V := fun d =>
  '(v, d) ← read_f64 d; v ← visit_f64 v; Ok (v, d).
Definition deserialize_char {V} (visit_char : Z -> res CdrError V) : visit V := fun d =>
  '(codepoint, d) ← read_u32 d;
  if is_scalar_value codepoint then v ← visit_char codepoint; Ok (v, d)
  else Err (InvalidChar codepoint).
Definition deserialize_str {V} (visit_borrowed_str : string -> res CdrError V) : visit V :=
  fun d => '(s, d) ← read_str d; v ← visit_borrowed_str s; Ok (v, d).
Definition deserialize_string {V} (visit_borrowed_str : string -> res CdrError V) : visit V :=
  deserialize_str visit_borrowed_str.
Definition deserialize_bytes {V} (visit_bytes : list byte -> res CdrError V) : visit V :=
  fun d => '(bytes, d) ← read_byte_sequence d; v ← visit_bytes bytes; Ok (v, d).
Definition deserialize_byte_buf {V} (visit_byte_buf : list byte -> res CdrError V) : visit V :=
  fun d => '(bytes, d) ← read_byte_sequence d; v ← visit_byte_buf bytes; Ok (v, d).
Definition deserialize_option {V} (visit_none : res CdrError V) (visit_some : visit V)
    : visit V := fun d =>
  '(enum_tag, d) ← read_u32 d;
  if enum_tag =? 0 then v ← visit_none; Ok (v, d)
  else if enum_tag =? 1 then visit_some d
  else Err (InvalidOptionTag enum_tag).
Definition deserialize_unit {V} (visit_unit : res CdrError V) : visit V := fun d =>
  v ← visit_unit; Ok (v, d).
Definition deserialize_unit_struct {V} (visit_unit : res CdrError V) : visit V :=
  deserialize_unit visit_unit.
Definition deserialize_newtype_struct {V} (visit_newtype_struct : visit V) : visit V :=
  visit_newtype_struct.

(** [struct SequenceHelper]; the deserializer it borrows is a field. *)
Record SequenceHelper := mkHelper {
  sh_de : de;
  element_counter : Z;
  expected_count : Z;
}.
Definition helper_new (d : de) (expected : Z) : SequenceHelper := mkHelper d 0 expected.

(** [SeqAccess::next_element_seed], [MapAccess::next_key_seed] and
    [next_value_seed]. *)
Definition next_element_seed {T} (seed : visit T) (h : SequenceHelper)
    : res CdrError (option T * SequenceHelper) :=
  if element_counter h =? expected_count h then Ok (None, h)
  else
    '(v, d) ← seed (sh_de h);
    Ok (Some v, mkHelper d (element_counter h + 1) (expected_count h)).
Definition next_key_seed {K} (seed : visit K) (h : SequenceHelper)
    : res CdrError (option K * SequenceHelper) :=
  if element_counter h =? expected_count h then Ok (None, h)
  else
    '(v, d) ← seed (sh_de h);
    Ok (Some v, mkHelper d (element_counter h + 1) (expected_count h)).
Definition next_value_seed {W} (seed : visit W) (h : SequenceHelper)
    : res CdrError (W * SequenceHelper) :=
  '(v, d) ← seed (sh_de h);
  Ok (v, mkHelper d (element_counter h) (expected_count h)).

(** A visitor of a sequence or a map. *)
Definition visit_helper (V : Type) : Type :=
  SequenceHelper -> res CdrError (V * SequenceHelper).

Definition deserialize_seq {V} (visit_seq : visit_helper V) : visit V := fun d =>
  '(element_count, d) ← read_sequence_length d;
  '(v, h) ← visit_seq (helper_new d element_count);
  Ok (v, sh_de h).
Definition deserialize_tuple {V} (len : nat) (visit_seq : visit_helper V) : visit V := fun d =>
  '(v, h) ← visit_seq (helper_new d (Z.of_nat len));
  Ok (v, sh_de h).
Definition deserialize_tuple_struct {V} (len : nat) (visit_seq : visit_helper V) : visit V :=
  fun d =>
  '(v, h) ← visit_seq (helper_new d (Z.of_nat len));
  Ok (v, sh_de h).
Definition deserialize_map {V} (visit_map : visit_helper V) : visit V := fun d =>
  '(element_count, d) ← read_sequence_length d;
  '(v, h) ← visit_map (helper_new d element_count);
  Ok (v, sh_de h).
Definition deserialize_struct {V} (n_fields : nat) (visit_seq : visit_helper V) : visit V :=
  fun d =>
  '(v, h) ← visit_seq (helper_new d (Z.of_nat n_fields));
  Ok (v, sh_de h).

(** [deserialize_enum] hands the [EnumerationHelper] to [visit_enum]. *)
Definition deserialize_enum {V} (visit_enum : visit V) : visit V := fun d =>
  d ← reader_align d 4;
  visit_enum d.
Definition deserialize_identifier {V} (visit_u32 : Z -> res CdrError V) : visit V :=
  deserialize_u32 visit_u32.
Definition deserialize_ignored_any {V} (d : de) : res CdrError (V * de) := deserialize_any d.

(** [EnumerationHelper]: [variant_seed] and the [VariantAccess] methods. *)
Definition variant_seed {V} (seed : Z -> res CdrError V) : visit V := fun d =>
  '(enum_tag, d) ← read_u32 d;
  val ← seed enum_tag;
  Ok (val, d).
Definition unit_variant : visit unit := fun d => Ok (tt, d).
Definition newtype_variant_seed {T} (seed : visit T) : visit T := seed.
Definition tuple_variant {V} (len : nat) (visitor : visit_helper V) : visit V :=
  deserialize_tuple len visitor.
Definition struct_variant {V} (n_fields : nat) (visitor : visit_helper V) : visit V :=
  deserialize_tuple n_fields visitor.
End Deserializer.

(** The shape of a [Deserialize] type. *)
Inductive sty :=
| TBool | TI8 | TI16 | TI32 | TI64 | TU8 | TU16 | TU32 | TU64 | TF32 | TF64
| TChar | TStr | TByteBuf
| TOption (t : sty)
| TUnit | TUnitStruct
| TNewtypeStruct (t : sty)
| TSeq (t : sty)
| TTuple (ts : list sty)
| TTupleStruct (ts : list sty)
| TMap (k v : sty)
| TStruct (ts : list sty)
| TEnum (variants : list svariant)
with svariant :=
| VarUnit
| VarNewtype (t : sty)
| VarTuple (ts : list sty)
| VarStruct (ts : list sty).

Section Decode.
Context `{BO : ByteOrder}.
(** serde's own errors: an unknown variant index; element [i] missing. *)
Context (unknown_variant : Z -> CdrError) (missing_element : nat -> CdrError).

(** The visitor of a [Vec]: [while let Some(v) = seq.next_element()?].  [fuel]
    bounds the iterations; [SequenceHelper] ends the loop after
    [expected_count] of them, see [decode_safe]. *)
Fixpoint visit_vec {T} (seed : visit T) (fuel : nat) (h : SequenceHelper)
    : res CdrError (list T * SequenceHelper) :=
  '(o, h) ← next_element_seed seed h;
  match o with
  | None => Ok ([], h)
  | Some v =>
      match fuel with
      | O => Panic
      | S fuel => '(vs, h) ← visit_vec seed fuel h; Ok (v :: vs, h)
      end
  end.

(** The visitor of a map: [while let Some((k, v)) = map.next_entry()?]. *)
Fixpoint visit_entries {K W} (kseed : visit K) (vseed : visit W) (fuel : nat)
    (h : SequenceHelper) : res CdrError (list (K * W) * SequenceHelper) :=
  '(o, h) ← next_key_seed kseed h;
  match o with
  | None => Ok ([], h)
  | Some k =>
      match fuel with
      | O => Panic
      | S fuel =>
          '(v, h) ← next_value_seed vseed h;
          '(kvs, h) ← visit_entries kseed vseed fuel h;
          Ok ((k, v) :: kvs, h)
      end
  end.

(** The visitor of a tuple or a struct: one [next_element] per field. *)
Definition visit_fields {A T} (seed : A -> visit T) : nat -> list A -> visit_helper (list T) :=
  fix go i ts h :=
    match ts with
    | [] => Ok ([], h)
    | t :: ts' =>
        '(o, h) ← next_element_seed (seed t) h;
        match o with
        | None => Err (missing_element i)
        | Some v => '(vs, h) ← go (S i) ts' h; Ok (v :: vs, h)
        end
    end.

Definition fmap_visit {A C X} (k : A -> C) (m : X -> res CdrError (A * X)) (x : X)
    : res CdrError (C * X) :=
  '(a, x) ← m x; Ok (k a, x).

(** The variant of an index. *)
Definition nth_variant {A R} (f : A -> R) (other : R) : list A -> nat -> R :=
  fix go l n :=
    match l, n with
    | [], _ => other
    | x :: _, O => f x
    | _ :: l', S n' => go l' n'
    end.

(** [T::deserialize(deserializer)]. *)
Fixpoint decode (t : sty) {struct t} : visit sval :=
  match t with
  | TBool => deserialize_bool (fun v => Ok (VBool v))
  | TI8 => deserialize_i8 (fun v => Ok (VI8 v))
  | TI16 => deserialize_i16 (fun v => Ok (VI16 v))
  | TI32 => deserialize_i32 (fun v => Ok (VI32 v))
  | TI64 => deserialize_i64 (fun v => Ok (VI64 v))
  | TU8 => deserialize_u8 (fun v => Ok (VU8 v))
  | TU16 => deserialize_u16 (fun v => Ok (VU16 v))
  | TU32 => deserialize_u32 (fun v => Ok (VU32 v))
  | TU64 => deserialize_u64 (fun v => Ok (VU64 v))
  | TF32 => deserialize_f32 (fun v => Ok (VF32 v))
  | TF64 => deserialize_f64 (fun v => Ok (VF64 v))
  | TChar => deserialize_char (fun v => Ok (VChar v))
  | TStr => deserialize_string (fun v => Ok (VStr v))
  | TByteBuf => deserialize_byte_buf (fun v => Ok (VBytes v))
  | TOption t => deserialize_option (Ok VNone) (fmap_visit VSome (decode t))
  | TUnit => deserialize_unit (Ok VUnit)
  | TUnitStruct => deserialize_unit_struct (Ok VUnitStruct)
  | TNewtypeStruct t => deserialize_newtype_struct (fmap_visit VNewtypeStruct (decode t))
  | TSeq t => deserialize_seq (fun h =>
      fmap_visit (fun vs => VSeq (Some (length vs)) vs)
        (visit_vec (decode t) (Z.to_nat (expected_count h))) h)
  | TTuple ts => deserialize_tuple (length ts) (fmap_visit VTuple (visit_fields decode 0 ts))
  | TTupleStruct ts =>
      deserialize_tuple_struct (length ts) (fmap_visit VTupleStruct (visit_fields decode 0 ts))
  | TMap k v => deserialize_map (fun h =>
      fmap_visit (fun kvs => VMap (Some (length kvs)) kvs)
        (visit_entries (decode k) (decode v) (Z.to_nat (expected_count h))) h)
  | TStruct ts => deserialize_struct (length ts) (fmap_visit VStruct (visit_fields decode 0 ts))
  | TEnum variants => deserialize_enum (fun d =>
      '(i, d) ← variant_seed (fun tag =>
        if tag <? Z.of_nat (length variants) then Ok tag else Err (unknown_variant tag)) d;
      nth_variant (decode_content i) (fun _ => Err (unknown_variant i))
        variants (Z.to_nat i) d)
  end
with decode_content (i : Z) (x : svariant) {struct x} : visit sval :=
  match x with
  | VarUnit => fmap_visit (fun _ => VUnitVariant i) unit_variant
  | VarNewtype t => newtype_variant_seed (fmap_visit (VNewtypeVariant i) (decode t))
  | VarTuple ts => tuple_variant (length ts) (fmap_visit (VTupleVariant i) (visit_fields decode 0 ts))
  | VarStruct ts => struct_variant (length ts) (fmap_visit (VStructVariant i) (visit_fields decode 0 ts))
  end.

(** [from_bytes_with] and [from_bytes]: the value and the bytes consumed. *)
Definition from_bytes_with {V} (input_bytes : list byte) (decoder : visit V)
    : res CdrError (V * nat) :=
  let deserializer := deserializer_new input_bytes in
  '(t, deserializer) ← decoder deserializer;
  Ok (t, bytes_consumed deserializer).
Definition from_bytes (t : sty) (input_bytes : list byte) : res CdrError (sval * nat) :=
  from_bytes_with input_bytes (decode t).
End Decode.

(** ** Well-typed values *)

Definition all2 {A C} (P : A -> C -> Prop) : list A -> list C -> Prop :=
  fix go l k :=
    match l, k with
    | [], [] => True
    | a :: l', c :: k' => P a c /\ go l' k'
    | _, _ => False
    end.

Definition all {A} (P : A -> Prop) : list A -> Prop :=
  fix go l :=
    match l with
    | [] => True
    | a :: l' => P a /\ go l'
    end.

(** [v] is a value of a type of shape [t], with every integer in its range,
    every string within the [u32] byte count and every sequence within the limit
    [read_sequence_length] sets. *)
Fixpoint has_sty (t : sty) (v : sval) {struct t} : Prop :=
  match t, v with
  | TBool, VBool _ => True
  | TI8, VI8 z => i_range 8 z
  | TI16, VI16 z => i_range 16 z
  | TI32, VI32 z => i_range 32 z
  | TI64, VI64 z => i_range 64 z
  | TU8, VU8 z => u_range 8 z
  | TU16, VU16 z => u_range 16 z
  | TU32, VU32 z => u_range 32 z
  | TU64, VU64 z => u_range 64 z
  | TF32, VF32 z => u_range 32 z
  | TF64, VF64 z => u_range 64 z
  | TChar, VChar c => is_scalar_value c = true
  | TStr, VStr s => str_valid s /\ Z.of_nat (str_len s) + 1 < 2 ^ 32
  | TByteBuf, VBytes bs => Z.of_nat (length bs) < 2 ^ 32
  | TOption _, VNone => True
  | TOption t, VSome v => has_sty t v
  | TUnit, VUnit => True
  | TUnitStruct, VUnitStruct => True
  | TNewtypeStruct t, VNewtypeStruct v => has_sty t v
  | TSeq t, VSeq hint vs =>
      hint = Some (length vs) /\ Z.of_nat (length vs) <= MAX_SEQUENCE_LENGTH /\
      all (has_sty t) vs
  | TTuple ts, VTuple vs => all2 has_sty ts vs
  | TTupleStruct ts, VTupleStruct vs => all2 has_sty ts vs
  | TMap k w, VMap hint kvs =>
      hint = Some (length kvs) /\ Z.of_nat (length kvs) <= MAX_SEQUENCE_LENGTH /\
      all (fun kv => has_sty k kv.1 /\ has_sty w kv.2) kvs
  | TStruct ts, VStruct vs => all2 has_sty ts vs
  | TEnum variants, VUnitVariant i | TEnum variants, VNewtypeVariant i _
  | TEnum variants, VTupleVariant i _ | TEnum variants, VStructVariant i _ =>
      0 <= i < Z.of_nat (length variants) /\ i < 2 ^ 32 /\
      nth_variant (has_svariant v) False variants (Z.to_nat i)
  | _, _ => False
  end
with has_svariant (v : sval) (x : svariant) {struct x} : Prop :=
  match x, v with
  | VarUnit, VUnitVariant _ => True
  | VarNewtype t, VNewtypeVariant _ v => has_sty t v
  | VarTuple ts, VTupleVariant _ vs => all2 has_sty ts vs
  | VarStruct ts, VStructVariant _ vs => all2 has_sty ts vs
  | _, _ => False
  end.
