(* ===== verification/CdrSerde.v ===== *)
(** * The serde codec: round trip, safety, zero-copy refinement

    Theorems about [serialize] and [decode] together: what a value's
    serialization leaves in any [CdrBuffer] is its encoding; [from_bytes] reads
    it back to the same value and consumes every byte; [from_bytes] never panics
    whatever the input; and the one operation that can panic,
    [serialize_u128]. *)
From S2P Require Import Prelude CdrBuffer Utf8 CdrPrimitives CdrSpec CdrSerializer CdrDeserializer.
Open Scope Z_scope.

(** ** Induction on shapes *)

(** The shapes with no shape inside. *)
Definition scalar (t : sty) : bool :=
  match t with
  | TOption _ | TNewtypeStruct _ | TSeq _ | TTuple _ | TTupleStruct _
  | TMap _ _ | TStruct _ | TEnum _ => false
  | _ => true
  end.

Section StyInduction.
Context (P : sty -> Prop) (Q : svariant -> Prop).
Context (HBase : forall t, scalar t = true -> P t).
Context (HOption : forall t, P t -> P (TOption t))
  (HNewtype : forall t, P t -> P (TNewtypeStruct t))
  (HSeq : forall t, P t -> P (TSeq t))
  (HTuple : forall ts, Forall P ts -> P (TTuple ts))
  (HTupleStruct : forall ts, Forall P ts -> P (TTupleStruct ts))
  (HMap : forall k v, P k -> P v -> P (TMap k v))
  (HStruct : forall ts, Forall P ts -> P (TStruct ts))
  (HEnum : forall vs, Forall Q vs -> P (TEnum vs))
  (HVUnit : Q VarUnit)
  (HVNewtype : forall t, P t -> Q (VarNewtype t))
  (HVTuple : forall ts, Forall P ts -> Q (VarTuple ts))
  (HVStruct : forall ts, Forall P ts -> Q (VarStruct ts)).

Lemma sty_nested_ind : forall t, P t.
Proof using All.
  fix IH 1 with (IHx (x : svariant) {struct x} : Q x).
  - intros t. destruct t; try (by apply HBase).
    + apply HOption, IH.
    + apply HNewtype, IH.
    + apply HSeq, IH.
    + apply HTuple. induction ts as [|t ts IHts]; constructor; [apply IH|apply IHts].
    + apply HTupleStruct. induction ts as [|t ts IHts]; constructor; [apply IH|apply IHts].
    + apply HMap; apply IH.
    + apply HStruct. induction ts as [|t ts IHts]; constructor; [apply IH|apply IHts].
    + apply HEnum. induction variants as [|x xs IHxs]; constructor; [apply IHx|apply IHxs].
  - destruct x.
    + apply HVUnit.
    + apply HVNewtype, IH.
    + apply HVTuple. induction ts as [|t ts IHts]; constructor; [apply IH|apply IHts].
    + apply HVStruct. induction ts as [|t ts IHts]; constructor; [apply IH|apply IHts].
Qed.
End StyInduction.

(** ** Serializing appends the encoding *)

Section Serialize.
Context `{BL : ByteOrderLaws} {ZBuf B : Type} `{BufL : CdrBufferLaws ZBuf B}.
Abbreviation appends := (appends (ZBuf := ZBuf) (B := B) (E := CdrError)).

Lemma all_Forall {A} (P : A -> Prop) l : all P l <-> Forall P l.
Proof.
  induction l as [|a l IH]; cbn; [split; [constructor|done]|].
  rewrite IH. split; [intros []; by constructor | by inversion_clear 1].
Qed.

Lemma all2_Forall2 {A C} (P : A -> C -> Prop) l k : all2 P l k <-> Forall2 P l k.
Proof.
  revert k. induction l as [|a l IH]; intros [|c k]; cbn.
  - split; [constructor | done].
  - split; [done | by inversion 1].
  - split; [done | by inversion 1].
  - rewrite IH. split; [intros []; by constructor | by inversion_clear 1].
Qed.

(** Playing the elements of a compound value. *)
Lemma play_appends {A} (f : A -> CdrSerializer B -> res CdrError (CdrSerializer B))
    (e : A -> encoding) vs :
  Forall (fun v => appends (f v) (e v)) vs ->
  appends (play_elements (fun s value => value s) f vs) (enc_list e vs).
Proof.
  induction 1 as [|v vs Hv _ IH]; [apply appends_ret|].
  by apply (appends_bind (f v) (play_elements (fun s value => value s) f vs)).
Qed.

(** Every value whose sizes fit serializes to its encoding. *)
Definition serializes (v : sval) : Prop := appends (serialize v) (enc_sval v).

Lemma Forall2_serializes (P : sty -> sval -> Prop) ts vs :
  Forall (fun t => forall v, P t v -> serializes v) ts ->
  Forall2 P ts vs -> Forall serializes vs.
Proof.
  intros Hts H2. revert Hts. induction H2 as [|t v ts vs Hv _ IH]; [constructor|].
  inversion_clear 1. constructor; eauto.
Qed.

Lemma fields_serializes (f : list sval -> sval) (ts : list sty) (vs : list sval) :
  Forall (fun t => forall v, has_sty t v -> serializes v) ts -> all2 has_sty ts vs ->
  appends (play_elements (fun s value => value s) serialize vs) (enc_list enc_sval vs).
Proof.
  rewrite all2_Forall2. intros Hts H2. apply play_appends.
  exact (Forall2_serializes _ ts vs Hts H2).
Qed.

(** Sizes below [2^32] from the limit on sequences. *)
Lemma max_sequence_length_u32 n :
  Z.of_nat n <= MAX_SEQUENCE_LENGTH -> Z.of_nat n < 2 ^ 32.
Proof. unfold MAX_SEQUENCE_LENGTH. lia. Qed.

Definition variant_serializes (x : svariant) : Prop :=
  forall v, has_svariant v x -> serializes v.

Lemma nth_variant_serializes v variants n :
  Forall variant_serializes variants -> nth_variant (has_svariant v) False variants n ->
  serializes v.
Proof.
  intros Hx. revert n. induction Hx as [|x xs Hx _ IH]; intros n Hn1; [done|].
  destruct n as [|n]; [by apply Hx | by apply (IH n)].
Qed.

Lemma scalar_serializes t v : scalar t = true -> has_sty t v -> serializes v.
Proof.
  intros Ht Hv. destruct t; try done; destruct v; try done; cbn in Hv;
    unfold serializes; cbn [serialize enc_sval].
  all: first [ apply write_bool_appends | apply write_i8_appends | apply write_u8_appends
    | apply write_i16_appends | apply write_u16_appends | apply write_i32_appends
    | apply write_u32_appends | apply write_i64_appends | apply write_u64_appends
    | apply write_string_appends; apply Hv | by apply write_bytes_appends
    | apply appends_ret ].
Qed.

(** A variant's fields follow its index. *)
Lemma variant_fields_appends (f : list sval -> sval) (i : Z) ts vs :
  Forall (fun t => forall v, has_sty t v -> serializes v) ts -> all2 has_sty ts vs ->
  appends (fun s => s ← write_u32 s i; play_elements (fun s value => value s) serialize vs s)
    (enc_order 4 i ;+ enc_list enc_sval vs).
Proof.
  intros IH Hv. apply appends_bind; [apply write_u32_appends|].
  exact (fields_serializes f ts vs IH Hv).
Qed.

Lemma serialize_appends t v : has_sty t v -> serializes v.
Proof.
  revert v. apply (sty_nested_ind (fun t => forall v, has_sty t v -> serializes v)
    variant_serializes); unfold serializes; clear t.
  - intros t Ht v Hv. by apply (scalar_serializes t).
  - intros t IH v Hv. destruct v; try done; cbn in Hv.
    + apply write_u32_appends.
    + apply (appends_bind (fun s => write_u32 s 1)); [apply write_u32_appends | by apply IH].
  - intros t IH v Hv. destruct v; try done. exact (IH v Hv).
  - intros t IH v Hv. destruct v; try done. destruct Hv as (-> & Hl & Hv).
    apply (appends_bind (fun s => write_sequence_length s (length vs))).
    { apply write_sequence_length_appends. by apply max_sequence_length_u32. }
    apply play_appends. rewrite all_Forall in Hv. apply (Forall_impl _ _ _ Hv IH).
  - intros ts IH v Hv. destruct v; try done.
    exact (fields_serializes VTuple ts vs IH Hv).
  - intros ts IH v Hv. destruct v; try done.
    exact (fields_serializes VTuple ts vs IH Hv).
  - intros k w IHk IHw v Hv. destruct v; try done. destruct Hv as (-> & Hl & Hv).
    apply (appends_bind (fun s => write_sequence_length s (length kvs))).
    { apply write_sequence_length_appends. by apply max_sequence_length_u32. }
    rewrite all_Forall in Hv.
    apply (play_appends (fun kv s => s ← serialize kv.1 s; serialize kv.2 s)
      (fun kv => enc_sval kv.1 ;+ enc_sval kv.2)).
    apply (Forall_impl _ _ _ Hv). intros kv [Hk Hw].
    apply (appends_bind (serialize kv.1) (serialize kv.2)); eauto.
  - intros ts IH v Hv. destruct v; try done.
    exact (fields_serializes VTuple ts vs IH Hv).
  - intros xs IH v Hv.
    destruct v; try done; destruct Hv as (_ & _ & Hv);
      exact (nth_variant_serializes _ _ _ IH Hv).
  - intros v Hv. destruct v; try done. apply write_u32_appends.
  - intros t IH v Hv. destruct v; try done.
    apply (appends_bind (fun s => write_u32 s variant_index) (serialize v));
      [apply write_u32_appends | by apply IH].
  - intros ts IH v Hv. destruct v; try done.
    eapply appends_ext; [|by apply (variant_fields_appends VTuple variant_index ts)].
    intros w. cbn [serialize]. unfold serialize_tuple_variant, serialize_u32.
    by destruct (write_u32 (E := CdrError) w variant_index).
  - intros ts IH v Hv. destruct v; try done.
    eapply appends_ext; [|by apply (variant_fields_appends VTuple variant_index ts)].
    intros w. cbn [serialize]. unfold serialize_struct_variant, serialize_u32.
    by destruct (write_u32 (E := CdrError) w variant_index).
Qed.
End Serialize.

(** ** Decoding reads the encoding back *)

(** A visitor reads the encoding through the helper, moving its counter from
    [c] to [c'] of [n]. *)
Definition hdecodes {V} (g : visit_helper V) (e : encoding) (v : V) (c c' n : Z) : Prop :=
  forall pre post,
  let bytes := pre ++ e (length pre) ++ post in
  g (mkHelper (mkReader bytes (length pre)) c n) =
    Ok (v, mkHelper (mkReader bytes (length pre + length (e (length pre)))) c' n).

Section Deserialize.
Context `{BL : ByteOrderLaws}.
Context (unknown_variant : Z -> CdrError) (missing_element : nat -> CdrError).

Lemma hdecodes_ret {V} (v : V) c n : hdecodes (fun h => Ok (v, h)) enc_nil v c c n.
Proof. intros pre post. cbn. by rewrite Nat.add_0_r. Qed.

Lemma hdecodes_bind {A C} (f : visit_helper A) (g : A -> visit_helper C)
    e1 e2 a b c1 c2 c3 n :
  hdecodes f e1 a c1 c2 n -> hdecodes (g a) e2 b c2 c3 n ->
  hdecodes (fun h => '(a, h) ← f h; g a h) (e1 ;+ e2) b c1 c3 n.
Proof.
  intros Hf Hg pre post. unfold enc_seq. cbn zeta.
  set (b1 := e1 (length pre)). set (b2 := e2 (length pre + length b1)%nat).
  pose proof (Hf pre (b2 ++ post)) as H1.
  pose proof (Hg (pre ++ b1) post) as H2.
  rewrite length_app in H2. fold b1 in H1. fold b2 in H2. cbn zeta in *.
  rewrite <- !app_assoc in *. rewrite H1. cbn [mbind res_bind].
  rewrite H2, length_app. do 3 f_equal. f_equal. lia.
Qed.

Lemma hdecodes_ext {V} (f g : visit_helper V) e v c c' n :
  (forall h, f h = g h) -> hdecodes f e v c c' n -> hdecodes g e v c c' n.
Proof. intros Hfg Hf pre post. cbn. rewrite <- Hfg. apply Hf. Qed.

Lemma hdecodes_fmap {A V} (k : A -> V) (f : visit_helper A) e a c c' n :
  hdecodes f e a c c' n -> hdecodes (fmap_visit k f) e (k a) c c' n.
Proof. intros Hf pre post. unfold fmap_visit. cbn. by rewrite Hf. Qed.

Lemma decodes_fmap_visit {A V} (k : A -> V) (f : visit A) e a :
  decodes f e a -> decodes (fmap_visit k f) e (k a).
Proof. intros Hf pre post. unfold fmap_visit. cbn. by rewrite Hf. Qed.

(** One step of the helper. *)
Lemma next_element_decodes {T} (seed : visit T) e v c n :
  c <> n -> decodes seed e v ->
  hdecodes (next_element_seed seed) e (Some v) c (c + 1) n.
Proof.
  intros Hc Hs pre post. unfold next_element_seed. cbn.
  destruct (Z.eqb_spec c n); [done|]. by rewrite Hs.
Qed.

Lemma next_value_decodes {T} (seed : visit T) e v c n :
  decodes seed e v -> hdecodes (next_value_seed seed) e v c c n.
Proof. intros Hs pre post. unfold next_value_seed. cbn. by rewrite Hs. Qed.

Lemma next_element_end {T} (seed : visit T) n :
  hdecodes (next_element_seed seed) enc_nil None n n n.
Proof.
  intros pre post. unfold next_element_seed. cbn.
  rewrite Z.eqb_refl. by rewrite Nat.add_0_r.
Qed.

Lemma enc_nil_r e p : (e ;+ enc_nil) p = e p.
Proof. unfold enc_seq, enc_nil. by rewrite app_nil_r. Qed.

Lemma hdecodes_nil_r {V} (g : visit_helper V) e v c c' n :
  hdecodes g (e ;+ enc_nil) v c c' n -> hdecodes g e v c c' n.
Proof. intros Hg pre post. specialize (Hg pre post). rewrite enc_nil_r in Hg. exact Hg. Qed.

Lemma enc_assoc e1 e2 e3 p : ((e1 ;+ e2) ;+ e3) p = (e1 ;+ e2 ;+ e3) p.
Proof.
  unfold enc_seq. cbn zeta. rewrite length_app, <- !app_assoc. by rewrite Nat.add_assoc.
Qed.

Lemma hdecodes_ext_enc {V} (g : visit_helper V) e e' v c c' n :
  (forall p, e p = e' p) -> hdecodes g e v c c' n -> hdecodes g e' v c c' n.
Proof. intros He Hg pre post. cbn. rewrite <- !He. apply Hg. Qed.

Lemma visit_vec_decodes {A} (seed : visit A) (e : A -> encoding) vs c :
  Forall (fun v => decodes seed (e v) v) vs ->
  hdecodes (visit_vec seed (length vs)) (enc_list e vs) vs c
    (c + Z.of_nat (length vs)) (c + Z.of_nat (length vs)).
Proof.
  intros Hvs. revert c. induction Hvs as [|v vs Hv _ IH]; intros c; cbn [length enc_list foldr].
  - rewrite Z.add_0_r. apply hdecodes_nil_r.
    apply (hdecodes_bind (next_element_seed seed) _ _ _ None _ _ c);
      [apply next_element_end | apply hdecodes_ret].
  - apply (hdecodes_bind (next_element_seed seed) _ _ _ (Some v) _ _ (c + 1));
      [apply next_element_decodes; [lia | done]|].
    replace (c + Z.of_nat (S (length vs))) with (c + 1 + Z.of_nat (length vs)) by lia.
    apply hdecodes_nil_r.
    apply (hdecodes_bind (visit_vec seed (length vs)) (fun vs h => Ok (v :: vs, h)) _ _ vs _ _
      (c + 1 + Z.of_nat (length vs))); [apply IH | apply hdecodes_ret].
Qed.

Lemma visit_entries_decodes {K W} (ks : visit K) (ws : visit W)
    (ek : K -> encoding) (ew : W -> encoding) kvs c :
  Forall (fun kv => decodes ks (ek kv.1) kv.1 /\ decodes ws (ew kv.2) kv.2) kvs ->
  hdecodes (visit_entries ks ws (length kvs))
    (enc_list (fun kv => ek kv.1 ;+ ew kv.2) kvs) kvs c
    (c + Z.of_nat (length kvs)) (c + Z.of_nat (length kvs)).
Proof.
  intros Hvs. revert c.
  induction Hvs as [|[k w] kvs [Hk Hw] _ IH]; intros c; cbn [length enc_list foldr fst snd] in *.
  - rewrite Z.add_0_r. apply hdecodes_nil_r.
    apply (hdecodes_bind (next_element_seed ks) _ _ _ None _ _ c);
      [apply next_element_end | apply hdecodes_ret].
  - eapply hdecodes_ext_enc; [intros p; symmetry; apply enc_assoc|].
    apply (hdecodes_bind (next_element_seed ks) _ _ _ (Some k) _ _ (c + 1));
      [apply next_element_decodes; [lia | done]|].
    replace (c + Z.of_nat (S (length kvs))) with (c + 1 + Z.of_nat (length kvs)) by lia.
    apply (hdecodes_bind (next_value_seed ws) _ _ _ w _ _ (c + 1));
      [by apply next_value_decodes|].
    apply hdecodes_nil_r.
    apply (hdecodes_bind (visit_entries ks ws (length kvs)) (fun kvs h => Ok ((k, w) :: kvs, h))
      _ _ kvs _ _ (c + 1 + Z.of_nat (length kvs))); [apply IH | apply hdecodes_ret].
Qed.

Lemma visit_fields_decodes (P : sty -> sval -> Prop) (seed : sty -> visit sval) ts vs i c n :
  Forall (fun t => forall v, P t v -> decodes (seed t) (enc_sval v) v) ts ->
  Forall2 P ts vs -> c + Z.of_nat (length ts) <= n ->
  hdecodes (visit_fields missing_element seed i ts) (enc_list enc_sval vs) vs c
    (c + Z.of_nat (length ts)) n.
Proof.
  intros Hts H2. revert i c Hts.
  induction H2 as [|t v ts vs Hv _ IH]; intros i c Hts Hn; cbn [length enc_list foldr] in *.
  - rewrite Z.add_0_r. apply hdecodes_ret.
  - inversion_clear Hts as [|?? Ht Hts'].
    apply (hdecodes_bind (next_element_seed (seed t)) _ _ _ (Some v) _ _ (c + 1));
      [apply next_element_decodes; [lia | by apply Ht]|].
    replace (c + Z.of_nat (S (length ts))) with (c + 1 + Z.of_nat (length ts)) by lia.
    apply hdecodes_nil_r.
    apply (hdecodes_bind (visit_fields missing_element seed (S i) ts)
      (fun vs h => Ok (v :: vs, h)) _ _ vs _ _ (c + 1 + Z.of_nat (length ts)));
      [apply IH; [done|lia] | apply hdecodes_ret].
Qed.
End Deserialize.

(** Re-aligning an aligned reader does nothing. *)
Lemma reader_align_idem r r' n :
  (0 < n)%nat -> reader_align r n = Ok r' -> reader_align r' n = Ok r'.
Proof.
  intros Hn. unfold reader_align. destruct (Nat.eqb_spec n 0) as [|_]; [lia|].
  destruct (Nat.eqb_spec (position r mod n) 0) as [E|E]; cbn [negb].
  - intros [= <-]. rewrite E. done.
  - case_match; [done|]. intros [= <-]. cbn [position].
    pose proof (Nat.mod_upper_bound (position r) n ltac:(lia)).
    assert ((position r + (n - position r mod n)) mod n = 0)%nat as ->; [|done].
    rewrite (Nat.div_mod_eq (position r) n) at 1.
    replace (n * (position r / n) + position r mod n + (n - position r mod n))%nat
      with (S (position r / n) * n)%nat by lia.
    apply Nat.Div0.mod_mul.
Qed.

Lemma read_u32_align `{ByteOrder} r :
  (r ← reader_align r 4; read_u32 r) = read_u32 r.
Proof.
  unfold read_u32. destruct (reader_align r 4) as [r'|e|] eqn:E; [|done..].
  cbn [mbind res_bind]. by rewrite (reader_align_idem r r' 4 ltac:(lia) E).
Qed.

Section DecodeEncoding.
Context `{BL : ByteOrderLaws}.
Context (unknown_variant : Z -> CdrError) (missing_element : nat -> CdrError).
Abbreviation decode := (decode unknown_variant missing_element).
Abbreviation decode_content := (decode_content unknown_variant missing_element).

Lemma deserialize_tuple_decodes {V} n (g : visit_helper V) e v :
  hdecodes g e v 0 (Z.of_nat n) (Z.of_nat n) -> decodes (deserialize_tuple n g) e v.
Proof. intros Hg pre post. unfold deserialize_tuple, helper_new. cbn zeta. by rewrite Hg. Qed.

Lemma deserialize_counted_decodes {V} n (g : visit_helper V) e v :
  Z.of_nat n <= MAX_SEQUENCE_LENGTH ->
  hdecodes g e v 0 (Z.of_nat n) (Z.of_nat n) ->
  decodes (deserialize_seq g) (enc_order 4 (Z.of_nat n) ;+ e) v.
Proof.
  intros Hn Hg.
  apply (decodes_bind read_sequence_length (fun element_count d =>
    '(v, h) ← g (helper_new d element_count); Ok (v, sh_de h)) _ _ (Z.of_nat n)).
  - by apply read_sequence_length_decodes.
  - intros pre post. unfold helper_new. cbn zeta. by rewrite Hg.
Qed.

Lemma fields_decode (k : list sval -> sval) ts vs :
  Forall (fun t => forall v, has_sty t v -> decodes (decode t) (enc_sval v) v) ts ->
  all2 has_sty ts vs ->
  decodes (deserialize_tuple (length ts) (fmap_visit k (visit_fields missing_element decode 0 ts)))
    (enc_list enc_sval vs) (k vs).
Proof.
  intros Hts H2. apply deserialize_tuple_decodes, hdecodes_fmap.
  rewrite all2_Forall2 in H2.
  by apply (visit_fields_decodes missing_element has_sty decode ts vs 0 0 (Z.of_nat (length ts))).
Qed.

(** The content of variant [i] follows its tag. *)
Definition variant_decodes (x : svariant) : Prop :=
  forall v i, has_svariant v x ->
  match v with
  | VUnitVariant j | VNewtypeVariant j _ | VTupleVariant j _ | VStructVariant j _ => j = i
  | _ => False
  end ->
  exists e, (forall p, enc_sval v p = (enc_order 4 i ;+ e) p) /\ decodes (decode_content i x) e v.

Lemma nth_variant_decodes v variants n i other :
  Forall variant_decodes variants -> nth_variant (has_svariant v) False variants n ->
  match v with
  | VUnitVariant j | VNewtypeVariant j _ | VTupleVariant j _ | VStructVariant j _ => j = i
  | _ => False
  end ->
  exists e, (forall p, enc_sval v p = (enc_order 4 i ;+ e) p) /\
    decodes (nth_variant (decode_content i) other variants n) e v.
Proof.
  intros Hx Hn Hi. revert n Hn. induction Hx as [|x xs Hx _ IH]; intros n Hn; [done|].
  destruct n as [|n]; [exact (Hx v i Hn Hi) | exact (IH n Hn)].
Qed.

Lemma deserialize_enum_decodes variants v i :
  Forall variant_decodes variants ->
  0 <= i < Z.of_nat (length variants) -> i < 2 ^ 32 ->
  nth_variant (has_svariant v) False variants (Z.to_nat i) ->
  match v with
  | VUnitVariant j | VNewtypeVariant j _ | VTupleVariant j _ | VStructVariant j _ => j = i
  | _ => False
  end ->
  decodes (decode (TEnum variants)) (enc_sval v) v.
Proof.
  intros Hx Hi Hl Hn Hv.
  destruct (nth_variant_decodes v variants (Z.to_nat i) i
    (fun _ => Err (unknown_variant i)) Hx Hn Hv) as (e & He & Hd).
  apply (decodes_ext_enc _ (enc_order 4 i ;+ e)); [by intros p; rewrite He|].
  apply (decodes_ext (fun d => '(i, d) ← read_u32 d;
    (if i <? Z.of_nat (length variants) then
       nth_variant (decode_content i) (fun _ => Err (unknown_variant i)) variants (Z.to_nat i)
     else fun _ => Err (unknown_variant i)) d)).
  - intros r. cbn [CdrDeserializer.decode]. unfold deserialize_enum, variant_seed.
    rewrite <- read_u32_align, res_bind_assoc.
    destruct (reader_align r 4) as [r'|?|]; [|done..]. cbn [mbind res_bind].
    destruct (read_u32 r') as [[j r'']|?|]; [|done..]. cbn [mbind res_bind].
    by destruct (Z.ltb_spec j (Z.of_nat (length variants))).
  - apply (decodes_bind read_u32 (fun i d => _) _ _ i).
    + apply read_u32_decodes. unfold u_range. lia.
    + destruct (Z.ltb_spec i (Z.of_nat (length variants))); [exact Hd|lia].
Qed.

Lemma deserialize_option_none {V} (none : res CdrError V) (some : visit V) v :
  none = Ok v -> decodes (deserialize_option none some) (enc_order 4 0) v.
Proof.
  intros Hv pre post. unfold deserialize_option. cbn zeta.
  rewrite (read_u32_decodes 0 ltac:(done) pre post). cbn. by rewrite Hv.
Qed.

Lemma deserialize_option_some {V} (none : res CdrError V) (some : visit V) e v :
  decodes some e v -> decodes (deserialize_option none some) (enc_order 4 1 ;+ e) v.
Proof.
  intros Hv. apply (decodes_bind read_u32 (fun enum_tag d =>
    if enum_tag =? 0 then v ← none; Ok (v, d)
    else if enum_tag =? 1 then some d else Err (InvalidOptionTag enum_tag)) _ _ 1).
  - by apply read_u32_decodes.
  - exact Hv.
Qed.

Lemma deserialize_char_decodes c :
  is_scalar_value c = true ->
  decodes (deserialize_char (fun v => Ok (VChar v))) (enc_order 4 c) (VChar c).
Proof.
  intros Hc pre post. unfold deserialize_char. cbn zeta.
  rewrite (read_u32_decodes c); [cbn; by rewrite Hc|].
  unfold is_scalar_value in Hc. unfold u_range. lia.
Qed.

Lemma scalar_decodes t v :
  scalar t = true -> has_sty t v -> decodes (decode t) (enc_sval v) v.
Proof.
  intros Ht Hv. destruct t; try done; destruct v; try done; cbn in Hv;
    cbn [CdrDeserializer.decode enc_sval].
  all: try (eapply decodes_fmap; [|reflexivity]).
  - apply read_bool_decodes.
  - by apply read_i8_decodes.
  - by apply read_i16_decodes.
  - by apply read_i32_decodes.
  - by apply read_i64_decodes.
  - by apply read_u8_decodes.
  - by apply read_u16_decodes.
  - by apply read_u32_decodes.
  - by apply read_u64_decodes.
  - by apply read_f32_decodes.
  - by apply read_f64_decodes.
  - by apply deserialize_char_decodes.
  - by apply read_str_decodes; destruct Hv.
  - by apply read_byte_sequence_decodes.
  - apply (decodes_ret VUnit).
  - apply (decodes_ret VUnitStruct).
Qed.

(** Every well-typed value decodes from its encoding. *)
Lemma decode_decodes t v : has_sty t v -> decodes (decode t) (enc_sval v) v.
Proof.
  revert v. apply (sty_nested_ind (fun t => forall v, has_sty t v ->
    decodes (decode t) (enc_sval v) v) variant_decodes); clear t.
  - intros t Ht v Hv. by apply scalar_decodes.
  - intros t IH v Hv. destruct v; try done; cbn in Hv.
    + by apply deserialize_option_none.
    + apply deserialize_option_some. apply decodes_fmap_visit. by apply IH.
  - intros t IH v Hv. destruct v; try done. apply (decodes_fmap_visit VNewtypeStruct), (IH v Hv).
  - intros t IH v Hv. destruct v; try done. destruct Hv as (-> & Hl & Hv).
    apply deserialize_counted_decodes; [done|].
    apply (hdecodes_fmap (fun vs => VSeq (Some (length vs)) vs)).
    intros pre post. cbn [expected_count]. rewrite Nat2Z.id.
    rewrite all_Forall in Hv. exact (visit_vec_decodes (decode t) enc_sval vs 0 (Forall_impl _ _ _ Hv IH) pre post).
  - intros ts IH v Hv. destruct v; try done. exact (fields_decode VTuple ts vs IH Hv).
  - intros ts IH v Hv. destruct v; try done. exact (fields_decode VTupleStruct ts vs IH Hv).
  - intros k w IHk IHw v Hv. destruct v; try done. destruct Hv as (-> & Hl & Hv).
    apply deserialize_counted_decodes; [done|].
    apply (hdecodes_fmap (fun kvs => VMap (Some (length kvs)) kvs)).
    intros pre post. cbn [expected_count]. rewrite Nat2Z.id.
    rewrite all_Forall in Hv.
    apply (visit_entries_decodes (decode k) (decode w) enc_sval enc_sval kvs 0).
    apply (Forall_impl _ _ _ Hv). intros kv [? ?]. by eauto.
  - intros ts IH v Hv. destruct v; try done. exact (fields_decode VStruct ts vs IH Hv).
  - intros xs IH v Hv. destruct v; try done; destruct Hv as (Hi & Hl & Hv);
      by apply (deserialize_enum_decodes xs _ _ IH Hi Hl Hv).
  - intros v i Hv. destruct v; try done. intros ->. exists enc_nil.
    split; [intros p; by rewrite enc_nil_r | apply (decodes_ret (VUnitVariant i))].
  - intros t IH v i Hv. destruct v; try done. intros ->. eexists.
    split; [done | by apply (decodes_fmap_visit (VNewtypeVariant i)), IH].
  - intros ts IH v i Hv. destruct v; try done. intros ->. eexists.
    split; [done | exact (fields_decode (VTupleVariant i) ts vs IH Hv)].
  - intros ts IH v i Hv. destruct v; try done. intros ->. eexists.
    split; [done | exact (fields_decode (VStructVariant i) ts vs IH Hv)].
Qed.
End DecodeEncoding.

(** ** Decoding is safe on every input *)

(** A visitor of a sequence is safe at the helpers [I] describes. *)
Definition hsafe {V} (I : SequenceHelper -> Prop) (g : visit_helper V) : Prop :=
  forall h, I h -> reader_ok (sh_de h) ->
  no_panic (g h) /\ forall v h', g h = Ok (v, h') -> advanced (sh_de h) (sh_de h').

(** [fuel] more elements are due. *)
Definition due (fuel : nat) (h : SequenceHelper) : Prop :=
  expected_count h = element_counter h + Z.of_nat fuel.

Section DecodeSafe.
Context `{BL : ByteOrderLaws}.
Context (unknown_variant : Z -> CdrError) (missing_element : nat -> CdrError).
Abbreviation decode := (decode unknown_variant missing_element).
Abbreviation decode_content := (decode_content unknown_variant missing_element).

Lemma hsafe_fmap {A V} (k : A -> V) I (g : visit_helper A) :
  hsafe I g -> hsafe I (fmap_visit k g).
Proof.
  intros Hg h HI Hr. destruct (Hg h HI Hr) as [Hp Ha]. unfold fmap_visit.
  destruct (g h) as [[a h']|e|]; [|by split|done]. cbn. split; [done|].
  intros ? ? [= <- <-]. by apply (Ha a).
Qed.

Lemma safe_fmap_visit {A V} (k : A -> V) (g : visit A) : safe g -> safe (fmap_visit k g).
Proof.
  intros Hg. apply (safe_bind g (fun a d => Ok (k a, d)) Hg). intros a. apply safe_ret.
Qed.

(** One step of the helper: it is over, or one element less is due. *)
Lemma next_element_safe {T} (seed : visit T) h :
  safe seed -> reader_ok (sh_de h) ->
  no_panic (next_element_seed seed h) /\
  forall o h', next_element_seed seed h = Ok (o, h') ->
    advanced (sh_de h) (sh_de h') /\
    (o = None /\ element_counter h = expected_count h \/
     o <> None /\ element_counter h <> expected_count h /\
     element_counter h' = element_counter h + 1 /\ expected_count h' = expected_count h).
Proof.
  intros Hs Hr. unfold next_element_seed.
  destruct (Z.eqb_spec (element_counter h) (expected_count h)) as [He|He].
  { split; [done|]. intros ? ? [= <- <-]. split; [by apply advanced_refl | by left]. }
  destruct (Hs (sh_de h) Hr) as [Hp Ha].
  destruct (seed (sh_de h)) as [[v d]|e|]; [|by split|done]. cbn. split; [done|].
  intros ? ? [= <- <-]. split; [by apply (Ha v) | by right].
Qed.

Lemma visit_vec_safe {T} (seed : visit T) fuel :
  safe seed -> hsafe (due fuel) (visit_vec seed fuel).
Proof.
  intros Hs. induction fuel as [|fuel IH]; intros h HI Hr; unfold due in HI;
    cbn [visit_vec]; destruct (next_element_safe seed h Hs Hr) as [Hp Ha];
    destruct (next_element_seed seed h) as [[[v|] h']|e|]; try (by split); try done;
    cbn [mbind res_bind]; destruct (Ha _ _ eq_refl) as [Hadv Hc].
  - destruct Hc as [[? _]|(_ & Hne & _)]; [done|]. lia.
  - split; [done|]. by intros ? ? [= <- <-].
  - destruct Hc as [[? _]|(_ & Hne & Hc & He)]; [done|].
    destruct (IH h') as [Hp' Ha']; [unfold due; lia | by eapply advanced_ok|].
    destruct (visit_vec seed fuel h') as [[vs h'']|e|]; [|by split|done].
    cbn. split; [done|]. intros ? ? [= <- <-].
    eapply advanced_trans; [done | by apply (Ha' vs)].
  - split; [done|]. by intros ? ? [= <- <-].
Qed.

Lemma visit_entries_safe {K W} (ks : visit K) (ws : visit W) fuel :
  safe ks -> safe ws -> hsafe (due fuel) (visit_entries ks ws fuel).
Proof.
  intros Hk Hw. induction fuel as [|fuel IH]; intros h HI Hr; unfold due in HI;
    cbn [visit_entries]; change (next_key_seed ks h) with (next_element_seed ks h);
    destruct (next_element_safe ks h Hk Hr) as [Hp Ha];
    destruct (next_element_seed ks h) as [[[k|] h']|e|]; try (by split); try done;
    cbn [mbind res_bind]; destruct (Ha _ _ eq_refl) as [Hadv Hc].
  - destruct Hc as [[? _]|(_ & Hne & _)]; [done|]. lia.
  - split; [done|]. by intros ? ? [= <- <-].
  - destruct Hc as [[? _]|(_ & Hne & Hc & He)]; [done|].
    destruct (Hw (sh_de h') (advanced_ok _ _ Hadv)) as [Hpw Haw]. unfold next_value_seed.
    destruct (ws (sh_de h')) as [[w d]|e|]; [|by split|done]. cbn [mbind res_bind].
    pose proof (Haw w d eq_refl) as Hadv'.
    destruct (IH (mkHelper d (element_counter h') (expected_count h'))) as [Hp' Ha'];
      [unfold due; cbn; lia | by eapply advanced_ok|].
    destruct (visit_entries ks ws fuel _) as [[kvs h'']|e|]; [|by split|done].
    cbn. split; [done|]. intros ? ? [= <- <-].
    eapply advanced_trans; [done|]. eapply advanced_trans; [done | by apply (Ha' kvs)].
  - split; [done|]. by intros ? ? [= <- <-].
Qed.

Lemma visit_fields_cons {A T} (seed : A -> visit T) i t ts h :
  visit_fields missing_element seed i (t :: ts) h =
    ('(o, h) ← next_element_seed (seed t) h;
     match o with
     | None => Err (missing_element i)
     | Some v => '(vs, h) ← visit_fields missing_element seed (S i) ts h; Ok (v :: vs, h)
     end).
Proof. done. Qed.

Lemma visit_fields_safe {T} (seed : sty -> visit T) i ts :
  Forall (fun t => safe (seed t)) ts -> hsafe (fun _ => True) (visit_fields missing_element seed i ts).
Proof.
  intros Hts. revert i. induction Hts as [|t ts Ht _ IH]; intros i h _ Hr.
  { split; [done|]. intros ? ? [= <- <-]. by apply advanced_refl. }
  rewrite visit_fields_cons. destruct (next_element_safe (seed t) h Ht Hr) as [Hp Ha].
  destruct (next_element_seed (seed t) h) as [[[v|] h']|e|]; [|by split..|done].
  cbn [mbind res_bind]. destruct (Ha _ _ eq_refl) as [Hadv _].
  destruct (IH (S i) h' I (advanced_ok _ _ Hadv)) as [Hp' Ha'].
  destruct (visit_fields missing_element seed (S i) ts h') as [[vs h'']|e|]; [|by split|done].
  cbn. split; [done|]. intros ? ? [= <- <-].
  eapply advanced_trans; [done | by apply (Ha' vs)].
Qed.

Lemma deserialize_tuple_safe {V} n (g : visit_helper V) :
  hsafe (fun _ => True) g -> safe (deserialize_tuple n g).
Proof.
  intros Hg d Hr. unfold deserialize_tuple, helper_new.
  destruct (Hg (mkHelper d 0 (Z.of_nat n)) I Hr) as [Hp Ha].
  destruct (g _) as [[v h]|e|]; [|by split|done]. cbn. split; [done|].
  intros ? ? [= <- <-]. by apply (Ha v).
Qed.

Lemma deserialize_seq_safe {V} (g : nat -> visit_helper V) :
  (forall n, hsafe (due n) (g n)) ->
  safe (deserialize_seq (fun h => g (Z.to_nat (expected_count h)) h)).
Proof.
  intros Hg d Hr. unfold deserialize_seq, helper_new.
  destruct (read_sequence_length_safe d Hr) as [Hp _].
  destruct (read_sequence_length d) as [[n d']|e|] eqn:E; [|by split|done].
  cbn [mbind res_bind expected_count].
  destruct (read_sequence_length_inv d n d' Hr E) as [Hn Hadv].
  destruct (Hg (Z.to_nat n) (mkHelper d' 0 n)) as [Hp' Ha'];
    [unfold due; cbn; lia | by eapply advanced_ok|].
  destruct (g (Z.to_nat n) _) as [[v h]|e|]; [|by split|done]. cbn. split; [done|].
  intros ? ? [= <- <-]. eapply advanced_trans; [done | by apply (Ha' v)].
Qed.

(** A primitive read followed by a total visitor method. *)
Lemma safe_visit {A V} (f : visit A) (k : A -> V) :
  safe f -> safe (fun d => '(a, d) ← f d; v ← Ok (k a); Ok (v, d)).
Proof. intros Hf. apply (safe_bind f); [done|]. intros a. apply (safe_ret (k a)). Qed.

Lemma deserialize_char_safe : safe (deserialize_char (fun v => Ok (VChar v))).
Proof.
  apply (safe_bind read_u32); [apply read_u32_safe|]. intros c.
  apply safe_if; [apply (safe_ret (VChar c)) | apply safe_err].
Qed.

Lemma deserialize_option_safe {V} (v : V) (some : visit V) :
  safe some -> safe (deserialize_option (Ok v) some).
Proof.
  intros Hs. apply (safe_bind read_u32); [apply read_u32_safe|]. intros tag.
  apply safe_if; [apply (safe_ret v)|]. apply safe_if; [done | apply safe_err].
Qed.

Lemma nth_variant_safe {A V} (f : A -> visit V) other xs n :
  Forall (fun x => safe (f x)) xs -> safe other -> safe (nth_variant f other xs n).
Proof.
  intros Hx Ho. revert n. induction Hx as [|x xs Hx _ IH]; intros n; [by destruct n|].
  destruct n as [|n]; [done | apply (IH n)].
Qed.

Lemma deserialize_enum_safe {V} (g : visit V) : safe g -> safe (deserialize_enum g).
Proof.
  intros Hg d Hr. unfold deserialize_enum.
  destruct (reader_align_safe d 4 ltac:(lia) Hr) as [Hp Ha].
  destruct (reader_align d 4) as [d'|e|]; [|by split|done]. cbn [mbind res_bind].
  pose proof (Ha d' eq_refl) as Hadv. destruct (Hg d' (advanced_ok _ _ Hadv)) as [Hp' Ha'].
  split; [done|]. intros v d'' Hv. eapply advanced_trans; [done | by apply (Ha' v)].
Qed.

Lemma decode_safe t : safe (decode t).
Proof.
  apply (sty_nested_ind (fun t => safe (decode t)) (fun x => forall i, safe (decode_content i x)));
    clear t.
  - intros t Ht. destruct t; try done; clear Ht; cbn [CdrDeserializer.decode].
    all: try (apply safe_visit; auto with rosz; fail).
    + apply deserialize_char_safe.
    + apply (safe_ret VUnit).
    + apply (safe_ret VUnitStruct).
  - intros t IH. apply deserialize_option_safe. by apply safe_fmap_visit.
  - intros t IH. by apply (safe_fmap_visit VNewtypeStruct).
  - intros t IH.
    apply (deserialize_seq_safe (fun n => fmap_visit (fun vs => VSeq (Some (length vs)) vs)
      (visit_vec (decode t) n))).
    intros n. apply hsafe_fmap. by apply visit_vec_safe.
  - intros ts IH. apply deserialize_tuple_safe, hsafe_fmap. by apply visit_fields_safe.
  - intros ts IH. apply deserialize_tuple_safe, hsafe_fmap. by apply visit_fields_safe.
  - intros k w IHk IHw.
    apply (deserialize_seq_safe (fun n => fmap_visit (fun kvs => VMap (Some (length kvs)) kvs)
      (visit_entries (decode k) (decode w) n))).
    intros n. apply hsafe_fmap. by apply visit_entries_safe.
  - intros ts IH. apply deserialize_tuple_safe, hsafe_fmap. by apply visit_fields_safe.
  - intros xs IH. apply deserialize_enum_safe. apply safe_bind.
    + unfold variant_seed. apply (safe_bind read_u32); [apply read_u32_safe|].
      intros i. destruct (i <? _); [apply (safe_ret i) | apply safe_err].
    + intros i. apply nth_variant_safe; [|apply safe_err].
      apply (Forall_impl _ _ _ IH). by intros x Hx.
  - intros i. apply (safe_ret (VUnitVariant i)).
  - intros t IH i. by apply (safe_fmap_visit (VNewtypeVariant i)).
  - intros ts IH i. apply deserialize_tuple_safe, hsafe_fmap. by apply visit_fields_safe.
  - intros ts IH i. apply deserialize_tuple_safe, hsafe_fmap. by apply visit_fields_safe.
Qed.
End DecodeSafe.
