(* ===== verification/CdrTyped.v ===== *)
(** * What decoding returns is a value of the type

    [returns P f]: whatever [f] reads from an input shorter than 4 GiB satisfies
    [P].  The visitors of the derived [Deserialize] implementations, composed
    from the primitive reads, return values of their type, integers in their
    range and strings valid UTF-8. *)
From S2P Require Import Prelude CdrBuffer Utf8 CdrPrimitives CdrSpec CdrSerializer CdrDeserializer CdrSerde.
Open Scope Z_scope.

(** ** Specification *)

Definition short (r : CdrReader) : Prop := Z.of_nat (length (input r)) < 2 ^ 32 - 1.

Definition returns {A} (P : A -> Prop) (f : CdrReader -> res CdrError (A * CdrReader)) : Prop :=
  forall r a r', reader_ok r -> short r -> f r = Ok (a, r') -> P a /\ advanced r r'.

(** The same for the visitors of a sequence, at the helpers [I] describes. *)
Definition hreturns {V} (I : SequenceHelper -> Prop) (P : V -> Prop) (g : visit_helper V) : Prop :=
  forall h v h', I h -> reader_ok (sh_de h) -> short (sh_de h) -> g h = Ok (v, h') ->
  P v /\ advanced (sh_de h) (sh_de h').

(** ** Lemmas *)

Section Typed.
Context `{BL : ByteOrderLaws}.
Context (unknown_variant : Z -> CdrError) (missing_element : nat -> CdrError).
Abbreviation decode := (decode unknown_variant missing_element).
Abbreviation decode_content := (decode_content unknown_variant missing_element).

Lemma short_advanced r r' : short r -> advanced r r' -> short r'.
Proof. unfold short. intros Hs (-> & _). done. Qed.

Lemma returns_bind {A C} (P : A -> Prop) (Q : C -> Prop) (f : CdrReader -> res CdrError (A * CdrReader))
    (g : A -> CdrReader -> res CdrError (C * CdrReader)) :
  returns P f -> (forall a, P a -> returns Q (g a)) -> returns Q (fun r => '(a, r) ← f r; g a r).
Proof.
  intros Hf Hg r c r' Hr Hs Hx. res_inv. destruct (Hf r a c0 Hr Hs E) as [Ha Had].
  destruct (Hg a Ha _ _ _ (advanced_ok _ _ Had) (short_advanced _ _ Hs Had) Hx) as [Hc Had'].
  split; [done|]. by eapply advanced_trans.
Qed.

Lemma returns_ret {A} (P : A -> Prop) a : P a -> returns P (fun r => Ok (a, r)).
Proof. intros Ha r a' r' Hr _ [= <- <-]. split; [done|]. by apply advanced_refl. Qed.

Lemma returns_err {A} (P : A -> Prop) e : returns P (fun _ => Err e).
Proof. by intros r a r' _ _ Hx. Qed.

Lemma returns_if {A} (P : A -> Prop) (b : bool) f g :
  (b = true -> returns P f) -> (b = false -> returns P g) ->
  returns P (fun r => if b then f r else g r).
Proof. destruct b; auto. Qed.

Lemma returns_safe {A} (P : A -> Prop) f :
  safe f -> (forall r a r', reader_ok r -> short r -> f r = Ok (a, r') -> P a) -> returns P f.
Proof. intros Hf HP r a r' Hr Hs Hx. split; [by eapply HP|]. by eapply (proj2 (Hf r Hr)). Qed.

Lemma returns_fmap {A V} (k : A -> V) (P : A -> Prop) (Q : V -> Prop) (g : visit A) :
  returns P g -> (forall a, P a -> Q (k a)) -> returns Q (fmap_visit k g).
Proof.
  intros Hg HPQ. apply (returns_bind P Q g (fun a r => Ok (k a, r)) Hg).
  intros a Ha. by apply returns_ret, HPQ.
Qed.

Lemma hreturns_fmap {A V} (k : A -> V) I (P : A -> Prop) (Q : V -> Prop) (g : visit_helper A) :
  hreturns I P g -> (forall a, P a -> Q (k a)) -> hreturns I Q (fmap_visit k g).
Proof.
  intros Hg HPQ h v h' HI Hr Hs Hx. unfold fmap_visit in Hx. res_inv.
  destruct (Hg _ _ _ HI Hr Hs E) as [Ha Had]. by split; [apply HPQ|].
Qed.

(** A primitive read and the visitor that wraps what it read. *)
Lemma returns_visit {A} (P : A -> Prop) (Q : sval -> Prop) (f : visit A) (k : A -> sval) :
  returns P f -> (forall a, P a -> Q (k a)) ->
  returns Q (fun d => '(a, d) ← f d; v ← Ok (k a); Ok (v, d)).
Proof. intros Hf HPQ. apply (returns_bind P); [done|]. intros a Ha. by apply returns_ret, HPQ. Qed.

(** *** Primitive reads *)

Lemma read_aligned_returns {A} (P : A -> Prop) n (g : Z -> A) :
  (0 < n)%nat -> (forall v, u_range (8 * Z.of_nat n) v -> P (g v)) -> returns P (read_aligned n g).
Proof.
  intros Hn HP. apply returns_safe; [by apply read_aligned_safe|]. intros r a r' Hr _ Hx.
  destruct (read_aligned_inv n g r a r' Hr Hx) as (v & -> & Hv). by apply HP.
Qed.

Lemma signed_returns n : (0 < n)%nat ->
  returns (i_range (8 * Z.of_nat n)) (read_aligned n (wrap_i (8 * Z.of_nat n))).
Proof. intros Hn. apply read_aligned_returns; [done|]. intros v _. apply wrap_i_range. lia. Qed.

Lemma unsigned_returns n : (0 < n)%nat ->
  returns (u_range (8 * Z.of_nat n)) (read_aligned n (fun v => v)).
Proof. intros Hn. by apply read_aligned_returns. Qed.

Lemma read_i8_returns : returns (i_range 8) read_i8.
Proof.
  apply returns_safe; [auto with rosz|]. intros r a r' _ _ Hx. unfold read_i8 in Hx. res_inv.
  by apply wrap_i_range.
Qed.

Lemma read_bytes_short r n bs r' :
  reader_ok r -> 0 <= n -> read_bytes r n = Ok (bs, r') -> Z.of_nat (length bs) <= Z.of_nat (length (input r)).
Proof.
  intros Hr Hn Hx. destruct (read_bytes_inv r n bs r' Hn Hr Hx) as [Hl (_ & _ & _)].
  unfold read_bytes in Hx. case_match eqn:E; [done|]. apply Z.ltb_ge in E. unfold remaining in E. lia.
Qed.

Definition str_fits (s : string) : Prop := str_valid s /\ Z.of_nat (str_len s) + 1 < 2 ^ 32.

Lemma read_str_returns : returns str_fits read_str.
Proof.
  apply returns_safe; [auto with rosz|]. intros r s r' Hr Hs Hx. unfold read_str in Hx. res_inv.
  case_match; simplify_eq; [by split|]. res_inv.
  destruct (read_u32_safe r Hr) as [_ Ha]. specialize (Ha _ _ E). rename c into r1.
  assert (0 <= z) as Hz by (destruct (read_aligned_inv 4 (fun v => v) r z r1 Hr E) as (v & -> & []); done).
  apply from_utf8_inv in E3 as [Hv ->]. split; [done|].
  apply strip_nul_length in E1. rewrite str_bytes_length in E1.
  pose proof (read_bytes_short r1 z l r' (advanced_ok _ _ Ha) Hz E0) as Hl. unfold short in Hs.
  rewrite (proj1 Ha) in Hl. lia.
Qed.

Lemma read_byte_sequence_returns : returns (fun bs => Z.of_nat (length bs) < 2 ^ 32) read_byte_sequence.
Proof.
  apply returns_safe; [auto with rosz|]. intros r bs r' Hr Hs Hx. unfold read_byte_sequence in Hx. res_inv.
  destruct (read_u32_safe r Hr) as [_ Ha]. specialize (Ha _ _ E).
  destruct (read_aligned_inv 4 (fun v => v) r z c Hr E) as (v & -> & []).
  pose proof (read_bytes_short c v bs r' (advanced_ok _ _ Ha) ltac:(done) Hx) as Hl. unfold short in Hs.
  rewrite (proj1 Ha) in Hl. lia.
Qed.

(** *** Visitors *)

Lemma next_element_returns {T} (P : T -> Prop) (seed : visit T) h o h' :
  returns P seed -> reader_ok (sh_de h) -> short (sh_de h) -> next_element_seed seed h = Ok (o, h') ->
  advanced (sh_de h) (sh_de h') /\ forall v, o = Some v -> P v.
Proof.
  intros Hp Hr Hs Hx. unfold next_element_seed in Hx. case_match; simplify_eq.
  - split; [by apply advanced_refl|done].
  - res_inv. destruct (Hp _ _ _ Hr Hs E) as [Ha Had]. split; [done|]. by intros ? [= <-].
Qed.

Lemma visit_vec_returns {T} (P : T -> Prop) (seed : visit T) fuel :
  returns P seed -> hreturns (fun _ => True) (fun vs => Forall P vs /\ (length vs <= fuel)%nat) (visit_vec seed fuel).
Proof.
  intros Hp. induction fuel as [|fuel IH]; intros h vs h' _ Hr Hs Hx; cbn [visit_vec] in Hx;
    destruct (next_element_seed seed h) as [[o c]|e|] eqn:E; try done; cbn [mbind res_bind] in Hx;
    destruct (next_element_returns P seed h o c Hp Hr Hs E) as [Had Ho]; destruct o as [v|];
    simplify_eq; try (split; [split; [constructor|cbn; lia]|done]).
  res_inv. destruct (IH _ _ _ I (advanced_ok _ _ Had) (short_advanced _ _ Hs Had) E0) as [[Hv Hl] Had'].
  split; [|by eapply advanced_trans]. split; [constructor; [by apply Ho|done]|cbn; lia].
Qed.

Lemma visit_entries_returns {K W} (P : K -> Prop) (Q : W -> Prop) (ks : visit K) (ws : visit W) fuel :
  returns P ks -> returns Q ws ->
  hreturns (fun _ => True) (fun kvs => Forall (fun kv => P kv.1 /\ Q kv.2) kvs /\ (length kvs <= fuel)%nat)
    (visit_entries ks ws fuel).
Proof.
  intros Hp Hq. induction fuel as [|fuel IH]; intros h kvs h' _ Hr Hs Hx; cbn [visit_entries] in Hx;
    change (next_key_seed ks h) with (next_element_seed ks h) in Hx;
    destruct (next_element_seed ks h) as [[o c]|e|] eqn:E; try done; cbn [mbind res_bind] in Hx;
    destruct (next_element_returns P ks h o c Hp Hr Hs E) as [Had Ho]; destruct o as [k|];
    simplify_eq; try (split; [split; [constructor|cbn; lia]|done]).
  unfold next_value_seed in Hx. destruct (ws (sh_de c)) as [[w d]|e|] eqn:E0; try done.
  cbn [mbind res_bind] in Hx.
  destruct (visit_entries ks ws fuel _) as [[kvs' h'']|e|] eqn:E1; try done; simplify_eq/=.
  destruct (Hq _ _ _ (advanced_ok _ _ Had) (short_advanced _ _ Hs Had) E0) as [Hw Had1].
  pose proof (advanced_trans _ _ _ Had Had1) as Had2.
  destruct (IH (mkHelper d _ _) _ _ I (advanced_ok _ _ Had2) (short_advanced _ _ Hs Had2) E1) as [[Hv Hl] Had3].
  split; [|by eapply advanced_trans]. split; [constructor; [by split; [apply Ho|]|done]|cbn; lia].
Qed.

Lemma visit_fields_returns {A T} (P : A -> T -> Prop) (seed : A -> visit T) i ts :
  Forall (fun t => returns (P t) (seed t)) ts ->
  hreturns (fun _ => True) (all2 P ts) (visit_fields missing_element seed i ts).
Proof.
  intros Hts. revert i. induction Hts as [|t ts Ht _ IH]; intros i h vs h' _ Hr Hs Hx.
  { injection Hx as <- <-. split; [exact I|by apply advanced_refl]. }
  rewrite visit_fields_cons in Hx.
  destruct (next_element_seed (seed t) h) as [[o c]|e|] eqn:E; try done. cbn [mbind res_bind] in Hx.
  destruct (next_element_returns (P t) (seed t) h o c Ht Hr Hs E) as [Had Ho]. destruct o as [v|]; [|done].
  res_inv. destruct (IH _ _ _ _ I (advanced_ok _ _ Had) (short_advanced _ _ Hs Had) E0) as [Hv Had'].
  split; [split; [by apply Ho|done]|by eapply advanced_trans].
Qed.

Lemma deserialize_tuple_returns {V} n (P : V -> Prop) (g : visit_helper V) :
  hreturns (fun _ => True) P g -> returns P (deserialize_tuple n g).
Proof.
  intros Hg d v d' Hr Hs Hx. unfold deserialize_tuple in Hx. res_inv. by apply (Hg (helper_new d _) _ _ I Hr Hs E).
Qed.

Lemma fields_return (f : list sval -> sval) (Q : sval -> Prop) n ts :
  Forall (fun t => returns (has_sty t) (decode t)) ts -> (forall vs, all2 has_sty ts vs -> Q (f vs)) ->
  returns Q (deserialize_tuple n (fmap_visit f (visit_fields missing_element decode 0 ts))).
Proof.
  intros IH HQ. apply deserialize_tuple_returns, (hreturns_fmap _ _ (all2 has_sty ts)); [|exact HQ].
  by apply visit_fields_returns.
Qed.

(** A sequence or a map: the count is within the limit. *)
Lemma deserialize_counted_returns {V} (P : V -> Prop) (Q : nat -> V -> Prop) (g : nat -> visit_helper V) :
  (forall n, hreturns (fun _ => True) (Q n) (g n)) ->
  (forall n v, Z.of_nat n <= MAX_SEQUENCE_LENGTH -> Q n v -> P v) ->
  returns P (deserialize_seq (fun h => g (Z.to_nat (expected_count h)) h)).
Proof.
  intros Hg HP d v d' Hr Hs Hx. unfold deserialize_seq in Hx. res_inv.
  destruct (read_sequence_length_inv _ _ _ Hr E) as [Hn Had]. cbn [expected_count helper_new] in E0.
  destruct (Hg _ (helper_new _ _) _ _ I (advanced_ok _ _ Had) (short_advanced _ _ Hs Had) E0) as [Hq Had'].
  split; [|by eapply advanced_trans]. apply (HP (Z.to_nat z)); [lia|done].
Qed.

(** *** Types *)

(** The index in the value is the variant's. *)
Definition variant_of (i : Z) (x : svariant) (v : sval) : Prop :=
  has_svariant v x /\
  match v with
  | VUnitVariant j | VNewtypeVariant j _ | VTupleVariant j _ | VStructVariant j _ => j = i
  | _ => False
  end.

Lemma nth_variant_returns {A V} (P : A -> V -> Prop) (f : A -> visit V) other xs n :
  Forall (fun x => returns (P x) (f x)) xs -> returns (fun _ => False) other ->
  returns (fun v => nth_variant (fun x => P x v) False xs n) (nth_variant f other xs n).
Proof.
  intros Hx Ho. revert n. induction Hx as [|x xs Hx _ IH]; intros n; [by destruct n|].
  destruct n as [|n]; [done|apply (IH n)].
Qed.

Lemma nth_variant_of xs i v n :
  nth_variant (fun x => variant_of i x v) False xs n -> nth_variant (has_svariant v) False xs n /\
  match v with
  | VUnitVariant j | VNewtypeVariant j _ | VTupleVariant j _ | VStructVariant j _ => j = i
  | _ => False
  end.
Proof.
  revert n. induction xs as [|x xs IH]; intros n Hx; [by destruct n|].
  destruct n as [|n]; [exact Hx|exact (IH n Hx)].
Qed.

Lemma scalar_returns t : scalar t = true -> returns (has_sty t) (decode t).
Proof.
  intros Ht. destruct t; try done; clear Ht; cbn [CdrDeserializer.decode].
  1: apply (returns_visit (fun _ => True)); [|done]; by apply returns_safe; auto with rosz.
  1: apply (returns_visit (i_range 8)); [apply read_i8_returns|done].
  4: { apply (returns_visit (u_range 8)); [|done].
       apply returns_safe; [auto with rosz|]. intros r a r' _ _. apply read_u8_range. }
  1: apply (returns_visit (i_range 16)); [apply (signed_returns 2); lia|done].
  1: apply (returns_visit (i_range 32)); [apply (signed_returns 4); lia|done].
  1: apply (returns_visit (i_range 64)); [apply (signed_returns 8); lia|done].
  1: apply (returns_visit (u_range 16)); [apply (unsigned_returns 2); lia|done].
  1, 3: apply (returns_visit (u_range 32)); [apply (unsigned_returns 4); lia|done].
  1, 2: apply (returns_visit (u_range 64)); [apply (unsigned_returns 8); lia|done].
  - apply (returns_bind (fun _ => True) _ read_u32); [by apply returns_safe; auto with rosz|]. intros c _.
    apply (returns_if _ (is_scalar_value c) (fun d => Ok (VChar c, d))); intros Hc; [by apply returns_ret|apply returns_err].
  - apply (returns_visit str_fits); [apply read_str_returns|by intros a Ha].
  - apply (returns_visit _ _ _ _ read_byte_sequence_returns). by intros a Ha.
  - by apply (returns_ret _ VUnit).
  - by apply (returns_ret _ VUnitStruct).
Qed.

Lemma option_returns t :
  returns (has_sty t) (decode t) -> returns (has_sty (TOption t)) (decode (TOption t)).
Proof.
  intros IH. cbn [CdrDeserializer.decode]. unfold deserialize_option.
  apply (returns_bind (fun _ => True) _ read_u32); [by apply returns_safe; auto with rosz|]. intros c _.
  apply (returns_if _ (c =? 0) (fun d => v ← Ok VNone; Ok (v, d))); intros _; [by apply returns_ret|].
  by apply (returns_if _ (c =? 1) (fmap_visit VSome (decode t))); intros _;
    [apply (returns_fmap _ (has_sty t))|apply returns_err].
Qed.

Lemma content_returns x i :
  match x with
  | VarUnit => True
  | VarNewtype t => returns (has_sty t) (decode t)
  | VarTuple ts | VarStruct ts => Forall (fun t => returns (has_sty t) (decode t)) ts
  end -> returns (variant_of i x) (decode_content i x).
Proof.
  destruct x as [|t|ts|ts]; intros Hx; cbn [CdrDeserializer.decode_content].
  - by apply (returns_fmap _ (fun _ => True)); [apply returns_ret|].
  - by apply (returns_fmap _ (has_sty t)).
  - by apply fields_return.
  - by apply fields_return.
Qed.

Lemma enum_returns variants :
  Forall (fun x => forall i, returns (variant_of i x) (decode_content i x)) variants ->
  returns (has_sty (TEnum variants)) (decode (TEnum variants)).
Proof.
  intros Hx d v d' Hd Hs Hr. change (decode (TEnum variants)) with (deserialize_enum (fun d =>
    '(i, d) ← variant_seed (fun tag =>
      if tag <? Z.of_nat (length variants) then Ok tag else Err (unknown_variant tag)) d;
    nth_variant (decode_content i) (fun _ => Err (unknown_variant i)) variants (Z.to_nat i) d)) in Hr.
  unfold deserialize_enum, variant_seed in Hr.
  destruct (reader_align d 4) as [d1|e|] eqn:E1; try done. cbn [mbind res_bind] in Hr.
  destruct (read_u32 d1) as [[i d2]|e|] eqn:E2; try done. cbn [mbind res_bind] in Hr.
  destruct (Z.ltb_spec i (Z.of_nat (length variants))) as [Hi|]; try done. cbn [mbind res_bind] in Hr.
  pose proof (proj2 (reader_align_safe d 4 ltac:(lia) Hd) d1 E1) as Ha1.
  destruct (read_u32_safe d1 (advanced_ok _ _ Ha1)) as [_ Ha2]. specialize (Ha2 _ _ E2).
  destruct (read_aligned_inv 4 (fun v => v) d1 i d2 (advanced_ok _ _ Ha1) E2) as (j & <- & Hj0 & Hj).
  pose proof (advanced_trans _ _ _ Ha1 Ha2) as Had.
  destruct (nth_variant_returns (fun x => variant_of i x) (decode_content i) (fun _ => Err (unknown_variant i))
    variants (Z.to_nat i) (Forall_impl _ _ _ Hx (fun x H => H i)) (returns_err _ _) d2 v d'
    (advanced_ok _ _ Had) (short_advanced _ _ Hs Had) Hr) as [Hv Had'].
  apply nth_variant_of in Hv as [Hv Hv']. split; [|by eapply advanced_trans].
  destruct v; try done; subst; by split.
Qed.

Lemma decode_returns t : returns (has_sty t) (decode t).
Proof.
  apply (sty_nested_ind (fun t => returns (has_sty t) (decode t))
    (fun x => forall i, returns (variant_of i x) (decode_content i x))).
  - apply scalar_returns.
  - apply option_returns.
  - intros t0 IH. by apply (returns_fmap VNewtypeStruct (has_sty t0)).
  - intros t0 IH. apply (deserialize_counted_returns (has_sty (TSeq t0))
      (fun n v => (exists vs, v = VSeq (Some (length vs)) vs /\ (length vs <= n)%nat /\ Forall (has_sty t0) vs))
      (fun n => fmap_visit (fun vs => VSeq (Some (length vs)) vs) (visit_vec (decode t0) n))).
    + intros n. eapply hreturns_fmap; [by apply visit_vec_returns|]. intros vs [Hvs Hl]. by exists vs.
    + intros n v Hn (vs & -> & Hl & Hvs). split; [done|]. split; [lia|]. by rewrite all_Forall.
  - intros ts IH. by apply fields_return.
  - intros ts IH. by apply fields_return.
  - intros k w IHk IHw. apply (deserialize_counted_returns (has_sty (TMap k w))
      (fun n v => (exists kvs, v = VMap (Some (length kvs)) kvs /\ (length kvs <= n)%nat /\
        Forall (fun kv => has_sty k kv.1 /\ has_sty w kv.2) kvs))
      (fun n => fmap_visit (fun kvs => VMap (Some (length kvs)) kvs) (visit_entries (decode k) (decode w) n))).
    + intros n. eapply hreturns_fmap; [by apply visit_entries_returns|]. intros vs [Hvs Hl]. by exists vs.
    + intros n v Hn (vs & -> & Hl & Hvs). split; [done|]. split; [lia|]. by rewrite all_Forall.
  - intros ts IH. by apply fields_return.
  - apply enum_returns.
  - intros i. by apply content_returns.
  - intros t0 IH i. by apply content_returns.
  - intros ts IH i. by apply content_returns.
  - intros ts IH i. by apply content_returns.
Qed.
End Typed.

(** ** Properties *)

(** C20 Whatever [from_bytes] returns is a value of the type it was asked for,
    on any input below 4 GiB (a byte string's prefix would not count more):
    integers in the range of their width, characters scalar values, strings
    valid UTF-8, counts within the limit on sequences, a variant the enum has;
    and the bytes it consumed are bytes of the input. *)
Theorem from_bytes_typed `{BL : ByteOrderLaws} (uv : Z -> CdrError) (me : nat -> CdrError) t bs v n :
  Z.of_nat (length bs) < 2 ^ 32 - 1 -> from_bytes uv me t bs = Ok (v, n) ->
  has_sty t v /\ (n <= length bs)%nat.
Proof.
  intros Hl Hx. unfold from_bytes, from_bytes_with, deserializer_new, bytes_consumed in Hx.
  destruct (CdrDeserializer.decode uv me t (reader_new bs)) as [[v' d]|e|] eqn:E; try done.
  cbn [mbind res_bind] in Hx. simplify_eq.
  destruct (decode_returns uv me t (reader_new bs) v d ltac:(unfold reader_ok; cbn; lia) Hl E) as [Hv Had].
  split; [done|]. pose proof (advanced_ok _ _ Had) as Hok. unfold reader_ok in Hok.
  by rewrite (proj1 Had) in Hok.
Qed.

Lemma from_bytes_typed_witness :
  exists v, from_bytes (BO := LittleEndian) (fun _ => UnsupportedAny) (fun _ => UnsupportedAny)
    (TStruct [TI16; TSeq TBool]) [xfe; xff; x00; x00; x02; x00; x00; x00; x01; x00] = Ok (v, 10%nat) /\
  has_sty (TStruct [TI16; TSeq TBool]) v /\ (10 <= 10)%nat.
Proof.
  exists (VStruct [VI16 (-2); VSeq (Some 2%nat) [VBool true; VBool false]]). split; [vm_compute; reflexivity|].
  apply (from_bytes_typed (BL := LittleEndian_laws) (fun _ => UnsupportedAny) (fun _ => UnsupportedAny) _
    [xfe; xff; x00; x00; x02; x00; x00; x00; x01; x00]); vm_compute; reflexivity.
Defined.
