(* ===== verification/CdrCodec.v ===== *)
(** * Correctness of the CDR codec

    The properties of crates/ros-z-cdr: the serde round trip, the safety of
    [from_bytes] on arbitrary input, the refinement of the zero-copy writer to
    the plain vector, and the corner cases ([serialize_u128], unknown lengths,
    the growth policy of the buffers). *)
From S2P Require Import Prelude CdrBuffer Utf8 CdrPrimitives CdrSpec CdrSerializer CdrDeserializer CdrSerde.
Open Scope Z_scope.

(** ** Helper lemmas *)

Section Helpers.
Context `{BL : ByteOrderLaws} {ZBuf : Type} `{ZL : ZBufLaws ZBuf}.
Context (unknown_variant : Z -> CdrError) (missing_element : nat -> CdrError).

Lemma to_vec_enc t v hint :
  has_sty t v -> to_vec (ZBuf := ZBuf) v hint = Ok (enc_sval v 0%nat).
Proof.
  intros Hv. unfold to_vec, serializer_new.
  assert (buf_ok (ZBuf := ZBuf) (B := list byte) []) as Hb by exact I.
  destruct (appends_run _ _ [] (serialize_appends t v Hv) Hb) as (w & Hw & _ & Hc).
  rewrite Hw. cbn in *. by rewrite Hc.
Qed.

Lemma from_bytes_enc t v :
  has_sty t v ->
  from_bytes unknown_variant missing_element t (enc_sval v 0%nat) =
    Ok (v, length (enc_sval v 0%nat)).
Proof.
  intros Hv. pose proof (decode_decodes unknown_variant missing_element t v Hv [] []) as Hd.
  cbn in Hd. rewrite app_nil_r in Hd. unfold from_bytes, from_bytes_with, deserializer_new, reader_new.
  by rewrite Hd.
Qed.

Lemma to_buffer_enc {B} `{!CdrBuffer ZBuf B} `{!CdrBufferLaws ZBuf B} t v (b : B) :
  has_sty t v -> buf_ok b ->
  exists b', to_buffer v b = Ok b' /\ buf_ok b' /\ contents b' = enc_sval v 0%nat.
Proof.
  intros Hv Hb. unfold to_buffer, serializer_new.
  destruct (appends_run _ _ (clear b) (serialize_appends t v Hv) (clear_ok b Hb))
    as (w & Hw & Hok & Hc).
  exists (buffer w). rewrite Hw. rewrite clear_contents in Hc by done. done.
Qed.
End Helpers.

(** A concrete type and value, for the witnesses: a struct of a bool, a [u32], a
    string and a sequence of an enum. *)
Definition ex_sty : sty :=
  TStruct [TBool; TU32; TStr; TSeq (TEnum [VarUnit; VarNewtype TI16])].
Definition ex_val : sval :=
  VStruct [VBool true; VU32 70000; VStr "ros";
    VSeq (Some 2%nat) [VUnitVariant 0; VNewtypeVariant 1 (VI16 (-2))]].
Definition ex_unknown : Z -> CdrError := fun _ => Custom "unknown variant".
Definition ex_missing : nat -> CdrError := fun _ => Custom "invalid length".

Lemma ex_has_sty : has_sty ex_sty ex_val.
Proof.
  cbn. unfold u_range, i_range, MAX_SEQUENCE_LENGTH.
  repeat split; try lia; by vm_compute.
Qed.

(** ** Properties *)

(** C1 Round trip: for every type shape and every value of it (integers in
    range, strings and sequences within the sizes the format admits), in any
    byte order, [from_bytes] reads what [to_vec] wrote back to the same value
    and reports having consumed every byte. *)
Theorem from_bytes_to_vec `{BL : ByteOrderLaws} {ZBuf} `{ZL : ZBufLaws ZBuf}
    (unknown_variant : Z -> CdrError) (missing_element : nat -> CdrError) t v hint :
  has_sty t v ->
  exists bytes, to_vec (ZBuf := ZBuf) v hint = Ok bytes /\
    from_bytes unknown_variant missing_element t bytes = Ok (v, length bytes).
Proof.
  intros Hv. exists (enc_sval v 0%nat). split; [by apply (to_vec_enc t) | by apply from_bytes_enc].
Qed.

Lemma from_bytes_to_vec_witness :
  exists bytes, to_vec (BO := LittleEndian) (ZBuf := list (list byte)) ex_val 0 = Ok bytes /\
    from_bytes (BO := LittleEndian) ex_unknown ex_missing ex_sty bytes = Ok (ex_val, length bytes).
Proof. apply (from_bytes_to_vec (H := LittleEndian) ex_unknown ex_missing ex_sty ex_val). apply ex_has_sty. Defined.

Lemma from_bytes_total `{BL : ByteOrderLaws}
    (unknown_variant : Z -> CdrError) (missing_element : nat -> CdrError) t bytes :
  no_panic (from_bytes unknown_variant missing_element t bytes).
Proof.
  destruct (decode_safe unknown_variant missing_element t (reader_new bytes)) as [Hp _];
    [unfold reader_ok; cbn; lia|].
  unfold from_bytes, from_bytes_with, deserializer_new. by destruct (decode _ _ t _) as [[v d]|e|].
Qed.

(** Robustness: on every input, for every type shape, [from_bytes] returns
    (it never panics, no slice is out of range and the element loops end within
    their announced count), and on success it has consumed no more than the
    input. *)
Theorem from_bytes_safe `{BL : ByteOrderLaws}
    (unknown_variant : Z -> CdrError) (missing_element : nat -> CdrError) t bytes :
  match from_bytes unknown_variant missing_element t bytes with
  | Ok (_, consumed) => (consumed <= length bytes)%nat
  | Err _ => True
  | Panic => False
  end.
Proof.
  destruct (decode_safe unknown_variant missing_element t (reader_new bytes)) as [Hp Ha];
    [unfold reader_ok; cbn; lia|].
  unfold from_bytes, from_bytes_with, deserializer_new.
  destruct (decode _ _ t _) as [[v d]|e|]; [|done..].
  destruct (Ha v d eq_refl) as (Hi & _ & Hr). unfold reader_ok in Hr.
  cbn in *. by rewrite Hi in Hr.
Qed.

Lemma from_bytes_safe_witness :
  match from_bytes (BO := BigEndian) ex_unknown ex_missing ex_sty [x01; x00; x00] with
  | Ok (_, consumed) => (consumed <= 3)%nat
  | Err _ => True
  | Panic => False
  end.
Proof. apply (from_bytes_safe (H := BigEndian) ex_unknown ex_missing ex_sty [x01; x00; x00]). Defined.

(** Zero copy: serializing into a [ZBufWriter], whatever it held, and
    converting it to a [ZBuf] gives exactly the bytes [to_vec] and
    [to_vec_reuse] give. *)
Theorem zbuf_writer_refines_vec `{BL : ByteOrderLaws} {ZBuf} `{ZL : ZBufLaws ZBuf}
    t v hint (w : ZBufWriter ZBuf) (b : list byte) :
  has_sty t v -> zw_ok w ->
  exists bytes w', to_buffer v w = Ok w' /\ to_vec (ZBuf := ZBuf) v hint = Ok bytes /\
    to_vec_reuse (ZBuf := ZBuf) v b = Ok bytes /\
    zbuf_contiguous (zw_into_zbuf w') = bytes /\ zw_total_len w' = length bytes.
Proof.
  intros Hv Hw.
  assert (buf_ok (ZBuf := ZBuf) w) as Hbw by exact Hw.
  destruct (to_buffer_enc t v w Hv Hbw) as (w' & Hb & Hok & Hc).
  exists (enc_sval v 0%nat), w'. split; [done|]. split; [by apply (to_vec_enc t)|].
  split; [by apply (to_vec_enc t v 0)|].
  rewrite zw_into_zbuf_contents. change (zw_contents w') with (contents w').
  split; [done|]. rewrite <- Hc. apply Hok.
Qed.

Lemma zbuf_writer_refines_vec_witness :
  exists bytes w', to_buffer (BO := LittleEndian) ex_val (zw_new (ZBuf := list (list byte))) = Ok w' /\
    to_vec (BO := LittleEndian) (ZBuf := list (list byte)) ex_val 8 = Ok bytes /\
    to_vec_reuse (BO := LittleEndian) (ZBuf := list (list byte)) ex_val [x07] = Ok bytes /\
    zbuf_contiguous (zw_into_zbuf w') = bytes /\ zw_total_len w' = length bytes.
Proof.
  apply (zbuf_writer_refines_vec (H := LittleEndian) ex_sty ex_val 8 zw_new [x07] ex_has_sty).
  apply zw_new_ok.
Defined.

(** [serialize_zbuf] shares the slices of a [ZBuf] instead of copying
    them, yet leaves the bytes a byte sequence of its contents would: it is
    [serialize_bytes] of the contiguous bytes. *)
Theorem serialize_zbuf_as_bytes `{BL : ByteOrderLaws} {ZBuf} `{ZL : ZBufLaws ZBuf}
    (s : CdrSerializer (ZBufWriter ZBuf)) (z : ZBuf) :
  writer_ok s ->
  exists s1 s2, serialize_zbuf s z = Ok s1 /\ serialize_bytes s (zbuf_contiguous z) = Ok s2 /\
    writer_ok s1 /\ writer_position s1 = writer_position s2 /\
    zw_contents (buffer s1) = zw_contents (buffer s2).
Proof.
  intros Hs.
  assert (foldr (fun sl n => (length sl + n)%nat) 0%nat (zbuf_zslices z) =
    length (zbuf_contiguous z)) as Hn.
  { unfold zbuf_contiguous. induction (zbuf_zslices z) as [|sl ss IH]; [done|].
    cbn. by rewrite IH, length_app. }
  unfold serialize_zbuf, serialize_bytes, write_bytes. rewrite Hn.
  destruct (write_u32_appends (E := CdrError) (wrap_u 32 (Z.of_nat (length (zbuf_contiguous z)))) s Hs)
    as (s' & -> & [Hb Hl] & Hst & Hc).
  cbn [mbind res_bind]. do 2 eexists. split; [done|]. split; [done|].
  pose proof (append_zbuf_ok (buffer s') z Hb) as Hb1.
  pose proof (append_zbuf_contents (buffer s') z Hb) as Hc1.
  pose proof (extend_ok (buffer s') (zbuf_contiguous z) Hb) as Hb2.
  pose proof (extend_contents (buffer s') (zbuf_contiguous z) Hb) as Hc2.
  assert (len (append_zbuf (buffer s') z) =
    len (extend_from_slice (buffer s') (zbuf_contiguous z))) as Hlen.
  { by rewrite (len_contents _ Hb1), (len_contents _ Hb2), Hc1, Hc2. }
  split; [split; [done|]|split].
  - cbn [start_offset buffer]. rewrite Hlen, (len_contents _ Hb2), Hc2, length_app.
    rewrite (len_contents _ Hb) in Hl. lia.
  - unfold writer_position, writer_extend. cbn [start_offset buffer]. by rewrite Hlen.
  - cbn [buffer writer_extend]. change zw_contents with contents. by rewrite Hc1, Hc2.
Qed.

Lemma serialize_zbuf_as_bytes_witness :
  exists s1 s2,
    serialize_zbuf (BO := LittleEndian) (writer_new (zw_new (ZBuf := list (list byte))))
      [[x01; x02]; [x03]] = Ok s1 /\
    serialize_bytes (BO := LittleEndian) (writer_new (zw_new (ZBuf := list (list byte))))
      (zbuf_contiguous [[x01; x02]; [x03]]) = Ok s2 /\
    writer_ok s1 /\ writer_position s1 = writer_position s2 /\
    zw_contents (buffer s1) = zw_contents (buffer s2).
Proof.
  apply (serialize_zbuf_as_bytes (H := LittleEndian) (ZBuf := list (list byte))
    (writer_new zw_new) [[x01; x02]; [x03]]).
  apply writer_new_ok. by apply zw_new_ok.
Defined.

(** [serialize_u128] asks for an alignment of 16 while the zeros it pads
    with are eight: it panics exactly when more than eight bytes of padding
    are due, and otherwise writes the value at the next multiple of 16. *)
Theorem serialize_u128_panics_iff `{BL : ByteOrderLaws} {ZBuf B} `{Buf : CdrBufferLaws ZBuf B}
    (s : CdrSerializer B) v :
  writer_ok s ->
  (serialize_u128 s v = Panic <-> (0 < writer_position s mod 16 < 8)%nat) /\
  (~ (0 < writer_position s mod 16 < 8)%nat ->
   exists s', serialize_u128 s v = Ok s' /\
     contents (buffer s') = contents (buffer s) ++ enc_order 16 v (writer_position s)).
Proof.
  intros [Hb Hl]. unfold serialize_u128, writer_align, enc_order, enc_seq, enc_align, enc_raw, pad_len.
  cbn zeta. change (Nat.eqb 16 0) with false. cbv iota.
  set (m := (writer_position s mod 16)%nat).
  pose proof (Nat.mod_upper_bound (writer_position s) 16 ltac:(lia)) as Hm. fold m in Hm.
  destruct (Nat.eqb_spec m 0) as [E|E]; cbn [negb].
  - split; [split; [done|lia]|]. intros _. eexists. split; [done|].
    cbn [buffer writer_extend]. by rewrite extend_contents.
  - destruct (decide (m < 8)%nat) as [Hlt|Hge].
    + unfold slice. rewrite decide_False by (rewrite length_replicate; lia).
      split; [split; [lia|done]|]. intros Hno. exfalso. apply Hno. lia.
    + rewrite slice_replicate by lia. cbn [mbind res_bind].
      split; [split; [done|lia]|]. intros _. eexists. split; [done|].
      cbn [buffer writer_extend]. rewrite !extend_contents, <- app_assoc by eauto using extend_ok.
      done.
Qed.

Lemma serialize_u128_panics_iff_witness :
  serialize_u128 (BO := LittleEndian) (ZBuf := list (list byte)) (mkWriter [x2a] 0) 7 = Panic.
Proof.
  assert (writer_ok (ZBuf := list (list byte)) (mkWriter [x2a] 0)) as Hw by (split; cbn; [done|lia]).
  apply (proj1 (serialize_u128_panics_iff (H := LittleEndian) (mkWriter [x2a] 0) 7 Hw)).
  vm_compute. lia.
Defined.

(** [Vec<u8>::reserve_4k]: for any sizes an allocation can have (below
    [2^63]), when room is asked for, the reservation is not negative, brings
    the capacity to the next multiple of 4096 at or above [needed_total], and
    no step of the computation overflows. *)
Theorem vec_reserve_4k_bounds cap l needed :
  0 <= l <= cap -> 0 <= needed < 2 ^ 63 ->
  match vec_reserve_4k_amount cap l needed with
  | Some additional =>
      cap < needed /\ needed <= l + additional < needed + 4096 /\
      (l + additional) mod 4096 = 0 /\ 0 < additional < 2 ^ 64
  | None => needed <= cap
  end.
Proof.
  intros Hl Hn. unfold vec_reserve_4k_amount, ALIGN_4K.
  destruct (Z.gtb_spec needed cap) as [Hgt|Hle]; [|done].
  rewrite (wrap_u_id 64 (needed + 4095)) by (unfold u_range; lia).
  change (Z.lnot 4095) with (Z.lnot (2 ^ 12 - 1)). rewrite (land_align_down (needed + 4095) 12) by lia.
  change (2 ^ 12) with 4096.
  pose proof (Z.div_mod (needed + 4095) 4096 ltac:(lia)) as Hd.
  pose proof (Z.mod_pos_bound (needed + 4095) 4096 ltac:(lia)) as Hm.
  rewrite wrap_u_id by (unfold u_range; lia).
  replace (l + (4096 * ((needed + 4095) / 4096) - l)) with (((needed + 4095) / 4096) * 4096) by lia.
  rewrite Z.mod_mul by lia. lia.
Qed.

Lemma vec_reserve_4k_bounds_witness :
  match vec_reserve_4k_amount 4096 100 5000 with
  | Some additional =>
      4096 < 5000 /\ 5000 <= 100 + additional < 5000 + 4096 /\
      (100 + additional) mod 4096 = 0 /\ 0 < additional < 2 ^ 64
  | None => 5000 <= 4096
  end.
Proof. apply (vec_reserve_4k_bounds 4096 100 5000); lia. Defined.
