(* ===== verification/MsgSerdes.v ===== *)
(** * Typed message serialization and publishing payloads
    (crates/ros-z/src/msg.rs, shm.rs)

    [CdrSerdes] puts the encapsulation header in front of the CDR encoding, in a
    vector, in a [ZBufWriter] or straight in a block of shared memory
    ([ShmWriter], the third implementation of [CdrBuffer]).  A message is its
    [sval]; the [Deserialize] type is its [sty]. *)
From S2P Require Import Prelude CdrBuffer Utf8 RustStr CdrPrimitives CdrSpec CdrSerializer CdrDeserializer CdrSerde CdrCodec.
Open Scope list_scope.
Open Scope Z_scope.

#[local] Existing Instance LittleEndian.

(** ** Definitions *)

(** The encapsulation header, and the block that reads it. *)
Definition CDR_HEADER_LE : list byte := [x00; x01; x00; x00].

(** [Result::unwrap]. *)
Definition unwrap_res {E F A} (m : res E A) : res F A :=
  match m with Ok a => Ok a | _ => Panic end.

(** [struct ShmWriter]: the allocated block as it was, and the bytes written so
    far, [position] of them.  [write_bytes] asserts that they fit: a failed
    assertion unwinds out of the whole serialization, so the writer may go on
    and [shm_overflow] is looked at when it is done. *)
Record ShmWriter := mkShm { shm_block : list byte; shm_written : list byte }.
Definition shm_new (block : list byte) : ShmWriter := mkShm block [].
Definition shm_position (w : ShmWriter) : nat := length (shm_written w).
Definition write_bytes (w : ShmWriter) (bytes : list byte) : ShmWriter :=
  mkShm (shm_block w) (shm_written w ++ bytes).
Definition shm_overflow (w : ShmWriter) : bool := (length (shm_block w) <? shm_position w)%nat.
(** The block as it is after the writes: [into_zbuf] takes the whole of it. *)
Definition shm_bytes (w : ShmWriter) : list byte :=
  shm_written w ++ drop (shm_position w) (shm_block w).

(** [trait ZSerializer], as far as publishing uses it, with the size estimate of
    [ZMessage]: into regular memory it can only panic ([None]); into shared
    memory it can fail, and panic. *)
Class ZSerializerApi (ZBuf Input : Type) := {
  ser_to_zbuf : Input -> option ZBuf;
  ser_to_shm : (nat -> res string (list byte)) -> Input -> nat -> res string (ZBuf * nat);
  ser_estimate : Input -> nat;
}.

(** [struct ShmConfig], and the choice of [ZPub::publish]: shared memory when it
    is configured, the estimate reaches the threshold and the block is there;
    [async_publish] makes the same choice.  The size is only traced. *)
Record ShmConfig := mkShmConfig { provider : nat -> res string (list byte); threshold : nat }.
Definition DEFAULT_SHM_THRESHOLD : nat := 512.
Definition shm_config_new (p : nat -> res string (list byte)) : ShmConfig := mkShmConfig p DEFAULT_SHM_THRESHOLD.
Definition with_threshold (c : ShmConfig) (t : nat) : ShmConfig := mkShmConfig (provider c) t.
Definition publish_payload {ZBuf Input E} `{ZSerializerApi ZBuf Input} (shm_config : option ShmConfig) (msg : Input)
    : res E ZBuf :=
  match shm_config with
  | Some shm_cfg =>
      let estimated_size := ser_estimate msg in
      if (threshold shm_cfg <=? estimated_size)%nat then
        match ser_to_shm (provider shm_cfg) msg estimated_size with
        | Ok (zbuf, _) => Ok zbuf
        | Err _ => unwrap (ser_to_zbuf msg)
        | Panic => Panic
        end
      else unwrap (ser_to_zbuf msg)
  | None => unwrap (ser_to_zbuf msg)
  end.

Section Serdes.
Context {ZBuf : Type} `{ZApi : ZBufApi ZBuf}.

#[export] Instance ShmWriter_CdrBuffer : CdrBuffer ZBuf ShmWriter := {
  extend_from_slice := write_bytes;
  push w byte := write_bytes w [byte];
  len := shm_position;
  clear w := mkShm (shm_block w) [];
  append_zbuf := append_zbuf_default write_bytes;
}.

(** [ZBuf::from] of a vector and of a block of shared memory. *)
Context (zbuf_from : list byte -> ZBuf) (zbuf_from_shm : list byte -> ZBuf).

Section Serialize.
Context {E : Type}.

(** [CdrSerdes::serialize_to_buf]. *)
Definition serialize_to_buf (input : sval) (buf : list byte) : res E (list byte) :=
  let buf := clear (ZBuf := ZBuf) buf in
  let buf := extend_from_slice (ZBuf := ZBuf) buf CDR_HEADER_LE in
  fast_ser ← unwrap_res (serialize (ZBuf := ZBuf) input (serializer_new (ZBuf := ZBuf) buf));
  Ok (buffer fast_ser).
Definition serdes_serialize (input : sval) : res E (list byte) := serialize_to_buf input [].
Definition serialize_to_zbuf_reuse (input : sval) (buf : list byte) : res E (ZBuf * list byte) :=
  buf ← serialize_to_buf input buf;
  Ok (zbuf_from buf, []).

(** [CdrSerdes::serialize_to_zbuf_with_hint] and [serialize_to_zbuf]. *)
Definition serialize_to_zbuf_with_hint (input : sval) (capacity_hint : nat) : res E ZBuf :=
  let writer := zw_with_capacity (ZBuf := ZBuf) capacity_hint in
  let writer := extend_from_slice (ZBuf := ZBuf) writer CDR_HEADER_LE in
  serializer ← unwrap_res (serialize (ZBuf := ZBuf) input (serializer_new (ZBuf := ZBuf) writer));
  Ok (zw_into_zbuf (buffer serializer)).
Definition serialize_to_zbuf (input : sval) : res E ZBuf := serialize_to_zbuf_with_hint input 256.
End Serialize.

(** [CdrSerdes::serialize_to_shm]: [alloc] is the provider's answer, a block or
    an error; the header and the payload go into the block. *)
Definition serialize_to_shm (alloc : nat -> res string (list byte)) (input : sval) (estimated_size : nat)
    : res string (ZBuf * nat) :=
  block ← map_err (fun e => "SHM allocation failed: " ++ e)%string (alloc estimated_size);
  let writer := extend_from_slice (ZBuf := ZBuf) (shm_new block) CDR_HEADER_LE in
  if shm_overflow writer then Panic else
  match serialize (ZBuf := ZBuf) input (serializer_new (ZBuf := ZBuf) writer) with
  | Ok serializer =>
      let writer := buffer serializer in
      if shm_overflow writer then Panic
      else Ok (zbuf_from_shm (shm_bytes writer), shm_position writer)
  | Err e => Err ("CDR serialization failed: " ++ CdrError_fmt e)%string
  | Panic => Panic
  end.

(** [ZMessage::estimated_serialized_size], the provided method, and
    [ZMessage::serialize_to_zbuf]; [size_of] is [mem::size_of::<Self>()]. *)
Definition estimated_serialized_size (size_of : nat) : nat := size_of * 2 + 4.
Definition message_serialize_to_zbuf {E} (size_of : nat) (input : sval) : res E ZBuf :=
  serialize_to_zbuf_with_hint input (estimated_serialized_size size_of).

(** [CdrSerdes] as an implementation of the interface. *)
Definition CdrSerdes (size_of : nat) : ZSerializerApi ZBuf sval := {|
  ser_to_zbuf input := match serialize_to_zbuf (E := unit) input with Ok zbuf => Some zbuf | _ => None end;
  ser_to_shm := serialize_to_shm;
  ser_estimate _ := estimated_serialized_size size_of;
|}.
End Serdes.

(** [CdrSerdes::deserialize]; its error is a text. *)
Section Deserialize.
Context (unknown_variant : Z -> CdrError) (missing_element : nat -> CdrError).
Definition serdes_deserialize (t : sty) (input : list byte) : res string sval :=
  if (length input <? 4)%nat then Err "CDR data too short for header"%string
  else
    header ← slice input 0 4;
    representation_identifier ← slice header 0 2;
    if negb (bool_decide (representation_identifier = [x00; x01])) then
      Err ("Expected CDR_LE encapsulation (" ++ debug_bytes [x00; x01] ++ "), found "
             ++ debug_bytes representation_identifier)%string
    else
      payload ← slice input 4 (length input);
      x ← map_err CdrError_fmt (from_bytes unknown_variant missing_element t payload);
      Ok x.1.
End Deserialize.

(** ** Lemmas *)

(** No bytes make the decoder panic. *)
Lemma serdes_deserialize_safe unknown_variant missing_element t input :
  no_panic (serdes_deserialize unknown_variant missing_element t input).
Proof.
  unfold serdes_deserialize. destruct (Nat.ltb_spec (length input) 4) as [|Hl]; [apply no_panic_Err|].
  destruct input as [|b0 [|b1 [|b2 [|b3 input]]]]; try (cbn in Hl; lia). set (l := b0 :: b1 :: b2 :: b3 :: input).
  pose proof (slice_ok (E := string) [] [b0; b1; b2; b3] input) as H1. cbn [length List.app Nat.add] in H1.
  fold l in H1. rewrite H1. cbn [mbind res_bind].
  change (slice (E := string) [b0; b1; b2; b3] 0 2) with (Ok (E := string) [b0; b1]). cbn [mbind res_bind].
  case_match; [apply no_panic_Err|].
  assert (slice (E := string) l 4 (length l) = Ok input) as ->.
  { pose proof (slice_ok (E := string) [b0; b1; b2; b3] input []) as H2. by rewrite app_nil_r in H2. }
  cbn [mbind res_bind].
  pose proof (from_bytes_total unknown_variant missing_element t input) as Hs.
  destruct (from_bytes unknown_variant missing_element t input); done.
Qed.

(** A writer to a given block is a buffer like the others. *)
Definition shm_laws {ZBuf} `{ZApi : ZBufApi ZBuf} (block : list byte) : CdrBufferLaws ZBuf ShmWriter.
Proof.
  refine {| contents := shm_written; buf_ok := fun w => shm_block w = block |}; done.
Defined.

Lemma header_length : length CDR_HEADER_LE = 4%nat.
Proof. done. Qed.

Section Payloads.
Context {ZBuf : Type} `{ZL : ZBufLaws ZBuf}.
Context (zbuf_from zbuf_from_shm : list byte -> ZBuf).
Context (zbuf_from_contents : forall bs, zbuf_contiguous (zbuf_from bs) = bs).
Context (zbuf_from_shm_contents : forall bs, zbuf_contiguous (zbuf_from_shm bs) = bs).
Context (unknown_variant : Z -> CdrError) (missing_element : nat -> CdrError).

(** Serializing after the header, into any buffer. *)
Lemma serialize_after_header {B} `{CB : CdrBuffer ZBuf B} (BL : CdrBufferLaws ZBuf B) t v (b : B) :
  has_sty t v -> buf_ok b -> contents b = [] ->
  exists w, serialize (ZBuf := ZBuf) v (serializer_new (ZBuf := ZBuf) (extend_from_slice b CDR_HEADER_LE)) = Ok w /\
    buf_ok (buffer w) /\ contents (buffer w) = CDR_HEADER_LE ++ enc_sval v 0%nat.
Proof.
  intros Hv Hb Hc.
  destruct (appends_run _ _ (extend_from_slice b CDR_HEADER_LE) (serialize_appends t v Hv)
    (extend_ok b CDR_HEADER_LE Hb)) as (w & Hw & Hok & Hc').
  exists w. rewrite extend_contents, Hc in Hc' by done. done.
Qed.

Lemma serialize_to_buf_enc {E} t v buf :
  has_sty t v -> serialize_to_buf (ZBuf := ZBuf) (E := E) v buf = Ok (CDR_HEADER_LE ++ enc_sval v 0%nat).
Proof.
  intros Hv. unfold serialize_to_buf. cbn [clear Vec_CdrBuffer].
  destruct (serialize_after_header Vec_CdrBufferLaws t v [] Hv) as (w & Hw & _ & Hc); [done..|].
  rewrite Hw. cbn in *. by rewrite Hc.
Qed.

Lemma serialize_to_zbuf_enc {E} t v hint :
  has_sty t v -> exists z, serialize_to_zbuf_with_hint (ZBuf := ZBuf) (E := E) v hint = Ok z /\
    zbuf_contiguous z = CDR_HEADER_LE ++ enc_sval v 0%nat.
Proof.
  intros Hv. unfold serialize_to_zbuf_with_hint. change (zw_with_capacity hint) with (zw_new (ZBuf := ZBuf)).
  destruct (serialize_after_header ZBufWriter_CdrBufferLaws t v zw_new Hv) as (w & Hw & _ & Hc).
  - apply zw_new_ok.
  - unfold contents. cbn. unfold zw_contents. cbn. by rewrite contiguous_empty.
  - rewrite Hw. cbn. eexists. split; [done|]. by rewrite zw_into_zbuf_contents.
Qed.

(** The three outcomes in shared memory: no block, a block that is too small, and
    the bytes followed by what the rest of the block held. *)
Lemma serialize_to_shm_enc alloc t v n :
  has_sty t v ->
  let bytes := CDR_HEADER_LE ++ enc_sval v 0%nat in
  serialize_to_shm zbuf_from_shm alloc v n =
    match alloc n with
    | Ok block => if (length block <? length bytes)%nat then Panic
                  else Ok (zbuf_from_shm (bytes ++ drop (length bytes) block), length bytes)
    | Err e => Err ("SHM allocation failed: " ++ e)%string
    | Panic => Panic
    end.
Proof.
  intros Hv bytes. unfold serialize_to_shm. destruct (alloc n) as [block|e|]; cbn [map_err mbind res_bind]; [|done..].
  destruct (serialize_after_header (shm_laws block) t v (shm_new block) Hv eq_refl eq_refl)
    as (w & Hw & Hok & Hc).
  rewrite Hw. cbn [buf_ok contents shm_laws] in Hok, Hc. unfold shm_bytes, shm_overflow, shm_position.
  rewrite Hok, Hc. fold bytes. change (shm_written (extend_from_slice (shm_new block) CDR_HEADER_LE)) with CDR_HEADER_LE.
  change (shm_block (extend_from_slice (shm_new block) CDR_HEADER_LE)) with block. rewrite header_length.
  destruct (Nat.ltb_spec (length block) 4); [|done].
  destruct (Nat.ltb_spec (length block) (length bytes)) as [|Hl]; [done|].
  unfold bytes in Hl. rewrite length_app, header_length in Hl. lia.
Qed.

(** Whatever follows the payload is ignored. *)
Lemma serdes_deserialize_enc t v tail :
  has_sty t v ->
  serdes_deserialize unknown_variant missing_element t (CDR_HEADER_LE ++ enc_sval v 0%nat ++ tail) = Ok v.
Proof.
  intros Hv. unfold serdes_deserialize. set (body := enc_sval v 0%nat ++ tail).
  destruct (Nat.ltb_spec (length (CDR_HEADER_LE ++ body)) 4) as [Hl|_]; [cbn in Hl; lia|].
  pose proof (slice_ok (E := string) [] CDR_HEADER_LE body) as H1.
  cbn [length List.app Nat.add] in H1. rewrite header_length in H1. rewrite H1.
  cbn [mbind res_bind]. change (slice (E := string) CDR_HEADER_LE 0 2) with (Ok (E := string) [x00; x01]).
  cbn [mbind res_bind]. rewrite bool_decide_eq_true_2 by done. cbn [negb].
  pose proof (slice_ok (E := string) CDR_HEADER_LE body []) as H2.
  rewrite app_nil_r, header_length, <- header_length, <- length_app in H2. rewrite header_length in H2. rewrite H2.
  cbn [mbind res_bind]. pose proof (decode_decodes unknown_variant missing_element t v Hv [] tail) as Hd.
  cbn [length List.app Nat.add] in Hd. fold body in Hd.
  unfold from_bytes, from_bytes_with, deserializer_new, reader_new. by rewrite Hd.
Qed.
End Payloads.

(** ** Properties *)

Section Properties.
Context {ZBuf : Type} `{ZL : ZBufLaws ZBuf}.
Context (zbuf_from zbuf_from_shm : list byte -> ZBuf).
Context (zbuf_from_contents : forall bs, zbuf_contiguous (zbuf_from bs) = bs).
Context (zbuf_from_shm_contents : forall bs, zbuf_contiguous (zbuf_from_shm bs) = bs).
Context (unknown_variant : Z -> CdrError) (missing_element : nat -> CdrError).

(** Every way to serialize a message gives the same bytes, which deserialize to
    the message: into a new vector, a vector in use, a [ZBuf] with or without a
    size hint. *)
Theorem typed_roundtrip {E} t v buf hint :
  has_sty t v ->
  exists bytes z1 z2 z3,
    serdes_serialize (ZBuf := ZBuf) (E := E) v = Ok bytes /\
    serialize_to_buf (ZBuf := ZBuf) (E := E) v buf = Ok bytes /\
    serialize_to_zbuf_reuse zbuf_from (E := E) v buf = Ok (z1, []) /\ zbuf_contiguous z1 = bytes /\
    serialize_to_zbuf_with_hint (ZBuf := ZBuf) (E := E) v hint = Ok z2 /\ zbuf_contiguous z2 = bytes /\
    serialize_to_zbuf (ZBuf := ZBuf) (E := E) v = Ok z3 /\ zbuf_contiguous z3 = bytes /\
    serdes_deserialize unknown_variant missing_element t bytes = Ok v.
Proof.
  intros Hv. destruct (serialize_to_zbuf_enc (E := E) t v hint Hv) as (z2 & H2 & C2).
  destruct (serialize_to_zbuf_enc (E := E) t v 256 Hv) as (z3 & H3 & C3).
  set (bytes := CDR_HEADER_LE ++ enc_sval v 0%nat) in *. exists bytes, (zbuf_from bytes), z2, z3.
  unfold serialize_to_zbuf_reuse, serdes_serialize. rewrite !(serialize_to_buf_enc t) by done.
  split_and!; try done.
  unfold bytes. rewrite <- (app_nil_r (enc_sval v 0%nat)). by apply serdes_deserialize_enc.
Qed.

Lemma payload_decodes {E} config size_of t v :
  has_sty t v ->
  let estimate := estimated_serialized_size size_of in
  let size := (4 + length (enc_sval v 0%nat))%nat in
  match publish_payload (E := E) (H := CdrSerdes zbuf_from_shm size_of) config v with
  | Ok z => serdes_deserialize unknown_variant missing_element t (zbuf_contiguous z) = Ok v
  | Err _ => False
  | Panic => exists cfg, config = Some cfg /\ (threshold cfg <= estimate)%nat /\
      match provider cfg estimate with
      | Ok block => (length block < size)%nat
      | Err _ => False
      | Panic => True
      end
  end.
Proof.
  intros Hv estimate size.
  assert (exists z, ser_to_zbuf (ZSerializerApi := CdrSerdes zbuf_from_shm size_of) v = Some z /\
    serdes_deserialize unknown_variant missing_element t (zbuf_contiguous z) = Ok v) as (z & Hz & Hd).
  { destruct (serialize_to_zbuf_enc (E := unit) t v 256 Hv) as (z & H1 & H2). exists z.
    split; [cbn; unfold serialize_to_zbuf; by rewrite H1|]. rewrite H2, <- (app_nil_r (enc_sval v 0%nat)). by apply serdes_deserialize_enc. }
  unfold publish_payload. destruct config as [cfg|]; [|by rewrite Hz].
  change (ser_estimate (ZSerializerApi := CdrSerdes zbuf_from_shm size_of) v) with estimate. cbn zeta.
  destruct (Nat.leb_spec (threshold cfg) estimate); [|by rewrite Hz].
  change (ser_to_shm (ZSerializerApi := CdrSerdes zbuf_from_shm size_of)) with (serialize_to_shm zbuf_from_shm).
  rewrite (serialize_to_shm_enc zbuf_from_shm _ t) by done.
  destruct (provider cfg estimate) as [block|e|] eqn:Ep; [|by rewrite Hz|exists cfg; by rewrite Ep].
  rewrite length_app, header_length. fold size. destruct (Nat.ltb_spec (length block) size).
  - exists cfg. by rewrite Ep.
  - rewrite zbuf_from_shm_contents, <- app_assoc. by apply serdes_deserialize_enc.
Qed.

(** When publishing panics: shared memory is chosen, and the provider panics or
    gives a block that is too short. *)
Definition shm_panics (config : option ShmConfig) (estimate size : nat) : Prop :=
  exists cfg, config = Some cfg /\ (threshold cfg <= estimate)%nat /\
    match provider cfg estimate with
    | Ok block => (length block < size)%nat
    | Err _ => False
    | Panic => True
    end.

Lemma payload_panics {E} config size_of t v :
  has_sty t v ->
  shm_panics config (estimated_serialized_size size_of) (4 + length (enc_sval v 0%nat)) ->
  publish_payload (E := E) (H := CdrSerdes zbuf_from_shm size_of) config v = Panic.
Proof.
  intros Hv (cfg & -> & Ht & Hp). unfold publish_payload.
  change (ser_estimate (ZSerializerApi := CdrSerdes zbuf_from_shm size_of) v) with (estimated_serialized_size size_of).
  cbn zeta. destruct (Nat.leb_spec (threshold cfg) (estimated_serialized_size size_of)); [|lia].
  change (ser_to_shm (ZSerializerApi := CdrSerdes zbuf_from_shm size_of)) with (serialize_to_shm zbuf_from_shm).
  rewrite (serialize_to_shm_enc zbuf_from_shm _ t) by done.
  destruct (provider cfg _) as [block|e|]; [|done..]. rewrite length_app, header_length.
  destruct (Nat.ltb_spec (length block) (4 + length (enc_sval v 0%nat))); [done|lia].
Qed.

(** C16 What a publisher sends: whether it goes through shared memory (a block
    that may hold more than the message) or not, publishing gives no error and
    the subscriber decodes the payload to the message that was published; and
    publishing panics exactly when shared memory is configured, the estimate
    reaches its threshold, and the provider, asked for a block of the size of the
    estimate, panics or gives one that the message does not fit in. *)
Theorem published_payload_decodes {E} config size_of t v :
  has_sty t v ->
  match publish_payload (E := E) (H := CdrSerdes zbuf_from_shm size_of) config v with
  | Ok z => serdes_deserialize unknown_variant missing_element t (zbuf_contiguous z) = Ok v
  | Err _ => False
  | Panic => True
  end /\
  (publish_payload (E := E) (H := CdrSerdes zbuf_from_shm size_of) config v = Panic <->
     shm_panics config (estimated_serialized_size size_of) (4 + length (enc_sval v 0%nat))).
Proof.
  intros Hv. pose proof (payload_decodes (E := E) config size_of t v Hv) as Hd. cbn zeta in Hd.
  pose proof (payload_panics (E := E) config size_of t v Hv) as Hp.
  destruct (publish_payload config v); [done|done|]. split; [done|]. split; [|done]. intros _. exact Hd.
Qed.
End Properties.

(** A provider of blocks full of [0xff], a little longer than asked for. *)
Definition ex_provider (n : nat) : res string (list byte) := Ok (replicate (n + 3) xff).
Definition ex_zbuf_from (bs : list byte) : list (list byte) := match bs with [] => [] | _ => [bs] end.

Lemma ex_zbuf_from_contents bs : zbuf_contiguous (ex_zbuf_from bs) = bs.
Proof. destruct bs; [done|]. cbn. by rewrite app_nil_r. Qed.

(** The block of 87 bytes holds the message; one of 20 does not. *)
Lemma published_payload_decodes_witness :
  match publish_payload (E := unit) (H := CdrSerdes ex_zbuf_from 40)
          (Some (with_threshold (shm_config_new ex_provider) 64)) ex_val with
  | Ok z => serdes_deserialize ex_unknown ex_missing ex_sty (zbuf_contiguous z) = Ok ex_val
  | Err _ => False
  | Panic => False
  end /\
  publish_payload (E := unit) (H := CdrSerdes ex_zbuf_from 40)
    (Some (mkShmConfig (fun _ => Ok (replicate 20 xff)) 64)) ex_val = Panic.
Proof.
  split.
  - destruct (published_payload_decodes ex_zbuf_from ex_zbuf_from_contents ex_unknown ex_missing (E := unit)
      (Some (with_threshold (shm_config_new ex_provider) 64)) 40 ex_sty ex_val ex_has_sty) as [Hd _].
    revert Hd. vm_compute. done.
  - apply (published_payload_decodes ex_zbuf_from ex_zbuf_from_contents ex_unknown ex_missing (E := unit)
      (Some (mkShmConfig (fun _ => Ok (replicate 20 xff)) 64)) 40 ex_sty ex_val ex_has_sty).
    eexists. split; [reflexivity|]. split; [vm_compute; lia|]. vm_compute. lia.
Defined.

(** The estimate of a message does not look at its contents: a sequence of bytes
    in a struct of 24 bytes panics as soon as its encoding is longer than 48
    bytes, if the threshold lets it into shared memory; and what is published is
    the whole block. *)
Lemma shm_estimate_too_small :
  let exact n := Ok (E := string) (replicate n xff) in
  let msg n := VStruct [VSeq (Some n) (replicate n (VU8 7))] in
  publish_payload (E := unit) (H := CdrSerdes ex_zbuf_from 24) (Some (mkShmConfig exact 52)) (msg 45%nat) = Panic /\
  publish_payload (E := unit) (H := CdrSerdes ex_zbuf_from 24) (Some (mkShmConfig exact 52)) (msg 2%nat) =
    Ok [[x00; x01; x00; x00; x02; x00; x00; x00; x07; x07] ++ replicate 42 xff].
Proof. split; vm_compute; reflexivity. Qed.
