(* ===== verification/Queue.v ===== *)
(** * The bounded receive queue (crates/ros-z/src/queue.rs)

    [BoundedQueue] is the state its mutex protects and its capacity; every
    method is a definition at the granularity of the lock.  A method that waits
    on the condition variable or the event releases the lock, so it is split
    into what it does when it holds the lock: it either returns or waits
    ([Wait]).  [step] is one such critical section of any thread; a run is any
    interleaving of them. *)
From S2P Require Import Prelude.

(** ** Definitions *)

(** [struct BoundedQueue]: the [VecDeque] front first, and the capacity. *)
Record BoundedQueue (T : Type) := mkQueue { data : list T; capacity : N }.
Arguments mkQueue {T} _ _.
Arguments data {T} _.
Arguments capacity {T} _.

Section Queue.
Context {T : Type}.
Abbreviation queue := (BoundedQueue T).

(** [BoundedQueue::new]. *)
Definition queue_new (cap : N) : queue := mkQueue [] cap.

(** [VecDeque::pop_front]. *)
Definition pop_front (q : queue) : option T * queue :=
  match data q with
  | [] => (None, q)
  | x :: d => (Some x, mkQueue d (capacity q))
  end.

Definition push_back (q : queue) (item : T) : queue :=
  mkQueue (data q ++ [item]) (capacity q).

(** [BoundedQueue::push]: whether an item was dropped, and the queue. *)
Definition queue_push (q : queue) (item : T) : bool * queue :=
  let '(dropped, q) :=
    if (capacity q <=? N.of_nat (length (data q)))%N then (true, (pop_front q).2)
    else (false, q) in
  (dropped, push_back q item).

(** [try_recv], [is_empty] and [len]. *)
Definition queue_try_recv (q : queue) : option T * queue := pop_front q.
Definition queue_is_empty (q : queue) : bool :=
  match data q with [] => true | _ => false end.
Definition queue_len (q : queue) : nat := length (data q).

(** What a critical section of a waiting method does. *)
Inductive section_result :=
| Wait
| Return (o : option T).

(** [recv]: [while data.is_empty() { wait }], then [pop_front().expect(..)];
    each pass of the loop is one critical section. *)
Definition queue_recv (q : queue) : section_result * queue :=
  if queue_is_empty q then (Wait, q)
  else let '(o, q) := pop_front q in (Return o, q).

(** [recv_timeout]: the first section, and the one after [wait_for] returned. *)
Definition queue_recv_timeout (q : queue) : section_result * queue :=
  if queue_is_empty q then (Wait, q)
  else let '(o, q) := pop_front q in (Return o, q).
Definition queue_recv_timeout_resume (timed_out : bool) (q : queue) : option T * queue :=
  if timed_out || queue_is_empty q then (None, q) else pop_front q.

(** [recv_async]: one iteration of its loop, the listener being registered. *)
Definition queue_recv_async (q : queue) : section_result * queue :=
  let '(o, q) := queue_try_recv q in
  match o with
  | Some item => (Return (Some item), q)
  | None => (Wait, q)
  end.

(** One critical section of some thread. *)
Inductive event :=
| EPush (item : T) (dropped : bool)
| ETaken (item : T)
| ENothing.

Inductive step : queue -> event -> queue -> Prop :=
| step_push q item d q' : queue_push q item = (d, q') -> step q (EPush item d) q'
| step_try_recv q o q' : queue_try_recv q = (o, q') ->
    step q (match o with Some x => ETaken x | None => ENothing end) q'
| step_recv q x q' : queue_recv q = (Return (Some x), q') -> step q (ETaken x) q'
| step_recv_wait q q' : queue_recv q = (Wait, q') -> step q ENothing q'
| step_recv_timeout q x q' : queue_recv_timeout q = (Return (Some x), q') -> step q (ETaken x) q'
| step_recv_timeout_wait q q' : queue_recv_timeout q = (Wait, q') -> step q ENothing q'
| step_recv_timeout_resume t q o q' : queue_recv_timeout_resume t q = (o, q') ->
    step q (match o with Some x => ETaken x | None => ENothing end) q'
| step_recv_async q x q' : queue_recv_async q = (Return (Some x), q') -> step q (ETaken x) q'
| step_recv_async_wait q q' : queue_recv_async q = (Wait, q') -> step q ENothing q'.

Inductive run : queue -> list event -> queue -> Prop :=
| run_nil q : run q [] q
| run_cons q e q' es q'' : step q e q' -> run q' es q'' -> run q (e :: es) q''.

(** What a run pushed, took and reported as dropped. *)
Definition pushed (es : list event) : list T :=
  omap (fun e => match e with EPush x _ => Some x | _ => None end) es.
Definition taken (es : list event) : list T :=
  omap (fun e => match e with ETaken x => Some x | _ => None end) es.
Definition dropped (es : list event) : nat :=
  length (List.filter (fun e => match e with EPush _ true => true | _ => false end) es).

(** The abstract queue: the last [n] items of a list. *)
Definition lastn (n : nat) (l : list T) : list T := drop (length l - n) l.

(** Room for at least one item: a capacity of 0 behaves as 1. *)
Definition bound (q : queue) : nat := Nat.max 1 (N.to_nat (capacity q)).
Definition queue_ok (q : queue) : Prop := (length (data q) <= bound q)%nat.

(** ** Lemmas *)

Lemma queue_push_eq q item :
  queue_push q item =
    if (capacity q <=? N.of_nat (length (data q)))%N
    then (true, mkQueue (tail (data q) ++ [item]) (capacity q))
    else (false, mkQueue (data q ++ [item]) (capacity q)).
Proof.
  unfold queue_push, pop_front, push_back.
  destruct (capacity q <=? N.of_nat (length (data q)))%N; [|done].
  destruct q as [[|x d] c]; done.
Qed.

(** Every critical section pushes, takes the front, or changes nothing. *)
Lemma step_cases q e q' :
  step q e q' ->
  match e with
  | EPush x d => queue_push q x = (d, q')
  | ETaken x => data q = x :: data q' /\ capacity q' = capacity q
  | ENothing => q' = q
  end.
Proof.
  destruct q as [dq c].
  destruct 1 as [? ? ? ? Hs|? o ? Hs|? ? ? Hs|? ? Hs|? ? ? Hs|? ? Hs|t ? o ? Hs|? ? ? Hs|? ? Hs];
    [exact Hs|..]; unfold queue_recv_async, queue_recv_timeout_resume, queue_try_recv,
      queue_recv, queue_recv_timeout, queue_is_empty, pop_front in Hs;
    destruct q as [[|y d] c']; try destruct t; cbn in *; by simplify_eq.
Qed.

Lemma step_capacity q e q' : step q e q' -> capacity q' = capacity q.
Proof.
  intros H%step_cases. destruct e; [|by destruct H|by subst].
  rewrite queue_push_eq in H. case_match; by simplify_eq.
Qed.

Lemma step_ok q e q' : step q e q' -> queue_ok q -> queue_ok q'.
Proof.
  intros Hs Hq. pose proof (step_capacity _ _ _ Hs) as Hc. apply step_cases in Hs.
  unfold queue_ok, bound in *. rewrite Hc.
  destruct e as [x d|x|]; [|destruct Hs as [Hd _]; rewrite Hd in Hq; cbn in Hq; lia|by subst].
  rewrite queue_push_eq in Hs. case_match eqn:E; simplify_eq; cbn [data]; rewrite length_app; cbn.
  - destruct (data q); cbn [tail length] in *; lia.
  - apply N.leb_gt in E. lia.
Qed.

Lemma run_ok q es q' : run q es q' -> queue_ok q -> queue_ok q' /\ capacity q' = capacity q.
Proof.
  induction 1 as [|q e q' es q'' Hs _ IH]; [done|]. intros Hq.
  destruct (IH (step_ok _ _ _ Hs Hq)) as [? Hc]. split; [done|].
  by rewrite Hc, (step_capacity _ _ _ Hs).
Qed.

Lemma tail_sublist (l : list T) : sublist (tail l) l.
Proof. destruct l as [|x l]; [constructor | by apply sublist_cons]. Qed.

Lemma run_sublist q es q' :
  run q es q' -> sublist (taken es ++ data q') (data q ++ pushed es).
Proof.
  induction 1 as [q|q e q' es q'' Hs _ IH]; [cbn; by rewrite app_nil_r|].
  apply step_cases in Hs. destruct e as [x d|x|]; cbn.
  - rewrite queue_push_eq in Hs. case_match; simplify_eq; cbn [data] in IH;
      rewrite <- app_assoc in IH; [|exact IH].
    etrans; [exact IH|]. apply sublist_app; [apply tail_sublist | done].
  - destruct Hs as [-> _]. cbn. by apply sublist_skip.
  - subst. exact IH.
Qed.

Lemma run_accounting q es q' :
  run q es q' -> (1 <= capacity q)%N ->
  (length (data q) + length (pushed es) =
    length (taken es) + length (data q') + dropped es)%nat.
Proof.
  induction 1 as [q|q e q' es q'' Hs _ IH]; intros Hq; [cbn; lia|].
  pose proof (step_capacity _ _ _ Hs) as Hc. apply step_cases in Hs.
  unfold dropped, pushed, taken in *. destruct e as [x d|x|]; cbn.
  - rewrite queue_push_eq in Hs. case_match eqn:E; simplify_eq; cbn [data capacity length] in *;
      specialize (IH Hq); rewrite length_app in IH; cbn in IH |- *.
    + apply N.leb_le in E. destruct (data q); cbn [tail length List.filter] in *; lia.
    + cbn. lia.
  - destruct Hs as [Hd _]. rewrite Hc in IH. specialize (IH Hq). rewrite Hd. cbn. lia.
  - subst. by apply IH.
Qed.

(** ** Properties *)

(** [push] keeps the most recent items: on a queue within its bound the
    contents afterwards are the last [max 1 capacity] items of the old
    contents followed by the new one, and [true] is returned exactly when the
    queue had reached its capacity. *)
Theorem push_keeps_last q item :
  queue_ok q ->
  (queue_push q item).2 = mkQueue (lastn (bound q) (data q ++ [item])) (capacity q) /\
  ((queue_push q item).1 = true <-> (N.to_nat (capacity q) <= length (data q))%nat).
Proof.
  unfold queue_ok, bound, lastn. intros Hq. rewrite queue_push_eq, length_app. cbn [length].
  destruct (N.leb_spec (capacity q) (N.of_nat (length (data q)))) as [Hle|Hgt]; cbn [fst snd].
  - split; [|split; [lia|done]]. f_equal. destruct (data q) as [|x d]; cbn in *.
    + by replace (1 - _)%nat with 0%nat by lia.
    + replace (S (length d + 1) - Nat.max 1 (N.to_nat (capacity q)))%nat with 1%nat by lia. done.
  - split; [|split; [done|lia]]. f_equal.
    by replace (length (data q) + 1 - Nat.max 1 (N.to_nat (capacity q)))%nat with 0%nat by lia.
Qed.

(** C31 Any interleaving of the critical sections of any number of threads keeps
    the queue within its bound, delivers the items in the order they were
    pushed (what was received and what is still queued is a subsequence of
    what was pushed), and loses only the items [push] reported: for a
    capacity of at least one the counts add up. *)
Theorem queue_run_spec (cap : N) es q :
  (1 <= cap)%N -> run (queue_new cap) es q ->
  (queue_len q <= N.to_nat cap)%nat /\
  sublist (taken es ++ data q) (pushed es) /\
  (length (pushed es) = length (taken es) + queue_len q + dropped es)%nat.
Proof.
  intros Hcap Hr. destruct (run_ok _ _ _ Hr) as [Hok Hc]; [cbn; unfold queue_ok; cbn; lia|].
  split; [|split].
  - unfold queue_ok, bound, queue_len in *. rewrite Hc in Hok. cbn in Hok. lia.
  - exact (run_sublist _ _ _ Hr).
  - exact (run_accounting _ _ _ Hr Hcap).
Qed.
End Queue.

Lemma push_keeps_last_witness :
  (queue_push (mkQueue [1; 2]%nat 2) 3%nat).2 =
    mkQueue (lastn 2 ([1; 2] ++ [3])%nat) 2 /\
  ((queue_push (mkQueue [1; 2]%nat 2) 3%nat).1 = true <-> (2 <= 2)%nat).
Proof. apply (push_keeps_last (mkQueue [1; 2]%nat 2) 3%nat). cbv. lia. Defined.

(** Two pushes into a queue of one, then a receive. *)
Lemma queue_run_spec_witness :
  (queue_len (mkQueue (T := nat) [] 1) <= 1)%nat /\
  sublist ([5] ++ [])%nat [4; 5]%nat /\ (2 = 1 + 0 + 1)%nat.
Proof.
  apply (queue_run_spec 1 [EPush 4 false; EPush 5 true; ETaken 5]%nat (mkQueue [] 1)); [done|].
  eapply run_cons; [by apply step_push|]. eapply run_cons; [by apply step_push|].
  eapply run_cons; [by apply step_recv|]. apply run_nil.
Defined.
