(* ===== verification/Attachment.v ===== *)
(** * Attachments and queries (crates/ros-z/src/attachment.rs)

    The attachment of a sample or a query, written and read with the serializer
    of zenoh-ext ([ZExtApi], with what the code relies on in [ZExtLaws]), and a
    zenoh query as far as services read it. *)
From stdpp Require Import countable.
From S2P Require Import Prelude CdrPrimitives CdrSpec.
Open Scope Z_scope.

(** ** Definitions *)

#[export] Program Instance byte_countable : Countable byte :=
  inj_countable (fun b => Byte.to_N b) Byte.of_N _.
Next Obligation. intros b. apply Byte.of_to_N. Qed.

(** [zenoh_ext::ZDeserializer] and [ZSerializer], at the types the code uses. *)
Class ZExtApi := {
  ZDeserializer : Type;
  zdes_new : list byte -> ZDeserializer;
  zdes_i64 : ZDeserializer -> option (Z * ZDeserializer);
  zdes_gid : ZDeserializer -> option (list byte * ZDeserializer);
  ZSerializer : Type;
  zser_new : ZSerializer;
  zser_i64 : ZSerializer -> Z -> ZSerializer;
  zser_gid : ZSerializer -> list byte -> ZSerializer;
  zser_finish : ZSerializer -> list byte;
}.

Definition RMW_GID_STORAGE_SIZE : nat := 16.
(** [type GidArray = \[u8; RMW_GID_STORAGE_SIZE\]]; [gid_ok] is its length. *)
Definition GidArray : Type := list byte.
Definition gid_ok (g : GidArray) : Prop := length g = RMW_GID_STORAGE_SIZE.

Record Attachment := mkAttachment {
  sequence_number : Z; source_timestamp : Z; source_gid : GidArray }.

(** [Attachment::new]; the clock's reading in nanoseconds since the epoch, [None]
    when it is before it. *)
Definition Attachment_new (sn : Z) (gid : GidArray) (since_epoch : option Z) : Attachment :=
  mkAttachment sn (match since_epoch with Some v => wrap_i 64 v | None => 0 end) gid.

(** [TryFrom<&ZBytes>]; [None] is the error of zenoh-ext. *)
Definition Attachment_try_from `{ZExtApi} (value : list byte) : option Attachment :=
  '(sn, des) ← zdes_i64 (zdes_new value);
  '(ts, des) ← zdes_i64 des;
  '(gid, _) ← zdes_gid des;
  Some (mkAttachment sn ts gid).

(** [From<Attachment> for ZBytes]. *)
Definition Attachment_into_zbytes `{ZExtApi} (value : Attachment) : list byte :=
  let ser := zser_new in
  let ser := zser_i64 ser (sequence_number value) in
  let ser := zser_i64 ser (source_timestamp value) in
  let ser := zser_gid ser (source_gid value) in
  zser_finish ser.

(** A zenoh query, as far as the server reads it. *)
Record Query := mkQuery {
  key_expr : string; payload : option (list byte); attachment : option (list byte) }.

(** ** Specification *)

(** What zenoh-ext documents: values are read back in the order they were
    written.  Every value has an encoding, a serializer appends it, and a
    deserializer reads the one its remaining bytes start with. *)
Class ZExtLaws `{ZExtApi} := {
  zext_i64 : Z -> list byte;
  zext_gid : list byte -> list byte;
  zdes_rest : ZDeserializer -> list byte;
  zdes_new_rest : forall bs, zdes_rest (zdes_new bs) = bs;
  zser_new_bytes : zser_finish zser_new = [];
  zser_i64_bytes : forall s v, zser_finish (zser_i64 s v) = zser_finish s ++ zext_i64 v;
  zser_gid_bytes : forall s g, zser_finish (zser_gid s g) = zser_finish s ++ zext_gid g;
  zdes_i64_read : forall d v rest, i_range 64 v -> zdes_rest d = zext_i64 v ++ rest ->
    exists d', zdes_i64 d = Some (v, d') /\ zdes_rest d' = rest;
  zdes_gid_read : forall d g rest, gid_ok g -> zdes_rest d = zext_gid g ++ rest ->
    exists d', zdes_gid d = Some (g, d') /\ zdes_rest d' = rest;
}.

Definition attachment_ok (a : Attachment) : Prop :=
  i_range 64 (sequence_number a) /\ i_range 64 (source_timestamp a) /\ gid_ok (source_gid a).

(** ** Lemmas *)

Lemma attachment_roundtrip `{ZExtLaws} a :
  attachment_ok a -> Attachment_try_from (Attachment_into_zbytes a) = Some a.
Proof.
  intros (Hs & Ht & Hg). unfold Attachment_try_from, Attachment_into_zbytes. cbn zeta.
  rewrite zser_gid_bytes, !zser_i64_bytes, zser_new_bytes. cbn [app].
  destruct (zdes_i64_read (zdes_new ((zext_i64 (sequence_number a) ++ zext_i64 (source_timestamp a)) ++
    zext_gid (source_gid a))) (sequence_number a) (zext_i64 (source_timestamp a) ++ zext_gid (source_gid a)) Hs)
    as (d1 & -> & H1); [by rewrite zdes_new_rest, <- app_assoc|]. cbn [mbind option_bind].
  destruct (zdes_i64_read d1 _ _ Ht H1) as (d2 & -> & H2). cbn [mbind option_bind].
  destruct (zdes_gid_read d2 (source_gid a) [] Hg) as (d3 & -> & _); [by rewrite app_nil_r|].
  by destruct a.
Qed.

Lemma Attachment_new_ok sn gid now : i_range 64 sn -> gid_ok gid -> attachment_ok (Attachment_new sn gid now).
Proof.
  intros Hs Hg. split; [done|]. split; [|done]. cbn. destruct now; [by apply wrap_i_range|]. unfold i_range. lia.
Qed.

(** ** A concrete serializer *)

(** A stand-in for zenoh-ext: 8-byte little-endian integers, 16 raw bytes. *)
Definition ex_i64 (bs : list byte) : option (Z * list byte) :=
  if decide (8 <= length bs)%nat then Some (wrap_i 64 (le_value (take 8 bs)), drop 8 bs) else None.
#[export] Instance ex_zext : ZExtApi := {|
  ZDeserializer := list byte;
  zdes_new bs := bs;
  zdes_i64 := ex_i64;
  zdes_gid bs := if decide (16 <= length bs)%nat then Some (take 16 bs, drop 16 bs) else None;
  ZSerializer := list byte;
  zser_new := [];
  zser_i64 s v := s ++ le_bytes 8 v;
  zser_gid s g := s ++ g;
  zser_finish s := s;
|}.

#[export] Program Instance ex_zext_laws : @ZExtLaws ex_zext := {|
  zext_i64 := le_bytes 8;
  zext_gid g := g;
  zdes_rest d := d;
|}.
Next Obligation. done. Qed.
Next Obligation. done. Qed.
Next Obligation. done. Qed.
Next Obligation. done. Qed.
Next Obligation.
  intros d v rest Hv ->. exists rest. change (zdes_i64 (ZExtApi := ex_zext)) with ex_i64. split; [|done]. unfold ex_i64.
  rewrite decide_True by (rewrite length_app, le_bytes_length; lia).
  rewrite <- (le_bytes_length 8 v) at 1 3. rewrite take_app_length, drop_app_length, le_value_bytes.
  do 2 f_equal. change (8 * Z.of_nat 8) with 64. revert Hv. unfold i_range, wrap_i. intros Hv.
  rewrite Zplus_mod_idemp_l. rewrite Z.mod_small by (change (2 ^ (64 - 1)) with 9223372036854775808 in *; lia). lia.
Qed.
Next Obligation.
  intros d g rest Hg ->. exists rest. split; [|done]. cbn [zdes_gid ex_zext].
  unfold gid_ok, RMW_GID_STORAGE_SIZE in Hg.
  rewrite decide_True by (rewrite length_app; lia). by rewrite <- Hg, take_app_length, drop_app_length.
Qed.
