(* ===== verification/Qos.v ===== *)
(** * QoS profiles in liveliness tokens (crates/ros-z-protocol/src/qos.rs)

    The profile of ros-z-protocol, its [encode] (the rmw_zenoh_cpp format) and
    [decode], every branch and error.  [usize] is 64 bits wide. *)
From S2P Require Import Prelude Utf8 RustStr.
Open Scope string_scope.

(** ** Definitions *)

(** [enum QosReliability], [QosDurability], [QosHistory] and their defaults. *)
Inductive QosReliability := BestEffort | Reliable.
Inductive QosDurability := Volatile | TransientLocal.
Inductive QosHistory := KeepLast (depth : Z) | KeepAll.

#[export] Instance QosReliability_eq_dec : EqDecision QosReliability.
Proof. solve_decision. Defined.
#[export] Instance QosDurability_eq_dec : EqDecision QosDurability.
Proof. solve_decision. Defined.
#[export] Instance QosHistory_eq_dec : EqDecision QosHistory.
Proof. solve_decision. Defined.

Definition QosReliability_default : QosReliability := Reliable.
Definition QosDurability_default : QosDurability := Volatile.
Definition QosHistory_default : QosHistory := KeepLast 10.

(** [QosHistory::from_depth] and [depth]. *)
Definition QosHistory_from_depth (depth : Z) : QosHistory := KeepLast depth.
Definition QosHistory_depth (h : QosHistory) : Z :=
  match h with
  | KeepLast d => d
  | KeepAll => 0
  end.

(** [struct QosProfile]. *)
Record QosProfile := mkQos {
  reliability : QosReliability;
  durability : QosDurability;
  history : QosHistory;
}.
Definition QosProfile_default : QosProfile :=
  mkQos QosReliability_default QosDurability_default QosHistory_default.

(** [enum QosDecodeError] and its [Display]. *)
Inductive QosDecodeError :=
| InvalidFormat
| InvalidReliability
| InvalidDurability
| InvalidHistory.
Definition QosDecodeError_fmt (e : QosDecodeError) : string :=
  match e with
  | InvalidFormat => "Invalid QoS format"
  | InvalidReliability => "Invalid reliability value"
  | InvalidDurability => "Invalid durability value"
  | InvalidHistory => "Invalid history value"
  end.

(** [QosProfile::encode]. *)
Definition encode (q : QosProfile) : string :=
  let default_qos := QosProfile_default in
  let rel :=
    if decide (reliability q <> reliability default_qos) then
      match reliability q with Reliable => "1" | BestEffort => "2" end
    else "" in
  let dur :=
    if decide (durability q <> durability default_qos) then
      match durability q with TransientLocal => "1" | Volatile => "2" end
    else "" in
  let hist :=
    match history q with
    | KeepLast depth =>
        if decide (history q <> history default_qos) then "1," ++ Z_dec depth
        else "," ++ Z_dec depth
    | KeepAll => "2,"
    end in
  let deadline := "," in
  let lifespan := "," in
  let liveliness := ",," in
  rel ++ ":" ++ dur ++ ":" ++ hist ++ ":" ++ deadline ++ ":" ++ lifespan ++ ":" ++ liveliness.

(** [QosProfile::decode]. *)
Definition decode (s : string) : res QosDecodeError QosProfile :=
  let fields := split_on ":" s in
  if (length fields <? 3)%nat then Err InvalidFormat else
  let default_qos := QosProfile_default in
  f0 ← index fields 0;
  rel ← (if String.eqb f0 "" then Ok (reliability default_qos)
         else if String.eqb f0 "1" then Ok Reliable
         else if String.eqb f0 "2" then Ok BestEffort
         else Err InvalidReliability);
  f1 ← index fields 1;
  dur ← (if String.eqb f1 "" then Ok (durability default_qos)
         else if String.eqb f1 "1" then Ok TransientLocal
         else if String.eqb f1 "2" then Ok Volatile
         else Err InvalidDurability);
  f2 ← index fields 2;
  let history_parts := split_on "," f2 in
  if (length history_parts <? 2)%nat then Err InvalidHistory else
  h0 ← index history_parts 0;
  h1 ← index history_parts 1;
  hist ← (if String.eqb h0 "" || String.eqb h0 "1" then
            depth ← ok_or (parse_usize h1) InvalidHistory; Ok (KeepLast depth)
          else if String.eqb h0 "2" then Ok KeepAll
          else Err InvalidHistory);
  Ok (mkQos rel dur hist).

(** A profile whose depth is a [usize]. *)
Definition qos_ok (q : QosProfile) : Prop := u_range 64 (QosHistory_depth (history q)).

(** ** Lemmas *)

(** The text of a decimal number between separators is one piece. *)
Lemma split_on_dec_app c n s :
  is_ascii_digit c = false -> split_on c (Z_dec n ++ String c s) = Z_dec n :: split_on c s.
Proof. intros Hc. apply split_on_app. by apply Z_dec_contains. Qed.

Lemma split_on_dec c n : is_ascii_digit c = false -> split_on c (Z_dec n) = [Z_dec n].
Proof. intros Hc. apply split_on_none. by apply Z_dec_contains. Qed.

(** The pieces of an encoding. *)
Definition reliability_field (r : QosReliability) : string :=
  match r with Reliable => "" | BestEffort => "2" end.
Definition durability_field (d : QosDurability) : string :=
  match d with Volatile => "" | TransientLocal => "1" end.
Definition history_field (h : QosHistory) : string :=
  match h with
  | KeepLast d => (if decide (d = 10%Z) then "," else "1,") ++ Z_dec d
  | KeepAll => "2,"
  end.

Lemma encode_fields q :
  encode q = reliability_field (reliability q) ++ String ":" (durability_field (durability q) ++
    String ":" (history_field (history q) ++ ":,:,:,,")).
Proof.
  assert (match history q with
    | KeepLast depth =>
        if decide (history q <> history QosProfile_default) then "1," ++ Z_dec depth
        else "," ++ Z_dec depth
    | KeepAll => "2,"
    end = history_field (history q)) as Hh.
  { unfold history_field. destruct (history q) as [d|]; [|done].
    change (history QosProfile_default) with (KeepLast 10).
    destruct (decide (d = 10%Z)) as [->|Hd].
    - rewrite decide_False; [done|]. by intros Hn.
    - by rewrite decide_True by congruence. }
  unfold encode. rewrite Hh. by destruct q as [[] [] h].
Qed.

Lemma split_history_field h :
  exists k v, split_on "," (history_field h) = [k; v] /\
    match h with
    | KeepLast d => (k = "" \/ k = "1") /\ v = Z_dec d
    | KeepAll => k = "2"
    end.
Proof.
  unfold history_field. destruct h as [d|]; [|by do 2 eexists].
  destruct (decide (d = 10%Z)).
  - exists "", (Z_dec d). split; [|by split; [left|]].
    change ("," ++ Z_dec d) with ("" ++ String "," (Z_dec d)).
    by rewrite split_on_app, split_on_dec.
  - exists "1", (Z_dec d). split; [|by split; [right|]].
    change ("1," ++ Z_dec d) with ("1" ++ String "," (Z_dec d)).
    by rewrite split_on_app, split_on_dec.
Qed.

Lemma history_field_contains c h :
  is_ascii_digit c = false -> Ascii.eqb "," c = false -> contains_char c (history_field h) = false.
Proof.
  intros Hd Hc. unfold history_field.
  assert (forall x, Ascii.eqb x c = true -> is_ascii_digit x = false) as Hx.
  { intros x Hx%Ascii.eqb_eq. by subst. }
  destruct h as [d|].
  - rewrite contains_char_app, Z_dec_contains, orb_false_r by done.
    destruct (decide (d = 10%Z)); cbn [contains_char]; rewrite Hc, ?orb_false_r; [done|].
    destruct (Ascii.eqb "1" c) eqn:E; [|done]. by apply Hx in E.
  - cbn [contains_char]. rewrite Hc, !orb_false_r.
    destruct (Ascii.eqb "2" c) eqn:E; [|done]. by apply Hx in E.
Qed.

(** An encoding is one chunk of a key expression. *)
Lemma encode_no_slash q : contains_char "/" (encode q) = false.
Proof.
  rewrite encode_fields.
  destruct q as [[] [] h]; cbn [reliability_field durability_field append reliability durability history
    contains_char orb]; rewrite contains_char_app, history_field_contains; done.
Qed.

Lemma decode_encode q : qos_ok q -> decode (encode q) = Ok q.
Proof.
  intros Hq. rewrite encode_fields. unfold decode.
  rewrite split_on_app by (by destruct q as [[] ? ?]).
  rewrite split_on_app by (by destruct q as [? [] ?]).
  rewrite (split_on_app ":" (history_field (history q))) by (by apply history_field_contains).
  cbn [length Nat.ltb Nat.leb index lookup list_lookup unwrap mbind res_bind].
  destruct (split_history_field (history q)) as (k & v & Hs & Hh). rewrite Hs.
  destruct q as [r d [n|]]; destruct r, d; cbn in *.
  all: lazymatch type of Hh with
    | _ /\ _ => destruct Hh as [[-> | ->] ->]; cbn; by rewrite parse_usize_Z_dec
    | _ => by subst
    end.
Qed.

(** ** Properties *)

(** QoS round trip: every profile whose depth is a [usize] decodes from its
    own encoding, so a publisher's QoS survives its liveliness token. *)
Theorem qos_decode_encode q : qos_ok q -> decode (encode q) = Ok q.
Proof. apply decode_encode. Qed.

Lemma qos_decode_encode_witness :
  decode (encode (mkQos BestEffort TransientLocal (KeepLast 7))) =
    Ok (mkQos BestEffort TransientLocal (KeepLast 7)).
Proof. apply qos_decode_encode. unfold qos_ok, u_range. cbn. lia. Defined.
