(* ===== verification/ProfileQos.v ===== *)
(** * The QoS profile of the library (crates/ros-z/src/qos.rs)

    The profile users give to publishers and subscriptions, with its durations
    and liveliness; its text form, which is the one of rmw_zenoh, its
    [encode]/[decode] and the conversion to the profile of ros-z-protocol
    (file Qos.v), whose own [decode] reads the same texts.  [usize] and [u64]
    are 64 bits wide; a [NonZeroUsize] is a positive number. *)
From S2P Require Import Prelude Utf8 RustStr Qos.
Open Scope string_scope.

(** ** Definitions *)

(** The policies, with their defaults and [Display]. *)
Inductive QosReliability := Reliable | BestEffort.
Inductive QosHistory := KeepLast (depth : Z) | KeepAll.
Inductive QosDurability := TransientLocal | Volatile.
Inductive QosLiveliness := Automatic | ManualByNode | ManualByTopic.

#[export] Instance ZQosReliability_eq_dec : EqDecision QosReliability.
Proof. solve_decision. Defined.
#[export] Instance ZQosHistory_eq_dec : EqDecision QosHistory.
Proof. solve_decision. Defined.
#[export] Instance ZQosDurability_eq_dec : EqDecision QosDurability.
Proof. solve_decision. Defined.
#[export] Instance ZQosLiveliness_eq_dec : EqDecision QosLiveliness.
Proof. solve_decision. Defined.

Definition DEFAULT_HISTORY_DEPTH : Z := 10.
Definition QosHistory_default : QosHistory := KeepLast DEFAULT_HISTORY_DEPTH.
Definition from_depth (depth : Z) : QosHistory :=
  KeepLast (if depth =? 0 then DEFAULT_HISTORY_DEPTH else depth)%Z.

Definition QosReliability_fmt (r : QosReliability) : string :=
  match r with Reliable => "Reliable" | BestEffort => "Best Effort" end.
Definition QosHistory_fmt (h : QosHistory) : string :=
  match h with KeepLast depth => "Keep Last (" ++ Z_dec depth ++ ")" | KeepAll => "Keep All" end.
Definition QosDurability_fmt (d : QosDurability) : string :=
  match d with TransientLocal => "Transient Local" | Volatile => "Volatile" end.
Definition QosLiveliness_fmt (l : QosLiveliness) : string :=
  match l with
  | Automatic => "Automatic" | ManualByNode => "Manual by Node" | ManualByTopic => "Manual by Topic"
  end.

(** [struct Duration]. *)
Record Duration := mkDuration { sec : Z; nsec : Z }.
#[export] Instance Duration_eq_dec : EqDecision Duration.
Proof. solve_decision. Defined.
Definition INFINITE : Duration := mkDuration 9223372036 854775807.
Definition Duration_fmt (d : Duration) : string :=
  if decide (d = INFINITE) then "Infinite"
  else if (nsec d =? 0)%Z then Z_dec (sec d) ++ "s"
  else Z_dec (sec d) ++ "s " ++ Z_dec (nsec d) ++ "ns".

(** [struct QosProfile]. *)
Record QosProfile := mkProfile {
  reliability : QosReliability;
  durability : QosDurability;
  history : QosHistory;
  deadline : Duration;
  lifespan : Duration;
  liveliness : QosLiveliness;
  liveliness_lease_duration : Duration;
}.
Definition QosProfile_default : QosProfile :=
  mkProfile Reliable Volatile QosHistory_default INFINITE INFINITE Automatic INFINITE.

Definition to_protocol_qos (q : QosProfile) : Qos.QosProfile :=
  mkQos
    match reliability q with Reliable => Qos.Reliable | BestEffort => Qos.BestEffort end
    match durability q with TransientLocal => Qos.TransientLocal | Volatile => Qos.Volatile end
    match history q with KeepLast depth => Qos.KeepLast depth | KeepAll => Qos.KeepAll end.

Definition QosProfile_fmt (q : QosProfile) : string :=
  "QoS(" ++ QosReliability_fmt (reliability q) ++ ", " ++ QosDurability_fmt (durability q) ++ ", "
    ++ QosHistory_fmt (history q)
    ++ (if decide (deadline q <> INFINITE) then ", deadline=" ++ Duration_fmt (deadline q) else "")
    ++ (if decide (lifespan q <> INFINITE) then ", lifespan=" ++ Duration_fmt (lifespan q) else "")
    ++ (if decide (liveliness q <> Automatic) then ", liveliness=" ++ QosLiveliness_fmt (liveliness q) else "")
    ++ (if decide (liveliness_lease_duration q <> INFINITE)
        then ", lease=" ++ Duration_fmt (liveliness_lease_duration q) else "")
    ++ ")".

(** [enum QosDecodeError]. *)
Inductive QosDecodeError :=
  IncompleteQos | InvalidReliability | InvalidDurability | InvalidHistory | InvalidHistoryDepth.
Definition QosDecodeError_fmt (e : QosDecodeError) : string :=
  match e with
  | IncompleteQos => "Incomplete QoS string"
  | InvalidReliability => "Invalid reliability value in QoS"
  | InvalidDurability => "Invalid durability value in QoS"
  | InvalidHistory => "Invalid history value in QoS"
  | InvalidHistoryDepth => "Invalid history depth value in QoS"
  end.

(** [QosProfile::encode]. *)
Definition encode_duration (d : Duration) : string :=
  if decide (d <> INFINITE) then Z_dec (sec d) ++ "," ++ Z_dec (nsec d) else ",".
Definition encode (q : QosProfile) : string :=
  let default_qos := QosProfile_default in
  let rel :=
    if decide (reliability q <> reliability default_qos) then
      match reliability q with Reliable => "1" | BestEffort => "2" end
    else "" in
  let dur :=
    if decide (durability q <> durability default_qos) then
      match durability q with TransientLocal => "1" | Volatile => "2" end
    else "" in
  let hist :=
    match history q with
    | KeepLast depth =>
        if decide (history q <> history default_qos) then "1," ++ Z_dec depth else "," ++ Z_dec depth
    | KeepAll => "2,"
    end in
  let live :=
    if decide (liveliness q <> liveliness default_qos \/
               liveliness_lease_duration q <> liveliness_lease_duration default_qos) then
      match liveliness q with Automatic => "1" | ManualByNode => "2" | ManualByTopic => "3" end
        ++ "," ++ Z_dec (sec (liveliness_lease_duration q)) ++ "," ++ Z_dec (nsec (liveliness_lease_duration q))
    else ",," in
  rel ++ ":" ++ dur ++ ":" ++ hist ++ ":" ++ encode_duration (deadline q) ++ ":"
    ++ encode_duration (lifespan q) ++ ":" ++ live.

(** [QosProfile::decode]: the parts of the fields, [iter.next().unwrap_or("")]. *)
Definition part (l : list string) (n : nat) : string := nth n l "".
Definition parse_duration (s n : string) : Duration :=
  mkDuration (default (sec INFINITE) (parse_usize s)) (default (nsec INFINITE) (parse_usize n)).
Definition decode_history (x : string) : res QosDecodeError QosHistory :=
  if String.eqb x "," || String.eqb x "" then Ok QosHistory_default else
  match split_on "," x with
  | kind :: d :: _ =>
      if String.eqb kind "" || String.eqb kind "0" || String.eqb kind "1" then
        depth_usize ← ok_or (parse_usize d) InvalidHistory;
        if (depth_usize =? 0)%Z then Err InvalidHistoryDepth else Ok (KeepLast depth_usize)
      else if String.eqb kind "2" then Ok KeepAll
      else Err InvalidHistory
  | _ => Err IncompleteQos
  end.
Definition decode_duration (field : option string) : Duration :=
  match field with
  | Some x =>
      if String.eqb x "" || String.eqb x "," then INFINITE
      else let parts := split_on "," x in parse_duration (part parts 0) (part parts 1)
  | None => INFINITE
  end.
Definition decode_liveliness (field : option string) : QosLiveliness * Duration :=
  match field with
  | Some x =>
      if String.eqb x "" || String.eqb x ",," then (Automatic, INFINITE)
      else
        let parts := split_on "," x in
        let kind := part parts 0 in
        (if String.eqb kind "2" then ManualByNode
         else if String.eqb kind "3" then ManualByTopic else Automatic,
         parse_duration (part parts 1) (part parts 2))
  | None => (Automatic, INFINITE)
  end.
Definition decode (encoded : string) : res QosDecodeError QosProfile :=
  let fields := split_on ":" encoded in
  x ← ok_or (fields !! 0%nat) IncompleteQos;
  rel ← (if String.eqb x "0" || String.eqb x "" then Ok Reliable
         else if String.eqb x "1" then Ok Reliable
         else if String.eqb x "2" then Ok BestEffort
         else Err InvalidReliability);
  x ← ok_or (fields !! 1%nat) IncompleteQos;
  dur ← (if String.eqb x "0" || String.eqb x "" then Ok Volatile
         else if String.eqb x "1" then Ok TransientLocal
         else if String.eqb x "2" then Ok Volatile
         else Err InvalidDurability);
  x ← ok_or (fields !! 2%nat) IncompleteQos;
  hist ← decode_history x;
  let '(live, lease) := decode_liveliness (fields !! 5%nat) in
  Ok (mkProfile rel dur hist (decode_duration (fields !! 3%nat)) (decode_duration (fields !! 4%nat)) live lease).

(** The values of the types: a [NonZeroUsize] depth and [u64] durations. *)
Definition duration_ok (d : Duration) : Prop := u_range 64 (sec d) /\ u_range 64 (nsec d).
Definition depth_ok (h : QosHistory) : Prop :=
  match h with KeepLast d => (0 < d < 2 ^ 64)%Z | KeepAll => True end.
Definition profile_ok (q : QosProfile) : Prop :=
  depth_ok (history q) /\ duration_ok (deadline q) /\ duration_ok (lifespan q) /\
  duration_ok (liveliness_lease_duration q).

(** ** Lemmas *)

(** The pieces of an encoding. *)
Definition reliability_field (r : QosReliability) : string :=
  match r with Reliable => "" | BestEffort => "2" end.
Definition durability_field (d : QosDurability) : string :=
  match d with Volatile => "" | TransientLocal => "1" end.
Definition history_field (h : QosHistory) : string :=
  match h with
  | KeepLast d => (if decide (d = 10%Z) then "," else "1,") ++ Z_dec d
  | KeepAll => "2,"
  end.
Definition liveliness_field (l : QosLiveliness) (d : Duration) : string :=
  if decide (l = Automatic /\ d = INFINITE) then ",," else
  match l with Automatic => "1" | ManualByNode => "2" | ManualByTopic => "3" end
    ++ String "," (Z_dec (sec d) ++ String "," (Z_dec (nsec d))).

Lemma profile_encode_fields q :
  encode q = reliability_field (reliability q) ++ String ":" (durability_field (durability q) ++
    String ":" (history_field (history q) ++ String ":" (encode_duration (deadline q) ++
    String ":" (encode_duration (lifespan q) ++
    String ":" (liveliness_field (liveliness q) (liveliness_lease_duration q)))))).
Proof.
  assert (match history q with
    | KeepLast depth =>
        if decide (history q <> history QosProfile_default) then "1," ++ Z_dec depth else "," ++ Z_dec depth
    | KeepAll => "2,"
    end = history_field (history q)) as Hh.
  { unfold history_field. destruct (history q) as [d|]; [|done].
    change (history QosProfile_default) with (KeepLast 10).
    destruct (decide (d = 10%Z)) as [->|Hd]; [rewrite decide_False by (by intros Hn)|rewrite decide_True by congruence]; done. }
  assert ((if decide (liveliness q <> Automatic \/ liveliness_lease_duration q <> INFINITE) then
      match liveliness q with Automatic => "1" | ManualByNode => "2" | ManualByTopic => "3" end
        ++ "," ++ Z_dec (sec (liveliness_lease_duration q)) ++ "," ++ Z_dec (nsec (liveliness_lease_duration q))
    else ",,") = liveliness_field (liveliness q) (liveliness_lease_duration q)) as Hl.
  { unfold liveliness_field.
    destruct (decide (liveliness q = Automatic /\ liveliness_lease_duration q = INFINITE)) as [[E1 E2]|Hn].
    - rewrite decide_False by (by intros [?|?]). done.
    - rewrite decide_True; [done|].
      destruct (decide (liveliness q = Automatic)), (decide (liveliness_lease_duration q = INFINITE)); tauto. }
  unfold encode. rewrite Hh. cbn [liveliness liveliness_lease_duration QosProfile_default]. rewrite Hl.
  by destruct q as [[] [] ?].
Qed.

(** Fields of digits, separators aside, hold no other character. *)
Lemma duration_field_contains c d :
  is_ascii_digit c = false -> Ascii.eqb "," c = false -> contains_char c (encode_duration d) = false.
Proof.
  intros Hd Hc. unfold encode_duration. case_decide.
  - by rewrite !contains_char_app, !Z_dec_contains; cbn [contains_char]; rewrite ?Hc.
  - cbn [contains_char]. by rewrite Hc.
Qed.
Lemma profile_history_field_contains h : contains_char ":" (history_field h) = false.
Proof.
  destruct h as [d|]; [|done]. unfold history_field.
  rewrite contains_char_app, Z_dec_contains, orb_false_r by done. by case_decide.
Qed.
Lemma liveliness_field_contains l d : contains_char ":" (liveliness_field l d) = false.
Proof.
  unfold liveliness_field. case_decide; [done|].
  rewrite !contains_char_app. cbn [contains_char]. rewrite contains_char_app. cbn [contains_char].
  rewrite !Z_dec_contains by done. by destruct l.
Qed.

(** An encoding has its six fields. *)
Lemma split_encoding q :
  split_on ":" (encode q) = [reliability_field (reliability q); durability_field (durability q);
    history_field (history q); encode_duration (deadline q); encode_duration (lifespan q);
    liveliness_field (liveliness q) (liveliness_lease_duration q)].
Proof.
  rewrite profile_encode_fields, !split_on_app, split_on_none; auto using profile_history_field_contains,
    liveliness_field_contains, duration_field_contains.
  - by destruct q as [? []].
  - by destruct q as [[]].
Qed.

Lemma parse_duration_Z_dec d : duration_ok d -> parse_duration (Z_dec (sec d)) (Z_dec (nsec d)) = d.
Proof.
  intros [Hs Hn]. unfold parse_duration. rewrite !parse_usize_Z_dec by done. by destruct d.
Qed.

Lemma app_comma_eqb a b c : Ascii.eqb c "," = false -> String.eqb (String c (a ++ b)) "," = false.
Proof. cbn. by intros ->. Qed.

(** The first character of a decimal number is a digit. *)
Lemma Z_dec_cons n : exists c s, Z_dec n = String c s /\ is_ascii_digit c = true.
Proof.
  pose proof (Z_dec_digits n) as H. unfold Z_dec in *. destruct (N.to_uint (Z.to_N n)).
  1: by do 2 eexists. all: do 2 eexists; split; [done|]. all: by cbn in H |- *.
Qed.

Lemma decode_encode_duration d : duration_ok d -> decode_duration (Some (encode_duration d)) = d.
Proof.
  intros Hd. unfold encode_duration. destruct (decide (d = INFINITE)) as [->|Hi]; [done|].
  rewrite decide_True by done.
  unfold decode_duration. destruct (Z_dec_cons (sec d)) as (c & s & Hz & Hc).
  assert (String.eqb (Z_dec (sec d) ++ "," ++ Z_dec (nsec d)) "," = false) as ->.
  { rewrite Hz. cbn [append String.eqb]. destruct (Ascii.eqb_spec c ","); [by subst|done]. }
  assert (String.eqb (Z_dec (sec d) ++ "," ++ Z_dec (nsec d)) "" = false) as -> by (by rewrite Hz).
  cbn [orb]. change ("," ++ Z_dec (nsec d)) with (String "," (Z_dec (nsec d))).
  rewrite split_on_dec_app, split_on_dec by done. by apply parse_duration_Z_dec.
Qed.

Lemma decode_liveliness_field l d :
  duration_ok d -> decode_liveliness (Some (liveliness_field l d)) = (l, d).
Proof.
  intros Hd. unfold liveliness_field. case_decide as Hi; [by destruct Hi as [-> ->]|].
  assert (forall k kind, k <> "" -> contains_char "," k = false ->
    (if String.eqb k "2" then ManualByNode else if String.eqb k "3" then ManualByTopic else Automatic) = kind ->
    decode_liveliness (Some (k ++ String "," (Z_dec (sec d) ++ String "," (Z_dec (nsec d))))) = (kind, d)) as Hk.
  { intros k kind Hne Hc <-. unfold decode_liveliness.
    assert (String.eqb (k ++ String "," (Z_dec (sec d) ++ String "," (Z_dec (nsec d)))) "" = false) as ->
      by (by destruct k).
    assert (String.eqb (k ++ String "," (Z_dec (sec d) ++ String "," (Z_dec (nsec d)))) ",," = false) as ->.
    { destruct k as [|a k]; [done|]. cbn [append String.eqb contains_char] in *.
      apply orb_false_iff in Hc as [Hc _]. by rewrite Hc. }
    cbn [orb]. rewrite split_on_app, split_on_dec_app, split_on_dec by done.
    cbn [part nth]. by rewrite parse_duration_Z_dec. }
  by destruct l; apply Hk.
Qed.

Lemma decode_history_field h : depth_ok h -> decode_history (history_field h) = Ok h.
Proof.
  destruct h as [d|]; [|done]. intros Hd. unfold history_field, decode_history.
  destruct (Z_dec_cons d) as (c & s & Hz & _).
  assert (String.eqb ((if decide (d = 10%Z) then "," else "1,") ++ Z_dec d) "," = false) as ->
    by (rewrite Hz; by case_decide).
  assert (String.eqb ((if decide (d = 10%Z) then "," else "1,") ++ Z_dec d) "" = false) as -> by (by case_decide).
  cbn [orb]. assert (exists k, split_on "," ((if decide (d = 10%Z) then "," else "1,") ++ Z_dec d) = [k; Z_dec d] /\
    String.eqb k "" || String.eqb k "0" || String.eqb k "1" = true) as (k & -> & ->).
  { case_decide; [exists ""|exists "1"]; (split; [|done]).
    - change ("," ++ Z_dec d) with ("" ++ String "," (Z_dec d)). by rewrite split_on_app, split_on_dec.
    - change ("1," ++ Z_dec d) with ("1" ++ String "," (Z_dec d)). by rewrite split_on_app, split_on_dec. }
  rewrite parse_usize_Z_dec by (cbn in Hd; lia). cbn [ok_or mbind res_bind].
  destruct (Z.eqb_spec d 0); [cbn in Hd; lia|done].
Qed.

Lemma profile_decode_encode q : profile_ok q -> decode (encode q) = Ok q.
Proof.
  intros (Hh & Hd & Hs & Hl). unfold decode. rewrite split_encoding.
  cbn [lookup list_lookup ok_or mbind res_bind].
  rewrite decode_history_field, decode_liveliness_field, !decode_encode_duration by done.
  by destruct q as [[] []].
Qed.

(** The texts are those that ros-z-protocol reads: it drops the durations and
    the liveliness. *)
Lemma protocol_decode_encode q : profile_ok q -> Qos.decode (encode q) = Ok (to_protocol_qos q).
Proof.
  intros (Hh & _). unfold Qos.decode. rewrite split_encoding.
  cbn [length Nat.ltb Nat.leb index lookup list_lookup unwrap mbind res_bind].
  assert (history_field (history q) = Qos.history_field (Qos.history (to_protocol_qos q))) as -> by (by destruct q as [? ? []]).
  destruct (split_history_field (Qos.history (to_protocol_qos q))) as (k & v & Hs & Hf). rewrite Hs.
  destruct q as [r d [n|]]; destruct r, d; cbn in *.
  all: lazymatch type of Hf with
    | _ /\ _ => destruct Hf as [[-> | ->] ->]; cbn; rewrite parse_usize_Z_dec by lia; done
    | _ => by subst
    end.
Qed.

(** ** Properties *)

(** A profile survives its text: with a positive depth and [u64] durations,
    [decode] gives back the profile that [encode] wrote, and the decoder of
    ros-z-protocol reads the same text as the profile that [to_protocol_qos]
    puts into key expressions; no two such profiles share a text. *)
Theorem profile_text_roundtrip q :
  profile_ok q ->
  decode (encode q) = Ok q /\ Qos.decode (encode q) = Ok (to_protocol_qos q) /\
  forall q', profile_ok q' -> encode q' = encode q -> q' = q.
Proof.
  intros Hq. split; [by apply profile_decode_encode|]. split; [by apply protocol_decode_encode|].
  intros q' Hq' He. apply (f_equal decode) in He. rewrite !profile_decode_encode in He by done. congruence.
Qed.

Lemma profile_text_roundtrip_witness :
  let q := mkProfile BestEffort TransientLocal (KeepLast 7) (mkDuration 1 5) INFINITE ManualByTopic (mkDuration 3 0) in
  decode (encode q) = Ok q.
Proof.
  apply profile_text_roundtrip. unfold profile_ok, duration_ok, depth_ok, u_range. cbn. lia.
Defined.
