(* ===== verification/RmwQos.v ===== *)
(** * The QoS of the RMW layer (crates/rmw-zenoh-rs/src/qos.rs)

    The conversions between the library's profile and the C profile of the ROS
    middleware interface, and the checks of compatibility between a publisher
    and a subscription.  The policies of the C profile are [u32] constants of
    src/bindings.rs; any number is a value of theirs. *)
From S2P Require Import Prelude Utf8 RustStr Qos ProfileQos.
Open Scope Z_scope.

(** ** Definitions *)

(** Constants of src/bindings.rs. *)
Definition RELIABILITY_RELIABLE : Z := 1.
Definition RELIABILITY_BEST_EFFORT : Z := 2.
Definition HISTORY_KEEP_LAST : Z := 1.
Definition HISTORY_KEEP_ALL : Z := 2.
Definition DURABILITY_TRANSIENT_LOCAL : Z := 1.
Definition DURABILITY_VOLATILE : Z := 2.
Definition LIVELINESS_AUTOMATIC : Z := 1.
Definition LIVELINESS_MANUAL_BY_TOPIC : Z := 3.
Definition POLICY_DURABILITY : Z := 2.
Definition POLICY_DEADLINE : Z := 4.
Definition POLICY_LIVELINESS : Z := 8.
Definition POLICY_RELIABILITY : Z := 16.

(** [rmw_qos_profile_t]; [rmw_time_t] is a pair of [u64]. *)
Record rmw_qos_profile_t := mkRmw {
  rmw_history : Z; rmw_depth : Z; rmw_reliability : Z; rmw_durability : Z;
  rmw_deadline : Duration; rmw_lifespan : Duration;
  rmw_liveliness : Z; rmw_lease : Duration;
  avoid_ros_namespace_conventions : bool;
}.

Definition normalize_rmw_qos (qos : rmw_qos_profile_t) : rmw_qos_profile_t :=
  if (rmw_history qos =? HISTORY_KEEP_LAST)%Z && (rmw_depth qos =? 0)%Z then
    mkRmw (rmw_history qos) DEFAULT_HISTORY_DEPTH (rmw_reliability qos) (rmw_durability qos) (rmw_deadline qos)
      (rmw_lifespan qos) (rmw_liveliness qos) (rmw_lease qos) (avoid_ros_namespace_conventions qos)
  else qos.

Inductive rmw_qos_compatibility_type_t := COMPATIBILITY_OK | COMPATIBILITY_WARNING | COMPATIBILITY_ERROR.

(** [rmw_qos_profile_check_compatible], with pointers that are not null: the
    only call in the crate passes a null [reason] of size 0. *)
Definition rmw_qos_profile_check_compatible (publisher_profile subscription_profile : rmw_qos_profile_t)
    : rmw_qos_compatibility_type_t :=
  if (rmw_durability publisher_profile =? DURABILITY_TRANSIENT_LOCAL)%Z
     && (rmw_durability subscription_profile =? DURABILITY_VOLATILE)%Z
  then COMPATIBILITY_WARNING else COMPATIBILITY_OK.
Definition qos_profiles_are_compatible (pub_qos sub_qos : rmw_qos_profile_t) : bool :=
  match rmw_qos_profile_check_compatible pub_qos sub_qos with COMPATIBILITY_ERROR => false | _ => true end.

(** [sec as i64 * 1_000_000_000 + nsec as i64]: a build with overflow checks
    panics where one without wraps. *)
Definition checked_i64 {E} (overflow_checks : bool) (x : Z) : res E Z :=
  if decide (wrap_i 64 x = x) then Ok x else if overflow_checks then Panic else Ok (wrap_i 64 x).
Definition duration_ns {E} (overflow_checks : bool) (d : Duration) : res E Z :=
  s ← checked_i64 overflow_checks (wrap_i 64 (sec d) * 1000000000);
  checked_i64 overflow_checks (s + wrap_i 64 (nsec d)).
Definition longer (pub_ns sub_ns : Z) : bool :=
  (0 <? sub_ns)%Z && (0 <? pub_ns)%Z && (sub_ns <? pub_ns)%Z.
Definition check_qos_compatibility_with_policy {E} (overflow_checks : bool)
    (pub_qos sub_qos : rmw_qos_profile_t) : res E (bool * Z) :=
  if (rmw_reliability pub_qos =? RELIABILITY_BEST_EFFORT)%Z
     && (rmw_reliability sub_qos =? RELIABILITY_RELIABLE)%Z then Ok (false, POLICY_RELIABILITY) else
  if (rmw_durability pub_qos =? DURABILITY_VOLATILE)%Z
     && (rmw_durability sub_qos =? DURABILITY_TRANSIENT_LOCAL)%Z then Ok (false, POLICY_DURABILITY) else
  pub_deadline_ns ← duration_ns overflow_checks (rmw_deadline pub_qos);
  sub_deadline_ns ← duration_ns overflow_checks (rmw_deadline sub_qos);
  if longer pub_deadline_ns sub_deadline_ns then Ok (false, POLICY_DEADLINE) else
  if negb (rmw_liveliness pub_qos =? rmw_liveliness sub_qos)%Z
     && (rmw_liveliness pub_qos <? rmw_liveliness sub_qos)%Z then Ok (false, POLICY_LIVELINESS) else
  pub_lease_ns ← duration_ns overflow_checks (rmw_lease pub_qos);
  sub_lease_ns ← duration_ns overflow_checks (rmw_lease sub_qos);
  if longer pub_lease_ns sub_lease_ns then Ok (false, POLICY_LIVELINESS) else
  Ok (true, 0%Z).

Definition ros_z_qos_to_rmw_qos (qos : QosProfile) : rmw_qos_profile_t :=
  let '(h, d) := match history qos with
                 | KeepLast n => (HISTORY_KEEP_LAST, n)
                 | KeepAll => (HISTORY_KEEP_ALL, 0%Z)
                 end in
  mkRmw h d
    match reliability qos with Reliable => RELIABILITY_RELIABLE | BestEffort => RELIABILITY_BEST_EFFORT end
    match durability qos with TransientLocal => DURABILITY_TRANSIENT_LOCAL | Volatile => DURABILITY_VOLATILE end
    (deadline qos) (lifespan qos)
    match liveliness qos with
    | Automatic => LIVELINESS_AUTOMATIC
    | ManualByNode => LIVELINESS_MANUAL_BY_TOPIC
    | ManualByTopic => LIVELINESS_MANUAL_BY_TOPIC
    end
    (liveliness_lease_duration qos) false.
Definition rmw_qos_to_ros_z_qos (qos : rmw_qos_profile_t) : QosProfile :=
  mkProfile
    (if rmw_reliability qos =? RELIABILITY_RELIABLE then Reliable
     else if rmw_reliability qos =? RELIABILITY_BEST_EFFORT then BestEffort else Reliable)%Z
    (if rmw_durability qos =? DURABILITY_TRANSIENT_LOCAL then TransientLocal
     else if rmw_durability qos =? DURABILITY_VOLATILE then Volatile else Volatile)%Z
    (if rmw_history qos =? HISTORY_KEEP_LAST then from_depth (rmw_depth qos)
     else if rmw_history qos =? HISTORY_KEEP_ALL then KeepAll else QosHistory_default)%Z
    (rmw_deadline qos) (rmw_lifespan qos)
    (if rmw_liveliness qos =? LIVELINESS_AUTOMATIC then Automatic
     else if rmw_liveliness qos =? LIVELINESS_MANUAL_BY_TOPIC then ManualByTopic else Automatic)%Z
    (rmw_lease qos).

(** [protocol_qos_to_ros_z_qos] of src/pubsub.rs: the profile of an endpoint of
    the graph, with the default durations and liveliness. *)
Definition protocol_qos_to_ros_z_qos (qos : Qos.QosProfile) : QosProfile :=
  mkProfile
    match Qos.reliability qos with Qos.Reliable => Reliable | Qos.BestEffort => BestEffort end
    match Qos.durability qos with Qos.TransientLocal => TransientLocal | Qos.Volatile => Volatile end
    match Qos.history qos with Qos.KeepLast depth => from_depth depth | Qos.KeepAll => KeepAll end
    INFINITE INFINITE Automatic INFINITE.

(** ** Lemmas *)

(** The value of a duration that fits in an [i64] of nanoseconds. *)
Definition ns (d : Duration) : Z := sec d * 1000000000 + nsec d.
Definition ns_ok (d : Duration) : Prop := 0 <= sec d /\ 0 <= nsec d /\ ns d < 2 ^ 63.

Lemma wrap_i_small z : 0 <= z < 2 ^ 63 -> wrap_i 64 z = z.
Proof. intros Hz. unfold wrap_i. rewrite Z.mod_small by lia. lia. Qed.

Lemma checked_i64_small {E} o z : 0 <= z < 2 ^ 63 -> checked_i64 (E := E) o z = Ok z.
Proof. intros Hz. unfold checked_i64. by rewrite wrap_i_small, decide_True. Qed.

Lemma duration_ns_ok {E} o d : ns_ok d -> duration_ns (E := E) o d = Ok (ns d).
Proof.
  intros (Hs & Hn & Hd). unfold duration_ns, ns in *.
  rewrite !wrap_i_small, checked_i64_small by lia. cbn [mbind res_bind]. by rewrite checked_i64_small by lia.
Qed.

(** What the subscription asks for and the publisher offers. A duration of zero
    asks for, or says, nothing. *)
Definition within (offered requested : Duration) : Prop :=
  ns offered = 0 \/ ns requested = 0 \/ ns offered <= ns requested.
Definition level (l : QosLiveliness) : Z := match l with Automatic => 0 | _ => 1 end.
Definition policy_satisfied (p s : QosProfile) (policy : Z) : Prop :=
  (policy = POLICY_RELIABILITY -> reliability s = Reliable -> reliability p = Reliable) /\
  (policy = POLICY_DURABILITY -> durability s = TransientLocal -> durability p = TransientLocal) /\
  (policy = POLICY_DEADLINE -> within (deadline p) (deadline s)) /\
  (policy = POLICY_LIVELINESS -> level (liveliness s) <= level (liveliness p) /\
     within (liveliness_lease_duration p) (liveliness_lease_duration s)).
Definition durations_ok (q : QosProfile) : Prop := ns_ok (deadline q) /\ ns_ok (liveliness_lease_duration q).

Lemma longer_within d d' : ns_ok d -> ns_ok d' -> longer (ns d) (ns d') = false <-> within d d'.
Proof.
  intros (? & ? & _) (? & ? & _). assert (0 <= ns d /\ 0 <= ns d') as [] by (unfold ns; lia).
  unfold longer, within. destruct (Z.ltb_spec 0 (ns d')), (Z.ltb_spec 0 (ns d)), (Z.ltb_spec (ns d') (ns d)); cbn;
    intuition (lia || discriminate).
Qed.

Lemma ros_z_rmw_roundtrip q :
  depth_ok (history q) ->
  rmw_qos_to_ros_z_qos (ros_z_qos_to_rmw_qos q) =
    mkProfile (reliability q) (durability q) (history q) (deadline q) (lifespan q)
      match liveliness q with ManualByNode => ManualByTopic | l => l end (liveliness_lease_duration q).
Proof.
  destruct q as [[] [] [d|] ? ? [] ?]; intros Hd; cbn in Hd; unfold rmw_qos_to_ros_z_qos, ros_z_qos_to_rmw_qos,
    from_depth; cbn; try (destruct (Z.eqb_spec d 0); [lia|]); done.
Qed.

(** A depth of 0 stands for the default, before or after the conversion. *)
Lemma normalize_same q : rmw_qos_to_ros_z_qos (normalize_rmw_qos q) = rmw_qos_to_ros_z_qos q.
Proof.
  unfold normalize_rmw_qos. destruct (Z.eqb_spec (rmw_history q) HISTORY_KEEP_LAST) as [Hh|]; [|done].
  destruct (Z.eqb_spec (rmw_depth q) 0) as [Hd|]; [|done]. cbn [andb].
  unfold rmw_qos_to_ros_z_qos. cbn. by rewrite Hh, Hd.
Qed.

(** ** Properties *)

(** The four policies between two C profiles, as the check compares them: a
    policy is refused on its two named values only, liveliness as a number. *)
Definition rmw_satisfied (p s : rmw_qos_profile_t) (policy : Z) : Prop :=
  (policy = POLICY_RELIABILITY ->
     ~ (rmw_reliability p = RELIABILITY_BEST_EFFORT /\ rmw_reliability s = RELIABILITY_RELIABLE)) /\
  (policy = POLICY_DURABILITY ->
     ~ (rmw_durability p = DURABILITY_VOLATILE /\ rmw_durability s = DURABILITY_TRANSIENT_LOCAL)) /\
  (policy = POLICY_DEADLINE -> within (rmw_deadline p) (rmw_deadline s)) /\
  (policy = POLICY_LIVELINESS -> rmw_liveliness s <= rmw_liveliness p /\ within (rmw_lease p) (rmw_lease s)).
Definition rmw_durations_ok (q : rmw_qos_profile_t) : Prop := ns_ok (rmw_deadline q) /\ ns_ok (rmw_lease q).

(** A profile whose policies have the values with a counterpart in [QosProfile]. *)
Definition named_policies (q : rmw_qos_profile_t) : Prop :=
  rmw_reliability q ∈ [RELIABILITY_RELIABLE; RELIABILITY_BEST_EFFORT] /\
  rmw_durability q ∈ [DURABILITY_TRANSIENT_LOCAL; DURABILITY_VOLATILE] /\
  rmw_liveliness q ∈ [LIVELINESS_AUTOMATIC; LIVELINESS_MANUAL_BY_TOPIC].

Lemma check_raw {E} o p s :
  rmw_durations_ok p -> rmw_durations_ok s ->
  check_qos_compatibility_with_policy (E := E) o p s =
    Ok (if bool_decide (rmw_reliability p = RELIABILITY_BEST_EFFORT /\ rmw_reliability s = RELIABILITY_RELIABLE)
        then (false, POLICY_RELIABILITY)
        else if bool_decide (rmw_durability p = DURABILITY_VOLATILE /\ rmw_durability s = DURABILITY_TRANSIENT_LOCAL)
        then (false, POLICY_DURABILITY)
        else if longer (ns (rmw_deadline p)) (ns (rmw_deadline s)) then (false, POLICY_DEADLINE)
        else if rmw_liveliness p <? rmw_liveliness s then (false, POLICY_LIVELINESS)
        else if longer (ns (rmw_lease p)) (ns (rmw_lease s)) then (false, POLICY_LIVELINESS)
        else (true, 0)).
Proof.
  intros [Hp1 Hp2] [Hs1 Hs2]. unfold check_qos_compatibility_with_policy.
  rewrite !duration_ns_ok by done. cbn [mbind res_bind].
  assert (forall a b c d : Z, bool_decide (a = c /\ b = d) = (a =? c) && (b =? d)) as Hb.
  { intros a b c d. destruct (Z.eqb_spec a c), (Z.eqb_spec b d); case_bool_decide; tauto. }
  rewrite !Hb.
  assert (negb (rmw_liveliness p =? rmw_liveliness s) && (rmw_liveliness p <? rmw_liveliness s) =
    (rmw_liveliness p <? rmw_liveliness s)) as ->
    by (destruct (Z.eqb_spec (rmw_liveliness p) (rmw_liveliness s)), (Z.ltb_spec (rmw_liveliness p) (rmw_liveliness s)); done || lia).
  by repeat case_match.
Qed.

(** On named policies the rules are those of the profiles the endpoints get. *)
Lemma named_satisfied p s policy :
  named_policies p -> named_policies s ->
  rmw_satisfied p s policy <-> policy_satisfied (rmw_qos_to_ros_z_qos p) (rmw_qos_to_ros_z_qos s) policy.
Proof.
  intros (P1 & P2 & P3) (S1 & S2 & S3). unfold rmw_satisfied, policy_satisfied, rmw_qos_to_ros_z_qos.
  cbn [reliability durability deadline liveliness liveliness_lease_duration].
  rewrite !elem_of_cons, !elem_of_nil in P1, P2, P3, S1, S2, S3.
  assert (forall A B C D A' B' C' D' : Prop, (A <-> A') -> (B <-> B') -> (C <-> C') -> (D <-> D') ->
    (A /\ B /\ C /\ D <-> A' /\ B' /\ C' /\ D')) as Hand by tauto.
  apply Hand; [| |done|].
  - unfold RELIABILITY_RELIABLE, RELIABILITY_BEST_EFFORT in *.
    destruct P1 as [-> |[-> |H]], S1 as [-> |[-> |H']]; try (by inversion H); try (by inversion H'); cbn; intuition (discriminate || auto).
  - unfold DURABILITY_TRANSIENT_LOCAL, DURABILITY_VOLATILE in *.
    destruct P2 as [-> |[-> |H]], S2 as [-> |[-> |H']]; try (by inversion H); try (by inversion H'); cbn; intuition (discriminate || auto).
  - unfold LIVELINESS_AUTOMATIC, LIVELINESS_MANUAL_BY_TOPIC in *.
    destruct P3 as [-> |[-> |H]], S3 as [-> |[-> |H']]; try (by inversion H); try (by inversion H'); cbn; intuition lia.
Qed.

(** The profiles the graph gives are of that kind. *)
Lemma converted_named q : named_policies (ros_z_qos_to_rmw_qos q).
Proof.
  unfold named_policies, ros_z_qos_to_rmw_qos. destruct (history q), (reliability q), (durability q), (liveliness q); cbn;
    rewrite !elem_of_cons; auto 10.
Qed.



(** [RMW_QOS_POLICY_LIVELINESS_SYSTEM_DEFAULT], the value of every default C
    profile, counts as less than automatic: a publisher of such a profile is
    incompatible with every subscription of the graph, though both are automatic
    endpoints.  A subscription that asks for the default reliability is reliable,
    and is found compatible with a best effort publisher all the same. *)
Lemma system_default_misjudged {E} o (q : Qos.QosProfile) p :
  rmw_durations_ok p -> rmw_liveliness p = 0 ->
  liveliness (rmw_qos_to_ros_z_qos p) = Automatic /\
  (exists policy, check_qos_compatibility_with_policy (E := E) o p
    (ros_z_qos_to_rmw_qos (protocol_qos_to_ros_z_qos q)) = Ok (false, policy)).
Proof.
  intros Hp Hz. split; [unfold rmw_qos_to_ros_z_qos; cbn; by rewrite Hz|].
  set (s := ros_z_qos_to_rmw_qos _).
  assert (rmw_durations_ok s /\ rmw_liveliness s = 1) as [Hs Hl].
  { subst s. unfold ros_z_qos_to_rmw_qos, protocol_qos_to_ros_z_qos. cbn [history].
    unfold rmw_durations_ok, ns_ok, ns, LIVELINESS_AUTOMATIC. repeat case_match; simplify_eq/=; split; try done; lia. }
  rewrite check_raw, Hz, Hl by done. change (0 <? 1) with true. cbn iota. repeat case_match; eexists; reflexivity.
Qed.
Lemma system_default_reliability {E} o :
  let p := mkRmw HISTORY_KEEP_LAST 10 RELIABILITY_BEST_EFFORT DURABILITY_VOLATILE (mkDuration 0 0) (mkDuration 0 0)
    LIVELINESS_AUTOMATIC (mkDuration 0 0) false in
  let s := mkRmw HISTORY_KEEP_LAST 10 0 DURABILITY_VOLATILE (mkDuration 0 0) (mkDuration 0 0)
    LIVELINESS_AUTOMATIC (mkDuration 0 0) false in
  reliability (rmw_qos_to_ros_z_qos s) = Reliable /\
  check_qos_compatibility_with_policy (E := E) o p s = Ok (true, 0).
Proof. split; [done|]. rewrite check_raw; [done|unfold rmw_durations_ok, ns_ok, ns; cbn; lia..]. Qed.

(** The profile of an endpoint of the graph has no durations: whatever deadline
    a publisher was created with, a subscription with a finite one finds it
    incompatible. *)
Lemma deadline_always_incompatible {E} o (q : Qos.QosProfile) s :
  durations_ok s -> 0 < ns (deadline s) < ns INFINITE ->
  exists policy, check_qos_compatibility_with_policy (E := E) o
    (ros_z_qos_to_rmw_qos (protocol_qos_to_ros_z_qos q)) (ros_z_qos_to_rmw_qos s) = Ok (false, policy).
Proof.
  intros Hs Hd.
  assert (forall x, rmw_deadline (ros_z_qos_to_rmw_qos x) = deadline x /\ rmw_lease (ros_z_qos_to_rmw_qos x) =
    liveliness_lease_duration x) as Hq by (intros x; unfold ros_z_qos_to_rmw_qos; by destruct (history x)).
  rewrite check_raw by (unfold rmw_durations_ok; rewrite !(proj1 (Hq _)), !(proj2 (Hq _)); first [done | unfold ns_ok, ns; cbn; lia]).
  rewrite !(proj1 (Hq _)), !(proj2 (Hq _)).
  assert (longer (ns (deadline (protocol_qos_to_ros_z_qos q))) (ns (deadline s)) = true) as ->.
  { cbn [protocol_qos_to_ros_z_qos deadline]. unfold longer.
    destruct (Z.ltb_spec 0 (ns (deadline s))), (Z.ltb_spec (ns (deadline s)) (ns INFINITE)); [done|lia..]. }
  repeat case_match; eexists; reflexivity.
Qed.
