(* ===== verification/RmwCallbacks.v ===== *)
(** * New-data callbacks of the RMW layer
    (crates/rmw-zenoh-rs/src/rmw.rs, service.rs)

    A subscription, a service and a client each keep a callback, its user data
    and a count of what arrived while there was no callback, behind three mutexes.
    [on_arrival] is what an arrival does, which holds the mutex of the callback all
    along; setting a callback is made of the sections [CallbackStep] that other
    threads come between.  The theorem: every arrival is announced or counted, once;
    and a subscription with a callback has nothing left to announce, which a
    service or a client may have. *)
From S2P Require Import Prelude.

(** ** Definitions *)

(** A C callback and its user data, by their addresses; [Some] and [None] of the
    callback type are its null pointer.  The count is a [usize], which wraps around in a
    release build;
    [announced] is the
    list of the calls made, oldest first. *)
Record Cells := mkCells {
  callback : option nat;
  callback_user_data : Z;
  unread_count : N;
  announced : list (nat * Z * N);
}.
Definition cells_new : Cells := mkCells None 0 0 [].

(** The notification closures of rmw_create_subscription, rmw_create_service and
    [ClientImpl::send_request], after they have woken the wait sets. *)
Definition on_arrival (c : Cells) : Cells :=
  match callback c with
  | Some f => mkCells (callback c) (callback_user_data c) (unread_count c) (announced c ++ [(f, callback_user_data c, 1%N)])
  | None => mkCells (callback c) (callback_user_data c) ((unread_count c + 1) mod 2 ^ 64) (announced c)
  end.

(** The calls of a callback that is being set: it is told what was not read. *)
Definition push_unread (f : nat) (user_data : Z) (c : Cells) : Cells :=
  if (0 <? unread_count c)%N then
    mkCells (callback c) (callback_user_data c) 0 (announced c ++ [(f, user_data, unread_count c)])
  else c.
Definition store_callback (callback : option nat) (c : Cells) : Cells :=
  mkCells callback (callback_user_data c) (unread_count c) (announced c).
Definition store_user_data (user_data : Z) (c : Cells) : Cells :=
  mkCells (callback c) user_data (unread_count c) (announced c).

(** rmw_subscription_set_on_new_message_callback: the user data under its own
    mutex, then the rest under the callback's. *)
Definition subscription_set_data (user_data : Z) (c : Cells) : Cells := store_user_data user_data c.
Definition subscription_set_callback (callback : option nat) (user_data : Z) (c : Cells) : Cells :=
  store_callback callback (match callback with Some f => push_unread f user_data c | None => c end).

(** The sections that threads interleave: those of a subscription, and those of a
    service or client (rmw_service_set_on_new_request_callback,
    rmw_client_set_on_new_response_callback). *)
Inductive CallbackStep :=
| Arrival
| SubSetData (user_data : Z)
| SubSetCallback (callback : option nat) (user_data : Z)
| SvcPush (f : nat) (user_data : Z)
| SvcStore (callback : option nat)
| SvcStoreData (user_data : Z).
Definition callback_step (c : Cells) (s : CallbackStep) : Cells :=
  match s with
  | Arrival => on_arrival c
  | SubSetData user_data => subscription_set_data user_data c
  | SubSetCallback cb user_data => subscription_set_callback cb user_data c
  | SvcPush f user_data => push_unread f user_data c
  | SvcStore cb => store_callback cb c
  | SvcStoreData user_data => store_user_data user_data c
  end.
Definition callback_run (c : Cells) (steps : list CallbackStep) : Cells := foldl callback_step c steps.

(** The three functions, as one thread runs them. *)
Definition subscription_set_on_new_message (cb : option nat) (user_data : Z) : list CallbackStep :=
  [SubSetData user_data; SubSetCallback cb user_data].
Definition service_set_on_new_request (cb : option nat) (user_data : Z) : list CallbackStep :=
  match cb with
  | Some f => [SvcPush f user_data; SvcStore cb; SvcStoreData user_data]
  | None => [SvcStore None; SvcStoreData 0]
  end.

(** *** Specification *)

Definition arrivals (steps : list CallbackStep) : N :=
  N.of_nat (length (List.filter (fun s => match s with Arrival => true | _ => false end) steps)).
Definition told (c : Cells) : N := fold_right N.add 0%N (map snd (announced c)).
Definition of_subscription (s : CallbackStep) : bool :=
  match s with Arrival | SubSetData _ | SubSetCallback _ _ => true | _ => false end.

(** ** Lemmas *)

Lemma told_snoc (l : list (nat * Z * N)) f u n :
  fold_right N.add 0%N (map snd (l ++ [(f, u, n)])) = (fold_right N.add 0 (map snd l) + n)%N.
Proof. induction l as [|x l IH]; cbn; [lia|]. rewrite IH. lia. Qed.

Lemma push_unread_told f u c : (told (push_unread f u c) + unread_count (push_unread f u c) = told c + unread_count c)%N.
Proof.
  unfold push_unread. destruct (N.ltb_spec 0 (unread_count c)); [|done].
  unfold told. cbn [announced unread_count]. rewrite told_snoc. lia.
Qed.
Lemma push_unread_zero f u c : unread_count (push_unread f u c) = 0%N.
Proof. unfold push_unread. destruct (N.ltb_spec 0 (unread_count c)); cbn; lia. Qed.

(** What a step adds to what was told or is unread: exactly, until the count
    overflows, and modulo its width in any case. *)
Definition accounted (c : Cells) : N := (told c + unread_count c)%N.
Lemma step_told c s :
  (accounted (callback_step c s) mod 2 ^ 64 = (accounted c + arrivals [s]) mod 2 ^ 64)%N /\
  ((accounted c + arrivals [s] < 2 ^ 64)%N -> accounted (callback_step c s) = (accounted c + arrivals [s])%N).
Proof.
  enough (exists x, callback_step c s = x /\ (accounted x = accounted c + arrivals [s] \/
    accounted x = told c + (unread_count c + 1) mod 2 ^ 64 /\ arrivals [s] = 1))%N as (x & -> & [->|[-> ->]]); [done| |].
  { unfold accounted. rewrite N.Div0.add_mod_idemp_r, N.add_assoc. split; [done|]. intros Hlt.
    rewrite N.mod_small by lia. lia. }
  eexists. split; [reflexivity|]. unfold accounted.
  destruct s as [|u|[f|] u|f u|cb|u]; unfold arrivals; cbn [callback_step List.filter length N.of_nat]; rewrite ?N.add_0_r;
    try by left.
  - unfold on_arrival. destruct (callback c); unfold told; cbn [announced unread_count]; [left|by right].
    rewrite told_snoc. cbn. lia.
  - left. apply (push_unread_told f u c).
  - left. apply push_unread_told.
Qed.
Lemma arrivals_cons s steps : arrivals (s :: steps) = (arrivals [s] + arrivals steps)%N.
Proof. unfold arrivals. cbn. destruct s; cbn [List.filter length]; lia. Qed.
Lemma run_told steps : forall c,
  (accounted (callback_run c steps) mod 2 ^ 64 = (accounted c + arrivals steps) mod 2 ^ 64)%N /\
  ((accounted c + arrivals steps < 2 ^ 64)%N -> accounted (callback_run c steps) = (accounted c + arrivals steps)%N).
Proof.
  induction steps as [|s steps IH]; intros c; [unfold arrivals; cbn [callback_run foldl List.filter length N.of_nat]; by rewrite N.add_0_r|].
  change (callback_run c (s :: steps)) with (callback_run (callback_step c s) steps).
  destruct (IH (callback_step c s)) as [IH1 IH2], (step_told c s) as [S1 S2]. rewrite (arrivals_cons s steps). split.
  - rewrite IH1, N.Div0.add_mod, S1, <- N.Div0.add_mod. f_equal. lia.
  - intros Hlt. rewrite IH2, S2 by (rewrite ?S2; lia). lia.
Qed.

Definition nothing_left (c : Cells) : Prop := is_Some (callback c) -> unread_count c = 0%N.
Lemma subscription_step_left c s : of_subscription s = true -> nothing_left c -> nothing_left (callback_step c s).
Proof.
  unfold nothing_left. destruct s as [|u|[f|] u|f u|cb|u]; try done; cbn; intros _ H.
  - unfold on_arrival. destruct (callback c) as [f|] eqn:E; cbn; [|by intros []]. intros _. apply H. by eexists.
  - intros _. apply push_unread_zero.
  - by intros [].
Qed.
Lemma subscription_run_left steps : forall c,
  forallb of_subscription steps = true -> nothing_left c -> nothing_left (callback_run c steps).
Proof.
  induction steps as [|s steps IH]; intros c Hs Hc; [done|]. apply andb_true_iff in Hs as [Hs Hr].
  apply (IH (callback_step c s) Hr). by apply subscription_step_left.
Qed.

(** ** Properties *)

(** C25 Arrivals are announced once: whatever threads interleave their sections in
    whatever order, the numbers given to the callbacks and the unread count add up
    to the arrivals (modulo the width of the count, so exactly while there are fewer
    than 2^64); a subscription that has a callback has no unread message; a
    service or a client has none either right after its callback was set by one
    thread undisturbed, but when a request arrives between the two sections, the
    callback is set and the request is left unannounced. *)
Theorem arrivals_announced steps :
  (let total := told (callback_run cells_new steps) + unread_count (callback_run cells_new steps) in
   total mod 2 ^ 64 = arrivals steps mod 2 ^ 64 /\ (arrivals steps < 2 ^ 64 -> total = arrivals steps))%N /\
  (forallb of_subscription steps = true -> nothing_left (callback_run cells_new steps)) /\
  (forall f user_data, let c := callback_run (callback_run cells_new steps) (service_set_on_new_request (Some f) user_data) in
     callback c = Some f /\ unread_count c = 0%N) /\
  (forall f user_data, callback (callback_run cells_new steps) = None ->
     let c := callback_run (callback_run cells_new steps) [SvcPush f user_data; Arrival; SvcStore (Some f); SvcStoreData user_data] in
     callback c = Some f /\ unread_count c = 1%N).
Proof.
  split; [exact (run_told steps cells_new)|]. split; [|split].
  - intros Hs. apply subscription_run_left; [done|]. by intros [].
  - intros f u. split; [done|]. cbn. apply push_unread_zero.
  - intros f u Hn. split; [done|]. cbn. unfold on_arrival.
    assert (callback (push_unread f u (callback_run cells_new steps)) = None) as ->
      by (unfold push_unread; by destruct (0 <? _)%N). cbn. by rewrite push_unread_zero.
Qed.

Lemma arrivals_announced_witness :
  let steps := [Arrival; SubSetData 5; SubSetCallback (Some 3%nat) 5; Arrival] in
  (told (callback_run cells_new steps) + unread_count (callback_run cells_new steps) = 2)%N /\
  unread_count (callback_run cells_new steps) = 0%N /\
  announced (callback_run cells_new steps) = [(3%nat, 5%Z, 1%N); (3%nat, 5%Z, 1%N)].
Proof.
  intros steps. destruct (arrivals_announced steps) as (H1 & H2 & _). split; [by apply H1|].
  split; [exact (H2 eq_refl (ex_intro _ 3%nat eq_refl))|reflexivity].
Defined.
