(* ===== verification/Entity.v ===== *)
(** * ROS entities and their textual forms (crates/ros-z-protocol/src/entity.rs)

    [NodeEntity], [EndpointEntity], [EntityKind], [TypeHash] with the RIHS
    text format, and the conversion errors.  [ZenohId] and the validation of
    key expressions belong to the zenoh package: [ZenohApi] names the
    operations the code calls and [ZenohLaws] what it relies on.  The build
    modelled is the default one (feature [no-type-hash] off). *)
From S2P Require Import Prelude Utf8 RustStr Qos.
From Stdlib Require Import NArith DecimalString DecimalN.
Open Scope string_scope.

(** ** Definitions *)

(** [Display] and [FromStr] of [ZenohId], [TryFrom<String>] of [KeyExpr] (a key
    expression is its string). *)
Class ZenohApi := {
  ZenohId : Type;
  zid_default : ZenohId;
  zid_fmt : ZenohId -> string;
  zid_parse : string -> option ZenohId;
  keyexpr_valid : string -> bool;
}.
Class ZenohLaws `{ZenohApi} := {
  zid_parse_fmt : forall z, zid_parse (zid_fmt z) = Some z;
  zid_fmt_no_slash : forall z, contains_char "/" (zid_fmt z) = false;
}.

(** [enum EntityKind], its [Display] and its [FromStr]. *)
Inductive EntityKind := KNode | KPublisher | KSubscription | KService | KClient.
#[export] Instance EntityKind_eq_dec : EqDecision EntityKind.
Proof. solve_decision. Defined.

Definition EntityKind_fmt (k : EntityKind) : string :=
  match k with
  | KNode => "NN"
  | KPublisher => "MP"
  | KSubscription => "MS"
  | KService => "SS"
  | KClient => "SC"
  end.

Definition EntityKind_from_str (s : string) : res string EntityKind :=
  if String.eqb s "NN" then Ok KNode
  else if String.eqb s "MP" then Ok KPublisher
  else if String.eqb s "MS" then Ok KSubscription
  else if String.eqb s "SS" then Ok KService
  else if String.eqb s "SC" then Ok KClient
  else Err "Invalid entity kind".

(** [struct TypeHash]: [version : u8], [value : [u8; 32]]. *)
Record TypeHash := mkHash { version : Z; value : list Z }.
Definition TypeHash_new (v : Z) (value : list Z) : TypeHash := mkHash v value.
Definition TypeHash_zero : TypeHash := mkHash 1 (replicate 32 0%Z).

(** [bytes.chunks(2)]. *)
Fixpoint chunks2 (l : list byte) : list (list byte) :=
  match l with
  | [] => []
  | [a] => [[a]]
  | a :: b :: l' => [a; b] :: chunks2 l'
  end.

(** [from_utf8(chunk).unwrap_or(..)]: a chunk that is not UTF-8 reads as zero. *)
Definition chunk_str (c : list byte) : string :=
  match from_utf8 c with
  | Ok s => s
  | _ => "00"
  end.

(** The loop of [from_rihs_string] over the chunks, from index [i]. *)
Fixpoint rihs_loop (i : nat) (chunks : list (list byte)) (hash_bytes : list Z)
    : option (list Z) :=
  match chunks with
  | [] => Some hash_bytes
  | chunk :: chunks' =>
      if (i <? 32)%nat then
        match u8_from_hex (chunk_str chunk) with
        | Some byte_val => rihs_loop (S i) chunks' (<[i := byte_val]> hash_bytes)
        | None => None
        end
      else rihs_loop (S i) chunks' hash_bytes
  end.

(** [TypeHash::from_rihs_string]. *)
Definition from_rihs_string (rihs_str : string) : option TypeHash :=
  if String.eqb rihs_str "TypeHashNotSupported" then Some TypeHash_zero
  else match strip_prefix "RIHS01_" rihs_str with
       | Some hex_part =>
           if Nat.eqb (str_len hex_part) 64 then
             hash_bytes ← rihs_loop 0 (chunks2 (str_bytes hex_part)) (replicate 32 0%Z);
             Some (mkHash 1 hash_bytes)
           else None
       | None => None
       end.

(** [TypeHash::to_rihs_string] and [Display]. *)
Definition hex_string (bs : list Z) : string := foldr (fun b s => hex2 b ++ s) "" bs.
Definition to_rihs_string (h : TypeHash) : string :=
  if (version h =? 1)%Z then "RIHS01_" ++ hex_string (value h)
  else "RIHS" ++ hex2 (version h) ++ "_" ++ hex_string (value h).
Definition TypeHash_fmt (h : TypeHash) : string := to_rihs_string h.

(** [struct TypeInfo]. *)
Record TypeInfo := mkTypeInfo { ti_name : string; ti_hash : TypeHash }.
Definition TypeInfo_new (name : string) (hash : TypeHash) : TypeInfo := mkTypeInfo name hash.

(** [enum EntityConversionError]. *)
Inductive EntityConversionError :=
| MissingAdminSpace | MissingDomainId | MissingZId | MissingNodeId | MissingEntityId
| MissingEntityKind | MissingEnclave | MissingNamespace | MissingNodeName
| MissingTopicName | MissingTopicType | MissingTopicHash | MissingTopicQoS
| ParsingError
| EQosDecodeError (e : QosDecodeError).

(** [zenoh::Error], a boxed error: what it boxes. *)
Inductive ZError :=
| Boxed (e : EntityConversionError)
| Message (m : string)
| InvalidKeyExpr (s : string).

Section Entities.
Context `{ZA : ZenohApi}.

(** [struct NodeEntity] and [NodeEntity::new]. *)
Record NodeEntity := mkNode {
  domain_id : Z;
  z_id : ZenohId;
  node_id : Z;
  node_name : string;
  node_namespace : string;
  node_enclave : string;
}.
Definition NodeEntity_new (domain_id : Z) (z_id : ZenohId) (id : Z)
    (name namespace enclave : string) : NodeEntity :=
  mkNode domain_id z_id id name namespace enclave.

(** [struct EndpointEntity]. *)
Record EndpointEntity := mkEndpoint {
  ep_id : Z;
  ep_node : NodeEntity;
  ep_kind : EntityKind;
  ep_topic : string;
  ep_type_info : option TypeInfo;
  ep_qos : QosProfile;
}.

(** [enum Entity]. *)
Inductive Entity :=
| ENode (n : NodeEntity)
| EEndpoint (e : EndpointEntity).

(** [LivelinessKE::new], [TopicKE::new]: a key expression. *)
Definition LivelinessKE := string.
Definition TopicKE := string.

(** [s.try_into()?] into a [KeyExpr]. *)
Definition try_into_keyexpr (s : string) : res ZError string :=
  if keyexpr_valid s then Ok s else Err (InvalidKeyExpr s).

(** The fields in the ranges of their Rust types. *)
Definition hash_ok (h : TypeHash) : Prop :=
  u_range 8 (version h) /\ length (value h) = 32%nat /\ Forall (u_range 8) (value h).
Definition node_ok (n : NodeEntity) : Prop :=
  u_range 64 (domain_id n) /\ u_range 64 (node_id n).
Definition endpoint_ok (e : EndpointEntity) : Prop :=
  u_range 64 (ep_id e) /\ node_ok (ep_node e) /\ qos_ok (ep_qos e) /\
  match ep_type_info e with
  | Some ti => hash_ok (ti_hash ti)
  | None => True
  end.
End Entities.
Arguments NodeEntity {_}.
Arguments EndpointEntity {_}.
Arguments Entity {_}.

(** ** Lemmas *)

Lemma EntityKind_from_str_fmt k : EntityKind_from_str (EntityKind_fmt k) = Ok k.
Proof. by destruct k. Qed.

Lemma EntityKind_fmt_no_slash k : contains_char "/" (EntityKind_fmt k) = false.
Proof. by destruct k. Qed.

(** *** Type hashes *)

Lemma str_bytes_app a b : str_bytes (a ++ b) = (str_bytes a ++ str_bytes b)%list.
Proof.
  unfold str_bytes, String.list_byte_of_string.
  induction a as [|x a IH]; [done|]. cbn. by rewrite IH.
Qed.

Lemma hex_string_length bs : str_len (hex_string bs) = (2 * length bs)%nat.
Proof.
  unfold str_len. induction bs as [|b bs IH]; [done|].
  cbn [hex_string foldr]. rewrite length_app_str. change (foldr _ _ bs) with (hex_string bs).
  rewrite IH. cbn. lia.
Qed.

Lemma hex_string_chars bs :
  Forall (u_range 8) bs -> all_chars is_ascii_alphanumeric (hex_string bs) = true.
Proof.
  induction 1 as [|b bs Hb _ IH]; [done|]. cbn [hex_string foldr].
  change (foldr _ _ bs) with (hex_string bs). pose proof (hex2_chars b Hb) as Hc.
  unfold hex2 in *. cbn [append all_chars] in *. by rewrite IH.
Qed.

Lemma chunks2_hex bs :
  chunks2 (str_bytes (hex_string bs)) = map (fun b => str_bytes (hex2 b)) bs.
Proof.
  induction bs as [|b bs IH]; [done|]. cbn [hex_string foldr map].
  change (foldr _ _ bs) with (hex_string bs). rewrite str_bytes_app, <- IH. done.
Qed.

Lemma ascii_alnum_byte a :
  is_ascii_alphanumeric a = true -> (u8_of_byte (byte_of_ascii a) < 128)%Z.
Proof.
  destruct a as [[] [] [] [] [] [] [] []]; vm_compute; intros H; first [discriminate H | reflexivity].
Qed.

Lemma alnum_valid s : all_chars is_ascii_alphanumeric s = true -> str_valid s.
Proof.
  intros Hs. apply str_valid_ascii. unfold str_bytes, String.list_byte_of_string.
  induction s as [|a s IH]; [done|]. cbn [all_chars] in Hs.
  apply andb_true_iff in Hs as [Ha Hs]. specialize (IH Hs). unfold bytes_ascii in *.
  cbn [String.list_ascii_of_string map forallb]. rewrite IH, andb_true_r.
  apply Z.ltb_lt. by apply ascii_alnum_byte.
Qed.

Lemma chunk_hex2 b : u_range 8 b -> u8_from_hex (chunk_str (str_bytes (hex2 b))) = Some b.
Proof.
  intros Hb. unfold chunk_str.
  rewrite from_utf8_valid by (by apply alnum_valid, hex2_chars). by apply u8_from_hex2.
Qed.

Lemma rihs_loop_hex i pre rest bs :
  length pre = i -> length rest = length bs -> (i + length bs <= 32)%nat ->
  Forall (u_range 8) bs ->
  rihs_loop i (map (fun b => str_bytes (hex2 b)) bs) (pre ++ rest)%list = Some (pre ++ bs)%list.
Proof.
  intros Hi Hl Hn Hbs. revert i pre rest Hi Hl Hn.
  induction Hbs as [|b bs Hb _ IH]; intros i pre rest Hi Hl Hn; cbn [map rihs_loop].
  - by destruct rest.
  - destruct rest as [|r rest]; [done|]. cbn [length] in *.
    destruct (Nat.ltb_spec i 32); [|lia]. rewrite chunk_hex2 by done.
    replace (<[i:=b]> (pre ++ r :: rest)%list) with (pre ++ b :: rest)%list
      by (rewrite insert_app_r_alt, Hi, Nat.sub_diag by lia; done).
    rewrite (cons_middle b pre rest), (cons_middle b pre bs), !app_assoc.
    apply IH; [rewrite length_app; cbn; lia | lia | lia].
Qed.

Lemma from_rihs_to_rihs h :
  hash_ok h ->
  from_rihs_string (to_rihs_string h) = if (version h =? 1)%Z then Some h else None.
Proof.
  intros (Hv & Hl & Hb). unfold to_rihs_string, from_rihs_string.
  destruct (Z.eqb_spec (version h) 1) as [E|E].
  - replace (String.eqb ("RIHS01_" ++ hex_string (value h)) "TypeHashNotSupported") with false
      by done.
    rewrite strip_prefix_app, hex_string_length, Hl. cbn [Nat.eqb Nat.mul Nat.add].
    rewrite chunks2_hex. change (replicate 32 0%Z) with ([] ++ replicate 32 0%Z)%list.
    rewrite (rihs_loop_hex 0 [] (replicate 32 0%Z) (value h)) by (done || by rewrite Hl).
    cbn. by destruct h as [v bs]; cbn in E; subst.
  - cbn [append]. replace (String.eqb _ "TypeHashNotSupported") with false by done.
    destruct (strip_prefix "RIHS01_" _) as [r|] eqn:Ep; [|done]. exfalso.
    apply strip_prefix_Some in Ep. unfold hex2 in Ep. cbn [append] in Ep.
    injection Ep as H1 H2 _.
    assert (u8_from_hex (hex2 (version h)) = u8_from_hex "01") as Hx by (unfold hex2; by rewrite H1, H2).
    rewrite u8_from_hex2 in Hx by done. by injection Hx.
Qed.

Lemma to_rihs_no_slash h : hash_ok h -> contains_char "/" (to_rihs_string h) = false.
Proof.
  intros (Hv & _ & Hb). unfold to_rihs_string.
  pose proof (all_chars_contains _ "/" _ (hex_string_chars _ Hb) eq_refl) as Hh.
  destruct (version h =? 1)%Z; [by rewrite contains_char_app, Hh|].
  rewrite !contains_char_app, Hh.
  by rewrite (all_chars_contains _ "/" _ (hex2_chars _ Hv) eq_refl).
Qed.

Lemma to_rihs_no_percent h : hash_ok h -> contains_char "%" (to_rihs_string h) = false.
Proof.
  intros (Hv & _ & Hb). unfold to_rihs_string.
  pose proof (all_chars_contains _ "%" _ (hex_string_chars _ Hb) eq_refl) as Hh.
  destruct (version h =? 1)%Z; [by rewrite contains_char_app, Hh|].
  rewrite !contains_char_app, Hh.
  by rewrite (all_chars_contains _ "%" _ (hex2_chars _ Hv) eq_refl).
Qed.

(** The text of a hash determines it. *)
Lemma to_rihs_uniform h :
  to_rihs_string h = "RIHS" ++ hex2 (version h) ++ "_" ++ hex_string (value h).
Proof. unfold to_rihs_string. destruct (Z.eqb_spec (version h) 1) as [->|]; done. Qed.

Lemma hex_string_inj bs cs :
  Forall (u_range 8) bs -> Forall (u_range 8) cs -> hex_string bs = hex_string cs -> bs = cs.
Proof.
  intros Hb. revert cs. induction Hb as [|b bs Hb _ IH]; intros cs Hc He.
  - destruct cs as [|c cs]; [done|]. done.
  - destruct Hc as [|c cs Hc Hcs]; [done|]. cbn [hex_string foldr] in He. unfold hex2 in He.
    cbn [append] in He. injection He as H1 H2 He. f_equal; [|by apply IH].
    pose proof (u8_from_hex2 b Hb) as Eb. pose proof (u8_from_hex2 c Hc) as Ec.
    unfold hex2 in *. rewrite H1, H2 in Eb. congruence.
Qed.

Lemma to_rihs_inj h k :
  hash_ok h -> hash_ok k -> to_rihs_string h = to_rihs_string k -> h = k.
Proof.
  rewrite !to_rihs_uniform. destruct h as [v bs], k as [w cs].
  intros (Hv & _ & Hb) (Hw & _ & Hc) He. cbn [version value append] in *. unfold hex2 in He.
  cbn [append] in He. injection He as H1 H2 He. f_equal; [|by apply hex_string_inj].
  pose proof (u8_from_hex2 v Hv) as Eb. pose proof (u8_from_hex2 w Hw) as Ec.
  unfold hex2 in *. rewrite H1, H2 in Eb. congruence.
Qed.

(** A concrete zenoh, for the witnesses: numbers as identifiers, key
    expressions without empty chunks. *)
Definition ex_zenoh : ZenohApi := {|
  ZenohId := N;
  zid_default := 0%N;
  zid_fmt n := NilZero.string_of_uint (N.to_uint n);
  zid_parse s := N.of_uint <$> NilZero.uint_of_string s;
  keyexpr_valid s := forallb (fun c => negb (String.eqb c "")) (split_on "/" s);
|}.

Lemma ex_zenoh_laws : @ZenohLaws ex_zenoh.
Proof.
  split; cbn; intros z.
  - rewrite NilZero.usu by apply uint_nonnil. cbn. by rewrite DecimalN.Unsigned.of_to.
  - apply (all_chars_contains is_ascii_digit); [apply string_of_uint_digits | done].
Qed.

(** ** Properties *)

(** The RIHS text of a type hash parses back to it exactly when its version
    is 1; every other version is refused. *)
Theorem rihs_roundtrip h :
  hash_ok h ->
  from_rihs_string (to_rihs_string h) = if (version h =? 1)%Z then Some h else None.
Proof. apply from_rihs_to_rihs. Qed.

Lemma rihs_roundtrip_witness :
  from_rihs_string (to_rihs_string (mkHash 1 (replicate 32 171%Z))) =
    Some (mkHash 1 (replicate 32 171%Z)).
Proof.
  apply (rihs_roundtrip (mkHash 1 (replicate 32 171%Z))).
  split; [by split|]. split; [done|]. apply Forall_replicate. by split.
Defined.
