(* ===== verification/Events.v ===== *)
(** * Event statuses and graph events (crates/ros-z/src/event.rs)

    [EventsManager] counts the events of one endpoint; [GraphEventManager] maps
    the changes of the graph to callbacks.  A callback is a number: calling it is
    an output of the operation.  Additions are checked, as in a build with
    overflow checks. *)
From stdpp Require Import gmap.
From S2P Require Import Prelude Utf8 RustStr Qos Entity.

(** ** Definitions *)

Inductive ZenohEventType :=
| RequestedQosIncompatible | OfferedQosIncompatible | MessageLost | SubscriptionMatched
| PublicationMatched | SubscriptionIncompatibleType | PublisherIncompatibleType
| OfferedDeadlineMissed | RequestedDeadlineMissed | LivelinessLost | LivelinessChanged.
Definition event_id (e : ZenohEventType) : nat :=
  match e with
  | RequestedQosIncompatible => 0
  | OfferedQosIncompatible => 1
  | MessageLost => 2
  | SubscriptionMatched => 3
  | PublicationMatched => 4
  | SubscriptionIncompatibleType => 5
  | PublisherIncompatibleType => 6
  | OfferedDeadlineMissed => 7
  | RequestedDeadlineMissed => 8
  | LivelinessLost => 9
  | LivelinessChanged => 10
  end.
Definition ZENOH_EVENT_ID_MAX : nat := 11.
#[export] Instance event_eq_dec : EqDecision ZenohEventType.
Proof. solve_decision. Defined.
#[export] Instance event_countable : Countable ZenohEventType.
Proof.
  apply (inj_countable' event_id (fun i =>
    default RequestedQosIncompatible ([RequestedQosIncompatible; OfferedQosIncompatible; MessageLost;
      SubscriptionMatched; PublicationMatched; SubscriptionIncompatibleType; PublisherIncompatibleType;
      OfferedDeadlineMissed; RequestedDeadlineMissed; LivelinessLost; LivelinessChanged] !! i))).
  by intros [].
Defined.

Record ZenohEventStatus := mkStatus {
  total_count : Z;
  total_count_change : Z;
  current_count : Z;
  current_count_change : Z;
  status_data : string;
  changed : bool;
  last_policy_kind : Z;
}.
Definition status_default : ZenohEventStatus := mkStatus 0 0 0 0 EmptyString false 0.

(** [a + b] on [i32]. *)
Definition add_i32 {E} (a b : Z) : res E Z :=
  if bool_decide (i_range 32 (a + b)) then Ok (a + b)%Z else Panic.

(** *** [EventsManager] *)

Definition Callback := nat.
(** The call of a callback with a count. *)
Definition Call : Type := Callback * Z.
Record EventsManager := mkEvents {
  event_statuses : list ZenohEventStatus;
  event_callbacks : list (option Callback);
  entity_gid : list Z;
}.
Definition events_new (gid : list Z) : EventsManager :=
  mkEvents (replicate ZENOH_EVENT_ID_MAX status_default) (replicate ZENOH_EVENT_ID_MAX None) gid.
Definition set_status (m : EventsManager) (i : nat) (s : ZenohEventStatus) : EventsManager :=
  mkEvents (<[i := s]> (event_statuses m)) (event_callbacks m) (entity_gid m).

Section Manager.
Context {E : Type}.
Definition set_callback (m : EventsManager) (event_type : ZenohEventType) (callback : Callback)
    : res E (EventsManager * list Call) :=
  let i := event_id event_type in
  s ← index (event_statuses m) i;
  let unread_count := total_count_change s in
  let '(m, calls) :=
    if negb (unread_count =? 0)%Z then
      (set_status m i (mkStatus (total_count s) 0 (current_count s) (current_count_change s)
                         (status_data s) (changed s) (last_policy_kind s)), [(callback, unread_count)])
    else (m, []) in
  Ok (mkEvents (event_statuses m) (<[i := Some callback]> (event_callbacks m)) (entity_gid m), calls).
Definition update_event_status_with_policy (m : EventsManager) (event_type : ZenohEventType)
    (change policy_kind : Z) : res E (EventsManager * list Call) :=
  let i := event_id event_type in
  s ← index (event_statuses m) i;
  total ← add_i32 (total_count s) (Z.max change 0);
  total_change ← add_i32 (total_count_change s) (Z.max change 0);
  current ← add_i32 (current_count s) change;
  current_change ← add_i32 (current_count_change s) change;
  let policy := if negb (policy_kind =? 0)%Z then policy_kind else last_policy_kind s in
  let m := set_status m i (mkStatus total total_change current current_change (status_data s) true policy) in
  callback ← index (event_callbacks m) i;
  Ok (m, match callback with Some c => [(c, change)] | None => [] end).
Definition update_event_status (m : EventsManager) (event_type : ZenohEventType) (change : Z) :=
  update_event_status_with_policy m event_type change 0.
Definition take_event_status (m : EventsManager) (event_type : ZenohEventType)
    : res E (EventsManager * ZenohEventStatus) :=
  let i := event_id event_type in
  s ← index (event_statuses m) i;
  Ok (set_status m i (mkStatus (total_count s) 0 (current_count s) 0 (status_data s) false (last_policy_kind s)), s).
(** [RmEventHandle], over the manager that it shares. *)
Record RmEventHandle := mkHandle { handle_event_type : ZenohEventType }.
Definition take_event (m : EventsManager) (h : RmEventHandle) := take_event_status m (handle_event_type h).
Definition handle_set_callback (m : EventsManager) (h : RmEventHandle) (callback : Callback) :=
  set_callback m (handle_event_type h) callback.
Definition is_ready (m : EventsManager) (event_type : ZenohEventType) : res E bool :=
  s ← index (event_statuses m) (event_id event_type);
  Ok (changed s).
End Manager.

(** [EventWaitData]: its flag. *)
Definition EventWaitData := bool.
Definition wait_data_new : EventWaitData := false.
Definition set_triggered (_ : EventWaitData) (triggered : bool) : EventWaitData := triggered.
Definition is_triggered (w : EventWaitData) : bool := w.

(** *** [GraphEventManager] *)

Record GraphEventManager := mkGraphEvents {
  graph_callbacks : gmap (list Z) (gmap ZenohEventType Callback);
  graph_guard_conditions : list Z;
  trigger_guard_condition : bool;
}.
Definition graph_events_new : GraphEventManager := mkGraphEvents ∅ [] false.
(** What a change makes the manager call. *)
Inductive Notice :=
| Guard (condition : Z)
| Event (gid : list Z) (event_type : ZenohEventType) (callback : Callback) (change : Z).

Definition set_guard_condition_trigger (m : GraphEventManager) : GraphEventManager :=
  mkGraphEvents (graph_callbacks m) (graph_guard_conditions m) true.
Definition register_event_callback (m : GraphEventManager) (gid : list Z) (event_type : ZenohEventType)
    (callback : Callback) : GraphEventManager :=
  mkGraphEvents (<[gid := <[event_type := callback]> (default ∅ (graph_callbacks m !! gid))]> (graph_callbacks m))
    (graph_guard_conditions m) (trigger_guard_condition m).
Definition unregister_entity (m : GraphEventManager) (gid : list Z) : GraphEventManager :=
  mkGraphEvents (delete gid (graph_callbacks m)) (graph_guard_conditions m) (trigger_guard_condition m).
Definition register_graph_guard_condition (m : GraphEventManager) (condition : Z) : GraphEventManager :=
  mkGraphEvents (graph_callbacks m) (graph_guard_conditions m ++ [condition]) (trigger_guard_condition m).
Definition unregister_graph_guard_condition (m : GraphEventManager) (condition : Z) : GraphEventManager :=
  mkGraphEvents (graph_callbacks m)
    (List.filter (fun gc => negb (gc =? condition)%Z) (graph_guard_conditions m)) (trigger_guard_condition m).

(** [trigger_event_with_policy]: the policy goes into the upper half. *)
Definition encode_change (event_type : ZenohEventType) (change policy_kind : Z) : Z :=
  if negb (policy_kind =? 0)%Z &&
     bool_decide (event_type = RequestedQosIncompatible \/ event_type = OfferedQosIncompatible)
  then Z.lor (wrap_i 32 (Z.shiftl (wrap_i 32 policy_kind) 16)) (Z.land change 65535)
  else change.
Definition trigger_event_with_policy (m : GraphEventManager) (gid : list Z) (event_type : ZenohEventType)
    (change policy_kind : Z) : list Notice :=
  match graph_callbacks m !! gid with
  | Some entity_callbacks =>
      match entity_callbacks !! event_type with
      | Some callback => [Event gid event_type callback (encode_change event_type change policy_kind)]
      | None => []
      end
  | None => []
  end.
Definition trigger_event (m : GraphEventManager) (gid : list Z) (event_type : ZenohEventType) (change : Z) :=
  trigger_event_with_policy m gid event_type change 0.
(** The callbacks registered by rmw-zenoh-rs take the two apart. *)
Definition decode_policy (encoded_change : Z) : Z := Z.land (Z.shiftr encoded_change 16) 65535.
Definition decode_change (encoded_change : Z) : Z := Z.land encoded_change 65535.

Section Changes.
Context `{ZA : ZenohApi} {E : Type}.
(** The callbacks of an event type, of every entity. *)
Definition event_notices (m : GraphEventManager) (event_type : ZenohEventType) (change : Z) : list Notice :=
  omap (fun '(gid, entity_callbacks) =>
    (fun callback => Event gid event_type callback change) <$> (entity_callbacks : gmap _ _) !! event_type)
    (map_to_list (graph_callbacks m)).
Definition guard_notices (m : GraphEventManager) : list Notice :=
  if trigger_guard_condition m then map Guard (graph_guard_conditions m) else [].
Definition trigger_graph_change (m : GraphEventManager) (entity : Entity) (appeared : bool) : res E (list Notice) :=
  let change := if appeared then 1%Z else (-1)%Z in
  let guards := guard_notices m in
  match entity with
  | EEndpoint endpoint =>
      match ep_kind endpoint with
      | KPublisher => Ok (guards ++ event_notices m SubscriptionMatched change)%list
      | KSubscription => Ok (guards ++ event_notices m PublicationMatched change)%list
      | KService | KClient => Ok guards
      | KNode => Panic
      end
  | ENode _ => Ok guards
  end.
End Changes.

(** ** Lemmas *)

(** *** The history of an event *)

(** The operations on a manager; the owner takes statuses and sets callbacks,
    the graph updates. *)
Inductive EventOp :=
| OpUpdate (e : ZenohEventType) (change policy_kind : Z)
| OpSetCallback (e : ZenohEventType) (callback : Callback)
| OpTake (e : ZenohEventType).
(** What an operation hands out: calls, or a status. *)
Inductive EventOut := OutCalls (calls : list Call) | OutStatus (s : ZenohEventStatus).
Definition event_step {E} (m : EventsManager) (op : EventOp) : res E (EventsManager * EventOut) :=
  match op with
  | OpUpdate e c p => '(m, calls) ← update_event_status_with_policy m e c p; Ok (m, OutCalls calls)
  | OpSetCallback e cb => '(m, calls) ← set_callback m e cb; Ok (m, OutCalls calls)
  | OpTake e => '(m, s) ← take_event_status m e; Ok (m, OutStatus s)
  end.
Fixpoint event_run {E} (m : EventsManager) (ops : list EventOp) : res E (EventsManager * list EventOut) :=
  match ops with
  | [] => Ok (m, [])
  | op :: ops =>
      '(m, out) ← event_step m op;
      '(m, outs) ← event_run m ops;
      Ok (m, out :: outs)
  end.

(** The changes of an event, and what an operation hands out of them. *)
Definition op_change (e : ZenohEventType) (op : EventOp) : Z :=
  match op with OpUpdate e' c _ => if decide (e = e') then c else 0 | _ => 0 end.
Definition op_gain (e : ZenohEventType) (op : EventOp) : Z := Z.max (op_change e op) 0.
Definition handed_total (e : ZenohEventType) (op : EventOp) (out : EventOut) : Z :=
  match op, out with
  | OpTake e', OutStatus s => if decide (e = e') then total_count_change s else 0
  | OpSetCallback e' _, OutCalls calls => if decide (e = e') then foldr (fun c z => snd c + z) 0 calls else 0
  | _, _ => 0
  end%Z.
Definition handed_current (e : ZenohEventType) (op : EventOp) (out : EventOut) : Z :=
  match op, out with
  | OpTake e', OutStatus s => if decide (e = e') then current_count_change s else 0
  | _, _ => 0
  end%Z.
Definition changed_by (e : ZenohEventType) (b : bool) (op : EventOp) : bool :=
  match op with
  | OpUpdate e' _ _ => if decide (e = e') then true else b
  | OpTake e' => if decide (e = e') then false else b
  | OpSetCallback _ _ => b
  end.
Definition sum {A} (f : A -> Z) (l : list A) : Z := foldr (fun x z => f x + z)%Z 0%Z l.
Definition manager_ok (m : EventsManager) : Prop :=
  length (event_statuses m) = ZENOH_EVENT_ID_MAX /\ length (event_callbacks m) = ZENOH_EVENT_ID_MAX.

Lemma event_id_inj e e' : event_id e = event_id e' -> e = e'.
Proof. by destruct e, e'. Qed.

Lemma event_id_bound e : (event_id e < ZENOH_EVENT_ID_MAX)%nat.
Proof. unfold ZENOH_EVENT_ID_MAX. destruct e; cbn; lia. Qed.

Lemma status_lookup m e : manager_ok m -> exists s, event_statuses m !! event_id e = Some s.
Proof. intros [H _]. apply lookup_lt_is_Some. rewrite H. apply event_id_bound. Qed.

Lemma callback_lookup m e : manager_ok m -> exists c, event_callbacks m !! event_id e = Some c.
Proof. intros [_ H]. apply lookup_lt_is_Some. rewrite H. apply event_id_bound. Qed.

Lemma add_i32_Ok {E} a b c : add_i32 (E := E) a b = Ok c -> c = (a + b)%Z.
Proof. unfold add_i32. case_bool_decide; [|done]. by intros [= <-]. Qed.

(** The status of [e] after the status of [e'] is set. *)
Lemma set_status_lookup m e e' s s' :
  manager_ok m -> event_statuses m !! event_id e = Some s ->
  event_statuses (set_status m (event_id e') s') !! event_id e =
    Some (if decide (e = e') then s' else s).
Proof.
  intros [Hl _] Hs. cbn. destruct (decide (e = e')) as [<-|Hne].
  - apply list_lookup_insert_eq. rewrite Hl. apply event_id_bound.
  - rewrite list_lookup_insert_ne; [done|]. intros He. by apply Hne, event_id_inj.
Qed.

Lemma set_status_ok m i s : manager_ok m -> manager_ok (set_status m i s).
Proof. intros [H1 H2]. split; [|done]. cbn. by rewrite length_insert. Qed.

(** What one operation does to the status of [e]. *)
Definition status_step (e : ZenohEventType) (s s' : ZenohEventStatus) (op : EventOp) (out : EventOut) : Prop :=
  total_count s' = (total_count s + op_gain e op)%Z /\
  current_count s' = (current_count s + op_change e op)%Z /\
  (total_count_change s' + handed_total e op out = total_count_change s + op_gain e op)%Z /\
  (current_count_change s' + handed_current e op out = current_count_change s + op_change e op)%Z /\
  changed s' = changed_by e (changed s) op.

Lemma event_step_status {E} m op m' out e s :
  manager_ok m -> event_step (E := E) m op = Ok (m', out) -> event_statuses m !! event_id e = Some s ->
  manager_ok m' /\ exists s', event_statuses m' !! event_id e = Some s' /\ status_step e s s' op out.
Proof.
  intros Hm H Hs. unfold status_step. destruct op as [e' c p|e' cb|e']; cbn [event_step] in H; res_inv.
  - unfold update_event_status_with_policy, index, unwrap in *.
    destruct (status_lookup m e' Hm) as [s0 Hs0], (callback_lookup m e' Hm) as [c0 Hc0].
    rewrite Hs0 in E0. cbn [mbind res_bind] in E0. res_inv.
    repeat match goal with H : add_i32 _ _ = Ok _ |- _ => apply add_i32_Ok in H end. subst.
    split; [by apply set_status_ok|]. eexists. split; [by apply set_status_lookup|].
    unfold op_gain, op_change, changed_by. cbn [handed_total handed_current].
    destruct (decide (e = e')) as [<-|Hne]; cbn; [rewrite Hs in Hs0; simplify_eq; split_and!; done || lia|].
    split_and!; done || lia.
  - unfold set_callback, index, unwrap in *. destruct (status_lookup m e' Hm) as [s0 Hs0].
    rewrite Hs0 in E0. cbn [mbind res_bind] in E0. unfold op_gain. cbn [op_change changed_by handed_current].
    destruct (Z.eqb_spec (total_count_change s0) 0) as [Hz|Hz]; cbn [negb] in E0; injection E0 as <- <-.
    + split; [split; cbn; [apply Hm|rewrite length_insert; apply Hm]|]. exists s. split; [done|].
      cbn. destruct (decide (e = e')); split_and!; done || lia.
    + split; [split; cbn; rewrite length_insert; apply Hm|].
      eexists. split; [exact (set_status_lookup m e e' s _ Hm Hs)|]. cbn.
      destruct (decide (e = e')) as [<-|Hne]; cbn; [rewrite Hs in Hs0; simplify_eq; split_and!; done || lia|].
      split_and!; done || lia.
  - unfold take_event_status, index, unwrap in *. destruct (status_lookup m e' Hm) as [s0 Hs0].
    rewrite Hs0 in E0. cbn [mbind res_bind] in E0. res_inv. split; [by apply set_status_ok|].
    eexists. split; [by apply set_status_lookup|]. unfold op_gain. cbn [op_change changed_by handed_total handed_current].
    destruct (decide (e = e')) as [<-|Hne]; cbn; [rewrite Hs in Hs0; simplify_eq; split_and!; done || lia|].
    split_and!; done || lia.
Qed.

Lemma event_run_status {E} m ops m' outs e s :
  manager_ok m -> event_run (E := E) m ops = Ok (m', outs) -> event_statuses m !! event_id e = Some s ->
  exists s', event_statuses m' !! event_id e = Some s' /\
    total_count s' = (total_count s + sum (op_gain e) ops)%Z /\
    current_count s' = (current_count s + sum (op_change e) ops)%Z /\
    (total_count_change s' + sum (fun p => handed_total e p.1 p.2) (zip ops outs) =
       total_count_change s + sum (op_gain e) ops)%Z /\
    (current_count_change s' + sum (fun p => handed_current e p.1 p.2) (zip ops outs) =
       current_count_change s + sum (op_change e) ops)%Z /\
    changed s' = foldl (changed_by e) (changed s) ops.
Proof.
  revert m outs s. induction ops as [|op ops IH]; intros m outs s Hm H Hs; cbn [event_run] in H.
  - injection H as <- <-. exists s. cbn. split_and!; done || lia.
  - res_inv. destruct (event_step_status m op _ _ e s Hm E0 Hs) as (Hm' & s1 & Hs1 & H1 & H2 & H3 & H4 & H5).
    destruct (IH _ _ _ Hm' E1 Hs1) as (s2 & Hs2 & G1 & G2 & G3 & G4 & G5). exists s2. split; [done|].
    cbn [sum foldr zip zip_with fst snd foldl]. rewrite H5 in G5. fold (sum (op_gain e) ops) (sum (op_change e) ops).
    unfold sum in *. cbn [foldr] in *. split_and!; done || lia.
Qed.

(** *** Counters in range *)

(** All counters of all events are at most [b] in absolute value. *)
Definition counts_within (b : Z) (s : ZenohEventStatus) : Prop :=
  (0 <= total_count_change s <= total_count s /\ total_count s <= b /\
   Z.abs (current_count s) <= b /\ Z.abs (current_count_change s) <= b)%Z.
Definition op_size (op : EventOp) : Z := match op with OpUpdate _ c _ => Z.abs c | _ => 0 end.

Lemma counts_within_mono b b' s : (b <= b')%Z -> counts_within b s -> counts_within b' s.
Proof. unfold counts_within. lia. Qed.

Lemma add_i32_small {E} a b n :
  (Z.abs a <= n)%Z -> (n + Z.abs b < 2 ^ 31)%Z -> add_i32 (E := E) a b = Ok (a + b)%Z.
Proof.
  intros Ha Hb. unfold add_i32, i_range. rewrite bool_decide_eq_true_2; [done|].
  change (2 ^ (32 - 1))%Z with (2 ^ 31)%Z. lia.
Qed.

Lemma event_step_ok {E} m op b :
  manager_ok m -> Forall (counts_within b) (event_statuses m) -> (0 <= b)%Z -> (b + op_size op < 2 ^ 31)%Z ->
  exists m' out, event_step (E := E) m op = Ok (m', out) /\ manager_ok m' /\
    Forall (counts_within (b + op_size op)) (event_statuses m').
Proof.
  intros Hm Hf Hb Hop.
  assert (forall i s, counts_within (b + op_size op) s ->
    Forall (counts_within (b + op_size op)) (event_statuses (set_status m i s))) as Hset.
  { intros i s Hs. cbn. apply Forall_insert; [|done]. eapply Forall_impl; [exact Hf|].
    intros t. apply counts_within_mono. destruct op; cbn; lia. }
  destruct op as [e c p|e cb|e]; cbn [event_step op_size] in *; destruct (status_lookup m e Hm) as [s Hs];
    pose proof (Forall_lookup_1 _ _ _ _ Hf Hs) as (B1 & B2 & B3 & B4).
  - unfold update_event_status_with_policy, index, unwrap. rewrite Hs. cbn [mbind res_bind].
    destruct (callback_lookup m e Hm) as [cb Hcb].
    rewrite !(add_i32_small _ _ b) by lia. cbn [mbind res_bind set_status event_callbacks]. rewrite Hcb.
    cbn [mbind res_bind]. do 2 eexists. split; [done|]. split; [by apply set_status_ok|].
    apply Hset. unfold counts_within. cbn. lia.
  - unfold set_callback, index, unwrap. rewrite Hs. cbn [mbind res_bind].
    destruct (negb _); do 2 eexists; (split; [done|]); (split; [split; cbn; rewrite ?length_insert; apply Hm|]).
    + apply Hset. unfold counts_within. cbn. lia.
    + cbn. eapply Forall_impl; [exact Hf|]. intros t. apply counts_within_mono. lia.
  - unfold take_event_status, index, unwrap. rewrite Hs. cbn [mbind res_bind].
    do 2 eexists. split; [done|]. split; [by apply set_status_ok|]. apply Hset. unfold counts_within. cbn. lia.
Qed.

Lemma event_run_ok {E} m ops b :
  manager_ok m -> Forall (counts_within b) (event_statuses m) -> (0 <= b)%Z -> (b + sum op_size ops < 2 ^ 31)%Z ->
  exists m' outs, event_run (E := E) m ops = Ok (m', outs).
Proof.
  revert m b. induction ops as [|op ops IH]; intros m b Hm Hf Hb Hs; [by do 2 eexists|].
  cbn [sum foldr] in Hs. fold (sum op_size ops) in Hs.
  assert (0 <= op_size op)%Z by (destruct op; cbn; lia).
  assert (0 <= sum op_size ops)%Z.
  { clear. induction ops as [|o ops IH]; [done|]. cbn [sum foldr]. fold (sum op_size ops). destruct o; cbn; lia. }
  destruct (event_step_ok (E := E) m op b Hm Hf Hb) as (m1 & out & E1 & Hm1 & Hf1); [lia|].
  destruct (IH m1 (b + op_size op)%Z Hm1 Hf1) as (m2 & outs & E2); [lia..|].
  exists m2, (out :: outs). cbn [event_run]. rewrite E1. cbn [mbind res_bind]. by rewrite E2.
Qed.

Lemma events_new_ok gid : manager_ok (events_new gid) /\ Forall (counts_within 0) (event_statuses (events_new gid)).
Proof. split; [done|]. by apply Forall_replicate. Qed.

(** ** Properties *)

(** C27 No event is lost or counted twice: after any operations that do not
    overflow, the totals of an event are the sums of its changes; what was handed
    out, by taking the status or to a newly set callback, and what is pending
    add up to the total; and the status is ready exactly when an update has come
    since it was last taken. *)
Theorem events_accounted {E} gid ops m outs e :
  event_run (E := E) (events_new gid) ops = Ok (m, outs) ->
  exists s, event_statuses m !! event_id e = Some s /\
    total_count s = sum (op_gain e) ops /\ current_count s = sum (op_change e) ops /\
    (total_count_change s + sum (fun p => handed_total e p.1 p.2) (zip ops outs) = total_count s)%Z /\
    (current_count_change s + sum (fun p => handed_current e p.1 p.2) (zip ops outs) = current_count s)%Z /\
    is_ready (E := E) m e = Ok (foldl (changed_by e) false ops).
Proof.
  intros H. destruct (events_new_ok gid) as [Hm _].
  destruct (event_run_status _ _ _ _ e status_default Hm H) as (s & Hs & H1 & H2 & H3 & H4 & H5).
  { apply lookup_replicate_2, event_id_bound. }
  cbn [status_default total_count current_count total_count_change current_count_change changed] in *.
  exists s. split_and!; try lia; [done|]. unfold is_ready, index, unwrap. rewrite Hs. cbn [mbind res_bind].
  by rewrite H5.
Qed.

Definition ex_ops : list EventOp :=
  [OpUpdate PublicationMatched 2 0; OpSetCallback PublicationMatched 7%nat; OpUpdate PublicationMatched (-1) 0;
   OpUpdate MessageLost 1 0; OpTake PublicationMatched].
Lemma events_accounted_witness :
  exists m outs, event_run (E := unit) (events_new []) ex_ops = Ok (m, outs) /\
  exists s, event_statuses m !! event_id PublicationMatched = Some s /\
    total_count s = 2%Z /\ current_count s = 1%Z /\
    (total_count_change s + sum (fun p => handed_total PublicationMatched p.1 p.2) (zip ex_ops outs) = total_count s)%Z /\
    (current_count_change s + sum (fun p => handed_current PublicationMatched p.1 p.2) (zip ex_ops outs) = current_count s)%Z /\
    is_ready (E := unit) m PublicationMatched = Ok false.
Proof.
  destruct (events_new_ok []) as [Hok Hc].
  destruct (event_run_ok (E := unit) (events_new []) ex_ops 0 Hok Hc) as (m & outs & H); [done..|].
  exists m, outs. split; [exact H|]. exact (events_accounted [] ex_ops m outs PublicationMatched H).
Defined.

(** The counters do not overflow while the sizes of all changes add up to less
    than 2^31: every operation then returns. *)
Theorem event_counters_bounded {E} gid ops :
  (sum op_size ops < 2 ^ 31)%Z -> exists m outs, event_run (E := E) (events_new gid) ops = Ok (m, outs).
Proof. intros H. destruct (events_new_ok gid). by apply (event_run_ok _ _ 0). Qed.

Lemma event_counters_bounded_witness :
  exists m outs, event_run (E := unit) (events_new [])
    [OpUpdate MessageLost (2 ^ 31 - 2) 0; OpUpdate MessageLost 1 0] = Ok (m, outs).
Proof.
  apply (event_counters_bounded [] [OpUpdate MessageLost (2 ^ 31 - 2) 0; OpUpdate MessageLost 1 0]). reflexivity.
Defined.

(** A bound that is met: one more is a panic. *)
Lemma event_counter_overflow :
  event_run (E := unit) (events_new []) [OpUpdate MessageLost (2 ^ 31 - 1) 0; OpUpdate MessageLost 1 0] = Panic.
Proof. by vm_compute. Qed.

(** A policy and a count of 16 bits each survive the encoding. *)
Lemma policy_roundtrip et change policy_kind :
  et = RequestedQosIncompatible \/ et = OfferedQosIncompatible ->
  u_range 16 change -> u_range 16 policy_kind ->
  let encoded := encode_change et change policy_kind in
  decode_policy encoded = policy_kind /\ decode_change encoded = change.
Proof.
  intros He Hc Hp encoded. unfold u_range in *. change (2 ^ 16)%Z with 65536%Z in *.
  assert (Z.land change 65535 = change) as Hlc.
  { change 65535%Z with (Z.ones 16). rewrite Z.land_ones, Z.mod_small by lia. done. }
  assert (encoded = Z.lor (wrap_i 32 (Z.shiftl policy_kind 16)) change) as ->.
  { unfold encoded, encode_change. rewrite bool_decide_eq_true_2, andb_true_r, Hlc by done.
    destruct (Z.eqb_spec policy_kind 0) as [->|Hne]; cbn [negb].
    - change (wrap_i 32 (Z.shiftl 0 16)) with 0%Z. by rewrite Z.lor_0_l.
    - unfold wrap_i at 2. change (2 ^ (32 - 1))%Z with 2147483648%Z. change (2 ^ 32)%Z with 4294967296%Z.
      rewrite Z.mod_small by lia. do 2 f_equal. f_equal. lia. }
  rewrite Z.shiftl_mul_pow2 by lia. change (2 ^ 16)%Z with 65536%Z.
  assert (exists q, wrap_i 32 (policy_kind * 65536) = q * 65536 /\ q mod 65536 = policy_kind)%Z as (q & -> & Hq).
  { unfold wrap_i. change (2 ^ (32 - 1))%Z with 2147483648%Z. change (2 ^ 32)%Z with 4294967296%Z.
    destruct (Z.lt_ge_cases policy_kind 32768).
    - exists policy_kind. rewrite !Z.mod_small by lia. lia.
    - exists (policy_kind - 65536)%Z. split.
      + rewrite <- (Z.mod_unique (policy_kind * 65536 + 2147483648) 4294967296 1
          (policy_kind * 65536 + 2147483648 - 4294967296)) by lia. lia.
      + symmetry. apply (Z.mod_unique _ _ (-1)); lia. }
  unfold decode_policy, decode_change. change 65535%Z with (Z.ones 16). change 65536%Z with (2 ^ 16)%Z.
  split.
  - rewrite Z.shiftr_lor, (Z.shiftr_div_pow2 (q * _)), Z.div_mul by lia.
    rewrite (Z.shiftr_div_pow2 change), Z.div_small, Z.lor_0_r, Z.land_ones by lia. exact Hq.
  - rewrite Z.land_lor_distr_l, !Z.land_ones by lia. by rewrite Z_mod_mult, Z.lor_0_l, Z.mod_small by lia.
Qed.

Section Notices.
Context `{ZA : ZenohApi}.

Lemma guard_notices_spec m :
  (forall gc, Guard gc ∈ guard_notices m <-> trigger_guard_condition m = true /\ gc ∈ graph_guard_conditions m) /\
  forall gid et cb ch, Event gid et cb ch ∉ guard_notices m.
Proof.
  unfold guard_notices. destruct (trigger_guard_condition m); split.
  - intros gc. rewrite list_elem_of_fmap. naive_solver.
  - intros gid et cb ch (? & ? & _)%list_elem_of_fmap. done.
  - intros gc. rewrite elem_of_nil. naive_solver.
  - intros gid et cb ch. apply not_elem_of_nil.
Qed.

Lemma event_notices_spec m et ch :
  (forall gc, Guard gc ∉ event_notices m et ch) /\
  forall gid et' cb ch', Event gid et' cb ch' ∈ event_notices m et ch <->
    et' = et /\ ch' = ch /\ exists cbs, graph_callbacks m !! gid = Some cbs /\ cbs !! et = Some cb.
Proof.
  unfold event_notices. split.
  - intros gc ([gid cbs] & _ & H)%list_elem_of_omap. cbn in H. by destruct (cbs !! et).
  - intros gid et' cb ch'. rewrite list_elem_of_omap. split.
    + intros ([gid0 cbs] & Hin%elem_of_map_to_list & H). destruct (cbs !! et) eqn:Ecb; [|done]. cbn in H.
      simplify_eq. naive_solver.
    + intros (-> & -> & cbs & Hin & Hcb). exists (gid, cbs). rewrite Hcb.
      split; [by apply elem_of_map_to_list | done].
Qed.

Definition matches (entity : Entity) (et : ZenohEventType) : Prop :=
  exists ep, entity = EEndpoint ep /\
    (ep_kind ep = KPublisher /\ et = SubscriptionMatched \/ ep_kind ep = KSubscription /\ et = PublicationMatched).

Lemma graph_change_parts {E} m entity appeared notices :
  trigger_graph_change (E := E) m entity appeared = Ok notices ->
  exists o, notices = (guard_notices m ++
      match o with Some et => event_notices m et (if appeared then 1 else -1)%Z | None => [] end)%list /\
    forall et, matches entity et <-> o = Some et.
Proof.
  unfold trigger_graph_change, matches. intros H.
  destruct entity as [n|ep]; [|destruct (ep_kind ep) eqn:Ek]; try discriminate H; injection H as <-.
  1, 4, 5: exists None; rewrite app_nil_r; split; [done|]; naive_solver congruence.
  - exists (Some SubscriptionMatched). split; [done|]. naive_solver congruence.
  - exists (Some PublicationMatched). split; [done|]. naive_solver congruence.
Qed.
End Notices.

(** Who hears of a change of the graph: every guard condition, if a trigger is
    set, and for a publisher or a subscription that comes or goes the callbacks
    of the other side's match event, of all registered entities: the topic of
    the endpoint plays no part. *)
Theorem graph_change_notices `{ZA : ZenohApi} {E} m entity appeared notices :
  trigger_graph_change (E := E) m entity appeared = Ok notices ->
  (forall gc, Guard gc ∈ notices <-> trigger_guard_condition m = true /\ gc ∈ graph_guard_conditions m) /\
  (forall gid et cb change, Event gid et cb change ∈ notices <->
    change = (if appeared then 1 else -1)%Z /\
    matches entity et /\ exists callbacks, graph_callbacks m !! gid = Some callbacks /\ callbacks !! et = Some cb).
Proof.
  intros H. destruct (graph_change_parts _ _ _ _ H) as (o & -> & Ho).
  assert (forall gid et' cb ch, Event gid et' cb ch ∉ guard_notices m) as Hge by (intros; apply guard_notices_spec).
  split; [intros gc|intros gid et cb change]; rewrite elem_of_app.
  - rewrite (proj1 (guard_notices_spec m)). split; [|by left]. intros [H'|H']; [done|].
    destruct o as [et|]; [by apply event_notices_spec in H'|by apply elem_of_nil in H'].
  - split.
    + intros [H'|H']; [by apply Hge in H'|]. destruct o as [et'|]; [|by apply elem_of_nil in H'].
      apply event_notices_spec in H' as (-> & -> & Hcb). split; [done|]. split; [|done]. by apply Ho.
    + intros (-> & He & Hcb). right. apply Ho in He as ->. by apply event_notices_spec.
Qed.
