(* ===== verification/SchemaModel.v ===== *)
(** * Type descriptions and their hash (crates/ros-z-schema/src)

    [TypeId] (type_id.rs), the type description messages (type_description.rs),
    the ROS 2 JSON text and the RIHS01 hash (hash.rs), and [TypeHash] with its
    text (lib.rs).  [serde_json::to_string], SHA-256 and the hex package are
    parameters. *)
From stdpp Require Import countable.
From Stdlib Require Import NArith DecimalString DecimalN.
From S2P Require Import Prelude Utf8 RustStr RustColl Entity.
Open Scope string_scope.

(** ** Definitions *)

(** [impl TypeId]: the constants. *)
Module TypeId.
Open Scope Z_scope.
Definition NESTED_TYPE := 1.
Definition INT8 := 2.
Definition UINT8 := 3.
Definition INT16 := 4.
Definition UINT16 := 5.
Definition INT32 := 6.
Definition UINT32 := 7.
Definition INT64 := 8.
Definition UINT64 := 9.
Definition FLOAT32 := 10.
Definition FLOAT64 := 11.
Definition BOOL := 15.
Definition BYTE := 16.
Definition STRING := 17.
Definition WSTRING := 18.
Definition FIXED_STRING := 19.
Definition FIXED_WSTRING := 20.
Definition BOUNDED_STRING := 21.
Definition BOUNDED_WSTRING := 22.
Definition NESTED_TYPE_ARRAY := 49.
Definition INT8_ARRAY := 50.
Definition UINT8_ARRAY := 51.
Definition INT16_ARRAY := 52.
Definition UINT16_ARRAY := 53.
Definition INT32_ARRAY := 54.
Definition UINT32_ARRAY := 55.
Definition INT64_ARRAY := 56.
Definition UINT64_ARRAY := 57.
Definition FLOAT32_ARRAY := 58.
Definition FLOAT64_ARRAY := 59.
Definition BOOL_ARRAY := 63.
Definition STRING_ARRAY := 65.
Definition NESTED_TYPE_BOUNDED_SEQUENCE := 97.
Definition INT8_BOUNDED_SEQUENCE := 98.
Definition UINT8_BOUNDED_SEQUENCE := 99.
Definition INT16_BOUNDED_SEQUENCE := 100.
Definition UINT16_BOUNDED_SEQUENCE := 101.
Definition INT32_BOUNDED_SEQUENCE := 102.
Definition UINT32_BOUNDED_SEQUENCE := 103.
Definition INT64_BOUNDED_SEQUENCE := 104.
Definition UINT64_BOUNDED_SEQUENCE := 105.
Definition FLOAT32_BOUNDED_SEQUENCE := 106.
Definition FLOAT64_BOUNDED_SEQUENCE := 107.
Definition BOOL_BOUNDED_SEQUENCE := 111.
Definition STRING_BOUNDED_SEQUENCE := 113.
Definition NESTED_TYPE_UNBOUNDED_SEQUENCE := 145.
Definition INT8_UNBOUNDED_SEQUENCE := 146.
Definition UINT8_UNBOUNDED_SEQUENCE := 147.
Definition INT16_UNBOUNDED_SEQUENCE := 148.
Definition UINT16_UNBOUNDED_SEQUENCE := 149.
Definition INT32_UNBOUNDED_SEQUENCE := 150.
Definition UINT32_UNBOUNDED_SEQUENCE := 151.
Definition INT64_UNBOUNDED_SEQUENCE := 152.
Definition UINT64_UNBOUNDED_SEQUENCE := 153.
Definition FLOAT32_UNBOUNDED_SEQUENCE := 154.
Definition FLOAT64_UNBOUNDED_SEQUENCE := 155.
Definition BOOL_UNBOUNDED_SEQUENCE := 159.
Definition STRING_UNBOUNDED_SEQUENCE := 161.
Definition ARRAY_OFFSET := 48.
Definition BOUNDED_SEQUENCE_OFFSET := 96.
Definition UNBOUNDED_SEQUENCE_OFFSET := 144.
Definition is_nested (type_id : Z) : bool :=
  (type_id =? NESTED_TYPE) || (type_id =? NESTED_TYPE_ARRAY)
  || (type_id =? NESTED_TYPE_BOUNDED_SEQUENCE) || (type_id =? NESTED_TYPE_UNBOUNDED_SEQUENCE).
Definition is_array (type_id : Z) : bool := (49 <=? type_id) && (type_id <=? 65).
Definition is_bounded_sequence (type_id : Z) : bool := (97 <=? type_id) && (type_id <=? 113).
Definition is_unbounded_sequence (type_id : Z) : bool := (145 <=? type_id) && (type_id <=? 161).
Definition is_single (type_id : Z) : bool := (1 <=? type_id) && (type_id <=? 17).
Definition base_type (type_id : Z) : Z :=
  if is_unbounded_sequence type_id then type_id - UNBOUNDED_SEQUENCE_OFFSET
  else if is_bounded_sequence type_id then type_id - BOUNDED_SEQUENCE_OFFSET
  else if is_array type_id then type_id - ARRAY_OFFSET
  else type_id.
Definition type_name (type_id : Z) : option string :=
  let b := base_type type_id in
  if b =? NESTED_TYPE then Some "nested"
  else if b =? INT8 then Some "int8"
  else if b =? UINT8 then Some "uint8"
  else if b =? INT16 then Some "int16"
  else if b =? UINT16 then Some "uint16"
  else if b =? INT32 then Some "int32"
  else if b =? UINT32 then Some "uint32"
  else if b =? INT64 then Some "int64"
  else if b =? UINT64 then Some "uint64"
  else if b =? FLOAT32 then Some "float32"
  else if b =? FLOAT64 then Some "float64"
  else if b =? BOOL then Some "bool"
  else if b =? STRING then Some "string"
  else None.
End TypeId.

(** [struct FieldTypeDescription]: [type_id : u8], the capacities [u64]. *)
Record FieldTypeDescription := mkFTD {
  type_id : Z;
  capacity : Z;
  string_capacity : Z;
  nested_type_name : string;
}.
Definition ftd_primitive (type_id : Z) : FieldTypeDescription := mkFTD type_id 0 0 "".
Definition ftd_nested (type_id : Z) (nested_type_name : string) : FieldTypeDescription :=
  mkFTD type_id 0 0 nested_type_name.
Definition ftd_array (type_id capacity : Z) : FieldTypeDescription := mkFTD type_id capacity 0 "".
Definition ftd_nested_array (type_id capacity : Z) (nested_type_name : string)
    : FieldTypeDescription :=
  mkFTD type_id capacity 0 nested_type_name.

Record FieldDescription := mkFD {
  fd_name : string;
  fd_type : FieldTypeDescription;
  fd_default : string;
}.
Record TypeDescription := mkTD { td_name : string; td_fields : list FieldDescription }.
Record TypeDescriptionMsg := mkTDM {
  type_description : TypeDescription;
  referenced_type_descriptions : list TypeDescription;
}.

(** The versions without default values, which are what is hashed. *)
Record FieldDescriptionForHash := mkFDH { fdh_name : string; fdh_type : FieldTypeDescription }.
Record TypeDescriptionForHash := mkTDH { tdh_name : string; tdh_fields : list FieldDescriptionForHash }.
Record TypeDescriptionMsgForHash := mkTDMH {
  tdmh_type : TypeDescriptionForHash;
  tdmh_referenced : list TypeDescriptionForHash;
}.
Definition td_for_hash (td : TypeDescription) : TypeDescriptionForHash :=
  mkTDH (td_name td) (map (fun f => mkFDH (fd_name f) (fd_type f)) (td_fields td)).
Definition to_hash_version (msg : TypeDescriptionMsg) : TypeDescriptionMsgForHash :=
  mkTDMH (td_for_hash (type_description msg)) (map td_for_hash (referenced_type_descriptions msg)).

(** The loop of [to_ros2_json] over the characters of the compact text; colon,
    comma and space are ASCII, so characters can be taken for bytes. *)
Definition is_json_separator (c : ascii) : bool := Ascii.eqb c ":" || Ascii.eqb c ",".
Fixpoint space_json (s : string) : string :=
  match s with
  | EmptyString => EmptyString
  | String c s' =>
      String c
        (match s' with
         | String d _ =>
             if is_json_separator c && negb (Ascii.eqb d " ") then String " " (space_json s')
             else space_json s'
         | EmptyString => EmptyString
         end)
  end.

(** [serde_json::to_string] on the hashed type, and SHA-256. *)
Class HashApi := {
  serde_json_to_string : TypeDescriptionMsgForHash -> res string string;
  sha256 : string -> list Z;
}.

(** [struct TypeHash(pub \[u8; 32\])]. *)
Definition SchemaHash := list Z.
Definition schema_hash_zero : SchemaHash := replicate 32 0%Z.

Section Hash.
Context `{HA : HashApi}.
Definition to_ros2_json (value : TypeDescriptionMsgForHash) : res string string :=
  compact ← serde_json_to_string value; Ok (space_json compact).
Definition calculate_hash {E} (msg : TypeDescriptionMsg) : res E SchemaHash :=
  match to_ros2_json (to_hash_version msg) with
  | Ok json => Ok (sha256 json)
  | _ => Panic
  end.
End Hash.

(** [hex::encode] and [hex::decode]. *)
Class HexApi := {
  hex_encode : list Z -> string;
  hex_decode : string -> res string (list Z);
}.
Class HexLaws `{HexApi} := {
  hex_encode_lower : forall bs, Forall (u_range 8) bs -> hex_encode bs = hex_string bs;
  hex_decode_encode : forall bs, Forall (u_range 8) bs -> hex_decode (hex_encode bs) = Ok bs;
}.

Section Text.
Context `{HX : HexApi}.
Definition schema_to_rihs_string (h : SchemaHash) : string := "RIHS01_" ++ hex_encode h.
Definition schema_from_rihs_string (s : string) : res string SchemaHash :=
  match RustStr.strip_prefix "RIHS01_" s with
  | None => Err "Invalid RIHS01 format: must start with 'RIHS01_'"
  | Some hex_part =>
      bytes ← map_err (fun e => "Invalid hex encoding: " ++ e) (hex_decode hex_part);
      if negb (Nat.eqb (length bytes) 32)
      then Err ("Hash must be 32 bytes, got " ++ Z_dec (Z.of_nat (length bytes)))
      else Ok bytes
  end.
End Text.

(** ** Specification *)

(** What serde_json promises: it does not fail on these types, distinct values
    have distinct texts, and its text is compact: no space follows a separator
    unless a name has such a pair of characters. *)
Fixpoint compact (s : string) : bool :=
  match s with
  | String c ((String d _) as s') => negb (is_json_separator c && Ascii.eqb d " ") && compact s'
  | _ => true
  end.
Definition ftd_names_compact (t : FieldTypeDescription) : Prop := compact (nested_type_name t) = true.
Definition td_compact (t : TypeDescriptionForHash) : Prop :=
  compact (tdh_name t) = true /\
  Forall (fun f => compact (fdh_name f) = true /\ ftd_names_compact (fdh_type f)) (tdh_fields t).
Definition names_compact (m : TypeDescriptionMsgForHash) : Prop :=
  td_compact (tdmh_type m) /\ Forall td_compact (tdmh_referenced m).
Class HashLaws `{HashApi} := {
  json_total : forall v, exists j, serde_json_to_string v = Ok j;
  json_inj : forall v w, serde_json_to_string v = serde_json_to_string w -> v = w;
  json_compact : forall v j, names_compact v -> serde_json_to_string v = Ok j -> compact j = true;
}.

(** ** Lemmas *)

(** Dropping the space after a separator undoes [space_json]. *)
Fixpoint unspace_json (s : string) : string :=
  match s with
  | String c ((String d s'') as s') =>
      if is_json_separator c && Ascii.eqb d " " then String c (unspace_json s'')
      else String c (unspace_json s')
  | _ => s
  end.

Lemma unspace_space_json s : compact s = true -> unspace_json (space_json s) = s.
Proof.
  induction s as [|c [|d s] IH]; intros Hc; [done..|].
  change (negb (is_json_separator c && Ascii.eqb d " ") && compact (String d s) = true) in Hc.
  apply andb_true_iff in Hc as [Hn Hc]. specialize (IH Hc).
  change (space_json (String c (String d s))) with
    (String c (if is_json_separator c && negb (Ascii.eqb d " ")
               then String " " (space_json (String d s)) else space_json (String d s))).
  destruct (is_json_separator c) eqn:Ec; cbn [andb] in *.
  - apply negb_true_iff in Hn. rewrite Hn. cbn [negb unspace_json]. rewrite Ec. cbn [andb Ascii.eqb].
    change (Ascii.eqb " " " ") with true. cbn [andb]. by f_equal.
  - destruct (space_json (String d s)) as [|e t] eqn:Es; [by cbn in Es; destruct s|].
    cbn [unspace_json]. rewrite Ec. cbn [andb]. f_equal. exact IH.
Qed.

Lemma space_json_inj s t : compact s = true -> compact t = true -> space_json s = space_json t -> s = t.
Proof. intros Hs Ht He. rewrite <- (unspace_space_json s), <- (unspace_space_json t) by done. by rewrite He. Qed.

Lemma td_for_hash_defaults td td' :
  td_for_hash td = td_for_hash td' <->
  td_name td = td_name td' /\
  map (fun f => (fd_name f, fd_type f)) (td_fields td) = map (fun f => (fd_name f, fd_type f)) (td_fields td').
Proof.
  unfold td_for_hash. split.
  - intros [= Hn Hf]. split; [done|].
    apply (f_equal (map (fun f => (fdh_name f, fdh_type f)))) in Hf. by rewrite !map_map in Hf.
  - intros [-> Hf]. f_equal.
    apply (f_equal (map (fun p => mkFDH p.1 p.2))) in Hf. by rewrite !map_map in Hf.
Qed.

(** *** The numbering of type identifiers *)

(** The base types and the identifiers of their array forms. *)
Definition base_ids : list Z := ([1; 2; 3; 4; 5; 6; 7; 8; 9; 10; 11; 15; 17])%Z.

Lemma base_type_offset b :
  b ∈ base_ids ->
  TypeId.base_type b = b /\
  TypeId.base_type (b + TypeId.ARRAY_OFFSET) = b /\
  TypeId.base_type (b + TypeId.BOUNDED_SEQUENCE_OFFSET) = b /\
  TypeId.base_type (b + TypeId.UNBOUNDED_SEQUENCE_OFFSET) = b.
Proof.
  unfold base_ids. intros H.
  repeat (apply elem_of_cons in H as [->|H]; [by vm_compute|]). by apply elem_of_nil in H.
Qed.

(** The four forms of a type are told apart by the predicates. *)
Lemma form_offset b :
  b ∈ base_ids ->
  let forms i := (TypeId.is_array i, TypeId.is_bounded_sequence i, TypeId.is_unbounded_sequence i) in
  forms b = (false, false, false) /\
  forms (b + TypeId.ARRAY_OFFSET)%Z = (true, false, false) /\
  forms (b + TypeId.BOUNDED_SEQUENCE_OFFSET)%Z = (false, true, false) /\
  forms (b + TypeId.UNBOUNDED_SEQUENCE_OFFSET)%Z = (false, false, true).
Proof.
  unfold base_ids. intros H.
  repeat (apply elem_of_cons in H as [->|H]; [by vm_compute|]). by apply elem_of_nil in H.
Qed.

(** *** Concrete packages, for the witnesses *)

#[export] Instance ftd_eq_dec : EqDecision FieldTypeDescription.
Proof. solve_decision. Defined.
#[export] Instance ftd_countable : Countable FieldTypeDescription.
Proof.
  apply (inj_countable' (fun t => (type_id t, capacity t, string_capacity t, nested_type_name t))
    (fun '(a, b, c, d) => mkFTD a b c d)). by intros [].
Defined.
#[export] Instance fdh_eq_dec : EqDecision FieldDescriptionForHash.
Proof. solve_decision. Defined.
#[export] Instance fdh_countable : Countable FieldDescriptionForHash.
Proof. apply (inj_countable' (fun f => (fdh_name f, fdh_type f)) (fun '(a, b) => mkFDH a b)). by intros []. Defined.
#[export] Instance tdh_eq_dec : EqDecision TypeDescriptionForHash.
Proof. solve_decision. Defined.
#[export] Instance tdh_countable : Countable TypeDescriptionForHash.
Proof. apply (inj_countable' (fun f => (tdh_name f, tdh_fields f)) (fun '(a, b) => mkTDH a b)). by intros []. Defined.
#[export] Instance tdmh_eq_dec : EqDecision TypeDescriptionMsgForHash.
Proof. solve_decision. Defined.
#[export] Instance tdmh_countable : Countable TypeDescriptionMsgForHash.
Proof. apply (inj_countable' (fun f => (tdmh_type f, tdmh_referenced f)) (fun '(a, b) => mkTDMH a b)). by intros []. Defined.

(** A text of digits for each value, and the length for a hash. *)
Definition ex_hash : HashApi := {|
  serde_json_to_string v := Ok (NilZero.string_of_uint (N.to_uint (Npos (encode v))));
  sha256 s := replicate 32 (Z.of_nat (String.length s) mod 256)%Z;
|}.

Lemma digits_compact s : all_chars is_ascii_digit s = true -> compact s = true.
Proof.
  induction s as [|c s IH]; [done|]. intros H.
  change (is_ascii_digit c && all_chars is_ascii_digit s = true) in H.
  apply andb_true_iff in H as [Hc Hs]. destruct s as [|d s]; [done|].
  change (negb (is_json_separator c && Ascii.eqb d " ") && compact (String d s) = true).
  rewrite (IH Hs), andb_true_r. apply negb_true_iff, andb_false_iff. left.
  unfold is_json_separator. destruct (Ascii.eqb_spec c ":") as [->|]; [done|].
  destruct (Ascii.eqb_spec c ",") as [->|]; done.
Qed.

Lemma ex_hash_laws : @HashLaws ex_hash.
Proof.
  split; cbn.
  - by eexists.
  - intros v w [= H]. apply (inj encode). apply (f_equal NilZero.uint_of_string) in H.
    rewrite !NilZero.usu in H by apply (uint_nonnil (Npos _)). injection H as H.
    apply (f_equal N.of_uint) in H.
    change (N.of_uint (N.to_uint (Npos (encode v))) = N.of_uint (N.to_uint (Npos (encode w)))) in H.
    rewrite (DecimalN.Unsigned.of_to (Npos (encode v))), (DecimalN.Unsigned.of_to (Npos (encode w))) in H.
    by injection H.
  - intros v j _ [= <-]. apply digits_compact, string_of_uint_digits.
Qed.

Definition ex_hex : HexApi := {|
  hex_encode := hex_string;
  hex_decode s :=
    match mapM (fun c => u8_from_hex (chunk_str c)) (chunks2 (str_bytes s)) with
    | Some bs => Ok bs
    | None => Err "Invalid character"
    end;
|}.

Lemma ex_hex_laws : @HexLaws ex_hex.
Proof.
  split; [done|]. intros bs Hb. unfold hex_encode, hex_decode, ex_hex. rewrite chunks2_hex.
  replace (mapM _ _) with (Some bs); [done|]. symmetry. apply mapM_Some.
  induction Hb as [|b bs Hb _ IH]; cbn; constructor; [by apply chunk_hex2 | done].
Qed.

(** ** Properties *)

Section Properties.
Context `{HL : HashLaws}.

(** The hash never panics; it is SHA-256 of a text; and two descriptions
    (whose names hold no separator followed by a space) have the same text
    exactly when they are the same up to default values: equal hashes of
    different descriptions are collisions of SHA-256. *)
Theorem calculate_hash_determines a b :
  names_compact (to_hash_version a) -> names_compact (to_hash_version b) ->
  exists x y,
    calculate_hash (E := string) a = Ok (sha256 x) /\ calculate_hash (E := string) b = Ok (sha256 y) /\
  (to_hash_version a = to_hash_version b <-> x = y).
Proof.
  intros Ha Hb. unfold calculate_hash, to_ros2_json.
  destruct (json_total (to_hash_version a)) as [j Hj], (json_total (to_hash_version b)) as [k Hk].
  rewrite Hj, Hk. exists (space_json j), (space_json k). split_and!; [done..|]. split.
  - intros E. rewrite E in Hj. congruence.
  - intros E. apply json_inj. rewrite Hj, Hk. f_equal.
    apply space_json_inj; [exact (json_compact _ _ Ha Hj) | exact (json_compact _ _ Hb Hk) | done].
Qed.
End Properties.

Lemma calculate_hash_determines_witness :
  let td n := mkTDM (mkTD n [mkFD "x" (ftd_primitive 3) "7"]) [] in
  exists x y,
    calculate_hash (HA := ex_hash) (E := string) (td "a/msg/A") = Ok (@sha256 ex_hash x) /\
  calculate_hash (HA := ex_hash) (E := string) (td "a/msg/B") = Ok (@sha256 ex_hash y) /\
  (to_hash_version (td "a/msg/A") = to_hash_version (td "a/msg/B") <-> x = y).
Proof.
  apply (calculate_hash_determines (HL := ex_hash_laws)); by repeat constructor.
Defined.

(** The two hash types of the workspace agree: the text that ros-z-schema
    writes for a hash is read back by ros-z-schema, and read by ros-z-protocol
    (as a version 1 hash) from a liveliness token. *)
Theorem schema_hash_text `{HexLaws} h :
  Forall (u_range 8) h -> length h = 32%nat ->
  schema_from_rihs_string (schema_to_rihs_string h) = Ok h /\
  from_rihs_string (schema_to_rihs_string h) = Some (mkHash 1 h).
Proof.
  intros Hb Hl. unfold schema_to_rihs_string, schema_from_rihs_string. split.
  - rewrite strip_prefix_app, hex_decode_encode by done. cbn [map_err mbind res_bind].
    by rewrite Hl.
  - rewrite hex_encode_lower by done. apply (from_rihs_to_rihs (mkHash 1 h)). by split.
Qed.

Lemma schema_hash_text_witness :
  let h := replicate 32 171%Z in
  schema_from_rihs_string (HX := ex_hex) (schema_to_rihs_string (HX := ex_hex) h) = Ok h /\
  from_rihs_string (schema_to_rihs_string (HX := ex_hex) h) = Some (mkHash 1 h).
Proof.
  apply (schema_hash_text (H0 := ex_hex_laws)); [|done]. by apply Forall_replicate.
Defined.
