(* ===== verification/RmwZenoh.v ===== *)
(** * The rmw_zenoh key expression format
    (crates/ros-z-protocol/src/format/rmw_zenoh.rs)

    [RmwZenohFormatter]: topic key expressions, liveliness tokens of endpoints
    and nodes, and the parser of tokens.  [mangle_name] and [demangle_name] are
    the provided methods of the trait [KeyExprFormatter] (format/mod.rs) at the
    escape character ['%'].  The main theorems: a token parses back to the
    normal form of the entity it was generated from, and the topic key of two
    endpoints is the same exactly when they should communicate. *)
From S2P Require Import Prelude Utf8 RustStr Qos Entity.
Open Scope string_scope.

(** ** Definitions *)

Definition EMPTY_PLACEHOLDER : string := "%".
Definition EMPTY_TOPIC_TYPE : string := "EMPTY_TOPIC_TYPE".
Definition EMPTY_TOPIC_HASH : string := "EMPTY_TOPIC_HASH".

Definition ESCAPE_CHAR : string := "%".
Definition ADMIN_SPACE : string := "@ros2_lv".

(** [KeyExprFormatter::mangle_name] and [demangle_name]. *)
Definition mangle_name (name : string) : string := replace "/" ESCAPE_CHAR name.
Definition demangle_name (name : string) : string := replace ESCAPE_CHAR "/" name.

(** [iter.next().ok_or(e)?] on the iterator of the chunks. *)
Definition next (iter : list string) (e : EntityConversionError)
    : res ZError (string * list string) :=
  match iter with
  | [] => Err (Boxed e)
  | x :: iter' => Ok (x, iter')
  end.

(** [x.parse().map_err(|_| ParsingError)?]. *)
Definition parsed {A} (o : option A) : res ZError A := ok_or o (Boxed ParsingError).

(** [s.strip_prefix('/').unwrap_or(s)], then the same for the suffix. *)
Definition strip_slashes (s : string) : string :=
  let s := default s (strip_prefix "/" s) in
  default s (strip_suffix_char "/" s).

Section Rmw.
Context `{ZA : ZenohApi}.

(** [RmwZenohFormatter::topic_key_expr]. *)
Definition topic_key_expr (entity : EndpointEntity) : res ZError TopicKE :=
  let domain_id := domain_id (ep_node entity) in
  let topic := strip_slashes (ep_topic entity) in
  let type_info :=
    match ep_type_info entity with
    | None => EMPTY_TOPIC_TYPE ++ "/" ++ EMPTY_TOPIC_HASH
    | Some x =>
        let type_name := demangle_name (ti_name x) in
        let type_hash := demangle_name (TypeHash_fmt (ti_hash x)) in
        type_name ++ "/" ++ type_hash
    end in
  try_into_keyexpr (Z_dec domain_id ++ "/" ++ topic ++ "/" ++ type_info).

(** [RmwZenohFormatter::liveliness_key_expr]; the second argument is unused. *)
Definition liveliness_key_expr (entity : EndpointEntity) (_zid : ZenohId)
    : res ZError LivelinessKE :=
  let node := ep_node entity in
  let namespace :=
    if String.eqb (node_namespace node) "" then EMPTY_PLACEHOLDER
    else mangle_name (node_namespace node) in
  let name := mangle_name (node_name node) in
  let topic_name :=
    let s := default (ep_topic entity) (strip_suffix_char "/" (ep_topic entity)) in
    mangle_name s in
  let type_info_str :=
    match ep_type_info entity with
    | None => EMPTY_TOPIC_TYPE ++ "/" ++ EMPTY_TOPIC_HASH
    | Some x => mangle_name (ti_name x) ++ "/" ++ to_rihs_string (ti_hash x)
    end in
  let qos_str := encode (ep_qos entity) in
  try_into_keyexpr
    (ADMIN_SPACE ++ "/" ++ Z_dec (domain_id node) ++ "/" ++ zid_fmt (z_id node) ++ "/"
     ++ Z_dec (node_id node) ++ "/" ++ Z_dec (ep_id entity) ++ "/"
     ++ EntityKind_fmt (ep_kind entity) ++ "/" ++ EMPTY_PLACEHOLDER ++ "/" ++ namespace
     ++ "/" ++ name ++ "/" ++ topic_name ++ "/" ++ type_info_str ++ "/" ++ qos_str).

(** [RmwZenohFormatter::node_liveliness_key_expr]. *)
Definition node_liveliness_key_expr (entity : NodeEntity) : res ZError LivelinessKE :=
  let namespace :=
    if String.eqb (node_namespace entity) "" then EMPTY_PLACEHOLDER
    else mangle_name (node_namespace entity) in
  let name := mangle_name (node_name entity) in
  try_into_keyexpr
    (ADMIN_SPACE ++ "/" ++ Z_dec (domain_id entity) ++ "/" ++ zid_fmt (z_id entity) ++ "/"
     ++ Z_dec (node_id entity) ++ "/" ++ Z_dec (node_id entity) ++ "/" ++ "NN" ++ "/"
     ++ EMPTY_PLACEHOLDER ++ "/" ++ namespace ++ "/" ++ name).

(** The namespace and enclave chunks. *)
Definition placeholder_or_demangle (x : string) : string :=
  if String.eqb x EMPTY_PLACEHOLDER then "" else demangle_name x.

(** The type information of a token. *)
Definition parse_type_info (topic_type topic_hash : string) : option TypeInfo :=
  if String.eqb topic_type EMPTY_TOPIC_TYPE || String.eqb topic_hash EMPTY_TOPIC_HASH then None
  else
    let type_hash := default (TypeHash_new 0 (replicate 32 0%Z)) (from_rihs_string topic_hash) in
    Some (mkTypeInfo (demangle_name topic_type) type_hash).

(** [RmwZenohFormatter::parse_liveliness]. *)
Definition parse_liveliness (ke : LivelinessKE) : res ZError Entity :=
  let iter := split_on "/" ke in
  '(admin, iter) ← next iter MissingAdminSpace;
  if negb (String.eqb admin ADMIN_SPACE) then Err (Boxed MissingAdminSpace) else
  '(x, iter) ← next iter MissingDomainId;
  domain_id ← parsed (parse_usize x);
  '(x, iter) ← next iter MissingZId;
  z_id ← parsed (zid_parse x);
  '(x, iter) ← next iter MissingNodeId;
  node_id ← parsed (parse_usize x);
  '(x, iter) ← next iter MissingEntityId;
  entity_id ← parsed (parse_usize x);
  '(x, iter) ← next iter MissingEntityKind;
  entity_kind ← map_err (fun _ => Boxed ParsingError) (EntityKind_from_str x);
  '(x, iter) ← next iter MissingEnclave;
  let enclave := placeholder_or_demangle x in
  '(x, iter) ← next iter MissingNamespace;
  let namespace := placeholder_or_demangle x in
  '(x, iter) ← next iter MissingNodeName;
  let node_name := demangle_name x in
  let node := mkNode domain_id z_id node_id node_name namespace enclave in
  match entity_kind with
  | KNode => Ok (ENode node)
  | _ =>
      '(x, iter) ← next iter MissingTopicName;
      let topic_name := demangle_name x in
      '(topic_type, iter) ← next iter MissingTopicType;
      '(topic_hash, iter) ← next iter MissingTopicHash;
      let type_info := parse_type_info topic_type topic_hash in
      '(x, iter) ← next iter MissingTopicQoS;
      qos ← map_err (fun e => Boxed (EQosDecodeError e)) (decode x);
      Ok (EEndpoint (mkEndpoint entity_id node entity_kind topic_name type_info qos))
  end.

(** [RmwZenohFormatter::encode_qos] and [decode_qos]. *)
Definition encode_qos (qos : QosProfile) (_keyless : bool) : string := encode qos.
Definition decode_qos (s : string) : res ZError (bool * QosProfile) :=
  qos ← map_err (fun e => Message ("QoS decode error: " ++ QosDecodeError_fmt e)) (decode s);
  Ok (false, qos).

(** *** Specification: what a token keeps of an entity *)

(** Mangling maps ['/'] and ['%'] to the same chunk character, the root
    namespace reads back as the empty one, the enclave is not sent. *)
Definition norm_namespace (ns : string) : string :=
  if String.eqb ns "/" || String.eqb ns "%" then "" else demangle_name ns.
Definition norm_node (n : NodeEntity) : NodeEntity :=
  mkNode (domain_id n) (z_id n) (node_id n) (demangle_name (node_name n))
    (norm_namespace (node_namespace n)) "".
Definition norm_type_info (t : TypeInfo) : option TypeInfo :=
  if String.eqb (ti_name t) EMPTY_TOPIC_TYPE then None
  else Some (mkTypeInfo (demangle_name (ti_name t))
    (if (version (ti_hash t) =? 1)%Z then ti_hash t else mkHash 0 (replicate 32 0%Z))).
Definition norm_endpoint (e : EndpointEntity) : Entity :=
  match ep_kind e with
  | KNode => ENode (norm_node (ep_node e))
  | k =>
      EEndpoint (mkEndpoint (ep_id e) (norm_node (ep_node e)) k
        (demangle_name (default (ep_topic e) (strip_suffix_char "/" (ep_topic e))))
        (ep_type_info e ≫= norm_type_info) (ep_qos e))
  end.

(** The entities a token represents exactly. *)
Definition plain (s : string) : Prop := contains_char "%" s = false.
Definition canonical_node (n : NodeEntity) : Prop :=
  plain (node_name n) /\ plain (node_namespace n) /\ node_namespace n <> "/" /\
  node_enclave n = "".
Definition canonical (e : EndpointEntity) : Prop :=
  ep_kind e <> KNode /\ canonical_node (ep_node e) /\ plain (ep_topic e) /\
  ends_with_char "/" (ep_topic e) = false /\
  match ep_type_info e with
  | None => True
  | Some t => plain (ti_name t) /\ ti_name t <> EMPTY_TOPIC_TYPE /\ version (ti_hash t) = 1%Z
  end.
End Rmw.

(** ** Lemmas *)

Lemma demangle_mangle s : demangle_name (mangle_name s) = demangle_name s.
Proof.
  unfold demangle_name, mangle_name, ESCAPE_CHAR. induction s as [|a s IH]; [done|].
  rewrite (replace_char_cons "/"), (replace_char_cons "%" "/" a s).
  destruct (Ascii.eqb_spec a "/") as [->|Hne]; cbn [append]; rewrite replace_char_cons, IH; done.
Qed.

Lemma demangle_plain s : plain s -> demangle_name s = s.
Proof. apply replace_char_absent. Qed.

Lemma mangle_no_slash s : contains_char "/" (mangle_name s) = false.
Proof. by apply replace_char_contains. Qed.

(** The chunk of a namespace. *)
Definition namespace_chunk (ns : string) : string :=
  if String.eqb ns "" then EMPTY_PLACEHOLDER else mangle_name ns.

Lemma namespace_chunk_no_slash ns : contains_char "/" (namespace_chunk ns) = false.
Proof. unfold namespace_chunk. destruct (String.eqb ns ""); [done | apply mangle_no_slash]. Qed.

Lemma namespace_chunk_parse ns :
  placeholder_or_demangle (namespace_chunk ns) = norm_namespace ns.
Proof.
  unfold placeholder_or_demangle, namespace_chunk, norm_namespace.
  destruct (String.eqb_spec ns "") as [->|Hne]; [done|].
  destruct (String.eqb_spec ns "/") as [->|H1]; [done|].
  destruct (String.eqb_spec ns "%") as [->|H2]; [done|]. cbn [orb].
  destruct (String.eqb_spec (mangle_name ns) EMPTY_PLACEHOLDER) as [E|E];
    [|apply demangle_mangle]. exfalso.
  destruct ns as [|a [|b ns]]; [done| |].
  - unfold mangle_name, ESCAPE_CHAR in E. rewrite replace_char_cons in E.
    destruct (Ascii.eqb_spec a "/") as [->|]; [done|]. cbn in E. injection E as ->. done.
  - apply (f_equal str_len) in E. unfold mangle_name, str_len, ESCAPE_CHAR in E.
    rewrite !replace_char_cons, !length_app_str in E.
    destruct (Ascii.eqb a "/"), (Ascii.eqb b "/"); cbn in E; lia.
Qed.

Lemma to_rihs_not_empty h : to_rihs_string h <> EMPTY_TOPIC_HASH.
Proof. unfold to_rihs_string. by destruct (version h =? 1)%Z. Qed.

Lemma mangle_contains_percent s :
  contains_char "%" (mangle_name s) = contains_char "/" s || contains_char "%" s.
Proof.
  unfold mangle_name, ESCAPE_CHAR. induction s as [|a s IH]; [done|].
  rewrite replace_char_cons, contains_char_app, IH. cbn [contains_char].
  destruct (Ascii.eqb a "/"); cbn [contains_char orb]; [done|].
  by destruct (Ascii.eqb a "%"), (contains_char "/" s).
Qed.

(** Mangling does not create a text without special characters. *)
Lemma mangle_eq_plain s t :
  mangle_name s = t -> plain t -> s = t.
Proof.
  unfold plain. intros <-. rewrite mangle_contains_percent. intros [Hs _]%orb_false_iff.
  symmetry. by apply replace_char_absent.
Qed.

Lemma parse_type_info_mangle t :
  hash_ok (ti_hash t) ->
  parse_type_info (mangle_name (ti_name t)) (to_rihs_string (ti_hash t)) = norm_type_info t.
Proof.
  intros Ht. unfold parse_type_info, norm_type_info.
  rewrite (proj2 (String.eqb_neq _ _) (to_rihs_not_empty (ti_hash t))), orb_false_r.
  rewrite from_rihs_to_rihs, demangle_mangle by done.
  destruct (String.eqb_spec (mangle_name (ti_name t)) EMPTY_TOPIC_TYPE) as [E|E].
  - by rewrite (mangle_eq_plain _ _ E eq_refl).
  - destruct (String.eqb_spec (ti_name t) EMPTY_TOPIC_TYPE) as [E'|_]; [by rewrite E' in E|].
    by destruct (version (ti_hash t) =? 1)%Z.
Qed.

Lemma try_into_keyexpr_inv `{ZenohApi} s ke : try_into_keyexpr s = Ok ke -> ke = s.
Proof. unfold try_into_keyexpr. case_match; intros; by simplify_eq. Qed.

Section Parsing.
Context `{ZL : ZenohLaws}.

(** Reading the nine chunks every token has. *)
Definition token_prefix (n : NodeEntity) (eid : Z) (k : EntityKind) : list string :=
  [ADMIN_SPACE; Z_dec (domain_id n); zid_fmt (z_id n); Z_dec (node_id n); Z_dec eid;
   EntityKind_fmt k; EMPTY_PLACEHOLDER; namespace_chunk (node_namespace n);
   mangle_name (node_name n)].

Definition endpoint_chunks (e : EndpointEntity) : list string :=
  mangle_name (default (ep_topic e) (strip_suffix_char "/" (ep_topic e))) ::
  match ep_type_info e with
  | None => [EMPTY_TOPIC_TYPE; EMPTY_TOPIC_HASH]
  | Some x => [mangle_name (ti_name x); to_rihs_string (ti_hash x)]
  end ++ [encode (ep_qos e)].

Lemma token_prefix_no_slash n eid k :
  Forall (fun p => contains_char "/" p = false) (token_prefix n eid k).
Proof.
  unfold token_prefix.
  repeat (apply List.Forall_cons; [first [done | by apply Z_dec_contains | apply zid_fmt_no_slash
    | apply EntityKind_fmt_no_slash | apply namespace_chunk_no_slash | apply mangle_no_slash]|]).
  constructor.
Qed.

Lemma endpoint_chunks_no_slash e :
  endpoint_ok e -> Forall (fun p => contains_char "/" p = false) (endpoint_chunks e).
Proof.
  intros (_ & _ & _ & Hh). unfold endpoint_chunks.
  apply List.Forall_cons; [apply mangle_no_slash|]. apply Forall_app_2.
  - destruct (ep_type_info e) as [t|]; repeat apply List.Forall_cons; try done;
      [apply mangle_no_slash | by apply to_rihs_no_slash].
  - apply List.Forall_cons; [apply encode_no_slash | done].
Qed.

(** The text of a token is its chunks. *)
Lemma liveliness_key_expr_inv e zid ke :
  liveliness_key_expr e zid = Ok ke ->
  ke = join_on "/" (token_prefix (ep_node e) (ep_id e) (ep_kind e) ++ endpoint_chunks e).
Proof.
  intros ->%try_into_keyexpr_inv. unfold token_prefix, endpoint_chunks, namespace_chunk.
  destruct (ep_type_info e) as [t|]; cbn [List.app join_on append];
    rewrite ?app_assoc_str; cbn [append]; rewrite ?app_assoc_str; done.
Qed.

Lemma node_liveliness_key_expr_inv n ke :
  node_liveliness_key_expr n = Ok ke ->
  ke = join_on "/" (token_prefix n (node_id n) KNode).
Proof. by intros ->%try_into_keyexpr_inv. Qed.

(** Parsing a token made of the prefix chunks and [rest]. *)
Lemma parse_token n eid k rest :
  node_ok n -> u_range 64 eid -> Forall (fun p => contains_char "/" p = false) rest ->
  parse_liveliness (join_on "/" (token_prefix n eid k ++ rest)) =
    match k with
    | KNode => Ok (ENode (norm_node n))
    | _ =>
        '(x, iter) ← next rest MissingTopicName;
        '(topic_type, iter) ← next iter MissingTopicType;
        '(topic_hash, iter) ← next iter MissingTopicHash;
        '(q, iter) ← next iter MissingTopicQoS;
        qos ← map_err (fun e => Boxed (EQosDecodeError e)) (decode q);
        Ok (EEndpoint (mkEndpoint eid (norm_node n) k (demangle_name x)
          (parse_type_info topic_type topic_hash) qos))
    end.
Proof.
  intros [Hd Hn] He Hrest. unfold parse_liveliness. rewrite split_on_join; [|done|].
  2: { apply Forall_app_2; [apply token_prefix_no_slash | done]. }
  unfold token_prefix. cbn [List.app next mbind res_bind].
  rewrite String.eqb_refl. cbn [negb].
  rewrite !parse_usize_Z_dec, zid_parse_fmt by done. cbn [parsed ok_or mbind res_bind].
  rewrite EntityKind_from_str_fmt, namespace_chunk_parse. cbn [map_err mbind res_bind].
  rewrite demangle_mangle. by destruct k.
Qed.

(** The type information chunks. *)
Lemma endpoint_chunks_type e :
  endpoint_ok e ->
  exists ty h, endpoint_chunks e =
      [mangle_name (default (ep_topic e) (strip_suffix_char "/" (ep_topic e))); ty; h;
       encode (ep_qos e)] /\
    parse_type_info ty h = (ep_type_info e ≫= norm_type_info).
Proof.
  intros (_ & _ & _ & Hh). unfold endpoint_chunks.
  destruct (ep_type_info e) as [t|]; do 2 eexists; (split; [reflexivity|]); [|done].
  by apply parse_type_info_mangle.
Qed.

Lemma parse_liveliness_token e zid ke :
  endpoint_ok e -> liveliness_key_expr e zid = Ok ke ->
  parse_liveliness ke = Ok (norm_endpoint e).
Proof.
  intros He ->%liveliness_key_expr_inv. pose proof He as (Hid & Hn & Hq & _).
  rewrite parse_token by (done || by apply endpoint_chunks_no_slash).
  destruct (endpoint_chunks_type e He) as (ty & h & -> & Ht).
  unfold norm_endpoint. destruct (ep_kind e); [done|..]; cbn [next mbind res_bind];
    rewrite decode_encode, Ht, demangle_mangle by done; done.
Qed.

Lemma norm_canonical_node n : canonical_node n -> norm_node n = n.
Proof.
  intros (Hn & Hs & Hr & He). unfold norm_node, norm_namespace.
  destruct (String.eqb_spec (node_namespace n) "/") as [|_]; [done|].
  destruct (String.eqb_spec (node_namespace n) "%") as [E|_]; [by rewrite E in Hs|].
  rewrite !demangle_plain by done. destruct n. cbn in *. by subst.
Qed.

Lemma norm_canonical e : canonical e -> norm_endpoint e = EEndpoint e.
Proof.
  intros (Hk & Hn & Ht & Hs & Hi). unfold norm_endpoint.
  rewrite norm_canonical_node, strip_suffix_char_None by done. cbn [default].
  rewrite demangle_plain by done.
  assert (ep_type_info e ≫= norm_type_info = ep_type_info e) as ->.
  { destruct (ep_type_info e) as [t|]; [|done]. destruct Hi as (Hp & Hne & Hv).
    cbn. unfold norm_type_info. rewrite Hv, (proj2 (String.eqb_neq _ _) Hne).
    rewrite demangle_plain by done. by destruct t. }
  destruct e as [? ? [] ? ? ?]; done.
Qed.
End Parsing.

(** *** Topic keys *)

(** What a topic key says about the type. *)
Definition type_key (t : option TypeInfo) : option (string * TypeHash) :=
  match t with
  | None => None
  | Some x => Some (ti_name x, ti_hash x)
  end.

Definition type_chunks (t : option TypeInfo) : list string :=
  match t with
  | None => [EMPTY_TOPIC_TYPE; EMPTY_TOPIC_HASH]
  | Some x => [ti_name x; to_rihs_string (ti_hash x)]
  end.

(** A type name that is one chunk, as DDS type names are. *)
Definition type_name_ok (t : option TypeInfo) : Prop :=
  match t with
  | None => True
  | Some x => contains_char "/" (ti_name x) = false /\ plain (ti_name x) /\ hash_ok (ti_hash x)
  end.

Lemma Z_dec_inj n m : u_range 64 n -> u_range 64 m -> Z_dec n = Z_dec m -> n = m.
Proof.
  intros Hn Hm He. pose proof (parse_usize_Z_dec n Hn) as E1.
  pose proof (parse_usize_Z_dec m Hm) as E2. rewrite He in E1. congruence.
Qed.

Lemma type_chunks_inj t u :
  type_name_ok t -> type_name_ok u -> type_chunks t = type_chunks u -> type_key t = type_key u.
Proof.
  destruct t as [[n h]|], u as [[m k]|]; cbn; intros Ht Hu He; [| | |done];
    injection He as Hn Hh.
  - by rewrite Hn, (to_rihs_inj h k) by (apply Ht || apply Hu || done).
  - by apply to_rihs_not_empty in Hh.
  - symmetry in Hh. by apply to_rihs_not_empty in Hh.
Qed.

Lemma split_topic_key `{ZenohApi} e ke :
  type_name_ok (ep_type_info e) -> topic_key_expr e = Ok ke ->
  split_on "/" ke = (Z_dec (domain_id (ep_node e)) ::
    split_on "/" (strip_slashes (ep_topic e)) ++ type_chunks (ep_type_info e))%list.
Proof.
  intros Ht ->%try_into_keyexpr_inv.
  cbn [append]. rewrite split_on_app by (by apply Z_dec_contains). f_equal.
  destruct (ep_type_info e) as [[n h]|]; cbn [ti_name ti_hash type_chunks] in *.
  - destruct Ht as (Hn & Hp & Hh). cbn in Hn, Hp. rewrite !demangle_plain;
      [|by apply to_rihs_no_percent|done].
    rewrite split_on_app_sep. f_equal. cbn [append]. rewrite split_on_app by done.
    f_equal. apply split_on_none. by apply to_rihs_no_slash.
  - by rewrite split_on_app_sep.
Qed.

(** ** Properties *)

Section Properties.
Context `{ZL : ZenohLaws}.

(** C15 Round trip of endpoint tokens: whatever entity an endpoint token was
    generated from, parsing it gives the entity's normal form (the enclave is
    dropped, ['%'] and ['/'] are identified in names, the root namespace
    becomes empty, one trailing slash of the topic is removed, a hash of
    another version than 1 becomes zero), and the entity itself when it is
    canonical. *)
Theorem liveliness_roundtrip (e : EndpointEntity) (zid : ZenohId) ke :
  endpoint_ok e -> liveliness_key_expr e zid = Ok ke ->
  parse_liveliness ke = Ok (norm_endpoint e) /\
  (canonical e -> parse_liveliness ke = Ok (EEndpoint e)).
Proof.
  intros He Hk. rewrite (parse_liveliness_token e zid) by done.
  split; [done|]. intros Hc. by rewrite norm_canonical.
Qed.

(** Round trip of node tokens: parsing the token of a node gives the node
    without its enclave, and the node itself when it is canonical. *)
Theorem node_liveliness_roundtrip (n : NodeEntity) ke :
  node_ok n -> node_liveliness_key_expr n = Ok ke ->
  parse_liveliness ke = Ok (ENode (norm_node n)) /\
  (canonical_node n -> parse_liveliness ke = Ok (ENode n)).
Proof.
  intros Hn ->%node_liveliness_key_expr_inv.
  pose proof (parse_token n (node_id n) KNode [] Hn (proj2 Hn) (Forall_nil_2 _)) as Hp.
  rewrite List.app_nil_r in Hp. rewrite Hp. split; [done|].
  intros Hc. by rewrite norm_canonical_node.
Qed.

(** Two endpoints (of nodes with a [usize] domain and one-chunk type names)
    get the same topic key expression exactly when they agree on the domain,
    on the topic up to one leading and one trailing slash, on the type name
    and on the type hash: messages flow between those and no others. *)
Theorem topic_key_expr_match (e1 e2 : EndpointEntity) ke1 ke2 :
  node_ok (ep_node e1) -> node_ok (ep_node e2) ->
  type_name_ok (ep_type_info e1) -> type_name_ok (ep_type_info e2) ->
  topic_key_expr e1 = Ok ke1 -> topic_key_expr e2 = Ok ke2 ->
  ke1 = ke2 <->
  domain_id (ep_node e1) = domain_id (ep_node e2) /\
  strip_slashes (ep_topic e1) = strip_slashes (ep_topic e2) /\
  type_key (ep_type_info e1) = type_key (ep_type_info e2).
Proof.
  intros Hn1 Hn2 Ht1 Ht2 H1 H2.
  pose proof (split_topic_key e1 ke1 Ht1 H1) as S1.
  pose proof (split_topic_key e2 ke2 Ht2 H2) as S2. split.
  - intros <-. rewrite S1 in S2. injection S2 as Hd Hs.
    split; [apply Z_dec_inj; [apply Hn1 | apply Hn2 | done]|].
    assert (length (type_chunks (ep_type_info e1)) = length (type_chunks (ep_type_info e2))) as Hl
      by (by destruct (ep_type_info e1), (ep_type_info e2)).
    apply app_inj_2 in Hs as [Hs Hc]; [|done]. split; [|by apply type_chunks_inj].
    by rewrite <- (join_split_on "/" (strip_slashes (ep_topic e1))), Hs, join_split_on.
  - intros (Hd & Hs & Ht). rewrite <- (join_split_on "/" ke1), <- (join_split_on "/" ke2), S1, S2.
    rewrite Hd, Hs. do 3 f_equal.
    destruct (ep_type_info e1) as [[??]|], (ep_type_info e2) as [[??]|]; cbn in *; by simplify_eq.
Qed.
End Properties.

(** Concrete entities, for the witnesses. *)
Definition ex_node : NodeEntity (ZA := ex_zenoh) :=
  mkNode (ZA := ex_zenoh) 0 42%N 1 "talker" "/ns" "".
Definition ex_endpoint : EndpointEntity (ZA := ex_zenoh) :=
  mkEndpoint (ZA := ex_zenoh) 2 ex_node KPublisher "/ns/chatter"
    (Some (mkTypeInfo "std_msgs::msg::dds_::String_" (mkHash 1 (replicate 32 171%Z))))
    (mkQos BestEffort Volatile (KeepLast 5)).

Lemma ex_endpoint_ok : endpoint_ok ex_endpoint.
Proof.
  repeat split; try done. apply (Forall_replicate (u_range 8)). by split.
Qed.

Lemma ex_canonical : canonical ex_endpoint.
Proof. by repeat split. Qed.

Lemma liveliness_roundtrip_witness :
  parse_liveliness (ZA := ex_zenoh)
    (default "" (match liveliness_key_expr ex_endpoint 42%N with Ok k => Some k | _ => None end)) =
  Ok (EEndpoint ex_endpoint).
Proof.
  eapply (proj2 (liveliness_roundtrip (ZL := ex_zenoh_laws) ex_endpoint 42%N _ ex_endpoint_ok _)).
  apply ex_canonical.
  Unshelve. vm_compute. reflexivity.
Defined.

Lemma node_liveliness_roundtrip_witness :
  parse_liveliness (ZA := ex_zenoh) "@ros2_lv/0/42/1/1/NN/%/%ns/talker" =
    Ok (ENode (norm_node ex_node)) /\
  (canonical_node ex_node ->
   parse_liveliness (ZA := ex_zenoh) "@ros2_lv/0/42/1/1/NN/%/%ns/talker" = Ok (ENode ex_node)).
Proof.
  apply (node_liveliness_roundtrip (ZL := ex_zenoh_laws) ex_node); [by repeat split|].
  vm_compute. reflexivity.
Defined.

(** A publisher and a client of a topic without a type. *)
Definition ex_untyped (topic : string) (domain : Z) : EndpointEntity (ZA := ex_zenoh) :=
  mkEndpoint (ZA := ex_zenoh) 2 (mkNode (ZA := ex_zenoh) domain 42%N 1 "talker" "/ns" "")
    KPublisher topic None QosProfile_default.

Lemma topic_key_expr_match_witness :
  "3/ns/chatter/EMPTY_TOPIC_TYPE/EMPTY_TOPIC_HASH" =
    "3/ns/chatter/EMPTY_TOPIC_TYPE/EMPTY_TOPIC_HASH" <->
  3%Z = 3%Z /\ "ns/chatter" = "ns/chatter" /\ type_key None = type_key None.
Proof.
  apply (topic_key_expr_match (H := ex_zenoh) (ex_untyped "/ns/chatter" 3) (ex_untyped "ns/chatter/" 3));
    try done; vm_compute; reflexivity.
Defined.
