(* ===== verification/Ros2Dds.v ===== *)
(** * The zenoh-plugin-ros2dds key expression format
    (crates/ros-z-protocol/src/format/ros2dds.rs) and the format selector
    (crates/ros-z-protocol/src/format/mod.rs)

    [Ros2DdsFormatter]: topic keys, liveliness tokens, their parser and the
    QoS text; the escape character is the section sign (U+00A7, two bytes).
    [KeyExprFormat] dispatches to it or to [RmwZenohFormatter]. *)
From S2P Require Import Prelude Utf8 RustStr Qos Entity.
From S2P Require RmwZenoh.
Open Scope string_scope.

(** ** Definitions *)

Definition SLASH_REPLACEMENT_CHAR : string := "§".
Definition ADMIN_SPACE : string := "@ros2_lv".

(** [mangle_name] and [demangle_name] at this escape character. *)
Definition mangle_name (name : string) : string := replace "/" SLASH_REPLACEMENT_CHAR name.
Definition demangle_name (name : string) : string := replace SLASH_REPLACEMENT_CHAR "/" name.

Definition strip_slashes (s : string) : string :=
  let s := default s (strip_prefix "/" s) in
  default s (strip_suffix_char "/" s).

Definition next (iter : list string) (e : EntityConversionError)
    : res ZError (string * list string) :=
  match iter with
  | [] => Err (Boxed e)
  | x :: iter' => Ok (x, iter')
  end.

(** [Ros2DdsFormatter::encode_qos]: a buffer pushed to piece by piece. *)
Definition encode_qos (qos : QosProfile) (keyless : bool) : string :=
  let result := "" in
  let result := if negb keyless then result ++ "K" else result in
  let result := result ++ ":" in
  let result := result ++ match reliability qos with BestEffort => "0" | Reliable => "1" end in
  let result := result ++ ":" in
  let result := result ++ match durability qos with Volatile => "0" | TransientLocal => "1" end in
  let result := result ++ ":" in
  result ++ match history qos with
            | KeepLast depth => "0," ++ Z_dec depth
            | KeepAll => "1,0"
            end.

(** [Ros2DdsFormatter::decode_qos]. *)
Definition decode_qos (s : string) : res ZError (bool * QosProfile) :=
  let parts := split_on ":" s in
  if (length parts <? 4)%nat then
    Err (Message ("Invalid QoS format: expected at least 4 colon-separated parts, got "
      ++ Z_dec (Z.of_nat (length parts))))
  else
    p0 ← index parts 0;
    let keyless := String.eqb p0 "" in
    p1 ← index parts 1;
    let rel :=
      if String.eqb p1 "" then QosReliability_default
      else if String.eqb p1 "0" then BestEffort
      else if String.eqb p1 "1" then Reliable
      else QosReliability_default in
    p2 ← index parts 2;
    let dur :=
      if String.eqb p2 "" then QosDurability_default
      else if String.eqb p2 "0" then Volatile
      else if String.eqb p2 "1" then TransientLocal
      else QosDurability_default in
    p3 ← index parts 3;
    hist ← (if String.eqb p3 "" then Ok QosHistory_default
            else
              let history_parts := split_on "," p3 in
              if (2 <=? length history_parts)%nat then
                h1 ← index history_parts 1;
                let depth := default 10%Z (parse_usize h1) in
                h0 ← index history_parts 0;
                Ok (if String.eqb h0 "0" || String.eqb h0 "" then QosHistory_from_depth depth
                    else if String.eqb h0 "1" then KeepAll
                    else QosHistory_from_depth depth)
              else Ok QosHistory_default);
    Ok (keyless, mkQos rel dur hist).

Section Dds.
Context `{ZA : ZenohApi}.

(** [Ros2DdsFormatter::topic_key_expr]. *)
Definition topic_key_expr (entity : EndpointEntity) : res ZError TopicKE :=
  try_into_keyexpr (strip_slashes (ep_topic entity)).

(** [Ros2DdsFormatter::liveliness_key_expr]. *)
Definition liveliness_key_expr (entity : EndpointEntity) (zid : ZenohId)
    : res ZError LivelinessKE :=
  let kind :=
    match ep_kind entity with
    | KPublisher => "MP"
    | KSubscription => "MS"
    | KService => "SS"
    | KClient => "SC"
    | KNode => "NN"
    end in
  let topic := mangle_name (strip_slashes (ep_topic entity)) in
  let type_name :=
    match ep_type_info entity with
    | Some ti => mangle_name (ti_name ti)
    | None => "unknown"
    end in
  let qos_str :=
    match ep_kind entity with
    | KPublisher | KSubscription => "/" ++ encode_qos (ep_qos entity) false
    | _ => ""
    end in
  try_into_keyexpr
    ("@/" ++ zid_fmt zid ++ "/" ++ ADMIN_SPACE ++ "/" ++ kind ++ "/" ++ topic ++ "/"
     ++ type_name ++ qos_str).

(** [Ros2DdsFormatter::node_liveliness_key_expr]. *)
Definition node_liveliness_key_expr (_entity : NodeEntity) : res ZError LivelinessKE :=
  Err (Message "ros2dds backend does not support node liveliness tokens").

(** [Ros2DdsFormatter::parse_liveliness]. *)
Definition parse_liveliness (ke : LivelinessKE) : res ZError Entity :=
  let iter := split_on "/" ke in
  '(first, iter) ← next iter MissingAdminSpace;
  if negb (String.eqb first "@") then Err (Boxed MissingAdminSpace) else
  '(z_id_str, iter) ← next iter MissingZId;
  z_id ← ok_or (zid_parse z_id_str) (Boxed ParsingError);
  '(admin, iter) ← next iter MissingAdminSpace;
  if negb (String.eqb admin ADMIN_SPACE) then Err (Boxed MissingAdminSpace) else
  '(kind_str, iter) ← next iter MissingEntityKind;
  kind ← (if String.eqb kind_str "MP" then Ok KPublisher
          else if String.eqb kind_str "MS" then Ok KSubscription
          else if String.eqb kind_str "SS" then Ok KService
          else if String.eqb kind_str "SC" then Ok KClient
          else if String.eqb kind_str "AS" || String.eqb kind_str "AC" then Ok KService
          else Err (Boxed ParsingError));
  '(topic_escaped, iter) ← next iter MissingTopicName;
  let topic := demangle_name topic_escaped in
  '(type_escaped, iter) ← next iter MissingTopicType;
  let type_name := demangle_name type_escaped in
  qos ← match iter with
        | qos_str :: _ => '(_, qos) ← decode_qos qos_str; Ok qos
        | [] => Ok QosProfile_default
        end;
  let node := mkNode 0 z_id 0 "" "" "" in
  let type_info :=
    if String.eqb type_name "" || String.eqb type_name "unknown" then None
    else Some (mkTypeInfo type_name TypeHash_zero) in
  Ok (EEndpoint (mkEndpoint 0 node kind topic type_info qos)).
End Dds.

(** [enum KeyExprFormat] and its methods, with both formats built in (the
    default features). *)
Inductive KeyExprFormat := FRmwZenoh | FRos2Dds.
Definition KeyExprFormat_default : KeyExprFormat := FRmwZenoh.

Section Format.
Context `{ZA : ZenohApi}.

Definition format_topic_key_expr (f : KeyExprFormat) (entity : EndpointEntity)
    : res ZError TopicKE :=
  match f with
  | FRmwZenoh => RmwZenoh.topic_key_expr entity
  | FRos2Dds => topic_key_expr entity
  end.
Definition format_liveliness_key_expr (f : KeyExprFormat) (entity : EndpointEntity)
    (zid : ZenohId) : res ZError LivelinessKE :=
  match f with
  | FRmwZenoh => RmwZenoh.liveliness_key_expr entity zid
  | FRos2Dds => liveliness_key_expr entity zid
  end.
Definition format_node_liveliness_key_expr (f : KeyExprFormat) (entity : NodeEntity)
    : res ZError LivelinessKE :=
  match f with
  | FRmwZenoh => RmwZenoh.node_liveliness_key_expr entity
  | FRos2Dds => node_liveliness_key_expr entity
  end.
Definition format_parse_liveliness (f : KeyExprFormat) (ke : LivelinessKE) : res ZError Entity :=
  match f with
  | FRmwZenoh => RmwZenoh.parse_liveliness ke
  | FRos2Dds => parse_liveliness ke
  end.
Definition format_encode_qos (f : KeyExprFormat) (qos : QosProfile) (keyless : bool) : string :=
  match f with
  | FRmwZenoh => RmwZenoh.encode_qos qos keyless
  | FRos2Dds => encode_qos qos keyless
  end.
Definition format_decode_qos (f : KeyExprFormat) (s : string) : res ZError (bool * QosProfile) :=
  match f with
  | FRmwZenoh => RmwZenoh.decode_qos s
  | FRos2Dds => decode_qos s
  end.

(** *** Specification: what a token keeps of an endpoint *)
Definition norm_endpoint (e : EndpointEntity) (zid : ZenohId) : EndpointEntity :=
  mkEndpoint 0 (mkNode 0 zid 0 "" "" "") (ep_kind e)
    (demangle_name (strip_slashes (ep_topic e)))
    (match ep_type_info e with
     | None => None
     | Some t =>
         let n := demangle_name (ti_name t) in
         if String.eqb n "" || String.eqb n "unknown" then None
         else Some (mkTypeInfo n TypeHash_zero)
     end)
    (match ep_kind e with
     | KPublisher | KSubscription => ep_qos e
     | _ => QosProfile_default
     end).
End Format.

(** ** Lemmas *)

(** The section sign is the bytes 194 and 167. *)
Definition C2 : ascii := "194".
Definition A7 : ascii := "167".

Lemma demangle_section s :
  demangle_name (String C2 (String A7 s)) = String "/" (demangle_name s).
Proof. by destruct s. Qed.

Lemma demangle_other a s :
  Ascii.eqb a C2 && starts_with_char A7 s = false ->
  demangle_name (String a s) = String a (demangle_name s).
Proof.
  intros Ha. unfold demangle_name, replace, SLASH_REPLACEMENT_CHAR.
  cbn [replace_go]. destruct (String.prefix "§" (String a s)) eqn:E; [|done].
  change (String.prefix "§" (String a s))
    with (if ascii_dec C2 a then String.prefix (String A7 "") s else false) in E.
  destruct (ascii_dec C2 a) as [<-|]; [|done]. destruct s as [|b s]; [done|].
  cbn [String.prefix] in E. destruct (ascii_dec A7 b) as [<-|]; done.
Qed.

Lemma mangle_cons a s :
  mangle_name (String a s) =
    if Ascii.eqb a "/" then String C2 (String A7 (mangle_name s)) else String a (mangle_name s).
Proof. unfold mangle_name. rewrite replace_char_cons. by destruct (Ascii.eqb a "/"). Qed.

(** Mangling never creates a section sign except from a slash. *)
Lemma mangle_starts s : starts_with_char A7 (mangle_name s) = starts_with_char A7 s.
Proof.
  destruct s as [|a s]; [done|]. rewrite mangle_cons.
  by destruct (Ascii.eqb_spec a "/") as [->|].
Qed.

Lemma demangle_mangle_both s :
  demangle_name (mangle_name s) = demangle_name s /\
  forall a, demangle_name (mangle_name (String a s)) = demangle_name (String a s).
Proof.
  induction s as [|b s [IH1 IH2]].
  - split; [done|]. intros a. rewrite mangle_cons.
    destruct (Ascii.eqb_spec a "/") as [->|]; [done|].
    unfold mangle_name, replace. cbn [replace_go]. done.
  - split; [apply IH2|]. intros a. rewrite (mangle_cons a).
    destruct (Ascii.eqb_spec a "/") as [->|Ha].
    { rewrite demangle_section, IH2. symmetry. by apply demangle_other. }
    destruct (Ascii.eqb a C2 && starts_with_char A7 (String b s)) eqn:E.
    + apply andb_true_iff in E as [->%Ascii.eqb_eq Hb]. cbn in Hb.
      apply Ascii.eqb_eq in Hb as ->. rewrite mangle_cons.
      change (Ascii.eqb A7 "/") with false. cbv iota. by rewrite !demangle_section, IH1.
    + rewrite (demangle_other a (String b s)), (demangle_other a) by (rewrite ?mangle_starts; done).
      by rewrite IH2.
Qed.

Lemma dds_demangle_mangle s : demangle_name (mangle_name s) = demangle_name s.
Proof. apply demangle_mangle_both. Qed.

Lemma dds_mangle_no_slash s : contains_char "/" (mangle_name s) = false.
Proof. by apply replace_char_contains. Qed.

(** Without a section sign a name is unchanged. *)
Fixpoint contains_section (s : string) : bool :=
  match s with
  | EmptyString => false
  | String a s' => (Ascii.eqb a C2 && starts_with_char A7 s') || contains_section s'
  end.

Lemma dds_demangle_plain s : contains_section s = false -> demangle_name s = s.
Proof.
  induction s as [|a s IH]; [done|]. cbn [contains_section]. intros [Ha Hs]%orb_false_iff.
  by rewrite demangle_other, IH.
Qed.

(** *** QoS *)

Definition history_text (h : QosHistory) : string :=
  match h with
  | KeepLast depth => "0," ++ Z_dec depth
  | KeepAll => "1,0"
  end.

Lemma encode_qos_fields q k :
  encode_qos q k = (if k then "" else "K") ++ String ":"
    ((match reliability q with BestEffort => "0" | Reliable => "1" end) ++ String ":"
      ((match durability q with Volatile => "0" | TransientLocal => "1" end) ++ String ":"
        (history_text (history q)))).
Proof. by destruct q as [[] [] []], k. Qed.

Lemma history_text_contains c h :
  is_ascii_digit c = false -> Ascii.eqb "," c = false -> contains_char c (history_text h) = false.
Proof.
  intros Hd Hc.
  assert (forall x, is_ascii_digit x = true -> Ascii.eqb x c = false) as Hx.
  { intros x Hx. destruct (Ascii.eqb_spec x c); congruence. }
  destruct h as [d|]; cbn [history_text append contains_char].
  - by rewrite Z_dec_contains, Hc, Hx.
  - by rewrite Hc, !Hx.
Qed.

Lemma encode_qos_no_slash q k : contains_char "/" (encode_qos q k) = false.
Proof.
  rewrite encode_qos_fields. destruct q as [[] [] h], k;
    cbn [append contains_char reliability durability history]; by rewrite history_text_contains.
Qed.

Lemma decode_encode_qos q k : qos_ok q -> decode_qos (encode_qos q k) = Ok (k, q).
Proof.
  intros Hq. rewrite encode_qos_fields. unfold decode_qos.
  rewrite split_on_app by (by destruct k).
  rewrite split_on_app by (by destruct q as [[] ? ?]).
  rewrite split_on_app by (by destruct q as [? [] ?]).
  rewrite (split_on_none ":" (history_text (history q))) by (by apply history_text_contains).
  cbn [length Nat.ltb Nat.leb index lookup list_lookup unwrap mbind res_bind].
  destruct q as [r d [n|]]; destruct r, d, k; cbn [history_text history reliability durability].
  all: try done.
  all: change ("0," ++ Z_dec n) with ("0" ++ String "," (Z_dec n));
    rewrite split_on_app, split_on_dec by done; cbn; by rewrite parse_usize_Z_dec.
Qed.

Section Parsing.
Context `{ZL : ZenohLaws}.

(** The chunks of a token. *)
Definition token_chunks (e : EndpointEntity) (zid : ZenohId) : list string :=
  ["@"; zid_fmt zid; ADMIN_SPACE; EntityKind_fmt (ep_kind e);
   mangle_name (strip_slashes (ep_topic e));
   match ep_type_info e with Some ti => mangle_name (ti_name ti) | None => "unknown" end] ++
  match ep_kind e with
  | KPublisher | KSubscription => [encode_qos (ep_qos e) false]
  | _ => []
  end.

Lemma token_chunks_no_slash e zid :
  Forall (fun p => contains_char "/" p = false) (token_chunks e zid).
Proof.
  unfold token_chunks. apply Forall_app_2.
  - repeat (apply List.Forall_cons; [first [done | apply zid_fmt_no_slash
      | apply EntityKind_fmt_no_slash | apply dds_mangle_no_slash
      | destruct (ep_type_info e); [apply dds_mangle_no_slash | done]]|]).
    constructor.
  - destruct (ep_kind e); repeat apply List.Forall_cons; try apply encode_qos_no_slash; constructor.
Qed.

Lemma dds_liveliness_key_expr_inv e zid ke :
  liveliness_key_expr e zid = Ok ke -> ke = join_on "/" (token_chunks e zid).
Proof.
  intros ->%RmwZenoh.try_into_keyexpr_inv. unfold token_chunks.
  destruct (ep_kind e); cbn [List.app join_on append EntityKind_fmt];
    rewrite ?app_nil_r_str; done.
Qed.

Lemma type_name_parse (t : option TypeInfo) :
  (if String.eqb (demangle_name match t with Some ti => mangle_name (ti_name ti) | None => "unknown" end) ""
      || String.eqb (demangle_name match t with Some ti => mangle_name (ti_name ti) | None => "unknown" end)
           "unknown"
   then None
   else Some (mkTypeInfo
     (demangle_name match t with Some ti => mangle_name (ti_name ti) | None => "unknown" end)
     TypeHash_zero)) =
  match t with
  | None => None
  | Some t =>
      let n := demangle_name (ti_name t) in
      if String.eqb n "" || String.eqb n "unknown" then None
      else Some (mkTypeInfo n TypeHash_zero)
  end.
Proof. destruct t as [t|]; [by rewrite dds_demangle_mangle | done]. Qed.

Lemma dds_parse_liveliness_token e zid ke :
  qos_ok (ep_qos e) -> liveliness_key_expr e zid = Ok ke ->
  parse_liveliness ke =
    if decide (ep_kind e = KNode) then Err (Boxed ParsingError)
    else Ok (EEndpoint (norm_endpoint e zid)).
Proof.
  intros Hq ->%dds_liveliness_key_expr_inv. unfold parse_liveliness.
  rewrite split_on_join; [|done|apply token_chunks_no_slash].
  unfold token_chunks, norm_endpoint. rewrite <- type_name_parse.
  cbn [List.app next mbind res_bind]. rewrite String.eqb_refl. cbn [negb].
  rewrite zid_parse_fmt. cbn [ok_or mbind res_bind]. rewrite String.eqb_refl. cbn [negb].
  destruct (ep_kind e); cbn [EntityKind_fmt List.app]; try done;
    rewrite ?decode_encode_qos by done; cbn; by rewrite dds_demangle_mangle.
Qed.
End Parsing.

(** ** Properties *)

(** QoS round trip of the ros2dds text, the keyless flag included. *)
Theorem dds_decode_encode_qos q keyless :
  qos_ok q -> decode_qos (encode_qos q keyless) = Ok (keyless, q).
Proof. apply decode_encode_qos. Qed.

Lemma dds_decode_encode_qos_witness :
  decode_qos (encode_qos (mkQos Reliable TransientLocal (KeepLast 99)) true) =
    Ok (true, mkQos Reliable TransientLocal (KeepLast 99)).
Proof. apply dds_decode_encode_qos. unfold qos_ok, u_range. cbn. lia. Defined.

(** A ros2dds token parses back to what the format carries of the endpoint:
    the zenoh id, the kind, the topic without its outer slashes, the type name
    and, for publishers and subscriptions, the QoS; a token of kind node does
    not parse. *)
Theorem dds_liveliness_roundtrip `{ZL : ZenohLaws} (e : EndpointEntity) (zid : ZenohId) ke :
  qos_ok (ep_qos e) -> liveliness_key_expr e zid = Ok ke ->
  parse_liveliness ke =
    if decide (ep_kind e = KNode) then Err (Boxed ParsingError)
    else Ok (EEndpoint (norm_endpoint e zid)).
Proof. apply dds_parse_liveliness_token. Qed.

Lemma dds_liveliness_roundtrip_witness :
  parse_liveliness (ZA := ex_zenoh) "@/42/@ros2_lv/MP/ns§chatter/std_msgs::msg::dds_::String_/K:0:0:0,5" =
    Ok (EEndpoint (norm_endpoint RmwZenoh.ex_endpoint 42%N)).
Proof.
  apply (dds_liveliness_roundtrip (ZL := ex_zenoh_laws) RmwZenoh.ex_endpoint 42%N).
  - split; vm_compute; [discriminate | reflexivity].
  - vm_compute. reflexivity.
Defined.
