(* ===== verification/Config.v ===== *)
(** * ROS configurations of Zenoh (crates/ros-z/src/config.rs)

    The tables of overrides for routers and sessions, the builders that change
    them, [build_config], and the generator of commented JSON5 reference files,
    which turns the paths of the keys into a tree.  A JSON value is the [Value]
    of serde_json, whose [Map] is kept in key order; its text, and a Zenoh
    configuration with its [insert_json5], are parameters ([JsonApi],
    [ConfigApi]). *)
From stdpp Require Import gmap strings.
From S2P Require Import Prelude RustStr RustText RustColl Entity RmwZenoh.
Open Scope string_scope.

(** ** Definitions *)

(** [serde_json::Value]; a number is an integer or the bits of a float, and the
    fields of an object are in the order of their keys. *)
Inductive Json :=
| JNull
| JBool (b : bool)
| JNumber (n : Z)
| JFloat (bits : Z)
| JString (s : string)
| JArray (items : list Json)
| JObject (fields : list (string * Json)).

(** [Map::get] and [Map::insert]. *)
Fixpoint map_get (key : string) (l : list (string * Json)) : option Json :=
  match l with
  | [] => None
  | (k, v) :: l => if String.eqb k key then Some v else map_get key l
  end.
Fixpoint map_insert (key : string) (v : Json) (l : list (string * Json)) : list (string * Json) :=
  match l with
  | [] => [(key, v)]
  | (k, w) :: l' =>
      if String.eqb k key then (key, v) :: l'
      else if String.ltb key k then (key, v) :: l
      else (k, w) :: map_insert key v l'
  end.
(** [json!({..})] of pairs. *)
Definition obj (l : list (string * Json)) : Json := JObject (foldl (fun m kv => map_insert kv.1 kv.2 m) [] l).
Definition strings (l : list string) : Json := JArray (map JString l).

(** [serde_json::to_string] and [to_string_pretty] of a value, which may fail. *)
Class JsonApi := {
  json_to_string : Json -> res string string;
  json_to_string_pretty : Json -> res string string;
}.
(** [zenoh::Config]. *)
Class ConfigApi := {
  Config : Type;
  config_default : Config;
  insert_json5 : Config -> string -> string -> res ZError Config;
  json_error : string -> ZError;
}.

(** [struct ConfigOverride]. *)
Record ConfigOverride := mkOverride { key : string; value : Json; reason : string }.

(** [struct DistroDefaults]; [current] looks at the features of the build. *)
Record DistroDefaults := mkDistro { supports_type_hash : bool }.
Definition humble : DistroDefaults := mkDistro false.
Definition iron : DistroDefaults := mkDistro true.
Definition rolling : DistroDefaults := mkDistro true.
Definition jazzy : DistroDefaults := mkDistro true.
Definition current (feature : string -> bool) : DistroDefaults :=
  if feature "humble" then humble else if feature "iron" then iron
  else if feature "rolling" then rolling else jazzy.

Definition common_overrides : list ConfigOverride := [
  mkOverride "scouting/multicast/enabled" (JBool false)
    "Disable multicast discovery - use TCP gossip instead";
  mkOverride "scouting/gossip/target" (obj [("router", strings ["router"; "peer"]); ("peer", strings ["router"])])
    "Peers send gossip only to router (not to other peers) to minimize traffic at launch";
  mkOverride "timestamping/enabled" (obj [("router", JBool true); ("peer", JBool true); ("client", JBool true)])
    "Enable timestamping for peers and clients (required for transient_local durability)";
  mkOverride "transport/unicast/open_timeout" (JNumber 60000)
    "Increased from 10s to 60s to avoid timeout when opening links with many nodes";
  mkOverride "transport/unicast/accept_timeout" (JNumber 60000)
    "Increased from 10s to 60s to avoid timeout when accepting links with many nodes";
  mkOverride "transport/unicast/accept_pending" (JNumber 10000)
    "Increased from 100 to 10000 to handle many simultaneous connection handshakes";
  mkOverride "transport/unicast/max_sessions" (JNumber 10000)
    "Increased from 1000 to 10000 to support large number of concurrent sessions";
  mkOverride "transport/link/tx/lease" (JNumber 60000)
    "Increased from 10s to 60s to avoid lease expiration at launch with many nodes";
  mkOverride "transport/link/tx/keep_alive" (JNumber 2)
    "Decreased from 4 to 2 for loopback where packet loss is minimal";
  mkOverride "transport/shared_memory/enabled" (JBool false)
    "Disabled by default until fully tested in production ROS environments" ].

Definition router_specific_overrides : list ConfigOverride := [
  mkOverride "mode" (JString "router") "Router mode required for ROS 2 discovery/routing";
  mkOverride "listen/endpoints" (strings ["tcp/[::]:7447"])
    "Standard ROS 2 port 7447, IPv6 wildcard for all interfaces";
  mkOverride "connect/endpoints" (JArray [])
    "Router does not connect to other endpoints (empty list)";
  mkOverride "routing/router/peers_failover_brokering" (JBool false)
    "Changed from true to false - unnecessary when peers connect directly, reduces overhead";
  mkOverride "transport/link/tx/queue/congestion_control/block/wait_before_close" (JNumber 5000000)
    "Keep at 5s (vs 60s for session) - router routes to WiFi, lower value prevents long blocks" ].

Definition session_specific_overrides : list ConfigOverride := [
  mkOverride "mode" (JString "peer") "Peer mode for ROS nodes - connects to router for discovery and routing";
  mkOverride "connect/endpoints" (strings ["tcp/localhost:7447"])
    "Connect to Zenoh router on localhost at standard ROS 2 port 7447";
  mkOverride "listen/endpoints" (strings ["tcp/localhost:0"])
    "Accept connections only from localhost - external traffic routed via router";
  mkOverride "scouting/gossip/autoconnect_strategy"
    (obj [("peer", obj [("to_router", JString "always"); ("to_peer", JString "greater-zid")])])
    "Changed peer-to-peer from 'always' to 'greater-zid' to avoid redundant connections on loopback";
  mkOverride "queries_default_timeout" (JNumber 60000)
    "Increased from 10s to 60s to handle slow service servers at launch";
  mkOverride "transport/link/tx/queue/congestion_control/block/wait_before_close" (JNumber 60000000)
    "Increased from 5s to 60s to avoid premature link closure during launch congestion on loopback" ].

Definition router_overrides : list ConfigOverride := (router_specific_overrides ++ common_overrides)%list.
Definition session_overrides : list ConfigOverride := (session_specific_overrides ++ common_overrides)%list.

(** *** The builders: [iter_mut().find(..)] changes the first override of the key *)

Fixpoint update_first (k : string) (f : ConfigOverride -> ConfigOverride) (l : list ConfigOverride)
    : option (list ConfigOverride) :=
  match l with
  | [] => None
  | o :: l => if String.eqb (key o) k then Some (f o :: l) else l' ← update_first k f l; Some (o :: l')
  end.
Definition set_value (v : Json) (o : ConfigOverride) : ConfigOverride := mkOverride (key o) v (reason o).
Definition with_listen_port (l : list ConfigOverride) (port : Z) : list ConfigOverride :=
  default l (update_first "listen/endpoints" (set_value (strings ["tcp/[::]:" ++ Z_dec port])) l).
Definition with_listen_endpoint (l : list ConfigOverride) (endpoint : string) : list ConfigOverride :=
  default l (update_first "listen/endpoints" (set_value (strings [endpoint])) l).
Definition with_router_endpoint (l : list ConfigOverride) (endpoint : string) : list ConfigOverride :=
  default l (update_first "connect/endpoints" (set_value (strings [endpoint])) l).
Definition with_override (l : list ConfigOverride) (k : string) (v : Json) (r : string) : list ConfigOverride :=
  default (l ++ [mkOverride k v r])%list (update_first k (fun _ => mkOverride k v r) l).

Section Build.
Context `{JA : JsonApi} `{CA : ConfigApi}.
Definition apply_override (config : Config) (o : ConfigOverride) : res ZError Config :=
  value_str ← map_err json_error (json_to_string (value o));
  insert_json5 config (key o) value_str.
Fixpoint apply_overrides (config : Config) (l : list ConfigOverride) : res ZError Config :=
  match l with
  | [] => Ok config
  | o :: l => config ← apply_override config o; apply_overrides config l
  end.
Definition build_config (l : list ConfigOverride) : res ZError Config := apply_overrides config_default l.
Definition router_config : res ZError Config := build_config router_overrides.
Definition session_config : res ZError Config := build_config session_overrides.
End Build.

(** *** The reference files *)

(** The walk down the path of a key: the last part is inserted, the others are
    entered, as objects where they are missing; where a part is something else
    than an object, the value is dropped. *)
Fixpoint insert_path (parts : list string) (v : Json) (current : Json) : Json :=
  match current with
  | JObject m =>
      match parts with
      | [] => current
      | [part] => JObject (map_insert part v m)
      | part :: parts =>
          let child := default (JObject []) (map_get part m) in
          JObject (map_insert part (insert_path parts v child) m)
      end
  | _ => current
  end.
Definition override_path (o : ConfigOverride) : list string := split_on "/" (key o).
Definition build_tree (l : list ConfigOverride) : Json :=
  foldl (fun root o => insert_path (override_path o) (value o) root) (JObject []) l.
Definition build_comments (l : list ConfigOverride) : gmap string string :=
  foldl (fun comments o => <[key o := reason o]> comments) ∅ l.

Definition newline_str : string := String newline "".
Definition is_compound (v : Json) : bool := match v with JObject _ | JArray _ => true | _ => false end.
Definition str_repeat (n : nat) (s : string) : string := String.concat "" (replicate n s).
Definition quote : string := String "034" "".

(** Strings joined by [f] of the position from the end: [i < len - 1]. *)
Fixpoint with_separators (sep last : string) (l : list string) : string :=
  match l with
  | [] => ""
  | [x] => x ++ last
  | x :: l => x ++ sep ++ with_separators sep last l
  end.

Section Generate.
Context `{JA : JsonApi}.

(** [generate_json5_with_comments]; [unwrap] of a text is a panic when it fails. *)
Fixpoint generate_json5_with_comments {E} (comments : gmap string string) (v : Json) (current_path : string)
    (indent_level : nat) : res E string :=
  let indent := str_repeat indent_level "  " in
  match v with
  | JObject m =>
      let entry kv_key kv_val :=
        let new_path := if String.eqb current_path "" then kv_key else current_path ++ "/" ++ kv_key in
        nested ← generate_json5_with_comments comments kv_val new_path (S indent_level);
        Ok (match comments !! new_path with Some comment => indent ++ "  // " ++ comment ++ newline_str | None => "" end
             ++ indent ++ "  " ++ quote ++ kv_key ++ quote ++ ": "
             ++ (if is_compound kv_val then nested else trim nested)) in
      let fix entries (l : list (string * Json)) : res E (list string) :=
        match l with
        | [] => Ok []
        | (k, w) :: l => e ← entry k w; es ← entries l; Ok (e :: es)
        end in
      es ← entries m;
      Ok ("{" ++ newline_str ++ with_separators ("," ++ newline_str) newline_str es ++ indent ++ "}")
  | JArray arr =>
      match arr with
      | [] => Ok "[]"
      | _ =>
          if forallb (fun x => negb (is_compound x)) arr then
            let fix items (l : list Json) : res E (list string) :=
              match l with
              | [] => Ok []
              | x :: l => s ← unwrap (match json_to_string x with Ok s => Some s | _ => None end);
                          ss ← items l; Ok (s :: ss)
              end in
            ss ← items arr;
            Ok ("[" ++ with_separators ", " "" ss ++ "]")
          else
            let fix items (l : list Json) : res E (list string) :=
              match l with
              | [] => Ok []
              | x :: l => s ← generate_json5_with_comments comments x current_path (S indent_level);
                          ss ← items l; Ok ((indent ++ "  " ++ trim s) :: ss)
              end in
            ss ← items arr;
            Ok ("[" ++ newline_str ++ with_separators ("," ++ newline_str) newline_str ss ++ indent ++ "]")
      end
  | other => unwrap (match json_to_string_pretty other with Ok s => Some s | _ => None end)
  end.
Definition generate_json5 {E} (overrides : list ConfigOverride) (name : string) : res E string :=
  text ← generate_json5_with_comments (build_comments overrides) (build_tree overrides) "" 0;
  Ok ("// GENERATED: " ++ name ++ " - DO NOT EDIT" ++ newline_str
       ++ "// This file is auto-generated from ros-z/src/config.rs" ++ newline_str
       ++ "// Edit the source file and rebuild to make changes" ++ newline_str ++ text).
End Generate.

(** ** Lemmas *)

(** What a path leads to. *)
Fixpoint json_at (parts : list string) (v : Json) : option Json :=
  match parts with
  | [] => Some v
  | part :: parts => match v with JObject m => w ← map_get part m; json_at parts w | _ => None end
  end.

Lemma map_get_insert_eq k v m : map_get k (map_insert k v m) = Some v.
Proof.
  induction m as [|[k' w] m IH]; cbn; [by rewrite String.eqb_refl|].
  destruct (String.eqb_spec k' k); cbn; [by rewrite String.eqb_refl|].
  destruct (String.ltb k k'); cbn; [by rewrite String.eqb_refl|].
  by destruct (String.eqb_spec k' k).
Qed.
Lemma map_get_insert_ne k k' v m : k <> k' -> map_get k' (map_insert k v m) = map_get k' m.
Proof.
  intros Hk. induction m as [|[k'' w] m IH]; cbn; [by destruct (String.eqb_spec k k')|].
  destruct (String.eqb_spec k'' k) as [->|]; cbn; [by destruct (String.eqb_spec k k')|].
  destruct (String.ltb k k''); cbn; [by destruct (String.eqb_spec k k')|].
  by destruct (String.eqb k'' k').
Qed.

(** Paths that part at some point. *)
Fixpoint diverge (p q : list string) : bool :=
  match p, q with
  | a :: p, b :: q => if String.eqb a b then diverge p q else true
  | _, _ => false
  end.

(** Entering a path is possible while there are objects on it. *)
Fixpoint enterable (parts : list string) (v : Json) : bool :=
  match v with
  | JObject m =>
      match parts with
      | [] | [_] => true
      | part :: parts => match map_get part m with Some w => enterable parts w | None => true end
      end
  | _ => false
  end.

Lemma insert_path_cons a b p v m :
  insert_path (a :: b :: p) v (JObject m) =
    JObject (map_insert a (insert_path (b :: p) v (default (JObject []) (map_get a m))) m).
Proof. done. Qed.
Lemma enterable_cons a b p m :
  enterable (a :: b :: p) (JObject m) = match map_get a m with Some w => enterable (b :: p) w | None => true end.
Proof. done. Qed.

Lemma insert_path_at p v : forall root, p <> [] -> enterable p root = true -> json_at p (insert_path p v root) = Some v.
Proof.
  induction p as [|a p IH]; intros root Hp He; [done|]. destruct root as [| | | | | |m]; try done.
  destruct p as [|b p]; [cbn; by rewrite map_get_insert_eq|].
  rewrite insert_path_cons.
  cbn [json_at]. rewrite map_get_insert_eq. cbn [mbind option_bind]. apply (IH _); [done|].
  rewrite enterable_cons in He. by destruct (map_get a m); [|destruct p].
Qed.

Lemma insert_path_other p q v : forall root, diverge p q = true -> json_at q (insert_path p v root) = json_at q root.
Proof.
  revert q. induction p as [|a p IH]; intros [|b q] root Hd; try done. destruct root as [| | | | | |m]; try done.
  cbn [diverge] in Hd. destruct (String.eqb_spec a b) as [<-|Hab].
  - destruct p as [|c p]; [done|].
    rewrite insert_path_cons.
    cbn [json_at]. rewrite map_get_insert_eq. cbn [mbind option_bind]. rewrite IH by done.
    destruct (map_get a m); [done|]. cbn. by destruct q.
  - destruct p as [|c p].
    + cbn [insert_path json_at]. by rewrite map_get_insert_ne.
    + rewrite insert_path_cons.
      cbn [json_at]. by rewrite map_get_insert_ne.
Qed.

Lemma insert_path_enterable p q v : forall root,
  diverge p q = true -> enterable q root = true -> enterable q (insert_path p v root) = true.
Proof.
  revert q. induction p as [|a p IH]; intros [|b q] root Hd He; try done. destruct root as [| | | | | |m]; try done.
  cbn [diverge] in Hd. destruct q as [|c q]; [by destruct p|]. destruct (String.eqb_spec a b) as [<-|Hab].
  - destruct p as [|d p]; [done|].
    rewrite insert_path_cons.
    rewrite enterable_cons in *. rewrite map_get_insert_eq. apply IH; [done|].
    by destruct (map_get a m); [|destruct q].
  - destruct p as [|d p].
    + cbn [insert_path]. rewrite enterable_cons in *. by rewrite map_get_insert_ne.
    + rewrite insert_path_cons, enterable_cons in *. by rewrite map_get_insert_ne.
Qed.

(** No key is a prefix of another. *)
Fixpoint no_clash (l : list ConfigOverride) : bool :=
  match l with
  | [] => true
  | o :: l => forallb (fun o' => diverge (override_path o) (override_path o') && diverge (override_path o') (override_path o)) l
              && no_clash l
  end.

Lemma tables_no_clash : no_clash router_overrides = true /\ no_clash session_overrides = true.
Proof. by split; vm_compute. Qed.

Lemma split_on_not_nil c s : split_on c s <> [].
Proof. pose proof (split_on_nonempty c s) as H. by destruct (split_on c s). Qed.

Lemma tree_entered l : forall root o,
  Forall (fun o' => diverge (override_path o') (override_path o) = true) l ->
  let root' := foldl (fun root o => insert_path (override_path o) (value o) root) root l in
  json_at (override_path o) root' = json_at (override_path o) root /\
  (enterable (override_path o) root = true -> enterable (override_path o) root' = true).
Proof.
  induction l as [|o' l IH]; intros root o Hl; [done|]. inversion_clear Hl as [|?? Ho Hl']. cbn [foldl].
  destruct (IH (insert_path (override_path o') (value o') root) o Hl') as [-> He].
  split; [by apply insert_path_other|]. intros Hr. apply He. by apply insert_path_enterable.
Qed.

(** ** Properties *)

(** The reference files hold every override: in the tree that [generate_json5]
    prints, the path of each key leads to the value of its override, as long as
    no key is a prefix of another. Both tables are such. *)
Theorem reference_tree_complete l o :
  no_clash l = true -> In o l -> json_at (override_path o) (build_tree l) = Some (value o).
Proof.
  unfold build_tree. assert (Forall (fun o => enterable (override_path o) (JObject []) = true) l) as He.
  { apply Forall_forall. intros x _. unfold override_path. pose proof (split_on_not_nil "/" (key x)) as Hn.
    destruct (split_on "/" (key x)) as [|? [|? ?]]; done. }
  revert He. generalize (JObject []). induction l as [|o' l IH]; intros root He Hc Hin; [done|].
  cbn [no_clash] in Hc. apply andb_true_iff in Hc as [Hd Hc]. inversion_clear He as [|?? He' Hel].
  assert (forall x, In x l -> diverge (override_path o') (override_path x) = true /\
    diverge (override_path x) (override_path o') = true) as Hx.
  { intros x Hx. rewrite forallb_forall in Hd. by apply Hd, andb_true_iff in Hx. }
  cbn [foldl]. destruct Hin as [->|Hin].
  - destruct (tree_entered l (insert_path (override_path o) (value o) root) o) as [-> _].
    + apply Forall_forall. intros x Hxl. apply Hx. by apply list_elem_of_In.
    + apply insert_path_at; [apply split_on_not_nil|done].
  - apply IH; [|done..]. apply Forall_forall. intros x Hxl. rewrite Forall_forall in Hel.
    apply insert_path_enterable; [by apply Hx, list_elem_of_In|by apply Hel].
Qed.

Lemma reference_tree_complete_witness :
  json_at ["connect"; "endpoints"] (build_tree session_overrides) = Some (strings ["tcp/localhost:7447"]).
Proof.
  apply (reference_tree_complete session_overrides
    (mkOverride "connect/endpoints" (strings ["tcp/localhost:7447"]) "Connect to Zenoh router on localhost at standard ROS 2 port 7447")).
  - vm_compute. reflexivity.
  - right. left. reflexivity.
Defined.
