(* ===== verification/Service.v ===== *)
(** * Services: clients and servers
    (crates/ros-z/src/service.rs, common.rs)

    [ZClient] sends a query with its sequence number and gid attached and puts
    the replies in a bounded channel; [ZServer] queues the queries, keeps the
    one it is answering under its [QueryKey] and replies to it.  The builders
    qualify the name, derive the key expressions and size the buffers.  The
    channel of flume ([ChannelApi]) and what the session answers ([SessionApi])
    are parameters; the messages are those of an interface ([ZMessage],
    [ZService]), so that the theorems hold for every service type. *)
From stdpp Require Import gmap countable strings.
From S2P Require Import Prelude RustStr TopicName CdrPrimitives Queue Attachment Qos Entity RmwZenoh Ros2Dds.
Open Scope list_scope.

(** ** Definitions *)

(** *** Interfaces *)

(** [trait ZMessage]: its [Serdes].  Serializing can only panic ([None]); of the
    error of deserializing the callers keep the text. *)
Class ZMessage (T : Type) := {
  msg_serialize : T -> option (list byte);
  msg_deserialize : list byte -> res string T;
}.

(** The messages that survive the way, [msg_ok]; no input makes the decoder panic. *)
Class ZMessageLaws (T : Type) `{ZMessage T} := {
  msg_ok : T -> Prop;
  msg_serializes : forall m, msg_ok m -> is_Some (msg_serialize m);
  msg_roundtrip : forall m bs, msg_ok m -> msg_serialize m = Some bs -> msg_deserialize bs = Ok m;
  msg_no_panic : forall bs, no_panic (msg_deserialize bs);
}.

(** [trait ZService]. *)
Class ZService := {
  Request : Type;
  Response : Type;
  request_msg :: ZMessage Request;
  response_msg :: ZMessage Response;
}.
Class ZServiceLaws `{ZService} := {
  request_laws :: ZMessageLaws Request;
  response_laws :: ZMessageLaws Response;
}.

(** [flume::bounded], [try_send] and [try_recv]. *)
Class ChannelApi := {
  Channel : Type -> Type;
  bounded : forall T, N -> Channel T;
  try_send : forall T, Channel T -> T -> option (Channel T);
  try_recv : forall T, Channel T -> option (T * Channel T);
}.
Arguments bounded {_ T} _.
Arguments try_send {_ T} _ _.
Arguments try_recv {_ T} _.

(** A bounded channel is a queue; a full one refuses.  A channel of capacity 0
    hands over to a waiting receiver, which is not said here. *)
Class ChannelLaws `{ChannelApi} := {
  ch_items : forall T, Channel T -> list T;
  ch_capacity : forall T, Channel T -> N;
  bounded_items : forall T n, ch_items T (bounded n) = [];
  bounded_capacity : forall T n, ch_capacity T (bounded n) = n;
  try_send_spec : forall T c x, (0 < ch_capacity T c)%N ->
    match try_send c x with
    | Some c' => ch_items T c' = ch_items T c ++ [x] /\ ch_capacity T c' = ch_capacity T c /\
                 (N.of_nat (length (ch_items T c)) < ch_capacity T c)%N
    | None => (ch_capacity T c <= N.of_nat (length (ch_items T c)))%N
    end;
  try_recv_spec : forall T c,
    match try_recv c with
    | Some (x, c') => ch_items T c = x :: ch_items T c' /\ ch_capacity T c' = ch_capacity T c
    | None => ch_items T c = []
    end;
}.
Arguments ch_items {_ _ T} _.
Arguments ch_capacity {_ _ T} _.

(** What the session answers to a declaration on a key expression, and the
    errors of the libraries the code passes on. *)
Class SessionApi := {
  declare_querier : string -> res ZError unit;
  declare_queryable : string -> res ZError unit;
  declare_token : string -> res ZError unit;
  zext_error : ZError;
  recv_timeout_error : ZError;
}.

(** *** common.rs *)

Inductive DataHandler (T : Type) :=
| HQueue (queue : BoundedQueue T)
| HCallback
| HQueueWithNotifier (queue : BoundedQueue T).
Arguments HQueue {T} _.
Arguments HCallback {T}.
Arguments HQueueWithNotifier {T} _.

(** What [handle] does besides queueing: the callback runs, the notifier runs. *)
Inductive HandlerEffect (T : Type) := Called (data : T) | Notified.
Arguments Called {T} _.
Arguments Notified {T}.

Definition handle {T} (h : DataHandler T) (data : T) : list (HandlerEffect T) * DataHandler T :=
  match h with
  | HQueue queue => ([], HQueue (queue_push queue data).2)
  | HCallback => ([Called data], HCallback)
  | HQueueWithNotifier queue => ([Notified], HQueueWithNotifier (queue_push queue data).2)
  end.

(** The queue the handler shares with the server, [None] in callback mode. *)
Definition handler_queue {T} (h : DataHandler T) : option (BoundedQueue T) :=
  match h with HQueue q | HQueueWithNotifier q => Some q | HCallback => None end.
Definition set_handler_queue {T} (h : DataHandler T) (q : BoundedQueue T) : DataHandler T :=
  match h with
  | HQueue _ => HQueue q
  | HQueueWithNotifier _ => HQueueWithNotifier q
  | HCallback => HCallback
  end.

(** *** service.rs *)

(** A zenoh query with the [get] it belongs to, to which its replies go, and a
    sample a reply carries. *)
Record ServiceQuery := mkServiceQuery { sq_token : nat; sq_query : Query }.
Record Sample := mkSample {
  smp_token : nat; smp_payload : list byte; smp_attachment : option (list byte) }.

(** [struct QueryKey] and [From<Attachment>]. *)
Record QueryKey := mkQueryKey { qk_sn : Z; qk_gid : GidArray }.
#[export] Instance QueryKey_eq_dec : EqDecision QueryKey.
Proof. solve_decision. Defined.
#[export] Program Instance QueryKey_countable : Countable QueryKey :=
  inj_countable (fun k => (qk_sn k, qk_gid k)) (fun p => Some (mkQueryKey p.1 p.2)) _.
Next Obligation. by intros []. Qed.
Definition QueryKey_from (value : Attachment) : QueryKey :=
  mkQueryKey (sequence_number value) (source_gid value).

(** The depth of the client's channel and of the server's queue, from the QoS;
    [usize] is 64 bits. *)
Definition client_depth (h : QosHistory) : N :=
  match h with KeepLast n => Z.to_N n | KeepAll => 1000 end.
Definition server_depth (h : QosHistory) : N :=
  match h with KeepLast depth => Z.to_N depth | KeepAll => 2 ^ 64 - 1 end.

Section Service.
Context `{ZA : ZenohApi} `{Svc : ZService} `{ZExt : ZExtApi} `{Chan : ChannelApi} `{Sess : SessionApi}.
(** [endpoint_gid], of entity.rs. *)
Context (endpoint_gid : EndpointEntity -> GidArray).

Record ZClient := mkClient {
  cl_sn : Z;
  cl_gid : GidArray;
  cl_key_expr : string;
  cl_rx : Channel Sample;
  cl_topic : string;
}.
Record ZServer := mkServer {
  srv_key_expr : string;
  srv_sn : Z;
  srv_gid : GidArray;
  srv_handler : DataHandler ServiceQuery;
  srv_map : gmap QueryKey ServiceQuery;
}.
Definition srv_queue (s : ZServer) : option (BoundedQueue ServiceQuery) := handler_queue (srv_handler s).
Definition set_queue (s : ZServer) (q : BoundedQueue ServiceQuery) : ZServer :=
  mkServer (srv_key_expr s) (srv_sn s) (srv_gid s) (set_handler_queue (srv_handler s) q) (srv_map s).
Definition set_map (s : ZServer) (m : gmap QueryKey ServiceQuery) : ZServer :=
  mkServer (srv_key_expr s) (srv_sn s) (srv_gid s) (srv_handler s) m.
Definition set_rx (c : ZClient) (rx : Channel Sample) : ZClient :=
  mkClient (cl_sn c) (cl_gid c) (cl_key_expr c) rx (cl_topic c).

(** [self.entity.topic = qualified_service]. *)
Definition with_topic (e : EndpointEntity) (topic : string) : EndpointEntity :=
  mkEndpoint (ep_id e) (ep_node e) (ep_kind e) topic (ep_type_info e) (ep_qos e).
Definition qualify_entity (e : EndpointEntity) : res ZError EndpointEntity :=
  qualified_service ← map_err (fun x => Message ("Failed to qualify service: " ++ TopicNameError_fmt x)%string)
    (qualify_service_name (ep_topic e) (node_namespace (ep_node e)) (node_name (ep_node e)));
  Ok (with_topic e qualified_service).

(** [Builder::build] of [ZClientBuilder]; [zid] is the session's. *)
Definition client_build (entity : EndpointEntity) (keyexpr_format : KeyExprFormat) (zid : ZenohId)
    : res ZError ZClient :=
  entity ← qualify_entity entity;
  topic_ke ← format_topic_key_expr keyexpr_format entity;
  _ ← declare_querier topic_ke;
  lv_ke ← format_liveliness_key_expr keyexpr_format entity zid;
  _ ← declare_token lv_ke;
  let depth := client_depth (history (ep_qos entity)) in
  Ok (mkClient 1 (endpoint_gid entity) topic_ke (bounded depth) (ep_topic entity)).

(** [build_internal] and the three ways to build a server. *)
Definition build_internal (entity : EndpointEntity) (keyexpr_format : KeyExprFormat) (zid : ZenohId)
    (handler : DataHandler ServiceQuery) : res ZError ZServer :=
  entity ← qualify_entity entity;
  topic_ke ← format_topic_key_expr keyexpr_format entity;
  _ ← declare_queryable topic_ke;
  lv_ke ← format_liveliness_key_expr keyexpr_format entity zid;
  _ ← declare_token lv_ke;
  Ok (mkServer topic_ke 1 (endpoint_gid entity) handler ∅).
Definition build_with_callback (entity : EndpointEntity) (f : KeyExprFormat) (zid : ZenohId) : res ZError ZServer :=
  build_internal entity f zid HCallback.
Definition build_with_notifier (entity : EndpointEntity) (f : KeyExprFormat) (zid : ZenohId) : res ZError ZServer :=
  build_internal entity f zid (HQueueWithNotifier (queue_new (server_depth (history (ep_qos entity))))).
Definition server_build (entity : EndpointEntity) (f : KeyExprFormat) (zid : ZenohId) : res ZError ZServer :=
  build_internal entity f zid (HQueue (queue_new (server_depth (history (ep_qos entity))))).

(** **** The client *)

(** [ZClient::new_attchment]: [fetch_add] on a [usize], read as an [i64]; [now]
    is the clock's reading. *)
Definition client_new_attachment (c : ZClient) (now : option Z) : Attachment * ZClient :=
  (Attachment_new (wrap_i 64 (cl_sn c)) (cl_gid c) now,
   mkClient (wrap_u 64 (cl_sn c + 1)) (cl_gid c) (cl_key_expr c) (cl_rx c) (cl_topic c)).

(** [send_request] up to the [get], which [token] names: the query. *)
Definition send_request (c : ZClient) (token : nat) (now : option Z) (msg : Request)
    : res ZError ServiceQuery * ZClient :=
  match msg_serialize msg with
  | Some payload =>
      let '(attachment, c) := client_new_attachment c now in
      (Ok (mkServiceQuery token
         (mkQuery (cl_key_expr c) (Some payload) (Some (Attachment_into_zbytes attachment)))), c)
  | None => (Panic, c)
  end.

(** [rmw_send_request]: the attachment is taken before the payload, and its
    sequence number is returned. *)
Definition rmw_send_request (c : ZClient) (token : nat) (now : option Z) (msg : Request)
    : res ZError (ServiceQuery * Z) * ZClient :=
  let '(attachment, c) := client_new_attachment c now in
  let sn := sequence_number attachment in
  match msg_serialize msg with
  | Some payload =>
      (Ok (mkServiceQuery token
         (mkQuery (cl_key_expr c) (Some payload) (Some (Attachment_into_zbytes attachment))), sn), c)
  | None => (Panic, c)
  end.

(** The callback of the [get]: a reply that is an error is only logged, a sample
    goes to the channel unless it is full. *)
Definition on_reply (c : ZClient) (reply : option Sample) : ZClient :=
  match reply with
  | Some sample => match try_send (cl_rx c) sample with Some rx => set_rx c rx | None => c end
  | None => c
  end.

(** [take_sample]; the client holds the sending end, so that its channel is not
    disconnected. *)
Definition take_sample (c : ZClient) : res ZError Sample * ZClient :=
  match try_recv (cl_rx c) with
  | Some (sample, rx) => (Ok sample, set_rx c rx)
  | None => (Err (Message "No sample available"), c)
  end.

(** What a call that waits does at a moment: it waits on, or is done. *)
Inductive outcome (A : Type) := Blocked | Done (r : res ZError A).
Arguments Blocked {A}.
Arguments Done {A} _.

(** [recv_timeout] and [recv_async]. *)
Definition take_sample_timeout (timed_out : bool) (c : ZClient) : outcome Sample * ZClient :=
  match try_recv (cl_rx c) with
  | Some (sample, rx) => (Done (Ok sample), set_rx c rx)
  | None => (if timed_out then Done (Err recv_timeout_error) else Blocked, c)
  end.
Definition deserialize_response (sample : Sample) : res ZError Response :=
  map_err Message (msg_deserialize (smp_payload sample)).
Definition take_response (c : ZClient) : res ZError Response * ZClient :=
  let '(sample, c) := take_sample c in
  (sample ← sample; deserialize_response sample, c).
Definition take_response_timeout (timed_out : bool) (c : ZClient) : outcome Response * ZClient :=
  let '(o, c) := take_sample_timeout timed_out c in
  (match o with
   | Blocked => Blocked
   | Done r => Done (sample ← r; deserialize_response sample)
   end, c).
Definition take_response_async (c : ZClient) : outcome Response * ZClient :=
  take_response_timeout false c.

(** **** The server *)

(** The queryable's callback. *)
Definition on_query (s : ZServer) (query : ServiceQuery) : list (HandlerEffect ServiceQuery) * ZServer :=
  let '(effects, h) := handle (srv_handler s) query in
  (effects, mkServer (srv_key_expr s) (srv_sn s) (srv_gid s) h (srv_map s)).

Definition take_query (s : ZServer) : res ZError ServiceQuery * ZServer :=
  match srv_queue s with
  | None => (Err (Message "Server was built with callback, no queue available"), s)
  | Some queue =>
      match queue_try_recv queue with
      | (Some query, queue) => (Ok query, set_queue s queue)
      | (None, _) => (Err (Message "No query available"), s)
      end
  end.

(** The key of a query: [query.attachment().unwrap().try_into()?]. *)
Definition query_key (query : Query) : res ZError QueryKey :=
  bytes ← unwrap (attachment query);
  a ← ok_or (Attachment_try_from bytes) zext_error;
  Ok (QueryKey_from a).

(** [take_request] from the query on: the payload is unwrapped before the look
    for a duplicate, in [take_request_async] after it. *)
Definition accept_query (s : ZServer) (query : ServiceQuery) : res ZError (QueryKey * Request) * ZServer :=
  match (key ← query_key (sq_query query); payload_bytes ← unwrap (payload (sq_query query));
         if decide (is_Some (srv_map s !! key)) then Err (Message "Existing query detected") else
         msg ← map_err Message (msg_deserialize payload_bytes);
         Ok (key, msg)) with
  | Ok (key, msg) => (Ok (key, msg), set_map s (<[key := query]> (srv_map s)))
  | Err e => (Err e, s)
  | Panic => (Panic, s)
  end.
Definition accept_query_async (s : ZServer) (query : ServiceQuery)
    : res ZError (QueryKey * Request) * ZServer :=
  match (key ← query_key (sq_query query);
         if decide (is_Some (srv_map s !! key)) then Err (Message "Existing query detected") else
         payload_bytes ← unwrap (payload (sq_query query));
         msg ← map_err Message (msg_deserialize payload_bytes);
         Ok (key, msg)) with
  | Ok (key, msg) => (Ok (key, msg), set_map s (<[key := query]> (srv_map s)))
  | Err e => (Err e, s)
  | Panic => (Panic, s)
  end.
Definition take_request (s : ZServer) : outcome (QueryKey * Request) * ZServer :=
  match srv_queue s with
  | None => (Done (Err (Message "Server was built with callback, no queue available")), s)
  | Some queue =>
      match queue_recv queue with
      | (Return (Some query), queue) =>
          let '(r, s) := accept_query (set_queue s queue) query in (Done r, s)
      | (_, queue) => (Blocked, set_queue s queue)
      end
  end.
Definition take_request_async (s : ZServer) : outcome (QueryKey * Request) * ZServer :=
  match srv_queue s with
  | None => (Done (Err (Message "Server was built with callback, no queue available")), s)
  | Some queue =>
      match queue_recv_async queue with
      | (Return (Some query), queue) =>
          let '(r, s) := accept_query_async (set_queue s queue) query in (Done r, s)
      | (_, queue) => (Blocked, set_queue s queue)
      end
  end.

(** [send_response]: the reply and the query it answers.  The answer of the
    network is the caller's. *)
Definition reply_to (now : option Z) (msg : Response) (key : QueryKey) (query : ServiceQuery)
    : res ZError Sample :=
  payload ← unwrap (msg_serialize msg);
  Ok (mkSample (sq_token query) payload
        (Some (Attachment_into_zbytes (Attachment_new (qk_sn key) (qk_gid key) now)))).
Definition send_response (s : ZServer) (now : option Z) (msg : Response) (key : QueryKey)
    : res ZError Sample * ZServer :=
  match srv_map s !! key with
  | Some query => (reply_to now msg key query, set_map s (delete key (srv_map s)))
  | None => (Err (Message "Query map doesn't contain key"), s)
  end.
Definition send_response_async (s : ZServer) (now : option Z) (msg : Response) (key : QueryKey)
    : res ZError Sample * ZServer :=
  match srv_map s !! key with
  | Some query => (reply_to now msg key query, set_map s (delete key (srv_map s)))
  | None => (Err (Message "Quey map doesn't contains {key}"), s)
  end.
End Service.
Arguments Blocked {A}.
Arguments Done {A} _.

(** ** Lemmas *)

(** A client and a server whose names qualify to the same one, in one domain and
    with one type, declare the same key expression. *)
Section Builders.
Context `{ZA : ZenohApi} `{Chan : ChannelApi} `{Sess : SessionApi}.
Context (endpoint_gid : EndpointEntity -> GidArray).

(** What [client_build] and [build_internal] return. *)
Lemma client_build_inv e f zid c :
  client_build endpoint_gid e f zid = Ok c ->
  exists e', qualify_entity e = Ok e' /\ format_topic_key_expr f e' = Ok (cl_key_expr c) /\
    cl_sn c = 1%Z /\ cl_gid c = endpoint_gid e' /\ cl_rx c = bounded (client_depth (history (ep_qos e))) /\
    cl_topic c = ep_topic e'.
Proof.
  unfold client_build. intros Hx. res_inv.
  match goal with Hq : qualify_entity e = Ok ?e' |- _ => exists e'; rename Hq into E end. do 4 (split; [done|]). split; [|done]. cbn.
  unfold qualify_entity in E. res_inv. done.
Qed.

Lemma build_internal_inv e f zid h s :
  build_internal endpoint_gid e f zid h = Ok s ->
  exists e', qualify_entity e = Ok e' /\ format_topic_key_expr f e' = Ok (srv_key_expr s) /\
    srv_handler s = h /\ srv_map s = ∅ /\ srv_gid s = endpoint_gid e'.
Proof. unfold build_internal. intros Hx. res_inv.
  by match goal with Hq : qualify_entity e = Ok ?e' |- _ => exists e' end.
Qed.

(** The topic key expression looks at the domain, the topic and the type. *)
Lemma format_topic_key_expr_ext f e1 e2 :
  domain_id (ep_node e1) = domain_id (ep_node e2) -> ep_topic e1 = ep_topic e2 ->
  ep_type_info e1 = ep_type_info e2 -> format_topic_key_expr f e1 = format_topic_key_expr f e2.
Proof.
  intros Hd Ht Hi. destruct f; cbn; unfold RmwZenoh.topic_key_expr, Ros2Dds.topic_key_expr;
    by rewrite ?Hd, ?Ht, ?Hi.
Qed.

Lemma client_reaches_server ec es f zc zs c h s :
  client_build endpoint_gid ec f zc = Ok c -> build_internal endpoint_gid es f zs h = Ok s ->
  domain_id (ep_node ec) = domain_id (ep_node es) -> ep_type_info ec = ep_type_info es ->
  qualify_service_name (ep_topic ec) (node_namespace (ep_node ec)) (node_name (ep_node ec)) =
    qualify_service_name (ep_topic es) (node_namespace (ep_node es)) (node_name (ep_node es)) ->
  cl_key_expr c = srv_key_expr s.
Proof.
  intros Hc Hs Hd Hi Hq. apply client_build_inv in Hc as (ec' & Hqc & Hkc & _).
  apply build_internal_inv in Hs as (es' & Hqs & Hks & _). unfold qualify_entity in *. rewrite Hq in Hqc.
  destruct (qualify_service_name _ _ _) as [n|e|]; try done. cbn in *. simplify_eq.
  rewrite (format_topic_key_expr_ext f _ (with_topic es n)) in Hkc by done. congruence.
Qed.
End Builders.

(** [rmw_send_request] sends what [send_request] sends. *)
Lemma rmw_send_request_same `{ZService} `{ZExtApi} `{ChannelApi} c token now m bs :
  msg_serialize m = Some bs ->
  rmw_send_request c token now m =
    (q ← (send_request c token now m).1; Ok (q, wrap_i 64 (cl_sn c)), (send_request c token now m).2).
Proof. intros Hb. unfold rmw_send_request, send_request. by rewrite Hb. Qed.

(** ** A concrete service: bytes for bytes, over lists *)

#[export] Instance ex_byte_message : ZMessage byte := {|
  msg_serialize b := Some [b];
  msg_deserialize bs := match bs with [b] => Ok b | _ => Err "not one byte"%string end;
|}.
#[export] Program Instance ex_byte_laws : ZMessageLaws byte := {| msg_ok b := True |}.
Next Obligation. intros m _. by exists [m]. Qed.
Next Obligation. by intros m bs _ [= <-]. Qed.
Next Obligation. by intros [|b [|? ?]]. Qed.
Definition ex_service : ZService := {| Request := byte; Response := byte |}.
Definition ex_service_laws : @ZServiceLaws ex_service :=
  @Build_ZServiceLaws ex_service ex_byte_laws ex_byte_laws.

#[export] Instance ex_channel : ChannelApi := {|
  Channel T := (N * list T)%type;
  bounded T n := (n, []);
  try_send T c x := if (N.of_nat (length c.2) <? c.1)%N then Some (c.1, c.2 ++ [x]) else None;
  try_recv T c := match c.2 with [] => None | x :: l => Some (x, (c.1, l)) end;
|}.
#[export] Program Instance ex_channel_laws : ChannelLaws := {|
  ch_items T c := c.2;
  ch_capacity T c := c.1;
|}.
Next Obligation. done. Qed.
Next Obligation. done. Qed.
Next Obligation. intros T [n l] x Hc. cbn in *. destruct (N.ltb_spec (N.of_nat (length l)) n); cbn; auto with lia. Qed.
Next Obligation. by intros T [n [|x l]]. Qed.

#[export] Instance ex_session : SessionApi := {|
  declare_querier _ := Ok tt; declare_queryable _ := Ok tt; declare_token _ := Ok tt;
  zext_error := Message "not an attachment"; recv_timeout_error := Message "timed out";
|}.
