(* ===== verification/ServiceNet.v ===== *)
(** * A service, its clients and the network between them

    [Net] composes any number of [ZClient]s with one [ZServer]: what is in
    flight either way, and the history of what was sent, taken, answered (with
    the key that the program gave to the server) and got.  [exec] is one step of it, an operation of one side or the delivery or
    loss of one message, in any order; a run is any list of steps.  The token of
    a query is its place in [sent]. *)
From stdpp Require Import gmap sorting.
From S2P Require Import Prelude RustStr CdrPrimitives CdrSpec Queue Attachment Qos Entity RmwZenoh Ros2Dds Service.
Open Scope list_scope.

(** ** Definitions *)

Section Net.
Context `{ZA : ZenohApi} `{Svc : ZService} `{ZExt : ZExtApi} `{Chan : ChannelApi} `{Sess : SessionApi}.

Record Net := mkNet {
  nt_clients : list ZClient;
  nt_server : ZServer;
  nt_flight : list ServiceQuery;
  nt_replies : list Sample;
  nt_sent : list (nat * QueryKey * Request);
  nt_taken : list (nat * QueryKey * Request);
  nt_answered : list (nat * QueryKey * Response);
  nt_got : list (nat * nat * Response);
}.
Definition net_new (clients : list ZClient) (server : ZServer) : Net :=
  mkNet clients server [] [] [] [] [] [].

(** One step: client [i] sends; the [n]th query in flight reaches the server, or
    is lost; the server takes a request, waiting or async, and answers the one of
    a key; the [n]th reply reaches its client, or is lost; client [i] takes a
    response. *)
Inductive NetOp :=
| OSend (i : nat) (now : option Z) (m : Request)
| ODeliver (n : nat)
| OLose (n : nat)
| OTake (async : bool)
| ORespond (async : bool) (key : QueryKey) (now : option Z) (r : Response)
| OReply (n : nat)
| OLoseReply (n : nat)
| OGet (i : nat).

Definition client_key (c : ZClient) : QueryKey := mkQueryKey (wrap_i 64 (cl_sn c)) (cl_gid c).
Definition queued (s : ZServer) : list ServiceQuery := from_option data [] (srv_queue s).

Definition exec_send (st : Net) (i : nat) (now : option Z) (m : Request) : Net :=
  match nt_clients st !! i with
  | Some c =>
      match send_request c (length (nt_sent st)) now m with
      | (Ok q, c') =>
          mkNet (<[i := c']> (nt_clients st)) (nt_server st) (nt_flight st ++ [q]) (nt_replies st)
            (nt_sent st ++ [(i, client_key c, m)]) (nt_taken st) (nt_answered st) (nt_got st)
      | _ => st
      end
  | None => st
  end.
Definition exec_deliver (st : Net) (n : nat) : Net :=
  match nt_flight st !! n with
  | Some q =>
      mkNet (nt_clients st) (on_query (nt_server st) q).2 (delete n (nt_flight st)) (nt_replies st)
        (nt_sent st) (nt_taken st) (nt_answered st) (nt_got st)
  | None => st
  end.
Definition exec_take (st : Net) (async : bool) : Net :=
  let '(o, s) := (if async then take_request_async else take_request) (nt_server st) in
  let taken := match o, queued (nt_server st) with
               | Done (Ok (key, m)), q :: _ => [(sq_token q, key, m)]
               | _, _ => []
               end in
  mkNet (nt_clients st) s (nt_flight st) (nt_replies st) (nt_sent st) (nt_taken st ++ taken)
    (nt_answered st) (nt_got st).
Definition exec_respond (st : Net) (async : bool) (key : QueryKey) (now : option Z) (r : Response) : Net :=
  match (if async then send_response_async else send_response) (nt_server st) now r key with
  | (Ok smp, s) =>
      mkNet (nt_clients st) s (nt_flight st) (nt_replies st ++ [smp]) (nt_sent st) (nt_taken st)
        (nt_answered st ++ [(smp_token smp, key, r)]) (nt_got st)
  | (_, s) =>
      mkNet (nt_clients st) s (nt_flight st) (nt_replies st) (nt_sent st) (nt_taken st)
        (nt_answered st) (nt_got st)
  end.
Definition exec_reply (st : Net) (n : nat) : Net :=
  match nt_replies st !! n with
  | Some smp =>
      let clients :=
        match nt_sent st !! smp_token smp with
        | Some (i, _, _) =>
            match nt_clients st !! i with
            | Some c => <[i := on_reply c (Some smp)]> (nt_clients st)
            | None => nt_clients st
            end
        | None => nt_clients st
        end in
      mkNet clients (nt_server st) (nt_flight st) (delete n (nt_replies st)) (nt_sent st)
        (nt_taken st) (nt_answered st) (nt_got st)
  | None => st
  end.
Definition exec_get (st : Net) (i : nat) : Net :=
  match nt_clients st !! i with
  | Some c =>
      let '(o, c') := take_response c in
      let got := match o, try_recv (cl_rx c) with
                 | Ok r, Some (smp, _) => [(i, smp_token smp, r)]
                 | _, _ => []
                 end in
      mkNet (<[i := c']> (nt_clients st)) (nt_server st) (nt_flight st) (nt_replies st) (nt_sent st)
        (nt_taken st) (nt_answered st) (nt_got st ++ got)
  | None => st
  end.
Definition exec (st : Net) (op : NetOp) : Net :=
  match op with
  | OSend i now m => exec_send st i now m
  | ODeliver n => exec_deliver st n
  | OLose n => mkNet (nt_clients st) (nt_server st) (delete n (nt_flight st)) (nt_replies st)
      (nt_sent st) (nt_taken st) (nt_answered st) (nt_got st)
  | OTake async => exec_take st async
  | ORespond async key now r => exec_respond st async key now r
  | OReply n => exec_reply st n
  | OLoseReply n => mkNet (nt_clients st) (nt_server st) (nt_flight st) (delete n (nt_replies st))
      (nt_sent st) (nt_taken st) (nt_answered st) (nt_got st)
  | OGet i => exec_get st i
  end.
Definition run (st : Net) (ops : list NetOp) : Net := foldl exec st ops.

(** *** Specification *)

Context `{ZExtL : !ZExtLaws} `{ChanL : !ChannelLaws} `{SvcL : !ZServiceLaws}.

Definition op_ok (op : NetOp) : Prop :=
  match op with
  | OSend _ _ m => msg_ok m
  | ORespond _ _ _ r => msg_ok r
  | _ => True
  end.
(** A client just built, and a server just built with a queue. *)
Definition fresh_client (c : ZClient) : Prop :=
  cl_sn c = 1%Z /\ gid_ok (cl_gid c) /\ ch_items (cl_rx c) = [] /\ (0 < ch_capacity (cl_rx c))%N.
Definition fresh_server (s : ZServer) : Prop :=
  (exists q, srv_queue s = Some q /\ data q = []) /\ srv_map s = ∅.

(** The query of entry [sq_token] of [sent], as its client made it. *)
Definition genuine (sent : list (nat * QueryKey * Request)) (q : ServiceQuery) : Prop :=
  exists i key m now bs,
    sent !! sq_token q = Some (i, key, m) /\ msg_serialize m = Some bs /\
    payload (sq_query q) = Some bs /\
    attachment (sq_query q) = Some (Attachment_into_zbytes (Attachment_new (qk_sn key) (qk_gid key) now)).

(** A sample that answers a request of client [i], under its key. *)
Definition answers (sent : list (nat * QueryKey * Request)) (answered : list (nat * QueryKey * Response))
    (i : nat) (smp : Sample) : Prop :=
  exists key m r now,
    sent !! smp_token smp = Some (i, key, m) /\ (smp_token smp, key, r) ∈ answered /\
    msg_ok r /\ msg_serialize r = Some (smp_payload smp) /\
    smp_attachment smp = Some (Attachment_into_zbytes (Attachment_new (qk_sn key) (qk_gid key) now)).

Definition key_ok (k : QueryKey) : Prop := i_range 64 (qk_sn k) /\ gid_ok (qk_gid k).
Definition sent_token (x : nat * QueryKey * Request) : nat := x.1.1.
Definition sent_key (x : nat * QueryKey * Request) : QueryKey := x.1.2.
Definition rx_tokens (clients : list ZClient) : list nat :=
  concat (map (fun c => map smp_token (ch_items (cl_rx c))) clients).
Definition ans_token (x : nat * QueryKey * Response) : nat := x.1.1.
Definition got_token (x : nat * nat * Response) : nat := x.1.2.

Record inv (st : Net) : Prop := {
  inv_clients : forall i c, nt_clients st !! i = Some c ->
    gid_ok (cl_gid c) /\ (1 <= cl_sn c <= 1 + Z.of_nat (length (nt_sent st)))%Z /\
    (0 < ch_capacity (cl_rx c))%N /\
    Forall (answers (nt_sent st) (nt_answered st) i) (ch_items (cl_rx c));
  inv_gids : NoDup (map cl_gid (nt_clients st));
  inv_sent : forall t i k m, nt_sent st !! t = Some (i, k, m) ->
    msg_ok m /\ exists c raw, nt_clients st !! i = Some c /\ (1 <= raw < cl_sn c)%Z /\
      k = mkQueryKey (wrap_i 64 raw) (cl_gid c);
  inv_keys : NoDup (map sent_key (nt_sent st));
  inv_flight : Forall (genuine (nt_sent st)) (nt_flight st);
  inv_mode : is_Some (srv_queue (nt_server st));
  inv_queue : Forall (genuine (nt_sent st)) (queued (nt_server st));
  inv_map : forall k q, srv_map (nt_server st) !! k = Some q ->
    (exists i m, nt_sent st !! sq_token q = Some (i, k, m)) /\
    sq_token q ∈ map sent_token (nt_taken st) /\ sq_token q ∉ map ans_token (nt_answered st);
  inv_taken : forall t k m, (t, k, m) ∈ nt_taken st -> exists i, nt_sent st !! t = Some (i, k, m);
  inv_tokens : NoDup (map sq_token (nt_flight st) ++ map sq_token (queued (nt_server st)) ++
    map sent_token (nt_taken st));
  inv_answered : forall t, t ∈ map ans_token (nt_answered st) -> t ∈ map sent_token (nt_taken st);
  inv_answered_once : NoDup (map ans_token (nt_answered st));
  inv_replies : Forall (fun smp => exists i, answers (nt_sent st) (nt_answered st) i smp) (nt_replies st);
  inv_reply_tokens : NoDup (map smp_token (nt_replies st) ++ rx_tokens (nt_clients st) ++
    map got_token (nt_got st));
  inv_got : forall i t r, (i, t, r) ∈ nt_got st ->
    exists k m, (t, k, r) ∈ nt_answered st /\ nt_sent st !! t = Some (i, k, m);
}.

(** ** Lemmas *)

(** *** Sequence numbers and keys *)

Lemma wrap_i_inj a b :
  (0 <= a < 2 ^ 64)%Z -> (0 <= b < 2 ^ 64)%Z -> wrap_i 64 a = wrap_i 64 b -> a = b.
Proof.
  intros Ha Hb. unfold wrap_i. change (64 - 1)%Z with 63%Z. intros Hx.
  assert ((a + 2 ^ 63) mod 2 ^ 64 = (b + 2 ^ 63) mod 2 ^ 64)%Z as Hm by lia.
  apply (f_equal (fun z => (z - 2 ^ 63) mod 2 ^ 64)%Z) in Hm. rewrite !Zminus_mod_idemp_l in Hm.
  rewrite !Z.add_simpl_r, !Z.mod_small in Hm; lia.
Qed.

Lemma genuine_key sent q i k m :
  genuine sent q -> sent !! sq_token q = Some (i, k, m) -> key_ok k -> msg_ok m ->
  query_key (sq_query q) = Ok k /\
  exists bs, payload (sq_query q) = Some bs /\ msg_deserialize bs = Ok m.
Proof.
  intros (i' & k' & m' & now & bs & Hs & Hb & Hp & Ha) Ht [Hk Hg] Hm.
  rewrite Hs in Ht. simplify_eq. split.
  - unfold query_key. rewrite Ha. cbn [unwrap mbind res_bind].
    rewrite attachment_roundtrip by (by apply Attachment_new_ok). by destruct k.
  - exists bs. split; [done|]. by apply (msg_roundtrip m).
Qed.

(** *** Growing histories *)

Lemma genuine_app sent l q : genuine sent q -> genuine (sent ++ l) q.
Proof.
  intros (i & k & m & now & bs & Hs & H). exists i, k, m, now, bs. split; [|done].
  by apply lookup_app_l_Some.
Qed.

Lemma answers_app sent l answered l' i smp :
  answers sent answered i smp -> answers (sent ++ l) (answered ++ l') i smp.
Proof.
  intros (k & m & r & now & Hs & Hr & H). exists k, m, r, now. split; [by apply lookup_app_l_Some|].
  split; [|done]. apply elem_of_app. by left.
Qed.

Lemma answered_snoc (l : list (nat * QueryKey * Response)) t k r x :
  x ∈ map ans_token (l ++ [(t, k, r)]) <-> x ∈ map ans_token l \/ x = t.
Proof. rewrite map_app, elem_of_app. cbn. by rewrite list_elem_of_singleton. Qed.

(** *** The tokens in the clients' channels *)

Lemma rx_tokens_insert clients i c c' :
  clients !! i = Some c ->
  exists rest, rx_tokens clients ≡ₚ map smp_token (ch_items (cl_rx c)) ++ rest /\
               rx_tokens (<[i := c']> clients) ≡ₚ map smp_token (ch_items (cl_rx c')) ++ rest.
Proof.
  unfold rx_tokens. revert i. induction clients as [|d clients IH]; intros [|i] Hi; try done; cbn.
  - injection Hi as ->. by exists (concat (map (fun c => map smp_token (ch_items (cl_rx c))) clients)).
  - destruct (IH i Hi) as (rest & H1 & H2). exists (map smp_token (ch_items (cl_rx d)) ++ rest).
    cbn. rewrite H1, H2. split; rewrite !app_assoc; f_equiv; apply Permutation_app_comm.
Qed.

Lemma delete_permutation {A} (l : list A) n x : l !! n = Some x -> l ≡ₚ x :: delete n l.
Proof. intros Hx. by apply delete_Permutation. Qed.

Lemma submseteq_NoDup {A} (l k : list A) : l ⊆+ k -> NoDup k -> NoDup l.
Proof. intros [k' ->]%submseteq_Permutation. by intros [? _]%NoDup_app. Qed.

Lemma submseteq_Forall {A} (P : A -> Prop) l k : l ⊆+ k -> Forall P k -> Forall P l.
Proof. intros Hs. rewrite !Forall_forall. intros HF x Hx. apply HF. by eapply elem_of_submseteq. Qed.

(** *** The server *)

Lemma handler_queue_set {T} (h : DataHandler T) q q' :
  handler_queue h = Some q -> handler_queue (set_handler_queue h q') = Some q'.
Proof. by destruct h. Qed.

Lemma set_queue_queue s q q' : srv_queue s = Some q -> srv_queue (set_queue s q') = Some q'.
Proof. apply handler_queue_set. Qed.

(** A query is queued, and the oldest may go. *)
Lemma on_query_queued s q qq :
  srv_queue s = Some qq ->
  is_Some (srv_queue (on_query s q).2) /\ srv_map (on_query s q).2 = srv_map s /\
  queued (on_query s q).2 `sublist_of` queued s ++ [q].
Proof.
  intros Hq. unfold on_query, queued, srv_queue in *. destruct (srv_handler s) as [q0| |q0]; try done;
    injection Hq as ->; cbn [handle snd handler_queue from_option option_bind]; rewrite queue_push_eq;
    (split; [by case_match|]); (split; [done|]); case_match; cbn; [|done|..];
    [apply sublist_app; [apply tail_sublist|done]|apply sublist_app; [apply tail_sublist|done]|done].
Qed.

Lemma take_request_cases (a : bool) s qq :
  srv_queue s = Some qq ->
  match data qq with
  | [] => exists s', (if a then take_request_async else take_request) s = (Blocked, s') /\
            srv_queue s' = Some qq /\ srv_map s' = srv_map s
  | q :: d => (if a then take_request_async else take_request) s =
      let '(r, s') := (if a then accept_query_async else accept_query)
                        (set_queue s (mkQueue d (capacity qq))) q in (Done r, s')
  end.
Proof.
  intros Hq. unfold take_request, take_request_async. destruct a; rewrite Hq;
    unfold queue_recv, queue_recv_async, queue_try_recv, queue_is_empty, pop_front;
    destruct qq as [[|q d] cap]; cbn; try reflexivity;
    eexists; (split; [reflexivity|]); (split; [by eapply set_queue_queue|done]).
Qed.

(** A well-formed query whose key is free is accepted. *)
Lemma accept_query_ok (a : bool) s q k bs m :
  query_key (sq_query q) = Ok k -> payload (sq_query q) = Some bs ->
  srv_map s !! k = None -> msg_deserialize bs = Ok m ->
  (if a then accept_query_async else accept_query) s q = (Ok (k, m), set_map s (<[k := q]> (srv_map s))).
Proof.
  intros Hk Hp Hm Hd. destruct a; unfold accept_query, accept_query_async; rewrite Hk, Hp; cbn;
    rewrite decide_False by (rewrite Hm; by intros []); cbn; by rewrite Hd.
Qed.

(** *** The invariant *)

Lemma net_inv_new clients server :
  Forall fresh_client clients -> NoDup (map cl_gid clients) -> fresh_server server ->
  inv (net_new clients server).
Proof.
  intros Hc Hg [(q & Hq & Hd) Hm]. rewrite Forall_lookup in Hc.
  assert (queued server = []) as Hqd by (unfold queued; by rewrite Hq).
  assert (rx_tokens clients = []) as Hrx.
  { unfold rx_tokens. clear Hg. induction clients as [|c clients IH]; [done|]. cbn.
    destruct (Hc 0%nat c eq_refl) as (_ & _ & -> & _). apply IH. intros n. exact (Hc (S n)). }
  unfold rx_tokens in Hrx. constructor; cbn; rewrite ?Hqd, ?Hrx; try done; try (by constructor).
  1: { intros i c Hi. destruct (Hc i c Hi) as (-> & Hgid & -> & Hcap). repeat split; try done; lia. }
  all: try (intros *; rewrite ?Hm, ?lookup_nil, ?lookup_empty, ?elem_of_nil; done).
Qed.

Lemma key_unique st t t' i i' k m m' :
  inv st -> nt_sent st !! t = Some (i, k, m) -> nt_sent st !! t' = Some (i', k, m') -> t = t'.
Proof.
  intros H Ht Ht'. apply (NoDup_lookup _ t t' k (inv_keys _ H)).
  - by rewrite list_lookup_fmap, Ht.
  - by rewrite list_lookup_fmap, Ht'.
Qed.

Lemma sent_key_ok st t i k m : inv st -> nt_sent st !! t = Some (i, k, m) -> key_ok k.
Proof.
  intros H Ht. destruct (inv_sent _ H _ _ _ _ Ht) as (_ & c & raw & Hc & _ & ->).
  split; [apply wrap_i_range; lia|]. by destruct (inv_clients _ H _ _ Hc).
Qed.

(** Every token in use is an entry of [sent]. *)
Lemma tokens_lt st t :
  inv st -> t ∈ map sq_token (nt_flight st) ++ map sq_token (queued (nt_server st)) ++
                map sent_token (nt_taken st) -> (t < length (nt_sent st))%nat.
Proof.
  assert (forall l, Forall (genuine (nt_sent st)) l -> t ∈ map sq_token l -> (t < length (nt_sent st))%nat) as Hl.
  { intros l Hl Ht. apply list_elem_of_fmap in Ht as (q & -> & Hq). rewrite Forall_forall in Hl.
    destruct (Hl q Hq) as (i & k & m & now & bs & Hs & _). by eapply lookup_lt_Some. }
  intros H. rewrite !elem_of_app. intros [Ht|[Ht|Ht]].
  - by apply (Hl _ (inv_flight _ H)).
  - by apply (Hl _ (inv_queue _ H)).
  - apply list_elem_of_fmap in Ht as ([[t' k] m] & -> & Hx). cbn.
    destruct (inv_taken _ H _ _ _ Hx) as [i Hi]. by eapply lookup_lt_Some.
Qed.

(** Replacing a client by one that answers to the same name. *)
Lemma set_client st i c c' :
  inv st -> nt_clients st !! i = Some c -> cl_sn c' = cl_sn c -> cl_gid c' = cl_gid c ->
  ch_capacity (cl_rx c') = ch_capacity (cl_rx c) ->
  Forall (answers (nt_sent st) (nt_answered st) i) (ch_items (cl_rx c')) ->
  let clients := <[i := c']> (nt_clients st) in
  (forall j d, clients !! j = Some d -> gid_ok (cl_gid d) /\
    (1 <= cl_sn d <= 1 + Z.of_nat (length (nt_sent st)))%Z /\ (0 < ch_capacity (cl_rx d))%N /\
    Forall (answers (nt_sent st) (nt_answered st) j) (ch_items (cl_rx d))) /\
  NoDup (map cl_gid clients) /\
  (forall t j k m, nt_sent st !! t = Some (j, k, m) ->
    msg_ok m /\ exists d raw, clients !! j = Some d /\ (1 <= raw < cl_sn d)%Z /\
      k = mkQueryKey (wrap_i 64 raw) (cl_gid d)).
Proof.
  intros H Hi Hsn Hgid Hcap Hrx clients. subst clients.
  destruct (inv_clients _ H _ _ Hi) as (Hg & Hs & Hc & _). split; [|split].
  - intros j d Hj. apply list_lookup_insert_Some in Hj as [(<- & <- & _)|[_ Hj]].
    + rewrite Hsn, Hgid, Hcap. done.
    + by apply (inv_clients _ H).
  - rewrite list_fmap_insert, list_insert_id; [apply (inv_gids _ H)|].
    by rewrite Hgid, list_lookup_fmap, Hi.
  - intros t j k m Ht. destruct (inv_sent _ H _ _ _ _ Ht) as (Hm & d & raw & Hd & Hraw & ->).
    split; [done|]. destruct (decide (i = j)) as [<-|Hne].
    + rewrite Hi in Hd. injection Hd as <-. exists c', raw. rewrite Hsn, Hgid.
      split; [|done]. apply list_lookup_insert_eq. by eapply lookup_lt_Some.
    + exists d, raw. by rewrite list_lookup_insert_ne.
Qed.

Lemma inv_send st i now m :
  inv st -> msg_ok m -> (Z.of_nat (length (nt_sent st)) + 2 < 2 ^ 64)%Z -> inv (exec_send st i now m).
Proof.
  intros H Hm Hlen. unfold exec_send. destruct (nt_clients st !! i) as [c|] eqn:Hi; [|done].
  unfold send_request. destruct (msg_serialize m) as [bs|] eqn:Hb; [|done]. cbn [client_new_attachment].
  destruct (inv_clients _ H _ _ Hi) as (Hg & Hs & Hcap & Hrx).
  assert (wrap_u 64 (cl_sn c + 1) = cl_sn c + 1)%Z as Hw by (unfold wrap_u; apply Z.mod_small; lia).
  rewrite Hw. set (c' := mkClient _ _ _ _ _). set (q := mkServiceQuery _ _).
  set (x := (i, client_key c, m)).
  assert (forall j d, <[i := c']> (nt_clients st) !! j = Some d ->
    exists d0, nt_clients st !! j = Some d0 /\ cl_gid d = cl_gid d0 /\ cl_rx d = cl_rx d0 /\
      (cl_sn d0 <= cl_sn d <= cl_sn d0 + 1)%Z) as Hcl.
  { intros j d Hj. apply list_lookup_insert_Some in Hj as [(<- & <- & _)|[_ Hj]].
    - exists c. repeat split; cbn; lia || done.
    - exists d. repeat split; lia || done. }
  assert (forall t j k m0, (nt_sent st ++ [x]) !! t = Some (j, k, m0) ->
    nt_sent st !! t = Some (j, k, m0) \/ (t = length (nt_sent st) /\ (j, k, m0) = x)) as Hsent.
  { intros t j k m0 [Ht|[Hge Ht]]%lookup_app_Some; [by left|]. right.
    apply list_lookup_singleton_Some in Ht as [Ht <-]. split; [lia|done]. }
  assert (forall t j k m0, nt_sent st !! t = Some (j, k, m0) -> (nt_sent st ++ [x]) !! t = Some (j, k, m0))
    as Hold by (intros; by apply lookup_app_l_Some).
  assert (forall l, Forall (genuine (nt_sent st)) l -> Forall (genuine (nt_sent st ++ [x])) l) as Hgen
    by (intros l Hl; apply (Forall_impl _ _ _ Hl); intros; by apply genuine_app).
  assert (forall j s0, answers (nt_sent st) (nt_answered st) j s0 -> answers (nt_sent st ++ [x]) (nt_answered st) j s0)
    as Hans by (intros j s0 Ha; rewrite <- (app_nil_r (nt_answered st)); by apply answers_app).
  constructor; cbn [nt_clients nt_server nt_flight nt_replies nt_sent nt_taken nt_answered nt_got].
  - intros j d Hj. destruct (Hcl j d Hj) as (d0 & Hd0 & -> & -> & Hsn).
    destruct (inv_clients _ H _ _ Hd0) as (? & ? & ? & HF). rewrite length_app. cbn [length].
    assert (cl_sn d <= 1 + Z.of_nat (length (nt_sent st) + 1))%Z.
    { lia. }
    split; [done|]. split; [lia|]. split; [done|]. apply (Forall_impl _ _ _ HF). apply Hans.
  - rewrite list_fmap_insert, list_insert_id; [apply (inv_gids _ H)|].
    by rewrite list_lookup_fmap, Hi.
  - intros t j k m0 [Ht|[_ [= -> -> ->]]]%Hsent.
    + destruct (inv_sent _ H _ _ _ _ Ht) as (Hm0 & d & raw & Hd & Hraw & ->). split; [done|].
      destruct (decide (i = j)) as [<-|Hne].
      * rewrite Hi in Hd. injection Hd as <-. exists c', raw.
        split; [apply list_lookup_insert_eq; by eapply lookup_lt_Some|]. split; [cbn; lia|done].
      * exists d, raw. by rewrite list_lookup_insert_ne.
    + split; [done|]. exists c', (cl_sn c).
      split; [apply list_lookup_insert_eq; by eapply lookup_lt_Some|]. split; [cbn; lia|done].
  - rewrite map_app. apply NoDup_app. split; [apply (inv_keys _ H)|]. split; [|apply NoDup_singleton].
    intros k Hk ->%list_elem_of_singleton. apply list_elem_of_fmap in Hk as ([[j k0] m0] & Heq & Hin).
    cbn in Heq. subst k0. apply list_elem_of_lookup in Hin as [t Ht].
    destruct (inv_sent _ H _ _ _ _ Ht) as (_ & d & raw & Hd & Hraw & Hk). unfold client_key in Hk.
    injection Hk as Hsn Hgid.
    assert (i = j) as <- by (apply (NoDup_lookup _ i j (cl_gid c) (inv_gids _ H));
      rewrite list_lookup_fmap; [by rewrite Hi|by rewrite Hd, Hgid]).
    rewrite Hi in Hd. injection Hd as <-. apply wrap_i_inj in Hsn; lia.
  - apply Forall_app. split; [apply Hgen, (inv_flight _ H)|]. constructor; [|constructor].
    exists i, (client_key c), m, now, bs. split; [|done]. apply list_lookup_middle. done.
  - apply (inv_mode _ H).
  - apply Hgen, (inv_queue _ H).
  - intros k q0 Hq. destruct (inv_map _ H k q0 Hq) as [(j & m0 & Ht) Hr]. split; [|done].
    exists j, m0. by apply Hold.
  - intros t k m0 Hin. destruct (inv_taken _ H _ _ _ Hin) as [j Ht]. exists j. by apply Hold.
  - rewrite map_app, <- app_assoc. cbn [map sq_token app]. rewrite <- Permutation_middle.
    apply NoDup_cons. split; [|apply (inv_tokens _ H)]. intros Hin. apply (tokens_lt _ _ H) in Hin. cbn in Hin. lia.
  - apply (inv_answered _ H).
  - apply (inv_answered_once _ H).
  - apply (Forall_impl _ _ _ (inv_replies _ H)). intros s0 [j Ha]. exists j. by apply Hans.
  - assert (rx_tokens (<[i := c']> (nt_clients st)) = rx_tokens (nt_clients st)) as ->; [|apply (inv_reply_tokens _ H)].
    unfold rx_tokens. f_equal. rewrite list_fmap_insert. apply list_insert_id. by rewrite list_lookup_fmap, Hi.
  - intros j t r Hin. destruct (inv_got _ H _ _ _ Hin) as (k & m0 & Ha & Ht).
    exists k, m0. split; [done|]. by apply Hold.
Qed.

(** Messages move to the server's queue, or are lost. *)
Lemma inv_move st s flight :
  inv st -> is_Some (srv_queue s) -> srv_map s = srv_map (nt_server st) ->
  flight ++ queued s ⊆+ nt_flight st ++ queued (nt_server st) ->
  inv (mkNet (nt_clients st) s flight (nt_replies st) (nt_sent st) (nt_taken st) (nt_answered st) (nt_got st)).
Proof.
  intros H Hq Hm Hsub.
  assert (Forall (genuine (nt_sent st)) (flight ++ queued s)) as HF.
  { apply (submseteq_Forall _ _ _ Hsub), Forall_app. split; [apply (inv_flight _ H)|apply (inv_queue _ H)]. }
  apply Forall_app in HF as [HF1 HF2].
  destruct H. constructor; cbn; try done.
  - by rewrite Hm.
  - rewrite app_assoc, <- map_app in *. apply (fun H => submseteq_NoDup _ _ H inv_tokens0).
    apply submseteq_app; [|done]. by apply fmap_submseteq.
Qed.

Lemma inv_deliver st n : inv st -> inv (exec_deliver st n).
Proof.
  intros H. unfold exec_deliver. destruct (nt_flight st !! n) as [q|] eqn:Hq; [|done].
  destruct (inv_mode _ H) as [qq Hqq].
  destruct (on_query_queued (nt_server st) q qq Hqq) as (Hs & Hm & Hsub). apply inv_move; try done.
  pose proof (delete_permutation _ _ _ Hq) as Hp. set (d := delete n (nt_flight st)) in *. clearbody d.
  apply sublist_submseteq in Hsub. rewrite Hp. etrans; [apply submseteq_app; [done|exact Hsub]|].
  apply Permutation_submseteq.
  rewrite (Permutation_app_comm (queued _)). cbn. by rewrite <- Permutation_middle.
Qed.

Lemma inv_lose st n : inv st -> inv (exec st (OLose n)).
Proof.
  intros H. apply inv_move; [done|apply (inv_mode _ H)|done|].
  apply submseteq_app; [|done]. apply submseteq_delete.
Qed.

(** The head of the queue is taken: it is accepted, with the request that was
    sent. *)
Lemma take_accepts st (a : bool) :
  inv st ->
  let take := (if a then take_request_async else take_request) (nt_server st) in
  match queued (nt_server st) with
  | [] => take.1 = Blocked /\ is_Some (srv_queue take.2) /\ queued take.2 = [] /\
          srv_map take.2 = srv_map (nt_server st)
  | q :: d => exists i k m, nt_sent st !! sq_token q = Some (i, k, m) /\ take.1 = Done (Ok (k, m)) /\
      is_Some (srv_queue take.2) /\ queued take.2 = d /\
      srv_map take.2 = <[k := q]> (srv_map (nt_server st))
  end.
Proof.
  intros H take. subst take. destruct (inv_mode _ H) as [qq Hqq].
  pose proof (take_request_cases a _ _ Hqq) as Hc.
  assert (queued (nt_server st) = data qq) as Hqd by (unfold queued; by rewrite Hqq).
  pose proof (inv_queue _ H) as HF. pose proof (inv_tokens _ H) as Htok. rewrite Hqd in *.
  destruct (data qq) as [|q d] eqn:Ed.
  - destruct Hc as (s' & -> & Hs' & Hm). cbn. split; [done|]. unfold queued. rewrite Hs'. cbn. by rewrite Ed.
  - inversion_clear HF as [|? ? Hgen _]. pose proof Hgen as (i & k & m & now & bs & Ht & _).
    exists i, k, m. split; [done|].
    destruct (genuine_key _ _ _ _ _ Hgen Ht (sent_key_ok _ _ _ _ _ H Ht) (proj1 (inv_sent _ H _ _ _ _ Ht)))
      as (Hk & bs' & Hp & Hd).
    assert (srv_map (set_queue (nt_server st) (mkQueue d (capacity qq))) !! k = None) as Hnone.
    { change (srv_map (nt_server st) !! k = None). apply eq_None_not_Some. intros [q' Hq'].
      destruct (inv_map _ H k q' Hq') as [(i' & m' & Ht') [Hin _]].
      assert (sq_token q' = sq_token q) as Heq by (by eapply key_unique).
      rewrite Heq in Hin. apply NoDup_app in Htok as (_ & _ & Htok). cbn [map app] in Htok.
      apply NoDup_cons in Htok as [Hnin _]. apply Hnin, elem_of_app. by right. }
    rewrite Hc, (accept_query_ok a _ q k bs' m Hk Hp Hnone Hd). cbn.
    pose proof (set_queue_queue _ _ (mkQueue d (capacity qq)) Hqq) as Hq'.
    split; [done|]. split; [by eexists|]. split; [|done]. unfold queued.
    change (from_option data [] (srv_queue (set_queue (nt_server st) (mkQueue d (capacity qq)))) = d). by rewrite Hq'.
Qed.

Lemma inv_take st a : inv st -> inv (exec_take st a).
Proof.
  intros H. unfold exec_take. pose proof (take_accepts st a H) as Ht. cbn zeta in Ht.
  destruct ((if a then take_request_async else take_request) (nt_server st)) as [o s]. cbn [fst snd] in Ht.
  destruct (queued (nt_server st)) as [|q d] eqn:Eq.
  - destruct Ht as (-> & Hs & Hqs & Hm). rewrite app_nil_r. apply inv_move; try done. by rewrite Hqs, Eq.
  - destruct Ht as (i & k & m & Ht & -> & Hs & Hqs & Hm).
    assert (sq_token q ∉ map sent_token (nt_taken st)) as Hnew.
    { pose proof (inv_tokens _ H) as Htok. rewrite Eq in Htok. apply NoDup_app in Htok as (_ & _ & Htok).
      cbn [map app] in Htok. apply NoDup_cons in Htok as [Hnin _]. intros Hin. apply Hnin, elem_of_app. by right. }
    pose proof H as []. rewrite Eq in *. constructor; cbn; rewrite ?Hqs, ?map_app; try done.
    + by inversion_clear inv_queue0.
    + rewrite Hm. intros k' q'. rewrite lookup_insert_Some. intros [[<- <-]|[_ Hq']].
      * split; [by exists i, m|]. split; [apply elem_of_app; right; by apply list_elem_of_singleton|].
        intros Hin. by apply Hnew, inv_answered0.
      * destruct (inv_map0 k' q' Hq') as (? & ? & ?). split; [done|]. split; [|done].
        apply elem_of_app. by left.
    + intros t k' m'. rewrite elem_of_app, list_elem_of_singleton. intros [Hin|[= -> -> ->]]; [by eapply inv_taken0|].
      by exists i.
    + cbn [map app] in inv_tokens0 |- *. rewrite (Permutation_app_comm (map sent_token (nt_taken st))).
      cbn [app]. by rewrite <- Permutation_middle.
    + intros t Hin. apply elem_of_app. left. by apply inv_answered0.
Qed.

(** The token of every reply under way is of an answered request. *)
Lemma reply_tokens_answered st t :
  inv st -> t ∈ map smp_token (nt_replies st) ++ rx_tokens (nt_clients st) ++ map got_token (nt_got st) ->
  t ∈ map ans_token (nt_answered st).
Proof.
  intros H. rewrite !elem_of_app. intros [Ht|[Ht|Ht]].
  - apply list_elem_of_fmap in Ht as (smp & -> & Hin). pose proof (inv_replies _ H) as HF.
    rewrite Forall_forall in HF. destruct (HF smp Hin) as (i & k & m & r & now & _ & Hr & _).
    apply list_elem_of_fmap. by exists (smp_token smp, k, r).
  - unfold rx_tokens in Ht. apply list_elem_of_In, in_concat in Ht as (l & Hl & Ht).
    apply list_elem_of_In in Hl. apply list_elem_of_In in Ht.
    apply list_elem_of_fmap in Hl as (c & -> & Hc). apply list_elem_of_lookup in Hc as [i Hi].
    destruct (inv_clients _ H _ _ Hi) as (_ & _ & _ & HF). rewrite Forall_forall in HF.
    apply list_elem_of_fmap in Ht as (smp & -> & Hin).
    destruct (HF smp Hin) as (k & m & r & now & _ & Hr & _). apply list_elem_of_fmap. by exists (smp_token smp, k, r).
  - apply list_elem_of_fmap in Ht as ([[i t'] r] & -> & Hin). destruct (inv_got _ H _ _ _ Hin) as (k & m & Ha & _).
    apply list_elem_of_fmap. by exists (t', k, r).
Qed.

Lemma inv_unmap st key :
  inv st -> inv (mkNet (nt_clients st) (set_map (nt_server st) (delete key (srv_map (nt_server st))))
    (nt_flight st) (nt_replies st) (nt_sent st) (nt_taken st) (nt_answered st) (nt_got st)).
Proof.
  intros H. destruct H. constructor; cbn; try done.
  intros k q Hq. apply lookup_delete_Some in Hq as [_ Hq]. by apply inv_map0.
Qed.

Lemma inv_respond st a key now r : inv st -> msg_ok r -> inv (exec_respond st a key now r).
Proof.
  intros H Hr. unfold exec_respond.
  assert (forall x, (if a then send_response_async else send_response) (nt_server st) now r key = x ->
    match srv_map (nt_server st) !! key with
    | Some q => x = (reply_to now r key q, set_map (nt_server st) (delete key (srv_map (nt_server st))))
    | None => exists e, x = (Err e, nt_server st)
    end) as Hx.
  { intros x <-. unfold send_response, send_response_async. destruct a; case_match; try done; by eexists. }
  specialize (Hx _ eq_refl). destruct (srv_map (nt_server st) !! key) as [q|] eqn:Hq.
  2: { destruct Hx as [e ->]. by destruct st. }
  rewrite Hx. unfold reply_to. destruct (msg_serialize r) as [bs|] eqn:Hb; cbn [unwrap mbind res_bind];
    [|by apply inv_unmap].
  pose proof (inv_map _ H key q Hq) as ((i & m & Ht) & Htk & Hnew).
  assert (sq_token q ∉ map smp_token (nt_replies st) ++ rx_tokens (nt_clients st) ++ map got_token (nt_got st))
    as Hfresh by (intros Hin; by apply Hnew, reply_tokens_answered).
  assert (forall j smp, answers (nt_sent st) (nt_answered st) j smp ->
    answers (nt_sent st) (nt_answered st ++ [(sq_token q, key, r)]) j smp) as Hans
    by (intros j smp Ha; rewrite <- (app_nil_r (nt_sent st)); by apply answers_app).
  pose proof (inv_unmap st key H) as []. constructor; cbn in *; try done.
  - intros j c Hj. destruct (inv_clients0 j c Hj) as (? & ? & ? & HF). do 3 (split; [done|]).
    apply (Forall_impl _ _ _ HF). apply Hans.
  - intros k q' Hq'. destruct (inv_map0 k q' Hq') as ((i' & m' & Ht') & ? & ?). split; [by exists i', m'|].
    split; [done|]. rewrite answered_snoc. intros [|Heq]; [done|].
    apply lookup_delete_Some in Hq' as [Hne _]. rewrite Heq, Ht in Ht'. congruence.
  - intros t. rewrite answered_snoc. intros [| ->]; [by apply inv_answered0|done].
  - rewrite map_app. apply NoDup_app. split; [done|]. split; [|apply NoDup_singleton].
    by intros t Hin ->%list_elem_of_singleton.
  - apply Forall_app. split.
    + apply (Forall_impl _ _ _ inv_replies0). intros smp [j Ha]. exists j. by apply Hans.
    + constructor; [|constructor]. exists i, key, m, r, now. split; [done|].
      split; [apply elem_of_app; right; by apply list_elem_of_singleton|]. done.
  - rewrite map_app, <- app_assoc. cbn [map smp_token app]. rewrite <- Permutation_middle.
    by apply NoDup_cons.
  - intros j t r' Hin. destruct (inv_got0 j t r' Hin) as (k' & m' & Ha & ?). exists k', m'. split; [|done].
    apply elem_of_app. by left.
Qed.

Lemma on_reply_spec c smp :
  (0 < ch_capacity (cl_rx c))%N ->
  let c' := on_reply c (Some smp) in
  cl_sn c' = cl_sn c /\ cl_gid c' = cl_gid c /\ ch_capacity (cl_rx c') = ch_capacity (cl_rx c) /\
  (ch_items (cl_rx c') = ch_items (cl_rx c) ++ [smp] \/ ch_items (cl_rx c') = ch_items (cl_rx c)) /\
  ((N.of_nat (length (ch_items (cl_rx c))) < ch_capacity (cl_rx c))%N ->
   ch_items (cl_rx c') = ch_items (cl_rx c) ++ [smp]).
Proof.
  intros Hc c'. subst c'. unfold on_reply. pose proof (try_send_spec Sample (cl_rx c) smp Hc) as Hs.
  destruct (try_send (cl_rx c) smp) as [rx|]; cbn.
  - destruct Hs as (Hi & Hcap & _). rewrite Hi, Hcap. auto 6.
  - do 3 (split; [done|]). split; [by right|]. intros Hlt. lia.
Qed.

(** A list of tokens with one fewer under way. *)
Lemma inv_fewer_replies st clients replies got :
  inv st -> replies ⊆+ nt_replies st ->
  (forall j d, clients !! j = Some d -> gid_ok (cl_gid d) /\
    (1 <= cl_sn d <= 1 + Z.of_nat (length (nt_sent st)))%Z /\ (0 < ch_capacity (cl_rx d))%N /\
    Forall (answers (nt_sent st) (nt_answered st) j) (ch_items (cl_rx d))) /\
  NoDup (map cl_gid clients) /\
  (forall t j k m, nt_sent st !! t = Some (j, k, m) ->
    msg_ok m /\ exists d raw, clients !! j = Some d /\ (1 <= raw < cl_sn d)%Z /\
      k = mkQueryKey (wrap_i 64 raw) (cl_gid d)) ->
  map smp_token replies ++ rx_tokens clients ++ map got_token got ⊆+
    map smp_token (nt_replies st) ++ rx_tokens (nt_clients st) ++ map got_token (nt_got st) ->
  (forall i t r, (i, t, r) ∈ got -> exists k m, (t, k, r) ∈ nt_answered st /\ nt_sent st !! t = Some (i, k, m)) ->
  inv (mkNet clients (nt_server st) (nt_flight st) replies (nt_sent st) (nt_taken st) (nt_answered st) got).
Proof.
  intros H Hrep (Hc & Hg & Hs) Htok Hgot. destruct H. constructor; cbn; try done.
  - by apply (submseteq_Forall _ _ _ Hrep).
  - by apply (submseteq_NoDup _ _ Htok).
Qed.

Lemma inv_lose_reply st n : inv st -> inv (exec st (OLoseReply n)).
Proof.
  intros H. apply inv_fewer_replies; [done|apply submseteq_delete|..|apply (inv_got _ H)].
  - split; [apply (inv_clients _ H)|]. split; [apply (inv_gids _ H)|apply (inv_sent _ H)].
  - apply submseteq_app; [|done]. apply (fmap_submseteq smp_token), submseteq_delete.
Qed.

Lemma inv_reply st n : inv st -> inv (exec_reply st n).
Proof.
  intros H. unfold exec_reply. destruct (nt_replies st !! n) as [smp|] eqn:Hn; [|done].
  pose proof (inv_replies _ H) as HF. rewrite Forall_lookup in HF.
  destruct (HF n smp Hn) as (i & Ha). pose proof Ha as (k & m & r & now & Ht & _). rewrite Ht.
  destruct (inv_sent _ H _ _ _ _ Ht) as (_ & c & _ & Hi & _). rewrite Hi.
  destruct (inv_clients _ H _ _ Hi) as (_ & _ & Hcap & Hrx).
  destruct (on_reply_spec c smp Hcap) as (Hsn & Hgid & Hc' & Hitems & _).
  set (c' := on_reply c (Some smp)) in *. clearbody c'.
  apply inv_fewer_replies; [done|apply submseteq_delete|..|apply (inv_got _ H)].
  - apply (set_client st i c c'); try done. destruct Hitems as [->| ->]; [|done].
    apply Forall_app. by split; [|constructor].
  - destruct (rx_tokens_insert (nt_clients st) i c c' Hi) as (rest & H1 & H2). rewrite H1, H2.
    pose proof (delete_permutation _ _ _ Hn) as Hp. set (d := delete n (nt_replies st)) in *. clearbody d.
    rewrite Hp. cbn [map app]. destruct Hitems as [-> | ->].
    + apply Permutation_submseteq. rewrite map_app. cbn [map]. rewrite <- !app_assoc. cbn [app].
      rewrite !app_assoc. rewrite <- !Permutation_middle. by rewrite <- !app_assoc.
    + by apply submseteq_cons.
Qed.

(** A response that is taken is one that was given to a request of this client. *)
Lemma take_response_spec st i c :
  inv st -> nt_clients st !! i = Some c ->
  match ch_items (cl_rx c) with
  | [] => take_response c = (Err (Message "No sample available"), c)
  | smp :: rest => exists c' rx k m r,
      try_recv (cl_rx c) = Some (smp, rx) /\
      take_response c = (Ok r, c') /\ c' = set_rx c rx /\ ch_items rx = rest /\
      ch_capacity rx = ch_capacity (cl_rx c) /\
      nt_sent st !! smp_token smp = Some (i, k, m) /\ (smp_token smp, k, r) ∈ nt_answered st
  end.
Proof.
  intros H Hi. destruct (inv_clients _ H _ _ Hi) as (_ & _ & _ & HF).
  pose proof (try_recv_spec Sample (cl_rx c)) as Hr. unfold take_response, take_sample.
  destruct (try_recv (cl_rx c)) as [[smp rx]|].
  - destruct Hr as [Hit Hcap]. rewrite Hit in *. inversion_clear HF as [|? ? Ha _].
    destruct Ha as (k & m & r & now & Ht & Hin & Hok & Hb & _). exists (set_rx c rx), rx, k, m, r.
    split; [done|]. split; [|done]. unfold deserialize_response. cbn [mbind res_bind].
    by rewrite (msg_roundtrip r _ Hok Hb).
  - by rewrite Hr.
Qed.

Lemma inv_get st i : inv st -> inv (exec_get st i).
Proof.
  intros H. unfold exec_get. destruct (nt_clients st !! i) as [c|] eqn:Hi; [|done].
  pose proof (take_response_spec st i c H Hi) as Hr. destruct (ch_items (cl_rx c)) as [|smp rest] eqn:Hit.
  - rewrite Hr, app_nil_r, list_insert_id by done. by destruct st.
  - destruct Hr as (c' & rx & k & m & r & -> & -> & -> & Hrx & Hcap & Ht & Ha).
    destruct (inv_clients _ H _ _ Hi) as (_ & _ & _ & HF).
    apply inv_fewer_replies; [done|done|..].
    + apply (set_client st i c (set_rx c rx)); try done. cbn. rewrite Hrx. rewrite Hit in HF. by inversion HF.
    + destruct (rx_tokens_insert (nt_clients st) i c (set_rx c rx) Hi) as (l & H1 & H2). rewrite H1, H2.
      apply Permutation_submseteq. f_equiv. cbn [cl_rx set_rx]. rewrite Hrx, Hit, map_app. cbn [map app got_token].
      rewrite !app_assoc, <- Permutation_cons_append. by rewrite <- !app_assoc.
    + intros j t r'. rewrite elem_of_app, list_elem_of_singleton. intros [Hin|[= -> -> ->]]; [by eapply inv_got|].
      by exists k, m.
Qed.

(** *** Runs *)

Lemma exec_sent st op : (length (nt_sent (exec st op)) <= S (length (nt_sent st)))%nat.
Proof.
  destruct op; cbn; unfold exec_send, exec_deliver, exec_take, exec_respond, exec_reply, exec_get;
    repeat case_match; cbn; rewrite ?length_app; cbn; lia.
Qed.

Lemma exec_inv st op :
  inv st -> op_ok op -> (Z.of_nat (length (nt_sent st)) + 2 < 2 ^ 64)%Z -> inv (exec st op).
Proof.
  intros H Hop Hlen. destruct op; cbn [exec].
  - by apply inv_send.
  - by apply inv_deliver.
  - by apply inv_lose.
  - by apply inv_take.
  - by apply inv_respond.
  - by apply inv_reply.
  - by apply inv_lose_reply.
  - by apply inv_get.
Qed.

Lemma net_run_inv ops : forall st,
  inv st -> Forall op_ok ops -> (Z.of_nat (length (nt_sent st) + length ops) + 2 < 2 ^ 64)%Z ->
  inv (run st ops).
Proof.
  induction ops as [|op ops IH]; intros st H Hops Hlen; [done|]. inversion_clear Hops.
  cbn [length] in Hlen. pose proof (exec_sent st op). apply IH; [apply exec_inv|..]; done || lia.
Qed.

(** A system of clients just built, that send fewer than [2^64] requests. *)
Definition system (clients : list ZClient) (server : ZServer) (ops : list NetOp) : Prop :=
  Forall fresh_client clients /\ NoDup (map cl_gid clients) /\ fresh_server server /\
  Forall op_ok ops /\ (Z.of_nat (length ops) + 2 < 2 ^ 64)%Z.

Lemma system_inv clients server ops : system clients server ops -> inv (run (net_new clients server) ops).
Proof. intros (? & ? & ? & ? & ?). apply net_run_inv; [by apply net_inv_new|done|done]. Qed.

Lemma sent_tokens_keys st :
  inv st -> NoDup (map sent_token (nt_taken st)) -> NoDup (map sent_key (nt_taken st)).
Proof.
  intros H. assert (Forall (fun x => exists i m, nt_sent st !! sent_token x = Some (i, sent_key x, m)) (nt_taken st)) as HF.
  { apply Forall_forall. intros [[t k] m] Hin. destruct (inv_taken _ H t k m Hin) as [i Hi]. by exists i, m. }
  induction HF as [|x l (i & m & Hi) HF IH]; cbn; [constructor|].
  intros [Hx Hl]%NoDup_cons. apply NoDup_cons. split; [|by apply IH].
  intros (y & Hk & Hy)%list_elem_of_fmap. rewrite Forall_forall in HF. destruct (HF y Hy) as (j & m' & Hj).
  rewrite <- Hk in Hj. apply Hx, list_elem_of_fmap. exists y. split; [by eapply key_unique|done].
Qed.

(** *** One exchange *)

(** Each step of an undisturbed exchange, from any state of the invariant. *)
Lemma send_step st i c now m bs :
  nt_clients st !! i = Some c -> msg_serialize m = Some bs ->
  exists q c', exec_send st i now m =
    mkNet (<[i := c']> (nt_clients st)) (nt_server st) (nt_flight st ++ [q]) (nt_replies st)
      (nt_sent st ++ [(i, client_key c, m)]) (nt_taken st) (nt_answered st) (nt_got st) /\
    sq_token q = length (nt_sent st) /\ cl_rx c' = cl_rx c.
Proof. intros Hi Hb. unfold exec_send, send_request. rewrite Hi, Hb. cbn. eauto. Qed.

Lemma deliver_step st q :
  inv st -> nt_flight st = [q] -> queued (nt_server st) = [] ->
  exists s, exec_deliver st 0 =
    mkNet (nt_clients st) s [] (nt_replies st) (nt_sent st) (nt_taken st) (nt_answered st) (nt_got st) /\
    queued s = [q] /\ srv_map s = srv_map (nt_server st).
Proof.
  intros H Hf Hq. unfold exec_deliver. rewrite Hf. eexists. split; [reflexivity|].
  destruct (inv_mode _ H) as [qq Hqq]. unfold queued in *. rewrite Hqq in Hq. cbn in Hq.
  unfold on_query, srv_queue in *. destruct (srv_handler (nt_server st)) as [q0| |q0]; try done;
    injection Hqq as ->; cbn; (split; [|done]); rewrite queue_push_eq, Hq; by case_match.
Qed.

Lemma take_step st a q i k m :
  inv st -> queued (nt_server st) = [q] -> nt_sent st !! sq_token q = Some (i, k, m) ->
  exists s, exec_take st a =
    mkNet (nt_clients st) s (nt_flight st) (nt_replies st) (nt_sent st)
      (nt_taken st ++ [(sq_token q, k, m)]) (nt_answered st) (nt_got st) /\
    queued s = [] /\ srv_map s !! k = Some q.
Proof.
  intros H Hq Hi. pose proof (take_accepts st a H) as Ht. cbn zeta in Ht. unfold exec_take.
  destruct ((if a then take_request_async else take_request) (nt_server st)) as [o s]. cbn [fst snd] in Ht.
  rewrite Hq in *. destruct Ht as (i' & k' & m' & Hi' & -> & _ & Hqs & Hm). rewrite Hi in Hi'. simplify_eq.
  exists s. split; [done|]. split; [done|]. rewrite Hm. by rewrite lookup_insert_eq.
Qed.

Lemma respond_step st a key now r bs q :
  srv_map (nt_server st) !! key = Some q -> msg_serialize r = Some bs ->
  exists s smp, exec_respond st a key now r =
    mkNet (nt_clients st) s (nt_flight st) (nt_replies st ++ [smp]) (nt_sent st) (nt_taken st)
      (nt_answered st ++ [(sq_token q, key, r)]) (nt_got st) /\ smp_token smp = sq_token q.
Proof.
  intros Hq Hb. unfold exec_respond.
  destruct a; unfold send_response, send_response_async; rewrite Hq; unfold reply_to; rewrite Hb; cbn; eauto.
Qed.

Lemma reply_step st smp i k m c :
  inv st -> nt_replies st = [smp] -> nt_sent st !! smp_token smp = Some (i, k, m) ->
  nt_clients st !! i = Some c -> ch_items (cl_rx c) = [] ->
  exists c', exec_reply st 0 =
    mkNet (<[i := c']> (nt_clients st)) (nt_server st) (nt_flight st) [] (nt_sent st) (nt_taken st)
      (nt_answered st) (nt_got st) /\ ch_items (cl_rx c') = [smp].
Proof.
  intros H Hr Ht Hi Hrx. unfold exec_reply. rewrite Hr. cbn [lookup list_lookup]. rewrite Ht, Hi.
  exists (on_reply c (Some smp)). split; [done|]. destruct (inv_clients _ H _ _ Hi) as (_ & _ & Hcap & _).
  destruct (on_reply_spec c smp Hcap) as (_ & _ & _ & _ & Hit). rewrite Hrx in Hit. by apply Hit.
Qed.

(** ** Properties *)

(** C3 Whatever is delivered, lost or reordered, a client takes only responses to
    requests it sent: the response of [OGet] at client [i] to its request [t] is
    one the server's program gave with exactly the key that [i] sent [t] under,
    after it took that request with that key and that message; no request is
    answered twice and no answer is taken twice.  For clients with distinct gids
    just built and a server just built with a queue, fewer than [2^64] steps. *)
Theorem responses_answer_requests clients server ops :
  system clients server ops ->
  let st := run (net_new clients server) ops in
  (forall i t r, (i, t, r) ∈ nt_got st ->
     exists key m, nt_sent st !! t = Some (i, key, m) /\ (t, key, m) ∈ nt_taken st /\
                   (t, key, r) ∈ nt_answered st) /\
  NoDup (map got_token (nt_got st)) /\ NoDup (map ans_token (nt_answered st)).
Proof.
  intros Hsys st. pose proof (system_inv _ _ _ Hsys) as H. fold st in H. clearbody st. split; [|split].
  - intros i t r Hin. destruct (inv_got _ H i t r Hin) as (k & m & Ha & Ht).
    assert (t ∈ map sent_token (nt_taken st)) as Htk
      by (apply (inv_answered _ H), list_elem_of_fmap; by exists (t, k, r)).
    apply list_elem_of_fmap in Htk as ([[t' k'] m'] & -> & Htk). cbn in *.
    destruct (inv_taken _ H _ _ _ Htk) as [i' Ht']. rewrite Ht in Ht'. simplify_eq. by exists k', m'.
  - pose proof (inv_reply_tokens _ H) as Hn. by do 2 apply NoDup_app in Hn as (_ & _ & Hn).
  - apply (inv_answered_once _ H).
Qed.

(** The server takes each request at most once, with the key and the message
    its client sent it with, and a request it gets to is never refused: taking,
    waiting or async, blocks on an empty queue or returns the oldest queued
    request; it neither panics nor reports an existing query or an error. *)
Theorem requests_taken_once clients server ops (async : bool) :
  system clients server ops ->
  let st := run (net_new clients server) ops in
  (forall t key m, (t, key, m) ∈ nt_taken st -> exists i, nt_sent st !! t = Some (i, key, m)) /\
  NoDup (map sent_key (nt_taken st)) /\
  ((if async then take_request_async else take_request) (nt_server st)).1 =
    match queued (nt_server st) with
    | [] => Blocked
    | q :: _ => match nt_sent st !! sq_token q with
                | Some (_, key, m) => Done (Ok (key, m))
                | None => Done Panic
                end
    end /\
  Forall (fun q => is_Some (nt_sent st !! sq_token q)) (queued (nt_server st)).
Proof.
  intros Hsys st. pose proof (system_inv _ _ _ Hsys) as H. fold st in H. clearbody st.
  split; [apply (inv_taken _ H)|]. split; [|split].
  - apply sent_tokens_keys; [done|]. pose proof (inv_tokens _ H) as Hn. by do 2 apply NoDup_app in Hn as (_ & _ & Hn).
  - pose proof (take_accepts st async H) as Ht. cbn zeta in Ht. destruct (queued (nt_server st)) as [|q d].
    + by destruct Ht as [-> _].
    + destruct Ht as (i & k & m & -> & -> & _). done.
  - apply (Forall_impl _ _ _ (inv_queue _ H)). intros q (i & k & m & now & bs & Ht & _). by rewrite Ht.
Qed.

(** A call comes back: when nothing else is on its way, sending a request,
    delivering it, taking and answering it and delivering the reply makes the
    client's next response the answer, and the server got the request as it was
    sent. *)
Theorem call_completes st i c now a m bs b now' r bs' :
  inv st -> (Z.of_nat (length (nt_sent st)) + 2 < 2 ^ 64)%Z ->
  nt_flight st = [] -> queued (nt_server st) = [] -> nt_replies st = [] ->
  nt_clients st !! i = Some c -> ch_items (cl_rx c) = [] ->
  msg_ok m -> msg_serialize m = Some bs -> msg_ok r -> msg_serialize r = Some bs' ->
  let t := length (nt_sent st) in
  let st' := run st [OSend i now m; ODeliver 0; OTake a; ORespond b (client_key c) now' r; OReply 0; OGet i] in
  nt_taken st' = nt_taken st ++ [(t, client_key c, m)] /\ nt_got st' = nt_got st ++ [(i, t, r)].
Proof.
  intros H Hlen Hf Hq Hr Hi Hrx Hm Hb Hrok Hb' t st'. subst st'. unfold run. cbn [foldl exec].
  pose proof (inv_send st i now m H Hm Hlen) as H1.
  destruct (send_step st i c now m bs Hi Hb) as (q & c1 & E1 & Hqt & Hrx1). rewrite E1 in H1 |- *. clear E1.
  rewrite Hf, Hr in *. cbn [app] in *.
  match type of H1 with inv ?s => set (st1 := s) in * end.
  pose proof (inv_deliver st1 0 H1) as H2. destruct (deliver_step st1 q H1 eq_refl Hq) as (s2 & E2 & Hq2 & Hm2).
  rewrite E2 in H2 |- *. clear E2. match type of H2 with inv ?s => set (st2 := s) in * end.
  assert (nt_sent st2 !! sq_token q = Some (i, client_key c, m)) as Ht2 by (rewrite Hqt; by apply list_lookup_middle).
  pose proof (inv_take st2 a H2) as H3.
  destruct (take_step st2 a q i _ m H2 Hq2 Ht2) as (s3 & E3 & _ & Hm3). rewrite E3 in H3 |- *. clear E3.
  match type of H3 with inv ?s => set (st3 := s) in * end.
  pose proof (inv_respond st3 b (client_key c) now' r H3 Hrok) as H4.
  destruct (respond_step st3 b (client_key c) now' r bs' q Hm3 Hb') as (s4 & smp & E4 & Hsmp).
  rewrite E4 in H4 |- *. clear E4. match type of H4 with inv ?s => set (st4 := s) in * end.
  pose proof (inv_reply st4 0 H4) as H5.
  assert (nt_clients st4 !! i = Some c1) as Hi4 by (apply list_lookup_insert_eq; by eapply lookup_lt_Some).
  destruct (reply_step st4 smp i (client_key c) m c1 H4 eq_refl) as (c5 & E5 & Hit5);
    [by rewrite Hsmp|done|by rewrite Hrx1|].
  rewrite E5 in H5 |- *. clear E5. match type of H5 with inv ?s => set (st5 := s) in * end.
  assert (nt_clients st5 !! i = Some c5) as Hi5 by (apply list_lookup_insert_eq; by eapply lookup_lt_Some).
  unfold exec_get. rewrite Hi5. pose proof (take_response_spec st5 i c5 H5 Hi5) as Hg. rewrite Hit5 in Hg.
  destruct Hg as (c6 & rx & k & m' & r' & -> & -> & _ & _ & _ & _ & Ha). cbn.
  rewrite Hsmp, Hqt in *. split; [done|]. do 3 f_equal.
  pose proof (inv_answered_once _ H5) as Hn. cbn in Ha, Hn. apply elem_of_app in Ha as [Ha|Ha].
  - rewrite map_app, NoDup_app in Hn. destruct Hn as (_ & Hn & _). exfalso.
    apply (Hn (length (nt_sent st))); [apply list_elem_of_fmap; by exists (length (nt_sent st), k, r')|].
    cbn. by rewrite Hqt; left.
  - apply list_elem_of_singleton in Ha. congruence.
Qed.
End Net.

(** ** A concrete system: two clients whose calls cross *)

#[local] Existing Instance ex_service.
#[local] Existing Instance ex_service_laws.

Definition ex_client (b : byte) : ZClient :=
  mkClient 1 (replicate 16 b) "0/add/t/h" (bounded 10) "/add".
Definition ex_server : ZServer :=
  mkServer "0/add/t/h" 1 (replicate 16 x0a) (HQueue (queue_new 10)) ∅.
Definition ex_key (b : byte) : QueryKey := mkQueryKey 1 (replicate 16 b).
(** Both send; the second's request arrives first and the first's answer does. *)
Definition ex_crossing : list (NetOp (Svc := ex_service)) :=
  [OSend 0 None x05; OSend 1 (Some 7%Z) x06; ODeliver 1; ODeliver 0; OTake false; OTake true;
   ORespond false (ex_key x01) None x15; ORespond true (ex_key x02) None x16; OReply 0; OReply 0; OGet 1; OGet 0].

Lemma ex_system : system [ex_client x01; ex_client x02] ex_server ex_crossing.
Proof.
  split; [|split; [|split; [|split]]].
  - repeat constructor; try (vm_compute; reflexivity).
  - apply (bool_decide_unpack _). vm_compute. exact I.
  - split; [by eexists|done].
  - repeat constructor.
  - vm_compute. reflexivity.
Qed.

Lemma responses_answer_requests_witness :
  let st := run (net_new [ex_client x01; ex_client x02] ex_server) ex_crossing in
  nt_got st = [(1%nat, 1%nat, x16); (0%nat, 0%nat, x15)] /\
  (forall i t r, (i, t, r) ∈ nt_got st ->
     exists key m, nt_sent st !! t = Some (i, key, m) /\ (t, key, m) ∈ nt_taken st /\ (t, key, r) ∈ nt_answered st) /\
  NoDup (map got_token (nt_got st)) /\ NoDup (map ans_token (nt_answered st)).
Proof.
  split; [vm_compute; reflexivity|]. apply (responses_answer_requests _ _ _ ex_system).
Defined.

Lemma requests_taken_once_witness :
  let st := run (net_new [ex_client x01; ex_client x02] ex_server) ex_crossing in
  nt_taken st = [(1%nat, ex_key x02, x06); (0%nat, ex_key x01, x05)] /\ NoDup (map sent_key (nt_taken st)).
Proof.
  split; [vm_compute; reflexivity|]. apply (requests_taken_once _ _ _ false ex_system).
Defined.

Definition ex_call : list (NetOp (Svc := ex_service)) :=
  [OSend 0 None x05; ODeliver 0; OTake false; ORespond false (ex_key x01) None x15; OReply 0; OGet 0].
Lemma call_completes_witness :
  let st' := run (net_new [ex_client x01] ex_server) ex_call in
  nt_taken st' = [(0%nat, ex_key x01, x05)] /\ nt_got st' = [(0%nat, 0%nat, x15)].
Proof.
  apply (call_completes (Svc := ex_service) (net_new [ex_client x01] ex_server) 0 (ex_client x01) None false x05 [x05]
    false None x15 [x15]);
    try reflexivity; try exact I.
  apply net_inv_new; [|apply NoDup_singleton|split; [by eexists|done]].
  constructor; [|constructor]. repeat split; vm_compute; reflexivity.
Defined.
