(* ===== verification/DescriptionWire.v ===== *)
(** * Serde messages, and the messages of the type description service
    (crates/ros-z/src/msg.rs, dynamic/type_description_service.rs)

    The blanket [ZMessage] implementation of the serde types: a type is given by
    its shape and the two conversions that the derived [Serialize] and
    [Deserialize] implementations are ([Serde]).  Then the wire types of
    type_description_interfaces and the request and response of
    [GetTypeDescription]. *)
From S2P Require Import Prelude CdrBuffer Utf8 RustStr CdrPrimitives CdrSpec CdrSerializer CdrDeserializer CdrSerde CdrCodec MsgSerdes Entity Service.
Open Scope string_scope.

#[local] Existing Instance LittleEndian.

(** ** Definitions *)

(** A derived [Serialize] and [Deserialize].  [of_sval] is used on values of the
    shape only, which is what decoding returns ([from_bytes_typed]). *)
Class Serde (T : Type) := {
  serde_sty : sty;
  to_sval : T -> sval;
  of_sval : sval -> T;
}.
Class SerdeLaws (T : Type) `{Serde T} := of_to_sval : forall x, of_sval (to_sval x) = x.

Definition struct_field (v : sval) (i : nat) : sval :=
  match v with VStruct vs => nth i vs VUnit | _ => VUnit end.
Definition as_u8 (v : sval) : Z := match v with VU8 z => z | _ => 0 end.
Definition as_u64 (v : sval) : Z := match v with VU64 z => z | _ => 0 end.

#[export] Instance string_Serde : Serde string := {|
  serde_sty := TStr;
  to_sval := VStr;
  of_sval v := match v with VStr s => s | _ => "" end;
|}.
#[export] Instance bool_Serde : Serde bool := {|
  serde_sty := TBool;
  to_sval := VBool;
  of_sval v := match v with VBool b => b | _ => false end;
|}.
#[export] Instance list_Serde {T} `{Serde T} : Serde (list T) := {|
  serde_sty := TSeq serde_sty;
  to_sval l := VSeq (Some (length l)) (map to_sval l);
  of_sval v := match v with VSeq _ vs => map of_sval vs | _ => [] end;
|}.

Section Blanket.
Context (ZBuf : Type) `{ZApi : ZBufApi ZBuf}.
Context (unknown_variant : Z -> CdrError) (missing_element : nat -> CdrError).

(** [impl<T> ZMessage for T]: [Serdes = CdrSerdes<T>]. *)
Definition CdrSerdes_message (T : Type) `{Serde T} : ZMessage T := {|
  msg_serialize m :=
    match serdes_serialize (ZBuf := ZBuf) (E := CdrError) (to_sval m) with Ok bs => Some bs | _ => None end;
  msg_deserialize bs :=
    v ← serdes_deserialize unknown_variant missing_element serde_sty bs; Ok (of_sval v);
|}.
End Blanket.

(** *** The wire types *)

Record WireFieldType := mkWireFieldType {
  wft_type_id : Z; wft_capacity : Z; wft_string_capacity : Z; wft_nested_type_name : string }.
Record WireField := mkWireField {
  wf_name : string; wf_field_type : WireFieldType; wf_default_value : string }.
Record WireIndividualTypeDescription := mkWireIndividual {
  witd_type_name : string; witd_fields : list WireField }.
Record WireTypeDescription := mkWireTypeDescription {
  wtd_type_description : WireIndividualTypeDescription;
  wtd_referenced : list WireIndividualTypeDescription }.
Record WireTypeSource := mkWireTypeSource {
  wts_type_name : string; wts_encoding : string; wts_raw_file_contents : string }.
Record WireKeyValue := mkWireKeyValue { wkv_key : string; wkv_value : string }.
Record GetTypeDescriptionRequest := mkRequest {
  req_type_name : string; req_type_hash : string; include_type_sources : bool }.
Record GetTypeDescriptionResponse := mkResponse {
  successful : bool;
  failure_reason : string;
  rsp_type_description : WireTypeDescription;
  type_sources : list WireTypeSource;
  extra_information : list WireKeyValue }.

(** [Default]. *)
Definition WireIndividualTypeDescription_default : WireIndividualTypeDescription := mkWireIndividual "" [].
Definition WireTypeDescription_default : WireTypeDescription :=
  mkWireTypeDescription WireIndividualTypeDescription_default [].

#[export] Instance WireFieldType_Serde : Serde WireFieldType := {|
  serde_sty := TStruct [TU8; TU64; TU64; TStr];
  to_sval w := VStruct [VU8 (wft_type_id w); VU64 (wft_capacity w); VU64 (wft_string_capacity w);
                        VStr (wft_nested_type_name w)];
  of_sval v := mkWireFieldType (as_u8 (struct_field v 0)) (as_u64 (struct_field v 1))
                 (as_u64 (struct_field v 2)) (of_sval (struct_field v 3));
|}.
#[export] Instance WireField_Serde : Serde WireField := {|
  serde_sty := TStruct [TStr; serde_sty (T := WireFieldType); TStr];
  to_sval w := VStruct [VStr (wf_name w); to_sval (wf_field_type w); VStr (wf_default_value w)];
  of_sval v := mkWireField (of_sval (struct_field v 0)) (of_sval (struct_field v 1)) (of_sval (struct_field v 2));
|}.
#[export] Instance WireIndividual_Serde : Serde WireIndividualTypeDescription := {|
  serde_sty := TStruct [TStr; serde_sty (T := list WireField)];
  to_sval w := VStruct [VStr (witd_type_name w); to_sval (witd_fields w)];
  of_sval v := mkWireIndividual (of_sval (struct_field v 0)) (of_sval (struct_field v 1));
|}.
#[export] Instance WireTypeDescription_Serde : Serde WireTypeDescription := {|
  serde_sty := TStruct [serde_sty (T := WireIndividualTypeDescription);
                        serde_sty (T := list WireIndividualTypeDescription)];
  to_sval w := VStruct [to_sval (wtd_type_description w); to_sval (wtd_referenced w)];
  of_sval v := mkWireTypeDescription (of_sval (struct_field v 0)) (of_sval (struct_field v 1));
|}.
#[export] Instance WireTypeSource_Serde : Serde WireTypeSource := {|
  serde_sty := TStruct [TStr; TStr; TStr];
  to_sval w := VStruct [VStr (wts_type_name w); VStr (wts_encoding w); VStr (wts_raw_file_contents w)];
  of_sval v := mkWireTypeSource (of_sval (struct_field v 0)) (of_sval (struct_field v 1)) (of_sval (struct_field v 2));
|}.
#[export] Instance WireKeyValue_Serde : Serde WireKeyValue := {|
  serde_sty := TStruct [TStr; TStr];
  to_sval w := VStruct [VStr (wkv_key w); VStr (wkv_value w)];
  of_sval v := mkWireKeyValue (of_sval (struct_field v 0)) (of_sval (struct_field v 1));
|}.
#[export] Instance Request_Serde : Serde GetTypeDescriptionRequest := {|
  serde_sty := TStruct [TStr; TStr; TBool];
  to_sval r := VStruct [VStr (req_type_name r); VStr (req_type_hash r); VBool (include_type_sources r)];
  of_sval v := mkRequest (of_sval (struct_field v 0)) (of_sval (struct_field v 1)) (of_sval (struct_field v 2));
|}.
#[export] Instance Response_Serde : Serde GetTypeDescriptionResponse := {|
  serde_sty := TStruct [TBool; TStr; serde_sty (T := WireTypeDescription);
                        serde_sty (T := list WireTypeSource); serde_sty (T := list WireKeyValue)];
  to_sval r := VStruct [VBool (successful r); VStr (failure_reason r); to_sval (rsp_type_description r);
                        to_sval (type_sources r); to_sval (extra_information r)];
  of_sval v := mkResponse (of_sval (struct_field v 0)) (of_sval (struct_field v 1)) (of_sval (struct_field v 2))
                 (of_sval (struct_field v 3)) (of_sval (struct_field v 4));
|}.

(** ** Lemmas *)

(** *** Reading back what was written *)

#[export] Instance string_SerdeLaws : SerdeLaws string.
Proof. done. Qed.
#[export] Instance bool_SerdeLaws : SerdeLaws bool.
Proof. done. Qed.
#[export] Instance list_SerdeLaws {T} `{SerdeLaws T} : SerdeLaws (list T).
Proof.
  intros l. cbn. induction l as [|x l IH]; [done|]. cbn. rewrite of_to_sval. f_equal. apply IH.
Qed.
#[export] Instance WireFieldType_SerdeLaws : SerdeLaws WireFieldType.
Proof. intros []. done. Qed.
#[export] Instance WireField_SerdeLaws : SerdeLaws WireField.
Proof. intros []. unfold of_sval, to_sval, WireField_Serde. cbn [struct_field nth]. by rewrite of_to_sval. Qed.
#[export] Instance WireIndividual_SerdeLaws : SerdeLaws WireIndividualTypeDescription.
Proof. intros []. unfold of_sval at 1, to_sval at 1, WireIndividual_Serde. cbn [struct_field nth]. by rewrite of_to_sval. Qed.
#[export] Instance WireTypeDescription_SerdeLaws : SerdeLaws WireTypeDescription.
Proof. intros []. unfold of_sval at 1, to_sval at 1, WireTypeDescription_Serde. cbn [struct_field nth]. by rewrite !of_to_sval. Qed.
#[export] Instance WireTypeSource_SerdeLaws : SerdeLaws WireTypeSource.
Proof. by intros []. Qed.
#[export] Instance WireKeyValue_SerdeLaws : SerdeLaws WireKeyValue.
Proof. by intros []. Qed.
#[export] Instance Request_SerdeLaws : SerdeLaws GetTypeDescriptionRequest.
Proof. by intros []. Qed.
#[export] Instance Response_SerdeLaws : SerdeLaws GetTypeDescriptionResponse.
Proof. intros []. unfold of_sval at 1, to_sval at 1, Response_Serde. cbn [struct_field nth]. by rewrite !of_to_sval. Qed.

(** *** The blanket implementation *)

Section BlanketLaws.
Context {ZBuf : Type} `{ZL : ZBufLaws ZBuf}.
Context (unknown_variant : Z -> CdrError) (missing_element : nat -> CdrError).
Context {T : Type} `{SL : SerdeLaws T}.
#[local] Existing Instance CdrSerdes_message.

Lemma CdrSerdes_serialize (m : T) :
  has_sty serde_sty (to_sval m) ->
  msg_serialize (ZMessage := CdrSerdes_message ZBuf unknown_variant missing_element T) m =
    Some (CDR_HEADER_LE ++ enc_sval (to_sval m) 0%nat)%list.
Proof.
  intros Hm. cbn. unfold serdes_serialize. by rewrite (serialize_to_buf_enc serde_sty).
Qed.

Definition CdrSerdes_laws : ZMessageLaws T (H := CdrSerdes_message ZBuf unknown_variant missing_element T).
Proof.
  refine {| msg_ok := fun m : T => has_sty serde_sty (to_sval m) |}.
  - intros m Hm. rewrite CdrSerdes_serialize by done. by eexists.
  - intros m bs Hm. rewrite CdrSerdes_serialize by done. intros Hb.
    assert (bs = CDR_HEADER_LE ++ enc_sval (to_sval m) 0%nat)%list as -> by congruence. cbn [msg_deserialize CdrSerdes_message].
    rewrite <- (app_nil_r (enc_sval (to_sval m) 0%nat)), serdes_deserialize_enc by done.
    cbn. by rewrite of_to_sval.
  - intros bs. cbn. apply no_panic_bind; [apply serdes_deserialize_safe|]. intros v _. apply no_panic_Ok.
Defined.
End BlanketLaws.
