(* ===== verification/Graph.v ===== *)
(** * The graph cache (crates/ros-z/src/graph.rs, entity.rs)

    Liveliness tokens are cached, parsed lazily into shared entities
    ([Arc<Entity>]) and indexed by topic, service and node through weak pointers.
    An [Arc] is an address of [heap]; it is alive while [parsed] or a caller
    ([held]) has it, and a weak pointer is its address. *)
From stdpp Require Import gmap strings.
From S2P Require Import Prelude Utf8 RustStr RustColl Qos Entity Events RmwZenoh Ros2Dds.
Open Scope string_scope.

(** ** Definitions *)

(** *** The [slab] package and the order of hash tables *)

Class SlabApi := {
  Slab : Type;
  slab_with_capacity : nat -> Slab;
  slab_len : Slab -> nat;
  slab_capacity : Slab -> nat;
  slab_iter : Slab -> list nat;
  slab_insert : nat -> Slab -> Slab;
  slab_retain : (nat -> bool) -> Slab -> Slab;
}.
Class SlabLaws `{SlabApi} := {
  slab_iter_new : forall n, slab_iter (slab_with_capacity n) = [];
  slab_iter_insert : forall a s, slab_iter (slab_insert a s) ≡ₚ a :: slab_iter s;
  slab_iter_retain : forall f s, slab_iter (slab_retain f s) = List.filter f (slab_iter s);
}.
(** The orders in which [HashSet::drain] and [HashMap::iter] go: any. *)
Class HashOrder := {
  set_order : gset string -> list string;
  map_order : forall V, gmap string V -> list (string * V);
  node_order : forall V, gmap (string * string) V -> list (string * string * V);
}.
Class HashOrderLaws `{HashOrder} := {
  set_order_perm : forall s, set_order s ≡ₚ elements s;
  map_order_perm : forall V (m : gmap string V), map_order V m ≡ₚ map_to_list m;
  node_order_perm : forall V (m : gmap (string * string) V), node_order V m ≡ₚ map_to_list m;
}.

(** *** entity.rs *)

Section EntityExt.
Context `{ZA : ZenohApi}.
Definition NodeKey : Type := string * string.
Definition node_key (entity : NodeEntity) : NodeKey :=
  (if String.eqb (node_namespace entity) "/" then "" else node_namespace entity, node_name entity).
Definition node_to_liveliness_ke (n : NodeEntity) : res ZError string :=
  format_node_liveliness_key_expr KeyExprFormat_default n.
Definition endpoint_to_liveliness_ke (e : EndpointEntity) : res ZError string :=
  format_liveliness_key_expr KeyExprFormat_default e (z_id (ep_node e)).
Definition entity_to_liveliness_ke (entity : Entity) : res ZError string :=
  match entity with
  | ENode n => node_to_liveliness_ke n
  | EEndpoint e => endpoint_to_liveliness_ke e
  end.
Definition entity_kind (entity : Entity) : EntityKind :=
  match entity with ENode _ => KNode | EEndpoint e => ep_kind e end.
Definition entity_get_endpoint (entity : Entity) : option EndpointEntity :=
  match entity with ENode _ => None | EEndpoint e => Some e end.
Definition node_lv_token_key_expr (n : NodeEntity) : res ZError string := node_to_liveliness_ke n.

(** [endpoint_gid]: the bytes of a [ZenohId] and SHA-256 are not of this code. *)
Class GidApi := { zid_to_le_bytes : ZenohId -> list Z; sha256_digest : list Z -> list Z }.
Definition le_bytes (n : nat) (v : Z) : list Z := map (fun i => Z.shiftr v (8 * Z.of_nat i) mod 256)%Z (seq 0 n).
Definition endpoint_gid `{GidApi} (entity : EndpointEntity) : list Z :=
  take 16 (sha256_digest (zid_to_le_bytes (z_id (ep_node entity)) ++ le_bytes 8 (ep_id entity))).

Definition is_topic_kind (k : EntityKind) : bool :=
  match k with KPublisher | KSubscription => true | _ => false end.
Definition is_service_kind (k : EntityKind) : bool :=
  match k with KService | KClient => true | _ => false end.
End EntityExt.

Definition DEFAULT_SLAB_CAPACITY : nat := 128.

Section Graph.
Context `{ZA : ZenohApi} {SL : SlabApi} {HO : HashOrder}.
(** [EntityParser]; its error is only logged. *)
Variable parser : string -> option Entity.

(** *** [GraphData] *)

Record GraphData := mkData {
  cached : gset string;
  parsed : gmap string nat;
  by_topic : gmap string Slab;
  by_service : gmap string Slab;
  by_node : gmap NodeKey Slab;
  heap : list Entity;
  held : list nat;
}.
Definition data_new : GraphData := mkData ∅ ∅ ∅ ∅ ∅ [] [].
Definition set_cached (d : GraphData) (c : gset string) : GraphData :=
  mkData c (parsed d) (by_topic d) (by_service d) (by_node d) (heap d) (held d).
Definition set_parsed (d : GraphData) (p : gmap string nat) : GraphData :=
  mkData (cached d) p (by_topic d) (by_service d) (by_node d) (heap d) (held d).
Definition set_by_topic (d : GraphData) (m : gmap string Slab) : GraphData :=
  mkData (cached d) (parsed d) m (by_service d) (by_node d) (heap d) (held d).
Definition set_by_service (d : GraphData) (m : gmap string Slab) : GraphData :=
  mkData (cached d) (parsed d) (by_topic d) m (by_node d) (heap d) (held d).
Definition set_by_node (d : GraphData) (m : gmap NodeKey Slab) : GraphData :=
  mkData (cached d) (parsed d) (by_topic d) (by_service d) m (heap d) (held d).
Definition set_held (d : GraphData) (h : list nat) : GraphData :=
  mkData (cached d) (parsed d) (by_topic d) (by_service d) (by_node d) (heap d) h.

(** [Arc::new], [Weak::upgrade] and the end of a caller's [Arc]. *)
Definition arc_new (d : GraphData) (e : Entity) : GraphData :=
  mkData (cached d) (parsed d) (by_topic d) (by_service d) (by_node d) (heap d ++ [e])%list (held d).
Definition alive (d : GraphData) (a : nat) : bool :=
  bool_decide (a ∈ map snd (map_to_list (parsed d))) || bool_decide (a ∈ held d).
Fixpoint remove_one (a : nat) (l : list nat) : list nat :=
  match l with
  | [] => []
  | x :: l => if Nat.eqb x a then l else x :: remove_one a l
  end.
Definition arc_drop (d : GraphData) (a : nat) : GraphData := set_held d (remove_one a (held d)).

Definition data_insert (d : GraphData) (ke : string) : GraphData :=
  if decide (is_Some (parsed d !! ke)) then d else set_cached d ({[ke]} ∪ cached d).
Definition data_remove (d : GraphData) (ke : string) : GraphData :=
  set_parsed (set_cached d (cached d ∖ {[ke]})) (delete ke (parsed d)).

(** A weak pointer goes into a slab; dead ones are removed when it is full. *)
Definition slab_add (live : nat -> bool) (a : nat) (o : option Slab) : Slab :=
  let slab := default (slab_with_capacity DEFAULT_SLAB_CAPACITY) o in
  let slab := if (slab_capacity slab <=? slab_len slab)%nat then slab_retain live slab else slab in
  slab_insert a slab.
Definition add_to {K} `{Countable K} (live : nat -> bool) (k : K) (a : nat) (m : gmap K Slab) : gmap K Slab :=
  <[k := slab_add live a (m !! k)]> m.
(** The indexes of an entity. *)
Definition add_index (d : GraphData) (entity : Entity) (a : nat) : GraphData :=
  match entity with
  | ENode node => set_by_node d (add_to (alive d) (node_key node) a (by_node d))
  | EEndpoint x =>
      let d := if is_topic_kind (ep_kind x)
               then set_by_topic d (add_to (alive d) (ep_topic x) a (by_topic d)) else d in
      let d := if is_service_kind (ep_kind x)
               then set_by_service d (add_to (alive d) (ep_topic x) a (by_service d)) else d in
      set_by_node d (add_to (alive d) (node_key (ep_node x)) a (by_node d))
  end.
(** [parse]: one drained key, and all of them. *)
Definition parse_one (d : GraphData) (ke : string) : GraphData :=
  if decide (is_Some (parsed d !! ke)) then d
  else match parser ke with
       | None => d
       | Some entity =>
           let arc := length (heap d) in
           let d := add_index (arc_new d entity) entity arc in
           set_parsed d (<[ke := arc]> (parsed d))
       end.
Definition parse (d : GraphData) : GraphData :=
  foldl parse_one (set_cached d ∅) (set_order (cached d)).
Definition ensure_parsed (d : GraphData) : GraphData :=
  if decide (cached d = ∅) then d else parse d.

(** [visit_by_*]: the entities visited, in order. *)
Definition live_in (d : GraphData) (s : Slab) : list nat := List.filter (alive d) (slab_iter s).
Definition visit_slab {K} `{Countable K} (d : GraphData) (k : K) (m : gmap K Slab) : gmap K Slab * list nat :=
  match m !! k with
  | Some s => (<[k := slab_retain (alive d) s]> m, live_in d s)
  | None => (m, [])
  end.
Definition visit_by_node (d : GraphData) (k : NodeKey) : GraphData * list nat :=
  let d := ensure_parsed d in
  let '(m, l) := visit_slab d k (by_node d) in (set_by_node d m, l).
Definition visit_by_topic (d : GraphData) (topic : string) : GraphData * list nat :=
  let d := ensure_parsed d in
  let '(m, l) := visit_slab d topic (by_topic d) in (set_by_topic d m, l).
Definition visit_by_service (d : GraphData) (service_name : string) : GraphData * list nat :=
  let d := ensure_parsed d in
  let '(m, l) := visit_slab d service_name (by_service d) in (set_by_service d m, l).
Definition of_kind (d : GraphData) (kind : EntityKind) (l : list nat) : list nat :=
  List.filter (fun a => bool_decide (entity_kind <$> (heap d !! a) = Some kind)) l.
Definition endpoints (d : GraphData) (l : list nat) : list EndpointEntity :=
  omap (fun a => e ← heap d !! a; entity_get_endpoint e) l.

(** *** Queries *)

Definition count {E} (d : GraphData) (kind : EntityKind) (name : string) : res E (GraphData * nat) :=
  match kind with
  | KNode => Panic
  | KPublisher | KSubscription =>
      let '(d, l) := visit_by_topic d name in Ok (d, length (of_kind d kind l))
  | KService | KClient =>
      let '(d, l) := visit_by_service d name in Ok (d, length (of_kind d kind l))
  end.
Definition hold (d : GraphData) (l : list nat) : GraphData := set_held d (held d ++ l)%list.
Definition get_entities_by_topic {E} (d : GraphData) (kind : EntityKind) (topic : string)
    : res E (GraphData * list nat) :=
  match kind with
  | KNode => Panic
  | _ => let '(d, l) := visit_by_topic d topic in
         let l := of_kind d kind l in Ok (hold d l, l)
  end.
Definition get_entities_by_node {E} (d : GraphData) (kind : EntityKind) (node : NodeKey)
    : res E (GraphData * list EndpointEntity) :=
  match kind with
  | KNode => Panic
  | _ => let '(d, l) := visit_by_node d node in Ok (d, endpoints d (of_kind d kind l))
  end.
Definition count_by_service {E} (d : GraphData) (kind : EntityKind) (service_name : string)
    : res E (GraphData * nat) :=
  if is_service_kind kind then
    let '(d, l) := visit_by_service d service_name in Ok (d, length (of_kind d kind l))
  else Panic.
Definition get_entities_by_service {E} (d : GraphData) (kind : EntityKind) (service_name : string)
    : res E (GraphData * list nat) :=
  if is_service_kind kind then
    let '(d, l) := visit_by_service d service_name in
    let l := of_kind d kind l in Ok (hold d l, l)
  else Panic.

(** The first type among the live entities of a slab. *)
Definition first_type (wanted : EndpointEntity -> bool) (es : list Entity) : option string :=
  foldl (fun found_type ent =>
    match found_type, entity_get_endpoint ent with
    | None, Some enp => if wanted enp then ti_name <$> ep_type_info enp else None
    | _, _ => found_type
    end) None es.
Definition live_entities (d : GraphData) (s : Slab) : list Entity := omap (fun a => heap d !! a) (live_in d s).
Definition names_and_types (d : GraphData) (wanted : EndpointEntity -> bool) (m : gmap string Slab)
    : list (string * string) :=
  omap (fun '(name, s) => pair name <$> first_type wanted (live_entities d s)) (map_order Slab m).
Definition get_service_names_and_types (d : GraphData) : GraphData * list (string * string) :=
  let d := ensure_parsed d in
  let res := names_and_types d (fun enp => bool_decide (ep_kind enp = KService)) (by_service d) in
  (set_by_service d (slab_retain (alive d) <$> by_service d), res).
Definition get_topic_names_and_types (d : GraphData) : GraphData * list (string * string) :=
  let d := ensure_parsed d in
  let res := names_and_types d (fun enp => is_topic_kind (ep_kind enp)) (by_topic d) in
  (set_by_topic d (slab_retain (alive d) <$> by_topic d), res).

(** [BTreeSet<(String, String)>] as its sorted list. *)
Definition sort_pairs (l : list (string * string)) : list (string * string) := sort_by fst (sort_by snd l).
Definition get_names_and_types_by_node (d : GraphData) (k : NodeKey) (kind : EntityKind)
    : GraphData * list (string * string) :=
  let '(d, l) := visit_by_node (ensure_parsed d) k in
  let found := omap (fun enp => if decide (ep_kind enp = kind)
                                then (fun ti => (ep_topic enp, ti_name ti)) <$> ep_type_info enp
                                else None) (endpoints d l) in
  (d, sort_pairs (remove_dups found)).

Definition node_exists (d : GraphData) (k : NodeKey) : GraphData * bool :=
  let d := ensure_parsed d in (d, bool_decide (is_Some (by_node d !! k))).
Definition denormalize (s : string) : string :=
  if String.eqb s "" then "/" else if negb (starts_with_char "/" s) then "/" ++ s else s.
Definition nodes_of (d : GraphData) (s : Slab) : list NodeEntity :=
  omap (fun e => match e with ENode n => Some n | EEndpoint _ => None end) (live_entities d s).
Definition get_node_names (d : GraphData) : GraphData * list (string * string) :=
  let d := ensure_parsed d in
  (d, flat_map (fun '((namespace, name), s) => map (fun _ => (name, denormalize namespace)) (nodes_of d s))
        (node_order Slab (by_node d))).
Definition get_node_names_with_enclaves (d : GraphData) : GraphData * list (string * string * string) :=
  let d := ensure_parsed d in
  (d, flat_map (fun '((namespace, name), s) =>
        map (fun n => (name, denormalize namespace, denormalize (node_enclave n))) (nodes_of d s))
        (node_order Slab (by_node d))).

(** Actions are found by the names of their feedback topics. *)
Definition ACTION_NAME_SUFFIX : string := "/_action/feedback".
Definition ACTION_TYPE_SUFFIX : string := "_FeedbackMessage".
Definition filter_action_names_and_types (topics : list (string * string)) : list (string * string) :=
  omap (fun '(topic_name, type_name) =>
    action_name ← strip_suffix ACTION_NAME_SUFFIX topic_name;
    Some (action_name, default type_name (strip_suffix ACTION_TYPE_SUFFIX type_name))) topics.
Definition get_action_client_names_and_types_by_node (d : GraphData) (k : NodeKey) :=
  let '(d, subscribers) := get_names_and_types_by_node d k KSubscription in
  (d, filter_action_names_and_types subscribers).
Definition get_action_server_names_and_types_by_node (d : GraphData) (k : NodeKey) :=
  let '(d, publishers) := get_names_and_types_by_node d k KPublisher in
  (d, filter_action_names_and_types publishers).
Fixpoint dedup (l : list (string * string)) : list (string * string) :=
  match l with
  | x :: ((y :: _) as l') => if decide (x = y) then dedup l' else x :: dedup l'
  | _ => l
  end.
Definition get_action_names_and_types (d : GraphData) : GraphData * list (string * string) :=
  let '(d, topics) := get_topic_names_and_types d in
  (d, dedup (sort_pairs (filter_action_names_and_types topics))).

(** *** Snapshots *)

Record TopicSnapshot := mkTopicSnapshot {
  ts_name : string; ts_type_name : string; ts_publishers : nat; ts_subscribers : nat }.
Record NodeSnapshot := mkNodeSnapshot { ns_name : string; ns_namespace : string }.
Record ServiceSnapshot := mkServiceSnapshot { ss_name : string; ss_type_name : string }.
Record GraphSnapshot := mkSnapshot {
  timestamp : Z;
  gs_domain_id : Z;
  topics : list TopicSnapshot;
  nodes : list NodeSnapshot;
  services : list ServiceSnapshot;
}.
(** [get_entities_by_topic(..).len()]: the entities are dropped at once. *)
Definition topic_len {E} (d : GraphData) (kind : EntityKind) (topic : string) : res E (GraphData * nat) :=
  '(d, l) ← get_entities_by_topic d kind topic;
  Ok (foldl arc_drop d l, length l).
Fixpoint snapshot_topics {E} (d : GraphData) (l : list (string * string))
    : res E (GraphData * list TopicSnapshot) :=
  match l with
  | [] => Ok (d, [])
  | (name, type_name) :: l =>
      '(d, publishers) ← topic_len d KPublisher name;
      '(d, subscribers) ← topic_len d KSubscription name;
      '(d, rest) ← snapshot_topics d l;
      Ok (d, mkTopicSnapshot name type_name publishers subscribers :: rest)
  end.
Definition snapshot {E} (d : GraphData) (now domain_id : Z) : res E (GraphData * GraphSnapshot) :=
  let '(d, ts) := get_topic_names_and_types d in
  '(d, ts) ← snapshot_topics d ts;
  let '(d, ns) := get_node_names d in
  let '(d, ss) := get_service_names_and_types d in
  Ok (d, mkSnapshot now domain_id ts (map (fun '(n, ns) => mkNodeSnapshot n ns) ns)
           (map (fun '(n, t) => mkServiceSnapshot n t) ss)).

(** *** The graph *)

Record Graph := mkGraph {
  data : GraphData;
  event_manager : GraphEventManager;
  graph_zid : ZenohId;
}.
Definition set_data (g : Graph) (d : GraphData) : Graph := mkGraph d (event_manager g) (graph_zid g).
Context `{ZD : !EqDecision ZenohId}.
Definition is_entity_local (g : Graph) (entity : Entity) : bool :=
  match entity with
  | ENode node => bool_decide (z_id node = graph_zid g)
  | EEndpoint endpoint => bool_decide (z_id (ep_node endpoint) = graph_zid g)
  end.

(** [new_with_pattern]: the subscriber's callback, and the replies to the first
    query. *)
Definition put_sample {E} (g : Graph) (ke : string) : res E (Graph * list Notice) :=
  let g := if decide (is_Some (parsed (data g) !! ke)) then g
           else if decide (ke ∈ cached (data g)) then g
           else set_data g (data_insert (data g) ke) in
  notices ← match parser ke with
            | Some entity => trigger_graph_change (event_manager g) entity true
            | None => Ok []
            end;
  Ok (g, notices).
Definition delete_sample {E} (g : Graph) (ke : string) : res E (Graph * list Notice) :=
  notices ← match parser ke with
            | Some entity => trigger_graph_change (event_manager g) entity false
            | None => Ok []
            end;
  Ok (set_data g (data_remove (data g) ke), notices).
Definition query_reply (g : Graph) (ke : string) : Graph :=
  match parser ke with
  | Some entity => if is_entity_local g entity then g else set_data g (data_insert (data g) ke)
  | None => g
  end.

Definition add_local_entity (g : Graph) (entity : Entity) : res ZError (Graph * list Notice) :=
  ke ← entity_to_liveliness_ke entity;
  let d := data g in
  let already_exists := bool_decide (is_Some (parsed d !! ke)) in
  let arc := length (heap d) in
  let d := arc_new d entity in
  let d := set_parsed d (<[ke := arc]> (parsed d)) in
  let d := add_index d entity arc in
  notices ← (if already_exists then Ok []
             else trigger_graph_change (event_manager g) entity true);
  Ok (set_data g d, notices).

Definition not_ke (d : GraphData) (ke : string) (a : nat) : bool :=
  alive d a &&
  match heap d !! a with
  | Some e => match entity_to_liveliness_ke e with Ok k => negb (String.eqb k ke) | _ => true end
  | None => false
  end.
Definition remove_index (d : GraphData) (ke : string) (entity : Entity) : GraphData :=
  let retain := slab_retain (not_ke d ke) in
  match entity with
  | ENode node => set_by_node d (alter retain (node_key node) (by_node d))
  | EEndpoint x =>
      let d := if is_topic_kind (ep_kind x)
               then set_by_topic d (alter retain (ep_topic x) (by_topic d)) else d in
      let d := if is_service_kind (ep_kind x)
               then set_by_service d (alter retain (ep_topic x) (by_service d)) else d in
      set_by_node d (alter retain (node_key (ep_node x)) (by_node d))
  end.
Definition remove_local_entity (g : Graph) (entity : Entity) : res ZError (Graph * list Notice) :=
  ke ← entity_to_liveliness_ke entity;
  let d := data_remove (data g) ke in
  let d := remove_index d ke entity in
  notices ← trigger_graph_change (event_manager g) entity false;
  Ok (set_data g d, notices).
End Graph.
