(* ===== verification/GraphInv.v ===== *)
(** * What the graph cache guarantees

    The tokens of a cache are the entities it knows, parsed or not.  Every
    operation changes them as its specification says, and every query answers
    from them, provided no caller keeps an entity that has left. *)
From stdpp Require Import gmap strings.
From S2P Require Import Prelude Utf8 RustStr RustColl Qos Entity Events RmwZenoh Ros2Dds Graph.
Open Scope string_scope.

(** ** Definitions *)

Section Spec.
Context `{ZA : ZenohApi} {SL : SlabApi}.
Variable parser : string -> option Entity.

(** What each index holds. *)
Definition topic_entry (t : string) (e : Entity) : bool :=
  match e with EEndpoint x => is_topic_kind (ep_kind x) && String.eqb (ep_topic x) t | ENode _ => false end.
Definition service_entry (t : string) (e : Entity) : bool :=
  match e with EEndpoint x => is_service_kind (ep_kind x) && String.eqb (ep_topic x) t | ENode _ => false end.
Definition entity_node (e : Entity) : NodeEntity := match e with ENode n => n | EEndpoint x => ep_node x end.
Definition node_entry (k : NodeKey) (e : Entity) : bool := bool_decide (node_key (entity_node e) = k).

Section Index.
Context {K : Type} `{Countable K} (entry : K -> Entity -> bool).
(** The weak pointers of an index: distinct in a slab, and of entities that
    belong there. *)
Definition index_ok (h : list Entity) (m : gmap K Slab) : Prop :=
  forall k s, m !! k = Some s ->
    NoDup (slab_iter s) /\ forall a, a ∈ slab_iter s -> exists e, h !! a = Some e /\ entry k e = true.
(** The entities of the map are where they belong. *)
Definition indexed (h : list Entity) (p : gmap string nat) (m : gmap K Slab) : Prop :=
  forall ke a e k, p !! ke = Some a -> h !! a = Some e -> entry k e = true ->
    exists s, m !! k = Some s /\ a ∈ slab_iter s.
End Index.

Definition graph_inv (d : GraphData) : Prop :=
  (forall ke a, parsed d !! ke = Some a -> is_Some (heap d !! a)) /\
  (forall ke ke' a, parsed d !! ke = Some a -> parsed d !! ke' = Some a -> ke = ke') /\
  index_ok topic_entry (heap d) (by_topic d) /\ indexed topic_entry (heap d) (parsed d) (by_topic d) /\
  index_ok service_entry (heap d) (by_service d) /\ indexed service_entry (heap d) (parsed d) (by_service d) /\
  index_ok node_entry (heap d) (by_node d) /\ indexed node_entry (heap d) (parsed d) (by_node d).

(** The entities known, under their tokens. *)
Definition parsed_tokens (d : GraphData) : gmap string Entity := omap (fun a => heap d !! a) (parsed d).
Definition parse_set (s : gset string) : gmap string Entity :=
  map_imap (fun ke (_ : unit) => parser ke) (gset_to_gmap tt s).
Definition tokens (d : GraphData) : gmap string Entity := parsed_tokens d ∪ parse_set (cached d).
(** No caller keeps an entity that is not in the map. *)
Definition no_stale (d : GraphData) : Prop :=
  forall a, a ∈ held d -> exists ke, parsed d !! ke = Some a.
Definition known (T : gmap string Entity) : list Entity := map snd (map_to_list T).
End Spec.

(** ** Lemmas *)

(** *** One index *)

Section Index.
Context `{ZA : ZenohApi} {SL : SlabApi} {SLL : SlabLaws}.
Context {K : Type} `{Countable K} (entry : K -> Entity -> bool).
Implicit Types (m : gmap K Slab) (h : list Entity) (p : gmap string nat).

Lemma filter_elem {A} (f : A -> bool) l x : x ∈ List.filter f l <-> x ∈ l /\ f x = true.
Proof. rewrite !list_elem_of_In. apply filter_In. Qed.

Lemma filter_nodup {A} (f : A -> bool) l : NoDup l -> NoDup (List.filter f l).
Proof.
  induction 1 as [|x l Hx _ IH]; cbn; [constructor|]. destruct (f x); [|done]. constructor; [|done].
  rewrite filter_elem. tauto.
Qed.

Lemma slab_add_elem live a o x :
  x ∈ slab_iter (slab_add live a o) ->
  x = a \/ exists s, o = Some s /\ x ∈ slab_iter s.
Proof.
  unfold slab_add. destruct o as [s|]; cbn [default]; destruct (_ <=? _)%nat;
    rewrite slab_iter_insert, elem_of_cons; rewrite ?slab_iter_retain, ?filter_elem; unfold id;
    rewrite ?slab_iter_new, ?elem_of_nil; naive_solver.
Qed.

Lemma slab_add_in live a o : a ∈ slab_iter (slab_add live a o).
Proof. unfold slab_add. rewrite slab_iter_insert. by left. Qed.

Lemma slab_add_keeps live a s x : x ∈ slab_iter s -> live x = true -> x ∈ slab_iter (slab_add live a (Some s)).
Proof.
  intros Hx Hl. unfold slab_add. rewrite slab_iter_insert. right. cbn. unfold id.
  destruct (_ <=? _)%nat; [|done]. by rewrite slab_iter_retain, filter_elem.
Qed.

Lemma slab_add_nodup live a o :
  (forall s, o = Some s -> NoDup (slab_iter s) /\ a ∉ slab_iter s) -> NoDup (slab_iter (slab_add live a o)).
Proof.
  intros Ho. unfold slab_add. rewrite slab_iter_insert. destruct o as [s|]; cbn [default]; unfold id.
  - destruct (Ho s eq_refl) as [Hn Ha]. destruct (_ <=? _)%nat; [|by constructor].
    rewrite slab_iter_retain. constructor; [rewrite filter_elem; tauto | by apply filter_nodup].
  - destruct (_ <=? _)%nat; rewrite ?slab_iter_retain, slab_iter_new; cbn; repeat constructor; by apply not_elem_of_nil.
Qed.

Lemma index_ok_lt h m k s a : index_ok entry h m -> m !! k = Some s -> a ∈ slab_iter s -> (a < length h)%nat.
Proof. intros Hm Hk Ha. destruct (Hm k s Hk) as [_ He]. destruct (He a Ha) as (e & E & _). by eapply lookup_lt_Some. Qed.

Lemma index_ok_grow h e m : index_ok entry h m -> index_ok entry (h ++ [e]) m.
Proof.
  intros Hm k s Hk. destruct (Hm k s Hk) as [Hn He]. split; [done|]. intros a Ha.
  destruct (He a Ha) as (e' & E & Hb). exists e'. split; [|done]. by apply lookup_app_l_Some.
Qed.

Lemma index_ok_add h e m k live :
  index_ok entry h m -> entry k e = true -> index_ok entry (h ++ [e]) (add_to live k (length h) m).
Proof.
  intros Hm He k' s. unfold add_to. intros [[<- <-]|[_ Hk]]%lookup_insert_Some; [|by apply (index_ok_grow h e m Hm)].
  split.
  - apply slab_add_nodup. intros s Hs. split; [by apply (Hm k)|]. intros Ha.
    pose proof (index_ok_lt _ _ _ _ _ Hm Hs Ha). lia.
  - intros a [->|(s & Hs & Ha)]%slab_add_elem; [exists e; split; [|done]; by rewrite lookup_app_r, Nat.sub_diag|].
    by apply (index_ok_grow h e m Hm) in Hs as [_ Hs]; [apply Hs|..].
Qed.

(** The addresses of [p] other than the new one are alive when it is added. *)
Lemma indexed_add h e m p ke k live :
  index_ok entry h m -> (forall ke a, p !! ke = Some a -> (a < length h)%nat) -> indexed entry h p m ->
  (forall ke' a, ke' <> ke -> p !! ke' = Some a -> live a = true) ->
  (forall k', entry k' e = true -> k' = k) ->
  indexed entry (h ++ [e]) (<[ke := length h]> p) (add_to live k (length h) m).
Proof.
  intros Hm Hp Hi Hlive Huniq ke' a e' k'. intros [[<- <-]|[Hne Hke]]%lookup_insert_Some Ha Hk.
  - rewrite lookup_app_r, Nat.sub_diag in Ha by done. injection Ha as <-. apply Huniq in Hk as ->.
    exists (slab_add live (length h) (m !! k)). split; [by apply lookup_insert_eq | apply slab_add_in].
  - rewrite lookup_app_l in Ha by (by eapply Hp). destruct (Hi ke' a e' k' Hke Ha Hk) as (s & Hs & Hin).
    unfold add_to. destruct (decide (k = k')) as [<-|Hkk].
    + exists (slab_add live (length h) (m !! k)). split; [apply lookup_insert_eq|]. rewrite Hs.
      apply slab_add_keeps; [done|]. by eapply (Hlive ke').
    + exists s. by rewrite lookup_insert_ne.
Qed.

(** An entity that does not belong to the index. *)
Lemma indexed_other h e m p ke :
  (forall ke a, p !! ke = Some a -> (a < length h)%nat) -> indexed entry h p m -> (forall k, entry k e = false) ->
  indexed entry (h ++ [e]) (<[ke := length h]> p) m.
Proof.
  intros Hp Hi He ke' a e' k'. intros [[<- <-]|[Hne Hke]]%lookup_insert_Some Ha Hk.
  - rewrite lookup_app_r, Nat.sub_diag in Ha by done. injection Ha as <-. congruence.
  - rewrite lookup_app_l in Ha by (by eapply Hp). by eapply Hi.
Qed.

Lemma index_ok_alter h m f k : index_ok entry h m -> index_ok entry h (alter (slab_retain f) k m).
Proof.
  intros Hm k' s. rewrite lookup_alter_Some. intros [(-> & s' & Hs' & ->)|[_ Hs]]; [|by apply Hm].
  destruct (Hm k' s' Hs') as [Hn He]. rewrite slab_iter_retain. split; [by apply filter_nodup|].
  intros a [Ha _]%filter_elem. by apply He.
Qed.

Lemma index_ok_fmap h m f : index_ok entry h m -> index_ok entry h (slab_retain f <$> m).
Proof.
  intros Hm k s. rewrite lookup_fmap. intros (s' & Hs' & ->)%fmap_Some.
  destruct (Hm k s' Hs') as [Hn He]. rewrite slab_iter_retain. split; [by apply filter_nodup|].
  intros a [Ha _]%filter_elem. by apply He.
Qed.

Lemma indexed_alter h m p f k :
  (forall ke a e, p !! ke = Some a -> h !! a = Some e -> entry k e = true -> f a = true) ->
  indexed entry h p m -> indexed entry h p (alter (slab_retain f) k m).
Proof.
  intros Hf Hi ke a e k' Hke Ha Hk. destruct (Hi ke a e k' Hke Ha Hk) as (s & Hs & Hin).
  destruct (decide (k = k')) as [->|Hne].
  - exists (slab_retain f s). rewrite lookup_alter_eq, Hs. split; [done|].
    rewrite slab_iter_retain, filter_elem. split; [done|]. by eapply Hf.
  - exists s. by rewrite lookup_alter_ne.
Qed.

Lemma indexed_fmap h m p f :
  (forall ke a, p !! ke = Some a -> f a = true) -> indexed entry h p m -> indexed entry h p (slab_retain f <$> m).
Proof.
  intros Hf Hi ke a e k Hke Ha Hk. destruct (Hi ke a e k Hke Ha Hk) as (s & Hs & Hin).
  exists (slab_retain f s). rewrite lookup_fmap, Hs. split; [done|].
  rewrite slab_iter_retain, filter_elem. split; [done|]. by eapply Hf.
Qed.

Lemma indexed_sub h m p p' : p' ⊆ p -> indexed entry h p m -> indexed entry h p' m.
Proof. intros Hs Hi ke a e k Hke. eapply Hi. by eapply lookup_weaken. Qed.

(** What a visit sees, once every token is parsed. *)
Definition visited (d : GraphData) (m : gmap K Slab) (k : K) : list nat :=
  match m !! k with Some s => live_in d s | None => [] end.

Lemma parsed_values (p : gmap string nat) a : a ∈ map snd (map_to_list p) <-> exists ke, p !! ke = Some a.
Proof.
  rewrite list_elem_of_fmap. split.
  - intros ([ke a'] & -> & Hin%elem_of_map_to_list). by exists ke.
  - intros [ke Hke]. exists (ke, a). split; [done|]. by apply elem_of_map_to_list.
Qed.

Lemma alive_iff d a : no_stale d -> alive d a = true <-> exists ke, parsed d !! ke = Some a.
Proof.
  intros Hns. unfold alive. rewrite orb_true_iff, !bool_decide_eq_true, parsed_values. split.
  - intros [Hp|Hp]; [done | by apply Hns].
  - by left.
Qed.

Lemma values_nodup (p : gmap string nat) :
  (forall ke ke' a, p !! ke = Some a -> p !! ke' = Some a -> ke = ke') -> NoDup (map snd (map_to_list p)).
Proof.
  intros Hinj. apply NoDup_fmap_2_strong; [|apply NoDup_map_to_list].
  intros [ke a] [ke' a'] H1%elem_of_map_to_list H2%elem_of_map_to_list E. cbn in E. subst a'.
  f_equal. by eapply Hinj.
Qed.

Lemma omap_values {A B} (f : A -> option B) (m : gmap string A) :
  map snd (map_to_list (omap f m)) ≡ₚ omap f (map snd (map_to_list m)).
Proof.
  induction m as [|k x m Hk IH] using map_ind; [by rewrite omap_empty, !map_to_list_empty|].
  assert (omap f m !! k = None) as Hk' by (by rewrite lookup_omap, Hk).
  transitivity (omap f (map snd ((k, x) :: map_to_list m))); [|by rewrite map_to_list_insert].
  cbn. destruct (f x) as [y|] eqn:E.
  - rewrite (omap_insert_Some _ _ _ _ _ E), map_to_list_insert by done. cbn. by rewrite IH.
  - rewrite (omap_insert_None _ _ _ _ E), delete_id by done. done.
Qed.

Lemma visited_known d m k :
  graph_inv d -> no_stale d -> index_ok entry (heap d) m -> indexed entry (heap d) (parsed d) m ->
  omap (fun a => heap d !! a) (visited d m k) ≡ₚ List.filter (entry k) (known (parsed_tokens d)).
Proof.
  intros (Hval & Hinj & _) Hns Hok Hix. unfold known, parsed_tokens.
  assert (visited d m k ≡ₚ List.filter (fun a => match heap d !! a with Some e => entry k e | None => false end)
            (map snd (map_to_list (parsed d)))) as ->.
  { apply NoDup_Permutation.
    - unfold visited. destruct (m !! k) as [s|] eqn:E; [|constructor]. by apply filter_nodup, (Hok k).
    - by apply filter_nodup, values_nodup.
    - intros a. rewrite filter_elem, parsed_values. unfold visited. split.
      + destruct (m !! k) as [s|] eqn:E; [|by intros ?%elem_of_nil].
        intros [Ha Hl]%filter_elem. rewrite alive_iff in Hl by done. split; [done|].
        destruct (Hok k s E) as [_ He]. destruct (He a Ha) as (e & -> & Hb). done.
      + intros [[ke Hke] Hb]. destruct (heap d !! a) as [e|] eqn:Ee; [|done].
        destruct (Hix ke a e k Hke Ee Hb) as (s & -> & Hin). apply filter_elem. split; [done|].
        apply alive_iff; [done|]. by exists ke. }
  transitivity (List.filter (entry k) (omap (fun a => heap d !! a) (map snd (map_to_list (parsed d))))).
  - generalize (map snd (map_to_list (parsed d))) as l. induction l as [|a l IH]; [done|]. cbn.
    destruct (heap d !! a) as [e|] eqn:E; [|done]. cbn. destruct (entry k e); [cbn; rewrite E; by f_equiv|done].
  - assert (forall (f : Entity -> bool) l l', l ≡ₚ l' -> List.filter f l ≡ₚ List.filter f l') as Hperm.
    { intros f l l'. induction 1; cbn; repeat (destruct (f _)); eauto using Permutation. }
    apply Hperm. symmetry. apply omap_values.
Qed.
End Index.

(** *** The state *)

Section State.
Context `{ZA : ZenohApi} {SL : SlabApi} {SLL : SlabLaws} {HO : HashOrder} {HOL : HashOrderLaws}.
Variable parser : string -> option Entity.
Abbreviation tokens := (tokens parser).
Abbreviation parse_one := (parse_one parser).
Abbreviation ensure_parsed := (ensure_parsed parser).

Lemma parsed_lt d ke a : graph_inv d -> parsed d !! ke = Some a -> (a < length (heap d))%nat.
Proof. intros (Hv & _) Ha. by apply lookup_lt_is_Some, (Hv ke). Qed.

Lemma tokens_lookup d ke :
  graph_inv d ->
  tokens d !! ke = match parsed d !! ke with
                   | Some a => heap d !! a
                   | None => if decide (ke ∈ cached d) then parser ke else None
                   end.
Proof.
  intros (Hv & _). unfold tokens, parsed_tokens, parse_set. rewrite lookup_union, lookup_omap.
  destruct (parsed d !! ke) as [a|] eqn:E; cbn.
  - destruct (Hv ke a E) as [e ->]. cbn. by destruct (map_imap _ _ !! _).
  - rewrite map_lookup_imap, lookup_gset_to_gmap. destruct (decide (ke ∈ cached d)).
    + rewrite option_guard_True by done. cbn. by destruct (parser ke).
    + by rewrite option_guard_False.
Qed.

Lemma parsed_tokens_lookup d ke : parsed_tokens d !! ke = (parsed d !! ke ≫= fun a => heap d !! a).
Proof. unfold parsed_tokens. by rewrite lookup_omap. Qed.

Lemma tokens_parsed d : cached d = ∅ -> tokens d = parsed_tokens d.
Proof.
  intros Hc. unfold tokens, parse_set. rewrite Hc.
  apply map_eq. intros k. rewrite lookup_union, map_lookup_imap, lookup_gset_to_gmap.
  rewrite option_guard_False by set_solver. by destruct (parsed_tokens d !! k).
Qed.

(** Adding an entity. *)
Definition topic_part (live : nat -> bool) (e : Entity) (a : nat) (m : gmap string Slab) : gmap string Slab :=
  match e with EEndpoint x => if is_topic_kind (ep_kind x) then add_to live (ep_topic x) a m else m | ENode _ => m end.
Definition service_part (live : nat -> bool) (e : Entity) (a : nat) (m : gmap string Slab) : gmap string Slab :=
  match e with EEndpoint x => if is_service_kind (ep_kind x) then add_to live (ep_topic x) a m else m | ENode _ => m end.
Definition node_part (live : nat -> bool) (e : Entity) (a : nat) (m : gmap NodeKey Slab) : gmap NodeKey Slab :=
  add_to live (node_key (entity_node e)) a m.

Lemma add_index_parts d e a :
  add_index d e a = mkData (cached d) (parsed d) (topic_part (alive d) e a (by_topic d))
    (service_part (alive d) e a (by_service d)) (node_part (alive d) e a (by_node d)) (heap d) (held d).
Proof. destruct e as [n|x]; [done|]. unfold add_index, topic_part, service_part. by destruct (ep_kind x). Qed.

Lemma inv_add d ke e live :
  graph_inv d -> (forall ke' a, ke' <> ke -> parsed d !! ke' = Some a -> live a = true) ->
  graph_inv (mkData (cached d) (<[ke := length (heap d)]> (parsed d)) (topic_part live e (length (heap d)) (by_topic d))
    (service_part live e (length (heap d)) (by_service d)) (node_part live e (length (heap d)) (by_node d))
    (heap d ++ [e]) (held d)).
Proof.
  intros Hd Hl. pose proof (fun ke a => parsed_lt d ke a Hd) as Hlt.
  destruct Hd as (Hv & Hinj & T1 & T2 & S1 & S2 & N1 & N2). split_and!; cbn.
  - intros ke' a. intros [[<- <-]|[_ Hk]]%lookup_insert_Some; [by rewrite lookup_app_r, Nat.sub_diag|].
    destruct (Hv ke' a Hk) as [e' He']. exists e'. by apply lookup_app_l_Some.
  - intros k1 k2 a [[<- <-]|[_ H1]]%lookup_insert_Some [[<- E]|[_ H2]]%lookup_insert_Some; try done.
    + apply Hlt in H2. lia.
    + apply Hlt in H1. lia.
    + by eapply Hinj.
  - destruct e as [n|x]; cbn; [by apply index_ok_grow|]. destruct (is_topic_kind (ep_kind x)) eqn:E; [|by apply index_ok_grow].
    apply index_ok_add; [done|]. cbn. by rewrite E, String.eqb_refl.
  - destruct e as [n|x]; cbn; [by apply indexed_other|]. destruct (is_topic_kind (ep_kind x)) eqn:E.
    + apply indexed_add; [done..|]. cbn. rewrite E. by intros k' ->%String.eqb_eq.
    + apply indexed_other; [done..|]. intros k. cbn. by rewrite E.
  - destruct e as [n|x]; cbn; [by apply index_ok_grow|]. destruct (is_service_kind (ep_kind x)) eqn:E; [|by apply index_ok_grow].
    apply index_ok_add; [done|]. cbn. by rewrite E, String.eqb_refl.
  - destruct e as [n|x]; cbn; [by apply indexed_other|]. destruct (is_service_kind (ep_kind x)) eqn:E.
    + apply indexed_add; [done..|]. cbn. rewrite E. by intros k' ->%String.eqb_eq.
    + apply indexed_other; [done..|]. intros k. cbn. by rewrite E.
  - apply index_ok_add; [done|]. unfold node_entry. by apply bool_decide_eq_true.
  - apply indexed_add; [done..|]. unfold node_entry. by intros k' <-%bool_decide_eq_true.
Qed.

(** Fewer tokens, and retained slabs. *)
Lemma inv_shrink d p c hd :
  graph_inv d -> p ⊆ parsed d ->
  graph_inv (mkData c p (by_topic d) (by_service d) (by_node d) (heap d) hd).
Proof.
  intros (Hv & Hinj & T1 & T2 & S1 & S2 & N1 & N2) Hp. split_and!; cbn; try done.
  - intros ke a Ha. eapply Hv. by eapply lookup_weaken.
  - intros k1 k2 a H1 H2. eapply Hinj; by eapply lookup_weaken.
  - by eapply indexed_sub.
  - by eapply indexed_sub.
  - by eapply indexed_sub.
Qed.

Lemma alive_parsed d ke a : parsed d !! ke = Some a -> alive d a = true.
Proof. intros Ha. unfold alive. apply orb_true_iff. left. apply bool_decide_eq_true, parsed_values. by exists ke. Qed.

(** *** Parsing *)

Lemma parse_one_ok d ke :
  graph_inv d ->
  graph_inv (parse_one d ke) /\ cached (parse_one d ke) = cached d /\ held (parse_one d ke) = held d /\
  parsed d ⊆ parsed (parse_one d ke) /\
  forall k, parsed_tokens (parse_one d ke) !! k =
    match parsed_tokens d !! k with Some e => Some e | None => if decide (k = ke) then parser k else None end.
Proof.
  intros Hd. unfold Graph.parse_one. destruct (decide (is_Some (parsed d !! ke))) as [[a Ha]|Hn].
  { split_and!; try done. intros k. destruct (decide (k = ke)) as [->|]; [|by destruct (parsed_tokens d !! k)].
    rewrite parsed_tokens_lookup, Ha. cbn. by destruct (proj1 Hd ke a Ha) as [e ->]. }
  apply eq_None_not_Some in Hn. destruct (parser ke) as [e|] eqn:Ep.
  - rewrite add_index_parts. cbn [set_parsed arc_new cached parsed by_topic by_service by_node heap held].
    split_and!; try done.
    + apply (inv_add d ke e (alive d)); [done|]. intros ke' a _ Ha. by eapply alive_parsed.
    + by apply insert_subseteq.
    + intros k. rewrite !parsed_tokens_lookup. cbn. destruct (decide (k = ke)) as [->|Hne].
      * rewrite lookup_insert_eq, Hn. cbn. by rewrite lookup_app_r, Nat.sub_diag.
      * rewrite lookup_insert_ne by done. destruct (parsed d !! k) as [a|] eqn:Ea; [|done]. cbn.
        rewrite lookup_app_l by (by eapply parsed_lt). by destruct (heap d !! a).
  - split_and!; try done. intros k. destruct (parsed_tokens d !! k); [done|].
    destruct (decide (k = ke)) as [->|]; by rewrite ?Ep.
Qed.

Lemma parse_fold d l :
  graph_inv d ->
  let d' := foldl parse_one d l in
  graph_inv d' /\ cached d' = cached d /\ held d' = held d /\ parsed d ⊆ parsed d' /\
  forall k, parsed_tokens d' !! k =
    match parsed_tokens d !! k with Some e => Some e | None => if decide (k ∈ l) then parser k else None end.
Proof.
  revert d. induction l as [|ke l IH]; intros d Hd; cbn [foldl].
  - split_and!; try done. intros k. rewrite decide_False by apply not_elem_of_nil. by destruct (parsed_tokens d !! k).
  - destruct (parse_one_ok d ke Hd) as (H1 & H2 & H3 & H4 & H5). destruct (IH _ H1) as (G1 & G2 & G3 & G4 & G5).
    split_and!; [done|congruence|congruence|by etrans|]. intros k. rewrite G5, H5.
    destruct (parsed_tokens d !! k); [done|]. destruct (decide (k = ke)) as [->|Hne].
    + rewrite (decide_True (P := ke ∈ ke :: l)) by by left. destruct (parser ke) eqn:Ep; [done|]. by destruct (decide _).
    + destruct (decide (k ∈ l)), (decide (k ∈ ke :: l)); set_solver.
Qed.

(** What every query does to the state. *)
Definition same_tokens (d d' : GraphData) : Prop :=
  graph_inv d' /\ tokens d' = tokens d /\ (no_stale d -> no_stale d').

Lemma same_tokens_refl d : graph_inv d -> same_tokens d d.
Proof. done. Qed.

Lemma same_tokens_trans a b c : same_tokens a b -> same_tokens b c -> same_tokens a c.
Proof. intros (_ & H1 & H2) (G0 & G1 & G2). split_and!; [done|congruence|auto]. Qed.

Lemma ensure_parsed_ok d :
  graph_inv d -> same_tokens d (ensure_parsed d) /\ cached (ensure_parsed d) = ∅.
Proof.
  intros Hd. unfold Graph.ensure_parsed. destruct (decide (cached d = ∅)) as [Hc|Hc]; [done|].
  unfold parse. assert (graph_inv (set_cached d ∅)) as Hd0 by (by apply (inv_shrink d (parsed d) ∅ (held d))).
  destruct (parse_fold _ (set_order (cached d)) Hd0) as (H1 & H2 & H3 & H4 & H5).
  split; [|done]. split_and!; [done| |].
  - rewrite tokens_parsed by done. apply map_eq. intros k. rewrite H5, tokens_lookup by done.
    rewrite parsed_tokens_lookup. cbn [set_cached parsed heap].
    destruct (parsed d !! k) as [a|] eqn:Ea; cbn; [by destruct (proj1 Hd k a Ea) as [e ->]|].
    destruct (decide (k ∈ set_order (cached d))) as [Hi|Hi], (decide (k ∈ cached d)) as [Hj|Hj]; try done;
      rewrite set_order_perm, elem_of_elements in Hi; done.
  - intros Hs a. rewrite H3. cbn. intros Ha. destruct (Hs a Ha) as [ke Hke]. exists ke. by eapply lookup_weaken.
Qed.

(** *** Visits *)

Lemma visit_slab_alter {K} `{Countable K} d (k : K) (m : gmap K Slab) :
  visit_slab d k m = (alter (slab_retain (alive d)) k m, visited d m k).
Proof.
  unfold visit_slab, visited. destruct (m !! k) as [s|] eqn:E.
  - f_equal. symmetry. apply map_eq. intros k'. destruct (decide (k = k')) as [<-|Hne].
    + by rewrite lookup_alter_eq, lookup_insert_eq, E.
    + by rewrite lookup_alter_ne, lookup_insert_ne.
  - f_equal. apply map_eq. intros k'. destruct (decide (k = k')) as [<-|Hne].
    + by rewrite lookup_alter_eq, E.
    + by rewrite lookup_alter_ne.
Qed.

(** Dead pointers may leave the indexes. *)
Lemma inv_topic d m :
  graph_inv d -> index_ok topic_entry (heap d) m -> indexed topic_entry (heap d) (parsed d) m ->
  same_tokens d (set_by_topic d m).
Proof. intros (Hv & Hinj & T1 & T2 & S1 & S2 & N1 & N2) H1 H2. by split. Qed.
Lemma inv_service d m :
  graph_inv d -> index_ok service_entry (heap d) m -> indexed service_entry (heap d) (parsed d) m ->
  same_tokens d (set_by_service d m).
Proof. intros (Hv & Hinj & T1 & T2 & S1 & S2 & N1 & N2) H1 H2. by split. Qed.
Lemma inv_node d m :
  graph_inv d -> index_ok node_entry (heap d) m -> indexed node_entry (heap d) (parsed d) m ->
  same_tokens d (set_by_node d m).
Proof. intros (Hv & Hinj & T1 & T2 & S1 & S2 & N1 & N2) H1 H2. by split. Qed.

Lemma visit_by_topic_ok d t d' l :
  graph_inv d -> visit_by_topic parser d t = (d', l) ->
  same_tokens d d' /\
  (no_stale d -> omap (fun a => heap d' !! a) l ≡ₚ List.filter (topic_entry t) (known (tokens d))).
Proof.
  intros Hd H. destruct (ensure_parsed_ok d Hd) as [Hs Hc]. pose proof Hs as (Hi & Ht & Hn).
  unfold visit_by_topic in H. rewrite visit_slab_alter in H. injection H as <- <-.
  pose proof Hi as (_ & _ & T1 & T2 & _). split.
  - eapply same_tokens_trans; [exact Hs|]. apply inv_topic; [done|by apply index_ok_alter|].
    apply indexed_alter; [|done]. intros ke a e Ha _ _. by eapply alive_parsed.
  - intros Hns. rewrite <- Ht, tokens_parsed by done. cbn [set_by_topic set_by_service set_by_node heap].
    apply visited_known; [done|by apply Hn|done|done].
Qed.

Lemma visit_by_service_ok d t d' l :
  graph_inv d -> visit_by_service parser d t = (d', l) ->
  same_tokens d d' /\
  (no_stale d -> omap (fun a => heap d' !! a) l ≡ₚ List.filter (service_entry t) (known (tokens d))).
Proof.
  intros Hd H. destruct (ensure_parsed_ok d Hd) as [Hs Hc]. pose proof Hs as (Hi & Ht & Hn).
  unfold visit_by_service in H. rewrite visit_slab_alter in H. injection H as <- <-.
  pose proof Hi as (_ & _ & _ & _ & S1 & S2 & _). split.
  - eapply same_tokens_trans; [exact Hs|]. apply inv_service; [done|by apply index_ok_alter|].
    apply indexed_alter; [|done]. intros ke a e Ha _ _. by eapply alive_parsed.
  - intros Hns. rewrite <- Ht, tokens_parsed by done. cbn [set_by_topic set_by_service set_by_node heap].
    apply visited_known; [done|by apply Hn|done|done].
Qed.

Lemma visit_by_node_ok d k d' l :
  graph_inv d -> visit_by_node parser d k = (d', l) ->
  same_tokens d d' /\
  (no_stale d -> omap (fun a => heap d' !! a) l ≡ₚ List.filter (node_entry k) (known (tokens d))).
Proof.
  intros Hd H. destruct (ensure_parsed_ok d Hd) as [Hs Hc]. pose proof Hs as (Hi & Ht & Hn).
  unfold visit_by_node in H. rewrite visit_slab_alter in H. injection H as <- <-.
  pose proof Hi as (_ & _ & _ & _ & _ & _ & N1 & N2). split.
  - eapply same_tokens_trans; [exact Hs|]. apply inv_node; [done|by apply index_ok_alter|].
    apply indexed_alter; [|done]. intros ke a e Ha _ _. by eapply alive_parsed.
  - intros Hns. rewrite <- Ht, tokens_parsed by done. cbn [set_by_topic set_by_service set_by_node heap].
    apply visited_known; [done|by apply Hn|done|done].
Qed.

(** *** Changes *)

Lemma data_insert_ok d ke :
  graph_inv d ->
  graph_inv (data_insert d ke) /\ (no_stale d -> no_stale (data_insert d ke)) /\
  tokens (data_insert d ke) =
    match tokens d !! ke, parser ke with None, Some e => <[ke := e]> (tokens d) | _, _ => tokens d end.
Proof.
  intros Hd. rewrite tokens_lookup by done. unfold data_insert.
  destruct (decide (is_Some (parsed d !! ke))) as [[a Ha]|Hn].
  { rewrite Ha. destruct (proj1 Hd ke a Ha) as [e ->]. done. }
  apply eq_None_not_Some in Hn. rewrite Hn.
  assert (graph_inv (set_cached d ({[ke]} ∪ cached d))) as Hi by (by apply (inv_shrink d (parsed d) _ (held d))).
  split; [done|]. split; [done|]. apply map_eq. intros k. rewrite tokens_lookup by done. cbn [set_cached parsed heap cached].
  destruct (decide (k = ke)) as [->|Hne].
  - rewrite Hn, decide_True by set_solver. destruct (decide (ke ∈ cached d)).
    + destruct (parser ke) eqn:Ep; rewrite tokens_lookup, Hn, decide_True by done; done.
    + destruct (parser ke) eqn:Ep; [by rewrite lookup_insert_eq|]. by rewrite tokens_lookup, Hn, decide_False by done.
  - assert (tokens d !! k = match parsed d !! k with
      | Some a => heap d !! a | None => if decide (k ∈ {[ke]} ∪ cached d) then parser k else None end) as E.
    { rewrite tokens_lookup by done. destruct (parsed d !! k); [done|].
      destruct (decide (k ∈ cached d)), (decide (k ∈ {[ke]} ∪ cached d)); set_solver. }
    rewrite <- E. destruct (decide (ke ∈ cached d)), (parser ke); rewrite ?lookup_insert_ne by done; done.
Qed.

Lemma data_remove_ok d ke : graph_inv d -> graph_inv (data_remove d ke) /\ tokens (data_remove d ke) = delete ke (tokens d).
Proof.
  intros Hd.
  assert (graph_inv (data_remove d ke)) as Hi.
  { apply (inv_shrink d (delete ke (parsed d)) (cached d ∖ {[ke]}) (held d)); [done|]. apply delete_subseteq. }
  split; [done|]. apply map_eq. intros k. rewrite tokens_lookup by done. cbn [data_remove set_parsed set_cached parsed cached heap].
  destruct (decide (k = ke)) as [->|Hne].
  - rewrite !lookup_delete_eq. by rewrite decide_False by set_solver.
  - rewrite !lookup_delete_ne by done. rewrite tokens_lookup by done. destruct (parsed d !! k); [done|].
    destruct (decide (k ∈ cached d ∖ {[ke]})), (decide (k ∈ cached d)); set_solver.
Qed.

(** The map and the indexes after an entity of this session is added. *)
Definition add_data (d : GraphData) (ke : string) (e : Entity) : GraphData :=
  let arc := length (heap d) in
  let d := arc_new d e in
  add_index (set_parsed d (<[ke := arc]> (parsed d))) e arc.

Lemma add_data_ok d ke e :
  graph_inv d -> graph_inv (add_data d ke e) /\ tokens (add_data d ke e) = <[ke := e]> (tokens d).
Proof.
  intros Hd. unfold add_data. rewrite add_index_parts. set (live := alive _).
  cbn [set_parsed arc_new cached parsed by_topic by_service by_node heap held]. split.
  { apply (inv_add d ke e live); [done|]. intros ke' a Hne Ha. apply (alive_parsed _ ke'). cbn.
    by rewrite lookup_insert_ne. }
  assert (graph_inv (mkData (cached d) (<[ke := length (heap d)]> (parsed d))
    (topic_part live e (length (heap d)) (by_topic d)) (service_part live e (length (heap d)) (by_service d))
    (node_part live e (length (heap d)) (by_node d)) (heap d ++ [e]) (held d))) as Hi.
  { apply (inv_add d ke e live); [done|]. intros ke' a Hne Ha. apply (alive_parsed _ ke'). cbn.
    by rewrite lookup_insert_ne. }
  apply map_eq. intros k. rewrite tokens_lookup by done. cbn [parsed heap cached].
  destruct (decide (k = ke)) as [->|Hne].
  - rewrite !lookup_insert_eq. by rewrite lookup_app_r, Nat.sub_diag.
  - rewrite !lookup_insert_ne by done. rewrite tokens_lookup by done.
    destruct (parsed d !! k) as [a|] eqn:Ea; [|done]. by rewrite lookup_app_l by (by eapply parsed_lt).
Qed.

(** The tokens of a set [R] are in the form that this code generates: no entity
    is known under another token than the one in [R] it is given by this code. *)
Definition canonical_tokens (R : string -> Prop) (T : gmap string Entity) : Prop :=
  forall ke e ke', T !! ke = Some e -> entity_to_liveliness_ke e = Ok ke' -> R ke' -> ke' = ke.

Lemma not_ke_other R d ke ke' a e :
  graph_inv d -> canonical_tokens R (tokens d) -> R ke -> tokens d !! ke = None ->
  parsed d !! ke' = Some a -> heap d !! a = Some e -> not_ke d ke a = true.
Proof.
  intros Hd Hc HR Hk Ha He. unfold not_ke. rewrite (alive_parsed d ke' a Ha), He. cbn [andb].
  destruct (entity_to_liveliness_ke e) as [k| |] eqn:E; [|done..].
  assert (tokens d !! ke' = Some e) as Ht by (by rewrite tokens_lookup, Ha by done).
  destruct (String.eqb_spec k ke) as [->|]; [|done]. apply (Hc ke' e ke Ht) in E as ->; [congruence|done].
Qed.

Lemma remove_index_ok R d ke e :
  graph_inv d -> canonical_tokens R (tokens d) -> R ke -> tokens d !! ke = None -> same_tokens d (remove_index d ke e).
Proof.
  intros Hd Hc HR Hk. pose proof Hd as (Hv & Hinj & T1 & T2 & S1 & S2 & N1 & N2).
  assert (forall ke' a e', parsed d !! ke' = Some a -> heap d !! a = Some e' -> not_ke d ke a = true) as Hkeep
    by (intros; by eapply not_ke_other).
  unfold remove_index. destruct e as [n|x].
  - apply inv_node; [done|by apply index_ok_alter|]. apply indexed_alter; [eauto|done].
  - assert (same_tokens d (if is_topic_kind (ep_kind x)
        then set_by_topic d (alter (slab_retain (not_ke d ke)) (ep_topic x) (by_topic d)) else d)) as Ht.
    { destruct (is_topic_kind (ep_kind x)); [|done].
      apply inv_topic; [done|by apply index_ok_alter|]. apply indexed_alter; [eauto|done]. }
    revert Ht. set (d1 := if is_topic_kind (ep_kind x) then _ else d).
    assert (heap d1 = heap d /\ parsed d1 = parsed d /\ by_service d1 = by_service d /\ by_node d1 = by_node d) as (E1 & E2 & E3 & E4)
      by (unfold d1; by destruct (is_topic_kind (ep_kind x))).
    intros Ht. assert (same_tokens d (if is_service_kind (ep_kind x)
        then set_by_service d1 (alter (slab_retain (not_ke d ke)) (ep_topic x) (by_service d1)) else d1)) as Hs.
    { destruct (is_service_kind (ep_kind x)); [|done]. eapply same_tokens_trans; [exact Ht|].
      apply inv_service; [apply Ht|..]; rewrite ?E1, ?E2, ?E3; [by apply index_ok_alter|].
      apply indexed_alter; [eauto|done]. }
    revert Hs. set (d2 := if is_service_kind (ep_kind x) then _ else d1).
    assert (heap d2 = heap d /\ parsed d2 = parsed d /\ by_node d2 = by_node d) as (F1 & F2 & F3)
      by (unfold d2; by destruct (is_service_kind (ep_kind x))).
    intros Hs. eapply same_tokens_trans; [exact Hs|].
    apply inv_node; [apply Hs|..]; rewrite ?F1, ?F2, ?F3; [by apply index_ok_alter|]. apply indexed_alter; [eauto|done].
Qed.

(** The graph starts empty. *)
Lemma data_new_ok : graph_inv data_new /\ tokens data_new = ∅ /\ no_stale data_new.
Proof.
  assert (graph_inv data_new) as Hi.
  { split_and!; cbn; intros k; intros; repeat match goal with H : ∅ !! _ = Some _ |- _ => by rewrite lookup_empty in H end. }
  split; [done|]. split.
  - apply map_eq. intros k. rewrite tokens_lookup by done. cbn. rewrite lookup_empty. by rewrite lookup_empty.
  - by intros a ?%elem_of_nil.
Qed.
End State.
