(* ===== verification/GraphProps.v ===== *)
(** * The graph as a service of its operations

    A graph that has gone through any sequence of operations holds the tokens of
    the specification, and its queries answer from them. *)
From stdpp Require Import gmap strings sorting.
From S2P Require Import Prelude Utf8 RustStr RustColl Qos Entity Events RmwZenoh Ros2Dds Graph GraphInv.
Open Scope string_scope.

(** ** Definitions *)

Section Ops.
Context `{ZA : ZenohApi} {SL : SlabApi} {HO : HashOrder} {ZD : EqDecision ZenohId}.
Variable parser : string -> option Entity.

Definition graph_new (em : GraphEventManager) (zid : ZenohId) : Graph := mkGraph data_new em zid.

Inductive GraphOp :=
| OpPut (ke : string)
| OpDelete (ke : string)
| OpReply (ke : string)
| OpAdd (e : Entity)
| OpRemove (e : Entity)
| OpCount (kind : EntityKind) (name : string)
| OpByTopic (kind : EntityKind) (topic : string)
| OpByService (kind : EntityKind) (service : string)
| OpByNode (kind : EntityKind) (k : NodeKey)
| OpTypesByNode (k : NodeKey) (kind : EntityKind)
| OpTopics
| OpServices
| OpNodes (k : NodeKey)
| OpDrop (a : nat).

Definition with_data {E A} (g : Graph) (m : res E (GraphData * A)) : res E Graph :=
  '(d, _) ← m; Ok (set_data g d).
Definition graph_step (g : Graph) (op : GraphOp) : res ZError Graph :=
  match op with
  | OpPut ke => fst <$> put_sample parser g ke
  | OpDelete ke => fst <$> delete_sample parser g ke
  | OpReply ke => Ok (query_reply parser g ke)
  | OpAdd e => fst <$> add_local_entity g e
  | OpRemove e => fst <$> remove_local_entity g e
  | OpCount kind name => with_data g (count parser (data g) kind name)
  | OpByTopic kind t => with_data g (get_entities_by_topic parser (data g) kind t)
  | OpByService kind t => with_data g (get_entities_by_service parser (data g) kind t)
  | OpByNode kind k => with_data g (get_entities_by_node parser (data g) kind k)
  | OpTypesByNode k kind => with_data g (Ok (get_names_and_types_by_node parser (data g) k kind))
  | OpTopics => with_data g (Ok (get_topic_names_and_types parser (data g)))
  | OpServices => with_data g (Ok (get_service_names_and_types parser (data g)))
  | OpNodes k => with_data g (Ok (node_exists parser (data g) k))
  | OpDrop a => Ok (set_data g (arc_drop (data g) a))
  end.
(** A failed operation leaves the graph as it is. *)
Fixpoint graph_run (g : Graph) (ops : list GraphOp) : res ZError Graph :=
  match ops with
  | [] => Ok g
  | op :: ops =>
      match graph_step g op with
      | Ok g => graph_run g ops
      | Err _ => graph_run g ops
      | Panic => Panic
      end
  end.

(** *** Specification: a map from tokens to entities *)

Definition spec_put (T : gmap string Entity) (ke : string) : gmap string Entity :=
  match T !! ke, parser ke with None, Some e => <[ke := e]> T | _, _ => T end.
Definition spec_step (zid : ZenohId) (T : gmap string Entity) (op : GraphOp) : gmap string Entity :=
  match op with
  | OpPut ke => spec_put T ke
  | OpDelete ke => delete ke T
  | OpReply ke =>
      match parser ke with
      | Some e => if bool_decide (z_id (entity_node e) = zid) then T else spec_put T ke
      | None => T
      end
  | OpAdd e => match entity_to_liveliness_ke e with Ok ke => <[ke := e]> T | _ => T end
  | OpRemove e => match entity_to_liveliness_ke e with Ok ke => delete ke T | _ => T end
  | _ => T
  end.
Definition spec_run (zid : ZenohId) (ops : list GraphOp) : gmap string Entity := foldl (spec_step zid) ∅ ops.
(** The tokens of the entities that are removed locally; and those tokens come
    from the network in the form that this code writes them: no other token
    stands for such an entity. *)
Definition removed (ops : list GraphOp) (ke : string) : Prop :=
  exists e, OpRemove e ∈ ops /\ entity_to_liveliness_ke e = Ok ke.
Definition canonical_op (R : string -> Prop) (op : GraphOp) : Prop :=
  match op with
  | OpPut ke | OpReply ke =>
      forall e ke', parser ke = Some e -> entity_to_liveliness_ke e = Ok ke' -> R ke' -> ke' = ke
  | _ => True
  end.
Definition canonical_ops (ops : list GraphOp) : Prop := Forall (canonical_op (removed ops)) ops.
(** The endpoints of a kind on a topic or service, and those of a node. *)
Definition on_topic (kind : EntityKind) (name : string) (e : Entity) : bool :=
  match e with
  | EEndpoint x => bool_decide (ep_kind x = kind) && String.eqb (ep_topic x) name
  | ENode _ => false
  end.
Definition of_node (kind : EntityKind) (k : NodeKey) (e : Entity) : bool :=
  bool_decide (entity_kind e = kind) && bool_decide (node_key (entity_node e) = k).
End Ops.

(** ** Lemmas *)

Section Lemmas.
Context `{ZA : ZenohApi} {SL : SlabApi} {SLL : SlabLaws} {HO : HashOrder} {HOL : HashOrderLaws}
  {ZD : EqDecision ZenohId}.
Variable parser : string -> option Entity.
Abbreviation tokens := (tokens parser).

Lemma trigger_not_err {E} em e b x : trigger_graph_change (E := E) em e b <> Err x.
Proof. unfold trigger_graph_change. destruct e as [n|x']; [done|]. by destruct (ep_kind x'). Qed.

Lemma put_data {E} g ke g' :
  fst <$> put_sample (E := E) parser g ke = Ok g' -> g' = set_data g (data_insert (data g) ke).
Proof.
  unfold put_sample. intros H.
  assert ((if decide (is_Some (parsed (data g) !! ke)) then g
           else if decide (ke ∈ cached (data g)) then g else set_data g (data_insert (data g) ke))
          = set_data g (data_insert (data g) ke)) as E0.
  { unfold data_insert. destruct g as [d em z]. cbn [data]. destruct (decide (is_Some _)); [done|].
    destruct (decide (ke ∈ cached d)) as [Hi|]; [|done]. unfold set_data, set_cached. cbn. f_equal.
    replace ({[ke]} ∪ cached d) with (cached d) by set_solver. by destruct d. }
  rewrite E0 in H. destruct (match parser ke with Some _ => _ | None => _ end); try discriminate H. by injection H as <-.
Qed.

Lemma delete_data {E} g ke g' :
  fst <$> delete_sample (E := E) parser g ke = Ok g' -> g' = set_data g (data_remove (data g) ke).
Proof.
  unfold delete_sample. intros H. destruct (match parser ke with Some _ => _ | None => _ end); try discriminate H.
  by injection H as <-.
Qed.

Lemma add_data_eq g e g' :
  fst <$> add_local_entity g e = Ok g' ->
  exists ke, entity_to_liveliness_ke e = Ok ke /\ g' = set_data g (add_data (data g) ke e).
Proof.
  unfold add_local_entity. intros H. destruct (entity_to_liveliness_ke e) as [ke|x|]; [|discriminate H..].
  exists ke. split; [done|]. cbn [mbind res_bind] in H.
  destruct (if bool_decide _ then _ else _); try discriminate H. by injection H as <-.
Qed.

Lemma remove_data_eq g e g' :
  fst <$> remove_local_entity g e = Ok g' ->
  exists ke, entity_to_liveliness_ke e = Ok ke /\
    g' = set_data g (remove_index (data_remove (data g) ke) ke e).
Proof.
  unfold remove_local_entity. intros H. destruct (entity_to_liveliness_ke e) as [ke|x|]; [|discriminate H..].
  exists ke. split; [done|]. cbn [mbind res_bind] in H.
  destruct (trigger_graph_change _ _ _); try discriminate H. by injection H as <-.
Qed.

(** An operation that fails changes nothing in the specification either. *)
Lemma step_err g op x zid T : graph_step parser g op = Err x -> spec_step parser zid T op = T.
Proof.
  intros H. destruct op as [ke|ke|ke|e|e|kind nm|kind t|kind t|kind k|k kind| | |k|a]; try done; cbn [graph_step] in H.
  - exfalso. unfold put_sample in H. destruct (parser ke) as [e|]; [|done].
    by destruct (trigger_graph_change _ e true) eqn:E; try done; apply trigger_not_err in E.
  - exfalso. unfold delete_sample in H. destruct (parser ke) as [e|]; [|done].
    by destruct (trigger_graph_change _ e false) eqn:E; try done; apply trigger_not_err in E.
  - unfold add_local_entity in H. cbn [spec_step]. destruct (entity_to_liveliness_ke e) as [ke| |]; [|done..].
    exfalso. cbn [mbind res_bind] in H. destruct (bool_decide _); [done|].
    by destruct (trigger_graph_change _ e true) eqn:E; try done; apply trigger_not_err in E.
  - unfold remove_local_entity in H. cbn [spec_step]. destruct (entity_to_liveliness_ke e) as [ke| |]; [|done..].
    exfalso. cbn [mbind res_bind] in H.
    by destruct (trigger_graph_change _ e false) eqn:E; try done; apply trigger_not_err in E.
Qed.

(** *** Queries leave the tokens *)

Lemma filter_perm {A} (q : A -> bool) l l' : l ≡ₚ l' -> List.filter q l ≡ₚ List.filter q l'.
Proof. induction 1; cbn; repeat (destruct (q _)); eauto using Permutation. Qed.

Lemma filter_twice {A} (p q r : A -> bool) l :
  (forall x, p x && q x = r x) -> List.filter q (List.filter p l) = List.filter r l.
Proof.
  intros H. induction l as [|x l IH]; [done|]. cbn. rewrite <- H. destruct (p x); cbn; [|done].
  destruct (q x); by rewrite IH.
Qed.

(** The entities of one kind among those visited. *)
Lemma of_kind_entities d kind l es :
  omap (fun a => heap d !! a) l ≡ₚ es ->
  omap (fun a => heap d !! a) (of_kind d kind l) ≡ₚ List.filter (fun e => bool_decide (entity_kind e = kind)) es /\
  length (of_kind d kind l) = length (omap (fun a => heap d !! a) (of_kind d kind l)).
Proof.
  intros Hp. assert (omap (fun a => heap d !! a) (of_kind d kind l) =
    List.filter (fun e => bool_decide (entity_kind e = kind)) (omap (fun a => heap d !! a) l)) as ->.
  { clear. unfold of_kind. induction l as [|a l IH]; [done|]. cbn. destruct (heap d !! a) as [e|] eqn:E; cbn; [|done].
    destruct (decide (entity_kind e = kind)) as [<-|Hne].
    - rewrite !bool_decide_eq_true_2 by done. cbn. rewrite E. by f_equal.
    - rewrite !bool_decide_eq_false_2 by congruence. done. }
  split; [by apply filter_perm|]. clear. unfold of_kind. induction l as [|a l IH]; [done|]. cbn.
  destruct (heap d !! a) as [e|] eqn:E; cbn; [|done].
  destruct (decide (entity_kind e = kind)) as [<-|Hne].
  - rewrite !bool_decide_eq_true_2 by done. cbn. by f_equal.
  - rewrite !bool_decide_eq_false_2 by congruence. done.
Qed.

Lemma topic_kind_filter kind t e :
  is_topic_kind kind = true -> topic_entry t e && bool_decide (entity_kind e = kind) = on_topic kind t e.
Proof.
  intros Hk. destruct e as [n|x]; [done|]. cbn. destruct (decide (ep_kind x = kind)) as [->|Hne].
  - rewrite Hk, bool_decide_eq_true_2 by done. cbn. by rewrite andb_true_r.
  - rewrite bool_decide_eq_false_2 by done. by rewrite andb_false_r.
Qed.

Lemma service_kind_filter kind t e :
  is_service_kind kind = true -> service_entry t e && bool_decide (entity_kind e = kind) = on_topic kind t e.
Proof.
  intros Hk. destruct e as [n|x]; [done|]. cbn. destruct (decide (ep_kind x = kind)) as [->|Hne].
  - rewrite Hk, bool_decide_eq_true_2 by done. cbn. by rewrite andb_true_r.
  - rewrite bool_decide_eq_false_2 by done. by rewrite andb_false_r.
Qed.

(** The entities that a query for a kind and a name sees. *)
Lemma topic_query d kind t d' l :
  graph_inv d -> visit_by_topic parser d t = (d', l) -> is_topic_kind kind = true -> no_stale d ->
  omap (fun a => heap d' !! a) (of_kind d' kind l) ≡ₚ List.filter (on_topic kind t) (known (tokens d)) /\
  length (of_kind d' kind l) = length (List.filter (on_topic kind t) (known (tokens d))).
Proof.
  intros Hd Hv Hk Hns. destruct (visit_by_topic_ok parser d t d' l Hd Hv) as [_ Hp].
  destruct (of_kind_entities d' kind l _ (Hp Hns)) as [H1 H2].
  rewrite (filter_twice _ _ (on_topic kind t)) in H1 by (intros; by apply topic_kind_filter).
  split; [done|]. by rewrite H2, H1.
Qed.

Lemma service_query d kind t d' l :
  graph_inv d -> visit_by_service parser d t = (d', l) -> is_service_kind kind = true -> no_stale d ->
  omap (fun a => heap d' !! a) (of_kind d' kind l) ≡ₚ List.filter (on_topic kind t) (known (tokens d)) /\
  length (of_kind d' kind l) = length (List.filter (on_topic kind t) (known (tokens d))).
Proof.
  intros Hd Hv Hk Hns. destruct (visit_by_service_ok parser d t d' l Hd Hv) as [_ Hp].
  destruct (of_kind_entities d' kind l _ (Hp Hns)) as [H1 H2].
  rewrite (filter_twice _ _ (on_topic kind t)) in H1 by (intros; by apply service_kind_filter).
  split; [done|]. by rewrite H2, H1.
Qed.

Lemma hold_same d l : graph_inv d -> graph_inv (hold d l) /\ tokens (hold d l) = tokens d.
Proof. intros Hd. split; [by apply (inv_shrink d (parsed d) (cached d) (held d ++ l))|done]. Qed.

(** The state after any query. *)
Lemma query_same g op g' :
  graph_inv (data g) -> graph_step parser g op = Ok g' ->
  match op with OpPut _ | OpDelete _ | OpReply _ | OpAdd _ | OpRemove _ => True
  | _ => graph_inv (data g') /\ tokens (data g') = tokens (data g) /\ graph_zid g' = graph_zid g end.
Proof.
  intros Hd H. destruct op as [ke|ke|ke|e|e|kind nm|kind t|kind t|kind k|k kind| | |k|a]; try done; cbn [graph_step] in H;
    unfold with_data in H.
  - destruct kind; cbn [count] in H; try discriminate H;
      [destruct (visit_by_topic parser (data g) nm) as [d l] eqn:Ev; pose proof (visit_by_topic_ok _ _ _ _ _ Hd Ev) as [(? & ? & _) _]
      |destruct (visit_by_topic parser (data g) nm) as [d l] eqn:Ev; pose proof (visit_by_topic_ok _ _ _ _ _ Hd Ev) as [(? & ? & _) _]
      |destruct (visit_by_service parser (data g) nm) as [d l] eqn:Ev; pose proof (visit_by_service_ok _ _ _ _ _ Hd Ev) as [(? & ? & _) _]
      |destruct (visit_by_service parser (data g) nm) as [d l] eqn:Ev; pose proof (visit_by_service_ok _ _ _ _ _ Hd Ev) as [(? & ? & _) _]];
      by injection H as <-.
  - destruct (visit_by_topic parser (data g) t) as [d l] eqn:Ev.
    pose proof (visit_by_topic_ok _ _ _ _ _ Hd Ev) as [(Hi & Ht & _) _].
    destruct kind; cbn [get_entities_by_topic] in H; rewrite ?Ev in H; try discriminate H; injection H as <-;
      (split; [by apply hold_same|done]).
  - unfold get_entities_by_service in H. destruct (is_service_kind kind); [|discriminate H].
    destruct (visit_by_service parser (data g) t) as [d l] eqn:Ev.
    pose proof (visit_by_service_ok _ _ _ _ _ Hd Ev) as [(Hi & Ht & _) _]. injection H as <-. split; [by apply hold_same|done].
  - destruct (visit_by_node parser (data g) k) as [d l] eqn:Ev.
    pose proof (visit_by_node_ok _ _ _ _ _ Hd Ev) as [(Hi & Ht & _) _].
    destruct kind; cbn [get_entities_by_node] in H; rewrite ?Ev in H; try discriminate H; by injection H as <-.
  - destruct (ensure_parsed_ok parser (data g) Hd) as [(Hi & Ht & _) _]. unfold get_names_and_types_by_node in H.
    destruct (visit_by_node parser (ensure_parsed parser (data g)) k) as [d l] eqn:Ev.
    pose proof (visit_by_node_ok _ _ _ _ _ Hi Ev) as [(Hi' & Ht' & _) _]. injection H as <-.
    split; [done|]. split; [by etrans|done].
  - destruct (ensure_parsed_ok parser (data g) Hd) as [(Hi & Ht & _) _]. pose proof Hi as (_ & _ & T1 & T2 & _).
    injection H as <-. cbn. destruct (inv_topic parser _ (slab_retain (alive (ensure_parsed parser (data g))) <$> by_topic (ensure_parsed parser (data g))) Hi)
      as (Hi' & Ht' & _); [by apply index_ok_fmap|apply indexed_fmap; [|done]; intros; by eapply alive_parsed|].
    split; [done|]. split; [by etrans|done].
  - destruct (ensure_parsed_ok parser (data g) Hd) as [(Hi & Ht & _) _]. pose proof Hi as (_ & _ & _ & _ & S1 & S2 & _).
    injection H as <-. cbn. destruct (inv_service parser _ (slab_retain (alive (ensure_parsed parser (data g))) <$> by_service (ensure_parsed parser (data g))) Hi)
      as (Hi' & Ht' & _); [by apply index_ok_fmap|apply indexed_fmap; [|done]; intros; by eapply alive_parsed|].
    split; [done|]. split; [by etrans|done].
  - destruct (ensure_parsed_ok parser (data g) Hd) as [(Hi & Ht & _) _]. by injection H as <-.
  - injection H as <-. split; [by apply (inv_shrink (data g) (parsed (data g)) (cached (data g)))|done].
Qed.

(** *** Every operation *)

Lemma spec_put_canonical R T ke :
  canonical_tokens R T -> (forall e ke', parser ke = Some e -> entity_to_liveliness_ke e = Ok ke' -> R ke' -> ke' = ke) ->
  canonical_tokens R (spec_put parser T ke).
Proof.
  intros HT Hke k e k'. unfold spec_put. destruct (T !! ke); [by apply HT|].
  destruct (parser ke) as [e0|] eqn:Ep; [|by apply HT].
  intros [[<- <-]|[_ Hk]]%lookup_insert_Some; [by apply Hke | by apply HT].
Qed.

Lemma canonical_step R zid T op :
  canonical_tokens R T -> canonical_op parser R op -> canonical_tokens R (spec_step parser zid T op).
Proof.
  intros HT Hop. destruct op as [ke|ke|ke|e|e|kind nm|kind t|kind t|kind k|k kind| | |k|a]; try done; cbn [spec_step].
  - by apply spec_put_canonical.
  - intros k e k'. intros [_ H]%lookup_delete_Some. by apply HT.
  - destruct (parser ke) eqn:Ep; [|done]. case_bool_decide; [done|]. apply spec_put_canonical; [done|].
    cbn in Hop. by rewrite Ep in *.
  - destruct (entity_to_liveliness_ke e) as [ke| |] eqn:Ee; [|done..].
    intros k e' k'. intros [[<- <-]|[_ Hk]]%lookup_insert_Some Hk'; [congruence|by eapply HT].
  - destruct (entity_to_liveliness_ke e) as [ke| |] eqn:Ee; [|done..].
    intros k e' k'. intros [_ H]%lookup_delete_Some. by apply HT.
Qed.

Definition removes_in (R : string -> Prop) (op : GraphOp) : Prop :=
  forall e ke, op = OpRemove e -> entity_to_liveliness_ke e = Ok ke -> R ke.

Lemma step_refines R g op g' :
  graph_inv (data g) -> canonical_tokens R (tokens (data g)) -> removes_in R op -> graph_step parser g op = Ok g' ->
  graph_inv (data g') /\ tokens (data g') = spec_step parser (graph_zid g) (tokens (data g)) op /\
  graph_zid g' = graph_zid g.
Proof.
  intros Hd Hc HR H. pose proof (query_same g op g' Hd H) as Hq.
  destruct op as [ke|ke|ke|e|e|kind nm|kind t|kind t|kind k|k kind| | |k|a]; try exact Hq; cbn [graph_step] in H; clear Hq.
  - apply put_data in H as ->. destruct (data_insert_ok parser (data g) ke Hd) as (H1 & _ & H2). by split_and!.
  - apply delete_data in H as ->. destruct (data_remove_ok parser (data g) ke Hd) as (H1 & H2). by split_and!.
  - injection H as <-. unfold query_reply. cbn [spec_step]. destruct (parser ke) as [e|]; [|done].
    destruct (data_insert_ok parser (data g) ke Hd) as (H1 & _ & H2). unfold is_entity_local.
    replace (match e with ENode node => bool_decide (z_id node = graph_zid g) | EEndpoint endpoint =>
      bool_decide (z_id (ep_node endpoint) = graph_zid g) end) with (bool_decide (z_id (entity_node e) = graph_zid g))
      by (by destruct e). by case_bool_decide.
  - apply add_data_eq in H as (ke & Hke & ->). cbn [spec_step]. rewrite Hke.
    destruct (add_data_ok parser (data g) ke e Hd) as (H1 & H2). by split_and!.
  - apply remove_data_eq in H as (ke & Hke & ->). cbn [spec_step]. rewrite Hke.
    destruct (data_remove_ok parser (data g) ke Hd) as (H1 & H2).
    destruct (remove_index_ok parser R (data_remove (data g) ke) ke e) as (G1 & G2 & _); [done| |by eapply HR|..].
    + rewrite H2. intros k e' k'. intros [_ Hk]%lookup_delete_Some. by apply Hc.
    + rewrite H2. apply lookup_delete_eq.
    + split_and!; [done| |done]. cbn. by rewrite G2.
Qed.

Lemma run_refines R g ops g' :
  graph_inv (data g) -> canonical_tokens R (tokens (data g)) -> Forall (canonical_op parser R) ops ->
  Forall (removes_in R) ops -> graph_run parser g ops = Ok g' ->
  graph_inv (data g') /\ tokens (data g') = foldl (spec_step parser (graph_zid g)) (tokens (data g)) ops /\
  graph_zid g' = graph_zid g.
Proof.
  intros Hd Hc Hops. revert g Hd Hc. induction Hops as [|op ops Hop _ IH]; intros g Hd Hc HR H; cbn [graph_run foldl] in *.
  { by injection H as <-. }
  apply Forall_cons in HR as [HR1 HR2]. destruct (graph_step parser g op) as [g1|x|] eqn:E; [| |discriminate H].
  - destruct (step_refines R g op g1 Hd Hc HR1 E) as (H1 & H2 & H3). rewrite <- H2, <- H3. apply IH; [done| |done|done].
    rewrite H2. by apply canonical_step.
  - rewrite (step_err g op x) by done. by apply IH.
Qed.
End Lemmas.

(** *** Listings *)

Section Listings.
Context `{ZA : ZenohApi} {SL : SlabApi} {SLL : SlabLaws} {HO : HashOrder} {HOL : HashOrderLaws}
  {ZD : EqDecision ZenohId}.
Variable parser : string -> option Entity.
Abbreviation tokens := (tokens parser).

(** Pairs in the order of a [BTreeSet]. *)
Definition pair_le : string * string -> string * string -> Prop := lex_le fst (key_le snd).

Lemma sort_pairs_perm l : sort_pairs l ≡ₚ l.
Proof. unfold sort_pairs. by rewrite !sort_by_perm. Qed.

Lemma sort_pairs_sorted l : StronglySorted pair_le (sort_pairs l).
Proof. apply sort_by_stable, sort_by_sorted. Qed.

Lemma first_type_spec wanted es :
  match first_type wanted es with
  | Some ty => exists enp ti, EEndpoint enp ∈ es /\ wanted enp = true /\ ep_type_info enp = Some ti /\ ti_name ti = ty
  | None => forall enp, EEndpoint enp ∈ es -> wanted enp = true -> ep_type_info enp = None
  end.
Proof.
  unfold first_type. set (f := fun (found_type : option string) ent => _).
  assert (forall es ty, foldl f (Some ty) es = Some ty) as Hsome.
  { clear. induction es as [|e es IH]; intros ty; [done|]. apply IH. }
  induction es as [|e es IH]; cbn [foldl]; [by intros enp ?%elem_of_nil|].
  unfold f at 2. destruct e as [n|x]; cbn [entity_get_endpoint].
  - destruct (foldl f None es) as [ty|].
    + destruct IH as (enp & ti & Hin & H). exists enp, ti. split; [by right|done].
    + intros enp [He|He]%elem_of_cons Hw; [discriminate He | by apply IH].
  - destruct (wanted x) eqn:Ew; [destruct (ep_type_info x) as [ti|] eqn:Et; cbn|].
    + rewrite Hsome. exists x, ti. split; [by left|done].
    + destruct (foldl f None es) as [ty|].
      * destruct IH as (enp & ti & Hin & H). exists enp, ti. split; [by right|done].
      * intros enp [[= ->]|He]%elem_of_cons Hw; [done | by apply IH].
    + destruct (foldl f None es) as [ty|].
      * destruct IH as (enp & ti & Hin & H). exists enp, ti. split; [by right|done].
      * intros enp [[= ->]|He]%elem_of_cons Hw; [congruence | by apply IH].
Qed.

Lemma live_entities_visited d s k (m : gmap string Slab) :
  m !! k = Some s -> live_entities d s = omap (fun a => heap d !! a) (visited d m k).
Proof. intros H. unfold live_entities, visited. by rewrite H. Qed.

Lemma known_elem (T : gmap string Entity) e : e ∈ known T <-> exists ke, T !! ke = Some e.
Proof.
  unfold known. rewrite list_elem_of_fmap. split.
  - intros ([ke e'] & -> & H%elem_of_map_to_list). by exists ke.
  - intros [ke H]. exists (ke, e). split; [done|]. by apply elem_of_map_to_list.
Qed.

(** The listing of an index of names. *)
Lemma names_and_types_spec d wanted (m : gmap string Slab) entry :
  graph_inv d -> no_stale d -> index_ok entry (heap d) m -> indexed entry (heap d) (parsed d) m ->
  (forall t x, wanted x = true -> entry t (EEndpoint x) = String.eqb (ep_topic x) t) ->
  let l := names_and_types d wanted m in
  NoDup (map fst l) /\
  (forall name ty, (name, ty) ∈ l -> exists x ti, EEndpoint x ∈ known (parsed_tokens d) /\
     wanted x = true /\ ep_topic x = name /\ ep_type_info x = Some ti /\ ti_name ti = ty) /\
  (forall x ti, EEndpoint x ∈ known (parsed_tokens d) -> wanted x = true -> ep_type_info x = Some ti ->
     exists ty, (ep_topic x, ty) ∈ l).
Proof.
  intros Hd Hns Hok Hix Hw l. unfold l, names_and_types. split_and!.
  - assert (forall q : list (string * Slab), NoDup (map fst q) ->
      NoDup (map fst (omap (fun '(name, s) => pair name <$> first_type wanted (live_entities d s)) q)) /\
      forall n, n ∈ map fst (omap (fun '(name, s) => pair name <$> first_type wanted (live_entities d s)) q) ->
        n ∈ map fst q) as Hq.
    { induction q as [|[n s] q IH]; intros Hn; [split; [constructor|done]|]. cbn in Hn. apply NoDup_cons in Hn as [Hn1 Hn2].
      destruct (IH Hn2) as [I1 I2]. cbn. destruct (first_type wanted (live_entities d s)); cbn.
      - split; [constructor; [|done]; intros Hi; by apply Hn1, I2|].
        intros n' [->|Hn']%elem_of_cons; [by left|right; by apply I2].
      - split; [done|]. intros n' Hn'. right. by apply I2. }
    apply Hq. rewrite (map_order_perm _ m). apply NoDup_fst_map_to_list.
  - intros name ty ([name' s] & Hin & Hf)%list_elem_of_omap. rewrite map_order_perm, elem_of_map_to_list in Hin.
    pose proof (first_type_spec wanted (live_entities d s)) as Hspec.
    destruct (first_type wanted (live_entities d s)) as [ty'|]; [|done]. cbn in Hf. injection Hf as <- <-.
    destruct Hspec as (x & ti & Hx & Hwx & Hti & <-). exists x, ti.
    rewrite (live_entities_visited d s name' m Hin), (visited_known entry d m name' Hd Hns Hok Hix) in Hx.
    apply filter_elem in Hx as [Hx He]. rewrite Hw in He by done. apply String.eqb_eq in He. by split_and!.
  - intros x ti Hx Hwx Hti.
    assert (EEndpoint x ∈ List.filter (entry (ep_topic x)) (known (parsed_tokens d))) as Hf.
    { apply filter_elem. split; [done|]. rewrite Hw by done. apply String.eqb_refl. }
    rewrite <- (visited_known entry d m (ep_topic x) Hd Hns Hok Hix) in Hf.
    destruct (m !! ep_topic x) as [s|] eqn:Es; [|unfold visited in Hf; rewrite Es in Hf; by apply elem_of_nil in Hf].
    rewrite <- (live_entities_visited d s _ m Es) in Hf.
    pose proof (first_type_spec wanted (live_entities d s)) as Hspec.
    destruct (first_type wanted (live_entities d s)) as [ty|] eqn:Ef.
    + exists ty. apply list_elem_of_omap. exists (ep_topic x, s). rewrite Ef. split; [|done].
      by rewrite map_order_perm, elem_of_map_to_list.
    + rewrite (Hspec x Hf Hwx) in Hti. done.
Qed.

Lemma endpoints_elem d l x : x ∈ endpoints d l <-> EEndpoint x ∈ omap (fun a => heap d !! a) l.
Proof.
  unfold endpoints. rewrite !list_elem_of_omap. split; intros (a & Ha & H); exists a; (split; [done|]).
  - destruct (heap d !! a) as [[n|y]|]; cbn in H; naive_solver.
  - by rewrite H.
Qed.

(** *** Nodes are never forgotten *)

Lemma dom_add_to {K} `{Countable K} live (k : K) a (m : gmap K Slab) : dom m ⊆ dom (add_to live k a m).
Proof. unfold add_to. set_solver. Qed.

Lemma node_keys_add d e a : dom (by_node d) ⊆ dom (by_node (add_index d e a)).
Proof. rewrite add_index_parts. apply dom_add_to. Qed.

Lemma node_keys_parse d : dom (by_node d) ⊆ dom (by_node (ensure_parsed parser d)).
Proof.
  unfold ensure_parsed, parse. destruct (decide _); [done|].
  assert (forall l d, dom (by_node d) ⊆ dom (by_node (foldl (parse_one parser) d l))) as Hl.
  { induction l as [|ke l IH]; intros d0; [done|]. cbn [foldl]. etrans; [|apply IH].
    unfold parse_one. destruct (decide _); [done|]. destruct (parser ke) as [e|]; [|done].
    apply (node_keys_add (arc_new d0 e)). }
  apply (Hl _ (set_cached d ∅)).
Qed.

Lemma node_keys_step g op g' :
  graph_step parser g op = Ok g' -> dom (by_node (data g)) ⊆ dom (by_node (data g')).
Proof.
  pose proof (node_keys_parse (data g)) as Hp.
  intros H. destruct op as [ke|ke|ke|e|e|kind nm|kind t|kind t|kind k|k kind| | |k|a]; cbn [graph_step] in H; unfold with_data in H.
  - apply put_data in H as ->. cbn. unfold data_insert. by destruct (decide _).
  - by apply delete_data in H as ->.
  - injection H as <-. unfold query_reply. destruct (parser ke); [|done]. destruct (is_entity_local _ _); [done|].
    cbn. unfold data_insert. by destruct (decide _).
  - apply add_data_eq in H as (ke & _ & ->). cbn. apply (node_keys_add (set_parsed (arc_new (data g) e) _)).
  - apply remove_data_eq in H as (ke & _ & ->). cbn. destruct e as [n|x]; cbn; [by rewrite dom_alter|].
    destruct (is_topic_kind (ep_kind x)), (is_service_kind (ep_kind x)); cbn; by rewrite dom_alter.
  - destruct kind; cbn [count] in H; try discriminate H; unfold visit_by_topic, visit_by_service in H;
      rewrite visit_slab_alter in H; by injection H as <-.
  - destruct kind; cbn [get_entities_by_topic] in H; try discriminate H; unfold visit_by_topic in H;
      rewrite visit_slab_alter in H; by injection H as <-.
  - unfold get_entities_by_service, visit_by_service in H. destruct (is_service_kind kind); [|discriminate H].
    rewrite visit_slab_alter in H. by injection H as <-.
  - destruct kind; cbn [get_entities_by_node] in H; try discriminate H; unfold visit_by_node in H;
      rewrite visit_slab_alter in H; injection H as <-; cbn; by rewrite dom_alter.
  - unfold get_names_and_types_by_node, visit_by_node in H. rewrite visit_slab_alter in H. injection H as <-. cbn.
    rewrite dom_alter. etrans; [exact Hp|]. apply node_keys_parse.
  - by injection H as <-.
  - by injection H as <-.
  - by injection H as <-.
  - by injection H as <-.
Qed.

Lemma node_keys_run g ops g' :
  graph_run parser g ops = Ok g' -> dom (by_node (data g)) ⊆ dom (by_node (data g')).
Proof.
  revert g. induction ops as [|op ops IH]; intros g H; cbn [graph_run] in H; [by injection H as <-|].
  destruct (graph_step parser g op) as [g1|x|] eqn:E; [|by apply IH|discriminate H].
  etrans; [by eapply node_keys_step | by apply IH].
Qed.
End Listings.

(** *** Operations that return *)

Section Safe.
Context `{ZA : ZenohApi} {SL : SlabApi} {SLL : SlabLaws} {HO : HashOrder} {HOL : HashOrderLaws}
  {ZD : EqDecision ZenohId}.
Variable parser : string -> option Entity.

(** An endpoint is not of kind node, and a query asks for a kind it serves. *)
Definition well_kinded (e : Entity) : Prop := match e with EEndpoint x => ep_kind x <> KNode | ENode _ => True end.
Definition safe_op (op : GraphOp) : Prop :=
  match op with
  | OpPut ke | OpDelete ke => forall e, parser ke = Some e -> well_kinded e
  | OpAdd e | OpRemove e => well_kinded e /\ no_panic (entity_to_liveliness_ke e)
  | OpCount kind _ | OpByTopic kind _ | OpByNode kind _ => kind <> KNode
  | OpByService kind _ => is_service_kind kind = true
  | _ => True
  end.

Lemma trigger_returns {E} em e b : well_kinded e -> exists n, trigger_graph_change (E := E) em e b = Ok n.
Proof.
  intros He. unfold trigger_graph_change. destruct e as [n|x]; [by eexists|]. cbn in He.
  destruct (ep_kind x); [done|by eexists..].
Qed.

Lemma step_returns g op : safe_op op -> no_panic (graph_step parser g op).
Proof.
  intros Hs. destruct op as [ke|ke|ke|e|e|kind nm|kind t|kind t|kind k|k kind| | |k|a]; cbn [graph_step safe_op] in *; try done.
  - unfold put_sample. destruct (parser ke) as [e|]; [|done]. by destruct (trigger_returns (E := ZError)
      (event_manager (if decide (is_Some (parsed (data g) !! ke)) then g else if decide (ke ∈ cached (data g)) then g
        else set_data g (data_insert (data g) ke))) e true (Hs e eq_refl)) as [n ->].
  - unfold delete_sample. destruct (parser ke) as [e|]; [|done].
    by destruct (trigger_returns (E := ZError) (event_manager g) e false (Hs e eq_refl)) as [n ->].
  - destruct Hs as [Hw Hp]. unfold add_local_entity. destruct (entity_to_liveliness_ke e); [|done..]. cbn [mbind res_bind].
    destruct (bool_decide _); [done|]. by destruct (trigger_returns (E := ZError) (event_manager g) e true Hw) as [n ->].
  - destruct Hs as [Hw Hp]. unfold remove_local_entity. destruct (entity_to_liveliness_ke e); [|done..]. cbn [mbind res_bind].
    by destruct (trigger_returns (E := ZError) (event_manager g) e false Hw) as [n ->].
  - destruct kind; try done; cbn [count]; [destruct (visit_by_topic _ _ _)|destruct (visit_by_topic _ _ _)
      |destruct (visit_by_service _ _ _)|destruct (visit_by_service _ _ _)]; done.
  - destruct kind; try done; cbn [get_entities_by_topic]; by destruct (visit_by_topic _ _ _).
  - unfold get_entities_by_service. rewrite Hs. by destruct (visit_by_service _ _ _).
  - destruct kind; try done; cbn [get_entities_by_node]; by destruct (visit_by_node _ _ _).
  - by destruct (get_names_and_types_by_node _ _ _ _).
Qed.

Lemma run_returns g ops : Forall safe_op ops -> exists g', graph_run parser g ops = Ok g'.
Proof.
  intros H. revert g. induction H as [|op ops Hop _ IH]; intros g; [by eexists|]. cbn [graph_run].
  pose proof (step_returns g op Hop) as Hs. destruct (graph_step parser g op); [apply IH|apply IH|done].
Qed.

Lemma new_run em zid ops g :
  canonical_ops parser ops -> graph_run parser (graph_new em zid) ops = Ok g ->
  graph_inv (data g) /\ tokens parser (data g) = spec_run parser zid ops.
Proof.
  intros Hc H. destruct (data_new_ok parser) as (H1 & H2 & _).
  destruct (run_refines parser (removed ops) (graph_new em zid) ops g) as (G1 & G2 & _);
    change (data (graph_new em zid)) with data_new in *; [done| |exact Hc| |done|].
  - rewrite H2. intros ke e ke' Hke. by rewrite lookup_empty in Hke.
  - apply Forall_forall. intros op Hop e ke -> Hke. by exists e.
  - split; [done|]. rewrite G2. change (graph_zid (graph_new em zid)) with zid. by rewrite H2.
Qed.

(** ** Properties *)

(** C21 The graph cache refines a map from liveliness tokens to entities: a
    sequence of token appearances and disappearances, local additions and
    removals and queries returns, keeps the invariant of the indexes, and leaves
    exactly the tokens that the same steps leave in the map: a token that
    appears is added once, however often it is seen and whenever it is parsed.
    This for sequences in which no endpoint is of the kind of a node and every
    query asks for a kind it serves (the code panics on others), the token of a
    local entity is formed without a panic, and no token from the network, other
    than the one this code writes, stands for an entity that is removed locally
    (such a token would lose its place in the indexes). *)
Theorem graph_refines_token_map em zid ops :
  canonical_ops parser ops -> Forall safe_op ops ->
  exists g, graph_run parser (graph_new em zid) ops = Ok g /\ graph_inv (data g) /\
    tokens parser (data g) = spec_run parser zid ops.
Proof.
  intros Hc Hs. destruct (run_returns (graph_new em zid) ops Hs) as [g Hg]. exists g. split; [done|].
  by eapply new_run.
Qed.

(** C26 Counting and finding endpoints, after any operations in which no token
    from the network, other than the one this code writes, stands for an entity
    that is removed locally: while no caller keeps an entity that has left, the
    count of a kind of endpoint on a topic or service is the number of such
    endpoints among the known tokens, and the entities found are those. *)
Theorem graph_counts_endpoints {E} em zid ops g kind name :
  canonical_ops parser ops -> graph_run parser (graph_new em zid) ops = Ok g ->
  no_stale (data g) -> kind <> KNode ->
  let found := List.filter (on_topic kind name) (known (spec_run parser zid ops)) in
  (exists d, count (E := E) parser (data g) kind name = Ok (d, length found)) /\
  exists d l, (if is_topic_kind kind then get_entities_by_topic (E := E) parser (data g) kind name
               else get_entities_by_service parser (data g) kind name) = Ok (d, l) /\
    omap (fun a => heap d !! a) l ≡ₚ found.
Proof.
  intros Hc Hr Hns Hk found. destruct (new_run em zid ops g Hc Hr) as [Hi Ht]. unfold found. rewrite <- Ht.
  destruct (is_topic_kind kind) eqn:Et.
  - destruct (visit_by_topic parser (data g) name) as [d l] eqn:Ev.
    destruct (topic_query parser (data g) kind name d l Hi Ev Et Hns) as [H1 H2]. rewrite <- H2. split.
    + exists d. destruct kind; try done; cbn [count]; by rewrite Ev.
    + exists (hold d (of_kind d kind l)), (of_kind d kind l). split; [|exact H1].
      destruct kind; try done; cbn [get_entities_by_topic]; by rewrite Ev.
  - assert (is_service_kind kind = true) as Es by (by destruct kind).
    destruct (visit_by_service parser (data g) name) as [d l] eqn:Ev.
    destruct (service_query parser (data g) kind name d l Hi Ev Es Hns) as [H1 H2]. rewrite <- H2. split.
    + exists d. destruct kind; try done; cbn [count]; by rewrite Ev.
    + exists (hold d (of_kind d kind l)), (of_kind d kind l). split; [|exact H1].
      unfold get_entities_by_service. by rewrite Es, Ev.
Qed.

(** The listing of topics: no topic is listed twice, a listed topic has the type
    of some known publisher or subscription on it, and every topic on which a
    known publisher or subscription has a type is listed. *)
Theorem graph_lists_topics em zid ops g d l :
  canonical_ops parser ops -> graph_run parser (graph_new em zid) ops = Ok g ->
  no_stale (data g) -> get_topic_names_and_types parser (data g) = (d, l) ->
  let eps := known (spec_run parser zid ops) in
  NoDup (map fst l) /\
  (forall name ty, (name, ty) ∈ l -> exists x ti, EEndpoint x ∈ eps /\ is_topic_kind (ep_kind x) = true /\
     ep_topic x = name /\ ep_type_info x = Some ti /\ ti_name ti = ty) /\
  (forall x ti, EEndpoint x ∈ eps -> is_topic_kind (ep_kind x) = true -> ep_type_info x = Some ti ->
     exists ty, (ep_topic x, ty) ∈ l).
Proof.
  intros Hc Hr Hns Hl eps. destruct (new_run em zid ops g Hc Hr) as [Hi Ht]. unfold eps. rewrite <- Ht.
  destruct (ensure_parsed_ok parser (data g) Hi) as [(Hi' & Ht' & Hns') Hcd]. injection Hl as _ <-.
  rewrite <- Ht', (tokens_parsed parser _ Hcd). pose proof Hi' as (_ & _ & T1 & T2 & _).
  apply (names_and_types_spec _ (fun enp => is_topic_kind (ep_kind enp)) _ topic_entry); [done|by apply Hns'|done|done|].
  intros t x Hx. cbn. by rewrite Hx.
Qed.

(** The topics and types of a node, for one kind of endpoint: the pairs are
    those of the node's known endpoints of that kind that have a type, each
    once, in the order of topic and then type. *)
Lemma types_by_node_inv d0 k kind d l :
  graph_inv d0 -> no_stale d0 -> get_names_and_types_by_node parser d0 k kind = (d, l) ->
  NoDup l /\ StronglySorted pair_le l /\
  forall topic ty, (topic, ty) ∈ l <->
    exists x ti, EEndpoint x ∈ known (tokens parser d0) /\ node_key (ep_node x) = k /\ ep_kind x = kind /\
      ep_topic x = topic /\ ep_type_info x = Some ti /\ ti_name ti = ty.
Proof.
  intros Hi Hns Hl. destruct (ensure_parsed_ok parser d0 Hi) as [(Hi' & Ht' & Hns') _]. rewrite <- Ht'.
  unfold get_names_and_types_by_node in Hl.
  destruct (visit_by_node parser (ensure_parsed parser d0) k) as [d' v] eqn:Ev. injection Hl as <- <-.
  destruct (visit_by_node_ok parser _ _ _ _ Hi' Ev) as [_ Hp]. specialize (Hp (Hns' Hns)).
  split_and!; [rewrite sort_pairs_perm; apply NoDup_remove_dups | apply sort_pairs_sorted|].
  intros topic ty. rewrite sort_pairs_perm, elem_of_remove_dups, list_elem_of_omap.
  assert (forall x, EEndpoint x ∈ known (tokens parser (ensure_parsed parser d0)) /\ node_key (ep_node x) = k <->
    x ∈ endpoints d' v) as Hx.
  { intros x. rewrite endpoints_elem, Hp, filter_elem. cbn. unfold node_entry. by rewrite bool_decide_eq_true. }
  split.
  - intros (x & Hin & H). destruct (decide (ep_kind x = kind)); [|done].
    destruct (ep_type_info x) as [ti|] eqn:Eti; [|done]. injection H as <- <-. apply Hx in Hin as [H1 H2].
    by exists x, ti.
  - intros (x & ti & H1 & H2 & H3 & <- & H5 & <-). exists x. split; [by apply Hx|].
    by rewrite decide_True, H5 by done.
Qed.
Theorem graph_types_by_node em zid ops g k kind d l :
  canonical_ops parser ops -> graph_run parser (graph_new em zid) ops = Ok g ->
  no_stale (data g) -> get_names_and_types_by_node parser (data g) k kind = (d, l) ->
  NoDup l /\ StronglySorted pair_le l /\
  forall topic ty, (topic, ty) ∈ l <->
    exists x ti, EEndpoint x ∈ known (spec_run parser zid ops) /\ node_key (ep_node x) = k /\ ep_kind x = kind /\
      ep_topic x = topic /\ ep_type_info x = Some ti /\ ti_name ti = ty.
Proof.
  intros Hc Hr Hns Hl. destruct (new_run em zid ops g Hc Hr) as [Hi Ht]. rewrite <- Ht. by eapply types_by_node_inv.
Qed.

(** Nodes are never forgotten: a node that was reported to exist is reported to
    exist after any further operations, though all its tokens may have gone. *)
Theorem node_exists_forever g g' ops k d d' b :
  node_exists parser (data g) k = (d, true) -> graph_run parser (set_data g d) ops = Ok g' ->
  node_exists parser (data g') k = (d', b) -> b = true.
Proof.
  intros H1 Hr H2. injection H1 as Hd Hb%bool_decide_eq_true. injection H2 as _ <-.
  apply bool_decide_eq_true, elem_of_dom. apply node_keys_parse. apply (node_keys_run parser _ _ _ Hr).
  cbn. rewrite <- Hd. by apply elem_of_dom.
Qed.
End Safe.

(** ** Examples *)

(** Slabs as lists, tables in the order of their keys. *)
Definition ex_slab : SlabApi := {|
  Slab := nat * list nat;
  slab_with_capacity n := (n, []);
  slab_len s := length s.2;
  slab_capacity s := Nat.max s.1 (length s.2);
  slab_iter := snd;
  slab_insert a s := (s.1, (s.2 ++ [a])%list);
  slab_retain f s := (s.1, List.filter f s.2);
|}.
Lemma ex_slab_laws : @SlabLaws ex_slab.
Proof. split; [done| |done]. intros a [n s]. cbn. by rewrite <- Permutation_cons_append. Qed.
Definition ex_order : HashOrder := {|
  set_order s := elements s;
  map_order V m := map_to_list m;
  node_order V m := map_to_list m;
|}.
Lemma ex_order_laws : @HashOrderLaws ex_order.
Proof. by split. Qed.
Definition ex_zid_dec : EqDecision (@ZenohId ex_zenoh) := N.eq_dec.
#[local] Existing Instances ex_zenoh ex_slab ex_slab_laws ex_order ex_order_laws ex_zid_dec.

Definition ex_parser (ke : string) : option Entity :=
  match format_parse_liveliness KeyExprFormat_default ke with Ok e => Some e | _ => None end.
Definition ex_entity : Entity := EEndpoint RmwZenoh.ex_endpoint.
Definition ex_ke : string := match entity_to_liveliness_ke ex_entity with Ok ke => ke | _ => "" end.
(** A publisher of this session, and its token. *)
Definition ex_gops : list GraphOp := [OpAdd ex_entity; OpPut ex_ke; OpPut "other"; OpTopics].
Definition ex_zid : @ZenohId ex_zenoh := 42%N.
Definition ex_graph : Graph :=
  match graph_run ex_parser (graph_new graph_events_new ex_zid) ex_gops with
  | Ok g => g
  | _ => graph_new graph_events_new ex_zid
  end.

Lemma ex_parser_ke : ex_parser ex_ke = Some ex_entity /\ entity_to_liveliness_ke ex_entity = Ok ex_ke.
Proof. by vm_compute. Qed.

Lemma ex_canonical_ops : canonical_ops ex_parser ex_gops.
Proof.
  destruct ex_parser_ke as [H1 H2]. constructor; [done|]. constructor; [|constructor; [|by repeat constructor]].
  - intros e ke'. rewrite H1. intros [= <-]. rewrite H2. by intros [= <-].
  - intros e ke' H. vm_compute in H. discriminate H.
Qed.

Lemma ex_safe_ops : Forall (safe_op ex_parser) ex_gops.
Proof.
  destruct ex_parser_ke as [H1 H2]. constructor; [split; [done|]; unfold no_panic; by rewrite H2|].
  constructor; [|constructor; [|by repeat constructor]].
  - intros e. rewrite H1. by intros [= <-].
  - intros e H. vm_compute in H. discriminate H.
Qed.

Lemma ex_graph_run : graph_run ex_parser (graph_new graph_events_new ex_zid) ex_gops = Ok ex_graph.
Proof.
  destruct (run_returns ex_parser (graph_new graph_events_new ex_zid) ex_gops ex_safe_ops) as [g Hg].
  unfold ex_graph. by rewrite Hg.
Qed.

Lemma ex_graph_held : no_stale (data ex_graph).
Proof. intros a Ha. vm_compute in Ha. by apply elem_of_nil in Ha. Qed.

Lemma graph_refines_token_map_witness :
  exists g, graph_run ex_parser (graph_new graph_events_new ex_zid) ex_gops = Ok g /\ graph_inv (data g) /\
    tokens ex_parser (data g) = spec_run ex_parser ex_zid ex_gops.
Proof. exact (graph_refines_token_map ex_parser graph_events_new ex_zid ex_gops ex_canonical_ops ex_safe_ops). Defined.

Lemma graph_counts_endpoints_witness :
  let found := List.filter (on_topic KPublisher "/ns/chatter") (known (spec_run ex_parser ex_zid ex_gops)) in
  found = [ex_entity] /\
  (exists d, count (E := unit) ex_parser (data ex_graph) KPublisher "/ns/chatter" = Ok (d, length found)) /\
  exists d l, get_entities_by_topic (E := unit) ex_parser (data ex_graph) KPublisher "/ns/chatter" = Ok (d, l) /\
    omap (fun a => heap d !! a) l ≡ₚ found.
Proof.
  split; [by vm_compute|].
  exact (graph_counts_endpoints (E := unit) ex_parser graph_events_new ex_zid ex_gops ex_graph KPublisher "/ns/chatter"
    ex_canonical_ops ex_graph_run ex_graph_held ltac:(discriminate)).
Defined.

Lemma graph_lists_topics_witness :
  let l := (get_topic_names_and_types ex_parser (data ex_graph)).2 in
  let eps := known (spec_run ex_parser ex_zid ex_gops) in
  NoDup (map fst l) /\
  (forall name ty, (name, ty) ∈ l -> exists x ti, EEndpoint x ∈ eps /\ is_topic_kind (ep_kind x) = true /\
     ep_topic x = name /\ ep_type_info x = Some ti /\ ti_name ti = ty) /\
  (forall x ti, EEndpoint x ∈ eps -> is_topic_kind (ep_kind x) = true -> ep_type_info x = Some ti ->
     exists ty, (ep_topic x, ty) ∈ l).
Proof.
  exact (graph_lists_topics ex_parser graph_events_new ex_zid ex_gops ex_graph _ _
    ex_canonical_ops ex_graph_run ex_graph_held (surjective_pairing _)).
Defined.

Lemma graph_types_by_node_witness :
  let l := (get_names_and_types_by_node ex_parser (data ex_graph) ("/ns", "talker") KPublisher).2 in
  NoDup l /\ StronglySorted pair_le l /\
  forall topic ty, (topic, ty) ∈ l <->
    exists x ti, EEndpoint x ∈ known (spec_run ex_parser ex_zid ex_gops) /\ node_key (ep_node x) = ("/ns", "talker") /\
      ep_kind x = KPublisher /\ ep_topic x = topic /\ ep_type_info x = Some ti /\ ti_name ti = ty.
Proof.
  exact (graph_types_by_node ex_parser graph_events_new ex_zid ex_gops ex_graph ("/ns", "talker") KPublisher _ _
    ex_canonical_ops ex_graph_run ex_graph_held (surjective_pairing _)).
Defined.

(** The publisher leaves after its node was asked for. *)
Definition ex_asked : GraphData := (node_exists ex_parser (data ex_graph) ("/ns", "talker")).1.
Definition ex_gone : Graph :=
  match graph_run ex_parser (set_data ex_graph ex_asked) [OpRemove ex_entity] with Ok g => g | _ => ex_graph end.

Lemma pair_unfold {A B} (p : A * B) a b : a = p.1 -> p.2 = b -> p = (a, b).
Proof. destruct p. cbn. by intros -> ->. Qed.

Lemma ex_node_asked : node_exists ex_parser (data ex_graph) ("/ns", "talker") = (ex_asked, true).
Proof. apply pair_unfold; [reflexivity|by vm_compute]. Qed.

Lemma ex_gone_run : graph_run ex_parser (set_data ex_graph ex_asked) [OpRemove ex_entity] = Ok ex_gone.
Proof.
  destruct (run_returns ex_parser (set_data ex_graph ex_asked) [OpRemove ex_entity]) as [g Hg]; [by repeat constructor|].
  unfold ex_gone. by rewrite Hg.
Qed.

Lemma node_exists_forever_witness :
  spec_run ex_parser ex_zid (ex_gops ++ [OpRemove ex_entity]) = ∅ /\
  (node_exists ex_parser (data ex_gone) ("/ns", "talker")).2 = true.
Proof.
  split; [vm_compute; reflexivity|].
  exact (node_exists_forever ex_parser ex_graph ex_gone [OpRemove ex_entity] ("/ns", "talker") ex_asked _ _
    ex_node_asked ex_gone_run (surjective_pairing _)).
Defined.

Lemma graph_change_notices_witness :
  let m := register_event_callback (register_event_callback graph_events_new [1%Z] SubscriptionMatched 5%nat)
             [2%Z] PublicationMatched 6%nat in
  forall gid et cb change, Event gid et cb change ∈ [Event [1%Z] SubscriptionMatched 5%nat 1%Z] <->
    change = 1%Z /\ matches ex_entity et /\
    exists callbacks, graph_callbacks m !! gid = Some callbacks /\ callbacks !! et = Some cb.
Proof.
  intros m. refine (proj2 (graph_change_notices (E := unit) m ex_entity true _ _)). by vm_compute.
Defined.

(** *** What the graph does not do *)

(** A caller that keeps an entity keeps it in the graph: it is counted after its
    token has gone. *)
Lemma held_entity_still_counted :
  match graph_run ex_parser (graph_new graph_events_new ex_zid)
          [OpPut ex_ke; OpByTopic KPublisher "/ns/chatter"; OpDelete ex_ke] with
  | Ok g => snd <$> count (E := unit) ex_parser (data g) KPublisher "/ns/chatter"
  | _ => Panic
  end = Ok 1%nat /\
  spec_run ex_parser ex_zid [OpPut ex_ke; OpByTopic KPublisher "/ns/chatter"; OpDelete ex_ke] = ∅.
Proof. split; vm_compute; reflexivity. Qed.

(** Adding a local entity notifies, and its own token notifies again when it
    arrives. *)
Lemma local_entity_notified_twice `{ZA : ZenohApi} `{SL : SlabApi} parser g e ke n :
  entity_to_liveliness_ke e = Ok ke -> parser ke = Some e -> parsed (data g) !! ke = None ->
  trigger_graph_change (E := ZError) (event_manager g) e true = Ok n ->
  exists g1 g2, add_local_entity g e = Ok (g1, n) /\ put_sample (E := ZError) parser g1 ke = Ok (g2, n).
Proof.
  intros Hke Hp Hn Ht. unfold add_local_entity. rewrite Hke. cbn [mbind res_bind].
  rewrite Hn, (bool_decide_eq_false_2 (is_Some None)), Ht by by intros [].
  do 2 eexists. split; [done|]. unfold put_sample. rewrite Hp.
  rewrite decide_True; [cbn [set_data event_manager]; by rewrite Ht|].
  rewrite add_index_parts. cbn. rewrite lookup_insert_eq. by eexists.
Qed.

(** The types of generated action feedback messages end with an underscore: the
    suffix of their names is not the one that is looked for. *)
Lemma action_type_suffix_missed :
  filter_action_names_and_types [("/fib/_action/feedback", "p::action::dds_::Fibonacci_FeedbackMessage_");
                                 ("/fib/_action/feedback", "p/action/Fibonacci_FeedbackMessage"); ("/chatter", "x")] =
  [("/fib", "p::action::dds_::Fibonacci_FeedbackMessage_"); ("/fib", "p/action/Fibonacci")].
Proof. by vm_compute. Qed.
