(* ===== verification/DynTypes.v ===== *)
(** * Dynamic messages: schemas, values and access by path
    (crates/ros-z/src/dynamic/{schema,value,message,error}.rs)

    [FieldType], [MessageSchema], [FieldSchema], [DynamicValue] and
    [DynamicMessage] are mutually inductive, as in the code; an [Arc] or a
    [Box] is its contents.  Operations that mutate a message return the new
    one.  Indexing a vector out of range panics. *)
From S2P Require Import Prelude Utf8 RustStr CdrPrimitives.
Open Scope string_scope.

(** ** Definitions *)

(** [enum FieldType], [struct MessageSchema], [struct FieldSchema], [enum
    DynamicValue], [struct DynamicMessage]; floats are their bits. *)
Inductive FieldType :=
| TyBool | TyInt8 | TyInt16 | TyInt32 | TyInt64
| TyUint8 | TyUint16 | TyUint32 | TyUint64 | TyFloat32 | TyFloat64
| TyString
| TyBoundedString (max : nat)
| TyMessage (schema : MessageSchema)
| TyArray (inner : FieldType) (len : nat)
| TySequence (inner : FieldType)
| TyBoundedSequence (inner : FieldType) (max : nat)
with MessageSchema :=
| mkSchema (type_name package name : string) (fields : list FieldSchema)
    (type_hash : option string)
with FieldSchema :=
| mkField (name : string) (field_type : FieldType) (default_value : option DynamicValue)
with DynamicValue :=
| VlBool (b : bool)
| VlInt8 (z : Z) | VlInt16 (z : Z) | VlInt32 (z : Z) | VlInt64 (z : Z)
| VlUint8 (z : Z) | VlUint16 (z : Z) | VlUint32 (z : Z) | VlUint64 (z : Z)
| VlFloat32 (bits : Z) | VlFloat64 (bits : Z)
| VlString (s : string)
| VlBytes (bs : list byte)
| VlMessage (m : DynamicMessage)
| VlArray (vs : list DynamicValue)
with DynamicMessage :=
| mkMessage (schema : MessageSchema) (values : list DynamicValue).

(** The fields of the structs. *)
Definition type_name (s : MessageSchema) : string := let '(mkSchema t _ _ _ _) := s in t.
Definition package (s : MessageSchema) : string := let '(mkSchema _ p _ _ _) := s in p.
Definition schema_name (s : MessageSchema) : string := let '(mkSchema _ _ n _ _) := s in n.
Definition fields (s : MessageSchema) : list FieldSchema := let '(mkSchema _ _ _ f _) := s in f.
Definition type_hash (s : MessageSchema) : option string := let '(mkSchema _ _ _ _ h) := s in h.
Definition field_name (f : FieldSchema) : string := let '(mkField n _ _) := f in n.
Definition field_type (f : FieldSchema) : FieldType := let '(mkField _ t _) := f in t.
Definition default_value (f : FieldSchema) : option DynamicValue := let '(mkField _ _ d) := f in d.
Definition schema (m : DynamicMessage) : MessageSchema := let '(mkMessage s _) := m in s.
Definition values (m : DynamicMessage) : list DynamicValue := let '(mkMessage _ v) := m in v.

(** [enum DynamicError] and its [Display]. *)
Inductive DynamicError :=
| InvalidTypeName (name : string)
| FieldNotFound (name : string)
| EmptyPath
| NotAMessage (name : string)
| TypeMismatch (path expected : string)
| IndexOutOfBounds (idx : nat)
| SerializationError (msg : string)
| DeserializationError (msg : string)
| SchemaLoadError (package source : string)
| RegistryLockPoisoned
| SchemaNotFound (name : string)
| InvalidDefaultValue (field reason : string)
| BoundExceeded (max actual : nat).

Definition DynamicError_fmt (e : DynamicError) : string :=
  match e with
  | InvalidTypeName name =>
      "Invalid type name '" ++ name ++ "': expected format 'package/msg/Name'"
  | FieldNotFound name => "Field '" ++ name ++ "' not found in message schema"
  | EmptyPath => "Empty path provided for field access"
  | NotAMessage name =>
      "Field '" ++ name ++ "' is not a message type, cannot access nested fields"
  | TypeMismatch path expected =>
      "Type mismatch at '" ++ path ++ "': expected type '" ++ expected ++ "'"
  | IndexOutOfBounds idx => "Field index " ++ Z_dec (Z.of_nat idx) ++ " is out of bounds"
  | SerializationError msg => "CDR serialization error: " ++ msg
  | DeserializationError msg => "CDR deserialization error: " ++ msg
  | SchemaLoadError package source =>
      "Failed to load schema for package '" ++ package ++ "': " ++ source
  | RegistryLockPoisoned => "Schema registry lock was poisoned"
  | SchemaNotFound name => "Schema '" ++ name ++ "' not found in registry"
  | InvalidDefaultValue field reason =>
      "Invalid default value for field '" ++ field ++ "': " ++ reason
  | BoundExceeded max actual =>
      "Bounded type exceeded maximum size: max=" ++ Z_dec (Z.of_nat max) ++ ", actual="
      ++ Z_dec (Z.of_nat actual)
  end.

(** *** Field types *)

(** [(size + align - 1) & !(align - 1)] on [usize]. *)
Definition align_up (size align : Z) : Z :=
  Z.land (wrap_u 64 (size + align - 1)) (wrap_u 64 (Z.lnot (align - 1))).

(** [FieldType::alignment] and [MessageSchema::alignment]. *)
Fixpoint alignment (t : FieldType) : Z :=
  match t with
  | TyBool | TyInt8 | TyUint8 => 1
  | TyInt16 | TyUint16 => 2
  | TyInt32 | TyUint32 | TyFloat32 => 4
  | TyInt64 | TyUint64 | TyFloat64 => 8
  | TyString | TyBoundedString _ => 4
  | TyArray inner _ => alignment inner
  | TySequence _ | TyBoundedSequence _ _ => 4
  | TyMessage s => schema_alignment s
  end
with schema_alignment (s : MessageSchema) : Z :=
  match s with
  | mkSchema _ _ _ fs _ =>
      default 1%Z (foldr (fun f acc =>
        Some (Z.max (field_alignment f) (default (field_alignment f) acc))) None fs)
  end
with field_alignment (f : FieldSchema) : Z :=
  match f with
  | mkField _ t _ => alignment t
  end.

(** The loop of [fixed_cdr_size]: [for field in &self.fields], from [size];
    [field_size] is [None] for a variable-size field, which returns. *)
Definition fixed_size_loop {A} (f_size : A -> option Z) (f_align : A -> Z)
    : list A -> Z -> option Z :=
  fix go l size :=
    match l with
    | [] => Some size
    | f :: l' =>
        match f_size f with
        | None => None
        | Some field_size => go l' (wrap_u 64 (align_up size (f_align f) + field_size))
        end
    end.

(** [FieldType::fixed_size] and [MessageSchema::fixed_cdr_size]. *)
Fixpoint fixed_size (t : FieldType) : option Z :=
  match t with
  | TyBool | TyInt8 | TyUint8 => Some 1%Z
  | TyInt16 | TyUint16 => Some 2%Z
  | TyInt32 | TyUint32 | TyFloat32 => Some 4%Z
  | TyInt64 | TyUint64 | TyFloat64 => Some 8%Z
  | TyArray inner len =>
      match fixed_size inner with
      | Some s => Some (wrap_u 64 (s * Z.of_nat len))
      | None => None
      end
  | TyMessage s => fixed_cdr_size s
  | _ => None
  end
with fixed_cdr_size (s : MessageSchema) : option Z :=
  match s with
  | mkSchema _ _ _ fs _ => fixed_size_loop field_fixed_size field_alignment fs 0
  end
with field_fixed_size (f : FieldSchema) : option Z :=
  match f with
  | mkField _ t _ => fixed_size t
  end.

(** [FieldType::is_primitive], [is_numeric] and [element_type]. *)
Definition is_numeric (t : FieldType) : bool :=
  match t with
  | TyInt8 | TyInt16 | TyInt32 | TyInt64 | TyUint8 | TyUint16 | TyUint32 | TyUint64
  | TyFloat32 | TyFloat64 => true
  | _ => false
  end.
Definition is_primitive (t : FieldType) : bool :=
  match t with
  | TyBool | TyInt8 | TyInt16 | TyInt32 | TyInt64 | TyUint8 | TyUint16 | TyUint32 | TyUint64
  | TyFloat32 | TyFloat64 | TyString | TyBoundedString _ => true
  | _ => false
  end.
Definition element_type (t : FieldType) : option FieldType :=
  match t with
  | TyArray inner _ | TySequence inner | TyBoundedSequence inner _ => Some inner
  | _ => None
  end.

(** *** Schemas *)

(** [FieldSchema::new] and [with_default]. *)
Definition FieldSchema_new (name : string) (t : FieldType) : FieldSchema := mkField name t None.
Definition with_default (f : FieldSchema) (v : DynamicValue) : FieldSchema :=
  mkField (field_name f) (field_type f) (Some v).

(** [iter().position(|f| f.name == name)] and [find]. *)
Definition position_by_name (fs : list FieldSchema) (name : string) : option nat :=
  fst <$> list_find (fun f => field_name f = name) fs.
Definition field (s : MessageSchema) (name : string) : option FieldSchema :=
  snd <$> list_find (fun f => field_name f = name) (fields s).
Definition field_index (s : MessageSchema) (name : string) : option nat :=
  position_by_name (fields s) name.
Definition field_count (s : MessageSchema) : nat := length (fields s).
Definition field_names (s : MessageSchema) : list string := map field_name (fields s).

(** The loop of [field_path_indices]. *)
Fixpoint path_indices_loop (current_schema : MessageSchema) (indices : list nat)
    (parts : list string) : res DynamicError (list nat) :=
  match parts with
  | [] => Ok indices
  | part :: parts' =>
      idx ← ok_or (field_index current_schema part) (FieldNotFound part);
      f ← index (fields current_schema) idx;
      path_indices_loop
        (match field_type f with TyMessage nested => nested | _ => current_schema end)
        (indices ++ [idx])%list parts'
  end.
Definition field_path_indices (s : MessageSchema) (path : string)
    : res DynamicError (list nat) :=
  path_indices_loop s [] (split_on "." path).

(** [impl PartialEq for MessageSchema] and the derived one of [FieldType]. *)
Definition schema_eqb (a b : MessageSchema) : bool := String.eqb (type_name a) (type_name b).
Fixpoint field_type_eqb (a b : FieldType) : bool :=
  match a, b with
  | TyBool, TyBool | TyInt8, TyInt8 | TyInt16, TyInt16 | TyInt32, TyInt32
  | TyInt64, TyInt64 | TyUint8, TyUint8 | TyUint16, TyUint16 | TyUint32, TyUint32
  | TyUint64, TyUint64 | TyFloat32, TyFloat32 | TyFloat64, TyFloat64
  | TyString, TyString => true
  | TyBoundedString n, TyBoundedString m => Nat.eqb n m
  | TyMessage s, TyMessage u => schema_eqb s u
  | TyArray t n, TyArray u m => field_type_eqb t u && Nat.eqb n m
  | TySequence t, TySequence u => field_type_eqb t u
  | TyBoundedSequence t n, TyBoundedSequence u m => field_type_eqb t u && Nat.eqb n m
  | _, _ => false
  end.

(** [struct MessageSchemaBuilder] and its methods. *)
Record MessageSchemaBuilder := mkSchemaBuilder {
  sb_type_name : string;
  sb_fields : list FieldSchema;
  sb_type_hash : option string;
}.
Definition schema_builder_new (type_name : string) : MessageSchemaBuilder :=
  mkSchemaBuilder type_name [] None.
Definition schema_builder (type_name : string) : MessageSchemaBuilder :=
  schema_builder_new type_name.
Definition sb_field (b : MessageSchemaBuilder) (name : string) (t : FieldType)
    : MessageSchemaBuilder :=
  mkSchemaBuilder (sb_type_name b) (sb_fields b ++ [FieldSchema_new name t])%list (sb_type_hash b).
Definition sb_field_with_default (b : MessageSchemaBuilder) (name : string) (t : FieldType)
    (d : DynamicValue) : MessageSchemaBuilder :=
  mkSchemaBuilder (sb_type_name b)
    (sb_fields b ++ [with_default (FieldSchema_new name t) d])%list (sb_type_hash b).
Definition sb_set_type_hash (b : MessageSchemaBuilder) (hash : string) : MessageSchemaBuilder :=
  mkSchemaBuilder (sb_type_name b) (sb_fields b) (Some hash).
Definition sb_build (b : MessageSchemaBuilder) : res DynamicError MessageSchema :=
  let parts := split_on "/" (sb_type_name b) in
  if negb (Nat.eqb (length parts) 3) then Err (InvalidTypeName (sb_type_name b)) else
  p1 ← index parts 1;
  if negb (String.eqb p1 "msg") then Err (InvalidTypeName (sb_type_name b)) else
  p0 ← index parts 0;
  p2 ← index parts 2;
  Ok (mkSchema (sb_type_name b) p0 p2 (sb_fields b) (sb_type_hash b)).

(** *** Values *)

(** The accessors of [impl_primitive_accessors] and the others. *)
Definition as_bool (v : DynamicValue) : option bool := match v with VlBool b => Some b | _ => None end.
Definition as_i8 (v : DynamicValue) : option Z := match v with VlInt8 z => Some z | _ => None end.
Definition as_i16 (v : DynamicValue) : option Z := match v with VlInt16 z => Some z | _ => None end.
Definition as_i32 (v : DynamicValue) : option Z := match v with VlInt32 z => Some z | _ => None end.
Definition as_i64 (v : DynamicValue) : option Z := match v with VlInt64 z => Some z | _ => None end.
Definition as_u8 (v : DynamicValue) : option Z := match v with VlUint8 z => Some z | _ => None end.
Definition as_u16 (v : DynamicValue) : option Z := match v with VlUint16 z => Some z | _ => None end.
Definition as_u32 (v : DynamicValue) : option Z := match v with VlUint32 z => Some z | _ => None end.
Definition as_u64 (v : DynamicValue) : option Z := match v with VlUint64 z => Some z | _ => None end.
Definition as_f32 (v : DynamicValue) : option Z := match v with VlFloat32 z => Some z | _ => None end.
Definition as_f64 (v : DynamicValue) : option Z := match v with VlFloat64 z => Some z | _ => None end.
Definition as_str (v : DynamicValue) : option string := match v with VlString s => Some s | _ => None end.
Definition as_bytes (v : DynamicValue) : option (list byte) :=
  match v with VlBytes b => Some b | _ => None end.
Definition as_message (v : DynamicValue) : option DynamicMessage :=
  match v with VlMessage m => Some m | _ => None end.
Definition as_array (v : DynamicValue) : option (list DynamicValue) :=
  match v with VlArray a => Some a | _ => None end.
Definition value_is_primitive (v : DynamicValue) : bool :=
  match v with
  | VlBytes _ | VlMessage _ | VlArray _ => false
  | _ => true
  end.

(** The traits [IntoDynamic] and [FromDynamic] of one Rust type: the two
    conversions and the type's name ([std::any::type_name]). *)
Record Conversion (T : Type) := mkConversion {
  into_dynamic : T -> DynamicValue;
  from_dynamic : DynamicValue -> option T;
  rust_type_name : string;
}.
Arguments mkConversion {T} _ _ _.
Arguments into_dynamic {T} _ _.
Arguments from_dynamic {T} _ _.
Arguments rust_type_name {T} _.

(** [impl_dynamic_conversions!] and [String]. *)
Definition conv_bool := mkConversion VlBool as_bool "bool".
Definition conv_i8 := mkConversion VlInt8 as_i8 "i8".
Definition conv_i16 := mkConversion VlInt16 as_i16 "i16".
Definition conv_i32 := mkConversion VlInt32 as_i32 "i32".
Definition conv_i64 := mkConversion VlInt64 as_i64 "i64".
Definition conv_u8 := mkConversion VlUint8 as_u8 "u8".
Definition conv_u16 := mkConversion VlUint16 as_u16 "u16".
Definition conv_u32 := mkConversion VlUint32 as_u32 "u32".
Definition conv_u64 := mkConversion VlUint64 as_u64 "u64".
Definition conv_f32 := mkConversion VlFloat32 as_f32 "f32".
Definition conv_f64 := mkConversion VlFloat64 as_f64 "f64".
Definition conv_String := mkConversion VlString as_str "alloc::string::String".

(** [impl IntoDynamic for DynamicMessage] and for [Vec<T>]. *)
Definition message_into_dynamic (m : DynamicMessage) : DynamicValue := VlMessage m.
Definition vec_into_dynamic {T} (into : T -> DynamicValue) (v : list T) : DynamicValue :=
  VlArray (map into v).

(** [default_for_type] and [DynamicMessage::new]. *)
Fixpoint default_for_type (t : FieldType) : DynamicValue :=
  match t with
  | TyBool => VlBool false
  | TyInt8 => VlInt8 0
  | TyInt16 => VlInt16 0
  | TyInt32 => VlInt32 0
  | TyInt64 => VlInt64 0
  | TyUint8 => VlUint8 0
  | TyUint16 => VlUint16 0
  | TyUint32 => VlUint32 0
  | TyUint64 => VlUint64 0
  | TyFloat32 => VlFloat32 0
  | TyFloat64 => VlFloat64 0
  | TyString | TyBoundedString _ => VlString ""
  | TyMessage s => VlMessage (message_new s)
  | TyArray inner len => VlArray (replicate len (default_for_type inner))
  | TySequence _ | TyBoundedSequence _ _ => VlArray []
  end
with message_new (s : MessageSchema) : DynamicMessage :=
  match s with
  | mkSchema _ _ _ fs _ => mkMessage s (map field_default fs)
  end
with field_default (f : FieldSchema) : DynamicValue :=
  match f with
  | mkField _ t d => match d with Some v => v | None => default_for_type t end
  end.

(** *** Messages *)

(** [DynamicMessage::from_values]. *)
Definition from_values (s : MessageSchema) (vs : list DynamicValue) : DynamicMessage :=
  mkMessage s vs.

(** [get_nested] and [get_dynamic]. *)
Fixpoint get_nested (m : DynamicMessage) (path : list string)
    : res DynamicError DynamicValue :=
  match path with
  | [] => Err EmptyPath
  | name :: path' =>
      field_idx ← ok_or (position_by_name (fields (schema m)) name) (FieldNotFound name);
      value ← index (values m) field_idx;
      match path' with
      | [] => Ok value
      | _ :: _ =>
          match value with
          | VlMessage nested => get_nested nested path'
          | _ => Err (NotAMessage name)
          end
      end
  end.
Definition get_dynamic (m : DynamicMessage) (path : string) : res DynamicError DynamicValue :=
  get_nested m (split_on "." path).

(** [get]. *)
Definition get {T} (c : Conversion T) (m : DynamicMessage) (path : string)
    : res DynamicError T :=
  value ← get_dynamic m path;
  ok_or (from_dynamic c value) (TypeMismatch path (rust_type_name c)).

(** [get_by_index] and [get_dynamic_by_index]. *)
Definition get_dynamic_by_index (m : DynamicMessage) (i : nat) : res DynamicError DynamicValue :=
  ok_or (values m !! i) (IndexOutOfBounds i).
Definition get_by_index {T} (c : Conversion T) (m : DynamicMessage) (i : nat)
    : res DynamicError T :=
  value ← ok_or (values m !! i) (IndexOutOfBounds i);
  ok_or (from_dynamic c value) (TypeMismatch ("[" ++ Z_dec (Z.of_nat i) ++ "]") (rust_type_name c)).

(** [set_nested], [set_dynamic], [set] and [set_by_index]: the message after a
    successful call; an error leaves it as it was. *)
Fixpoint set_nested (m : DynamicMessage) (path : list string) (value : DynamicValue)
    : res DynamicError DynamicMessage :=
  match path with
  | [] => Err EmptyPath
  | name :: path' =>
      field_idx ← ok_or (position_by_name (fields (schema m)) name) (FieldNotFound name);
      old ← index (values m) field_idx;
      match path' with
      | [] => Ok (mkMessage (schema m) (<[field_idx := value]> (values m)))
      | _ :: _ =>
          match old with
          | VlMessage nested =>
              nested ← set_nested nested path' value;
              Ok (mkMessage (schema m) (<[field_idx := VlMessage nested]> (values m)))
          | _ => Err (NotAMessage name)
          end
      end
  end.
Definition set_dynamic (m : DynamicMessage) (path : string) (value : DynamicValue)
    : res DynamicError DynamicMessage :=
  set_nested m (split_on "." path) value.
Definition set {T} (c : Conversion T) (m : DynamicMessage) (path : string) (value : T)
    : res DynamicError DynamicMessage :=
  set_dynamic m path (into_dynamic c value).
Definition set_by_index {T} (c : Conversion T) (m : DynamicMessage) (i : nat) (value : T)
    : res DynamicError DynamicMessage :=
  if (length (values m) <=? i)%nat then Err (IndexOutOfBounds i)
  else Ok (mkMessage (schema m) (<[i := into_dynamic c value]> (values m))).

(** [iter] and [field_count]. *)
Definition message_iter (m : DynamicMessage) : list (string * DynamicValue) :=
  zip_with (fun f v => (field_name f, v)) (fields (schema m)) (values m).
Definition message_field_count (m : DynamicMessage) : nat := length (values m).

(** [struct DynamicMessageBuilder] and its methods. *)
Record DynamicMessageBuilder := mkMessageBuilder {
  mb_schema : MessageSchema;
  mb_values : list (option DynamicValue);
}.
Definition message_builder_new (s : MessageSchema) : DynamicMessageBuilder :=
  mkMessageBuilder s (replicate (length (fields s)) None).
Definition mb_set {T} (c : Conversion T) (b : DynamicMessageBuilder) (name : string) (value : T)
    : res DynamicError DynamicMessageBuilder :=
  idx ← ok_or (position_by_name (fields (mb_schema b)) name) (FieldNotFound name);
  _ ← index (mb_values b) idx;
  Ok (mkMessageBuilder (mb_schema b) (<[idx := Some (into_dynamic c value)]> (mb_values b))).
Definition mb_set_by_index {T} (c : Conversion T) (b : DynamicMessageBuilder) (i : nat) (value : T)
    : res DynamicError DynamicMessageBuilder :=
  if (length (mb_values b) <=? i)%nat then Err (IndexOutOfBounds i)
  else Ok (mkMessageBuilder (mb_schema b) (<[i := Some (into_dynamic c value)]> (mb_values b))).
Definition mb_build (b : DynamicMessageBuilder) : DynamicMessage :=
  mkMessage (mb_schema b)
    (zip_with (fun v f => match v with Some v => v | None => field_default f end)
      (mb_values b) (fields (mb_schema b))).
