(* ===== verification/TypeDescription.v ===== *)
(** * Schemas and type descriptions
    (crates/ros-z/src/dynamic/type_description.rs)

    The conversion of a [MessageSchema] to the type description messages of
    ros-z-schema, its hash, and the conversion back, whose loop resolves the
    referenced types in passes. *)
From stdpp Require Import gmap strings.
From S2P Require Import Prelude Utf8 RustStr RustColl CdrPrimitives CdrSpec SchemaModel DynTypes.
Open Scope string_scope.

(** ** Definitions *)

(** [get_base_type_id]. *)
Fixpoint get_base_type_id (field_type : FieldType) : res DynamicError Z :=
  match field_type with
  | TyBool => Ok TypeId.BOOL
  | TyInt8 => Ok TypeId.INT8
  | TyInt16 => Ok TypeId.INT16
  | TyInt32 => Ok TypeId.INT32
  | TyInt64 => Ok TypeId.INT64
  | TyUint8 => Ok TypeId.UINT8
  | TyUint16 => Ok TypeId.UINT16
  | TyUint32 => Ok TypeId.UINT32
  | TyUint64 => Ok TypeId.UINT64
  | TyFloat32 => Ok TypeId.FLOAT32
  | TyFloat64 => Ok TypeId.FLOAT64
  | TyString | TyBoundedString _ => Ok TypeId.STRING
  | TyMessage _ => Ok TypeId.NESTED_TYPE
  | TyArray inner _ | TySequence inner | TyBoundedSequence inner _ => get_base_type_id inner
  end.

(** [field_type_to_description]: [as u64] on sizes, [u8] additions. *)
Definition field_type_to_description (field_type : FieldType)
    : res DynamicError FieldTypeDescription :=
  match field_type with
  | TyBool => Ok (ftd_primitive TypeId.BOOL)
  | TyInt8 => Ok (ftd_primitive TypeId.INT8)
  | TyInt16 => Ok (ftd_primitive TypeId.INT16)
  | TyInt32 => Ok (ftd_primitive TypeId.INT32)
  | TyInt64 => Ok (ftd_primitive TypeId.INT64)
  | TyUint8 => Ok (ftd_primitive TypeId.UINT8)
  | TyUint16 => Ok (ftd_primitive TypeId.UINT16)
  | TyUint32 => Ok (ftd_primitive TypeId.UINT32)
  | TyUint64 => Ok (ftd_primitive TypeId.UINT64)
  | TyFloat32 => Ok (ftd_primitive TypeId.FLOAT32)
  | TyFloat64 => Ok (ftd_primitive TypeId.FLOAT64)
  | TyString => Ok (ftd_primitive TypeId.STRING)
  | TyBoundedString capacity => Ok (mkFTD TypeId.STRING 0 (Z.of_nat capacity) "")
  | TyMessage schema => Ok (ftd_nested TypeId.NESTED_TYPE (type_name schema))
  | TyArray inner size =>
      base_type_id ← get_base_type_id inner;
      let array_type_id := wrap_u 8 (base_type_id + TypeId.ARRAY_OFFSET) in
      match inner with
      | TyMessage schema => Ok (ftd_nested_array array_type_id (Z.of_nat size) (type_name schema))
      | _ => Ok (ftd_array array_type_id (Z.of_nat size))
      end
  | TySequence inner =>
      base_type_id ← get_base_type_id inner;
      let seq_type_id := wrap_u 8 (base_type_id + TypeId.UNBOUNDED_SEQUENCE_OFFSET) in
      match inner with
      | TyMessage schema => Ok (ftd_nested seq_type_id (type_name schema))
      | _ => Ok (ftd_primitive seq_type_id)
      end
  | TyBoundedSequence inner capacity =>
      base_type_id ← get_base_type_id inner;
      let seq_type_id := wrap_u 8 (base_type_id + TypeId.BOUNDED_SEQUENCE_OFFSET) in
      match inner with
      | TyMessage schema => Ok (ftd_nested_array seq_type_id (Z.of_nat capacity) (type_name schema))
      | _ => Ok (ftd_array seq_type_id (Z.of_nat capacity))
      end
  end.
Definition field_schema_to_description (field : FieldSchema) : res DynamicError FieldDescription :=
  t ← field_type_to_description (field_type field);
  Ok (mkFD (field_name field) t "").
Definition to_type_description (s : MessageSchema) : res DynamicError TypeDescription :=
  fs ← traverse field_schema_to_description (fields s);
  Ok (mkTD (type_name s) fs).

(** [collect_referenced_types] and [collect_field_type_references]: the
    descriptions found so far and the names visited. *)
Definition Collected : Type := list TypeDescription * gset string.
Fixpoint collect_field_type_references (field_type : FieldType) (st : Collected)
    : res DynamicError Collected :=
  match field_type with
  | TyMessage nested_schema =>
      if decide (type_name nested_schema ∈ st.2) then Ok st
      else
        st ← collect_referenced_types nested_schema (st.1, {[type_name nested_schema]} ∪ st.2);
        td ← to_type_description nested_schema;
        Ok (st.1 ++ [td], st.2)%list
  | TyArray inner _ | TySequence inner | TyBoundedSequence inner _ =>
      collect_field_type_references inner st
  | _ => Ok st
  end
with collect_referenced_types (s : MessageSchema) (st : Collected) : res DynamicError Collected :=
  match s with
  | mkSchema _ _ _ fs _ => for_each (fun st f => collect_field_references f st) st fs
  end
with collect_field_references (f : FieldSchema) (st : Collected) : res DynamicError Collected :=
  match f with
  | mkField _ t _ => collect_field_type_references t st
  end.
Definition to_type_description_msg (s : MessageSchema) : res DynamicError TypeDescriptionMsg :=
  st ← collect_referenced_types s ([], ∅);
  td ← to_type_description s;
  Ok (mkTDM td (sort_by td_name st.1)).
Definition compute_type_hash `{HashApi} (s : MessageSchema) : res DynamicError SchemaHash :=
  msg ← to_type_description_msg s;
  calculate_hash msg.

(** [field_type_description_to_type]. *)
Definition base_field_type (ftd : FieldTypeDescription) (type_map : gmap string MessageSchema)
    : res DynamicError FieldType :=
  let b := TypeId.base_type (type_id ftd) in
  if (b =? TypeId.BOOL)%Z then Ok TyBool
  else if (b =? TypeId.INT8)%Z then Ok TyInt8
  else if (b =? TypeId.INT16)%Z then Ok TyInt16
  else if (b =? TypeId.INT32)%Z then Ok TyInt32
  else if (b =? TypeId.INT64)%Z then Ok TyInt64
  else if (b =? TypeId.UINT8)%Z then Ok TyUint8
  else if (b =? TypeId.UINT16)%Z then Ok TyUint16
  else if (b =? TypeId.UINT32)%Z then Ok TyUint32
  else if (b =? TypeId.UINT64)%Z then Ok TyUint64
  else if (b =? TypeId.FLOAT32)%Z then Ok TyFloat32
  else if (b =? TypeId.FLOAT64)%Z then Ok TyFloat64
  else if (b =? TypeId.STRING)%Z then
    if (0 <? string_capacity ftd)%Z then Ok (TyBoundedString (Z.to_nat (string_capacity ftd)))
    else Ok TyString
  else if (b =? TypeId.NESTED_TYPE)%Z then
    schema ← ok_or (type_map !! nested_type_name ftd)
               (FieldNotFound ("Referenced type not found: " ++ nested_type_name ftd));
    Ok (TyMessage schema)
  else Err (SerializationError ("Unknown type ID: " ++ Z_dec b)).
Definition field_type_description_to_type (ftd : FieldTypeDescription)
    (type_map : gmap string MessageSchema) : res DynamicError FieldType :=
  base_type ← base_field_type ftd type_map;
  if TypeId.is_array (type_id ftd) then Ok (TyArray base_type (Z.to_nat (capacity ftd)))
  else if TypeId.is_bounded_sequence (type_id ftd)
       then Ok (TyBoundedSequence base_type (Z.to_nat (capacity ftd)))
  else if TypeId.is_unbounded_sequence (type_id ftd) then Ok (TySequence base_type)
  else Ok base_type.
Definition field_description_to_schema (type_map : gmap string MessageSchema)
    (fd : FieldDescription) : res DynamicError FieldSchema :=
  field_type ← field_type_description_to_type (fd_type fd) type_map;
  Ok (mkField (fd_name fd) field_type None).

(** [type_description_to_schema_partial] and [_full]. *)
Definition type_description_to_schema_partial (td : TypeDescription)
    : res DynamicError MessageSchema :=
  let parts := split_on "/" (td_name td) in
  if negb (Nat.eqb (length parts) 3) then Err (InvalidTypeName (td_name td)) else
  p0 ← index parts 0;
  p2 ← index parts 2;
  Ok (mkSchema (td_name td) p0 p2 [] None).
Definition type_description_to_schema_full (td : TypeDescription)
    (type_map : gmap string MessageSchema) : res DynamicError MessageSchema :=
  let parts := split_on "/" (td_name td) in
  if negb (Nat.eqb (length parts) 3) then Err (InvalidTypeName (td_name td)) else
  fs ← traverse (field_description_to_schema type_map) (td_fields td);
  p0 ← index parts 0;
  p2 ← index parts 2;
  Ok (mkSchema (td_name td) p0 p2 fs None).

(** One pass of [remaining.retain(..)]: the schemas resolved so far and the
    descriptions kept. *)
Fixpoint resolve_pass (remaining : list TypeDescription) (resolved_map : gmap string MessageSchema)
    : res DynamicError (gmap string MessageSchema * list TypeDescription) :=
  match remaining with
  | [] => Ok (resolved_map, [])
  | ref_td :: rest =>
      match type_description_to_schema_full ref_td resolved_map with
      | Ok schema => resolve_pass rest (<[td_name ref_td := schema]> resolved_map)
      | Err _ => '(m, kept) ← resolve_pass rest resolved_map; Ok (m, ref_td :: kept)
      | Panic => Panic
      end
  end.
(** The [while] loop; [made_progress] is whether the pass kept fewer. [None] is
    lack of fuel. *)
Fixpoint resolve_loop (fuel : nat) (remaining : list TypeDescription)
    (resolved_map : gmap string MessageSchema)
    : option (res DynamicError (gmap string MessageSchema)) :=
  match remaining with
  | [] => Some (Ok resolved_map)
  | _ =>
      match fuel with
      | O => None
      | S fuel =>
          match resolve_pass remaining resolved_map with
          | Ok (m, kept) =>
              let made_progress := (length kept <? length remaining)%nat in
              if negb made_progress && negb (Nat.eqb (length kept) 0)
              then Some (Err (SerializationError ("Cannot resolve dependencies for types: "
                                                    ++ String.concat ", " (map td_name kept))))
              else resolve_loop fuel kept m
          | Err e => Some (Err e)
          | Panic => Some Panic
          end
      end
  end.
(** [type_description_msg_to_schema]. The fuel is the number of descriptions:
    every pass but the last removes one. *)
Definition type_description_msg_to_schema (msg : TypeDescriptionMsg)
    : res DynamicError MessageSchema :=
  let refs := referenced_type_descriptions msg in
  type_map ← for_each (fun (m : gmap string MessageSchema) ref_td =>
    schema ← type_description_to_schema_partial ref_td;
    Ok (<[td_name ref_td := schema]> m)) ∅ refs;
  match resolve_loop (length refs) refs ∅ with
  | Some r =>
      resolved_map ← r;
      type_description_to_schema_full (type_description msg) resolved_map
  | None => Panic
  end.
