(* ===== verification/DescriptionRoundtrip.v ===== *)
(** * Correctness of the schema conversions

    The round trip of a schema through its type description, the termination
    of the resolution loop, and what the conversion loses. *)
From stdpp Require Import gmap strings.
From S2P Require Import Prelude Utf8 RustStr RustColl CdrPrimitives CdrSpec SchemaModel DynTypes TypeDescription.
Open Scope string_scope.

(** ** Specification *)

(** The schema without what a description does not carry: default values and
    hashes. *)
Fixpoint erase_type (t : FieldType) : FieldType :=
  match t with
  | TyMessage s => TyMessage (erase s)
  | TyArray i n => TyArray (erase_type i) n
  | TySequence i => TySequence (erase_type i)
  | TyBoundedSequence i n => TyBoundedSequence (erase_type i) n
  | _ => t
  end
with erase (s : MessageSchema) : MessageSchema :=
  match s with
  | mkSchema tn p n fs _ => mkSchema tn p n (map erase_field fs) None
  end
with erase_field (f : FieldSchema) : FieldSchema :=
  match f with
  | mkField n t _ => mkField n (erase_type t) None
  end.

(** Elements of arrays and sequences that a description can tell: no arrays of
    arrays, no bounded strings. *)
Definition plain_element (t : FieldType) : bool :=
  match t with
  | TyBoundedString _ | TyArray _ _ | TySequence _ | TyBoundedSequence _ _ => false
  | _ => true
  end.
Fixpoint describable (t : FieldType) : Prop :=
  match t with
  | TyBoundedString n => (0 < n)%nat
  | TyMessage s => schema_describable s
  | TyArray i _ | TySequence i | TyBoundedSequence i _ => plain_element i = true /\ describable i
  | _ => True
  end
with schema_describable (s : MessageSchema) : Prop :=
  match s with
  | mkSchema tn p n fs _ =>
      (exists m, split_on "/" tn = [p; m; n]) /\ foldr (fun f P => field_describable f /\ P) True fs
  end
with field_describable (f : FieldSchema) : Prop :=
  match f with
  | mkField _ t _ => describable t
  end.

(** The schemas nested in a type, at any depth, and the message a field type
    is made of. *)
Fixpoint nested (t : FieldType) : list MessageSchema :=
  match t with
  | TyMessage s => s :: schema_nested s
  | TyArray i _ | TySequence i | TyBoundedSequence i _ => nested i
  | _ => []
  end
with schema_nested (s : MessageSchema) : list MessageSchema :=
  match s with
  | mkSchema _ _ _ fs _ => flat_map field_nested fs
  end
with field_nested (f : FieldSchema) : list MessageSchema :=
  match f with
  | mkField _ t _ => nested t
  end.
Fixpoint base_message (t : FieldType) : option MessageSchema :=
  match t with
  | TyMessage s => Some s
  | TyArray i _ | TySequence i | TyBoundedSequence i _ => base_message i
  | _ => None
  end.
Definition direct (s : MessageSchema) : list MessageSchema :=
  omap (fun f => base_message (field_type f)) (fields s).

(** Equal names stand for equal schemas. *)
Definition coherent (U : list MessageSchema) : Prop :=
  forall a b, a ∈ U -> b ∈ U -> type_name a = type_name b -> erase a = erase b.

Fixpoint type_size (t : FieldType) : nat :=
  match t with
  | TyMessage s => S (schema_size s)
  | TyArray i _ | TySequence i | TyBoundedSequence i _ => type_size i
  | _ => 0
  end
with schema_size (s : MessageSchema) : nat :=
  match s with
  | mkSchema _ _ _ fs _ => list_sum (map field_size fs)
  end
with field_size (f : FieldSchema) : nat :=
  match f with
  | mkField _ t _ => type_size t
  end.

(** ** Lemmas *)

Section TypeInduction.
Context (P : FieldType -> Prop) (Q : MessageSchema -> Prop).
Context (Hleaf : forall t, base_message t = None -> plain_element t = true \/ (exists n, t = TyBoundedString n) -> P t).
Context (Hmsg : forall s, Q s -> P (TyMessage s)).
Context (Harr : forall i n, P i -> P (TyArray i n)) (Hseq : forall i, P i -> P (TySequence i))
  (Hbseq : forall i n, P i -> P (TyBoundedSequence i n)).
Context (Hschema : forall tn p n fs h, Forall (fun f => P (field_type f)) fs -> Q (mkSchema tn p n fs h)).

Lemma type_schema_ind : (forall t, P t) /\ (forall s, Q s).
Proof using All.
  assert (forall t, P t) as HP.
  { fix IH 1. intros [| | | | | | | | | | | |n|[tn p n fs h]|i n|i|i n].
    1-13: apply Hleaf; eauto.
    - apply Hmsg, Hschema. induction fs as [|[? t ?] fs IHfs]; constructor; [apply IH|apply IHfs].
    - apply Harr, IH.
    - apply Hseq, IH.
    - apply Hbseq, IH. }
  split; [done|]. intros [tn p n fs h]. apply Hschema. apply Forall_forall. auto.
Qed.
End TypeInduction.

Lemma erase_name s : type_name (erase s) = type_name s.
Proof. by destruct s. Qed.

Lemma erase_field_type f : field_type (erase_field f) = erase_type (field_type f).
Proof. by destruct f. Qed.

Lemma erase_size : (forall t, type_size (erase_type t) = type_size t) /\
  (forall s, schema_size (erase s) = schema_size s).
Proof.
  apply type_schema_ind; try done.
  - intros t Ht [Hp|[n ->]]; [by destruct t | done].
  - intros s IH. cbn. by rewrite IH.
  - intros tn p n fs h IH. cbn. f_equal. rewrite map_map. apply map_ext_Forall.
    eapply Forall_impl; [exact IH|]. intros [? t ?] H. exact H.
Qed.

Lemma base_message_size t s : base_message t = Some s -> (schema_size s < type_size t)%nat.
Proof. induction t; cbn; intros H; simplify_eq; auto. Qed.

Lemma direct_size s d : d ∈ direct s -> (schema_size d < schema_size s)%nat.
Proof.
  unfold direct. destruct s as [tn p n fs h]. cbn. rewrite list_elem_of_omap.
  intros ([fn t fd] & Hf & Hb). apply base_message_size in Hb. cbn in Hb.
  apply list_elem_of_split in Hf as (l1 & l2 & ->). rewrite map_app, list_sum_app. cbn. lia.
Qed.

Lemma base_message_nested t s : base_message t = Some s -> s ∈ nested t.
Proof. induction t; cbn; intros H; simplify_eq; auto. by left. Qed.

Lemma schema_nested_elem s x :
  x ∈ schema_nested s <-> exists f, f ∈ fields s /\ x ∈ nested (field_type f).
Proof.
  destruct s as [tn p n fs h]. cbn. rewrite list_elem_of_In, in_flat_map. split.
  - intros ([n' t d] & Hf & Hx). exists (mkField n' t d). by rewrite !list_elem_of_In.
  - intros ([n' t d] & Hf & Hx). exists (mkField n' t d). by rewrite <- !list_elem_of_In.
Qed.

Lemma direct_nested s d : d ∈ direct s -> d ∈ schema_nested s.
Proof.
  unfold direct. rewrite list_elem_of_omap, schema_nested_elem. intros (f & Hf & Hb).
  exists f. split; [done|]. by apply base_message_nested.
Qed.

(** *** Describing a schema never fails *)

Lemma get_base_type_id_ok t : exists b, get_base_type_id t = Ok b /\ b ∈ base_ids.
Proof.
  induction t; cbn; try done; eexists; (split; [reflexivity|]);
    unfold base_ids; repeat (first [by left | right]).
Qed.

Lemma base_id_offsets b :
  b ∈ base_ids ->
  wrap_u 8 (b + TypeId.ARRAY_OFFSET) = (b + TypeId.ARRAY_OFFSET)%Z /\
  wrap_u 8 (b + TypeId.BOUNDED_SEQUENCE_OFFSET) = (b + TypeId.BOUNDED_SEQUENCE_OFFSET)%Z /\
  wrap_u 8 (b + TypeId.UNBOUNDED_SEQUENCE_OFFSET) = (b + TypeId.UNBOUNDED_SEQUENCE_OFFSET)%Z.
Proof.
  unfold base_ids. intros H.
  repeat (apply elem_of_cons in H as [->|H]; [by vm_compute|]). by apply elem_of_nil in H.
Qed.

Lemma field_type_to_description_ok t : exists d, field_type_to_description t = Ok d.
Proof.
  destruct t as [| | | | | | | | | | | | | |i n|i|i n]; cbn; eauto;
    destruct (get_base_type_id_ok i) as (b & -> & _); cbn [mbind res_bind]; destruct i; eauto.
Qed.

Lemma traverse_ok {E A B} (f : A -> res E B) l :
  (forall x, x ∈ l -> exists y, f x = Ok y) -> exists ys, traverse f l = Ok ys.
Proof.
  induction l as [|x l IH]; intros H; [by exists []|]. cbn.
  destruct (H x) as [y ->]; [by left|]. destruct IH as [ys ->]; [intros; apply H; by right|].
  by eexists.
Qed.

Lemma to_type_description_ok s : exists td, to_type_description s = Ok td /\ td_name td = type_name s.
Proof.
  unfold to_type_description.
  destruct (traverse_ok field_schema_to_description (fields s)) as [fs ->].
  - intros f _. unfold field_schema_to_description.
    destruct (field_type_to_description_ok (field_type f)) as [d ->]. by eexists.
  - cbn. by eexists.
Qed.

(** *** Reading a description back *)

(** What a base identifier reads as depends on the identifier modulo the array
    form, the string capacity and the nested name. *)
Lemma base_field_type_form b id c c' sc n M :
  TypeId.base_type id = TypeId.base_type b ->
  base_field_type (mkFTD id c sc n) M = base_field_type (mkFTD b c' sc n) M.
Proof. unfold base_field_type. cbn [type_id string_capacity nested_type_name]. by intros ->. Qed.

(** The base of a field type, read in a map of resolved schemas. *)
Definition read_base (t : FieldType) (M : gmap string MessageSchema) : res DynamicError FieldType :=
  match t with
  | TyMessage s =>
      s' ← ok_or (M !! type_name s) (FieldNotFound ("Referenced type not found: " ++ type_name s));
      Ok (TyMessage s')
  | _ => Ok (erase_type t)
  end.

Lemma base_field_type_plain i b c M :
  plain_element i = true -> get_base_type_id i = Ok b ->
  base_field_type (mkFTD b c 0 (match i with TyMessage s => type_name s | _ => "" end)) M = read_base i M.
Proof. destruct i; cbn; intros Hp Hb; try done; by injection Hb as <-. Qed.

Lemma read_array i n (form : FieldType -> FieldType) off c M b id :
  plain_element i = true -> get_base_type_id i = Ok b ->
  id = wrap_u 8 (b + off) ->
  TypeId.base_type id = TypeId.base_type b ->
  (forall t, (if TypeId.is_array id then Ok (TyArray t n)
              else if TypeId.is_bounded_sequence id then Ok (TyBoundedSequence t n)
              else if TypeId.is_unbounded_sequence id then Ok (TySequence t)
              else Ok t) = Ok (E := DynamicError) (form t)) ->
  Z.to_nat c = n ->
  field_type_description_to_type
    (mkFTD id c 0 (match i with TyMessage s => type_name s | _ => "" end)) M =
  (t ← read_base i M; Ok (form t)).
Proof.
  intros Hp Hb -> Hbase Hform <-. unfold field_type_description_to_type.
  rewrite (base_field_type_form b _ c 0) by done. rewrite (base_field_type_plain i b) by done.
  destruct (read_base i M) as [t|e|]; cbn [mbind res_bind type_id capacity]; [|done..]. by rewrite Hform.
Qed.

Lemma element_description i id c :
  (match i with
   | TyMessage s => Ok (E := DynamicError) (mkFTD id c 0 (type_name s))
   | _ => Ok (mkFTD id c 0 "")
   end) = Ok (mkFTD id c 0 (match i with TyMessage s => type_name s | _ => "" end)).
Proof. by destruct i. Qed.

(** The three array forms of [read_description] differ in their offset. *)
Ltac array_case i Hf Hd form off Hbm Her :=
  destruct Hd as [Hp Hd]; cbn [field_type_to_description] in Hf;
  destruct (get_base_type_id_ok i) as (b & Hb & Hin); rewrite Hb in Hf; cbn [mbind res_bind] in Hf;
  pose proof (base_type_offset b Hin) as (B0 & B1 & B2 & B3);
  pose proof (form_offset b Hin) as (_ & [= F1 F2 F3] & [= F4 F5 F6] & [= F7 F8 F9]);
  pose proof (base_id_offsets b Hin) as (W1 & W2 & W3);
  unfold ftd_nested_array, ftd_array, ftd_nested, ftd_primitive in Hf;
  rewrite element_description in Hf; injection Hf as <-;
  erewrite (read_array i _ form off _ _ b);
    [ | done | done | done
    | rewrite ?W1, ?W2, ?W3, ?B1, ?B2, ?B3; by rewrite B0
    | intros t; rewrite ?W1, ?W2, ?W3, ?F1, ?F2, ?F3, ?F4, ?F5, ?F6, ?F7, ?F8, ?F9; reflexivity
    | apply Nat2Z.id || reflexivity ];
  rewrite Hbm by done; unfold read_base; cbn [erase_type]; rewrite ?(Her i Hp);
  destruct i; try done; by match goal with |- context [?m !! ?k] => destruct (m !! k) end.

Lemma read_description t d M :
  describable t -> field_type_to_description t = Ok d ->
  field_type_description_to_type d M =
    match base_message t with
    | Some s =>
        s' ← ok_or (M !! type_name s) (FieldNotFound ("Referenced type not found: " ++ type_name s));
        Ok (match t with
            | TyArray _ n => TyArray (TyMessage s') n
            | TySequence _ => TySequence (TyMessage s')
            | TyBoundedSequence _ n => TyBoundedSequence (TyMessage s') n
            | _ => TyMessage s'
            end)
    | None => Ok (erase_type t)
    end.
Proof.
  assert (forall i, plain_element i = true -> base_message i =
    match i with TyMessage s => Some s | _ => None end) as Hbm by by intros [].
  assert (forall i, plain_element i = true -> erase_type i =
    match i with TyMessage s => TyMessage (erase s) | _ => i end) as Her by by intros [].
  destruct t as [| | | | | | | | | | | |m|s|i n|i|i n]; cbn [describable base_message]; intros Hd Hf.
  1-12: injection Hf as <-; reflexivity.
  - injection Hf as <-. unfold field_type_description_to_type, base_field_type. cbn.
    destruct (Z.ltb_spec 0 (Z.of_nat m)); [|lia]. by rewrite Nat2Z.id.
  - injection Hf as <-. unfold field_type_description_to_type, base_field_type. cbn.
    by destruct (M !! type_name s).
  - array_case i Hf Hd (fun t => TyArray t n) TypeId.ARRAY_OFFSET Hbm Her.
  - array_case i Hf Hd TySequence TypeId.UNBOUNDED_SEQUENCE_OFFSET Hbm Her.
  - array_case i Hf Hd (fun t => TyBoundedSequence t n) TypeId.BOUNDED_SEQUENCE_OFFSET Hbm Her.
Qed.

Lemma read_description_some t d M s :
  describable t -> field_type_to_description t = Ok d -> base_message t = Some s ->
  match M !! type_name s with
  | Some s' => s' = erase s -> field_type_description_to_type d M = Ok (erase_type t)
  | None => exists e, field_type_description_to_type d M = Err e
  end.
Proof.
  intros Hd Hf Hb. rewrite (read_description t d M Hd Hf), Hb.
  destruct (M !! type_name s) as [s'|]; cbn; [|by eexists].
  intros ->. f_equal. destruct t; cbn in *; simplify_eq; try done;
    destruct Hd as [Hp _]; destruct t; cbn in *; try done; by simplify_eq.
Qed.

(** A map that agrees with a schema's direct references, and one that has them
    all. *)
Definition agrees (M : gmap string MessageSchema) (s : MessageSchema) : Prop :=
  forall d s', d ∈ direct s -> M !! type_name d = Some s' -> s' = erase d.
Definition ready (M : gmap string MessageSchema) (s : MessageSchema) : Prop :=
  forall d, d ∈ direct s -> is_Some (M !! type_name d).

Lemma read_fields M fs fds :
  foldr (fun f P => field_describable f /\ P) True fs ->
  traverse field_schema_to_description fs = Ok fds ->
  (forall f d s', f ∈ fs -> base_message (field_type f) = Some d ->
    M !! type_name d = Some s' -> s' = erase d) ->
  (traverse (field_description_to_schema M) fds = Ok (map erase_field fs) /\
   forall f d, f ∈ fs -> base_message (field_type f) = Some d -> is_Some (M !! type_name d)) \/
  (exists e, traverse (field_description_to_schema M) fds = Err e) /\
  exists f d, f ∈ fs /\ base_message (field_type f) = Some d /\ M !! type_name d = None.
Proof.
  revert fds. induction fs as [|[fn t fd] fs IH]; intros fds Hd Ht Ha.
  { injection Ht as <-. left. split; [done|]. intros f d Hf. by apply elem_of_nil in Hf. }
  destruct Hd as [Hd Hds]. cbn [field_describable] in Hd. cbn [traverse] in Ht.
  change (field_schema_to_description (mkField fn t fd))
    with (d ← field_type_to_description t; Ok (E := DynamicError) (mkFD fn d "")) in Ht.
  destruct (field_type_to_description_ok t) as [d0 Hd0]. rewrite Hd0 in Ht. cbn [mbind res_bind] in Ht.
  destruct (traverse field_schema_to_description fs) as [fds'|e|] eqn:Hfs; try done.
  cbn [mbind res_bind] in Ht. injection Ht as <-.
  specialize (IH fds' Hds eq_refl). cbn [traverse].
  change (field_description_to_schema M (mkFD fn d0 ""))
    with (ft ← field_type_description_to_type d0 M; Ok (E := DynamicError) (mkField fn ft None)).
  assert (field_type_description_to_type d0 M = Ok (erase_type t) /\
      (forall d, base_message t = Some d -> is_Some (M !! type_name d)) \/
    (exists e, field_type_description_to_type d0 M = Err e) /\
      exists d, base_message t = Some d /\ M !! type_name d = None) as Hcase.
  { pose proof (read_description t d0 M Hd Hd0) as Hr.
    destruct (base_message t) as [s|] eqn:Hb; [|by left].
    pose proof (read_description_some t d0 M s Hd Hd0 Hb) as Hs.
    destruct (M !! type_name s) as [s'|] eqn:HM; [|right; split; eauto].
    left. split; [|intros d [= <-]; by rewrite HM].
    apply Hs. apply (Ha (mkField fn t fd) s s'); [by left|done|done]. }
  destruct Hcase as [[-> Hsome]|[[e ->] (d & Hb & HM)]]; cbn [mbind res_bind].
  - destruct IH as [[-> Hall]|[[e ->] (f & d & Hf & Hb & HM)]].
    + intros f d s' Hf. apply Ha. by right.
    + left. split; [done|]. intros f d [->|Hf]%elem_of_cons; [apply Hsome | by apply Hall].
    + right. split; [by eexists|]. exists f, d. split; [by right|done].
  - right. split; [by eexists|]. exists (mkField fn t fd), d. split; [by left|done].
Qed.

Lemma full_cases M s td :
  schema_describable s -> to_type_description s = Ok td -> agrees M s ->
  (type_description_to_schema_full td M = Ok (erase s) /\ ready M s) \/
  ((exists e, type_description_to_schema_full td M = Err e) /\ ~ ready M s).
Proof.
  destruct s as [tn p n fs h]. cbn [schema_describable]. intros [[m Hm] Hd] Ht Ha.
  unfold to_type_description in Ht. cbn [fields type_name] in Ht. res_inv.
  unfold type_description_to_schema_full. cbn [td_name td_fields]. rewrite Hm. cbn [length Nat.eqb negb].
  destruct (read_fields M fs a Hd E) as [[-> Hall]|[[e ->] (f & d & Hf & Hb & HM)]].
  - intros f d s' Hf Hb. apply Ha. apply list_elem_of_omap. by exists f.
  - left. cbn. split; [done|]. intros d (f & Hf & Hb)%list_elem_of_omap. by eapply Hall.
  - right. split; [by eexists|]. intros Hr. destruct (Hr d); [|congruence].
    apply list_elem_of_omap. by exists f.
Qed.

(** *** The resolution loop *)

Lemma minimum_exists {A} (R : A -> nat -> Prop) l :
  (forall x n m, R x n -> R x m -> n = m) -> Forall (fun x => exists n, R x n) l -> l <> [] ->
  exists x n, x ∈ l /\ R x n /\ forall y m, y ∈ l -> R y m -> (n <= m)%nat.
Proof.
  intros HR. induction 1 as [|a l [n Ha] Hl IH]; [done|]. intros _. destruct l as [|b l].
  - exists a, n. split_and!; [by left|done|]. intros y m ->%list_elem_of_singleton Hm.
    by rewrite (HR _ _ _ Ha Hm).
  - destruct IH as (x & k & Hx & Hk & Hm); [done|]. destruct (decide (n <= k)%nat).
    + exists a, n. split_and!; [by left|done|]. intros y m [->|Hy]%elem_of_cons Hym;
        [by rewrite (HR _ _ _ Ha Hym)|]. specialize (Hm y m Hy Hym). lia.
    + exists x, k. split_and!; [by right|done|]. intros y m [->|Hy]%elem_of_cons Hym;
        [rewrite <- (HR _ _ _ Ha Hym); lia|]. eauto.
Qed.

Section Resolution.
Context (U : list MessageSchema) (Hco : coherent U)
  (Hclosed : forall s d, s ∈ U -> d ∈ direct s -> d ∈ U)
  (Hdesc : forall s, s ∈ U -> schema_describable s).

Definition agree_map (M : gmap string MessageSchema) : Prop :=
  forall n s' s, M !! n = Some s' -> s ∈ U -> type_name s = n -> s' = erase s.
Definition describes (td : TypeDescription) (s : MessageSchema) : Prop :=
  s ∈ U /\ to_type_description s = Ok td.

Lemma describes_name td s : describes td s -> td_name td = type_name s.
Proof. intros [_ H]. destruct (to_type_description_ok s) as (td' & H' & Hn). congruence. Qed.

Lemma agree_map_agrees M s : agree_map M -> s ∈ U -> agrees M s.
Proof. intros HM Hs d s' Hd Hl. eapply HM; [done | by eapply Hclosed | done]. Qed.

Lemma agree_map_insert M s : agree_map M -> s ∈ U -> agree_map (<[type_name s := erase s]> M).
Proof.
  intros HM Hs n s' r. rewrite lookup_insert_Some. intros [[<- <-]|[_ Hl]] Hr Hn; [|by eapply HM].
  by apply Hco.
Qed.

Lemma resolve_pass_spec remaining : forall M,
  Forall (fun td => exists s, describes td s) remaining -> agree_map M ->
  exists M' kept, resolve_pass remaining M = Ok (M', kept) /\ agree_map M' /\
    (forall n, is_Some (M !! n) -> is_Some (M' !! n)) /\ kept `sublist_of` remaining /\
    (forall td, td ∈ remaining -> td ∈ kept \/ is_Some (M' !! td_name td)) /\
    ((exists td, td ∈ remaining /\ forall s, describes td s -> ready M s) ->
     (length kept < length remaining)%nat).
Proof.
  induction remaining as [|td rest IH]; intros M Hf HM.
  { exists M, []. split_and!; try done. { intros td Htd. by apply elem_of_nil in Htd. }
    intros (td & Htd & _). by apply elem_of_nil in Htd. }
  apply Forall_cons in Hf as [[s Hs] Hf]. pose proof (describes_name td s Hs) as Hn. cbn [resolve_pass].
  destruct Hs as [Hin Htd].
  destruct (full_cases M s td (Hdesc s Hin) Htd (agree_map_agrees M s HM Hin)) as [[-> Hr]|[[e ->] Hr]].
  - rewrite Hn. destruct (IH (<[type_name s:=erase s]> M) Hf (agree_map_insert M s HM Hin))
      as (M' & kept & -> & HM' & Hdom & Hsub & Hcov & _).
    exists M', kept. split_and!; try done.
    + intros n Hx. apply Hdom. destruct (decide (type_name s = n)) as [->|]; [by rewrite lookup_insert_eq; eauto | by rewrite lookup_insert_ne].
    + by apply sublist_cons.
    + intros td' [->|Htd']%elem_of_cons; [|auto]. right. rewrite Hn. apply Hdom. rewrite lookup_insert_eq. eauto.
    + intros _. apply sublist_length in Hsub. cbn. lia.
  - destruct (IH M Hf HM) as (M' & kept & -> & HM' & Hdom & Hsub & Hcov & Hprog).
    exists M', (td :: kept). cbn [mbind res_bind]. split_and!; try done.
    + by apply sublist_skip.
    + intros td' [->|Htd']%elem_of_cons; [left; by left|]. destruct (Hcov td' Htd'); [left; by right|by right].
    + intros (td' & [->|Htd']%elem_of_cons & Hd); [by destruct (Hr (Hd s (conj Hin Htd)))|].
      cbn. assert (length kept < length rest)%nat; [|lia]. apply Hprog. by exists td'.
Qed.

Lemma same_name_size a b :
  a ∈ U -> b ∈ U -> type_name a = type_name b -> schema_size a = schema_size b.
Proof.
  intros Ha Hb Hn. destruct erase_size as [_ He]. rewrite <- (He a), <- (He b). f_equal. by apply Hco.
Qed.

(** Some description is ready as long as there is one left: one of a smallest
    schema. *)
Lemma ready_exists remaining M :
  remaining <> [] -> Forall (fun td => exists s, describes td s) remaining ->
  (forall td s d, td ∈ remaining -> describes td s -> d ∈ direct s ->
    is_Some (M !! type_name d) \/ type_name d ∈ map td_name remaining) ->
  exists td, td ∈ remaining /\ forall s, describes td s -> ready M s.
Proof.
  intros Hne Hf Hc.
  destruct (minimum_exists (fun td n => exists s, describes td s /\ schema_size s = n) remaining)
    as (td & n & Htd & (s & Hs & Hsz) & Hmin); [|by eapply Forall_impl; [exact Hf|]; intros ? [s ?]; eauto|done|].
  - intros td n m (a & Ha & <-) (b & Hb & <-).
    apply same_name_size; [apply Ha | apply Hb |].
    by rewrite <- (describes_name _ _ Ha), <- (describes_name _ _ Hb).
  - exists td. split; [done|]. intros s2 Hs2 d Hd.
    destruct (Hc td s2 d Htd Hs2 Hd) as [?|Hn]; [done|]. exfalso.
    apply list_elem_of_fmap in Hn as (td' & Hn & Htd').
    destruct (proj1 (Forall_forall _ _) Hf td' Htd') as [s3 Hs3].
    pose proof (Hmin td' (schema_size s3) Htd' (ex_intro _ s3 (conj Hs3 eq_refl))) as Hle.
    rewrite (same_name_size s3 d) in Hle;
      [|apply Hs3 | eapply Hclosed; [apply Hs2|done] | by rewrite <- (describes_name _ _ Hs3)].
    rewrite (same_name_size s s2) in Hsz;
      [|apply Hs | apply Hs2 | by rewrite <- (describes_name _ _ Hs), <- (describes_name _ _ Hs2)].
    apply direct_size in Hd. lia.
Qed.

Lemma resolve_loop_spec fuel : forall remaining M,
  (length remaining <= fuel)%nat ->
  Forall (fun td => exists s, describes td s) remaining -> agree_map M ->
  (forall td s d, td ∈ remaining -> describes td s -> d ∈ direct s ->
    is_Some (M !! type_name d) \/ type_name d ∈ map td_name remaining) ->
  exists M', resolve_loop fuel remaining M = Some (Ok M') /\ agree_map M' /\
    (forall n, is_Some (M !! n) -> is_Some (M' !! n)) /\
    forall td, td ∈ remaining -> is_Some (M' !! td_name td).
Proof.
  induction fuel as [|fuel IH]; intros [|td0 rest] M Hl Hf HM Hc; try (cbn in Hl; lia);
    try (exists M; split_and!; [done..|]; intros td Htd; by apply elem_of_nil in Htd).
  set (remaining := td0 :: rest) in *. change (resolve_loop (S fuel) remaining M) with
    (match resolve_pass remaining M with
     | Ok (m, kept) =>
         let made_progress := (length kept <? length remaining)%nat in
         if negb made_progress && negb (Nat.eqb (length kept) 0)
         then Some (Err (SerializationError ("Cannot resolve dependencies for types: "
                                               ++ String.concat ", " (map td_name kept))))
         else resolve_loop fuel kept m
     | Err e => Some (Err e)
     | Panic => Some Panic
     end).
  destruct (resolve_pass_spec remaining M Hf HM) as (M1 & kept & -> & HM1 & Hdom & Hsub & Hcov & Hprog).
  assert (length kept < length remaining)%nat as Hlt.
  { apply Hprog. by apply ready_exists. }
  cbv zeta. rewrite (proj2 (Nat.ltb_lt _ _) Hlt). cbn [negb andb].
  destruct (IH kept M1) as (M' & -> & HM' & Hdom' & Hall).
  - lia.
  - apply Forall_forall. intros x Hx. apply (proj1 (Forall_forall _ _) Hf). by eapply sublist_subseteq.
  - done.
  - intros td s d Htd Hs Hd.
    destruct (Hc td s d) as [?|Hn]; [by eapply sublist_subseteq|done|done| |]; [left; auto|].
    apply list_elem_of_fmap in Hn as (td' & Hn & Htd').
    destruct (Hcov td' Htd') as [Hk|Hk]; [right|left; by rewrite Hn].
    rewrite Hn. by apply list_elem_of_fmap_2.
  - exists M'. split_and!; [done|done|auto|]. intros td Htd. destruct (Hcov td Htd); auto.
Qed.
End Resolution.

(** *** Collecting the references *)

Lemma direct_names_erase s : map type_name (direct (erase s)) = map type_name (direct s).
Proof.
  destruct s as [tn p n fs h]. unfold direct. cbn.
  assert (forall t, type_name <$> base_message (erase_type t) = type_name <$> base_message t) as Hb
    by (intros t; induction t; cbn; try done; by rewrite erase_name).
  induction fs as [|[fn t fd] fs IH]; [done|]. cbn. specialize (Hb t).
  destruct (base_message (erase_type t)), (base_message t); cbn in *; try done; simplify_eq; congruence.
Qed.

(** What a collection over schemas [ss] adds to [(ref, vis)]: new descriptions
    with distinct names that were not visited; the visited names grow by theirs,
    and then cover the references of every new schema and the names [need]. *)
Definition collects (ss : list MessageSchema) (need : list string)
    (run : Collected -> res DynamicError Collected) : Prop :=
  forall ref vis, exists new,
    run (ref, vis) = Ok (ref ++ new, list_to_set (map td_name new) ∪ vis)%list /\
    NoDup (map td_name new) /\
    (forall n, n ∈ map td_name new -> n ∉ vis) /\
    (forall n, n ∈ need -> n ∈ map td_name new \/ n ∈ vis) /\
    Forall (fun td => exists s, s ∈ ss /\ to_type_description s = Ok td /\
      forall d, d ∈ direct s -> type_name d ∈ map td_name new \/ type_name d ∈ vis) new.

Lemma collects_nil ss : collects ss [] (fun st => Ok st).
Proof.
  intros ref vis. exists []. rewrite app_nil_r. cbn. split_and!.
  - do 2 f_equal. set_solver.
  - apply NoDup_nil_2.
  - intros n Hn. by apply elem_of_nil in Hn.
  - intros n Hn. by apply elem_of_nil in Hn.
  - constructor.
Qed.

Lemma collects_seq ss1 ss2 need1 need2 f g :
  collects ss1 need1 f -> collects ss2 need2 g ->
  collects (ss1 ++ ss2) (need1 ++ need2) (fun st => st ← f st; g st).
Proof.
  intros Hf Hg ref vis. destruct (Hf ref vis) as (n1 & -> & D1 & V1 & N1 & F1). cbn [mbind res_bind].
  destruct (Hg (ref ++ n1)%list (list_to_set (map td_name n1) ∪ vis)) as (n2 & -> & D2 & V2 & N2 & F2).
  exists (n1 ++ n2)%list. rewrite map_app. split_and!.
  - rewrite <- app_assoc, list_to_set_app_L. do 2 f_equal. set_solver.
  - apply NoDup_app. split_and!; [done| |done]. intros n H1 H2. apply (V2 n H2).
    apply elem_of_union. left. by apply elem_of_list_to_set.
  - intros n [H1|H2]%elem_of_app; [by apply V1|]. intros Hv. apply (V2 n H2). apply elem_of_union. by right.
  - intros n [H|H]%elem_of_app; rewrite elem_of_app.
    + destruct (N1 n H); auto.
    + destruct (N2 n H) as [|Hx]; [auto|]. rewrite elem_of_union, elem_of_list_to_set in Hx. destruct Hx; auto.
  - apply Forall_app. split.
    + eapply Forall_impl; [exact F1|]. intros td (s & Hs & Ht & Hd). exists s.
      rewrite elem_of_app. split_and!; auto. intros d Hx. rewrite elem_of_app. destruct (Hd d Hx); auto.
    + eapply Forall_impl; [exact F2|]. intros td (s & Hs & Ht & Hd). exists s.
      rewrite elem_of_app. split_and!; auto. intros d Hx. rewrite elem_of_app.
      destruct (Hd d Hx) as [|Hy]; [auto|]. rewrite elem_of_union, elem_of_list_to_set in Hy. destruct Hy; auto.
Qed.

Definition needs (t : FieldType) : list string :=
  match base_message t with Some s => [type_name s] | None => [] end.

Lemma collects_message s :
  collects (schema_nested s) (map type_name (direct s)) (collect_referenced_types s) ->
  collects (s :: schema_nested s) [type_name s] (collect_field_type_references (TyMessage s)).
Proof.
  intros H ref vis. cbn [collect_field_type_references snd fst].
  destruct (decide (type_name s ∈ vis)) as [Hv|Hv].
  { destruct (collects_nil (s :: schema_nested s) ref vis) as (new & Hr & D & V & _ & F).
    exists new. split_and!; try done. intros n ->%list_elem_of_singleton. by right. }
  destruct (H ref ({[type_name s]} ∪ vis)) as (new & -> & D & V & N & F). cbn [mbind res_bind fst snd].
  destruct (to_type_description_ok s) as (td & Htd & Hn). rewrite Htd. cbn [mbind res_bind].
  assert (forall n, n ∈ map td_name new \/ n ∈ {[type_name s]} ∪ vis ->
    n ∈ map td_name (new ++ [td]) \/ n ∈ vis) as Hin.
  { intros n. rewrite map_app, elem_of_app, elem_of_union, elem_of_singleton. cbn.
    rewrite list_elem_of_singleton, Hn. intros [?|[?|?]]; auto. }
  exists (new ++ [td])%list. split_and!.
  - rewrite app_assoc, map_app, list_to_set_app_L. cbn. rewrite Hn. do 2 f_equal. set_solver.
  - rewrite map_app. apply NoDup_app. split_and!; [done| |apply NoDup_singleton].
    intros n H1 ->%list_elem_of_singleton. rewrite Hn in H1. apply (V _ H1). set_solver.
  - intros n. rewrite map_app, elem_of_app. intros [H1|H1] Hx; [apply (V n H1); set_solver|].
    apply list_elem_of_singleton in H1. by rewrite H1, Hn in Hx.
  - intros n ->%list_elem_of_singleton. apply Hin. right. set_solver.
  - apply Forall_app. split.
    + eapply Forall_impl; [exact F|]. intros td' (s' & Hs' & Ht' & Hd'). exists s'.
      split_and!; [by right|done|]. intros d Hd. apply Hin. auto.
    + apply Forall_singleton. exists s. split_and!; [by left|done|]. intros d Hd. apply Hin, N.
      by apply list_elem_of_fmap_2.
Qed.

Lemma collect_spec :
  (forall t, collects (nested t) (needs t) (collect_field_type_references t)) /\
  (forall s, collects (schema_nested s) (map type_name (direct s)) (collect_referenced_types s)).
Proof.
  apply type_schema_ind; try done.
  - intros t Hb [Hp|[n ->]]; [|apply (collects_nil [])].
    unfold needs. rewrite Hb. destruct t; try done; apply (collects_nil []).
  - intros s H. by apply collects_message.
  - intros tn p n fs h IH. unfold direct. cbn [schema_nested fields].
    induction IH as [|[fn t fd] fs Ht _ IHfs]; [apply (collects_nil [])|]. cbn [flat_map omap list_omap field_type].
    replace (map type_name _) with (needs t ++ map type_name (omap (fun f => base_message (field_type f)) fs))%list
      by (unfold needs; cbn; by destruct (base_message t)).
    exact (collects_seq _ _ _ _ _ _ Ht IHfs).
Qed.

(** *** The conversions as a whole *)

Lemma nested_trans : 
  (forall t x y, x ∈ nested t -> y ∈ schema_nested x -> y ∈ nested t) /\
  (forall s x y, x ∈ schema_nested s -> y ∈ schema_nested x -> y ∈ schema_nested s).
Proof.
  apply type_schema_ind; try done.
  - intros t Hb [Hp|[n ->]] x y Hx; [|by apply elem_of_nil in Hx]. by destruct t; try done; apply elem_of_nil in Hx.
  - intros s IH x y [->|Hx]%elem_of_cons Hy; right; [done|]. by eapply IH.
  - intros tn p n fs h IH x y (f & Hf & Hx)%schema_nested_elem Hy.
    apply schema_nested_elem. exists f. split; [done|]. rewrite Forall_forall in IH. exact (IH f Hf x y Hx Hy).
Qed.

Lemma nested_describable :
  (forall t, describable t -> forall x, x ∈ nested t -> schema_describable x) /\
  (forall s, schema_describable s -> forall x, x ∈ schema_nested s -> schema_describable x).
Proof.
  apply type_schema_ind.
  - intros t Hb [Hp|[n ->]] _ x Hx; [|by apply elem_of_nil in Hx]. by destruct t; try done; apply elem_of_nil in Hx.
  - intros s IH Hs x [->|Hx]%elem_of_cons; [done|]. by apply IH.
  - intros i n IH [_ Hd]. exact (IH Hd).
  - intros i IH [_ Hd]. exact (IH Hd).
  - intros i n IH [_ Hd]. exact (IH Hd).
  - intros tn p n fs h IH [_ Hd] x. rewrite schema_nested_elem. intros (f & Hf & Hx).
    rewrite Forall_forall in IH. apply (IH f Hf); [|done]. cbn [fields] in Hf. clear -Hd Hf.
    induction fs as [|g fs IH]; [by apply elem_of_nil in Hf|]. destruct Hd as [Hg Hd].
    apply elem_of_cons in Hf as [->|Hf]; [by destruct g | by apply IH].
Qed.

Lemma schema_describable_parts s :
  schema_describable s -> length (split_on "/" (type_name s)) = 3%nat.
Proof. destruct s as [tn p n fs h]. intros [[m Hm] _]. cbn. by rewrite Hm. Qed.

Lemma partial_pass_ok refs (m : gmap string MessageSchema) :
  Forall (fun td => length (split_on "/" (td_name td)) = 3%nat) refs ->
  exists m', for_each (fun (m : gmap string MessageSchema) ref_td =>
    schema ← type_description_to_schema_partial ref_td;
    Ok (E := DynamicError) (<[td_name ref_td := schema]> m)) m refs = Ok m'.
Proof.
  intros Hf. revert m. induction Hf as [|td refs Htd _ IH]; intros m; [by eexists|]. cbn [for_each].
  assert (exists x, type_description_to_schema_partial td = Ok x) as [x ->].
  { unfold type_description_to_schema_partial.
    destruct (split_on "/" (td_name td)) as [|a [|b [|c [|d l]]]]; try done. by eexists. }
  cbn [mbind res_bind]. apply IH.
Qed.

Lemma description_roundtrip_ok s :
  schema_describable s -> coherent (schema_nested s) ->
  exists msg, to_type_description_msg s = Ok msg /\ type_description_msg_to_schema msg = Ok (erase s).
Proof.
  intros Hs Hco. destruct (proj2 collect_spec s [] ∅) as (new & Hr & D & V & N & F).
  destruct (to_type_description_ok s) as (td & Htd & Hn).
  unfold to_type_description_msg. rewrite Hr. cbn [mbind res_bind fst]. rewrite Htd. cbn [mbind res_bind].
  eexists. split; [reflexivity|]. cbn [app]. set (refs := sort_by td_name new).
  assert (refs ≡ₚ new) as Hp by apply sort_by_perm.
  set (U := schema_nested s) in *.
  assert (forall x d, x ∈ U -> d ∈ direct x -> d ∈ U) as Hclosed.
  { intros x d Hx Hd. apply (proj2 nested_trans s x d Hx). by apply direct_nested. }
  pose proof (proj2 nested_describable s Hs : forall x, x ∈ U -> schema_describable x) as Hdesc.
  assert (forall d td', d ∈ U -> td' ∈ new -> td_name td' = type_name d ->
    forall d', d' ∈ direct d -> type_name d' ∈ map td_name new) as Hnew.
  { intros d td' Hd Ht Hn' d' Hd'. rewrite Forall_forall in F. destruct (F td' Ht) as (x & Hx & Hxt & Hdx).
    assert (map type_name (direct x) = map type_name (direct d)) as Hm.
    { rewrite <- (direct_names_erase x), <- (direct_names_erase d). do 2 f_equal. apply Hco; [done..|].
      rewrite <- Hn'. destruct (to_type_description_ok x) as (t2 & Ht2 & <-). congruence. }
    assert (type_name d' ∈ map type_name (direct x)) as (d2 & -> & Hd2)%list_elem_of_fmap
      by (rewrite Hm; by apply list_elem_of_fmap_2).
    destruct (Hdx d2 Hd2) as [|Hx0]; [done|]. by apply elem_of_empty in Hx0. }
  assert (Forall (fun td => exists s, describes U td s) refs) as Hd.
  { rewrite Hp. eapply Forall_impl; [exact F|]. intros t (x & Hx & Ht & _). by exists x. }
  unfold type_description_msg_to_schema. cbn [referenced_type_descriptions type_description].
  destruct (partial_pass_ok refs ∅) as [m' ->].
  { eapply Forall_impl; [exact Hd|]. intros t (x & Hx). rewrite (describes_name U _ _ Hx).
    apply schema_describable_parts, Hdesc, Hx. }
  cbn [mbind res_bind].
  destruct (resolve_loop_spec U Hco Hclosed Hdesc (length refs) refs ∅) as (M & -> & HM & _ & Hall); try done.
  { intros t x d Ht Hx Hd'. right. rewrite Hp in Ht |- *.
    eapply Hnew; [apply Hx|exact Ht|by apply (describes_name U)|done]. }
  cbn [mbind res_bind].
  destruct (full_cases M s td Hs Htd) as [[-> _]|[_ Hr']]; [| done |].
  - intros d s' Hd' Hl. eapply HM; [exact Hl| by apply direct_nested | done].
  - destruct Hr'. intros d Hd'.
    destruct (N (type_name d)) as [(t & -> & Ht)%list_elem_of_fmap|Hx]; [by apply list_elem_of_fmap_2| |].
    + apply Hall. by rewrite Hp.
    + by apply elem_of_empty in Hx.
Qed.

(** *** Termination and safety on any description *)

Lemma base_field_type_safe d M : no_panic (base_field_type d M).
Proof.
  unfold base_field_type. cbv zeta. repeat case_match; auto with rosz.
  apply no_panic_bind; auto with rosz.
Qed.

Lemma traverse_safe {E A B} (f : A -> res E B) l :
  (forall x, no_panic (f x)) -> no_panic (traverse f l).
Proof.
  intros H. induction l as [|x l IH]; cbn; auto with rosz.
  apply no_panic_bind; [done|]. intros y _. apply no_panic_bind; auto with rosz.
Qed.

Lemma full_safe td M : no_panic (type_description_to_schema_full td M).
Proof.
  unfold type_description_to_schema_full.
  destruct (split_on "/" (td_name td)) as [|a [|b [|c [|d l]]]]; cbn; auto with rosz.
  apply no_panic_bind; [|intros; cbn; auto with rosz]. apply traverse_safe. intros fd.
  unfold field_description_to_schema. apply no_panic_bind; [|auto with rosz].
  unfold field_type_description_to_type. apply no_panic_bind; [apply base_field_type_safe|].
  intros t _. repeat case_match; auto with rosz.
Qed.

Lemma resolve_pass_total remaining : forall M,
  exists M' kept, resolve_pass remaining M = Ok (M', kept) /\ (length kept <= length remaining)%nat.
Proof.
  induction remaining as [|td rest IH]; intros M; cbn; [by eexists _, []|].
  pose proof (full_safe td M) as Hs. destruct (type_description_to_schema_full td M) as [s|e|]; [| |done].
  - destruct (IH (<[td_name td:=s]> M)) as (M' & kept & -> & ?). exists M', kept. split; [done|lia].
  - destruct (IH M) as (M' & kept & -> & ?). exists M', (td :: kept). split; [done|cbn; lia].
Qed.

Lemma resolve_loop_total fuel : forall remaining M,
  (length remaining <= fuel)%nat -> exists r, resolve_loop fuel remaining M = Some r /\ no_panic r.
Proof.
  induction fuel as [|fuel IH]; intros [|td rest] M Hl; try (cbn in Hl; lia);
    try (eexists; split; [reflexivity | apply no_panic_Ok]).
  cbn [resolve_loop]. destruct (resolve_pass_total (td :: rest) M) as (M' & kept & -> & Hk).
  cbv zeta. destruct (Nat.ltb_spec (length kept) (length (td :: rest))); cbn [negb andb].
  - apply IH. lia.
  - destruct (Nat.eqb_spec (length kept) 0) as [Hz|]; cbn [negb].
    + rewrite Hz in *. cbn in *. lia.
    + eexists. split; [reflexivity | apply no_panic_Err].
Qed.

Lemma full_shape td M s :
  type_description_to_schema_full td M = Ok s ->
  type_name s = td_name td /\ map field_name (fields s) = map fd_name (td_fields td) /\
  type_hash s = None /\ length (split_on "/" (td_name td)) = 3%nat.
Proof.
  unfold type_description_to_schema_full.
  destruct (split_on "/" (td_name td)) as [|a [|b [|c [|d l]]]]; cbn; try done. intros H. res_inv.
  cbn. split_and!; try done. revert a0 E. induction (td_fields td) as [|fd fds IH]; intros l' E; cbn in E.
  - by simplify_eq.
  - res_inv. cbn. rewrite (IH a1) by done. f_equal. unfold field_description_to_schema in *. by res_inv.
Qed.

(** ** Properties *)


Definition ex_point : MessageSchema :=
  mkSchema "geometry_msgs/msg/Point" "geometry_msgs" "Point"
    [mkField "x" TyFloat64 None; mkField "y" TyFloat64 (Some (VlFloat64 0))] None.
Definition ex_pose : MessageSchema :=
  mkSchema "a_msgs/msg/Pose" "a_msgs" "Pose" [mkField "p" (TyMessage ex_point) None] None.
Definition ex_path : MessageSchema :=
  mkSchema "nav_msgs/msg/Path" "nav_msgs" "Path"
    [mkField "poses" (TySequence (TyMessage ex_pose)) None; mkField "o" (TyArray (TyMessage ex_point) 2) None;
     mkField "name" (TyBoundedString 8) None; mkField "b" (TyBoundedSequence TyUint8 4) None] (Some "h").


(** Termination: on any type description message, cyclic and incomplete ones
    too, the loop returns within as many passes as there are descriptions, and
    the conversion does not panic; what it returns has the described name (of
    three parts) and the described fields. *)
Theorem description_resolution_terminates msg :
  (exists r, resolve_loop (length (referenced_type_descriptions msg))
               (referenced_type_descriptions msg) ∅ = Some r) /\
  match type_description_msg_to_schema msg with
  | Ok s =>
      type_name s = td_name (type_description msg) /\
      map field_name (fields s) = map fd_name (td_fields (type_description msg)) /\
      type_hash s = None /\ length (split_on "/" (type_name s)) = 3%nat
  | Err _ => True
  | Panic => False
  end.
Proof.
  set (refs := referenced_type_descriptions msg).
  destruct (resolve_loop_total (length refs) refs ∅) as (r & Hr & Hp); [done|].
  split; [by exists r|]. unfold type_description_msg_to_schema. fold refs. rewrite Hr.
  assert (forall m, no_panic (for_each (fun (m : gmap string MessageSchema) ref_td =>
    schema ← type_description_to_schema_partial ref_td;
    Ok (E := DynamicError) (<[td_name ref_td := schema]> m)) m refs)) as Hf.
  { clear. induction refs as [|td refs IH]; intros m; cbn; auto with rosz.
    apply no_panic_bind; [|auto]. unfold type_description_to_schema_partial.
    destruct (split_on "/" (td_name td)) as [|a [|b [|c [|d l]]]]; cbn; auto with rosz. }
  specialize (Hf ∅). destruct (for_each _ ∅ refs); cbn [mbind res_bind]; [|done|done].
  destruct r as [M|e|]; cbn [mbind res_bind]; [|done|done].
  pose proof (full_safe (type_description msg) M) as Hs.
  destruct (type_description_to_schema_full (type_description msg) M) as [s|e|] eqn:E; [|done|done].
  destruct (full_shape _ _ _ E) as (Hn & Hf' & Hh & Hl). by rewrite Hn.
Qed.

(** What a description forgets: the bound of strings inside an array, and the
    inner shape of an array of arrays. *)
Lemma description_forgets :
  let s t := mkSchema "a/msg/B" "a" "B" [mkField "f" t None] None in
  let back t := msg ← to_type_description_msg (s t); type_description_msg_to_schema msg in
  back (TySequence (TyBoundedString 5)) = Ok (s (TySequence TyString)) /\
  back (TyArray (TyArray TyInt32 3) 2) = Ok (s (TyArray TyInt32 2)) /\
  (exists e, back (TyArray (TySequence (TyMessage ex_point)) 2) = Err e).
Proof. split_and!; [vm_compute; reflexivity..|]. eexists. vm_compute. reflexivity. Qed.

(** The identifier that the code generator gives a bounded string (21) is not
    one the dynamic side reads. *)
Lemma bounded_string_id_unknown n M :
  field_type_description_to_type (mkFTD TypeId.BOUNDED_STRING 0 n "") M =
    Err (SerializationError "Unknown type ID: 21").
Proof. reflexivity. Qed.
