(* ===== verification/DescriptionService.v ===== *)
(** * The type description service and its client
    (crates/ros-z/src/dynamic/type_description_service.rs,
    type_description_client.rs, pubsub.rs)

    The registered schemas behind their lock, the response to a request with
    every way it fails, the callback that answers a query, and the client: the
    name it calls, the conversion of a response to a schema and the search
    through the publishers of a topic.  With them the type information of a
    dynamic publisher, and the theorem that discovery gives its schema back. *)
From stdpp Require Import gmap strings.
From S2P Require Import Prelude CdrBuffer Utf8 RustStr RustColl TopicName CdrPrimitives CdrSpec CdrSerializer CdrDeserializer Queue Attachment Qos Entity SchemaModel RmwZenoh Ros2Dds Service DescriptionWire DynTypes TypeDescription DescriptionRoundtrip.
Open Scope string_scope.

(** ** Definitions *)

(** *** Wire conversions *)

Definition field_to_wire (fd : FieldDescription) : WireField :=
  mkWireField (fd_name fd)
    (mkWireFieldType (type_id (fd_type fd)) (capacity (fd_type fd)) (string_capacity (fd_type fd))
       (nested_type_name (fd_type fd)))
    (fd_default fd).
Definition individual_to_wire (td : TypeDescription) : WireIndividualTypeDescription :=
  mkWireIndividual (td_name td) (map field_to_wire (td_fields td)).
Definition schema_to_wire_type_description (s : MessageSchema) : res DynamicError WireTypeDescription :=
  type_desc_msg ← to_type_description_msg s;
  Ok (mkWireTypeDescription (individual_to_wire (type_description type_desc_msg))
        (map individual_to_wire (referenced_type_descriptions type_desc_msg))).

Definition wire_to_schema_field (wire : WireField) : FieldDescription :=
  mkFD (wf_name wire)
    (mkFTD (wft_type_id (wf_field_type wire)) (wft_capacity (wf_field_type wire))
       (wft_string_capacity (wf_field_type wire)) (wft_nested_type_name (wf_field_type wire)))
    (wf_default_value wire).
Definition wire_to_schema_individual (wire : WireIndividualTypeDescription) : TypeDescription :=
  mkTD (witd_type_name wire) (map wire_to_schema_field (witd_fields wire)).
Definition wire_to_schema_type_description (wire : WireTypeDescription) : TypeDescriptionMsg :=
  mkTDM (wire_to_schema_individual (wtd_type_description wire))
    (map wire_to_schema_individual (wtd_referenced wire)).

(** *** Names *)

(** [str::trim_end_matches] of a character. *)
Fixpoint trim_end_char (c : ascii) (s : string) : string :=
  match s with
  | EmptyString => EmptyString
  | String a r =>
      match trim_end_char c r with
      | EmptyString => if Ascii.eqb a c then EmptyString else String a EmptyString
      | r' => String a r'
      end
  end.

(** [normalize_type_name] of the client, and the name [with_dyn_schema] gives. *)
Definition normalize_type_name (dds_name : string) : string :=
  trim_end_char "_" (replace "::action::dds_::" "/action/"
    (replace "::srv::dds_::" "/srv/" (replace "::msg::dds_::" "/msg/" dds_name))).
Definition dds_type_name (type_name : string) : string :=
  replace "/action/" "::action::dds_::" (replace "/srv/" "::srv::dds_::"
    (replace "/msg/" "::msg::dds_::" type_name)) ++ "_".

Section Types.
Context `{HA : HashApi} `{HX : HexApi}.

(** [with_dyn_schema], of both builders: the type information is set unless it is
    already there. *)
Definition dyn_type_hash {E} (s : MessageSchema) : res E TypeHash :=
  match compute_type_hash s with
  | Ok hash => Ok (default TypeHash_zero (from_rihs_string (schema_to_rihs_string hash)))
  | Err _ => Ok TypeHash_zero
  | Panic => Panic
  end.
Definition with_dyn_schema {E} (type_info : option TypeInfo) (s : MessageSchema) : res E (option TypeInfo) :=
  match type_info with
  | None => type_hash ← dyn_type_hash s; Ok (Some (mkTypeInfo (dds_type_name (type_name s)) type_hash))
  | Some t => Ok (Some t)
  end.

(** *** The service's schemas *)

Record TypeSource := mkTypeSource { ts_encoding : string; ts_raw_content : string }.
Record RegisteredSchema := mkRegistered {
  rs_schema : MessageSchema; rs_type_hash : string; rs_source : option TypeSource }.
Definition RegisteredSchema_new (s : MessageSchema) : res DynamicError RegisteredSchema :=
  type_hash ← compute_type_hash s;
  Ok (mkRegistered s (schema_to_rihs_string type_hash) None).
Definition with_source (s : MessageSchema) (encoding raw_content : string) : res DynamicError RegisteredSchema :=
  type_hash ← compute_type_hash s;
  Ok (mkRegistered s (schema_to_rihs_string type_hash) (Some (mkTypeSource encoding raw_content))).

(** The map behind its [RwLock], and whether the lock is poisoned. *)
Record Schemas := mkSchemas { tds_map : gmap string RegisteredSchema; tds_poisoned : bool }.
Definition insert_registered (st : Schemas) (s : MessageSchema) (registered : RegisteredSchema)
    : res DynamicError Schemas :=
  if tds_poisoned st then Err RegistryLockPoisoned
  else Ok (mkSchemas (<[type_name s := registered]> (tds_map st)) false).
Definition register_schema (st : Schemas) (s : MessageSchema) : res DynamicError Schemas :=
  registered ← RegisteredSchema_new s; insert_registered st s registered.
Definition register_schema_with_source (st : Schemas) (s : MessageSchema) (encoding raw_content : string)
    : res DynamicError Schemas :=
  registered ← with_source s encoding raw_content; insert_registered st s registered.
Definition unregister_schema (st : Schemas) (name : string) : res DynamicError Schemas :=
  if tds_poisoned st then Err RegistryLockPoisoned
  else Ok (mkSchemas (delete name (tds_map st)) false).
Definition tds_get_schema (st : Schemas) (name : string) : res DynamicError (option RegisteredSchema) :=
  if tds_poisoned st then Err RegistryLockPoisoned else Ok (tds_map st !! name).
Definition list_types (st : Schemas) : res DynamicError (list string) :=
  if tds_poisoned st then Err RegistryLockPoisoned else Ok (map fst (map_to_list (tds_map st))).

(** [collect_type_sources]. *)
Definition source_of (name : string) (source : option TypeSource) : list WireTypeSource :=
  match source with
  | Some s => [mkWireTypeSource name (ts_encoding s) (ts_raw_content s)]
  | None => []
  end.
Definition collect_type_sources (registered : RegisteredSchema) (all_schemas : gmap string RegisteredSchema)
    : list WireTypeSource :=
  (source_of (type_name (rs_schema registered)) (rs_source registered) ++
   match to_type_description_msg (rs_schema registered) with
   | Ok msg => concat (map (fun ref_td =>
       match all_schemas !! td_name ref_td with
       | Some r => source_of (td_name ref_td) (rs_source r)
       | None => []
       end) (referenced_type_descriptions msg))
   | _ => []
   end)%list.

(** [env!("CARGO_PKG_VERSION")]. *)
Context (cargo_pkg_version : string).

Definition failed (reason : string) : GetTypeDescriptionResponse :=
  mkResponse false reason WireTypeDescription_default [] [].
Definition build_response {E} (st : Schemas) (request : GetTypeDescriptionRequest)
    : res E GetTypeDescriptionResponse :=
  if tds_poisoned st then Ok (failed "Internal error: registry lock poisoned") else
  match tds_map st !! req_type_name request with
  | None => Ok (failed ("Type '" ++ req_type_name request ++ "' not registered"))
  | Some registered =>
      if negb (String.eqb (req_type_hash request) "") &&
         negb (String.eqb (req_type_hash request) (rs_type_hash registered))
      then Ok (failed ("Type hash mismatch: expected " ++ rs_type_hash registered ++ ", got "
                         ++ req_type_hash request))
      else
        match schema_to_wire_type_description (rs_schema registered) with
        | Err e => Ok (failed ("Failed to convert schema: " ++ DynamicError_fmt e))
        | Panic => Panic
        | Ok type_description =>
            let type_sources := if include_type_sources request
                                then collect_type_sources registered (tds_map st) else [] in
            Ok (mkResponse true "" type_description type_sources
                  [mkWireKeyValue "ros_z_version" cargo_pkg_version])
        end
  end.

Section Endpoint.
Context `{ZA : ZenohApi} `{ZExt : ZExtApi} `{Chan : ChannelApi} `{Sess : SessionApi}.
Context {ReqM : ZMessage GetTypeDescriptionRequest} {RspM : ZMessage GetTypeDescriptionResponse}.
Context (endpoint_gid : EndpointEntity -> GidArray).

#[export] Instance GetTypeDescription : ZService :=
  {| Request := GetTypeDescriptionRequest; Response := GetTypeDescriptionResponse |}.
Definition service_type_info {E} : res E TypeInfo :=
  hash ← unwrap (from_rihs_string "RIHS01_69b9c19c1021405984cc60dbbb1edceb147a6538b411d812ba6afabeed962cd5");
  Ok (TypeInfo_new "type_description_interfaces::srv::dds_::GetTypeDescription_" hash).

(** [handle_query]: the reply, if there is one; it carries no attachment. *)
Definition handle_query (st : Schemas) (query : ServiceQuery) : res ZError (option Sample) :=
  match payload (sq_query query) with
  | None => Ok None
  | Some payload =>
      match msg_deserialize payload with
      | Err _ => Ok None
      | Panic => Panic
      | Ok request =>
          response ← build_response st request;
          bytes ← unwrap (msg_serialize response);
          Ok (Some (mkSample (sq_token query) bytes None))
      end
  end.

(** [TypeDescriptionService::new]: the endpoint, in domain 0; [id] is what the
    counter gave. *)
Definition tds_entity {E} (node_name namespace : string) (zid : ZenohId) (node_id id : Z) : res E EndpointEntity :=
  t ← service_type_info;
  Ok (mkEndpoint id (NodeEntity_new 0 zid node_id node_name namespace "") KService "~get_type_description"
        (Some t) QosProfile_default).
Definition tds_new (node_name namespace : string) (zid : ZenohId) (node_id id : Z)
    : res ZError (Schemas * ZServer) :=
  entity ← tds_entity node_name namespace zid node_id id;
  server ← build_with_callback endpoint_gid entity KeyExprFormat_default zid;
  Ok (mkSchemas ∅ false, server).

(** *** The client *)

(** [create_client]: a node of its own, in domain 0; [ids] are what the counter
    gave for it and for the endpoint. *)
Context (zerror_fmt : ZError -> string).
Definition tdc_entity {E} (service_name namespace : string) (zid : ZenohId) (ids : Z * Z) : res E EndpointEntity :=
  t ← service_type_info;
  Ok (mkEndpoint ids.2 (NodeEntity_new 0 zid ids.1 "type_desc_client" namespace "") KClient service_name
        (Some t) QosProfile_default).
Definition create_client (service_name namespace : string) (zid : ZenohId) (ids : Z * Z)
    : res DynamicError ZClient :=
  entity ← tdc_entity service_name namespace zid ids;
  map_err (fun e => SerializationError (zerror_fmt e))
    (client_build endpoint_gid entity KeyExprFormat_default zid).

Definition description_service_name (node_name namespace : string) : string :=
  if String.eqb namespace "" || String.eqb namespace "/"
  then "/" ++ node_name ++ "/get_type_description"
  else namespace ++ "/" ++ node_name ++ "/get_type_description".

(** [get_type_description]: [net] is the reply that comes within the timeout. *)
Context (zid : ZenohId) (net : ServiceQuery -> option Sample).
Definition get_type_description (ids : Z * Z) (now : option Z)
    (node_name namespace type_name type_hash : string) (include_sources : bool)
    : res DynamicError GetTypeDescriptionResponse :=
  let service_name := description_service_name node_name namespace in
  client ← create_client service_name "" zid ids;
  let request := mkRequest type_name type_hash include_sources in
  let '(sent, client) := send_request (Svc := GetTypeDescription) client 0 now request in
  query ← map_err (fun e => SerializationError (zerror_fmt e)) sent;
  let client := on_reply client (net query) in
  match (take_response_timeout (Svc := GetTypeDescription) true client).1 with
  | Done r => map_err (fun e => DeserializationError (zerror_fmt e)) r
  | Blocked => Panic
  end.

(** [response_to_schema]. *)
Definition response_to_schema (response : GetTypeDescriptionResponse) : res DynamicError MessageSchema :=
  if negb (successful response) then
    Err (SerializationError ("Response indicates failure: " ++ failure_reason response))
  else type_description_msg_to_schema (wire_to_schema_type_description (rsp_type_description response)).

(** [get_type_description_for_topic].  [snapshot n] is what the graph returns at
    its [n]th look (one at once, five more half a second apart while there is no
    publisher); [late n] whether the deadline has passed before the [n]th query;
    [ids] and [nows] what the counter and the clock give to it. *)
Context (ids : nat -> Z * Z) (nows : nat -> option Z) (late : nat -> bool).
Fixpoint find_publishers (snapshot : nat -> list Entity) (n attempts : nat) : list Entity :=
  match snapshot n with
  | [] => match attempts with O => [] | S attempts => find_publishers snapshot (S n) attempts end
  | publishers => publishers
  end.
Fixpoint query_publishers (topic type_name type_hash : string) (last_error : option DynamicError)
    (n : nat) (publishers : list Entity) : res DynamicError (MessageSchema * string) :=
  let gives_up := Err (default (SchemaNotFound ("Failed to get type description from any publisher on " ++ topic))
                        last_error) in
  match publishers with
  | [] => gives_up
  | publisher :: rest =>
      if late n then gives_up else
      match publisher with
      | ENode _ => query_publishers topic type_name type_hash last_error (S n) rest
      | EEndpoint endpoint =>
          match get_type_description (ids n) (nows n) (node_name (ep_node endpoint))
                  (node_namespace (ep_node endpoint)) type_name type_hash false with
          | Ok response =>
              if successful response then
                schema ← response_to_schema response; Ok (schema, type_hash)
              else query_publishers topic type_name type_hash
                     (Some (SerializationError (failure_reason response))) (S n) rest
          | Err e => query_publishers topic type_name type_hash (Some e) (S n) rest
          | Panic => Panic
          end
      end
  end.
Definition get_type_description_for_topic (graph : option (nat -> list Entity)) (topic : string)
    : res DynamicError (MessageSchema * string) :=
  snapshot ← ok_or graph
    (SerializationError "TypeDescriptionClient requires graph for topic-based discovery");
  match find_publishers snapshot 0 5 with
  | [] => Err (SchemaNotFound ("No publishers found for topic: " ++ topic))
  | ENode _ :: _ => Err (SerializationError "Expected endpoint entity")
  | (EEndpoint endpoint :: _) as publishers =>
      type_info ← ok_or (ep_type_info endpoint)
        (SchemaNotFound ("Publisher on " ++ topic ++ " has no type information"));
      query_publishers topic (normalize_type_name (ti_name type_info)) (to_rihs_string (ti_hash type_info))
        None 0 publishers
  end.
End Endpoint.
End Types.

(** ** Lemmas *)

(** *** The wire format loses nothing *)

Lemma wire_individual_roundtrip td : wire_to_schema_individual (individual_to_wire td) = td.
Proof.
  destruct td as [n fs]. unfold wire_to_schema_individual, individual_to_wire. cbn. f_equal.
  rewrite map_map. rewrite <- (map_id fs) at 2. apply map_ext. by intros [? [] ?].
Qed.

Lemma schema_to_wire_ok s msg :
  to_type_description_msg s = Ok msg ->
  exists w, schema_to_wire_type_description s = Ok w /\ wire_to_schema_type_description w = msg.
Proof.
  intros Hs. unfold schema_to_wire_type_description. rewrite Hs. eexists. split; [reflexivity|].
  destruct msg as [td refs]. unfold wire_to_schema_type_description. cbn.
  rewrite wire_individual_roundtrip, map_map. f_equal. rewrite <- (map_id refs) at 2.
  apply map_ext, wire_individual_roundtrip.
Qed.

(** *** Type names *)

Lemma trim_end_char_stop c s : s = "" \/ ends_with_char c s = false -> trim_end_char c s = s.
Proof.
  induction s as [|a s IH]; [done|]. intros [|He]; [done|]. cbn [trim_end_char]. destruct s as [|b s].
  - cbn in *. by rewrite He.
  - rewrite IH by (right; exact He). done.
Qed.

Lemma trim_end_char_snoc c s : trim_end_char c (s ++ String c "") = trim_end_char c s.
Proof.
  induction s as [|a s IH]; cbn; [by rewrite Ascii.eqb_refl|]. by rewrite IH.
Qed.

(** The client's normalization undoes the name that publishers give. *)
Lemma normalize_dds_type_name pkg name :
  contains_char "/" pkg = false -> contains_char ":" pkg = false ->
  contains_char "/" name = false -> contains_char ":" name = false ->
  name = "" \/ ends_with_char "_" name = false ->
  normalize_type_name (dds_type_name (pkg ++ "/msg/" ++ name)) = pkg ++ "/msg/" ++ name.
Proof.
  intros Hps Hpc Hns Hnc He. unfold normalize_type_name, dds_type_name.
  rewrite (replace_first "/" "msg/") by done. rewrite (replace_absent "/" "msg/" _ name) by done.
  assert (contains_char "/" (pkg ++ "::msg::dds_::" ++ name) = false) as Hs
    by (rewrite !contains_char_app, Hps, Hns; done).
  rewrite (replace_absent "/" "srv/"), (replace_absent "/" "action/") by (rewrite ?(replace_absent "/" "srv/"); done).
  rewrite !app_assoc_str.
  rewrite (replace_first ":" ":msg::dds_::") by done.
  assert (contains_char ":" (name ++ "_") = false) as Hn_ by (rewrite contains_char_app, Hnc; done).
  rewrite (replace_absent ":" ":msg::dds_::" _ (name ++ "_")) by done.
  assert (contains_char ":" (pkg ++ "/msg/" ++ name ++ "_") = false) as Hc
    by (rewrite !contains_char_app, Hpc, Hnc; done).
  rewrite (replace_absent ":" ":srv::dds_::"), (replace_absent ":" ":action::dds_::")
    by (rewrite ?(replace_absent ":" ":srv::dds_::"); done).
  rewrite <- !app_assoc_str, trim_end_char_snoc. apply trim_end_char_stop. right.
  destruct He as [->|He].
  - by rewrite app_nil_r_str, ends_with_char_app.
  - destruct name as [|a name]; [by rewrite app_nil_r_str, ends_with_char_app|]. by rewrite ends_with_char_app.
Qed.

(** *** The name the client calls is the name the service has *)

Definition namespace_form (ns : string) : Prop := ns = "" \/ ns = "/" \/ (starts_with_char "/" ns = true /\ ns <> "/").

Lemma service_name_agrees ns node :
  namespace_form ns -> namespace_ok ns = true -> is_valid_topic_component node = true ->
  let name := private_name (normalize_namespace ns) node "get_type_description" in
  qualify_service_name "~get_type_description" ns node = Ok name /\
  qualify_service_name (description_service_name node ns) "" "type_desc_client" = Ok name.
Proof.
  intros Hf Hns Hnode name. unfold qualify_service_name.
  pose proof (qualify_topic_name_cases "~get_type_description" ns node) as H1.
  assert (qualifies "~get_type_description" ns node = true) as Hq1
    by (unfold qualifies; rewrite Hns, Hnode; reflexivity).
  rewrite Hq1 in H1. split; [rewrite H1; reflexivity|].
  assert (description_service_name node ns = name) as Hname.
  { subst name. unfold description_service_name, private_name, normalize_namespace, is_empty_str.
    destruct Hf as [->|[->|[Hs Hne]]]; [done..|]. destruct (String.eqb_spec ns "") as [->|]; [done|]. rewrite Hs.
    destruct (String.eqb_spec ns "") as [->|]; [done|]. by destruct (String.eqb_spec ns "/"). }
  assert (starts_with_char "/" name = true) as Hst by apply starts_private, normalize_starts.
  assert (exists p, name = p ++ "get_type_description") as [p Hp].
  { subst name. unfold private_name. destruct (is_empty_str _ || _); cbn [is_empty_str String.eqb].
    - exists ("/" ++ node ++ "/"). by rewrite !app_assoc_str.
    - exists (normalize_namespace ns ++ "/" ++ node ++ "/"). by rewrite !app_assoc_str. }
  assert (ends_with_char "/" name = false) as He by (rewrite Hp, ends_with_char_app; done).
  rewrite Hname. pose proof (qualify_topic_name_cases name "" "type_desc_client") as H2.
  assert (qualifies name "" "type_desc_client" = true) as Hq2.
  { unfold qualifies. rewrite Hst. cbn [namespace_ok is_empty_str String.eqb orb andb].
    assert (is_empty_str name = false) as -> by (destruct name; done).
    destruct (String.eqb_spec name "/") as [E|_]; [by rewrite E in He|].
    destruct (String.eqb_spec name "//") as [E|_]; [by rewrite E in He|]. done. }
  rewrite Hq2 in H2. rewrite H2. unfold qualified_name. rewrite Hst. by rewrite strip_suffix_char_None.
Qed.

Section Discovery.
Context `{HA : HashApi} `{HXL : HexLaws}.
Context (json_total : forall v, exists j, serde_json_to_string v = Ok j).
Context (sha256_digest : forall j, Forall (u_range 8) (sha256 j) /\ length (sha256 j) = 32%nat).
Context `{ZA : ZenohApi} `{ZExtL : ZExtLaws} `{ChanL : ChannelLaws} `{Sess : SessionApi}.
Context {ReqM : ZMessage GetTypeDescriptionRequest} {RspM : ZMessage GetTypeDescriptionResponse}.
Context {ReqL : ZMessageLaws GetTypeDescriptionRequest} {RspL : ZMessageLaws GetTypeDescriptionResponse}.
Context (endpoint_gid : EndpointEntity -> GidArray) (zerror_fmt : ZError -> string) (cargo_pkg_version : string).

(** The client and the service of one node declare one key expression. *)
Lemma client_key_agrees ns node zs node_id id st server zc ids client :
  namespace_form ns -> namespace_ok ns = true -> is_valid_topic_component node = true ->
  tds_new endpoint_gid node ns zs node_id id = Ok (st, server) ->
  create_client endpoint_gid zerror_fmt (description_service_name node ns) "" zc ids = Ok client ->
  cl_key_expr client = srv_key_expr server.
Proof.
  intros Hf Hns Hnode Hs Hc. destruct (service_name_agrees ns node Hf Hns Hnode) as [Hn1 Hn2].
  unfold tds_new, tds_entity in Hs. unfold create_client, tdc_entity in Hc.
  assert (exists t, service_type_info (E := ZError) = Ok t /\ service_type_info (E := DynamicError) = Ok t) as (t & Ht & Ht')
    by (vm_compute; by eexists).
  rewrite Ht in Hs. rewrite Ht' in Hc. cbn [mbind res_bind] in Hs, Hc.
  destruct (build_with_callback _ _ _ _) as [sv|e|] eqn:Eb; try done. cbn [mbind res_bind] in Hs. simplify_eq.
  destruct (client_build _ _ _ _) as [c|e|] eqn:Ec; try done. cbn [map_err] in Hc. simplify_eq.
  refine (client_reaches_server endpoint_gid _ _ _ _ _ _ _ _ Ec Eb _ _ _); [done|done|].
  cbn [ep_topic ep_node node_namespace node_name NodeEntity_new]. rewrite Hn2. symmetry. exact Hn1.
Qed.

(** A request that is answered. *)
Lemma get_type_description_answered zid net ids now node ns name hash client smp response :
  create_client endpoint_gid zerror_fmt (description_service_name node ns) "" zid ids = Ok client ->
  msg_ok (mkRequest name hash false) ->
  (forall q bs, msg_serialize (mkRequest name hash false) = Some bs ->
     sq_token q = 0%nat -> key_expr (sq_query q) = cl_key_expr client ->
     payload (sq_query q) = Some bs -> net q = Some smp) ->
  msg_deserialize (smp_payload smp) = Ok response ->
  get_type_description endpoint_gid zerror_fmt zid net ids now node ns name hash false = Ok response.
Proof.
  intros Hc Hok Hnet Hd. unfold get_type_description. rewrite Hc. cbn [mbind res_bind].
  destruct (msg_serializes _ Hok) as [bs Hbs]. unfold send_request.
  change (@msg_serialize Request request_msg) with (@msg_serialize GetTypeDescriptionRequest ReqM). rewrite Hbs.
  cbn [client_new_attachment map_err mbind res_bind].
  match goal with |- context [net ?q] => rewrite (Hnet q bs Hbs eq_refl eq_refl eq_refl) end.
  set (c := mkClient _ _ _ _ _).
  assert (ch_items (cl_rx c) = [] /\ (0 < ch_capacity (cl_rx c))%N) as [Hi Hcap].
  { unfold create_client in Hc. destruct (tdc_entity _ _ _ _) as [e|e|] eqn:Ee; try done. cbn [mbind res_bind] in Hc.
    destruct (client_build _ _ _ _) as [c0|e0|] eqn:Ec; try done. cbn [map_err] in Hc. simplify_eq.
    destruct (client_build_inv endpoint_gid _ _ _ _ Ec) as (e' & _ & _ & _ & _ & Hrx & _). subst c. cbn [cl_rx].
    rewrite Hrx, bounded_items, bounded_capacity. split; [done|].
    unfold tdc_entity in Ee. res_inv. reflexivity. }
  clearbody c. unfold on_reply. pose proof (try_send_spec _ (cl_rx c) smp Hcap) as Hsnd.
  destruct (try_send (cl_rx c) smp) as [rx|]; [|rewrite Hi in Hsnd; cbn in Hsnd; lia].
  destruct Hsnd as (Hit & _ & _). rewrite Hi in Hit. unfold take_response_timeout, take_sample_timeout.
  cbn [set_rx cl_rx]. pose proof (try_recv_spec _ rx) as Hr. rewrite Hit in Hr.
  destruct (try_recv rx) as [[smp' rx']|]; [|done]. destruct Hr as [[= <- _] _]. cbn [fst mbind res_bind].
  unfold deserialize_response. change (@msg_deserialize Response response_msg) with (@msg_deserialize GetTypeDescriptionResponse RspM).
  by rewrite Hd.
Qed.

(** The service, as the network that delivers to it and back. *)
Definition service_net (st : Schemas) (server : ZServer) (q : ServiceQuery) : option Sample :=
  if String.eqb (key_expr (sq_query q)) (srv_key_expr server) then
    match handle_query cargo_pkg_version st q with Ok reply => reply | _ => None end
  else None.

(** The type information of a publisher of [s] asks for the registered schema. *)
Lemma dyn_type_info_agrees {E} s h :
  compute_type_hash s = Ok h ->
  Forall (u_range 8) h -> length h = 32%nat ->
  with_dyn_schema (E := E) None s = Ok (Some (mkTypeInfo (dds_type_name (type_name s)) (mkHash 1 h))) /\
  to_rihs_string (mkHash 1 h) = schema_to_rihs_string h.
Proof.
  intros Hh Hb Hl. unfold with_dyn_schema, dyn_type_hash. rewrite Hh. cbn [mbind res_bind].
  destruct (schema_hash_text h Hb Hl) as [_ ->]. split; [done|].
  unfold to_rihs_string, schema_to_rihs_string. cbn. by rewrite hex_encode_lower.
Qed.

Lemma compute_type_hash_ok s msg :
  to_type_description_msg s = Ok msg ->
  exists h, compute_type_hash s = Ok h /\ Forall (u_range 8) h /\ length h = 32%nat.
Proof.
  intros Hm. unfold compute_type_hash. rewrite Hm. cbn [mbind res_bind].
  unfold calculate_hash, to_ros2_json. destruct (json_total (to_hash_version msg)) as [j ->].
  cbn [mbind res_bind]. eexists. split; [reflexivity|]. apply sha256_digest.
Qed.

(** A registered schema is served under its name and hash. *)
Lemma build_response_registered {E} st st1 s msg h hash sources :
  register_schema st s = Ok st1 -> to_type_description_msg s = Ok msg -> compute_type_hash s = Ok h ->
  hash = "" \/ hash = schema_to_rihs_string h ->
  exists w src, wire_to_schema_type_description w = msg /\
    build_response (E := E) cargo_pkg_version st1 (mkRequest (type_name s) hash sources) =
      Ok (mkResponse true "" w src [mkWireKeyValue "ros_z_version" cargo_pkg_version]).
Proof.
  intros Hr Hm Hh Hhash. unfold register_schema, RegisteredSchema_new in Hr. rewrite Hh in Hr.
  cbn [mbind res_bind] in Hr. unfold insert_registered in Hr. destruct (tds_poisoned st); [done|]. simplify_eq.
  destruct (schema_to_wire_ok s msg Hm) as (w & Hw & Hmsg). exists w. unfold build_response.
  cbn [tds_poisoned tds_map req_type_name req_type_hash]. rewrite lookup_insert_eq. cbn [rs_type_hash rs_schema].
  assert (negb (String.eqb hash "") && negb (String.eqb hash (schema_to_rihs_string h)) = false) as ->
    by (destruct Hhash as [-> | ->]; [done|]; by rewrite String.eqb_refl, andb_false_r).
  rewrite Hw. eexists. split; [done|]. reflexivity.
Qed.

(** ** Properties *)

Lemma discovery_ok node ns zs node_id id st0 server st st1 s pkg name e rest topic
    zid ids nows late client :
  namespace_form ns -> namespace_ok ns = true -> is_valid_topic_component node = true ->
  tds_new endpoint_gid node ns zs node_id id = Ok (st0, server) ->
  register_schema st s = Ok st1 ->
  schema_describable s -> coherent (schema_nested s) -> type_name s = pkg ++ "/msg/" ++ name ->
  contains_char "/" pkg = false -> contains_char ":" pkg = false ->
  contains_char "/" name = false -> contains_char ":" name = false ->
  name = "" \/ ends_with_char "_" name = false ->
  node_name (ep_node e) = node -> node_namespace (ep_node e) = ns ->
  with_dyn_schema (E := DynamicError) None s = Ok (ep_type_info e) ->
  create_client endpoint_gid zerror_fmt (description_service_name node ns) "" zid (ids 0%nat) = Ok client ->
  (forall h, compute_type_hash s = Ok h ->
     let request := mkRequest (type_name s) (schema_to_rihs_string h) false in
     msg_ok request /\
     forall response, build_response (E := ZError) cargo_pkg_version st1 request = Ok response -> msg_ok response) ->
  late 0%nat = false ->
  exists h, compute_type_hash s = Ok h /\
    get_type_description_for_topic endpoint_gid zerror_fmt zid (service_net st1 server) ids nows late
      (Some (fun _ => EEndpoint e :: rest)) topic = Ok (erase s, schema_to_rihs_string h).
Proof.
  intros Hf Hns Hnode Htds Hreg Hdesc Hco Hn Hps Hpc Hcs Hcc Hu Hen Hens Hti Hcl Hok Hlate.
  destruct (description_roundtrip_ok s Hdesc Hco) as (msg & Hmsg & Hback).
  destruct (compute_type_hash_ok s msg Hmsg) as (h & Hh & Hb & Hl). exists h. split; [done|].
  destruct (Hok h Hh) as [Hreq Hrsp].
  destruct (dyn_type_info_agrees (E := DynamicError) s h Hh Hb Hl) as [Hti' Hrihs].
  rewrite Hti in Hti'. assert (ep_type_info e = Some (mkTypeInfo (dds_type_name (type_name s)) (mkHash 1 h))) as Hte by congruence.
  unfold get_type_description_for_topic. cbn [ok_or mbind res_bind find_publishers]. rewrite Hte.
  cbn [ok_or mbind res_bind ti_name ti_hash]. rewrite Hrihs, Hn, normalize_dds_type_name, <- Hn by done.
  cbn [query_publishers]. rewrite Hlate, Hen, Hens.
  destruct (build_response_registered (E := ZError) st st1 s msg h (schema_to_rihs_string h) false Hreg Hmsg Hh (or_intror eq_refl))
    as (w & src & Hw & Hrespond).
  set (response := mkResponse true "" w src _) in *.
  destruct (msg_serializes _ (Hrsp _ Hrespond)) as [bs' Hbs'].
  rewrite (get_type_description_answered zid (service_net st1 server) (ids 0%nat) (nows 0%nat) node ns (type_name s)
    (schema_to_rihs_string h) client (mkSample 0 bs' None) response Hcl Hreq).
  - subst response. cbn [successful response_to_schema negb rsp_type_description].
    unfold response_to_schema. cbn [successful negb rsp_type_description]. rewrite Hw, Hback. done.
  - intros q bs Hq Ht Hk Hp. unfold service_net. rewrite Hk.
    rewrite (client_key_agrees ns node zs node_id id st0 server zid (ids 0%nat) client Hf Hns Hnode Htds Hcl).
    rewrite String.eqb_refl. unfold handle_query. rewrite Hp, (msg_roundtrip _ bs Hreq Hq), Hrespond.
    cbn [mbind res_bind]. rewrite Hbs'. cbn [unwrap mbind res_bind]. by rewrite Ht.
  - by apply (msg_roundtrip response bs' (Hrsp _ Hrespond)).
Qed.

(** C4 Discovery: a publisher of a dynamic schema [s] whose node registered it,
    found first in the graph, gives a subscriber the schema [s] back, up to default
    values and hashes, with the hash of [s]: the client finds the name of the type in
    the publisher's DDS name, calls the key expression that the node's service
    declares, the hashes agree, the request and the response survive the wire, and the
    description resolves.  The schema must be one that a description carries (elements
    of arrays and sequences are no arrays, sequences or bounded strings, a bounded
    string has a positive bound, every nested schema is named package/kind/Name), with
    one definition for each name of a nested schema, and its own name of the form
    [pkg/msg/Name] whose parts have no slash or colon and whose last does not end with
    an underscore; the node's name and namespace are valid and the publisher announces
    the type information of [s]; a client of the service is created and its answer is
    in time, and request and response are within the limits of the wire format. *)
Theorem discovery_returns_schema node ns zs node_id id st0 server st st1 s pkg name e rest topic
    zid ids nows late client :
  namespace_form ns -> namespace_ok ns = true -> is_valid_topic_component node = true ->
  tds_new endpoint_gid node ns zs node_id id = Ok (st0, server) ->
  register_schema st s = Ok st1 ->
  schema_describable s -> coherent (schema_nested s) -> type_name s = pkg ++ "/msg/" ++ name ->
  contains_char "/" pkg = false -> contains_char ":" pkg = false ->
  contains_char "/" name = false -> contains_char ":" name = false ->
  name = "" \/ ends_with_char "_" name = false ->
  node_name (ep_node e) = node -> node_namespace (ep_node e) = ns ->
  with_dyn_schema (E := DynamicError) None s = Ok (ep_type_info e) ->
  create_client endpoint_gid zerror_fmt (description_service_name node ns) "" zid (ids 0%nat) = Ok client ->
  (forall h, compute_type_hash s = Ok h ->
     let request := mkRequest (type_name s) (schema_to_rihs_string h) false in
     msg_ok request /\
     forall response, build_response (E := ZError) cargo_pkg_version st1 request = Ok response -> msg_ok response) ->
  late 0%nat = false ->
  exists h, compute_type_hash s = Ok h /\
    get_type_description_for_topic endpoint_gid zerror_fmt zid (service_net st1 server) ids nows late
      (Some (fun _ => EEndpoint e :: rest)) topic = Ok (erase s, schema_to_rihs_string h).
Proof. apply discovery_ok. Qed.
End Discovery.

(** *** The search through the publishers *)

Section Search.
Context `{ZA : ZenohApi} `{ZExt : ZExtApi} `{Chan : ChannelApi} `{Sess : SessionApi}.
Context {ReqM : ZMessage GetTypeDescriptionRequest} {RspM : ZMessage GetTypeDescriptionResponse}.
Context (endpoint_gid : EndpointEntity -> GidArray) (zerror_fmt : ZError -> string).
Context (zid : ZenohId) (net : ServiceQuery -> option Sample).
Context (ids : nat -> Z * Z) (nows : nat -> option Z) (late : nat -> bool).
Abbreviation ask := (get_type_description endpoint_gid zerror_fmt zid net).
Abbreviation search := (get_type_description_for_topic endpoint_gid zerror_fmt zid net ids nows late).

(** What the [k]th publisher answers. *)
Definition asked (k : nat) (e : EndpointEntity) (name hash : string) : res DynamicError GetTypeDescriptionResponse :=
  ask (ids k) (nows k) (node_name (ep_node e)) (node_namespace (ep_node e)) name hash false.

Lemma find_publishers_spec snapshot n attempts :
  match find_publishers snapshot n attempts with
  | [] => forall k, (n <= k <= n + attempts)%nat -> snapshot k = []
  | l => exists k, (n <= k <= n + attempts)%nat /\ snapshot k = l /\ forall j, (n <= j < k)%nat -> snapshot j = []
  end.
Proof.
  revert n. induction attempts as [|attempts IH]; intros n; cbn; destruct (snapshot n) as [|x l] eqn:E.
  - intros k Hk. by replace k with n by lia.
  - exists n. split; [lia|]. split; [done|lia].
  - specialize (IH (S n)). destruct (find_publishers snapshot (S n) attempts) as [|y l'].
    + intros k Hk. destruct (decide (k = n)) as [->|]; [done|apply IH; lia].
    + destruct IH as (k & Hk & Hs & Hj). exists k. split; [lia|]. split; [done|].
      intros j Hj'. destruct (decide (j = n)) as [->|]; [done|apply Hj; lia].
  - exists n. split; [lia|]. split; [done|lia].
Qed.

Lemma query_publishers_ok topic name hash last n publishers s hash' :
  query_publishers endpoint_gid zerror_fmt zid net ids nows late topic name hash last n publishers = Ok (s, hash') ->
  hash' = hash /\ exists k e response, publishers !! k = Some (EEndpoint e) /\
    asked (n + k) e name hash = Ok response /\ successful response = true /\ response_to_schema response = Ok s /\
    forall j, (j <= k)%nat -> late (n + j)%nat = false.
Proof.
  revert last n. induction publishers as [|p rest IH]; intros last n; cbn [query_publishers]; [done|].
  destruct (late n) eqn:El; [done|].
  assert (forall last', query_publishers endpoint_gid zerror_fmt zid net ids nows late topic name hash last' (S n) rest = Ok (s, hash') ->
    hash' = hash /\ exists k e response, (p :: rest) !! k = Some (EEndpoint e) /\
    asked (n + k) e name hash = Ok response /\ successful response = true /\ response_to_schema response = Ok s /\
    forall j, (j <= k)%nat -> late (n + j)%nat = false) as Hrest.
  { intros last' H. destruct (IH last' (S n) H) as (-> & k & e & response & Hk & Ha & Hs & Hr & Hl). split; [done|].
    exists (S k), e, response. replace (n + S k)%nat with (S n + k)%nat by lia. do 4 (split; [done|]).
    intros [|j] Hj; [by rewrite Nat.add_0_r|]. replace (n + S j)%nat with (S n + j)%nat by lia. apply Hl. lia. }
  destruct p as [|e]; [apply Hrest|].
  destruct (ask (ids n) (nows n) _ _ name hash false) as [response|err|] eqn:Ea; [|apply Hrest|done].
  destruct (successful response) eqn:Es; [|apply Hrest].
  destruct (response_to_schema response) as [s'|err|] eqn:Er; try done. cbn [mbind res_bind]. intros H. simplify_eq.
  split; [done|]. exists 0%nat, e, response. rewrite Nat.add_0_r. do 4 (split; [done|]).
  intros j Hj. by replace (n + j)%nat with n by lia.
Qed.

(** What the search through a topic's publishers returns: without a publisher
    in any of the six looks it is that error; a schema it returns was given,
    before the deadline, by a publisher of the first look that found some, asked
    for the type and the hash of the first of them, and comes with that hash. *)
Theorem topic_search_spec (snapshot : nat -> list Entity) topic :
  match search (Some snapshot) topic with
  | Ok (s, hash) =>
      exists n first t publishers, (n <= 5)%nat /\ snapshot n = EEndpoint first :: publishers /\
        (forall j, (j < n)%nat -> snapshot j = []) /\
        ep_type_info first = Some t /\ hash = to_rihs_string (ti_hash t) /\
        exists k e response, snapshot n !! k = Some (EEndpoint e) /\
          asked k e (normalize_type_name (ti_name t)) hash = Ok response /\ successful response = true /\
          response_to_schema response = Ok s /\ forall j, (j <= k)%nat -> late j = false
  | _ => True
  end /\
  ((forall n, (n <= 5)%nat -> snapshot n = []) ->
   search (Some snapshot) topic = Err (SchemaNotFound ("No publishers found for topic: " ++ topic))).
Proof.
  unfold get_type_description_for_topic. cbn [ok_or mbind res_bind].
  pose proof (find_publishers_spec snapshot 0 5) as Hf. split.
  - destruct (find_publishers snapshot 0 5) as [|[m|first] l]; [done|done|].
    destruct Hf as (n & Hn & Hs & Hj). destruct (ep_type_info first) as [t|] eqn:Et; [|done]. cbn [ok_or mbind res_bind].
    destruct (query_publishers _ _ _ _ _ _ _ _ _ _ _ _ _) as [[s hash]|e|] eqn:Eq; [|done..].
    apply query_publishers_ok in Eq as (-> & k & e & response & Hk & Ha & Hsu & Hr & Hl).
    exists n, first, t, l. do 2 (split; [done || lia|]). split; [intros j Hjn; apply Hj; lia|]. do 2 (split; [done|]).
    exists k, e, response. rewrite Hs. done.
  - intros Hnone. destruct (find_publishers snapshot 0 5) as [|p l]; [done|].
    destruct Hf as (n & Hn & Hs & _). rewrite Hnone in Hs by lia. done.
Qed.
End Search.

(** ** A concrete discovery: the CDR messages over lists *)

#[local] Instance ex_digest : HashApi := {|
  serde_json_to_string _ := Ok "{}"; sha256 _ := replicate 32 7%Z |}.
#[local] Existing Instance ex_hex.
#[local] Existing Instance ex_hex_laws.
#[local] Existing Instance ex_zenoh.
#[local] Instance ex_request_message : ZMessage GetTypeDescriptionRequest :=
  CdrSerdes_message (list (list byte)) CdrCodec.ex_unknown CdrCodec.ex_missing GetTypeDescriptionRequest.
#[local] Instance ex_response_message : ZMessage GetTypeDescriptionResponse :=
  CdrSerdes_message (list (list byte)) CdrCodec.ex_unknown CdrCodec.ex_missing GetTypeDescriptionResponse.
#[local] Instance ex_request_laws : ZMessageLaws GetTypeDescriptionRequest :=
  CdrSerdes_laws CdrCodec.ex_unknown CdrCodec.ex_missing.
#[local] Instance ex_response_laws : ZMessageLaws GetTypeDescriptionResponse :=
  CdrSerdes_laws CdrCodec.ex_unknown CdrCodec.ex_missing.
#[local] Existing Instance GetTypeDescription.

Definition ex_gid (e : EndpointEntity) : GidArray := replicate 16 x00.
Definition ex_fmt (e : ZError) : string := "zenoh error".
Definition ex_service_key : string :=
  "0/demo/talker/get_type_description/type_description_interfaces::srv::dds_::GetTypeDescription_/" ++
  "RIHS01_69b9c19c1021405984cc60dbbb1edceb147a6538b411d812ba6afabeed962cd5".
Definition ex_description_server : ZServer :=
  mkServer ex_service_key 1 (replicate 16 x00) HCallback ∅.
Definition ex_registered : Schemas :=
  mkSchemas {["a_msgs/msg/Pose" := mkRegistered ex_pose (schema_to_rihs_string (replicate 32 7%Z)) None]} false.
Definition ex_publisher : EndpointEntity :=
  mkEndpoint 5 (NodeEntity_new 0 1%N 4 "talker" "/demo" "") KPublisher "/pose"
    (Some (mkTypeInfo "a_msgs::msg::dds_::Pose_" (mkHash 1 (replicate 32 7%Z)))) QosProfile_default.

Lemma discovery_returns_schema_witness :
  exists h, compute_type_hash ex_pose = Ok h /\
    get_type_description_for_topic ex_gid ex_fmt 2%N (service_net "0.1.0" ex_registered ex_description_server)
      (fun n => (10, 11)%Z) (fun _ => None) (fun _ => false) (Some (fun _ => [EEndpoint ex_publisher])) "/pose" =
    Ok (erase ex_pose, schema_to_rihs_string h).
Proof.
  eapply (discovery_returns_schema ltac:(by eexists) ltac:(by intros; split; [apply Forall_replicate|]) ex_gid ex_fmt "0.1.0"
    "talker" "/demo" 1%N 4%Z 5%Z (mkSchemas ∅ false) ex_description_server (mkSchemas ∅ false) ex_registered ex_pose
    "a_msgs" "Pose" ex_publisher []); try reflexivity.
  - right. right. split; [reflexivity|discriminate].
  - cbn. split_and!; try done; by eexists.
  - intros a b Ha Hb _. cbn in Ha, Hb. apply list_elem_of_singleton in Ha as ->.
    by apply list_elem_of_singleton in Hb as ->.
  - by right.
  - intros h Hh. vm_compute in Hh. injection Hh as <-. split.
    + cbn. unfold u_range. repeat split; by vm_compute.
    + intros response Hr. vm_compute in Hr. injection Hr as <-. cbn. unfold u_range, MAX_SEQUENCE_LENGTH.
      repeat split; try lia; by vm_compute.
Defined.
