(* ===== verification/DynCdr.v ===== *)
(** * CDR serialization of dynamic messages
    (crates/ros-z/src/dynamic/serialization/{cdr,mod}.rs)

    [serialize_value], [serialize_message], [deserialize_value],
    [deserialize_message] on the primitives of CdrPrimitives.v at
    little-endian order, and the entry points with the four byte header.  The
    specification is a typing relation between values and field types, the
    encoding of a typed value, and the normal form decoding returns (a
    sequence of [uint8] decodes as [Bytes]).  [Debug] formatting of a value
    and a type, and [ZBuf::from(Vec<u8>)] of the zenoh-buffers package, are
    parameters; so is the size of a [DynamicValue], which the compiler lays out:
    a vector of more of them than [isize::MAX] bytes hold is not allocated, the
    allocation panics. *)
From S2P Require Import Prelude CdrBuffer Utf8 RustStr CdrPrimitives CdrSpec CdrDeserializer CdrSerde DynTypes.
Open Scope list_scope.
Open Scope Z_scope.

(** ** Definitions *)

#[local] Existing Instance LittleEndian.

(** The writer of a message: into a [Vec<u8>]. *)
Definition DynWriter : Type := CdrWriter (list byte).

(** [for v in values { serialize_value(v, inner, writer)?; }]. *)
Definition serialize_all {V} (f : V -> DynWriter -> res DynamicError DynWriter)
    : list V -> DynWriter -> res DynamicError DynWriter :=
  fix go vs w :=
    match vs with
    | [] => Ok w
    | v :: vs' => w ← f v w; go vs' w
    end.

(** [for (field, value) in fields.iter().zip(values)]. *)
Definition serialize_zip {F V} (f : V -> F -> DynWriter -> res DynamicError DynWriter)
    : list V -> list F -> DynWriter -> res DynamicError DynWriter :=
  fix go vs fs w :=
    match vs, fs with
    | v :: vs', fld :: fs' => w ← f v fld w; go vs' fs' w
    | _, _ => Ok w
    end.

(** [for _ in 0..len { values.push(..) }]. *)
Fixpoint deserialize_n {V} (f : CdrReader -> res DynamicError (V * CdrReader)) (n : nat)
    (r : CdrReader) : res DynamicError (list V * CdrReader) :=
  match n with
  | O => Ok ([], r)
  | S n' => '(v, r) ← f r; '(vs, r) ← deserialize_n f n' r; Ok (v :: vs, r)
  end.

(** [for field in &schema.fields]. *)
Definition deserialize_each {F V} (f : F -> CdrReader -> res DynamicError (V * CdrReader))
    : list F -> CdrReader -> res DynamicError (list V * CdrReader) :=
  fix go fs r :=
    match fs with
    | [] => Ok ([], r)
    | fld :: fs' => '(v, r) ← f fld r; '(vs, r) ← go fs' r; Ok (v :: vs, r)
    end.

(** [map_cdr_err]. *)
Definition map_cdr_err (e : CdrError) : DynamicError := DeserializationError (CdrError_fmt e).
Definition rd {A} (f : CdrReader -> res CdrError (A * CdrReader)) (r : CdrReader)
    : res DynamicError (A * CdrReader) := map_err map_cdr_err (f r).

(** [size_of::<DynamicValue>()], and the allocation of a [Vec<DynamicValue>] with
    room for [n] values: it panics ("capacity overflow") when they take more than
    [isize::MAX] bytes. *)
Class DynLayout := {
  size_of_DynamicValue : Z;
  size_of_DynamicValue_small : 0 < size_of_DynamicValue <= 2 ^ 16;
}.
Definition vec_fits `{DynLayout} (n : nat) : bool := Z.of_nat n * size_of_DynamicValue <=? 2 ^ 63 - 1.
Definition with_capacity `{DynLayout} {E} (n : nat) : res E (list DynamicValue) :=
  if vec_fits n then Ok [] else Panic.

(** [matches!(inner, FieldType::Uint8)]. *)
Definition is_uint8 (t : FieldType) : bool := match t with TyUint8 => true | _ => false end.

Definition CDR_HEADER_LE : list byte := [x00; x01; x00; x00].

(** [enum SerializationFormat], in the default build. *)
Inductive SerializationFormat := Cdr.

Section Serialization.
Context {ZBuf : Type} `{ZApi : ZBufApi ZBuf} `{DL : DynLayout}.
Context (debug_value : DynamicValue -> string) (debug_type : FieldType -> string).
Context (zbuf_from : list byte -> ZBuf).

(** [serialize_value] and [serialize_message]. *)
Fixpoint serialize_value (v : DynamicValue) (t : FieldType) (w : DynWriter) {struct v}
    : res DynamicError DynWriter :=
  match v, t with
  | VlBool b, TyBool => write_bool (ZBuf := ZBuf) w b
  | VlInt8 z, TyInt8 => write_i8 (ZBuf := ZBuf) w z
  | VlInt16 z, TyInt16 => write_i16 (ZBuf := ZBuf) w z
  | VlInt32 z, TyInt32 => write_i32 (ZBuf := ZBuf) w z
  | VlInt64 z, TyInt64 => write_i64 (ZBuf := ZBuf) w z
  | VlUint8 z, TyUint8 => write_u8 (ZBuf := ZBuf) w z
  | VlUint16 z, TyUint16 => write_u16 (ZBuf := ZBuf) w z
  | VlUint32 z, TyUint32 => write_u32 (ZBuf := ZBuf) w z
  | VlUint64 z, TyUint64 => write_u64 (ZBuf := ZBuf) w z
  | VlFloat32 z, TyFloat32 => write_f32 (ZBuf := ZBuf) w z
  | VlFloat64 z, TyFloat64 => write_f64 (ZBuf := ZBuf) w z
  | VlString s, TyString => write_string (ZBuf := ZBuf) w s
  | VlString s, TyBoundedString _ => write_string (ZBuf := ZBuf) w s
  | VlArray vs, TyArray inner _ => serialize_all (fun v => serialize_value v inner) vs w
  | VlArray vs, TySequence inner =>
      w ← write_sequence_length (ZBuf := ZBuf) w (length vs);
      serialize_all (fun v => serialize_value v inner) vs w
  | VlArray vs, TyBoundedSequence inner _ =>
      w ← write_sequence_length (ZBuf := ZBuf) w (length vs);
      serialize_all (fun v => serialize_value v inner) vs w
  | VlBytes bs, TySequence TyUint8 => write_bytes (ZBuf := ZBuf) w bs
  | VlMessage nested, TyMessage _ => serialize_message nested w
  | _, _ =>
      Err (SerializationError ("Type mismatch: cannot serialize " ++ debug_value v ++ " as "
        ++ debug_type t))
  end
with serialize_message (m : DynamicMessage) (w : DynWriter) {struct m}
    : res DynamicError DynWriter :=
  match m with
  | mkMessage s vs =>
      serialize_zip (fun v f => serialize_value v (field_type f)) vs (fields s) w
  end.

(** [deserialize_value] and [deserialize_message]; a vector with room for the
    values of a schema's fields takes less than the fields do. *)
Fixpoint deserialize_value (t : FieldType) (r : CdrReader) {struct t}
    : res DynamicError (DynamicValue * CdrReader) :=
  match t with
  | TyBool => '(v, r) ← rd read_bool r; Ok (VlBool v, r)
  | TyInt8 => '(v, r) ← rd read_i8 r; Ok (VlInt8 v, r)
  | TyInt16 => '(v, r) ← rd read_i16 r; Ok (VlInt16 v, r)
  | TyInt32 => '(v, r) ← rd read_i32 r; Ok (VlInt32 v, r)
  | TyInt64 => '(v, r) ← rd read_i64 r; Ok (VlInt64 v, r)
  | TyUint8 => '(v, r) ← rd read_u8 r; Ok (VlUint8 v, r)
  | TyUint16 => '(v, r) ← rd read_u16 r; Ok (VlUint16 v, r)
  | TyUint32 => '(v, r) ← rd read_u32 r; Ok (VlUint32 v, r)
  | TyUint64 => '(v, r) ← rd read_u64 r; Ok (VlUint64 v, r)
  | TyFloat32 => '(v, r) ← rd read_f32 r; Ok (VlFloat32 v, r)
  | TyFloat64 => '(v, r) ← rd read_f64 r; Ok (VlFloat64 v, r)
  | TyString | TyBoundedString _ => '(v, r) ← rd read_string r; Ok (VlString v, r)
  | TyArray inner len =>
      _ ← with_capacity len;
      '(values, r) ← deserialize_n (deserialize_value inner) len r;
      Ok (VlArray values, r)
  | TySequence inner =>
      if is_uint8 inner then
        '(bytes, r) ← rd read_byte_sequence r;
        Ok (VlBytes bytes, r)
      else
        '(len, r) ← rd read_sequence_length r;
        _ ← with_capacity (Z.to_nat len);
        '(values, r) ← deserialize_n (deserialize_value inner) (Z.to_nat len) r;
        Ok (VlArray values, r)
  | TyBoundedSequence inner _ =>
      if is_uint8 inner then
        '(bytes, r) ← rd read_byte_sequence r;
        Ok (VlBytes bytes, r)
      else
        '(len, r) ← rd read_sequence_length r;
        _ ← with_capacity (Z.to_nat len);
        '(values, r) ← deserialize_n (deserialize_value inner) (Z.to_nat len) r;
        Ok (VlArray values, r)
  | TyMessage s =>
      '(m, r) ← deserialize_message s r;
      Ok (VlMessage m, r)
  end
with deserialize_message (s : MessageSchema) (r : CdrReader) {struct s}
    : res DynamicError (DynamicMessage * CdrReader) :=
  match s with
  | mkSchema _ _ _ fs _ =>
      '(vs, r) ← deserialize_each deserialize_field fs r;
      Ok (from_values s vs, r)
  end
with deserialize_field (f : FieldSchema) (r : CdrReader) {struct f}
    : res DynamicError (DynamicValue * CdrReader) :=
  match f with
  | mkField _ t _ => deserialize_value t r
  end.

(** [serialize_cdr], [serialize_cdr_to_zbuf] and [deserialize_cdr]. *)
Definition serialize_cdr (m : DynamicMessage) : res DynamicError (list byte) :=
  let b := extend_from_slice (ZBuf := ZBuf) [] CDR_HEADER_LE in
  w ← serialize_message m (writer_new (ZBuf := ZBuf) b);
  Ok (buffer w).
Definition serialize_cdr_to_zbuf (m : DynamicMessage) : res DynamicError ZBuf :=
  bytes ← serialize_cdr m; Ok (zbuf_from bytes).
Definition deserialize_cdr (data : list byte) (s : MessageSchema)
    : res DynamicError DynamicMessage :=
  if (length data <? 4)%nat then
    Err (DeserializationError "CDR data too short for header")
  else
    header ← slice data 0 4;
    representation_identifier ← slice header 0 2;
    if negb (bool_decide (representation_identifier = [x00; x01])) then
      Err (DeserializationError ("Expected CDR_LE encapsulation (" ++ debug_bytes [x00; x01]
        ++ "), found " ++ debug_bytes representation_identifier))
    else
      payload ← slice data 4 (length data);
      '(m, _) ← deserialize_message s (reader_new payload);
      Ok m.

(** The methods of [DynamicMessage] of serialization/mod.rs. *)
Definition msg_serialize (m : DynamicMessage) (f : SerializationFormat)
    : res DynamicError (list byte) :=
  match f with Cdr => serialize_cdr m end.
Definition msg_serialize_to_buf (m : DynamicMessage) (f : SerializationFormat) (b : list byte)
    : res DynamicError (list byte) :=
  let b := clear (ZBuf := ZBuf) b in
  d ← msg_serialize m f;
  Ok (extend_from_slice (ZBuf := ZBuf) b d).
Definition msg_serialize_to_zbuf (m : DynamicMessage) (f : SerializationFormat)
    : res DynamicError ZBuf :=
  match f with Cdr => serialize_cdr_to_zbuf m end.
Definition msg_deserialize (data : list byte) (s : MessageSchema) (f : SerializationFormat)
    : res DynamicError DynamicMessage :=
  match f with Cdr => deserialize_cdr data s end.
Definition to_cdr (m : DynamicMessage) : res DynamicError (list byte) := serialize_cdr m.
Definition to_cdr_zbuf (m : DynamicMessage) : res DynamicError ZBuf := serialize_cdr_to_zbuf m.
Definition from_cdr (data : list byte) (s : MessageSchema) : res DynamicError DynamicMessage :=
  deserialize_cdr data s.
End Serialization.

(** *** Specification *)

Section Specification.
Context `{DL : DynLayout}.

(** [v] is a value of type [t], every integer in its range and every size
    within what the format, and a vector of values, allow.  [bytes] says whether [Bytes] may stand for
    a bounded sequence of [uint8], as decoding produces. *)
Fixpoint typed (bytes : bool) (t : FieldType) (v : DynamicValue) {struct t} : Prop :=
  match t, v with
  | TyBool, VlBool _ => True
  | TyInt8, VlInt8 z => i_range 8 z
  | TyInt16, VlInt16 z => i_range 16 z
  | TyInt32, VlInt32 z => i_range 32 z
  | TyInt64, VlInt64 z => i_range 64 z
  | TyUint8, VlUint8 z => u_range 8 z
  | TyUint16, VlUint16 z => u_range 16 z
  | TyUint32, VlUint32 z => u_range 32 z
  | TyUint64, VlUint64 z => u_range 64 z
  | TyFloat32, VlFloat32 z => u_range 32 z
  | TyFloat64, VlFloat64 z => u_range 64 z
  | TyString, VlString s | TyBoundedString _, VlString s =>
      str_valid s /\ Z.of_nat (str_len s) + 1 < 2 ^ 32
  | TyArray inner len, VlArray vs => (length vs = len /\ vec_fits len = true) /\ all (typed bytes inner) vs
  | TySequence inner, VlArray vs | TyBoundedSequence inner _, VlArray vs =>
      Z.of_nat (length vs) <= MAX_SEQUENCE_LENGTH /\ all (typed bytes inner) vs
  | TySequence inner, VlBytes bs => is_uint8 inner = true /\ Z.of_nat (length bs) < 2 ^ 32
  | TyBoundedSequence inner _, VlBytes bs =>
      bytes = true /\ is_uint8 inner = true /\ Z.of_nat (length bs) < 2 ^ 32
  | TyMessage s, VlMessage m => message_typed bytes s m
  | _, _ => False
  end
with message_typed (bytes : bool) (s : MessageSchema) (m : DynamicMessage) {struct s} : Prop :=
  match s with
  | mkSchema _ _ _ fs _ =>
      schema m = s /\ all2 (field_typed bytes) fs (values m)
  end
with field_typed (bytes : bool) (f : FieldSchema) (v : DynamicValue) {struct f} : Prop :=
  match f with
  | mkField _ t _ => typed bytes t v
  end.
End Specification.

(** The byte a [uint8] value stands for. *)
Definition byte_of_value (v : DynamicValue) : byte :=
  match v with
  | VlUint8 z => byte_of_Z z
  | _ => x00
  end.

(** What decoding returns for a value: sequences of [uint8] become [Bytes]. *)
Fixpoint norm (t : FieldType) (v : DynamicValue) {struct t} : DynamicValue :=
  match t, v with
  | TyArray inner _, VlArray vs => VlArray (map (norm inner) vs)
  | TySequence inner, VlArray vs | TyBoundedSequence inner _, VlArray vs =>
      if is_uint8 inner then VlBytes (map byte_of_value vs) else VlArray (map (norm inner) vs)
  | TyMessage s, VlMessage m => VlMessage (norm_message s m)
  | _, _ => v
  end
with norm_message (s : MessageSchema) (m : DynamicMessage) {struct s} : DynamicMessage :=
  match s with
  | mkSchema _ _ _ fs _ => mkMessage (schema m) (zip_with norm_field fs (values m))
  end
with norm_field (f : FieldSchema) (v : DynamicValue) {struct f} : DynamicValue :=
  match f with
  | mkField _ t _ => norm t v
  end.

(** The encoding of a typed value. *)
Fixpoint enc_value (t : FieldType) (v : DynamicValue) {struct t} : encoding :=
  match t, v with
  | TyBool, VlBool b => enc_raw [if b then x01 else x00]
  | TyInt8, VlInt8 z => enc_raw [byte_of_Z (wrap_u 8 z)]
  | TyInt16, VlInt16 z => enc_order 2 (wrap_u 16 z)
  | TyInt32, VlInt32 z => enc_order 4 (wrap_u 32 z)
  | TyInt64, VlInt64 z => enc_order 8 (wrap_u 64 z)
  | TyUint8, VlUint8 z => enc_raw [byte_of_Z z]
  | TyUint16, VlUint16 z => enc_order 2 z
  | TyUint32, VlUint32 z => enc_order 4 z
  | TyUint64, VlUint64 z => enc_order 8 z
  | TyFloat32, VlFloat32 z => enc_order 4 z
  | TyFloat64, VlFloat64 z => enc_order 8 z
  | TyString, VlString s | TyBoundedString _, VlString s => enc_string s
  | TyArray inner _, VlArray vs => enc_list (enc_value inner) vs
  | TySequence inner, VlArray vs | TyBoundedSequence inner _, VlArray vs =>
      enc_order 4 (Z.of_nat (length vs)) ;+ enc_list (enc_value inner) vs
  | TySequence _, VlBytes bs | TyBoundedSequence _ _, VlBytes bs => enc_bytes bs
  | TyMessage s, VlMessage m => enc_message s m
  | _, _ => enc_nil
  end
with enc_message (s : MessageSchema) (m : DynamicMessage) {struct s} : encoding :=
  match s with
  | mkSchema _ _ _ fs _ => foldr enc_seq enc_nil (zip_with enc_field fs (values m))
  end
with enc_field (f : FieldSchema) (v : DynamicValue) {struct f} : encoding :=
  match f with
  | mkField _ t _ => enc_value t v
  end.

(** ** Lemmas *)

(** The field types with no type inside. *)
Definition scalar_type (t : FieldType) : bool :=
  match t with
  | TyMessage _ | TyArray _ _ | TySequence _ | TyBoundedSequence _ _ => false
  | _ => true
  end.

(** Induction on field types, with the fields of nested messages. *)
Section TypeInduction.
Context (P : FieldType -> Prop).
Context (HBase : forall t, scalar_type t = true -> P t).
Context (HMessage : forall s, Forall (fun f => P (field_type f)) (fields s) -> P (TyMessage s))
  (HArray : forall t n, P t -> P (TyArray t n))
  (HSequence : forall t, P t -> P (TySequence t))
  (HBounded : forall t n, P t -> P (TyBoundedSequence t n)).

Lemma field_type_nested_ind : forall t, P t.
Proof using All.
  fix IH 1. intros t. destruct t; try (by apply HBase).
  - apply HMessage. destruct schema as [? ? ? fs ?]. cbn [fields].
    induction fs as [|[n t d] fs IHfs]; constructor; [apply IH | apply IHfs].
  - apply HArray, IH.
  - apply HSequence, IH.
  - apply HBounded, IH.
Qed.
End TypeInduction.

Section CodecLemmas.
Context `{DL : DynLayout}.

(** The vector of a sequence within the decoder's limit is always allocated. *)
Lemma sequence_fits n : Z.of_nat n <= MAX_SEQUENCE_LENGTH -> vec_fits n = true.
Proof.
  intros Hn. unfold vec_fits. apply Z.leb_le. pose proof size_of_DynamicValue_small. unfold MAX_SEQUENCE_LENGTH in Hn.
  transitivity (100000000 * 2 ^ 16); [|done]. apply Z.mul_le_mono_nonneg; lia.
Qed.
Lemma with_capacity_fits {E} n : vec_fits n = true -> with_capacity (E := E) n = Ok [].
Proof. unfold with_capacity. by intros ->. Qed.

(** Fields are their types. *)
Lemma deserialize_field_eq f r : deserialize_field f r = deserialize_value (field_type f) r.
Proof. by destruct f. Qed.
Lemma field_typed_eq b f v : field_typed b f v = typed b (field_type f) v.
Proof. by destruct f. Qed.
Lemma norm_field_eq f v : norm_field f v = norm (field_type f) v.
Proof. by destruct f. Qed.
Lemma enc_field_eq f v : enc_field f v = enc_value (field_type f) v.
Proof. by destruct f. Qed.

(** *** Serialization appends the encoding *)

Section SerializeLemmas.
Context {ZBuf : Type} `{ZL : ZBufLaws ZBuf}.
Context (debug_value : DynamicValue -> string) (debug_type : FieldType -> string).
Abbreviation serialize_value := (serialize_value (ZBuf := ZBuf) debug_value debug_type).
Abbreviation serialize_message := (serialize_message (ZBuf := ZBuf) debug_value debug_type).
Abbreviation appends := (appends (ZBuf := ZBuf) (B := list byte) (E := DynamicError)).

Lemma serialize_all_appends {V} (f : V -> DynWriter -> res DynamicError DynWriter)
    (e : V -> encoding) vs :
  Forall (fun v => appends (f v) (e v)) vs ->
  appends (serialize_all f vs) (enc_list e vs).
Proof.
  induction 1 as [|v vs Hv _ IH]; [apply appends_ret|].
  by apply (appends_bind (f v) (serialize_all f vs)).
Qed.

Lemma serialize_zip_appends {F V} (f : V -> F -> DynWriter -> res DynamicError DynWriter)
    (e : F -> V -> encoding) vs fs :
  Forall2 (fun fld v => appends (f v fld) (e fld v)) fs vs ->
  appends (serialize_zip f vs fs) (foldr enc_seq enc_nil (zip_with e fs vs)).
Proof.
  induction 1 as [|fld v fs vs Hv _ IH]; [apply appends_ret|].
  by apply (appends_bind (f v fld) (serialize_zip f vs fs)).
Qed.

Lemma sequence_appends (t : FieldType) vs :
  (forall v, typed false t v -> appends (serialize_value v t) (enc_value t v)) ->
  Z.of_nat (length vs) <= MAX_SEQUENCE_LENGTH -> all (typed false t) vs ->
  appends (fun w => w ← write_sequence_length (ZBuf := ZBuf) w (length vs);
                    serialize_all (fun v => serialize_value v t) vs w)
    (enc_order 4 (Z.of_nat (length vs)) ;+ enc_list (enc_value t) vs).
Proof.
  intros IH Hl Hv. apply (appends_bind (fun w => write_sequence_length w (length vs))).
  - apply write_sequence_length_appends. by apply max_sequence_length_u32.
  - apply serialize_all_appends. rewrite all_Forall in Hv. exact (Forall_impl _ _ _ Hv IH).
Qed.

Lemma fields_appends fs vs :
  Forall (fun f => forall v, typed false (field_type f) v ->
    appends (serialize_value v (field_type f)) (enc_value (field_type f) v)) fs ->
  all2 (field_typed false) fs vs ->
  appends (serialize_zip (fun v f => serialize_value v (field_type f)) vs fs)
    (foldr enc_seq enc_nil (zip_with enc_field fs vs)).
Proof.
  intros Hf Hv. apply serialize_zip_appends. rewrite all2_Forall2 in Hv.
  induction Hv as [|f v fs vs Hv _ IH]; [constructor|]. inversion_clear Hf as [|?? H1 H2].
  constructor; [|by apply IH]. rewrite enc_field_eq. apply H1. by rewrite <- field_typed_eq.
Qed.

Lemma scalar_value_appends t v :
  scalar_type t = true -> typed false t v -> appends (serialize_value v t) (enc_value t v).
Proof.
  intros Ht Hv. destruct t; try done; destruct v; try done; cbn [typed] in Hv;
    cbn [DynCdr.serialize_value enc_value].
  all: first [ apply write_bool_appends | apply write_i8_appends | apply write_u8_appends
    | apply write_i16_appends | apply write_u16_appends | apply write_i32_appends
    | apply write_u32_appends | apply write_i64_appends | apply write_u64_appends
    | apply write_f32_appends | apply write_f64_appends
    | apply write_string_appends; apply Hv ].
Qed.

Lemma serialize_value_appends t :
  forall v, typed false t v -> appends (serialize_value v t) (enc_value t v).
Proof.
  apply (field_type_nested_ind (fun t => forall v, typed false t v ->
    appends (serialize_value v t) (enc_value t v))); clear t.
  - intros t Ht v Hv. by apply scalar_value_appends.
  - intros [tn p n fs h] IH v Hv. destruct v; try done. destruct m as [s' vs].
    destruct Hv as [Hs Hv]. cbn in Hs. subst s'. exact (fields_appends fs vs IH Hv).
  - intros t n IH v Hv. destruct v; try done. destruct Hv as [_ Hv].
    apply serialize_all_appends. rewrite all_Forall in Hv. exact (Forall_impl _ _ _ Hv IH).
  - intros t IH v Hv. destruct v; try done.
    + destruct Hv as [Ht Hv]. destruct t; try done. by apply write_bytes_appends.
    + destruct Hv as [Hl Hv]. by apply (sequence_appends t vs IH Hl) in Hv.
  - intros t n IH v Hv. destruct v; try done.
    + by destruct Hv.
    + destruct Hv as [Hl Hv]. by apply (sequence_appends t vs IH Hl) in Hv.
Qed.

Lemma serialize_cdr_enc s m :
  message_typed false s m ->
  serialize_cdr (ZBuf := ZBuf) debug_value debug_type m =
    Ok (CDR_HEADER_LE ++ enc_message s m 0%nat).
Proof.
  intros Hm.
  assert (appends (serialize_message m) (enc_message s m)) as Ha
    by exact (serialize_value_appends (TyMessage s) (VlMessage m) Hm).
  unfold serialize_cdr. cbn [extend_from_slice Vec_CdrBuffer List.app].
  assert (buf_ok (ZBuf := ZBuf) (B := list byte) CDR_HEADER_LE) as Hb by exact I.
  destruct (appends_run _ _ CDR_HEADER_LE Ha Hb) as (w & Hw & _ & Hc).
  rewrite Hw. cbn in *. by rewrite Hc.
Qed.
End SerializeLemmas.

(** *** Decoding reads the encoding back *)

(** As [decodes], for the functions that return [DynamicError]. *)
Definition ddecodes {A} (f : CdrReader -> res DynamicError (A * CdrReader)) (e : encoding)
    (a : A) : Prop :=
  forall pre post,
  let bytes := pre ++ e (length pre) ++ post in
  f (mkReader bytes (length pre)) =
    Ok (a, mkReader bytes (length pre + length (e (length pre)))).

Lemma ddecodes_rd {A} (f : CdrReader -> res CdrError (A * CdrReader)) e a :
  decodes f e a -> ddecodes (rd f) e a.
Proof. intros Hf pre post. unfold rd. cbn zeta. by rewrite Hf. Qed.

Lemma ddecodes_ret {A} (a : A) : ddecodes (fun r => Ok (a, r)) enc_nil a.
Proof. intros pre post. cbn. by rewrite Nat.add_0_r. Qed.

Lemma ddecodes_bind {A C} (f : CdrReader -> res DynamicError (A * CdrReader))
    (g : A -> CdrReader -> res DynamicError (C * CdrReader)) e1 e2 a c :
  ddecodes f e1 a -> ddecodes (g a) e2 c ->
  ddecodes (fun r => '(a, r) ← f r; g a r) (e1 ;+ e2) c.
Proof.
  intros Hf Hg pre post. unfold enc_seq. cbn zeta.
  set (b1 := e1 (length pre)). set (b2 := e2 (length pre + length b1)%nat).
  pose proof (Hf pre (b2 ++ post)) as H1.
  pose proof (Hg (pre ++ b1) post) as H2.
  rewrite length_app in H2. fold b1 in H1. fold b2 in H2. cbn zeta in *.
  rewrite <- !app_assoc in *. rewrite H1. cbn [mbind res_bind].
  rewrite H2, length_app. do 3 f_equal. lia.
Qed.

Lemma ddecodes_map {A C} (f : CdrReader -> res DynamicError (A * CdrReader)) (k : A -> C) e a :
  ddecodes f e a -> ddecodes (fun r => '(a, r) ← f r; Ok (k a, r)) e (k a).
Proof. intros Hf pre post. cbn zeta. by rewrite Hf. Qed.

Lemma ddecodes_ext_enc {A} (f : CdrReader -> res DynamicError (A * CdrReader)) e e' a :
  (forall p, e p = e' p) -> ddecodes f e a -> ddecodes f e' a.
Proof. intros He Hf pre post. cbn. rewrite <- !He. apply Hf. Qed.

(** Loops. *)
Lemma deserialize_n_decodes {V} (f : CdrReader -> res DynamicError (V * CdrReader))
    (e : V -> encoding) (k : V -> V) vs :
  Forall (fun v => ddecodes f (e v) (k v)) vs ->
  ddecodes (deserialize_n f (length vs)) (enc_list e vs) (map k vs).
Proof.
  induction 1 as [|v vs Hv _ IH]; [apply ddecodes_ret|].
  apply (ddecodes_bind f (fun v r => '(vs, r) ← deserialize_n f (length vs) r; Ok (v :: vs, r))
    _ _ (k v)); [done|].
  by apply (ddecodes_map (deserialize_n f (length vs)) (cons (k v))).
Qed.

Lemma deserialize_each_decodes {F V} (f : F -> CdrReader -> res DynamicError (V * CdrReader))
    (e : F -> V -> encoding) (k : F -> V -> V) fs vs :
  Forall2 (fun fld v => ddecodes (f fld) (e fld v) (k fld v)) fs vs ->
  ddecodes (deserialize_each f fs) (foldr enc_seq enc_nil (zip_with e fs vs)) (zip_with k fs vs).
Proof.
  induction 1 as [|fld v fs vs Hv _ IH]; [apply ddecodes_ret|].
  apply (ddecodes_bind (f fld) (fun v r => '(vs, r) ← deserialize_each f fs r; Ok (v :: vs, r))
    _ _ (k fld v)); [done|].
  by apply (ddecodes_map (deserialize_each f fs) (cons (k fld v))).
Qed.

(** A sequence of [uint8] is encoded as the bytes it stands for. *)
Lemma uint8_encoding b vs p :
  all (typed b TyUint8) vs -> enc_list (enc_value TyUint8) vs p = map byte_of_value vs.
Proof.
  revert p. induction vs as [|v vs IH]; intros p Hv; [done|]. destruct Hv as [Hv Hvs].
  destruct v; try done. cbn [enc_list foldr map]. unfold enc_seq at 1. cbn zeta.
  change (foldr _ _ vs) with (enc_list (enc_value TyUint8) vs). by rewrite IH.
Qed.

Lemma uint8_sequence_decodes b vs :
  Z.of_nat (length vs) <= MAX_SEQUENCE_LENGTH -> all (typed b TyUint8) vs ->
  ddecodes (fun r => '(bytes, r) ← rd read_byte_sequence r; Ok (VlBytes bytes, r))
    (enc_order 4 (Z.of_nat (length vs)) ;+ enc_list (enc_value TyUint8) vs)
    (VlBytes (map byte_of_value vs)).
Proof.
  intros Hl Hv. apply (ddecodes_map (rd read_byte_sequence) VlBytes).
  apply (ddecodes_ext_enc _ (enc_bytes (map byte_of_value vs))).
  - intros p. unfold enc_bytes, enc_seq. rewrite length_map. f_equal.
    by rewrite (uint8_encoding b).
  - apply ddecodes_rd, read_byte_sequence_decodes. rewrite length_map.
    by apply max_sequence_length_u32.
Qed.

Lemma sequence_decodes (t : FieldType) vs :
  (forall v, typed false t v -> ddecodes (deserialize_value t) (enc_value t v) (norm t v)) ->
  Z.of_nat (length vs) <= MAX_SEQUENCE_LENGTH -> all (typed false t) vs ->
  ddecodes (fun r => '(len, r) ← rd read_sequence_length r;
      _ ← with_capacity (Z.to_nat len);
      '(values, r) ← deserialize_n (deserialize_value t) (Z.to_nat len) r;
      Ok (VlArray values, r))
    (enc_order 4 (Z.of_nat (length vs)) ;+ enc_list (enc_value t) vs)
    (VlArray (map (norm t) vs)).
Proof.
  intros IH Hl Hv. rewrite all_Forall in Hv.
  apply (ddecodes_bind (rd read_sequence_length) (fun len r =>
    _ ← with_capacity (Z.to_nat len);
    '(values, r) ← deserialize_n (deserialize_value t) (Z.to_nat len) r; Ok (VlArray values, r))
    _ _ (Z.of_nat (length vs))).
  - by apply ddecodes_rd, read_sequence_length_decodes.
  - rewrite Nat2Z.id, with_capacity_fits by (by apply sequence_fits). cbn [mbind res_bind].
    apply (ddecodes_map _ VlArray). apply deserialize_n_decodes.
    exact (Forall_impl _ _ _ Hv IH).
Qed.

Lemma scalar_value_decodes t v :
  scalar_type t = true -> typed false t v -> ddecodes (deserialize_value t) (enc_value t v) (norm t v).
Proof.
  intros Ht Hv. destruct t; try done; destruct v; try done; cbn [typed] in Hv;
    cbn [deserialize_value enc_value norm].
  - by apply (ddecodes_map (rd read_bool) VlBool), ddecodes_rd, read_bool_decodes.
  - by apply (ddecodes_map (rd read_i8) VlInt8), ddecodes_rd, read_i8_decodes.
  - by apply (ddecodes_map (rd read_i16) VlInt16), ddecodes_rd, read_i16_decodes.
  - by apply (ddecodes_map (rd read_i32) VlInt32), ddecodes_rd, read_i32_decodes.
  - by apply (ddecodes_map (rd read_i64) VlInt64), ddecodes_rd, read_i64_decodes.
  - by apply (ddecodes_map (rd read_u8) VlUint8), ddecodes_rd, read_u8_decodes.
  - by apply (ddecodes_map (rd read_u16) VlUint16), ddecodes_rd, read_u16_decodes.
  - by apply (ddecodes_map (rd read_u32) VlUint32), ddecodes_rd, read_u32_decodes.
  - by apply (ddecodes_map (rd read_u64) VlUint64), ddecodes_rd, read_u64_decodes.
  - by apply (ddecodes_map (rd read_f32) VlFloat32), ddecodes_rd, read_f32_decodes.
  - by apply (ddecodes_map (rd read_f64) VlFloat64), ddecodes_rd, read_f64_decodes.
  - destruct Hv. by apply (ddecodes_map (rd read_string) VlString), ddecodes_rd, read_string_decodes.
  - destruct Hv. by apply (ddecodes_map (rd read_string) VlString), ddecodes_rd, read_string_decodes.
Qed.

Lemma deserialize_value_decodes t :
  forall v, typed false t v -> ddecodes (deserialize_value t) (enc_value t v) (norm t v).
Proof.
  apply (field_type_nested_ind (fun t => forall v, typed false t v ->
    ddecodes (deserialize_value t) (enc_value t v) (norm t v))); clear t.
  - intros t Ht v Hv. by apply scalar_value_decodes.
  - intros [tn p n fs h] IH v Hv. destruct v; try done. destruct m as [s' vs].
    destruct Hv as [Hs Hv]. cbn in Hs. subst s'.
    cbn [deserialize_value enc_value norm deserialize_message enc_message norm_message schema values].
    apply (ddecodes_map _ VlMessage).
    apply (ddecodes_map (deserialize_each deserialize_field fs) (from_values _)).
    apply deserialize_each_decodes. cbn [values] in Hv. rewrite all2_Forall2 in Hv.
    induction Hv as [|f v fs' vs Hv _ IHv]; [constructor|].
    cbn [fields] in IH. inversion_clear IH as [|?? H1 H2].
    constructor; [|by apply IHv]. rewrite enc_field_eq, norm_field_eq, field_typed_eq in *.
    intros pre post. cbn zeta. rewrite deserialize_field_eq. by apply H1.
  - intros t n IH v Hv. destruct v; try done. destruct Hv as [[<- Hf] Hv].
    cbn [deserialize_value]. rewrite with_capacity_fits by done. cbn [mbind res_bind].
    rewrite all_Forall in Hv. apply (ddecodes_map _ VlArray). apply deserialize_n_decodes.
    exact (Forall_impl _ _ _ Hv IH).
  - intros t IH v Hv. cbn [deserialize_value]. destruct (is_uint8 t) eqn:E.
    + destruct t; try done. destruct v; try done.
      * destruct Hv as [_ Hv].
        by apply (ddecodes_map (rd read_byte_sequence) VlBytes), ddecodes_rd, read_byte_sequence_decodes.
      * destruct Hv as [Hl Hv]. by apply (uint8_sequence_decodes false).
    + destruct v; try done; [by destruct t, Hv as (? & ?)|]. destruct Hv as [Hl Hv].
      cbn [enc_value norm]. rewrite E. by apply sequence_decodes.
  - intros t n IH v Hv. cbn [deserialize_value]. destruct (is_uint8 t) eqn:E.
    + destruct t; try done. destruct v; try done; [by destruct Hv|].
      destruct Hv as [Hl Hv]. by apply (uint8_sequence_decodes false).
    + destruct v; try done; [by destruct t, Hv as (? & ?)|]. destruct Hv as [Hl Hv].
      cbn [enc_value norm]. rewrite E. by apply sequence_decodes.
Qed.

(** Whatever follows the message is ignored. *)
Lemma deserialize_cdr_tail s m tail :
  message_typed false s m ->
  deserialize_cdr (CDR_HEADER_LE ++ enc_message s m 0%nat ++ tail) s = Ok (norm_message s m).
Proof.
  intros Hm.
  assert (ddecodes (fun r => '(m, r) ← deserialize_message s r; Ok (VlMessage m, r))
    (enc_message s m) (VlMessage (norm_message s m))) as Hd
    by exact (deserialize_value_decodes (TyMessage s) (VlMessage m) Hm).
  specialize (Hd [] tail). cbn zeta in Hd. cbn [length List.app Nat.add] in Hd. unfold deserialize_cdr.
  destruct (Nat.ltb_spec (length (CDR_HEADER_LE ++ enc_message s m 0%nat ++ tail)) 4) as [Hl|_];
    [cbn in Hl; lia|].
  set (body := enc_message s m 0%nat ++ tail) in *.
  change (slice (CDR_HEADER_LE ++ body) 0 4)
    with (slice (E := DynamicError) ([] ++ CDR_HEADER_LE ++ body) (length (@nil byte))
      (length (@nil byte) + length CDR_HEADER_LE)).
  rewrite slice_ok. cbn [mbind res_bind].
  replace (slice CDR_HEADER_LE 0 2) with (Ok (E := DynamicError) [x00; x01]) by done.
  cbn [mbind res_bind]. rewrite bool_decide_eq_true_2 by done. cbn [negb].
  replace (slice (CDR_HEADER_LE ++ body) 4 (length (CDR_HEADER_LE ++ body)))
    with (Ok (E := DynamicError) body).
  2: { pose proof (slice_ok (E := DynamicError) CDR_HEADER_LE body []) as Hs.
    rewrite app_nil_r in Hs. cbn [length CDR_HEADER_LE] in *. rewrite length_app. by rewrite <- Hs. }
  cbn [mbind res_bind]. unfold reader_new.
  destruct (deserialize_message s (mkReader body 0)) as [[m' r]|e|]; cbn in Hd |- *; by simplify_eq.
Qed.

Lemma deserialize_cdr_enc s m :
  message_typed false s m ->
  deserialize_cdr (CDR_HEADER_LE ++ enc_message s m 0%nat) s = Ok (norm_message s m).
Proof. intros Hm. rewrite <- (app_nil_r (enc_message s m 0%nat)). by apply deserialize_cdr_tail. Qed.
End CodecLemmas.

(** A layout for the examples. *)
Definition ex_layout : DynLayout.
Proof. refine {| size_of_DynamicValue := 32 |}. lia. Defined.
