(* ===== verification/DynCodec.v ===== *)
(** * Correctness of the dynamic message codec

    Decoding is total and type sound, what it returns is in normal form, and
    the properties of crates/ros-z/src/dynamic/serialization: the round trip,
    robustness on arbitrary input, stability of re-serialization, the agreement
    of the fixed size of a flat schema with its encoding. *)
From S2P Require Import Prelude CdrBuffer Utf8 RustStr CdrPrimitives CdrSpec CdrDeserializer CdrSerde DynTypes DynCdr.
Open Scope list_scope.
Open Scope Z_scope.

#[local] Existing Instance LittleEndian.
#[local] Existing Instance LittleEndian_laws.

(** ** Readers that yield values with a property *)

(** The input is short enough for every count in it to fit [u32]. *)
Definition small (r : CdrReader) : Prop := Z.of_nat (length (input r)) < 2 ^ 32 - 1.

(** [ok] is what a reader needs not to panic. *)
Definition yields {E A} (ok : Prop) (P : A -> Prop) (f : CdrReader -> res E (A * CdrReader)) : Prop :=
  forall r, reader_ok r ->
  (ok -> no_panic (f r)) /\
  forall a r', f r = Ok (a, r') -> advanced r r' /\ (small r -> P a).

Lemma yields_weaken {E A} (ok ok' : Prop) (P Q : A -> Prop) (f : CdrReader -> res E (A * CdrReader)) :
  (ok' -> ok) -> (forall a, P a -> Q a) -> yields ok P f -> yields ok' Q f.
Proof.
  intros Hok HPQ Hf r Hr. destruct (Hf r Hr) as [Hp Ha]. split; [auto|].
  intros a r' H. destruct (Ha a r' H) as [? HP]. eauto.
Qed.

Lemma yields_bind {E A C} ok (P : A -> Prop) (Q : C -> Prop)
    (f : CdrReader -> res E (A * CdrReader)) (g : A -> CdrReader -> res E (C * CdrReader)) :
  yields ok P f -> (forall a, yields ok (fun c => P a -> Q c) (g a)) ->
  yields ok Q (fun r => '(a, r) ← f r; g a r).
Proof.
  intros Hf Hg r Hr. destruct (Hf r Hr) as [Hp Ha].
  destruct (f r) as [[a r1]|e|]; [|by split|by split; [intros Hok; by destruct (Hp Hok)|]]. cbn [mbind res_bind].
  destruct (Ha a r1 eq_refl) as [H1 HP]. destruct (Hg a r1 (advanced_ok _ _ H1)) as [Hp' Hc].
  split; [done|]. intros c r' H. destruct (Hc c r' H) as [H2 HQ].
  split; [by eapply advanced_trans|]. intros Hs. apply HQ; [|by apply HP].
  unfold small in *. destruct H1 as (-> & _). done.
Qed.

Lemma yields_ret {E A} ok (P : A -> Prop) (a : A) : P a -> yields (E := E) ok P (fun r => Ok (a, r)).
Proof. intros Ha r Hr. split; [done|]. intros ? ? [= <- <-]. split; [by apply advanced_refl | done]. Qed.

Lemma yields_map {E A C} ok (P : A -> Prop) (Q : C -> Prop) (k : A -> C)
    (f : CdrReader -> res E (A * CdrReader)) :
  yields ok P f -> (forall a, P a -> Q (k a)) -> yields ok Q (fun r => '(a, r) ← f r; Ok (k a, r)).
Proof. intros Hf Hk. apply (yields_bind ok P Q f); [done|]. intros a. apply yields_ret, Hk. Qed.

Lemma yields_rd {A} ok (P : A -> Prop) (f : CdrReader -> res CdrError (A * CdrReader)) :
  yields ok P f -> yields ok P (rd f).
Proof.
  intros Hf r Hr. destruct (Hf r Hr) as [Hp Ha]. unfold rd.
  destruct (f r) as [[a r1]|e|]; [|by split|by split; [intros Hok; by destruct (Hp Hok)|]]. split; [done|].
  cbn. intros ? ? [= <- <-]. by apply Ha.
Qed.

Lemma yields_safe {E A} ok (P : A -> Prop) (f : CdrReader -> res E (A * CdrReader)) :
  safe f -> (forall r a r', reader_ok r -> f r = Ok (a, r') -> small r -> P a) -> yields ok P f.
Proof. intros Hf HP r Hr. destruct (Hf r Hr) as [? Ha]. split; [done|]. eauto. Qed.

(** An allocation is one of the things [ok] has to promise. *)
Lemma yields_capacity `{DynLayout} {A} (ok : Prop) (P : A -> Prop) n (f : CdrReader -> res DynamicError (A * CdrReader)) :
  (ok -> vec_fits n = true) -> (vec_fits n = true -> yields ok P f) ->
  yields ok P (fun r => _ ← with_capacity n; f r).
Proof.
  intros Hn Hf r Hr. unfold with_capacity. destruct (vec_fits n); cbn [mbind res_bind]; [by apply Hf|].
  split; [|done]. intros Hok. by specialize (Hn Hok).
Qed.

(** *** The primitive reads *)

Lemma read_bool_yields ok : yields ok (fun _ => True) read_bool.
Proof. apply yields_safe; [apply read_bool_safe | done]. Qed.

Lemma read_u8_yields ok : yields ok (u_range 8) read_u8.
Proof. apply yields_safe; [apply read_u8_safe|]. intros r a r' _ H _. by eapply read_u8_range. Qed.

Lemma read_i8_yields ok : yields ok (i_range 8) read_i8.
Proof.
  apply yields_safe; [apply read_i8_safe|]. intros r a r' _ H _. unfold read_i8 in H. res_inv.
  by apply wrap_i_range.
Qed.

(** The aligned reads, from the shape they share. *)
Lemma aligned_yields {A} ok n (g : Z -> A) (P : A -> Prop) :
  (0 < n)%nat -> (forall v, u_range (8 * Z.of_nat n) v -> P (g v)) -> yields ok P (read_aligned n g).
Proof.
  intros Hn HP. apply yields_safe; [by apply read_aligned_safe|]. intros r a r' Hr H _.
  destruct (read_aligned_inv n g r a r' Hr H) as (v & -> & Hv). by apply HP.
Qed.

Lemma read_u16_yields ok : yields ok (u_range 16) read_u16.
Proof. apply (aligned_yields ok 2 (fun v => v)); [lia | done]. Qed.
Lemma read_u32_yields ok : yields ok (u_range 32) read_u32.
Proof. apply (aligned_yields ok 4 (fun v => v)); [lia | done]. Qed.
Lemma read_u64_yields ok : yields ok (u_range 64) read_u64.
Proof. apply (aligned_yields ok 8 (fun v => v)); [lia | done]. Qed.
Lemma read_i16_yields ok : yields ok (i_range 16) read_i16.
Proof. apply (aligned_yields ok 2 (wrap_i 16)); [lia|]. intros v _. by apply wrap_i_range. Qed.
Lemma read_i32_yields ok : yields ok (i_range 32) read_i32.
Proof. apply (aligned_yields ok 4 (wrap_i 32)); [lia|]. intros v _. by apply wrap_i_range. Qed.
Lemma read_i64_yields ok : yields ok (i_range 64) read_i64.
Proof. apply (aligned_yields ok 8 (wrap_i 64)); [lia|]. intros v _. by apply wrap_i_range. Qed.

Lemma slice_length {E A} (l m : list A) a b :
  slice (E := E) l a b = Ok m -> (length m = b - a /\ b <= length l)%nat.
Proof.
  unfold slice. case_decide as H; [|done]. intros [= <-].
  rewrite length_take, length_drop. lia.
Qed.

Lemma read_bytes_length r n bs r' :
  read_bytes r n = Ok (bs, r') -> (length bs <= length (input r))%nat.
Proof.
  unfold read_bytes. case_match; [done|]. intros Hx.
  destruct (slice (input r) _ _) as [l|e|] eqn:Es; [|done..]. cbn in Hx. simplify_eq.
  apply slice_length in Es. lia.
Qed.

Lemma read_aligned_input {A} n (g : Z -> A) r a r' :
  (0 < n)%nat -> reader_ok r -> read_aligned n g r = Ok (a, r') -> input r' = input r.
Proof. intros Hn Hr H. by apply (read_aligned_safe n g Hn r Hr) in H as (? & _). Qed.

Lemma read_string_yields ok : yields ok (fun s => str_valid s /\ Z.of_nat (str_len s) + 1 < 2 ^ 32) read_string.
Proof.
  apply yields_safe; [apply read_string_safe|]. intros r s r' Hr H Hs. unfold read_string in H.
  destruct (read_u32 r) as [[n r1]|e|] eqn:E1; [|done..]. cbn [mbind res_bind] in H.
  destruct (n =? 0); [injection H as <- _; split; [done|reflexivity]|].
  res_inv. apply read_bytes_length in E. apply strip_nul_length in E0.
  apply from_utf8_inv in E3 as [Hv ->]. split; [done|].
  rewrite (read_aligned_input 4 (fun v => v) r n r1) in E by (done || lia).
  rewrite str_bytes_length in E0. unfold small in Hs. lia.
Qed.

Lemma read_byte_sequence_yields ok : yields ok (fun bs => Z.of_nat (length bs) < 2 ^ 32) read_byte_sequence.
Proof.
  apply yields_safe; [apply read_byte_sequence_safe|]. intros r bs r' Hr H Hs.
  unfold read_byte_sequence in H.
  destruct (read_u32 r) as [[n r1]|e|] eqn:E1; [|done..]. cbn [mbind res_bind] in H.
  apply read_bytes_length in H.
  rewrite (read_aligned_input 4 (fun v => v) r n r1) in H by (done || lia).
  unfold small in Hs. lia.
Qed.

Lemma read_sequence_length_yields ok : yields ok (fun n => 0 <= n <= MAX_SEQUENCE_LENGTH) read_sequence_length.
Proof.
  apply yields_safe; [apply read_sequence_length_safe|]. intros r n r' Hr H _.
  by apply (read_sequence_length_inv r n r' Hr H).
Qed.

(** *** Loops *)

Lemma deserialize_n_yields {V} ok (P : V -> Prop) (f : CdrReader -> res DynamicError (V * CdrReader)) n :
  yields ok P f -> yields ok (fun vs => length vs = n /\ Forall P vs) (deserialize_n f n).
Proof.
  intros Hf. induction n as [|n IH]; [by apply yields_ret|].
  apply (yields_bind ok P _ f); [done|]. intros v.
  apply (yields_map ok (fun vs => length vs = n /\ Forall P vs) _ (cons v)); [done|].
  intros vs [<- Hvs] Hv. by split; [|constructor].
Qed.

Lemma deserialize_each_yields {F V} ok (P : F -> V -> Prop)
    (f : F -> CdrReader -> res DynamicError (V * CdrReader)) fs :
  Forall (fun fld => yields ok (P fld) (f fld)) fs ->
  yields ok (Forall2 P fs) (deserialize_each f fs).
Proof.
  induction 1 as [|fld fs Hf _ IH]; [apply yields_ret; constructor|].
  apply (yields_bind ok (P fld) _ (f fld)); [done|]. intros v.
  apply (yields_map ok (Forall2 P fs) _ (cons v)); [done|]. intros vs Hvs Hv. by constructor.
Qed.

Section Decoding.
Context `{DL : DynLayout}.

(** Every fixed array of the type, at any depth, fits in a vector. *)
Fixpoint arrays_fit (t : FieldType) : bool :=
  match t with
  | TyArray inner len => vec_fits len && arrays_fit inner
  | TySequence inner | TyBoundedSequence inner _ => arrays_fit inner
  | TyMessage s => schema_arrays_fit s
  | _ => true
  end
with schema_arrays_fit (s : MessageSchema) : bool :=
  match s with
  | mkSchema _ _ _ fs _ => forallb field_arrays_fit fs
  end
with field_arrays_fit (f : FieldSchema) : bool :=
  match f with
  | mkField _ t _ => arrays_fit t
  end.

(** *** Decoding is type sound and in normal form *)

(** A decoded value has its type, and is its own normal form. *)
Definition decoded (t : FieldType) (v : DynamicValue) : Prop := typed true t v /\ norm t v = v.

Lemma decoded_Forall t vs : Forall (decoded t) vs -> all (typed true t) vs /\ map (norm t) vs = vs.
Proof.
  induction 1 as [|v vs [Hv Hn] _ [IH1 IH2]]; [done|]. cbn. by rewrite Hn, IH2.
Qed.

Lemma decoded_fields fs vs :
  Forall2 (fun f v => decoded (field_type f) v) fs vs ->
  all2 (field_typed true) fs vs /\ zip_with norm_field fs vs = vs.
Proof.
  induction 1 as [|f v fs vs [Hv Hn] _ [IH1 IH2]]; [done|]. cbn.
  by rewrite field_typed_eq, norm_field_eq, Hn, IH2.
Qed.

Lemma bytes_yields ok (P : DynamicValue -> Prop) :
  (forall bs, Z.of_nat (length bs) < 2 ^ 32 -> P (VlBytes bs)) ->
  yields ok P (fun r => '(bytes, r) ← rd read_byte_sequence r; Ok (VlBytes bytes, r)).
Proof.
  intros HP. eapply (yields_map ok _ _ VlBytes); [apply yields_rd, read_byte_sequence_yields | exact HP].
Qed.

Lemma sequence_yields ok (t : FieldType) (P : DynamicValue -> Prop) :
  yields ok (decoded t) (deserialize_value t) ->
  (forall vs, Z.of_nat (length vs) <= MAX_SEQUENCE_LENGTH -> Forall (decoded t) vs -> P (VlArray vs)) ->
  yields ok P (fun r => '(len, r) ← rd read_sequence_length r;
    _ ← with_capacity (Z.to_nat len);
    '(values, r) ← deserialize_n (deserialize_value t) (Z.to_nat len) r; Ok (VlArray values, r)).
Proof.
  intros Ht HP r Hr. destruct (yields_rd ok _ _ (read_sequence_length_yields ok) r Hr) as [Hp Ha].
  destruct (read_sequence_length_safe r Hr) as [_ Hs].
  unfold rd in *. destruct (read_sequence_length r) as [[n r1]|e|] eqn:En; [|by split|by split; [intros Hok; by destruct (Hp Hok)|]].
  cbn [map_err mbind res_bind] in *. destruct (Ha n r1 eq_refl) as [H1 _].
  destruct (read_sequence_length_inv r n r1 Hr En) as [H2 H3].
  rewrite with_capacity_fits by (apply sequence_fits; lia). cbn [mbind res_bind].
  assert (yields ok P (fun r => '(values, r) ← deserialize_n (deserialize_value t) (Z.to_nat n) r; Ok (VlArray values, r))) as Hy.
  { eapply (yields_map ok _ _ VlArray); [apply deserialize_n_yields, Ht|]. intros vs [Hl Hvs]. apply HP; [lia|done]. }
  destruct (Hy r1 (advanced_ok _ _ H1)) as [Hp' Hc]. split; [done|]. intros v r' H.
  destruct (Hc v r' H) as [H4 H5]. split; [by eapply advanced_trans|]. intros Hsm. apply H5.
  unfold small in *. destruct H1 as (-> & _). done.
Qed.

Lemma scalar_yields t : scalar_type t = true -> yields (arrays_fit t = true) (decoded t) (deserialize_value t).
Proof.
  intros Ht. destruct t; try done; clear Ht; cbn [deserialize_value].
  1: apply (yields_map _ _ _ VlBool _ (yields_rd _ _ _ (read_bool_yields _))).
  2: apply (yields_map _ _ _ VlInt8 _ (yields_rd _ _ _ (read_i8_yields _))).
  3: apply (yields_map _ _ _ VlInt16 _ (yields_rd _ _ _ (read_i16_yields _))).
  4: apply (yields_map _ _ _ VlInt32 _ (yields_rd _ _ _ (read_i32_yields _))).
  5: apply (yields_map _ _ _ VlInt64 _ (yields_rd _ _ _ (read_i64_yields _))).
  6: apply (yields_map _ _ _ VlUint8 _ (yields_rd _ _ _ (read_u8_yields _))).
  7: apply (yields_map _ _ _ VlUint16 _ (yields_rd _ _ _ (read_u16_yields _))).
  8: apply (yields_map _ _ _ VlUint32 _ (yields_rd _ _ _ (read_u32_yields _))).
  9: apply (yields_map _ _ _ VlUint64 _ (yields_rd _ _ _ (read_u64_yields _))).
  10: apply (yields_map _ _ _ VlFloat32 _ (yields_rd _ _ _ (read_u32_yields _))).
  11: apply (yields_map _ _ _ VlFloat64 _ (yields_rd _ _ _ (read_u64_yields _))).
  12: apply (yields_map _ _ _ VlString _ (yields_rd _ _ _ (read_string_yields _))).
  13: apply (yields_map _ _ _ VlString _ (yields_rd _ _ _ (read_string_yields _))).
  all: intros a Ha; by split.
Qed.

Lemma deserialize_value_yields t : yields (arrays_fit t = true) (decoded t) (deserialize_value t).
Proof.
  apply (field_type_nested_ind (fun t => yields (arrays_fit t = true) (decoded t) (deserialize_value t))); clear t.
  - apply scalar_yields.
  - intros [tn p n fs h] IH. cbn [deserialize_value deserialize_message arrays_fit schema_arrays_fit].
    apply (yields_map _ (fun m => schema m = mkSchema tn p n fs h /\
      Forall2 (fun f v => decoded (field_type f) v) fs (values m)) _ VlMessage).
    + apply (yields_map _ (Forall2 (fun f v => decoded (field_type f) v) fs) _ (from_values _));
        [|by intros vs Hvs; split].
      apply deserialize_each_yields. cbn [fields] in IH. apply Forall_forall. intros f Hin.
      rewrite Forall_forall in IH. intros r Hr. rewrite deserialize_field_eq.
      refine (yields_weaken (arrays_fit (field_type f) = true) _ _ _ _ _ (fun a H => H) (IH f Hin) r Hr).
      rewrite forallb_forall. intros Ha. apply list_elem_of_In in Hin. specialize (Ha f Hin). by destruct f.
    + intros [s vs] [Hs Hvs]. cbn in Hs. subst s. cbn [values] in Hvs.
      destruct (decoded_fields _ _ Hvs) as [Ht Hn].
      split; [by split | cbn; by rewrite Hn].
  - intros t n IH. cbn [deserialize_value arrays_fit]. apply (yields_capacity (vec_fits n && arrays_fit t = true)).
    + by intros [Hf _]%andb_true_iff.
    + intros Hfit. apply (yields_weaken (arrays_fit t = true) _ (decoded (TyArray t n)) _); [by intros [_ Hf]%andb_true_iff|done|].
      apply (yields_map _ _ _ VlArray _ (deserialize_n_yields _ _ _ n IH)).
      intros vs [Hl Hvs]. destruct (decoded_Forall _ _ Hvs) as [Ht Hn].
      split; [done | cbn; by rewrite Hn].
  - intros t IH. cbn [deserialize_value arrays_fit]. destruct (is_uint8 t) eqn:E.
    + apply bytes_yields. intros bs Hb. by split.
    + apply sequence_yields; [done|]. intros vs Hl Hvs. destruct (decoded_Forall _ _ Hvs) as [Ht Hn].
      split; [done | cbn; by rewrite E, Hn].
  - intros t n IH. cbn [deserialize_value arrays_fit]. destruct (is_uint8 t) eqn:E.
    + apply bytes_yields. intros bs Hb. by split.
    + apply sequence_yields; [done|]. intros vs Hl Hvs. destruct (decoded_Forall _ _ Hvs) as [Ht Hn].
      split; [done | cbn; by rewrite E, Hn].
Qed.

Lemma deserialize_message_yields s :
  yields (schema_arrays_fit s = true) (fun m => message_typed true s m /\ norm_message s m = m) (deserialize_message s).
Proof.
  pose proof (deserialize_value_yields (TyMessage s)) as Hs. cbn [deserialize_value arrays_fit] in Hs.
  intros r Hr. destruct (Hs r Hr) as [Hp Ha].
  destruct (deserialize_message s r) as [[m r1]|e|]; [|by split|by split; [intros Hok; by destruct (Hp Hok)|]]. split; [done|].
  intros ? ? [= <- <-]. destruct (Ha (VlMessage m) r1 eq_refl) as [? Hd]. split; [done|].
  intros Hsm. destruct (Hd Hsm) as [Ht Hn]. split; [done|]. cbn in Hn. congruence.
Qed.

(** The header check, and the payload. *)
Lemma slice_Ok {E A} (l : list A) a b :
  (a <= b)%nat -> (b <= length l)%nat -> slice (E := E) l a b = Ok (take (b - a) (drop a l)).
Proof. intros. unfold slice. by rewrite decide_True. Qed.

Lemma deserialize_cdr_cases data s :
  (length data < 4)%nat /\ (exists e, deserialize_cdr data s = Err e) \/
  (4 <= length data)%nat /\ take 2 data <> [x00; x01] /\ (exists e, deserialize_cdr data s = Err e) \/
  (4 <= length data)%nat /\ take 2 data = [x00; x01] /\
    deserialize_cdr data s = ('(m, _) ← deserialize_message s (reader_new (drop 4 data)); Ok m).
Proof.
  unfold deserialize_cdr. destruct (Nat.ltb_spec (length data) 4) as [|Hl].
  { left. split; [done | by eexists]. }
  right. rewrite (slice_Ok data 0 4), (slice_Ok data 4 (length data)) by lia. cbn [mbind res_bind].
  rewrite slice_Ok by (rewrite ?length_take, ?length_drop; lia). cbn [mbind res_bind].
  replace (take (2 - 0) (drop 0 (take (4 - 0) (drop 0 data)))) with (take 2 data)
    by (rewrite !drop_0, take_take; done).
  rewrite (take_ge (drop 4 data)) by (rewrite length_drop; lia).
  destruct (decide (take 2 data = [x00; x01])) as [E|E].
  - right. rewrite bool_decide_eq_true_2 by done. done.
  - left. rewrite bool_decide_eq_false_2 by done. split; [done|]. split; [done | by eexists].
Qed.

Lemma payload_small data :
  Z.of_nat (length data) < 2 ^ 32 - 1 -> small (reader_new (drop 4 data)).
Proof. unfold small, reader_new. cbn [input]. rewrite length_drop. lia. Qed.

(** *** Values decoding returns can be serialized again *)

(** No bounded sequence of [uint8] anywhere in the type. *)
Fixpoint no_bounded_bytes (t : FieldType) : bool :=
  match t with
  | TyBoundedSequence inner _ => negb (is_uint8 inner) && no_bounded_bytes inner
  | TyArray inner _ | TySequence inner => no_bounded_bytes inner
  | TyMessage s => schema_no_bounded_bytes s
  | _ => true
  end
with schema_no_bounded_bytes (s : MessageSchema) : bool :=
  match s with
  | mkSchema _ _ _ fs _ => forallb field_no_bounded_bytes fs
  end
with field_no_bounded_bytes (f : FieldSchema) : bool :=
  match f with
  | mkField _ t _ => no_bounded_bytes t
  end.

Lemma typed_no_bounded t :
  no_bounded_bytes t = true -> forall v, typed true t v -> typed false t v.
Proof.
  apply (field_type_nested_ind (fun t => no_bounded_bytes t = true ->
    forall v, typed true t v -> typed false t v)); clear t.
  - intros t. by destruct t.
  - intros [tn p n fs h] IH Hb v Hv. destruct v; try done. destruct Hv as [Hs Hv].
    split; [done|]. cbn [no_bounded_bytes schema_no_bounded_bytes] in Hb. cbn [fields] in IH.
    apply all2_Forall2. apply all2_Forall2 in Hv. revert Hb IH. clear Hs.
    induction Hv as [|f v fs' vs Hv _ IHv]; [constructor|]. cbn [forallb].
    intros [Hf Hfs]%andb_true_iff IH. inversion_clear IH as [|?? H1 H2].
    constructor; [|by apply IHv]. rewrite field_typed_eq in *.
    apply H1; [by destruct f | done].
  - intros t n IH Hb v Hv. destruct v; try done. destruct Hv as [Hl Hv]. split; [done|].
    apply all_Forall. apply all_Forall in Hv. exact (Forall_impl _ _ _ Hv (IH Hb)).
  - intros t IH Hb v Hv. destruct v; try done. destruct Hv as [Hl Hv]. split; [done|].
    apply all_Forall. apply all_Forall in Hv. exact (Forall_impl _ _ _ Hv (IH Hb)).
  - intros t n IH Hb v Hv. apply andb_true_iff in Hb as [Hu Hb]. destruct v; try done.
    + destruct Hv as (_ & Ht & _). by rewrite Ht in Hu.
    + destruct Hv as [Hl Hv]. split; [done|].
      apply all_Forall. apply all_Forall in Hv. exact (Forall_impl _ _ _ Hv (IH Hb)).
Qed.

(** *** The fixed size of flat schemas *)

(** Numbers, booleans and non-empty arrays of them. *)
Fixpoint flat (t : FieldType) : bool :=
  match t with
  | TyBool | TyInt8 | TyInt16 | TyInt32 | TyInt64 | TyUint8 | TyUint16 | TyUint32 | TyUint64
  | TyFloat32 | TyFloat64 => true
  | TyArray inner len => flat inner && negb (Nat.eqb len 0)
  | _ => false
  end.

Fixpoint flat_align (t : FieldType) : nat :=
  match t with
  | TyBool | TyInt8 | TyUint8 => 1
  | TyInt16 | TyUint16 => 2
  | TyInt32 | TyUint32 | TyFloat32 => 4
  | TyArray inner _ => flat_align inner
  | _ => 8
  end.
Fixpoint flat_size (t : FieldType) : nat :=
  match t with
  | TyArray inner len => flat_size inner * len
  | _ => flat_align t
  end.

Lemma alignment_flat t : flat t = true -> alignment t = Z.of_nat (flat_align t).
Proof. induction t; try done. cbn. intros [H _]%andb_true_iff. auto. Qed.

Lemma flat_align_pow t : flat t = true ->
  exists k, 0 <= k <= 3 /\ Z.of_nat (flat_align t) = 2 ^ k.
Proof.
  induction t; try done; cbn [flat flat_align]; intros H;
    [exists 0|exists 0|exists 1|exists 2|exists 3|exists 0|exists 1|exists 2|exists 3|exists 2|exists 3|];
    try (split; [lia | reflexivity]).
  apply andb_true_iff in H as [H _]. auto.
Qed.

Lemma flat_size_aligned t : flat t = true ->
  (flat_size t mod flat_align t = 0)%nat /\ (0 < flat_align t <= flat_size t)%nat.
Proof.
  induction t; try (intros _; cbn; lia); try done. cbn [flat flat_size flat_align].
  intros [Hf Hl]%andb_true_iff. destruct (IHt Hf) as [Hm Hb]. apply negb_true_iff, Nat.eqb_neq in Hl.
  split; [|nia]. apply Nat.Div0.mod_divides in Hm as [q Hq]. rewrite Hq.
  rewrite <- Nat.mul_assoc, Nat.mul_comm. apply Nat.Div0.mod_mul.
Qed.

Lemma fixed_size_flat t :
  flat t = true -> Z.of_nat (flat_size t) < 2 ^ 64 -> fixed_size t = Some (Z.of_nat (flat_size t)).
Proof.
  induction t; try done. cbn [flat flat_size fixed_size]. intros [Hf Hl]%andb_true_iff Hb.
  apply negb_true_iff, Nat.eqb_neq in Hl. rewrite IHt by (done || nia).
  rewrite <- Nat2Z.inj_mul, wrap_u_id by (unfold u_range; lia). done.
Qed.

Lemma pad_len_zero p a : (p mod a = 0)%nat -> pad_len p a = 0%nat.
Proof. unfold pad_len. by intros ->. Qed.

(** The number of bytes a flat value takes at position [p]. *)
Lemma enc_order_length n v p : length (enc_order n v p) = (pad_len p n + n)%nat.
Proof.
  unfold enc_order, enc_seq, enc_raw. cbn zeta.
  by rewrite length_app, enc_align_length, bo_write_length.
Qed.

Lemma add_mod_zero a b m : (a mod m = 0 -> b mod m = 0 -> (a + b) mod m = 0)%nat.
Proof. intros Ha Hb. rewrite Nat.Div0.add_mod, Ha, Hb. apply Nat.Div0.mod_0_l. Qed.

Lemma enc_list_aligned_length {V} (e : V -> encoding) (P : V -> Prop) a s vs p :
  (forall v p, P v -> length (e v p) = (pad_len p a + s)%nat) ->
  (s mod a = 0)%nat -> (p mod a = 0)%nat -> Forall P vs ->
  length (enc_list e vs p) = (s * length vs)%nat.
Proof.
  intros He Hs Hp Hv. revert p Hp. induction Hv as [|v vs Hv _ IH]; intros p Hp; [cbn; lia|].
  cbn [enc_list foldr length]. unfold enc_seq. cbn zeta. change (foldr _ _ vs) with (enc_list e vs).
  rewrite length_app, He by done. rewrite pad_len_zero by done.
  rewrite IH; [lia|]. by apply add_mod_zero.
Qed.

Lemma enc_flat_length b t : flat t = true ->
  forall v p, typed b t v -> length (enc_value t v p) = (pad_len p (flat_align t) + flat_size t)%nat.
Proof.
  induction t; try done; cbn [flat].
  12: { intros [Hf Hl]%andb_true_iff v p Hv. destruct v; try done. destruct Hv as [[<- _] Hv].
    apply all_Forall in Hv. cbn [enc_value flat_align flat_size].
    apply negb_true_iff, Nat.eqb_neq in Hl.
    destruct (flat_size_aligned t Hf) as [Hm Hb].
    destruct Hv as [|v vs Hv Hvs]; [done|]. cbn [enc_list foldr length]. unfold enc_seq. cbn zeta.
    change (foldr _ _ vs) with (enc_list (enc_value t) vs).
    rewrite length_app, (IHt Hf) by done.
    rewrite (enc_list_aligned_length (enc_value t) (typed b t) (flat_align t) (flat_size t));
      [lia| |done| |done].
    - intros v' p'. by apply (IHt Hf).
    - rewrite Nat.add_assoc. apply add_mod_zero; [|done]. apply pad_len_aligned. lia. }
  all: intros _ v p Hv; destruct v; try done; cbn [enc_value flat_size flat_align].
  all: try (apply enc_order_length).
  all: unfold enc_raw, pad_len; rewrite Nat.mod_1_r; done.
Qed.

Lemma align_up_pad p k :
  0 <= k <= 3 -> Z.of_nat p + 8 < 2 ^ 64 ->
  align_up (Z.of_nat p) (2 ^ k) = Z.of_nat (p + pad_len p (Z.to_nat (2 ^ k))).
Proof.
  intros Hk Hp. unfold align_up.
  assert (2 ^ k = 1 \/ 2 ^ k = 2 \/ 2 ^ k = 4 \/ 2 ^ k = 8) as Hc.
  { assert (k = 0 \/ k = 1 \/ k = 2 \/ k = 3) as [-> | [-> | [-> | ->]]] by lia; auto. }
  rewrite wrap_u_id by (unfold u_range; lia). rewrite land_align_down by lia.
  set (a := 2 ^ k) in *. unfold pad_len.
  assert (Z.of_nat (p mod Z.to_nat a) = Z.of_nat p mod a) as Hm
    by (rewrite Nat2Z.inj_mod, Z2Nat.id by lia; done).
  pose proof (Z.div_mod (Z.of_nat p) a ltac:(lia)) as Hd.
  pose proof (Z.mod_pos_bound (Z.of_nat p) a ltac:(lia)) as Hr.
  destruct (Nat.eqb_spec (p mod Z.to_nat a) 0) as [E|E].
  - assert ((Z.of_nat p + a - 1) / a = Z.of_nat p / a) as ->; [|lia].
    rewrite E in Hm. symmetry. apply (Z.div_unique _ _ _ (a - 1)); lia.
  - assert ((Z.of_nat p + a - 1) / a = Z.of_nat p / a + 1) as ->.
    { symmetry. apply (Z.div_unique _ _ _ (Z.of_nat p mod a - 1)); lia. }
    lia.
Qed.

Lemma fixed_size_loop_cons {A} (f_size : A -> option Z) f_align f l size :
  fixed_size_loop f_size f_align (f :: l) size =
    match f_size f with
    | None => None
    | Some n => fixed_size_loop f_size f_align l (wrap_u 64 (align_up size (f_align f) + n))
    end.
Proof. done. Qed.

Lemma fixed_loop_flat b fs vs p :
  Forall (fun f => flat (field_type f) = true) fs ->
  all2 (field_typed b) fs vs ->
  let e := foldr enc_seq enc_nil (zip_with enc_field fs vs) in
  Z.of_nat (p + length (e p)) < 2 ^ 63 ->
  fixed_size_loop field_fixed_size field_alignment fs (Z.of_nat p) =
    Some (Z.of_nat (p + length (e p))).
Proof.
  intros Hf Hv. cbn zeta. apply all2_Forall2 in Hv. revert p.
  induction Hv as [|f v fs vs Hv _ IH]; intros p Hb.
  { cbn. by rewrite Nat.add_0_r. }
  inversion_clear Hf as [|?? H1 H2]. cbn [zip_with foldr] in *. unfold enc_seq in *. cbn zeta in *.
  rewrite length_app in *. rewrite field_typed_eq in Hv.
  pose proof (enc_flat_length b _ H1 v p Hv) as Hl. rewrite <- enc_field_eq in Hl.
  rewrite Hl in *. rewrite fixed_size_loop_cons.
  replace (field_fixed_size f) with (fixed_size (field_type f)) by (by destruct f).
  replace (field_alignment f) with (alignment (field_type f)) by (by destruct f).
  rewrite fixed_size_flat, alignment_flat by (done || lia).
  destruct (flat_align_pow _ H1) as (k & Hk & Ha). rewrite Ha, align_up_pad by lia.
  rewrite <- Ha, Nat2Z.id, <- Nat2Z.inj_add.
  rewrite wrap_u_id by (unfold u_range; lia).
  rewrite <- Nat.add_assoc. rewrite IH; [f_equal; lia | done | lia].
Qed.

Lemma cdr_roundtrip_enc {ZBuf} `{ZL : ZBufLaws ZBuf} debug_value debug_type
    (zbuf_from : list byte -> ZBuf) s m :
  (forall bs, zbuf_contiguous (zbuf_from bs) = bs) ->
  message_typed false s m ->
  exists bytes z, to_cdr (ZBuf := ZBuf) debug_value debug_type m = Ok bytes /\
    to_cdr_zbuf debug_value debug_type zbuf_from m = Ok z /\ zbuf_contiguous z = bytes /\
    from_cdr bytes s = Ok (norm_message s m).
Proof.
  intros Hz Hm. unfold to_cdr, to_cdr_zbuf, from_cdr, serialize_cdr_to_zbuf.
  rewrite (serialize_cdr_enc debug_value debug_type s m Hm). do 2 eexists.
  split; [done|]. split; [done|]. split; [apply Hz|]. by apply deserialize_cdr_enc.
Qed.

(** ** Properties *)

(** C2 Round trip: every message of its schema (ranges and sizes respected)
    serializes, as bytes and as a [ZBuf] alike, and decodes against that schema
    to the same message, sequences of [uint8] in their [Bytes] form. *)
Theorem cdr_roundtrip {ZBuf} `{ZL : ZBufLaws ZBuf} debug_value debug_type
    (zbuf_from : list byte -> ZBuf) s m :
  (forall bs, zbuf_contiguous (zbuf_from bs) = bs) ->
  message_typed false s m ->
  exists bytes z, to_cdr (ZBuf := ZBuf) debug_value debug_type m = Ok bytes /\
    to_cdr_zbuf debug_value debug_type zbuf_from m = Ok z /\ zbuf_contiguous z = bytes /\
    from_cdr bytes s = Ok (norm_message s m).
Proof. apply cdr_roundtrip_enc. Qed.

(** C29 Robustness: on every input, decoding against a schema whose fixed arrays
    fit in a vector (of at most [isize::MAX] bytes) returns, it never panics;
    against a schema that has a larger array it may panic, allocating it.  What
    it returns, for an input shorter than [2^32 - 1] bytes and any schema, is a
    well-typed message of that schema in normal form; an input shorter than the
    header, or whose header is not little-endian CDR, is an error. *)
Theorem from_cdr_safe data s :
  match from_cdr data s with
  | Ok m =>
      (4 <= length data)%nat /\ take 2 data = [x00; x01] /\
      (Z.of_nat (length data) < 2 ^ 32 - 1 -> message_typed true s m /\ norm_message s m = m)
  | Err _ => True
  | Panic => schema_arrays_fit s = false
  end.
Proof.
  unfold from_cdr.
  destruct (deserialize_cdr_cases data s) as [(_ & e & ->)|[(_ & _ & e & ->)|(Hl & Hh & ->)]]; [done..|].
  destruct (deserialize_message_yields s (reader_new (drop 4 data))) as [Hp Ha];
    [unfold reader_ok; cbn; lia|].
  destruct (deserialize_message s _) as [[m r]|e|]; [|done|].
  - cbn. split; [done|]. split; [done|]. intros Hs. apply (Ha m r eq_refl). by apply payload_small.
  - cbn. destruct (schema_arrays_fit s); [|done]. by destruct (Hp eq_refl).
Qed.

(** Such a schema is accepted everywhere, and a header is enough to panic on it. *)
Lemma oversized_array_panics tn p n name t len d h rest :
  vec_fits len = false ->
  from_cdr (CDR_HEADER_LE ++ rest) (mkSchema tn p n [mkField name (TyArray t len) d] h) = Panic.
Proof.
  intros Hf. set (s := mkSchema _ _ _ _ _). unfold from_cdr.
  destruct (deserialize_cdr_cases (CDR_HEADER_LE ++ rest) s) as [(Hl & _)|[(_ & Hh & _)|(_ & _ & ->)]];
    [rewrite length_app in Hl; cbn in Hl; lia|done|].
  subst s. cbn. unfold with_capacity. by rewrite Hf.
Qed.

(** Stability: when the schema has no bounded sequence of [uint8], every
    message decoded from an input shorter than [2^32 - 1] bytes serializes, and
    decoding the result gives the same message: a node can forward what it
    receives. *)
Theorem reserialize_stable {ZBuf} `{ZL : ZBufLaws ZBuf} debug_value debug_type data s m :
  schema_no_bounded_bytes s = true -> Z.of_nat (length data) < 2 ^ 32 - 1 ->
  from_cdr data s = Ok m ->
  exists bytes, to_cdr (ZBuf := ZBuf) debug_value debug_type m = Ok bytes /\
    from_cdr bytes s = Ok m.
Proof.
  intros Hs Hl Hd. unfold from_cdr in Hd.
  destruct (deserialize_cdr_cases data s) as [(_ & e & He)|[(_ & _ & e & He)|(_ & _ & He)]];
    rewrite He in Hd; [done..|].
  destruct (deserialize_message_yields s (reader_new (drop 4 data))) as [_ Ha];
    [unfold reader_ok; cbn; lia|].
  destruct (deserialize_message s _) as [[m' r]|e|]; [|done..]. cbn in Hd. injection Hd as <-.
  destruct (Ha m' r eq_refl) as [_ Ht]. destruct (Ht (payload_small _ Hl)) as [Ht' Hn]. clear Ht.
  assert (message_typed false s m') as Hf
    by exact (typed_no_bounded (TyMessage s) Hs (VlMessage m') Ht').
  eexists. split; [by apply (serialize_cdr_enc debug_value debug_type s)|].
  unfold from_cdr. rewrite deserialize_cdr_enc by done. by rewrite Hn.
Qed.

(** The exception of the previous property is real: a bounded sequence of
    [uint8] decodes as [Bytes], which no serialization of that type accepts,
    whatever its contents. *)
Theorem bounded_bytes_not_serializable {ZBuf} `{ZBufApi ZBuf} debug_value debug_type max r w :
  match deserialize_value (TyBoundedSequence TyUint8 max) r with
  | Ok (v, _) => exists msg,
      serialize_value (ZBuf := ZBuf) debug_value debug_type v (TyBoundedSequence TyUint8 max) w =
        Err (SerializationError msg)
  | _ => True
  end.
Proof.
  cbn [deserialize_value is_uint8]. destruct (rd read_byte_sequence r) as [[bs r']|e|]; [|done..].
  cbn. by eexists.
Qed.

(** The fixed size of a flat schema (numbers, booleans and non-empty arrays
    of them) is exact: if a message of it encodes to fewer than [2^63] bytes,
    [fixed_cdr_size] is the number of bytes after the header. *)
Theorem fixed_cdr_size_flat {ZBuf} `{ZL : ZBufLaws ZBuf} debug_value debug_type s m :
  Forall (fun f => flat (field_type f) = true) (fields s) ->
  message_typed false s m -> Z.of_nat (length (enc_message s m 0%nat)) < 2 ^ 63 ->
  exists bytes, to_cdr (ZBuf := ZBuf) debug_value debug_type m = Ok bytes /\
    fixed_cdr_size s = Some (Z.of_nat (length bytes) - 4).
Proof.
  intros Hf Hm Hl. unfold to_cdr. eexists.
  split; [by apply (serialize_cdr_enc debug_value debug_type s)|].
  destruct s as [tn p n fs h]. destruct m as [s' vs]. destruct Hm as [Hs Hv].
  cbn in Hs. subst s'. cbn [fields] in Hf. cbn [values] in Hv.
  cbn [fixed_cdr_size enc_message values] in *.
  pose proof (fixed_loop_flat false fs vs 0 Hf Hv) as Hx. cbn zeta in Hx.
  cbn [Nat.add] in Hx. change (Z.of_nat 0) with 0 in Hx. rewrite Hx by done. rewrite length_app. f_equal. cbn. lia.
Qed.

End Decoding.

(** Concrete messages, for the witnesses. *)
#[local] Existing Instance ex_layout.

Definition ex_inner : MessageSchema :=
  mkSchema "p/msg/Inner" "p" "Inner"
    [FieldSchema_new "x" TyUint8; FieldSchema_new "y" TyUint64] None.
Definition ex_schema : MessageSchema :=
  mkSchema "p/msg/Outer" "p" "Outer"
    [FieldSchema_new "a" TyUint8; FieldSchema_new "in" (TyMessage ex_inner);
     FieldSchema_new "s" TyString; FieldSchema_new "b" (TySequence TyUint8)] None.
Definition ex_message : DynamicMessage :=
  mkMessage ex_schema [VlUint8 1; VlMessage (mkMessage ex_inner [VlUint8 2; VlUint64 3]);
    VlString "hi"; VlArray [VlUint8 7; VlUint8 8]].
Definition ex_flat_schema : MessageSchema :=
  mkSchema "p/msg/Flat" "p" "Flat"
    [FieldSchema_new "a" TyUint8; FieldSchema_new "b" (TyArray TyFloat64 3)] None.
Definition ex_flat : DynamicMessage :=
  mkMessage ex_flat_schema [VlUint8 1; VlArray [VlFloat64 0; VlFloat64 0; VlFloat64 0]].

Lemma ex_message_typed : message_typed false ex_schema ex_message.
Proof.
  cbn. unfold u_range, MAX_SEQUENCE_LENGTH. repeat split; try lia; vm_compute; done.
Qed.

(** The fixed size counts a nested message as one block at its largest
    alignment; CDR aligns each member by itself. *)
Lemma fixed_cdr_size_nested :
  let s := mkSchema "p/msg/Outer" "p" "Outer"
    [FieldSchema_new "a" TyUint8; FieldSchema_new "in" (TyMessage ex_inner)] None in
  let m := mkMessage s [VlUint8 1; VlMessage (mkMessage ex_inner [VlUint8 2; VlUint64 3])] in
  message_typed false s m /\ fixed_cdr_size s = Some 24 /\ length (enc_message s m 0%nat) = 16%nat.
Proof. cbn zeta. split; [cbn; unfold u_range; repeat split; lia | by vm_compute]. Qed.

Lemma cdr_roundtrip_witness :
  exists bytes z,
    to_cdr (ZBuf := list (list byte)) (fun _ => ""%string) (fun _ => ""%string) ex_message = Ok bytes /\
    to_cdr_zbuf (fun _ => ""%string) (fun _ => ""%string) (fun bs => [bs]) ex_message = Ok z /\
    zbuf_contiguous z = bytes /\ from_cdr bytes ex_schema = Ok (norm_message ex_schema ex_message).
Proof.
  apply (cdr_roundtrip (fun _ => ""%string) (fun _ => ""%string) (fun bs => [bs]) ex_schema ex_message).
  - intros bs. unfold zbuf_contiguous. cbn. apply app_nil_r.
  - apply ex_message_typed.
Defined.

Lemma reserialize_stable_witness :
  exists bytes,
    to_cdr (ZBuf := list (list byte)) (fun _ => ""%string) (fun _ => ""%string)
      (mkMessage ex_flat_schema [VlUint8 9; VlArray [VlFloat64 1; VlFloat64 2; VlFloat64 3]]) = Ok bytes /\
    from_cdr bytes ex_flat_schema =
      Ok (mkMessage ex_flat_schema [VlUint8 9; VlArray [VlFloat64 1; VlFloat64 2; VlFloat64 3]]).
Proof.
  apply (reserialize_stable (fun _ => ""%string) (fun _ => ""%string)
    ([x00; x01; x00; x00; x09; xff; xff; xff; xff; xff; xff; xff;
      x01; x00; x00; x00; x00; x00; x00; x00; x02; x00; x00; x00; x00; x00; x00; x00;
      x03; x00; x00; x00; x00; x00; x00; x00])); try reflexivity; lia.
Defined.

Lemma fixed_cdr_size_flat_witness :
  exists bytes,
    to_cdr (ZBuf := list (list byte)) (fun _ => ""%string) (fun _ => ""%string) ex_flat = Ok bytes /\
    fixed_cdr_size ex_flat_schema = Some (Z.of_nat (length bytes) - 4).
Proof.
  apply (fixed_cdr_size_flat (fun _ => ""%string) (fun _ => ""%string) ex_flat_schema ex_flat).
  - repeat constructor.
  - cbn. unfold u_range. repeat split; lia.
  - vm_compute. reflexivity.
Defined.
