(* ===== verification/DynAccess.v ===== *)
(** * Access to dynamic messages: correctness

    The laws of [get] and [set] by path, the preservation of the typing
    invariant by every operation that builds or changes a message, and the
    agreement of pre-computed index paths with access by name. *)
From S2P Require Import Prelude CdrBuffer Utf8 RustStr CdrPrimitives CdrSpec CdrDeserializer CdrSerde DynTypes DynCdr.
Open Scope list_scope.

(** ** Specification *)

Section Access.
Context `{DL : DynLayout}.

(** The type a path leads to. *)
Fixpoint type_at (s : MessageSchema) (path : list string) : option FieldType :=
  match path with
  | [] => None
  | name :: path' =>
      f ← field s name;
      match path' with
      | [] => Some (field_type f)
      | _ :: _ =>
          match field_type f with
          | TyMessage nested => type_at nested path'
          | _ => None
          end
      end
  end.

(** The value a path of indices leads to. *)
Fixpoint follow (v : DynamicValue) (indices : list nat) : option DynamicValue :=
  match indices with
  | [] => Some v
  | i :: indices' =>
      match v with
      | VlMessage m => v ← values m !! i; follow v indices'
      | _ => None
      end
  end.

(** Two paths neither of which leads through the other. *)
Definition independent (p q : list string) : Prop := ~ p `prefix_of` q /\ ~ q `prefix_of` p.

(** Every explicit default of the schema, and of the schemas it nests, has the
    type of its field, and the arrays without one fit in a vector. *)
Fixpoint defaults_typed (t : FieldType) : Prop :=
  match t with
  | TyArray inner len => vec_fits len = true /\ defaults_typed inner
  | TyMessage s => schema_defaults_typed s
  | _ => True
  end
with schema_defaults_typed (s : MessageSchema) : Prop :=
  match s with
  | mkSchema _ _ _ fs _ => all field_defaults_typed fs
  end
with field_defaults_typed (f : FieldSchema) : Prop :=
  match f with
  | mkField _ t d =>
      match d with
      | Some v => typed false t v
      | None => defaults_typed t
      end
  end.

(** ** Lemmas *)

Lemma position_by_name_Some fs name i :
  position_by_name fs name = Some i -> exists f, fs !! i = Some f /\ field_name f = name.
Proof.
  unfold position_by_name. destruct (list_find _ fs) as [[j f]|] eqn:E; [|done].
  cbn. intros [= <-]. apply list_find_Some in E as (? & ? & _). eauto.
Qed.

Lemma position_by_name_field s name i :
  position_by_name (fields s) name = Some i -> field s name = fields s !! i.
Proof.
  unfold position_by_name, field. destruct (list_find _ (fields s)) as [[j f]|] eqn:E; [|done].
  cbn. intros [= <-]. apply list_find_Some in E as (-> & _). done.
Qed.

Lemma position_by_name_inj fs n1 n2 i :
  position_by_name fs n1 = Some i -> position_by_name fs n2 = Some i -> n1 = n2.
Proof.
  intros (f1 & E1 & H1)%position_by_name_Some (f2 & E2 & H2)%position_by_name_Some. congruence.
Qed.

Lemma index_Ok {E A} (l : list A) i a : index (E := E) l i = Ok a <-> l !! i = Some a.
Proof. unfold index, unwrap. destruct (l !! i); split; congruence. Qed.

(** [set_nested] succeeds or fails exactly as [get_nested] does. *)
Lemma set_get_outcome path : forall m v,
  match get_nested m path with
  | Ok _ => exists m', set_nested m path v = Ok m'
  | Err e => set_nested m path v = Err e
  | Panic => set_nested m path v = Panic
  end.
Proof.
  induction path as [|name path IH]; intros m v; [done|]. cbn [get_nested set_nested].
  destruct (position_by_name _ name) as [i|]; [|done]. cbn [ok_or mbind res_bind].
  destruct (index (values m) i) as [old|e|]; [|done..]. cbn [mbind res_bind].
  destruct path as [|n2 path]; [by eexists|].
  destruct old; try done. specialize (IH m0 v).
  destruct (get_nested m0 (n2 :: path)).
  - destruct IH as [m' Hm]. rewrite Hm. by eexists.
  - by rewrite IH.
  - by rewrite IH.
Qed.

(** What a successful [set_nested] did. *)
Lemma set_nested_inv name path m v m' :
  set_nested m (name :: path) v = Ok m' ->
  exists i old new,
    position_by_name (fields (schema m)) name = Some i /\ values m !! i = Some old /\
    m' = mkMessage (schema m) (<[i := new]> (values m)) /\
    match path with
    | [] => new = v
    | _ :: _ => exists n n', old = VlMessage n /\ set_nested n path v = Ok n' /\ new = VlMessage n'
    end.
Proof.
  cbn [set_nested]. destruct (position_by_name _ name) as [i|]; [|done]. cbn [ok_or mbind res_bind].
  destruct (index (values m) i) as [old|e|] eqn:Ei; [|done..]. cbn [mbind res_bind].
  apply index_Ok in Ei. destruct path as [|n2 path].
  - intros [= <-]. by exists i, old, v.
  - destruct old; try done. destruct (set_nested m0 (n2 :: path) v) as [n'|e|] eqn:Es; [|done..].
    intros [= <-]. exists i, (VlMessage m0), (VlMessage n'). repeat split; try done. eauto.
Qed.

Lemma get_nested_cons m name path i v :
  position_by_name (fields (schema m)) name = Some i -> values m !! i = Some v ->
  get_nested m (name :: path) =
    match path with
    | [] => Ok v
    | _ :: _ => match v with VlMessage n => get_nested n path | _ => Err (NotAMessage name) end
    end.
Proof.
  intros Hi Hv. cbn [get_nested]. rewrite Hi. cbn [ok_or mbind res_bind].
  apply (index_Ok (E := DynamicError)) in Hv. by rewrite Hv.
Qed.

Lemma get_set_same path : forall m v m',
  set_nested m path v = Ok m' -> get_nested m' path = Ok v.
Proof.
  induction path as [|name path IH]; intros m v m' Hs; [done|].
  apply set_nested_inv in Hs as (i & old & new & Hi & Ho & -> & Hn).
  rewrite (get_nested_cons _ _ _ i new);
    [| done | cbn [values]; apply list_lookup_insert_eq; by eapply lookup_lt_Some].
  destruct path as [|n2 path]; [congruence|].
  destruct Hn as (n & n' & -> & Hn & ->). by apply (IH n).
Qed.

Lemma get_set_other path : forall m v m' q,
  set_nested m path v = Ok m' -> independent path q -> get_nested m' q = get_nested m q.
Proof.
  induction path as [|name path IH]; intros m v m' q Hs [H1 H2]; [done|].
  apply set_nested_inv in Hs as (i & old & new & Hi & Ho & -> & Hn).
  destruct q as [|n2 q]; [done|].
  destruct (position_by_name (fields (schema m)) n2) as [j|] eqn:Hj.
  2: { cbn [get_nested schema]. by rewrite Hj. }
  destruct (decide (n2 = name)) as [->|Hne].
  - rewrite Hi in Hj. injection Hj as <-.
    rewrite (get_nested_cons (mkMessage _ _) name q i new);
      [| done | cbn [values]; apply list_lookup_insert_eq; by eapply lookup_lt_Some].
    rewrite (get_nested_cons m name q i old) by done.
    destruct path as [|n3 path]; [exfalso; apply H1; apply prefix_cons, prefix_nil|].
    destruct q as [|n4 q]; [exfalso; apply H2; apply prefix_cons, prefix_nil|].
    destruct Hn as (n & n' & -> & Hn & ->). apply (IH n v); [done|].
    split; intros Hp; [apply H1 | apply H2]; by apply prefix_cons.
  - assert (i <> j) as Hij by (intros ->; by apply Hne, (position_by_name_inj _ _ _ _ Hj Hi)).
    destruct (values m !! j) as [w|] eqn:Hw.
    + rewrite (get_nested_cons (mkMessage _ _) n2 q j w);
        [by rewrite (get_nested_cons m n2 q j w) | done|].
      cbn [values]. by rewrite list_lookup_insert_ne.
    + cbn [get_nested schema values]. rewrite Hj. cbn [ok_or mbind res_bind].
      unfold index. by rewrite list_lookup_insert_ne, Hw.
Qed.

Lemma set_nested_shape path m v m' :
  set_nested m path v = Ok m' -> schema m' = schema m /\ length (values m') = length (values m).
Proof.
  destruct path as [|name path]; [done|].
  intros (i & old & new & _ & _ & -> & _)%set_nested_inv. cbn. by rewrite length_insert.
Qed.

(** *** Typing *)

Lemma message_typed_eq b s m :
  message_typed b s m <-> schema m = s /\ Forall2 (fun f v => typed b (field_type f) v) (fields s) (values m).
Proof.
  destruct s as [tn p n fs h]. cbn [message_typed fields]. rewrite all2_Forall2.
  split; intros [Hs Hv]; (split; [done|]); apply (Forall2_impl _ _ _ _ Hv); intros f v;
    by rewrite field_typed_eq.
Qed.

Lemma typed_field b s m name i f :
  message_typed b s m -> position_by_name (fields s) name = Some i -> fields s !! i = Some f ->
  exists v, values m !! i = Some v /\ typed b (field_type f) v.
Proof.
  rewrite message_typed_eq. intros [Hs Hv] Hi Hf.
  destruct (Forall2_lookup_l _ _ _ _ _ Hv Hf) as (v & Hl & Ht). eauto.
Qed.

(** On a typed message access by name never panics, finds a value exactly where
    the schema has a type, and the value has that type. *)
Lemma get_nested_typed b path : forall s m,
  message_typed b s m ->
  match get_nested m path with
  | Ok v => exists t, type_at s path = Some t /\ typed b t v
  | Err _ => type_at s path = None
  | Panic => False
  end.
Proof.
  induction path as [|name path IH]; intros s m Hm; [done|].
  pose proof (proj1 (message_typed_eq b s m) Hm) as [Hs _].
  cbn [get_nested type_at]. rewrite Hs.
  destruct (position_by_name (fields s) name) as [i|] eqn:Hi; cbn [ok_or mbind res_bind].
  2: { unfold field, position_by_name in *.
    by destruct (list_find (fun f => field_name f = name) (fields s)) as [[? ?]|]. }
  destruct (position_by_name_Some _ _ _ Hi) as (f & Hf & _).
  rewrite (position_by_name_field s name i Hi), Hf. cbn [mbind option_bind].
  destruct (typed_field b s m name i f Hm Hi Hf) as (v & Hv & Ht).
  apply (index_Ok (E := DynamicError)) in Hv. rewrite Hv. cbn [mbind res_bind].
  destruct path as [|n2 path]; [by eexists|].
  destruct (field_type f); destruct v; try done.
  exact (IH _ _ Ht).
Qed.

Lemma set_nested_typed b path : forall s m v m' t,
  message_typed b s m -> set_nested m path v = Ok m' -> type_at s path = Some t -> typed b t v ->
  message_typed b s m'.
Proof.
  induction path as [|name path IH]; intros s m v m' t Hm Hset Ht Hv; [done|].
  apply set_nested_inv in Hset as (i & old & new & Hi & Ho & -> & Hn).
  pose proof (proj1 (message_typed_eq b s m) Hm) as [Hs Hvs]. rewrite Hs in Hi.
  destruct (position_by_name_Some _ _ _ Hi) as (f & Hf & _).
  cbn [type_at] in Ht. rewrite (position_by_name_field s name i Hi), Hf in Ht. cbn in Ht.
  destruct (typed_field b s m name i f Hm Hi Hf) as (o & Ho' & Hto).
  rewrite Ho in Ho'. injection Ho' as <-.
  assert (typed b (field_type f) new) as Hnew.
  { destruct path as [|n2 path]; [congruence|].
    destruct Hn as (n & n' & -> & Hn & ->). destruct (field_type f) as [| | | | | | | | | | | | |nested| | |];
      try done. exact (IH nested n v n' t Hto Hn Ht Hv). }
  apply message_typed_eq. cbn [schema values]. split; [done|].
  rewrite <- (list_insert_id (fields s) i f Hf). by apply Forall2_insert.
Qed.

Lemma default_typed t : defaults_typed t -> typed false t (default_for_type t).
Proof.
  apply (field_type_nested_ind (fun t => defaults_typed t -> typed false t (default_for_type t)));
    clear t.
  - intros t Ht. destruct t; try done; clear Ht; intros _; cbn; unfold u_range, i_range; try lia;
      (split; [done | by cbn]).
  - intros [tn p n fs h] IH Hd. cbn [default_for_type message_new typed message_typed schema values].
    split; [done|]. cbn [defaults_typed schema_defaults_typed] in Hd. cbn [fields] in IH.
    induction IH as [|[nm ft d] fs Hf _ IHfs]; [done|]. destruct Hd as [Hd Hds].
    split; [|by apply IHfs]. cbn [field_typed field_default] in *.
    destruct d as [v|]; [done | by apply Hf].
  - intros t n IH [Hf Hd]. cbn. rewrite length_replicate. split; [done|].
    apply all_Forall. apply Forall_replicate. by apply IH.
  - intros t _ _. cbn. unfold MAX_SEQUENCE_LENGTH. by split.
  - intros t n _ _. cbn. unfold MAX_SEQUENCE_LENGTH. by split.
Qed.

(** *** Index paths *)

Lemma path_indices_loop_get b path : forall s m v acc,
  message_typed b s m -> get_nested m path = Ok v ->
  exists idxs, path_indices_loop s acc path = Ok (acc ++ idxs) /\ follow (VlMessage m) idxs = Some v.
Proof.
  induction path as [|name path IH]; intros s m v acc Hm Hg; [done|].
  pose proof (proj1 (message_typed_eq b s m) Hm) as [Hs _].
  cbn [get_nested] in Hg. rewrite Hs in Hg. cbn [path_indices_loop]. unfold field_index.
  destruct (position_by_name (fields s) name) as [i|] eqn:Hi; [|done]. cbn [ok_or mbind res_bind] in *.
  destruct (position_by_name_Some _ _ _ Hi) as (f & Hf & _).
  destruct (typed_field b s m name i f Hm Hi Hf) as (w & Hw & Ht).
  apply (index_Ok (E := DynamicError)) in Hf. rewrite Hf. cbn [mbind res_bind].
  pose proof (proj2 (index_Ok (E := DynamicError) (values m) i w) Hw) as Hx. rewrite Hx in Hg.
  cbn [mbind res_bind] in Hg.
  destruct path as [|n2 path].
  - injection Hg as <-. exists [i]. split; [done|]. cbn [follow]. by rewrite Hw.
  - destruct w as [| | | | | | | | | | | | |nm|]; try done.
    destruct (field_type f) as [| | | | | | | | | | | | |nested| | |]; try done.
    destruct (IH nested nm v (acc ++ [i]) Ht Hg) as (idxs & Hl & Hfo).
    exists (i :: idxs). rewrite Hl, <- app_assoc. split; [done|]. cbn [follow]. by rewrite Hw.
Qed.

(** ** Properties *)

(** [set_dynamic] and [get_dynamic] on any message and path: writing
    succeeds exactly when reading does and fails with the same error; after a
    successful write the path reads back the value written, every path that
    does not lead through it reads as before, and the schema and the number of
    fields are unchanged. *)
Theorem set_get_laws m path v :
  match get_dynamic m path with
  | Ok _ =>
      exists m', set_dynamic m path v = Ok m' /\ get_dynamic m' path = Ok v /\
        (forall q, independent (split_on "." path) (split_on "." q) ->
          get_dynamic m' q = get_dynamic m q) /\
        schema m' = schema m /\ length (values m') = length (values m)
  | Err e => set_dynamic m path v = Err e
  | Panic => set_dynamic m path v = Panic
  end.
Proof.
  unfold get_dynamic, set_dynamic.
  pose proof (set_get_outcome (split_on "." path) m v) as Ho.
  destruct (get_nested m (split_on "." path)); [|done..].
  destruct Ho as [m' Hm]. exists m'. split; [done|].
  split; [by apply (get_set_same _ m)|]. split; [|by eapply set_nested_shape].
  intros q Hq. by apply (get_set_other (split_on "." path) m v).
Qed.

(** The typing invariant: reading a typed message never panics, succeeds
    exactly on the paths the schema has, with a value of the type found there;
    and writing a value of that type keeps the message typed. *)
Theorem access_typed b s m path :
  message_typed b s m ->
  match get_dynamic m path with
  | Ok v =>
      exists t, type_at s (split_on "." path) = Some t /\ typed b t v /\
        forall w, typed b t w ->
          match set_dynamic m path w with Ok m' => message_typed b s m' | _ => False end
  | Err _ => type_at s (split_on "." path) = None
  | Panic => False
  end.
Proof.
  intros Hm. unfold get_dynamic, set_dynamic.
  pose proof (get_nested_typed b (split_on "." path) s m Hm) as Hg.
  pose proof (fun w => set_get_outcome (split_on "." path) m w) as Ho.
  destruct (get_nested m (split_on "." path)) as [v|e|]; [|done..].
  destruct Hg as (t & Ht & Hv). exists t. split; [done|]. split; [done|]. intros w Hw.
  destruct (Ho w) as [m' Hs]. rewrite Hs. by eapply set_nested_typed.
Qed.

(** A new message is well typed (so it serializes): every field has its
    explicit default, whenever those have the type of their field, and the zero
    value of its type otherwise; building a message without setting a field
    gives the same message. *)
Theorem message_new_typed s :
  schema_defaults_typed s ->
  message_typed false s (message_new s) /\ mb_build (message_builder_new s) = message_new s.
Proof.
  intros Hd. split; [exact (default_typed (TyMessage s) Hd)|].
  destruct s as [tn p n fs h]. unfold mb_build, message_builder_new.
  cbn [mb_schema mb_values fields message_new]. f_equal. clear.
  induction fs as [|f fs IH]; [done|]. cbn. by rewrite IH.
Qed.

(** Index paths: where access by name finds a value in a typed message,
    [field_path_indices] gives a path of indices that leads to the same
    value. *)
Theorem field_path_indices_get b s m path v :
  message_typed b s m -> get_dynamic m path = Ok v ->
  exists idxs, field_path_indices s path = Ok idxs /\ follow (VlMessage m) idxs = Some v.
Proof. intros Hm Hg. exact (path_indices_loop_get b _ s m v [] Hm Hg). Qed.

(** A schema builds exactly from a type name of three slash-separated parts
    with ["msg"] in the middle, and keeps its parts, fields and hash. *)
Theorem sb_build_spec b :
  match sb_build b with
  | Ok s =>
      type_name s = sb_type_name b /\
      sb_type_name b = (package s ++ "/msg/" ++ schema_name s)%string /\
      contains_char "/" (package s) = false /\ contains_char "/" (schema_name s) = false /\
      fields s = sb_fields b /\ type_hash s = sb_type_hash b
  | Err e =>
      e = InvalidTypeName (sb_type_name b) /\
      forall p n, contains_char "/" p = false -> contains_char "/" n = false ->
        sb_type_name b <> (p ++ "/msg/" ++ n)%string
  | Panic => False
  end.
Proof.
  unfold sb_build. set (t := sb_type_name b).
  assert (forall p n, contains_char "/" p = false -> contains_char "/" n = false ->
    t = (p ++ "/msg/" ++ n)%string -> split_on "/" t = [p; "msg"%string; n]) as Hsplit.
  { intros p n Hp Hn ->. change (p ++ "/msg/" ++ n)%string with (p ++ String "/" ("msg" ++ String "/" n))%string.
    by rewrite !split_on_app, split_on_none. }
  pose proof (split_on_pieces "/" t) as Hpieces. pose proof (join_split_on "/" t) as Hjoin.
  destruct (split_on "/" t) as [|p0 [|p1 [|p2 [|]]]] eqn:Es; cbn [length Nat.eqb negb index lookup
    list_lookup unwrap mbind res_bind];
    try (split; [done|]; intros p n Hp Hn E; by specialize (Hsplit p n Hp Hn E)).
  destruct (String.eqb_spec p1 "msg") as [->|Hne]; cbn [negb].
  - cbn. inversion_clear Hpieces as [|?? H0 Hp1]. inversion_clear Hp1 as [|?? _ Hp2].
    inversion_clear Hp2 as [|?? H2 _]. by repeat split.
  - split; [done|]. intros p n Hp Hn E. specialize (Hsplit p n Hp Hn E). congruence.
Qed.

End Access.

(** Concrete messages, for the witnesses. *)
#[local] Existing Instance ex_layout.
Definition ex_vec : MessageSchema :=
  mkSchema "g/msg/Vec" "g" "Vec" [FieldSchema_new "x" TyInt32; FieldSchema_new "y" TyInt32] None.
Definition ex_twist : MessageSchema :=
  mkSchema "g/msg/Twist" "g" "Twist"
    [FieldSchema_new "linear" (TyMessage ex_vec); FieldSchema_new "n" TyString] None.

Lemma ex_twist_defaults : schema_defaults_typed ex_twist.
Proof. by repeat split. Qed.

Lemma ex_twist_typed : message_typed false ex_twist (message_new ex_twist).
Proof. exact (default_typed (TyMessage ex_twist) ex_twist_defaults). Qed.

(** Past a field that is not a message, [field_path_indices] looks the rest of
    the path up in the same schema, where access by name is an error. *)
Lemma field_path_indices_scalar :
  field_path_indices ex_vec "x.y" = Ok [0; 1]%nat /\
  get_dynamic (message_new ex_vec) "x.y" = Err (NotAMessage "x").
Proof. by vm_compute. Qed.

Lemma access_typed_witness :
  match get_dynamic (message_new ex_twist) "linear.y" with
  | Ok v =>
      exists t, type_at ex_twist ["linear"; "y"]%string = Some t /\ typed false t v /\
        forall w, typed false t w ->
          match set_dynamic (message_new ex_twist) "linear.y" w with
          | Ok m' => message_typed false ex_twist m'
          | _ => False
          end
  | Err _ => type_at ex_twist ["linear"; "y"]%string = None
  | Panic => False
  end.
Proof. apply (access_typed false ex_twist (message_new ex_twist) "linear.y"). apply ex_twist_typed. Defined.

Lemma message_new_typed_witness :
  message_typed false ex_twist (message_new ex_twist) /\
  mb_build (message_builder_new ex_twist) = message_new ex_twist.
Proof. apply (message_new_typed ex_twist). apply ex_twist_defaults. Defined.

Lemma field_path_indices_get_witness :
  exists idxs, field_path_indices ex_twist "linear.y" = Ok idxs /\
    follow (VlMessage (message_new ex_twist)) idxs = Some (VlInt32 0).
Proof.
  apply (field_path_indices_get false ex_twist (message_new ex_twist) "linear.y").
  - apply ex_twist_typed.
  - reflexivity.
Defined.
