(* ===== verification/DynSerdes.v ===== *)
(** * Dynamic messages on the wire (crates/ros-z/src/dynamic/serdes.rs)

    [DynamicCdrSerdes]: the serializer that publishers of dynamic messages use
    and the deserializer of their subscriptions, on the CDR codec of DynCdr.v.
    Into shared memory the message is serialized first and copied into a block
    of its size, so that, unlike the typed serdes, it always fits. *)
From S2P Require Import Prelude CdrBuffer Utf8 RustStr CdrPrimitives CdrSpec CdrSerde CdrCodec MsgSerdes DynTypes DynCdr DynCodec.
Open Scope list_scope.

(** ** Definitions *)

Section Serdes.
Context {ZBuf : Type} `{ZApi : ZBufApi ZBuf} `{DL : DynLayout}.
Context (debug_value : DynamicValue -> string) (debug_type : FieldType -> string).
Context (zbuf_from zbuf_from_shm : list byte -> ZBuf).

(** [expect] on the result of the message's own method. *)
Definition expect {E A} (m : res E A) : option A := match m with Ok a => Some a | _ => None end.
Definition dyn_serialize_to_zbuf (input : DynamicMessage) : option ZBuf :=
  expect (to_cdr_zbuf debug_value debug_type zbuf_from input).
Definition dyn_serialize (input : DynamicMessage) : option (list byte) :=
  expect (to_cdr (ZBuf := ZBuf) debug_value debug_type input).
Definition dyn_serialize_to_buf (input : DynamicMessage) (buffer : list byte) : option (list byte) :=
  let buffer := clear (ZBuf := ZBuf) buffer in
  data ← expect (to_cdr (ZBuf := ZBuf) debug_value debug_type input);
  Some (extend_from_slice (ZBuf := ZBuf) buffer data).

(** [shm_buf\[0..actual_size\].copy_from_slice(&data)] panics on a block that is
    shorter than asked for. *)
Definition dyn_serialize_to_shm (alloc : nat -> res string (list byte)) (input : DynamicMessage)
    (_estimated_size : nat) : res string (ZBuf * nat) :=
  data ← map_err (fun e => "DynamicMessage serialization failed: " ++ DynamicError_fmt e)%string
           (to_cdr (ZBuf := ZBuf) debug_value debug_type input);
  let actual_size := length data in
  block ← map_err (fun e => "SHM allocation failed: " ++ e)%string (alloc actual_size);
  if (length block <? actual_size)%nat then Panic
  else Ok (zbuf_from_shm (data ++ drop actual_size block), actual_size).

Definition DynamicCdrSerdes (size_of : nat) : ZSerializerApi ZBuf DynamicMessage := {|
  ser_to_zbuf := dyn_serialize_to_zbuf;
  ser_to_shm := dyn_serialize_to_shm;
  ser_estimate _ := estimated_serialized_size size_of;
|}.
Definition dyn_deserialize (input : list byte * MessageSchema) : res DynamicError DynamicMessage :=
  from_cdr input.1 input.2.
End Serdes.

(** ** Properties *)

(** A published dynamic message is decoded against its schema to itself, up to
    the normal form, with shared memory or without, whatever the estimate;
    publishing panics only on a provider that panics or gives a block that is
    shorter than asked for. *)
Theorem published_dynamic_decodes {ZBuf} `{ZL : ZBufLaws ZBuf} `{DL : DynLayout} {E} debug_value debug_type
    (zbuf_from zbuf_from_shm : list byte -> ZBuf) size_of config s m :
  (forall bs, zbuf_contiguous (zbuf_from bs) = bs) ->
  (forall bs, zbuf_contiguous (zbuf_from_shm bs) = bs) ->
  message_typed false s m ->
  match publish_payload (E := E)
          (H := DynamicCdrSerdes debug_value debug_type zbuf_from zbuf_from_shm size_of) config m with
  | Ok z => dyn_deserialize (zbuf_contiguous z, s) = Ok (norm_message s m)
  | Err _ => False
  | Panic => exists cfg n, config = Some cfg /\
      match provider cfg n with Ok block => (length block < n)%nat | Err _ => False | Panic => True end
  end.
Proof.
  intros Hz Hzs Hm. unfold dyn_deserialize. cbn [fst snd].
  assert (exists z, ser_to_zbuf (ZSerializerApi := DynamicCdrSerdes debug_value debug_type zbuf_from zbuf_from_shm size_of) m
    = Some z /\ from_cdr (zbuf_contiguous z) s = Ok (norm_message s m)) as (z & Hs & Hd).
  { destruct (cdr_roundtrip_enc debug_value debug_type zbuf_from s m Hz Hm) as (bytes & z & _ & Hc & <- & Hd).
    exists z. split; [|done]. cbn. unfold dyn_serialize_to_zbuf. by rewrite Hc. }
  unfold publish_payload. destruct config as [cfg|]; [|by rewrite Hs]. cbn zeta.
  destruct (Nat.leb _ _); [|by rewrite Hs].
  cbn [ser_to_shm DynamicCdrSerdes]. unfold dyn_serialize_to_shm, to_cdr.
  rewrite (serialize_cdr_enc debug_value debug_type s m Hm). cbn [map_err mbind res_bind].
  set (data := DynCdr.CDR_HEADER_LE ++ enc_message s m 0%nat).
  destruct (provider cfg (length data)) as [block|e|] eqn:Ep; cbn [map_err mbind res_bind];
    [|by rewrite Hs|exists cfg, (length data); by rewrite Ep].
  destruct (Nat.ltb_spec (length block) (length data)); [exists cfg, (length data); by rewrite Ep|].
  rewrite Hzs. unfold data. rewrite <- app_assoc. by apply deserialize_cdr_tail.
Qed.
