(* ===== verification/DynErase.v ===== *)
(** * Messages over the schema of their description

    A subscription that discovered its schema has the erased one, without default
    values and hashes.  A message of the publisher's schema has the same bytes as
    the message over the erased schema, so that it is decoded to that one. *)
From S2P Require Import Prelude CdrBuffer Utf8 RustStr CdrPrimitives CdrSpec CdrDeserializer CdrSerde CdrCodec MsgSerdes DynTypes DescriptionRoundtrip DynCdr DynCodec DynSerdes.
Open Scope list_scope.

(** ** Specification *)

(** A value with the schemas of its messages erased. *)
Fixpoint erase_value (v : DynamicValue) : DynamicValue :=
  match v with
  | VlArray vs => VlArray (map erase_value vs)
  | VlMessage m => VlMessage (erase_message m)
  | _ => v
  end
with erase_message (m : DynamicMessage) : DynamicMessage :=
  match m with
  | mkMessage s vs => mkMessage (erase s) (map erase_value vs)
  end.

(** ** Lemmas *)

Lemma is_uint8_erase t : is_uint8 (erase_type t) = is_uint8 t.
Proof. by destruct t. Qed.

Lemma enc_list_map {A B} (f : B -> encoding) (g : A -> encoding) (h : A -> B) l :
  Forall (fun a => f (h a) = g a) l -> enc_list f (map h l) = enc_list g l.
Proof. unfold enc_list. induction 1 as [|a l E _ IH]; [done|]. cbn. by rewrite E, IH. Qed.

Section Erase.
Context `{DL : DynLayout}.

(** The message over the erased schema is one of it, with the same bytes. *)
Definition same_encoding (t : FieldType) (v : DynamicValue) : Prop :=
  typed false (erase_type t) (erase_value v) /\ enc_value (erase_type t) (erase_value v) = enc_value t v.

Lemma same_encodings t vs :
  (forall v, typed false t v -> same_encoding t v) -> all (typed false t) vs ->
  all (typed false (erase_type t)) (map erase_value vs) /\
  enc_list (enc_value (erase_type t)) (map erase_value vs) = enc_list (enc_value t) vs.
Proof.
  intros IH H. rewrite !all_Forall in *. split.
  - apply Forall_map. eapply Forall_impl; [exact H|]. intros v Hv. by apply IH.
  - apply enc_list_map. eapply Forall_impl; [exact H|]. intros v Hv. by apply IH.
Qed.

Lemma same_fields fs vs :
  Forall (fun f => forall v, typed false (field_type f) v -> same_encoding (field_type f) v) fs ->
  Forall2 (field_typed false) fs vs ->
  Forall2 (field_typed false) (map erase_field fs) (map erase_value vs) /\
  zip_with enc_field (map erase_field fs) (map erase_value vs) = zip_with enc_field fs vs.
Proof.
  intros IH H. induction H as [|[n t d] v fs vs Hv _ IHf]; [done|].
  apply Forall_cons in IH as [Ht IH]. destruct (Ht v Hv) as [H1 H2]. destruct (IHf IH) as [H3 H4].
  split; [by constructor|]. cbn in *. by rewrite H2, H4.
Qed.

Lemma typed_erase t v : typed false t v -> same_encoding t v.
Proof.
  revert v. induction t as [t Ht|s IH|t n IH|t IH|t n IH] using field_type_nested_ind; intros v Hv.
  - by destruct t, v.
  - destruct v; try done. destruct s as [tn p n fs h], m as [s' vs]. destruct Hv as [E Hv].
    cbn in E, Hv. subst s'. rewrite all2_Forall2 in Hv. destruct (same_fields fs vs IH Hv) as [H1 H2].
    split; [split; [done|]; by rewrite all2_Forall2|]. cbn. by rewrite H2.
  - destruct v; try done. destruct Hv as [[Hl Hf] Hv]. destruct (same_encodings _ _ IH Hv) as [H1 H2].
    split; [split; [by rewrite length_map|done]|exact H2].
  - destruct v; try done; destruct Hv as [Hl Hv].
    + split; [split; [by rewrite is_uint8_erase|done]|done].
    + destruct (same_encodings _ _ IH Hv) as [H1 H2]. split; [by split; [rewrite length_map|]|].
      cbn. by rewrite H2, length_map.
  - destruct v; try done; [by destruct Hv|]. destruct Hv as [Hl Hv].
    destruct (same_encodings _ _ IH Hv) as [H1 H2]. split; [by split; [rewrite length_map|]|].
    cbn. by rewrite H2, length_map.
Qed.

Lemma message_typed_erase s m : message_typed false s m ->
  message_typed false (erase s) (erase_message m) /\ enc_message (erase s) (erase_message m) = enc_message s m.
Proof. exact (typed_erase (TyMessage s) (VlMessage m)). Qed.
End Erase.

(** Publishing a message publishes the bytes of the one over the erased schema. *)
Lemma published_erased {ZBuf} `{ZL : ZBufLaws ZBuf} `{DL : DynLayout} {E} debug_value debug_type
    (zbuf_from zbuf_from_shm : list byte -> ZBuf) size_of config s m :
  message_typed false s m ->
  publish_payload (E := E) (H := DynamicCdrSerdes debug_value debug_type zbuf_from zbuf_from_shm size_of) config m =
  publish_payload (H := DynamicCdrSerdes debug_value debug_type zbuf_from zbuf_from_shm size_of) config (erase_message m).
Proof.
  intros Hm. destruct (message_typed_erase s m Hm) as [Hm' He].
  assert (serialize_cdr (ZBuf := ZBuf) debug_value debug_type m =
    serialize_cdr (ZBuf := ZBuf) debug_value debug_type (erase_message m)) as Hs.
  { by rewrite (serialize_cdr_enc debug_value debug_type s m Hm),
      (serialize_cdr_enc debug_value debug_type _ _ Hm'), He. }
  unfold publish_payload. cbn [ser_to_zbuf ser_to_shm ser_estimate DynamicCdrSerdes].
  unfold dyn_serialize_to_zbuf, dyn_serialize_to_shm, to_cdr_zbuf, to_cdr, serialize_cdr_to_zbuf. by rewrite Hs.
Qed.
