(* ===== verification/PubSub.v ===== *)
(** * Publishers and subscriptions (crates/ros-z/src/pubsub.rs)

    The builders with their options, what [build] declares to the session,
    [publish] in its four forms with the attachment of each sample, and the
    ways to receive from the queue of a subscription, typed and dynamic.  The
    session ([PubSubApi]) is a parameter; the choice between shared and regular
    memory is [publish_payload] of MsgSerdes.v, the queue is Queue.v. *)
From stdpp Require Import strings.
From S2P Require Import Prelude CdrBuffer RustStr TopicName CdrPrimitives Queue Attachment ProfileQos Qos Entity Events SchemaModel RmwZenoh Ros2Dds MsgSerdes Service DynTypes DynCdr TypeDescription DescriptionService DynSerdes.
Open Scope list_scope.

(** ** Definitions *)

(** [zenoh::qos::CongestionControl], and what the session answers to the
    declaration of a publisher (with [express]) and of a subscriber. *)
Inductive CongestionControl := Block | Drop.
Class PubSubApi := {
  Locality : Type;
  declare_publisher : string -> CongestionControl -> bool -> res ZError unit;
  declare_subscriber : string -> option Locality -> res ZError unit;
}.

(** What a [put] sends and a subscription receives. *)
Record TopicSample := mkTopicSample {
  ts_key_expr : string; ts_payload : list byte; ts_attachment : option (list byte) }.

Section PubSub.
Context `{ZA : ZenohApi} `{ZExt : ZExtApi} `{Sess : SessionApi} `{PS : PubSubApi} `{DL : DynLayout}.
Context (endpoint_gid : EndpointEntity -> GidArray).

(** [ZPubBuilder] and [ZSubBuilder], sessions aside. *)
Record ZPubBuilder := mkPubBuilder {
  pb_entity : EndpointEntity;
  pb_with_attachment : bool;
  pb_shm_config : option ShmConfig;
  pb_format : KeyExprFormat;
  pb_dyn_schema : option MessageSchema;
}.

Record ZSubBuilder := mkSubBuilder {
  sb_entity : EndpointEntity;
  sb_format : KeyExprFormat;
  sb_dyn_schema : option MessageSchema;
  sb_locality : option Locality;
}.

(** **** Builder options *)

Definition set_qos (e : EndpointEntity) (qos : QosProfile) : EndpointEntity :=
  mkEndpoint (ep_id e) (ep_node e) (ep_kind e) (ep_topic e) (ep_type_info e) qos.
Definition set_type_info (e : EndpointEntity) (type_info : option TypeInfo) : EndpointEntity :=
  mkEndpoint (ep_id e) (ep_node e) (ep_kind e) (ep_topic e) type_info (ep_qos e).

Definition pub_with_qos (b : ZPubBuilder) (qos : ProfileQos.QosProfile) : ZPubBuilder :=
  mkPubBuilder (set_qos (pb_entity b) (to_protocol_qos qos)) (pb_with_attachment b) (pb_shm_config b)
    (pb_format b) (pb_dyn_schema b).
Definition with_attachment (b : ZPubBuilder) (with_attachment : bool) : ZPubBuilder :=
  mkPubBuilder (pb_entity b) with_attachment (pb_shm_config b) (pb_format b) (pb_dyn_schema b).
Definition with_shm_config (b : ZPubBuilder) (config : ShmConfig) : ZPubBuilder :=
  mkPubBuilder (pb_entity b) (pb_with_attachment b) (Some config) (pb_format b) (pb_dyn_schema b).
Definition without_shm (b : ZPubBuilder) : ZPubBuilder :=
  mkPubBuilder (pb_entity b) (pb_with_attachment b) None (pb_format b) (pb_dyn_schema b).
Definition pub_with_dyn_schema {E} `{HashApi} `{HexApi} (b : ZPubBuilder) (s : MessageSchema)
    : res E ZPubBuilder :=
  type_info ← with_dyn_schema (ep_type_info (pb_entity b)) s;
  Ok (mkPubBuilder (set_type_info (pb_entity b) type_info) (pb_with_attachment b) (pb_shm_config b)
        (pb_format b) (Some s)).

Definition sub_with_qos (b : ZSubBuilder) (qos : ProfileQos.QosProfile) : ZSubBuilder :=
  mkSubBuilder (set_qos (sb_entity b) (to_protocol_qos qos)) (sb_format b) (sb_dyn_schema b) (sb_locality b).
Definition with_locality (b : ZSubBuilder) (locality : Locality) : ZSubBuilder :=
  mkSubBuilder (sb_entity b) (sb_format b) (sb_dyn_schema b) (Some locality).
Definition sub_with_dyn_schema {E} `{HashApi} `{HexApi} (b : ZSubBuilder) (s : MessageSchema)
    : res E ZSubBuilder :=
  type_info ← with_dyn_schema (ep_type_info (sb_entity b)) s;
  Ok (mkSubBuilder (set_type_info (sb_entity b) type_info) (sb_format b) (Some s) (sb_locality b)).

(** **** Publishers *)

Record ZPub := mkPub {
  pub_entity : EndpointEntity;
  pub_sn : Z;
  pub_gid : GidArray;
  pub_key_expr : string;
  pub_congestion : CongestionControl;
  pub_express : bool;
  pub_with_attachment : bool;
  pub_events : EventsManager;
  pub_shm_config : option ShmConfig;
  pub_dyn_schema : option MessageSchema;
}.

(** [self.entity.topic = qualified_topic]. *)
Definition qualify_topic (e : EndpointEntity) : res ZError EndpointEntity :=
  qualified_topic ← map_err (fun x => Message ("Failed to qualify topic: " ++ TopicNameError_fmt x)%string)
    (qualify_topic_name (ep_topic e) (node_namespace (ep_node e)) (node_name (ep_node e)));
  Ok (with_topic e qualified_topic).

Definition congestion_control (r : QosReliability) : CongestionControl :=
  match r with Reliable => Block | BestEffort => Drop end.
Definition express (d : QosDurability) : bool :=
  match d with TransientLocal => true | Volatile => false end.

Definition gid_numbers (g : GidArray) : list Z := map u8_of_byte g.

(** [Builder::build] of [ZPubBuilder]; [zid] is the session's. *)
Definition pub_build (b : ZPubBuilder) (zid : ZenohId) : res ZError ZPub :=
  entity ← qualify_topic (pb_entity b);
  key_expr ← format_topic_key_expr (pb_format b) entity;
  let congestion := congestion_control (reliability (ep_qos entity)) in
  let ex := express (durability (ep_qos entity)) in
  _ ← declare_publisher key_expr congestion ex;
  lv_ke ← format_liveliness_key_expr (pb_format b) entity zid;
  _ ← declare_token lv_ke;
  let gid := endpoint_gid entity in
  Ok (mkPub entity 0 gid key_expr congestion ex (pb_with_attachment b) (events_new (gid_numbers gid))
        (pb_shm_config b) (pb_dyn_schema b)).

(** [new_attchment]: [fetch_add] on a [usize], read as an [i64]. *)
Definition pub_new_attachment (p : ZPub) (now : option Z) : Attachment * ZPub :=
  (Attachment_new (wrap_i 64 (pub_sn p)) (pub_gid p) now,
   mkPub (pub_entity p) (wrap_u 64 (pub_sn p + 1)) (pub_gid p) (pub_key_expr p) (pub_congestion p)
     (pub_express p) (pub_with_attachment p) (pub_events p) (pub_shm_config p) (pub_dyn_schema p)).

(** The [put] of a payload; the answer of the network is the caller's. *)
Definition put (p : ZPub) (now : option Z) (payload : list byte) : TopicSample * ZPub :=
  if pub_with_attachment p then
    let '(att, p) := pub_new_attachment p now in
    (mkTopicSample (pub_key_expr p) payload (Some (Attachment_into_zbytes att)), p)
  else (mkTopicSample (pub_key_expr p) payload None, p).

(** [publish], and [async_publish], which awaits the [put]. *)
Definition publish {ZBuf Input} `{ZBufApi ZBuf} `{ZSerializerApi ZBuf Input} (p : ZPub) (now : option Z)
    (msg : Input) : res ZError TopicSample * ZPub :=
  match publish_payload (pub_shm_config p) msg with
  | Ok zbuf => let '(sample, p) := put p now (zbuf_contiguous zbuf) in (Ok sample, p)
  | Err e => (Err e, p)
  | Panic => (Panic, p)
  end.
Definition publish_serialized (p : ZPub) (now : option Z) (data : list byte) : TopicSample * ZPub :=
  put p now data.
Definition publish_sample (p : ZPub) (now : option Z) (msg : TopicSample) : TopicSample * ZPub :=
  put p now (ts_payload msg).

(** **** Subscriptions *)

Record ZSub := mkSub {
  sub_entity : EndpointEntity;
  sub_key_expr : string;
  sub_locality : option Locality;
  sub_handler : DataHandler TopicSample;
  sub_events : EventsManager;
  sub_dyn_schema : option MessageSchema;
}.
Definition sub_queue (s : ZSub) : option (BoundedQueue TopicSample) := handler_queue (sub_handler s).
Definition sub_set_handler (s : ZSub) (h : DataHandler TopicSample) : ZSub :=
  mkSub (sub_entity s) (sub_key_expr s) (sub_locality s) h (sub_events s) (sub_dyn_schema s).
Definition sub_set_queue (s : ZSub) (q : BoundedQueue TopicSample) : ZSub :=
  sub_set_handler s (set_handler_queue (sub_handler s) q).

(** [build_internal] and the three ways to build a subscription. *)
Definition sub_build_internal (b : ZSubBuilder) (zid : ZenohId) (handler : DataHandler TopicSample)
    : res ZError ZSub :=
  entity ← qualify_topic (sb_entity b);
  key_expr ← format_topic_key_expr (sb_format b) entity;
  _ ← declare_subscriber key_expr (sb_locality b);
  let gid := endpoint_gid entity in
  lv_ke ← format_liveliness_key_expr (sb_format b) entity zid;
  _ ← declare_token lv_ke;
  Ok (mkSub entity key_expr (sb_locality b) handler (events_new (gid_numbers gid)) (sb_dyn_schema b)).
Definition sub_build_with_callback (b : ZSubBuilder) (zid : ZenohId) : res ZError ZSub :=
  sub_build_internal b zid HCallback.
Definition sub_build_with_notifier (b : ZSubBuilder) (zid : ZenohId) : res ZError ZSub :=
  sub_build_internal b zid (HQueueWithNotifier (queue_new (server_depth (history (ep_qos (sb_entity b)))))).
Definition sub_build (b : ZSubBuilder) (zid : ZenohId) : res ZError ZSub :=
  sub_build_internal b zid (HQueue (queue_new (server_depth (history (ep_qos (sb_entity b)))))).

(** The callback of the zenoh subscriber; in callback mode the user's callback
    gets the message, and a sample that does not decode is only logged. *)
Definition on_sample (s : ZSub) (sample : TopicSample) : list (HandlerEffect TopicSample) * ZSub :=
  let '(effects, h) := handle (sub_handler s) sample in (effects, sub_set_handler s h).
Definition typed_callback {E O} (deserialize : list byte -> res string O) (sample : TopicSample)
    : res E (option O) :=
  match deserialize (ts_payload sample) with
  | Ok msg => Ok (Some msg)
  | Err _ => Ok None
  | Panic => Panic
  end.

(** The ways to receive: a call waits ([Blocked]) or is done.  [recv_timeout]
    waits once: [wake] is what it does when the wait is over. *)
Definition with_queue {A} (s : ZSub) (k : BoundedQueue TopicSample -> outcome A * BoundedQueue TopicSample)
    : outcome A * ZSub :=
  match sub_queue s with
  | None => (Done (Err (Message "Subscriber was built with callback, no queue available")), s)
  | Some queue => let '(o, queue) := k queue in (o, sub_set_queue s queue)
  end.
Definition received (r : section_result) : outcome TopicSample :=
  match r with Return (Some sample) => Done (Ok sample) | _ => Blocked end.
Definition recv_serialized (s : ZSub) : outcome TopicSample * ZSub :=
  with_queue s (fun q => let '(r, q) := queue_recv q in (received r, q)).
Definition async_recv_serialized (s : ZSub) : outcome TopicSample * ZSub :=
  with_queue s (fun q => let '(r, q) := queue_recv_async q in (received r, q)).
Definition recv_serialized_timeout (s : ZSub) : outcome TopicSample * ZSub :=
  with_queue s (fun q => let '(r, q) := queue_recv_timeout q in (received r, q)).
Definition recv_serialized_wake (timed_out : bool) (s : ZSub) : outcome TopicSample * ZSub :=
  with_queue s (fun q => let '(o, q) := queue_recv_timeout_resume timed_out q in
                         (Done (ok_or o (Message "Receive timed out")), q)).
Definition is_ready (s : ZSub) : bool :=
  match sub_queue s with Some q => negb (queue_is_empty q) | None => false end.

(** [recv], [recv_timeout] and [async_recv] deserialize what they receive. *)
Definition outcome_bind {A B} (o : outcome A) (f : A -> res ZError B) : outcome B :=
  match o with Blocked => Blocked | Done r => Done (a ← r; f a) end.
Definition decoded_with {O} (deserialize : list byte -> res string O) (o : outcome TopicSample * ZSub)
    : outcome O * ZSub :=
  (outcome_bind o.1 (fun sample => map_err Message (deserialize (ts_payload sample))), o.2).
Definition recv {O} (deserialize : list byte -> res string O) (s : ZSub) : outcome O * ZSub :=
  decoded_with deserialize (recv_serialized s).
Definition async_recv {O} (deserialize : list byte -> res string O) (s : ZSub) : outcome O * ZSub :=
  decoded_with deserialize (async_recv_serialized s).
Definition recv_timeout {O} (deserialize : list byte -> res string O) (s : ZSub) : outcome O * ZSub :=
  decoded_with deserialize (recv_serialized_timeout s).
Definition recv_wake {O} (deserialize : list byte -> res string O) (timed_out : bool) (s : ZSub)
    : outcome O * ZSub :=
  decoded_with deserialize (recv_serialized_wake timed_out s).

(** The same of dynamic messages: the schema is looked for first. *)
Definition dyn_decode (s : MessageSchema) (payload : list byte) : res string DynamicMessage :=
  map_err DynamicError_fmt (dyn_deserialize (payload, s)).
Definition with_schema (text : string) (s : ZSub)
    (k : (list byte -> res string DynamicMessage) -> ZSub -> outcome DynamicMessage * ZSub)
    : outcome DynamicMessage * ZSub :=
  match sub_dyn_schema s with
  | Some schema => k (dyn_decode schema) s
  | None => (Done (Err (Message text)), s)
  end.
Definition dyn_recv : ZSub -> outcome DynamicMessage * ZSub := fun s =>
  with_schema "dyn_schema required for DynamicMessage (use .with_dyn_schema() when building)" s recv.
Definition dyn_recv_timeout : ZSub -> outcome DynamicMessage * ZSub := fun s =>
  with_schema "dyn_schema required for DynamicMessage" s recv_timeout.
Definition dyn_async_recv : ZSub -> outcome DynamicMessage * ZSub := fun s =>
  with_schema "dyn_schema required for DynamicMessage" s async_recv.
Definition dyn_try_recv (s : ZSub) : option (res ZError DynamicMessage) * ZSub :=
  match sub_dyn_schema s, sub_queue s with
  | Some schema, Some queue =>
      match queue_try_recv queue with
      | (Some sample, queue) =>
          (Some (map_err Message (dyn_decode schema (ts_payload sample))), sub_set_queue s queue)
      | (None, _) => (None, s)
      end
  | _, _ => (None, s)
  end.
End PubSub.
