(* ===== verification/TopicNet.v ===== *)
(** * A topic: a publisher, a subscription and the network between them

    [TopicNet] composes a [ZPub] with a [ZSub]: the samples in flight, in the
    order the publisher put them, what was published and what was received.
    [exec_topic] is one step: a publication, the delivery or the loss of the next
    sample, a receive in one of its forms; a run is any list of steps.  A sample
    reaches the subscription when the key expressions agree.  The messages are
    those of an interface, [TopicType], which the serdes implement. *)
From stdpp Require Import strings.
From S2P Require Import Prelude CdrBuffer RustStr TopicName CdrPrimitives CdrSpec CdrDeserializer CdrSerializer CdrSerde Queue Attachment Qos Entity Events RmwZenoh Ros2Dds CdrCodec MsgSerdes Service DynTypes DescriptionRoundtrip DynCdr DynSerdes DynErase PubSub.
Open Scope list_scope.

(** ** Definitions *)

(** What the serializer of a publisher and the deserializer of a subscription
    promise to each other: a published message decodes to its value. *)
Class TopicType (ZBuf Input Value : Type) `{ZBufApi ZBuf} `{ZSerializerApi ZBuf Input} := {
  topic_ok : Input -> Prop;
  topic_value : Input -> Value;
  topic_deserialize : list byte -> res string Value;
  topic_decodes : forall cfg m z, topic_ok m -> publish_payload (E := ZError) cfg m = Ok z ->
    topic_deserialize (zbuf_contiguous z) = Ok (topic_value m);
}.

Section Topic.
Context `{ZA : ZenohApi} `{ZExt : ZExtApi} `{Sess : SessionApi} `{PS : PubSubApi}.
Context {ZBuf Input Value : Type} `{TT : TopicType ZBuf Input Value}.

Record TopicNet := mkTopic {
  tn_pub : ZPub;
  tn_flight : list TopicSample;
  tn_sub : ZSub;
  tn_sent : list Input;
  tn_received : list Value;
}.
Definition topic_new (p : ZPub) (s : ZSub) : TopicNet := mkTopic p [] s [] [].

Inductive RecvMode := Waiting | Async | Timeout | Wake (timed_out : bool).
Definition recv_by (mode : RecvMode) (s : ZSub) : outcome Value * ZSub :=
  match mode with
  | Waiting => recv topic_deserialize s
  | Async => async_recv topic_deserialize s
  | Timeout => recv_timeout topic_deserialize s
  | Wake timed_out => recv_wake topic_deserialize timed_out s
  end.

Inductive TopicOp :=
| TPublish (now : option Z) (m : Input)
| TDeliver
| TLose
| TRecv (mode : RecvMode).

Definition deliver (s : ZSub) (sample : TopicSample) : ZSub :=
  if String.eqb (ts_key_expr sample) (sub_key_expr s) then (on_sample s sample).2 else s.
Definition exec_topic (st : TopicNet) (op : TopicOp) : TopicNet :=
  match op with
  | TPublish now m =>
      match publish (tn_pub st) now m with
      | (Ok sample, p) => mkTopic p (tn_flight st ++ [sample]) (tn_sub st) (tn_sent st ++ [m]) (tn_received st)
      | (_, p) => mkTopic p (tn_flight st) (tn_sub st) (tn_sent st) (tn_received st)
      end
  | TDeliver =>
      match tn_flight st with
      | sample :: flight => mkTopic (tn_pub st) flight (deliver (tn_sub st) sample) (tn_sent st) (tn_received st)
      | [] => st
      end
  | TLose => mkTopic (tn_pub st) (tail (tn_flight st)) (tn_sub st) (tn_sent st) (tn_received st)
  | TRecv mode =>
      let '(o, s) := recv_by mode (tn_sub st) in
      mkTopic (tn_pub st) (tn_flight st) s (tn_sent st)
        (tn_received st ++ match o with Done (Ok v) => [v] | _ => [] end)
  end.
Definition run_topic (st : TopicNet) (ops : list TopicOp) : TopicNet := foldl exec_topic st ops.

(** A run in which nothing is lost: the network delivers, and the subscription
    has room for what it gets. *)
Definition sub_data (s : ZSub) : list TopicSample := from_option data [] (sub_queue s).
Definition has_room (s : ZSub) : bool :=
  match sub_queue s with Some q => (N.of_nat (length (data q)) <? capacity q)%N | None => false end.
Definition lossless_op (st : TopicNet) (op : TopicOp) : bool :=
  match op with TLose => false | TDeliver => has_room (tn_sub st) | _ => true end.
Fixpoint lossless (st : TopicNet) (ops : list TopicOp) : bool :=
  match ops with
  | [] => true
  | op :: ops => lossless_op st op && lossless (exec_topic st op) ops
  end.

(** ** Lemmas *)

Definition op_ok (op : TopicOp) : Prop := match op with TPublish _ m => topic_ok m | _ => True end.

(** What is under way: samples on the subscription's key expression that decode. *)
Definition on_its_way (st : TopicNet) : list TopicSample := sub_data (tn_sub st) ++ tn_flight st.
Definition carries (key : string) (sample : TopicSample) (v : Value) : Prop :=
  ts_key_expr sample = key /\ topic_deserialize (ts_payload sample) = Ok v.

(** The invariant, for the values [vs] that are under way: [complete] says that
    nothing was lost. *)
Record topic_inv (complete : bool) (st : TopicNet) (vs : list Value) : Prop := {
  ti_queue : is_Some (sub_queue (tn_sub st));
  ti_key : pub_key_expr (tn_pub st) = sub_key_expr (tn_sub st);
  ti_carries : Forall2 (carries (sub_key_expr (tn_sub st))) (on_its_way st) vs;
  ti_sent : sublist (tn_received st ++ vs) (map topic_value (tn_sent st));
  ti_complete : complete = true -> tn_received st ++ vs = map topic_value (tn_sent st);
}.

(** What the operations keep. *)
Lemma sub_set_queue_queue s q : is_Some (sub_queue s) -> sub_queue (sub_set_queue s q) = Some q.
Proof. unfold sub_queue. destruct s as [e k l [ | |] ev d]; [done|by intros []|done]. Qed.

Lemma put_spec p now bs :
  ts_key_expr (put p now bs).1 = pub_key_expr p /\ ts_payload (put p now bs).1 = bs /\
  pub_key_expr (put p now bs).2 = pub_key_expr p.
Proof. unfold put. by case_match. Qed.

Lemma deliver_spec s sample q :
  sub_queue s = Some q -> ts_key_expr sample = sub_key_expr s ->
  sub_queue (deliver s sample) = Some (queue_push q sample).2 /\ sub_key_expr (deliver s sample) = sub_key_expr s.
Proof.
  intros Hq Hk. unfold deliver. rewrite Hk, String.eqb_refl. unfold on_sample, sub_queue in *.
  by destruct (sub_handler s); cbn in *; simplify_eq.
Qed.

(** A receive takes the front of the queue, or waits on an empty one, or has
    waited for too long. *)
Lemma recv_by_spec mode s q :
  sub_queue s = Some q ->
  sub_key_expr (recv_by mode s).2 = sub_key_expr s /\
  ((exists sample d, data q = sample :: d /\
      sub_queue (recv_by mode s).2 = Some (mkQueue d (capacity q)) /\
      (recv_by mode s).1 = Done (map_err Message (topic_deserialize (ts_payload sample)))) \/
   sub_queue (recv_by mode s).2 = Some q /\
     match mode with
     | Wake timed_out => (recv_by mode s).1 = Done (Err (Message "Receive timed out")) /\
         (timed_out = true \/ data q = [])
     | _ => (recv_by mode s).1 = Blocked /\ data q = []
     end).
Proof.
  intros Hq. assert (forall q', sub_queue (sub_set_queue s q') = Some q') as Hs
    by (intros q'; apply sub_set_queue_queue; by rewrite Hq).
  destruct q as [d c], mode as [| | |t]; cbn [recv_by];
    unfold recv, async_recv, recv_timeout, recv_wake, decoded_with, recv_serialized, async_recv_serialized,
      recv_serialized_timeout, recv_serialized_wake, with_queue; rewrite Hq;
    unfold queue_recv_async, queue_recv_timeout, queue_recv, queue_try_recv, queue_recv_timeout_resume,
      queue_is_empty, pop_front; cbn [data].
  all: destruct d as [|x d]; cbn; rewrite ?orb_true_r, ?orb_false_r; try destruct t; cbn; rewrite ?Hs;
    (split; [done|]); (first [right; by auto | left; by repeat econstructor]).
Qed.

Lemma Forall2_tail {A B} (R : A -> B -> Prop) l l' : Forall2 R l l' -> Forall2 R (tail l) (tail l').
Proof. by intros []. Qed.

(** Pushing into a queue drops its front when it is full. *)
Lemma queue_push_data {A} (q : BoundedQueue A) x :
  data (queue_push q x).2 = (if (N.of_nat (length (data q)) <? capacity q)%N then data q else tail (data q)) ++ [x] /\
  capacity (queue_push q x).2 = capacity q.
Proof.
  rewrite queue_push_eq. destruct (N.leb_spec (capacity q) (N.of_nat (length (data q))));
    destruct (N.ltb_spec (N.of_nat (length (data q))) (capacity q)); first [lia | done].
Qed.

Lemma topic_inv_publish c st vs now m :
  topic_inv c st vs -> topic_ok m ->
  exists vs', topic_inv c (exec_topic st (TPublish now m)) vs'.
Proof.
  intros [Hq Hk Hc Hs Hcm] Hm. cbn [exec_topic]. unfold publish.
  destruct (publish_payload (pub_shm_config (tn_pub st)) m) as [z|e|] eqn:Hp; [|exists vs; by split..].
  destruct (put_spec (tn_pub st) now (zbuf_contiguous z)) as (H1 & H2 & H3).
  destruct (put (tn_pub st) now (zbuf_contiguous z)) as [sample p]. cbn [fst snd] in *.
  exists (vs ++ [topic_value m]). split; cbn [tn_pub tn_sub tn_flight tn_sent tn_received]; [done|congruence|..].
  - unfold on_its_way. cbn. rewrite app_assoc. apply Forall2_app; [exact Hc|].
    constructor; [|done]. split; [congruence|]. rewrite H2. by eapply topic_decodes.
  - rewrite map_app, app_assoc. by apply sublist_app.
  - intros E. rewrite map_app, app_assoc. by rewrite Hcm.
Qed.

Lemma topic_inv_deliver c st vs :
  topic_inv c st vs -> (c = true -> has_room (tn_sub st) = true) ->
  exists vs', topic_inv c (exec_topic st TDeliver) vs'.
Proof.
  intros [Hq Hk Hc Hs Hcm] Hroom. cbn [exec_topic].
  destruct (tn_flight st) as [|sample flight] eqn:Hf; [exists vs; by split|].
  destruct Hq as [q Hq]. unfold on_its_way, sub_data, has_room in *. rewrite Hf, Hq in *. cbn [from_option] in Hc.
  assert (ts_key_expr sample = sub_key_expr (tn_sub st)) as Hkey.
  { apply Forall2_app_inv_l in Hc as (? & ? & _ & Hc & ->). by inversion Hc as [|???? []]. }
  destruct (deliver_spec (tn_sub st) sample q Hq Hkey) as [Hdq Hdk].
  destruct (queue_push_data q sample) as [Hd _]. set (s' := deliver _ _) in *.
  destruct (N.of_nat (length (data q)) <? capacity q)%N.
  - exists vs. split; cbn [tn_pub tn_sub tn_flight tn_sent tn_received]; [by rewrite Hdq|congruence|..|done|done].
    unfold on_its_way, sub_data. cbn. rewrite Hdq, Hdk. cbn. rewrite Hd, <- app_assoc. exact Hc.
  - destruct c; [by specialize (Hroom eq_refl)|].
    apply Forall2_app_inv_l in Hc as (vd & vf & Hcd & Hcf & ->).
    exists (tail vd ++ vf). split; cbn [tn_pub tn_sub tn_flight tn_sent tn_received]; [by rewrite Hdq|congruence|..|done].
    + unfold on_its_way, sub_data. cbn. rewrite Hdq, Hdk. cbn. rewrite Hd, <- app_assoc.
      apply Forall2_app; [by apply Forall2_tail|exact Hcf].
    + etrans; [|exact Hs]. apply sublist_app; [done|]. apply sublist_app; [apply tail_sublist|done].
Qed.

Lemma topic_inv_lose st vs :
  topic_inv false st vs -> exists vs', topic_inv false (exec_topic st TLose) vs'.
Proof.
  intros [Hq Hk Hc Hs Hcm]. unfold on_its_way in Hc. apply Forall2_app_inv_l in Hc as (vd & vf & Hcd & Hcf & ->).
  exists (vd ++ tail vf). split; cbn; [done|done|..|done].
  - apply Forall2_app; [exact Hcd|by apply Forall2_tail].
  - etrans; [|exact Hs]. apply sublist_app; [done|]. apply sublist_app; [done|apply tail_sublist].
Qed.

Lemma topic_inv_recv c st vs mode :
  topic_inv c st vs -> exists vs', topic_inv c (exec_topic st (TRecv mode)) vs'.
Proof.
  intros [[q Hq] Hk Hc Hs Hcm]. cbn [exec_topic].
  destruct (recv_by_spec mode (tn_sub st) q Hq) as [Hkey Hr].
  destruct (recv_by mode (tn_sub st)) as [o s']. cbn [fst snd] in *.
  unfold on_its_way, sub_data in Hc. rewrite Hq in Hc. cbn [from_option] in Hc.
  destruct Hr as [(sample & d & Hd & Hq' & ->)|[Hq' Ho]].
  - rewrite Hd in Hc. inversion Hc as [|? v ? vs' [Hsk Hv] Hc' E1 E2]. subst.
    exists vs'. rewrite Hv. cbn [map_err]. split; cbn [tn_pub tn_sub tn_flight tn_sent tn_received].
    + by rewrite Hq'.
    + congruence.
    + unfold on_its_way, sub_data. cbn. rewrite Hq', Hkey. exact Hc'.
    + rewrite <- app_assoc. exact Hs.
    + intros E. rewrite <- app_assoc. exact (Hcm E).
  - assert (match o with Done (Ok v) => [v] | _ => [] end = []) as -> by (destruct mode, Ho as [-> _]; done).
    exists vs. rewrite app_nil_r. split; cbn; [by rewrite Hq'|congruence| |done|done].
    unfold on_its_way, sub_data. cbn. rewrite Hq', Hkey. exact Hc.
Qed.

Lemma topic_run_inv c ops : forall st vs,
  topic_inv c st vs -> Forall op_ok ops -> (c = true -> lossless st ops = true) ->
  exists vs', topic_inv c (run_topic st ops) vs'.
Proof.
  induction ops as [|op ops IH]; intros st vs Hi Hok Hl; [by exists vs|]. inversion_clear Hok as [|?? Ho Hok'].
  assert (exists vs', topic_inv c (exec_topic st op) vs') as (vs' & Hi').
  { destruct op as [now m| | |mode].
    - by eapply topic_inv_publish.
    - eapply topic_inv_deliver; [done|]. intros E. specialize (Hl E). by apply andb_true_iff in Hl as [Hl _].
    - destruct c; [by specialize (Hl eq_refl)|by eapply topic_inv_lose].
    - by eapply topic_inv_recv. }
  eapply (IH _ _ Hi'); [done|]. intros E. specialize (Hl E). by apply andb_true_iff in Hl as [_ Hl].
Qed.

(** **** The builders *)

Section Builders.
Context (endpoint_gid : EndpointEntity -> GidArray).

Lemma pub_build_inv b zid p :
  pub_build endpoint_gid b zid = Ok p ->
  exists e, qualify_topic (pb_entity b) = Ok e /\ format_topic_key_expr (pb_format b) e = Ok (pub_key_expr p) /\
    pub_sn p = 0%Z /\ pub_gid p = endpoint_gid e /\ pub_with_attachment p = pb_with_attachment b /\
    pub_shm_config p = pb_shm_config b.
Proof.
  unfold pub_build. intros Hx. res_inv.
  by match goal with Hq : qualify_topic _ = Ok ?e' |- _ => exists e' end.
Qed.

Lemma sub_build_internal_inv b zid h s :
  sub_build_internal endpoint_gid b zid h = Ok s ->
  exists e, qualify_topic (sb_entity b) = Ok e /\ format_topic_key_expr (sb_format b) e = Ok (sub_key_expr s) /\
    sub_handler s = h /\ sub_dyn_schema s = sb_dyn_schema b.
Proof.
  unfold sub_build_internal. intros Hx. res_inv.
  by match goal with Hq : qualify_topic _ = Ok ?e' |- _ => exists e' end.
Qed.

(** A publisher and a subscription of one topic, domain and type, declare the
    same key expression. *)
Definition same_topic (e1 e2 : EndpointEntity) : Prop :=
  domain_id (ep_node e1) = domain_id (ep_node e2) /\ ep_type_info e1 = ep_type_info e2 /\
  qualify_topic_name (ep_topic e1) (node_namespace (ep_node e1)) (node_name (ep_node e1)) =
    qualify_topic_name (ep_topic e2) (node_namespace (ep_node e2)) (node_name (ep_node e2)).

Lemma publisher_reaches_subscription bp zp p bs zs h s :
  pub_build endpoint_gid bp zp = Ok p -> sub_build_internal endpoint_gid bs zs h = Ok s ->
  pb_format bp = sb_format bs -> same_topic (pb_entity bp) (sb_entity bs) ->
  pub_key_expr p = sub_key_expr s.
Proof.
  intros Hp Hs Hf (Hd & Ht & Hq). apply pub_build_inv in Hp as (e1 & Hq1 & Hk1 & _).
  apply sub_build_internal_inv in Hs as (e2 & Hq2 & Hk2 & _). unfold qualify_topic in *. rewrite Hq in Hq1.
  destruct (qualify_topic_name _ _ _) as [n|e|]; try done. cbn in *. simplify_eq.
  rewrite Hf, (format_topic_key_expr_ext _ _ (with_topic (sb_entity bs) n)) in Hk1 by done. congruence.
Qed.

Lemma topic_inv_new bp zp p bs zs s :
  pub_build endpoint_gid bp zp = Ok p -> sub_build endpoint_gid bs zs = Ok s ->
  pb_format bp = sb_format bs -> same_topic (pb_entity bp) (sb_entity bs) ->
  forall c, topic_inv c (topic_new p s) [].
Proof.
  intros Hp Hs Hf Ht c. assert (pub_key_expr p = sub_key_expr s) as Hk
    by (by eapply publisher_reaches_subscription).
  unfold sub_build in Hs. apply sub_build_internal_inv in Hs as (e & _ & _ & Hh & _).
  assert (sub_queue s = Some (queue_new (server_depth (history (ep_qos (sb_entity bs)))))) as Hq
    by (unfold sub_queue; by rewrite Hh).
  split; cbn; [by rewrite Hq|done|..|done]; [|constructor].
  unfold on_its_way, sub_data. cbn. by rewrite Hq.
Qed.

(** A subscription keeps its schema. *)
Lemma run_topic_schema ops st : sub_dyn_schema (tn_sub (run_topic st ops)) = sub_dyn_schema (tn_sub st).
Proof.
  assert (R : forall mode s, sub_dyn_schema (recv_by mode s).2 = sub_dyn_schema s).
  { intros mode s. destruct mode; unfold recv_by, recv, async_recv, recv_timeout, recv_wake, decoded_with, recv_serialized,
      async_recv_serialized, recv_serialized_timeout, recv_serialized_wake, with_queue; cbn [snd];
      destruct (sub_queue s) as [q|]; try done.
    - by destruct (queue_recv q).
    - by destruct (queue_recv_async q).
    - by destruct (queue_recv_timeout q).
    - by destruct (queue_recv_timeout_resume timed_out q). }
  revert st. induction ops as [|op ops IH]; intros st; [done|]. unfold run_topic in *. cbn [foldl]. rewrite IH.
  destruct op as [now m| | |mode]; cbn [exec_topic].
  - by destruct (publish (tn_pub st) now m) as [[sample|e|] p].
  - destruct (tn_flight st); [done|]. cbn. unfold deliver, on_sample. destruct (String.eqb _ _); [|done].
    by destruct (handle _ _).
  - done.
  - specialize (R mode (tn_sub st)). by destruct (recv_by mode (tn_sub st)).
Qed.

(** What a run makes of a publisher and a subscription that agree. *)
Lemma topic_run_delivers p s ops :
  (forall c, topic_inv c (topic_new p s) []) -> Forall op_ok ops ->
  let st := run_topic (topic_new p s) ops in
  sublist (tn_received st) (map topic_value (tn_sent st)) /\
  (forall mode r, (recv_by mode (tn_sub st)).1 = Done r ->
     (exists v, r = Ok v) \/ r = Err (Message "Receive timed out") /\ exists timed_out, mode = Wake timed_out) /\
  (lossless (topic_new p s) ops = true ->
     exists rest, map topic_value (tn_sent st) = tn_received st ++ rest /\
       Forall2 (fun sample v => topic_deserialize (ts_payload sample) = Ok v)
         (sub_data (tn_sub st) ++ tn_flight st) rest).
Proof.
  intros Hnew Hok st.
  destruct (topic_run_inv false ops _ _ (Hnew false) Hok ltac:(done)) as (vs & [[q Hq] _ Hc Hsub _]).
  split; [|split].
  - etrans; [|exact Hsub]. by apply sublist_inserts_r.
  - intros mode r Hr. destruct (recv_by_spec mode _ q Hq) as [_ [(sample & d & Hd & _ & Ho)|[_ Ho]]].
    + left. unfold on_its_way, sub_data in Hc. rewrite Hq in Hc. cbn in Hc. rewrite Hd in Hc.
      inversion Hc as [|? v ? ? [_ Hv] _]. exists v. fold st in Ho. rewrite Ho in Hr. rewrite Hv in Hr. by injection Hr.
    + right. destruct mode as [| | |t], Ho as [Ho _]; fold st in Ho; rewrite Ho in Hr; try done.
      injection Hr as <-. split; [done|by exists t].
  - intros Hl. destruct (topic_run_inv true ops _ _ (Hnew true) Hok (fun _ => Hl)) as (vs' & [_ _ Hc' _ Hcm]).
    exists vs'. split; [symmetry; exact (Hcm eq_refl)|]. eapply Forall2_impl; [exact Hc'|]. by intros ? ? [_ ?].
Qed.

(** ** Properties *)

(** C12 Delivery on a topic: whatever is lost on the way or overwritten in the
    queue, a subscription receives a subsequence of the values that its
    publisher published, in their order; a receive never panics and its only
    error is a timeout; and when nothing is lost, what was received and what is
    under way is exactly what was published. *)
Theorem topic_delivery bp zp p bs zs s ops :
  pub_build endpoint_gid bp zp = Ok p -> sub_build endpoint_gid bs zs = Ok s ->
  pb_format bp = sb_format bs -> same_topic (pb_entity bp) (sb_entity bs) -> Forall op_ok ops ->
  let st := run_topic (topic_new p s) ops in
  sublist (tn_received st) (map topic_value (tn_sent st)) /\
  (forall mode r, (recv_by mode (tn_sub st)).1 = Done r ->
     (exists v, r = Ok v) \/ r = Err (Message "Receive timed out") /\ exists timed_out, mode = Wake timed_out) /\
  (lossless (topic_new p s) ops = true ->
     exists rest, map topic_value (tn_sent st) = tn_received st ++ rest /\
       Forall2 (fun sample v => topic_deserialize (ts_payload sample) = Ok v)
         (sub_data (tn_sub st) ++ tn_flight st) rest).
Proof.
  intros Hp Hs Hf Ht Hok. apply topic_run_delivers; [|done]. by eapply topic_inv_new.
Qed.
End Builders.
End Topic.

(** ** Instances: typed and dynamic messages *)

Section Instances.
Context {ZBuf : Type} `{ZL : ZBufLaws ZBuf} `{DL : DynLayout}.
Context (zbuf_from zbuf_from_shm : list byte -> ZBuf).
Context (zbuf_from_contents : forall bs, zbuf_contiguous (zbuf_from bs) = bs).
Context (zbuf_from_shm_contents : forall bs, zbuf_contiguous (zbuf_from_shm bs) = bs).

Definition typed_topic (size_of : nat) (unknown_variant : Z -> CdrError) (missing_element : nat -> CdrError) (t : sty) :
  TopicType ZBuf sval sval (H0 := CdrSerdes zbuf_from_shm size_of).
Proof.
  refine {| topic_ok := has_sty t; topic_value := id;
            topic_deserialize := serdes_deserialize unknown_variant missing_element t |}.
  intros cfg m z Hm Hp.
  pose proof (payload_decodes zbuf_from_shm zbuf_from_shm_contents unknown_variant missing_element (E := ZError) cfg size_of t m Hm) as Hd.
  cbn zeta in Hd. by rewrite Hp in Hd.
Defined.

Definition dynamic_topic (debug_value : DynamicValue -> string) (debug_type : FieldType -> string) (size_of : nat)
  (s : MessageSchema) :
  TopicType ZBuf DynamicMessage DynamicMessage (H0 := DynamicCdrSerdes debug_value debug_type zbuf_from zbuf_from_shm size_of).
Proof.
  refine {| topic_ok := message_typed false s; topic_value := norm_message s; topic_deserialize := dyn_decode s |}.
  intros cfg m z Hm Hp.
  pose proof (published_dynamic_decodes (E := ZError) debug_value debug_type zbuf_from zbuf_from_shm size_of cfg s m
    zbuf_from_contents zbuf_from_shm_contents Hm) as Hd.
  rewrite Hp in Hd. unfold dyn_decode. by rewrite Hd.
Defined.

(** A publisher of a schema and a subscription that discovered it. *)
Definition discovered_topic (debug_value : DynamicValue -> string) (debug_type : FieldType -> string) (size_of : nat)
  (s : MessageSchema) :
  TopicType ZBuf DynamicMessage DynamicMessage (H0 := DynamicCdrSerdes debug_value debug_type zbuf_from zbuf_from_shm size_of).
Proof.
  refine {| topic_ok := message_typed false s; topic_value m := norm_message (erase s) (erase_message m);
            topic_deserialize := dyn_decode (erase s) |}.
  intros cfg m z Hm Hp. rewrite (published_erased debug_value debug_type zbuf_from zbuf_from_shm size_of cfg s m Hm) in Hp.
  destruct (message_typed_erase s m Hm) as [Hm' _].
  pose proof (published_dynamic_decodes (E := ZError) debug_value debug_type zbuf_from zbuf_from_shm size_of cfg _ _
    zbuf_from_contents zbuf_from_shm_contents Hm') as Hd.
  rewrite Hp in Hd. unfold dyn_decode. by rewrite Hd.
Defined.
End Instances.

(** ** A concrete topic: a talker and a listener of a typed message *)

#[local] Existing Instance ex_zenoh.
#[local] Existing Instance ex_zext.
#[local] Instance ex_pubsub : PubSubApi := {|
  Locality := unit; declare_publisher _ _ _ := Ok tt; declare_subscriber _ _ := Ok tt |}.

#[local] Instance ex_serdes : ZSerializerApi (list (list byte)) sval := CdrSerdes ex_zbuf_from 24.
#[local] Instance ex_topic : TopicType (list (list byte)) sval sval :=
  typed_topic ex_zbuf_from ex_zbuf_from_contents 24 ex_unknown ex_missing ex_sty.

Definition ex_topic_gid (_ : EndpointEntity) : GidArray := replicate 16 x07.
Definition ex_talker : EndpointEntity :=
  mkEndpoint 2 ex_node KPublisher "chatter" (ep_type_info ex_endpoint) QosProfile_default.
Definition ex_listener : EndpointEntity :=
  mkEndpoint 5 (mkNode 0 42%N 4 "listener" "/ns" "") KSubscription "/ns/chatter" (ep_type_info ex_endpoint)
    (mkQos Reliable Volatile (KeepLast 2)).
Definition ex_pub_builder : ZPubBuilder := mkPubBuilder ex_talker true None FRmwZenoh None.
Definition ex_sub_builder : ZSubBuilder := mkSubBuilder ex_listener FRmwZenoh None None.
Definition ex_topic_ops : list TopicOp :=
  [TPublish None ex_val; TPublish (Some 7%Z) ex_val; TDeliver; TRecv Timeout; TDeliver].


Definition ex_topic_key : string :=
  "0/ns/chatter/std_msgs::msg::dds_::String_/" ++ TypeHash_fmt (default TypeHash_zero (ti_hash <$> ep_type_info ex_endpoint)).
Definition ex_pub : ZPub :=
  mkPub (with_topic ex_talker "/ns/chatter") 0 (replicate 16 x07) ex_topic_key Block false true
    (events_new (replicate 16 7%Z)) None None.
Definition ex_sub : ZSub :=
  mkSub ex_listener ex_topic_key None (HQueue (queue_new 2)) (events_new (replicate 16 7%Z)) None.

Lemma topic_delivery_witness :
  let st := run_topic (topic_new ex_pub ex_sub) ex_topic_ops in
  sublist (tn_received st) (map topic_value (tn_sent st)) /\
  exists rest, map topic_value (tn_sent st) = tn_received st ++ rest /\
    Forall2 (fun sample v => topic_deserialize (ts_payload sample) = Ok v)
      (sub_data (tn_sub st) ++ tn_flight st) rest.
Proof.
  destruct (topic_delivery ex_topic_gid ex_pub_builder 42%N ex_pub ex_sub_builder 42%N ex_sub ex_topic_ops)
    as (H1 & _ & H3); [reflexivity|reflexivity|reflexivity|by repeat split|..].
  - repeat (constructor; [first [exact ex_has_sty|exact I]|]). constructor.
  - split; [exact H1|]. apply H3. vm_compute. reflexivity.
Defined.
