(* ===== verification/Node.v ===== *)
(** * Nodes (crates/ros-z/src/node.rs)

    The node builder, the node's liveliness token and type description service,
    and the builders of its publishers, subscriptions, services and clients,
    typed and dynamic, which take their identifiers from the counter of the
    context.  The counter is passed along; a number is the [fetch_add] of one. *)
From stdpp Require Import gmap strings.
From S2P Require Import Prelude CdrBuffer RustStr TopicName CdrPrimitives Queue Attachment ProfileQos Qos Entity SchemaModel RmwZenoh Ros2Dds MsgSerdes Service DescriptionWire Graph DynTypes DynCdr TypeDescription DescriptionService DynSerdes PubSub.
Open Scope list_scope.

(** ** Definitions *)

(** [GlobalCounter::increment] of context.rs. *)
Definition increment (counter : Z) : Z * Z := (counter, wrap_u 64 (counter + 1)).

Section Node.
Context `{ZA : ZenohApi} `{ZExt : ZExtApi} `{Chan : ChannelApi} `{Sess : SessionApi} `{PS : PubSubApi}.
Context `{HA : HashApi} `{HX : HexApi}.
Context {ReqM : ZMessage GetTypeDescriptionRequest} {RspM : ZMessage GetTypeDescriptionResponse}.
Context (endpoint_gid : EndpointEntity -> GidArray) (zerror_fmt : ZError -> string).

(** [struct ZNodeBuilder] and [struct ZNode]; the session is its [zid]. *)
Record ZNodeBuilder := mkNodeBuilder {
  nb_domain_id : Z;
  nb_name : string;
  nb_namespace : string;
  nb_enclave : string;
  nb_zid : ZenohId;
  nb_remap_rules : gmap string string;
  nb_shm_config : option ShmConfig;
  nb_format : KeyExprFormat;
  nb_enable_type_desc_service : bool;
}.
Record ZNode := mkZNode {
  nd_entity : NodeEntity;
  nd_zid : ZenohId;
  nd_remap_rules : gmap string string;
  nd_shm_config : option ShmConfig;
  nd_format : KeyExprFormat;
  nd_type_desc_service : option (Schemas * ZServer);
}.

Definition with_namespace (b : ZNodeBuilder) (namespace : string) : ZNodeBuilder :=
  mkNodeBuilder (nb_domain_id b) (nb_name b) (if String.eqb namespace "/" then "" else namespace) (nb_enclave b)
    (nb_zid b) (nb_remap_rules b) (nb_shm_config b) (nb_format b) (nb_enable_type_desc_service b).
Definition node_with_shm_config (b : ZNodeBuilder) (config : ShmConfig) : ZNodeBuilder :=
  mkNodeBuilder (nb_domain_id b) (nb_name b) (nb_namespace b) (nb_enclave b) (nb_zid b) (nb_remap_rules b)
    (Some config) (nb_format b) (nb_enable_type_desc_service b).
Definition with_type_description_service (b : ZNodeBuilder) : ZNodeBuilder :=
  mkNodeBuilder (nb_domain_id b) (nb_name b) (nb_namespace b) (nb_enclave b) (nb_zid b) (nb_remap_rules b)
    (nb_shm_config b) (nb_format b) true.

(** [Builder::build] of [ZNodeBuilder]. *)
Definition node_build (b : ZNodeBuilder) (counter : Z) : res ZError ZNode * Z :=
  let '(id, counter) := increment counter in
  let node := NodeEntity_new (nb_domain_id b) (nb_zid b) id (nb_name b) (nb_namespace b) (nb_enclave b) in
  match (ke ← node_lv_token_key_expr node; declare_token ke) with
  | Ok _ =>
      let done service :=
        mkZNode node (nb_zid b) (nb_remap_rules b) (nb_shm_config b) (nb_format b) service in
      if nb_enable_type_desc_service b then
        let '(service_id, counter) := increment counter in
        (service ← tds_new endpoint_gid (nb_name b) (nb_namespace b) (nb_zid b) id service_id;
         Ok (done (Some service)), counter)
      else (Ok (done None), counter)
  | Err e => (Err e, counter)
  | Panic => (Panic, counter)
  end.

(** The endpoint every [create_*_impl] starts from. *)
Definition new_entity (n : ZNode) (id : Z) (kind : EntityKind) (topic : string) (type_info : option TypeInfo)
    : EndpointEntity :=
  mkEndpoint id (nd_entity n) kind topic type_info QosProfile_default.
Definition create_pub_impl (n : ZNode) (counter : Z) (topic : string) (type_info : option TypeInfo)
    : ZPubBuilder * Z :=
  let '(id, counter) := increment counter in
  (mkPubBuilder (new_entity n id KPublisher topic type_info) true (nd_shm_config n) (nd_format n) None, counter).
Definition create_sub_impl (n : ZNode) (counter : Z) (topic : string) (type_info : option TypeInfo)
    : ZSubBuilder * Z :=
  let '(id, counter) := increment counter in
  (mkSubBuilder (new_entity n id KSubscription topic type_info) (nd_format n) None None, counter).
(** [ZServerBuilder] and [ZClientBuilder] are an endpoint and a format. *)
Definition create_service_impl (n : ZNode) (counter : Z) (topic : string) (type_info : option TypeInfo)
    : (EndpointEntity * KeyExprFormat) * Z :=
  let '(id, counter) := increment counter in
  ((new_entity n id KService topic type_info, nd_format n), counter).
Definition create_client_impl (n : ZNode) (counter : Z) (topic : string) (type_info : option TypeInfo)
    : (EndpointEntity * KeyExprFormat) * Z :=
  let '(id, counter) := increment counter in
  ((new_entity n id KClient topic type_info, nd_format n), counter).

(** [create_pub] and the others give the type information of the type. *)
Definition create_pub (type_info : TypeInfo) (n : ZNode) (counter : Z) (topic : string) : ZPubBuilder * Z :=
  create_pub_impl n counter topic (Some type_info).
Definition create_sub (type_info : TypeInfo) (n : ZNode) (counter : Z) (topic : string) : ZSubBuilder * Z :=
  create_sub_impl n counter topic (Some type_info).
Definition create_service (type_info : TypeInfo) (n : ZNode) (counter : Z) (topic : string)
    : (EndpointEntity * KeyExprFormat) * Z := create_service_impl n counter topic (Some type_info).
Definition node_create_client (type_info : TypeInfo) (n : ZNode) (counter : Z) (topic : string)
    : (EndpointEntity * KeyExprFormat) * Z := create_client_impl n counter topic (Some type_info).
Definition has_type_description_service (n : ZNode) : bool :=
  match nd_type_desc_service n with Some _ => true | None => false end.

(** [create_dyn_pub]: a schema that cannot be registered is only logged. *)
Definition set_service (n : ZNode) (service : option (Schemas * ZServer)) : ZNode :=
  mkZNode (nd_entity n) (nd_zid n) (nd_remap_rules n) (nd_shm_config n) (nd_format n) service.
Definition dyn_type_info {E} (s : MessageSchema) : res E (option TypeInfo) :=
  type_hash ← dyn_type_hash s; Ok (Some (mkTypeInfo (dds_type_name (type_name s)) type_hash)).
Definition register_dyn {E} (n : ZNode) (schema : MessageSchema) : res E ZNode :=
  match nd_type_desc_service n with
  | Some (schemas, server) =>
      match register_schema schemas schema with
      | Ok schemas => Ok (set_service n (Some (schemas, server)))
      | Err _ => Ok n
      | Panic => Panic
      end
  | None => Ok n
  end.
Definition create_dyn_pub (n : ZNode) (counter : Z) (topic : string) (schema : MessageSchema)
    : res ZError (ZPub * ZNode * Z) :=
  n ← register_dyn n schema;
  type_info ← dyn_type_info schema;
  let '(b, counter) := create_pub_impl n counter topic type_info in
  b ← pub_with_dyn_schema b schema;
  p ← pub_build endpoint_gid b (nd_zid n);
  Ok (p, n, counter).
Definition create_dyn_sub (n : ZNode) (counter : Z) (topic : string) (schema : MessageSchema)
    : res ZError (ZSub * Z) :=
  type_info ← dyn_type_info schema;
  let '(b, counter) := create_sub_impl n counter topic type_info in
  b ← sub_with_dyn_schema b schema;
  s ← sub_build endpoint_gid b (nd_zid n);
  Ok (s, counter).

(** [create_dyn_sub_auto]: the discovery of DescriptionService.v, with what the
    network, the graph, the clock and the counter give it; [counter] is the
    counter after it. *)
Definition create_dyn_sub_auto (net : ServiceQuery -> option Sample) (ids : nat -> Z * Z)
    (nows : nat -> option Z) (late : nat -> bool) (graph : nat -> list Entity)
    (n : ZNode) (counter : Z) (topic : string) : res ZError (ZSub * MessageSchema * Z) :=
  '(schema, type_hash) ← map_err (fun e => Message ("Schema discovery failed: " ++ DynamicError_fmt e)%string)
    (get_type_description_for_topic endpoint_gid zerror_fmt (nd_zid n) net ids nows late (Some graph) topic);
  let type_info := Some (mkTypeInfo (dds_type_name (type_name schema))
                           (default TypeHash_zero (from_rihs_string type_hash))) in
  let '(b, counter) := create_sub_impl n counter topic type_info in
  b ← sub_with_dyn_schema b schema;
  s ← sub_build endpoint_gid b (nd_zid n);
  Ok (s, schema, counter).
End Node.
