(* ===== verification/Context.v ===== *)
(** * Contexts (crates/ros-z/src/context.rs)

    The remapping rules, the context builder with its overrides, the overrides
    of the environment, the choice of the configuration and its assembly in
    [build], and [create_node].  The environment, JSON5, reading a file and
    opening a session are parameters ([ContextApi]). *)
From stdpp Require Import gmap strings.
From S2P Require Import Prelude RustStr RustText RustColl Entity RmwZenoh Ros2Dds MsgSerdes Config PubSub Node.
Open Scope string_scope.

(** ** Definitions *)

(** [str::split_once]. *)
Definition split_once (pat s : string) : option (string * string) :=
  i ← find_str pat s;
  Some (substring 0 i s, substring (i + String.length pat) (String.length s) s).

(** [struct RemapRules]. *)
Definition RemapRules : Type := gmap string string.
Definition add_rule (r : RemapRules) (rule : string) : res ZError RemapRules :=
  match split_once ":=" rule with
  | Some (from, to) =>
      if String.eqb from "" || String.eqb to "" then
        Err (Message "Invalid remap rule: both sides must be non-empty")
      else Ok (<[from := to]> r)
  | None => Err (Message "Invalid remap rule format: expected 'from:=to'")
  end.
Definition remap_apply (r : RemapRules) (name : string) : string := default name (r !! name).
Definition remap_is_empty (r : RemapRules) : bool := bool_decide (r = ∅).

Class ContextApi `{ZenohApi} `{JsonApi} `{ConfigApi} := {
  env_var : string -> option string;
  json5_from_str : string -> res string Json;
  config_from_file : string -> res ZError Config;
  zenoh_open : Config -> res ZError ZenohId;
  graph_new : ZenohId -> Z -> res ZError unit;
  zerror_text : ZError -> string;
}.

Section Context_.
Context `{CX : ContextApi}.

(** [struct ZContextBuilder]. *)
Record ZContextBuilder := mkContextBuilder {
  cb_domain_id : Z;
  cb_enclave : string;
  cb_zenoh_config : option Config;
  cb_config_file : option string;
  cb_config_overrides : list (string * Json);
  cb_remap_rules : RemapRules;
  cb_enable_logging : bool;
  cb_shm_config : option ShmConfig;
  cb_format : KeyExprFormat;
}.
Definition context_builder_default : ZContextBuilder :=
  mkContextBuilder 0 "" None None [] ∅ false None KeyExprFormat_default.

Definition with_domain_id (b : ZContextBuilder) (domain_id : Z) : ZContextBuilder :=
  mkContextBuilder domain_id (cb_enclave b) (cb_zenoh_config b) (cb_config_file b) (cb_config_overrides b)
    (cb_remap_rules b) (cb_enable_logging b) (cb_shm_config b) (cb_format b).
Definition with_enclave (b : ZContextBuilder) (enclave : string) : ZContextBuilder :=
  mkContextBuilder (cb_domain_id b) enclave (cb_zenoh_config b) (cb_config_file b) (cb_config_overrides b)
    (cb_remap_rules b) (cb_enable_logging b) (cb_shm_config b) (cb_format b).
Definition keyexpr_format (b : ZContextBuilder) (format : KeyExprFormat) : ZContextBuilder :=
  mkContextBuilder (cb_domain_id b) (cb_enclave b) (cb_zenoh_config b) (cb_config_file b) (cb_config_overrides b)
    (cb_remap_rules b) (cb_enable_logging b) (cb_shm_config b) format.
Definition with_config_file (b : ZContextBuilder) (path : string) : ZContextBuilder :=
  mkContextBuilder (cb_domain_id b) (cb_enclave b) (cb_zenoh_config b) (Some path) (cb_config_overrides b)
    (cb_remap_rules b) (cb_enable_logging b) (cb_shm_config b) (cb_format b).
Definition set_overrides (b : ZContextBuilder) (overrides : list (string * Json)) : ZContextBuilder :=
  mkContextBuilder (cb_domain_id b) (cb_enclave b) (cb_zenoh_config b) (cb_config_file b) overrides
    (cb_remap_rules b) (cb_enable_logging b) (cb_shm_config b) (cb_format b).
Definition set_rules (b : ZContextBuilder) (rules : RemapRules) : ZContextBuilder :=
  mkContextBuilder (cb_domain_id b) (cb_enclave b) (cb_zenoh_config b) (cb_config_file b) (cb_config_overrides b)
    rules (cb_enable_logging b) (cb_shm_config b) (cb_format b).
Definition with_zenoh_config (b : ZContextBuilder) (config : Config) : ZContextBuilder :=
  mkContextBuilder (cb_domain_id b) (cb_enclave b) (Some config) (cb_config_file b) (cb_config_overrides b)
    (cb_remap_rules b) (cb_enable_logging b) (cb_shm_config b) (cb_format b).
Definition with_logging_enabled (b : ZContextBuilder) : ZContextBuilder :=
  mkContextBuilder (cb_domain_id b) (cb_enclave b) (cb_zenoh_config b) (cb_config_file b) (cb_config_overrides b)
    (cb_remap_rules b) true (cb_shm_config b) (cb_format b).
Definition context_with_shm (b : ZContextBuilder) (config : option ShmConfig) : ZContextBuilder :=
  mkContextBuilder (cb_domain_id b) (cb_enclave b) (cb_zenoh_config b) (cb_config_file b) (cb_config_overrides b)
    (cb_remap_rules b) (cb_enable_logging b) config (cb_format b).

(** [with_json], of a value that is already JSON, and its conveniences. *)
Definition with_json (b : ZContextBuilder) (key : string) (value : Json) : ZContextBuilder :=
  set_overrides b (cb_config_overrides b ++ [(key, value)])%list.
Definition disable_multicast_scouting (b : ZContextBuilder) : ZContextBuilder :=
  with_json b "scouting/multicast/enabled" (JBool false).
Definition with_connect_endpoints (b : ZContextBuilder) (endpoints : list string) : ZContextBuilder :=
  with_json b "connect/endpoints" (strings endpoints).
Definition connect_to_local_zenohd (b : ZContextBuilder) : ZContextBuilder :=
  with_connect_endpoints b ["tcp/127.0.0.1:7447"].
Definition with_mode (b : ZContextBuilder) (mode : string) : ZContextBuilder := with_json b "mode" (JString mode).
Definition context_with_router_endpoint (b : ZContextBuilder) (endpoint : string) : res ZError ZContextBuilder :=
  session_config ← build_config (with_router_endpoint session_overrides endpoint);
  Ok (with_zenoh_config b session_config).

Definition with_remap_rule (b : ZContextBuilder) (rule : string) : res ZError ZContextBuilder :=
  rules ← add_rule (cb_remap_rules b) rule; Ok (set_rules b rules).
Fixpoint with_remap_rules (b : ZContextBuilder) (rules : list string) : res ZError ZContextBuilder :=
  match rules with
  | [] => Ok b
  | rule :: rules => b ← with_remap_rule b rule; with_remap_rules b rules
  end.

(** [with_shm_config] and [with_shm_threshold], without effect before it. *)
Definition context_with_shm_config (b : ZContextBuilder) (config : ShmConfig) : ZContextBuilder :=
  context_with_shm b (Some config).
Definition with_shm_threshold (b : ZContextBuilder) (t : nat) : ZContextBuilder :=
  match cb_shm_config b with
  | Some config => context_with_shm b (Some (with_threshold config t))
  | None => b
  end.

(** [apply_env_overrides]. *)
Definition parse_override (pair : string) : res ZError (option (string * Json)) :=
  let pair := trim pair in
  if String.eqb pair "" then Ok None else
  match split_once "=" pair with
  | Some (key, value) =>
      let key := trim key in
      let value := trim value in
      match json5_from_str value with
      | Ok json_value => Ok (Some (key, json_value))
      | Err e => Err (Message ("Failed to parse ROSZ_CONFIG_OVERRIDE value for key '" ++ key ++ "': " ++ e
                                 ++ " (value: " ++ value ++ ")"))
      | Panic => Panic
      end
  | None => Err (Message ("Invalid ROSZ_CONFIG_OVERRIDE format: '" ++ pair ++ "'. Expected 'key=value'"))
  end.
Fixpoint parse_overrides (pairs : list string) : res ZError (list (string * Json)) :=
  match pairs with
  | [] => Ok []
  | kv_pair :: pairs =>
      o ← parse_override kv_pair; rest ← parse_overrides pairs;
      Ok (match o with Some kv => kv :: rest | None => rest end)
  end.
Definition apply_env_overrides (b : ZContextBuilder) : res ZError ZContextBuilder :=
  match env_var "ROSZ_CONFIG_OVERRIDE" with
  | Some overrides_str =>
      l ← parse_overrides (split_on ";" overrides_str);
      Ok (set_overrides b (cb_config_overrides b ++ l)%list)
  | None => Ok b
  end.

(** [build]: the configuration it starts from, the overrides, the session. *)
Definition base_config (b : ZContextBuilder) : res ZError Config :=
  match cb_zenoh_config b, cb_config_file b, env_var "ROSZ_CONFIG_FILE" with
  | Some config, _, _ => Ok config
  | None, Some config_file, _ => config_from_file config_file
  | None, None, Some path => config_from_file path
  | None, None, None => session_config
  end.
Definition insert_override (config : Config) (kv : string * Json) : res ZError Config :=
  value_str ← map_err (fun e => Message ("Failed to serialize value for key '" ++ kv.1 ++ "': " ++ e))
                (json_to_string kv.2);
  map_err (fun e => Message ("Failed to apply config override '" ++ kv.1 ++ "' = '" ++ value_str ++ "': " ++ zerror_text e))
    (insert_json5 config kv.1 value_str).
Fixpoint insert_overrides (config : Config) (l : list (string * Json)) : res ZError Config :=
  match l with
  | [] => Ok config
  | kv :: l => config ← insert_override config kv; insert_overrides config l
  end.

Record ZContext := mkContext {
  cx_zid : ZenohId;
  cx_domain_id : Z;
  cx_enclave : string;
  cx_remap_rules : RemapRules;
  cx_shm_config : option ShmConfig;
  cx_format : KeyExprFormat;
}.
Definition context_build (b : ZContextBuilder) : res ZError ZContext :=
  let enclave := cb_enclave b in
  builder ← apply_env_overrides b;
  config ← base_config builder;
  config ← insert_overrides config (cb_config_overrides builder);
  session ← zenoh_open config;
  _ ← graph_new session (cb_domain_id builder);
  Ok (mkContext session (cb_domain_id builder) enclave (cb_remap_rules builder) (cb_shm_config builder)
        (cb_format builder)).
Definition create_node (c : ZContext) (name : string) : ZNodeBuilder :=
  mkNodeBuilder (cx_domain_id c) name "" (cx_enclave c) (cx_zid c) (cx_remap_rules c) (cx_shm_config c)
    (cx_format c) false.
End Context_.

(** ** Lemmas *)

Example split_once_first : split_once ":=" "/foo:=/bar:=/baz" = Some ("/foo", "/bar:=/baz").
Proof. reflexivity. Qed.

(** What a configuration answers for a key: the text inserted last, and what it
    was before for keys that part from the inserted one. *)
Class ConfigLaws `{CA : ConfigApi} := {
  config_get : Config -> string -> option string;
  insert_get : forall c k v c', insert_json5 c k v = Ok c' -> config_get c' k = Some v;
  insert_other : forall c k v c' k', insert_json5 c k v = Ok c' ->
    diverge (split_on "/" k) (split_on "/" k') = true -> config_get c' k' = config_get c k';
}.

Section Properties.
Context `{CX : ContextApi} `{CL : !ConfigLaws}.

Lemma insert_override_inv config kv config' :
  insert_override config kv = Ok config' ->
  exists text, json_to_string kv.2 = Ok text /\ insert_json5 config kv.1 text = Ok config'.
Proof.
  unfold insert_override. destruct (json_to_string kv.2) as [text|e|]; cbn; [|done..].
  intros Hi. exists text. split; [done|]. by destruct (insert_json5 config kv.1 text).
Qed.

Lemma insert_overrides_kept l k : forall config config',
  insert_overrides config l = Ok config' ->
  Forall (fun kv => diverge (split_on "/" kv.1) (split_on "/" k) = true) l ->
  config_get config' k = config_get config k.
Proof.
  induction l as [|kv l IH]; intros config config' Hi Hl; [by injection Hi as ->|].
  inversion_clear Hl. cbn in Hi. destruct (insert_override config kv) as [c1|e|] eqn:E; cbn in Hi; [|done..].
  apply insert_override_inv in E as (text & _ & E). rewrite (IH _ _ Hi) by done. by eapply insert_other.
Qed.

Lemma insert_overrides_app l1 l2 config config' :
  insert_overrides config (l1 ++ l2)%list = Ok config' ->
  exists c, insert_overrides config l1 = Ok c /\ insert_overrides c l2 = Ok config'.
Proof.
  revert config. induction l1 as [|kv l1 IH]; intros config Hi; [by exists config|]. cbn in *.
  destruct (insert_override config kv); cbn in *; [by apply IH|done..].
Qed.

(** ** Properties *)

(** The configuration of a session: it starts from the first of a given
    configuration, a given file, the file of the environment and the ROS session
    defaults, and for every key the last override counts, those of the
    environment after those of the builder; a key without an override keeps the
    value it started with. *)
Theorem context_config_precedence b c :
  context_build b = Ok c ->
  exists env base config,
    apply_env_overrides b = Ok (set_overrides b (cb_config_overrides b ++ env)%list) /\
    base_config b = Ok base /\ zenoh_open config = Ok (cx_zid c) /\
    (forall k v before after, (cb_config_overrides b ++ env)%list = (before ++ (k, v) :: after)%list ->
       Forall (fun kv => diverge (split_on "/" kv.1) (split_on "/" k) = true) after ->
       exists text, json_to_string v = Ok text /\ config_get config k = Some text) /\
    (forall k, Forall (fun kv => diverge (split_on "/" kv.1) (split_on "/" k) = true) (cb_config_overrides b ++ env)%list ->
       config_get config k = config_get base k).
Proof.
  unfold context_build. intros Hb.
  assert (exists env, apply_env_overrides b = Ok (set_overrides b (cb_config_overrides b ++ env)%list)) as (env & He).
  { unfold apply_env_overrides in *. destruct (env_var _).
    - destruct (parse_overrides _) as [l|e|]; cbn in Hb |- *; [by exists l|done..].
    - exists []. rewrite app_nil_r. by destruct b. }
  rewrite He in Hb. cbn [mbind res_bind] in Hb. change (base_config (set_overrides b _)) with (base_config b) in Hb.
  destruct (base_config b) as [base|e|] eqn:Eb; cbn [mbind res_bind] in Hb; [|done..].
  change (cb_config_overrides (set_overrides b ?l)) with l in Hb.
  destruct (insert_overrides base _) as [config|e|] eqn:Ei; cbn [mbind res_bind] in Hb; [|done..].
  destruct (zenoh_open config) as [zid|e|] eqn:Eo; cbn [mbind res_bind] in Hb; [|done..].
  exists env, base, config. split; [done|]. split; [done|]. split.
  { destruct (graph_new _ _); cbn in Hb; [by simplify_eq|done..]. }
  split; [|intros k Hk; by eapply insert_overrides_kept].
  intros k v before after Hl Hk. rewrite Hl in Ei. apply insert_overrides_app in Ei as (c1 & _ & Ei).
  cbn [insert_overrides] in Ei. destruct (insert_override c1 (k, v)) as [c2|e|] eqn:E2; cbn [mbind res_bind] in Ei; [|done..].
  apply insert_override_inv in E2 as (text & Ht & E2). exists text. split; [done|].
  rewrite (insert_overrides_kept _ _ _ _ Ei Hk). by eapply insert_get.
Qed.

(** A rule is added for its left side, the last one wins, and a name is looked
    up once: the result of a rule is not remapped again. *)
Lemma remap_rule_applies r r' rule from to :
  split_once ":=" rule = Some (from, to) -> add_rule r rule = Ok r' ->
  remap_apply r' from = to /\ forall name, name <> from -> remap_apply r' name = remap_apply r name.
Proof.
  intros Hs Ha. unfold add_rule in Ha. rewrite Hs in Ha. destruct (_ || _); [done|]. injection Ha as <-.
  unfold remap_apply, RemapRules in *. split; [by rewrite lookup_insert_eq|]. intros name Hn. by rewrite lookup_insert_ne.
Qed.
End Properties.
