(* ===== verification/ActionBuild.v ===== *)
(** * Building action clients and servers
    (crates/ros-z/src/action/mod.rs, client.rs, server.rs)

    The type information of an action, both builders with their QoS options, and
    [build]: the action's name is remapped and qualified, and its three services
    and two topics are made on the node, each of which takes a number of the
    context's counter.  The theorem: a client and a server of the same action
    meet on all five. *)
From stdpp Require Import gmap strings.
From S2P Require Import Prelude RustStr RustColl TopicName CdrPrimitives Queue Attachment ProfileQos Qos Entity Events SchemaModel RmwZenoh Ros2Dds MsgSerdes Service DescriptionWire Graph DynTypes DescriptionService PubSub TopicNet Node Context.
Open Scope list_scope.

(** ** Definitions *)

(** The type information of [trait ZAction], and its provided methods, for an
    action whose [name()] is [name]. *)
Record ZAction := mkZAction {
  send_goal_type_info : TypeInfo;
  get_result_type_info : TypeInfo;
  cancel_goal_type_info : TypeInfo;
  feedback_type_info : TypeInfo;
  status_type_info : TypeInfo;
}.
Definition ZAction_provided (name : string) : ZAction :=
  mkZAction
    (mkTypeInfo (name ++ "/_action/SendGoal") TypeHash_zero)
    (mkTypeInfo (name ++ "/_action/GetResult") TypeHash_zero)
    (mkTypeInfo "action_msgs/srv/CancelGoal" TypeHash_zero)
    (mkTypeInfo (name ++ "/_FeedbackMessage") TypeHash_zero)
    (mkTypeInfo "action_msgs/msg/GoalStatusArray" TypeHash_zero).

(** A computation that takes numbers of the context's counter, which it keeps
    when it fails. *)
Definition CM (A : Type) : Type := Z -> res ZError A * Z.
#[export] Instance CM_ret : MRet CM := fun A a c => (Ok a, c).
#[export] Instance CM_bind : MBind CM := fun A B f m c =>
  match m c with
  | (Ok a, c) => f a c
  | (Err e, c) => (Err e, c)
  | (Panic, c) => (Panic, c)
  end.
Definition lift_res {A} (r : res ZError A) : CM A := fun c => (r, c).

Section ActionBuild.
Context `{ZA : ZenohApi} `{ZExt : ZExtApi} `{Chan : ChannelApi} `{Sess : SessionApi} `{PS : PubSubApi}.
Context (endpoint_gid : EndpointEntity -> GidArray).

(** The QoS options, which the two builders have alike. *)
Record ActionQos := mkActionQos {
  goal_service_qos : option ProfileQos.QosProfile;
  result_service_qos : option ProfileQos.QosProfile;
  cancel_service_qos : option ProfileQos.QosProfile;
  feedback_topic_qos : option ProfileQos.QosProfile;
  status_topic_qos : option ProfileQos.QosProfile;
}.
Definition with_goal_service_qos (b : ActionQos) (qos : ProfileQos.QosProfile) : ActionQos :=
  mkActionQos (Some qos) (result_service_qos b) (cancel_service_qos b) (feedback_topic_qos b) (status_topic_qos b).
Definition with_result_service_qos (b : ActionQos) (qos : ProfileQos.QosProfile) : ActionQos :=
  mkActionQos (goal_service_qos b) (Some qos) (cancel_service_qos b) (feedback_topic_qos b) (status_topic_qos b).
Definition with_cancel_service_qos (b : ActionQos) (qos : ProfileQos.QosProfile) : ActionQos :=
  mkActionQos (goal_service_qos b) (result_service_qos b) (Some qos) (feedback_topic_qos b) (status_topic_qos b).
Definition with_feedback_topic_qos (b : ActionQos) (qos : ProfileQos.QosProfile) : ActionQos :=
  mkActionQos (goal_service_qos b) (result_service_qos b) (cancel_service_qos b) (Some qos) (status_topic_qos b).
Definition with_status_topic_qos (b : ActionQos) (qos : ProfileQos.QosProfile) : ActionQos :=
  mkActionQos (goal_service_qos b) (result_service_qos b) (cancel_service_qos b) (feedback_topic_qos b) (Some qos).

(** [struct ZActionClientBuilder] and [struct ZActionServerBuilder]; durations
    in nanoseconds. *)
Record ZActionClientBuilder := mkActionClientBuilder {
  acb_action_name : string;
  acb_node : ZNode;
  acb_qos : ActionQos;
}.
Record ZActionServerBuilder := mkActionServerBuilder {
  asb_action_name : string;
  asb_node : ZNode;
  asb_result_timeout : Z;
  asb_goal_timeout : option Z;
  asb_qos : ActionQos;
}.
Definition client_builder_new (action_name : string) (node : ZNode) : ZActionClientBuilder :=
  mkActionClientBuilder action_name node (mkActionQos None None None None None).
Definition server_builder_new (action_name : string) (node : ZNode) : ZActionServerBuilder :=
  mkActionServerBuilder action_name node (10 * 1000000000) None (mkActionQos None None None None None).
Definition with_result_timeout (b : ZActionServerBuilder) (timeout : Z) : ZActionServerBuilder :=
  mkActionServerBuilder (asb_action_name b) (asb_node b) timeout (asb_goal_timeout b) (asb_qos b).
Definition with_goal_timeout (b : ZActionServerBuilder) (timeout : Z) : ZActionServerBuilder :=
  mkActionServerBuilder (asb_action_name b) (asb_node b) (asb_result_timeout b) (Some timeout) (asb_qos b).

(** [ZNode::create_action_client] and [create_action_server]. *)
Definition create_action_client (n : ZNode) (action_name : string) : ZActionClientBuilder :=
  client_builder_new action_name n.
Definition create_action_server (n : ZNode) (action_name : string) : ZActionServerBuilder :=
  server_builder_new action_name n.

(** The remapped and qualified name of an action. *)
Definition qualified_action_name (n : ZNode) (action_name : string) : res ZError string :=
  let action_name := remap_apply (nd_remap_rules n) action_name in
  if String.eqb action_name "" then Err (Message "Action name cannot be empty") else
  map_err (fun e => Message (TopicNameError_fmt e))
    (qualify_topic_name action_name (node_namespace (nd_entity n)) (node_name (nd_entity n))).

(** [if let Some(qos) = .. { builder.entity.qos = qos.to_protocol_qos() }]. *)
Definition override_qos (qos : option ProfileQos.QosProfile) (e : EndpointEntity) : EndpointEntity :=
  match qos with Some qos => set_qos e (to_protocol_qos qos) | None => e end.

(** The five endpoints of either side: the builder of the node, the QoS, [build]. *)
Definition make_client (n : ZNode) (name : string) (ti : TypeInfo) (qos : option ProfileQos.QosProfile)
    : CM ZClient := fun counter =>
  let '((e, f), counter) := create_client_impl n counter name (Some ti) in
  (client_build endpoint_gid (override_qos qos e) f (nd_zid n), counter).
Definition make_server (n : ZNode) (name : string) (ti : TypeInfo) (qos : option ProfileQos.QosProfile)
    : CM ZServer := fun counter =>
  let '((e, f), counter) := create_service_impl n counter name (Some ti) in
  (server_build endpoint_gid (override_qos qos e) f (nd_zid n), counter).
Definition make_pub (n : ZNode) (name : string) (ti : TypeInfo) (qos : option ProfileQos.QosProfile)
    : CM ZPub := fun counter =>
  let '(b, counter) := create_pub_impl n counter name (Some ti) in
  (pub_build endpoint_gid (mkPubBuilder (override_qos qos (pb_entity b)) (pb_with_attachment b)
     (pb_shm_config b) (pb_format b) (pb_dyn_schema b)) (nd_zid n), counter).
Definition make_callback_sub (n : ZNode) (name : string) (ti : TypeInfo) (qos : option ProfileQos.QosProfile)
    : CM ZSub := fun counter =>
  let '(b, counter) := create_sub_impl n counter name (Some ti) in
  (sub_build_with_callback endpoint_gid (mkSubBuilder (override_qos qos (sb_entity b)) (sb_format b)
     (sb_dyn_schema b) (sb_locality b)) (nd_zid n), counter).

(** What [ZActionClient] and [InnerServer] hold of the session; the goal board
    of the one is in ActionClient.v, the goal manager of the other is the [Server]
    of Action.v. *)
Record ActionClientParts := mkClientParts {
  ac_goal_client : ZClient;
  ac_result_client : ZClient;
  ac_cancel_client : ZClient;
  ac_feedback_sub : ZSub;
  ac_status_sub : ZSub;
}.
Record ActionServerParts := mkServerParts {
  as_goal_server : ZServer;
  as_result_server : ZServer;
  as_cancel_server : ZServer;
  as_feedback_pub : ZPub;
  as_status_pub : ZPub;
}.

(** [Builder::build] of [ZActionClientBuilder] and of [ZActionServerBuilder]. *)
Definition action_client_build (A : ZAction) (b : ZActionClientBuilder) : CM ActionClientParts :=
  let n := acb_node b in
  let q := acb_qos b in
  name ← lift_res (qualified_action_name n (acb_action_name b));
  goal_client ← make_client n (name ++ "/_action/send_goal") (send_goal_type_info A) (goal_service_qos q);
  result_client ← make_client n (name ++ "/_action/get_result") (get_result_type_info A) (result_service_qos q);
  cancel_client ← make_client n (name ++ "/_action/cancel_goal") (cancel_goal_type_info A) (cancel_service_qos q);
  feedback_sub ← make_callback_sub n (name ++ "/_action/feedback") (feedback_type_info A) (feedback_topic_qos q);
  status_sub ← make_callback_sub n (name ++ "/_action/status") (status_type_info A) (status_topic_qos q);
  mret (mkClientParts goal_client result_client cancel_client feedback_sub status_sub).
Definition action_server_build (A : ZAction) (b : ZActionServerBuilder) : CM ActionServerParts :=
  let n := asb_node b in
  let q := asb_qos b in
  name ← lift_res (qualified_action_name n (asb_action_name b));
  goal_server ← make_server n (name ++ "/_action/send_goal") (send_goal_type_info A) (goal_service_qos q);
  result_server ← make_server n (name ++ "/_action/get_result") (get_result_type_info A) (result_service_qos q);
  cancel_server ← make_server n (name ++ "/_action/cancel_goal") (cancel_goal_type_info A) (cancel_service_qos q);
  feedback_pub ← make_pub n (name ++ "/_action/feedback") (feedback_type_info A) (feedback_topic_qos q);
  status_pub ← make_pub n (name ++ "/_action/status") (status_type_info A) (status_topic_qos q);
  mret (mkServerParts goal_server result_server cancel_server feedback_pub status_pub).
End ActionBuild.

(** ** Lemmas *)

Lemma CM_bind_inv {A B} (m : CM A) (f : A -> CM B) c b c' :
  (x ← m; f x) c = (Ok b, c') -> exists a c1, m c = (Ok a, c1) /\ f a c1 = (Ok b, c').
Proof. unfold mbind, CM_bind. destruct (m c) as [[a|e|] c1]; [|done..]. by exists a, c1. Qed.

Section Meet.
Context `{ZA : ZenohApi} `{ZExt : ZExtApi} `{Chan : ChannelApi} `{Sess : SessionApi} `{PS : PubSubApi}.
Context (endpoint_gid : EndpointEntity -> GidArray).

(** [key] is what endpoint [name] with type [ti] declares on node [n]. *)
Definition endpoint_key (n : ZNode) (name : string) (ti : TypeInfo) (key : string) : Prop :=
  exists e, domain_id (ep_node e) = domain_id (nd_entity n) /\ ep_topic e = name /\
    ep_type_info e = Some ti /\ format_topic_key_expr (nd_format n) e = Ok key.
Lemma endpoint_key_unique n1 n2 name ti k1 k2 :
  domain_id (nd_entity n1) = domain_id (nd_entity n2) -> nd_format n1 = nd_format n2 ->
  endpoint_key n1 name ti k1 -> endpoint_key n2 name ti k2 -> k1 = k2.
Proof.
  intros Hd Hf (e1 & Hd1 & Ht1 & Hi1 & Hk1) (e2 & Hd2 & Ht2 & Hi2 & Hk2).
  rewrite Hf, (format_topic_key_expr_ext _ e1 e2) in Hk1 by congruence. congruence.
Qed.

(** Each of the five endpoints declares the key of its name, when that name is
    absolute and does not end in a slash. *)
Definition full_name (name : string) : Prop :=
  starts_with_char "/" name = true /\ ends_with_char "/" name = false.
Lemma qualify_full name ns node t : full_name name -> qualify_topic_name name ns node = Ok t -> t = name.
Proof.
  intros [Hs He] (_ & -> & _)%qualify_topic_name_inv. unfold qualified_name.
  by rewrite Hs, strip_suffix_char_None.
Qed.
Lemma qualify_topic_full e e' : full_name (ep_topic e) -> qualify_topic e = Ok e' -> e' = with_topic e (ep_topic e).
Proof. intros Hf Hq. unfold qualify_topic in Hq. res_inv. by rewrite (qualify_full _ _ _ _ Hf) by done. Qed.
Lemma qualify_entity_full e e' : full_name (ep_topic e) -> qualify_entity e = Ok e' -> e' = with_topic e (ep_topic e).
Proof. intros Hf Hq. unfold qualify_entity in Hq. res_inv. by rewrite (qualify_full _ _ _ _ Hf) by done. Qed.

Lemma override_qos_spec qos e :
  ep_node (override_qos qos e) = ep_node e /\ ep_topic (override_qos qos e) = ep_topic e /\
  ep_type_info (override_qos qos e) = ep_type_info e.
Proof. by destruct qos. Qed.

Lemma make_client_key n name ti qos c cl c' :
  full_name name -> make_client endpoint_gid n name ti qos c = (Ok cl, c') ->
  endpoint_key n name ti (cl_key_expr cl).
Proof.
  intros Hf [= Hb <-]. apply client_build_inv in Hb as (e & Hq & Hk & _).
  destruct (override_qos_spec qos (new_entity n c KClient name (Some ti))) as (Hn & Ht & Hi).
  apply qualify_entity_full in Hq as ->; [|by rewrite Ht].
  eexists. split; [|split; [|split; [|exact Hk]]]; cbn in *; congruence.
Qed.
Lemma make_server_key n name ti qos c s c' :
  full_name name -> make_server endpoint_gid n name ti qos c = (Ok s, c') ->
  endpoint_key n name ti (srv_key_expr s).
Proof.
  intros Hf [= Hb <-]. apply build_internal_inv in Hb as (e & Hq & Hk & _).
  destruct (override_qos_spec qos (new_entity n c KService name (Some ti))) as (Hn & Ht & Hi).
  apply qualify_entity_full in Hq as ->; [|by rewrite Ht].
  eexists. split; [|split; [|split; [|exact Hk]]]; cbn in *; congruence.
Qed.
Lemma make_pub_key n name ti qos c p c' :
  full_name name -> make_pub endpoint_gid n name ti qos c = (Ok p, c') ->
  endpoint_key n name ti (pub_key_expr p).
Proof.
  intros Hf [= Hb <-]. apply pub_build_inv in Hb as (e & Hq & Hk & _). cbn [pb_entity pb_format] in *.
  destruct (override_qos_spec qos (new_entity n c KPublisher name (Some ti))) as (Hn & Ht & Hi).
  apply qualify_topic_full in Hq as ->; [|by rewrite Ht].
  eexists. split; [|split; [|split; [|exact Hk]]]; cbn in *; congruence.
Qed.
Lemma make_callback_sub_key n name ti qos c s c' :
  full_name name -> make_callback_sub endpoint_gid n name ti qos c = (Ok s, c') ->
  endpoint_key n name ti (sub_key_expr s) /\ sub_handler s = HCallback.
Proof.
  intros Hf [= Hb <-]. apply sub_build_internal_inv in Hb as (e & Hq & Hk & Hh & _). cbn [sb_entity sb_format] in *.
  destruct (override_qos_spec qos (new_entity n c KSubscription name (Some ti))) as (Hn & Ht & Hi).
  apply qualify_topic_full in Hq as ->; [|by rewrite Ht].
  split; [|done]. eexists. split; [|split; [|split; [|exact Hk]]]; cbn in *; congruence.
Qed.

(** The names of the five are full. *)
Lemma qualified_action_name_full n a name s :
  qualified_action_name n a = Ok name -> s <> "" -> ends_with_char "/" s = false -> full_name (name ++ s).
Proof.
  unfold qualified_action_name. intros Hq Hs He. case_match; [done|].
  destruct (qualify_topic_name _ _ _) as [t|e|] eqn:E; try done. cbn in Hq. simplify_eq.
  apply qualify_topic_name_inv in E as (_ & _ & Hst). split.
  - by destruct name.
  - by rewrite ends_with_char_app.
Qed.

(** What a client and a server have of the same action. *)
Definition meets (c : ActionClientParts) (s : ActionServerParts) : Prop :=
  cl_key_expr (ac_goal_client c) = srv_key_expr (as_goal_server s) /\
  cl_key_expr (ac_result_client c) = srv_key_expr (as_result_server s) /\
  cl_key_expr (ac_cancel_client c) = srv_key_expr (as_cancel_server s) /\
  sub_key_expr (ac_feedback_sub c) = pub_key_expr (as_feedback_pub s) /\
  sub_key_expr (ac_status_sub c) = pub_key_expr (as_status_pub s).
Ltac full_name_tac := eapply qualified_action_name_full; [eassumption|done|done].
Ltac binds H := repeat (apply CM_bind_inv in H as (? & ? & ? & H)).

(** ** Properties *)

(** C18 An action client meets the server of its action: when the names, remapped
    and qualified on the one node and on the other, are the same, in one domain,
    with one key expression format and the type information of one action, then
    the client's three services and two subscriptions declare the key
    expressions of the server's, whatever their QoS, and the subscriptions call
    the client back. *)
Theorem action_client_meets_server A bc bs cc cc' cs cs' c s :
  action_client_build endpoint_gid A bc cc = (Ok c, cc') ->
  action_server_build endpoint_gid A bs cs = (Ok s, cs') ->
  domain_id (nd_entity (acb_node bc)) = domain_id (nd_entity (asb_node bs)) ->
  nd_format (acb_node bc) = nd_format (asb_node bs) ->
  qualified_action_name (acb_node bc) (acb_action_name bc) =
    qualified_action_name (asb_node bs) (asb_action_name bs) ->
  meets c s /\ sub_handler (ac_feedback_sub c) = HCallback /\ sub_handler (ac_status_sub c) = HCallback.
Proof.
  intros Hc Hs Hd Hf Hn. unfold action_client_build, action_server_build in *. binds Hc. binds Hs.
  injection Hc as <- <-. injection Hs as <- <-. unfold lift_res in *. rewrite Hn in *. simplify_eq.
  match goal with H1 : qualified_action_name _ _ = Ok ?x, H2 : qualified_action_name _ _ = Ok ?y |- _ =>
    assert (x = y) as -> by congruence end.
  repeat match goal with
  | H : make_client _ _ (?q ++ ?s) _ _ _ = _ |- _ => apply make_client_key in H; [|full_name_tac]
  | H : make_server _ _ (?q ++ ?s) _ _ _ = _ |- _ => apply make_server_key in H; [|full_name_tac]
  | H : make_pub _ _ (?q ++ ?s) _ _ _ = _ |- _ => apply make_pub_key in H; [|full_name_tac]
  | H : make_callback_sub _ _ (?q ++ ?s) _ _ _ = _ |- _ =>
      apply make_callback_sub_key in H as [H ?]; [|full_name_tac]
  end.
  split; [|done]. unfold meets. cbn.
  repeat split; (eapply endpoint_key_unique; [exact Hd|exact Hf|eassumption|eassumption]).
Qed.
End Meet.

(** ** A concrete action: a client that remaps its name, and a server *)

#[local] Existing Instance ex_zenoh.
#[local] Existing Instance ex_zext.
#[local] Instance ex_action_pubsub : PubSubApi := {|
  Locality := unit; declare_publisher _ _ _ := Ok tt; declare_subscriber _ _ := Ok tt |}.
Definition ex_action_gid (_ : EndpointEntity) : GidArray := replicate 16 x07.
Definition ex_action : ZAction := ZAction_provided "pkg/action/Count".
Definition ex_action_client : ZActionClientBuilder :=
  create_action_client (mkZNode (mkNode 0 42%N 1 "asker" "/ns" "") 42%N {["counting" := "/ns/count"]} None FRmwZenoh None)
    "counting".
Definition ex_action_server : ZActionServerBuilder :=
  create_action_server (mkZNode (mkNode 0 43%N 4 "counter" "/ns" "") 43%N ∅ None FRmwZenoh None) "count".

Lemma action_client_meets_server_witness :
  match action_client_build ex_action_gid ex_action ex_action_client 2,
    action_server_build ex_action_gid ex_action ex_action_server 5 with
  | (Ok c, _), (Ok s, _) => meets c s /\ cl_key_expr (ac_goal_client c) =
      "0/ns/count/_action/send_goal/pkg/action/Count/_action/SendGoal/RIHS01_0000000000000000000000000000000000000000000000000000000000000000"
  | _, _ => False
  end.
Proof.
  destruct (action_client_build _ _ ex_action_client _) as [[c|e|] cc'] eqn:Hc; [|vm_compute in Hc; discriminate..].
  destruct (action_server_build _ _ ex_action_server _) as [[s|e|] cs'] eqn:Hs; [|vm_compute in Hs; discriminate..].
  split.
  - apply (action_client_meets_server ex_action_gid _ _ _ _ _ _ _ c s Hc Hs); reflexivity.
  - vm_compute in Hc. injection Hc as <- _. reflexivity.
Defined.
