(* ===== verification/NodeProps.v ===== *)
(** * Nodes: identifiers, tokens and dynamic topics end to end

    Every entity a context creates takes a fresh number of its counter, so that
    the liveliness tokens it declares differ; and a dynamic publisher on a node
    with a type description service is found by another node, whose subscription
    gets the publisher's schema and key expression. *)
From stdpp Require Import gmap strings.
From S2P Require Import Prelude CdrBuffer Utf8 RustStr RustColl TopicName CdrPrimitives CdrSpec CdrSerializer CdrDeserializer Queue Attachment ProfileQos Qos Entity SchemaModel RmwZenoh Ros2Dds MsgSerdes Service DescriptionWire Graph DynTypes DynCdr TypeDescription DescriptionRoundtrip DescriptionService DynSerdes DynErase PubSub TopicNet Node.
Open Scope list_scope.

(** ** Definitions *)

Definition entity_id `{ZenohApi} (e : Entity) : Z :=
  match e with ENode n => node_id n | EEndpoint e => ep_id e end.

Section Tokens.
Context `{ZL : ZenohLaws} `{ZExt : ZExtApi} `{Chan : ChannelApi} `{Sess : SessionApi} `{PS : PubSubApi}.
Context `{HA : HashApi} `{HX : HexApi}.
Context {ReqM : ZMessage GetTypeDescriptionRequest} {RspM : ZMessage GetTypeDescriptionResponse}.
Context (endpoint_gid : EndpointEntity -> GidArray).

(** The liveliness token that the building of an entity declares. *)
Record Declared := mkDeclared { dc_entity : Entity; dc_format : KeyExprFormat; dc_token : string }.
Definition declares (e : Entity) (f : KeyExprFormat) (ke : string) : Prop :=
  match e with
  | ENode n => f = KeyExprFormat_default /\ node_lv_token_key_expr n = Ok ke
  | EEndpoint e => exists zid, format_liveliness_key_expr f e zid = Ok ke
  end.

(** The counter of a context and the tokens declared by what it created. A node
    brings the endpoint of its type description service, if it has one, which is
    always built with the default format; the options of a builder keep the
    identifier and the format of its endpoint. *)
Inductive ctx_step : Z * list Declared -> Z * list Declared -> Prop :=
| step_node c es b n c' ke :
    node_build endpoint_gid b c = (Ok n, c') -> nb_enable_type_desc_service b = false ->
    declares (ENode (nd_entity n)) FRmwZenoh ke ->
    ctx_step (c, es) (c', mkDeclared (ENode (nd_entity n)) FRmwZenoh ke :: es)
| step_node_service c es b n c' e e' ke ke' :
    node_build endpoint_gid b c = (Ok n, c') -> nb_enable_type_desc_service b = true ->
    tds_entity (E := ZError) (nb_name b) (nb_namespace b) (nb_zid b) c (increment c).2 = Ok e ->
    qualify_entity e = Ok e' ->
    declares (ENode (nd_entity n)) FRmwZenoh ke -> declares (EEndpoint e') FRmwZenoh ke' ->
    ctx_step (c, es)
      (c', mkDeclared (EEndpoint e') FRmwZenoh ke' :: mkDeclared (ENode (nd_entity n)) FRmwZenoh ke :: es)
| step_pub c es n topic ti b b' c' zid p ke :
    create_pub_impl n c topic ti = (b, c') -> ep_id (pb_entity b') = ep_id (pb_entity b) ->
    pb_format b' = pb_format b -> pub_build endpoint_gid b' zid = Ok p ->
    format_liveliness_key_expr (pb_format b') (pub_entity p) zid = Ok ke ->
    ctx_step (c, es) (c', mkDeclared (EEndpoint (pub_entity p)) (nd_format n) ke :: es)
| step_sub c es n topic ti b b' c' zid h s ke :
    create_sub_impl n c topic ti = (b, c') -> ep_id (sb_entity b') = ep_id (sb_entity b) ->
    sb_format b' = sb_format b -> sub_build_internal endpoint_gid b' zid h = Ok s ->
    format_liveliness_key_expr (sb_format b') (sub_entity s) zid = Ok ke ->
    ctx_step (c, es) (c', mkDeclared (EEndpoint (sub_entity s)) (nd_format n) ke :: es)
| step_service c es n topic ti b c' e e' zid ke :
    create_service_impl n c topic ti = (b, c') -> ep_id e = ep_id b.1 -> qualify_entity e = Ok e' ->
    format_liveliness_key_expr b.2 e' zid = Ok ke ->
    ctx_step (c, es) (c', mkDeclared (EEndpoint e') (nd_format n) ke :: es)
| step_client c es n topic ti b c' e e' zid ke :
    create_client_impl n c topic ti = (b, c') -> ep_id e = ep_id b.1 -> qualify_entity e = Ok e' ->
    format_liveliness_key_expr b.2 e' zid = Ok ke ->
    ctx_step (c, es) (c', mkDeclared (EEndpoint e') (nd_format n) ke :: es)
| step_failed c es :
    ctx_step (c, es) ((increment c).2, es).
Inductive ctx_run : nat -> Z * list Declared -> Prop :=
| ctx_start : ctx_run 0 (0%Z, [])
| ctx_more k st st' : ctx_run k st -> ctx_step st st' -> ctx_run (S k) st'.
Definition declared_id (d : Declared) : Z := entity_id (dc_entity d).

(** ** Lemmas *)

(** The fifth chunk of a token is the identifier of its entity. *)
Lemma token_chunk a b z d e rest :
  contains_char "/" z = false -> Forall (fun x => contains_char "/" x = false) [a; b; d; e] ->
  split_on "/" (a ++ String "/" (b ++ String "/" (z ++ String "/" (d ++ String "/" (e ++ String "/" rest)))))%string !! 4%nat
    = Some e.
Proof.
  intros Hz Hs. repeat (apply Forall_cons in Hs as [? Hs]).
  by rewrite !split_on_app.
Qed.

Lemma token_first a rest : contains_char "/" a = false -> split_on "/" (a ++ String "/" rest)%string !! 0%nat = Some a.
Proof. intros Ha. by rewrite split_on_app. Qed.

Lemma rmw_token e ke :
  declares e FRmwZenoh ke -> split_on "/" ke !! 4%nat = Some (Z_dec (entity_id e)) /\ split_on "/" ke !! 0%nat = Some RmwZenoh.ADMIN_SPACE.
Proof.
  destruct e as [n|e].
  - intros [_ ->%try_into_keyexpr_inv]. split; [|by apply token_first]. apply token_chunk;
      first [apply zid_fmt_no_slash | repeat (apply List.Forall_cons; [first [done | by apply Z_dec_contains]|]); constructor].
  - intros [zid ->%try_into_keyexpr_inv]. split; [|by apply token_first]. apply token_chunk;
      first [apply zid_fmt_no_slash | repeat (apply List.Forall_cons; [first [done | by apply Z_dec_contains]|]); constructor].
Qed.

(** A token of the other format starts with another chunk. *)
Lemma dds_token e ke : declares e FRos2Dds ke -> split_on "/" ke !! 0%nat = Some "@"%string.
Proof. destruct e as [n|e]; [by intros [? _]|]. by intros [zid ->%try_into_keyexpr_inv]. Qed.

(** Identifiers stay below the counter and apart while it does not wrap. *)
Definition ctx_inv (st : Z * list Declared) : Prop :=
  (0 <= st.1)%Z /\ Forall (fun d => (0 <= declared_id d < st.1)%Z /\ declares (dc_entity d) (dc_format d) (dc_token d)) st.2 /\
  NoDup (map declared_id st.2).

Lemma increment_small c : (0 <= c < 2 ^ 64 - 1)%Z -> increment c = (c, c + 1)%Z.
Proof. intros Hc. unfold increment, wrap_u. by rewrite Z.mod_small by lia. Qed.

Lemma ctx_inv_add c c' es d :
  ctx_inv (c, es) -> (c <= declared_id d < c')%Z -> declares (dc_entity d) (dc_format d) (dc_token d) ->
  ctx_inv (c', d :: es).
Proof.
  intros (H0 & Hf & Hn) He Hd. cbn [fst snd] in *. split; [cbn; lia|]. split; cbn.
  - constructor; [split; [lia|done]|]. eapply Forall_impl; [exact Hf|]. intros x [Hx ?]. split; [lia|done].
  - constructor; [|done]. intros Hin. apply list_elem_of_fmap in Hin as (x & Hx & Hin).
    rewrite Forall_forall in Hf. destruct (Hf x Hin) as [Hr _]. cbn in Hr. lia.
Qed.
Lemma ctx_inv_weaken c c' es : (c <= c')%Z -> ctx_inv (c, es) -> ctx_inv (c', es).
Proof.
  intros Hc (H0 & Hf & Hn). cbn [fst snd] in *. split; [cbn; lia|]. split; [|done]. cbn.
  eapply Forall_impl; [exact Hf|]. intros x [Hx ?]. split; [lia|done].
Qed.

(** The builders keep the identifier of their endpoint. *)
Lemma qualify_topic_id e e' : qualify_topic e = Ok e' -> ep_id e' = ep_id e.
Proof. unfold qualify_topic. intros Hx. res_inv. done. Qed.
Lemma qualify_entity_id e e' : qualify_entity e = Ok e' -> ep_id e' = ep_id e.
Proof. unfold qualify_entity. intros Hx. res_inv. done. Qed.
Lemma pub_build_id b zid p : pub_build endpoint_gid b zid = Ok p -> ep_id (pub_entity p) = ep_id (pb_entity b).
Proof. unfold pub_build. intros Hx. res_inv. cbn. by apply qualify_topic_id. Qed.
Lemma sub_build_id b zid h s :
  sub_build_internal endpoint_gid b zid h = Ok s -> ep_id (sub_entity s) = ep_id (sb_entity b).
Proof. unfold sub_build_internal. intros Hx. res_inv. cbn. by apply qualify_topic_id. Qed.

(** What [node_build] makes of the counter. *)
Lemma node_build_counter b c n c' :
  (0 <= c < 2 ^ 64 - 2)%Z -> node_build endpoint_gid b c = (Ok n, c') ->
  node_id (nd_entity n) = c /\ c' = (if nb_enable_type_desc_service b then c + 2 else c + 1)%Z.
Proof.
  intros Hc. unfold node_build. rewrite increment_small by lia.
  destruct (mbind _ _) as [[]|e|]; [|done..]. destruct (nb_enable_type_desc_service b).
  - rewrite increment_small by lia. intros [= Hx <-]. res_inv. cbn. split; [done|lia].
  - intros [= <- <-]. done.
Qed.

(** Every endpoint a step adds took its identifier from the counter. *)
Lemma ctx_inv_endpoint c es e f zid ke :
  (0 <= c < 2 ^ 64 - 2)%Z -> ctx_inv (c, es) -> ep_id e = c -> format_liveliness_key_expr f e zid = Ok ke ->
  ctx_inv ((c + 1)%Z, mkDeclared (EEndpoint e) f ke :: es) /\ (c + 1 <= c + 2)%Z.
Proof.
  intros Hc Hi He Hk. split; [|lia]. apply (ctx_inv_add c); [done|unfold declared_id; cbn; lia|by exists zid].
Qed.

Lemma ctx_step_inv st st' :
  (st.1 < 2 ^ 64 - 2)%Z -> ctx_inv st -> ctx_step st st' -> ctx_inv st' /\ (st'.1 <= st.1 + 2)%Z.
Proof.
  intros Hc Hi Hs. destruct Hs; cbn [fst snd] in *; pose proof Hi as (Hpos & _); cbn [fst snd] in Hpos.
  1, 2: match goal with H : node_build _ _ _ = _ |- _ => apply node_build_counter in H as [Hid ->]; [|lia] end;
    match goal with H : nb_enable_type_desc_service _ = _ |- _ => rewrite H in * end.
  - split; [|lia]. apply (ctx_inv_add c); [done| |done]. unfold declared_id. cbn. lia.
  - assert (ep_id e' = c + 1)%Z as He.
    { match goal with H : qualify_entity _ = _ |- _ => apply qualify_entity_id in H as -> end.
      unfold tds_entity in *. rewrite increment_small in * by lia. res_inv. done. }
    split; [|lia]. apply (ctx_inv_add (c + 1)); [apply (ctx_inv_add c); [done| |done]| |done]; unfold declared_id; cbn; lia.
  - unfold create_pub_impl in *. rewrite increment_small in * by lia. simplify_eq. cbn in *.
    match goal with H : pb_format _ = _ |- _ => rewrite H in * end.
    eapply ctx_inv_endpoint; [lia|done| |done].
    match goal with H : pub_build _ _ _ = _ |- _ => apply pub_build_id in H as -> end. done.
  - unfold create_sub_impl in *. rewrite increment_small in * by lia. simplify_eq. cbn in *.
    match goal with H : sb_format _ = _ |- _ => rewrite H in * end.
    eapply ctx_inv_endpoint; [lia|done| |done].
    match goal with H : sub_build_internal _ _ _ _ = _ |- _ => apply sub_build_id in H as -> end. done.
  - unfold create_service_impl in *. rewrite increment_small in * by lia. simplify_eq. cbn in *.
    eapply ctx_inv_endpoint; [lia|done| |done].
    match goal with H : qualify_entity _ = _ |- _ => apply qualify_entity_id in H as -> end. done.
  - unfold create_client_impl in *. rewrite increment_small in * by lia. simplify_eq. cbn in *.
    eapply ctx_inv_endpoint; [lia|done| |done].
    match goal with H : qualify_entity _ = _ |- _ => apply qualify_entity_id in H as -> end. done.
  - rewrite increment_small by lia. cbn. split; [by eapply ctx_inv_weaken; [|done]; lia|lia].
Qed.

Lemma ctx_run_inv k st : ctx_run k st -> (Z.of_nat k < 2 ^ 63)%Z -> ctx_inv st /\ (st.1 <= 2 * Z.of_nat k)%Z.
Proof.
  induction 1 as [|k st st' _ IH Hs]; intros Hk.
  { split; [|done]. split; [done|]. split; constructor. }
  destruct IH as [Hi Hc]; [lia|]. destruct (ctx_step_inv st st') as [? ?]; [lia|done|done|]. split; [done|lia].
Qed.

(** ** Properties *)

(** C19 Tokens are unique: among what a context creates in fewer than [2^63]
    steps, in any order and with failures in between, no two entities have the
    same identifier; and no two liveliness tokens that were declared are the same
    unless both belong to endpoints of the Ros2Dds format, whose tokens carry no
    entity identifier.  So in a context of the rmw_zenoh format every entity has
    a token of its own. *)
Theorem tokens_distinct k c es :
  ctx_run k (c, es) -> (Z.of_nat k < 2 ^ 63)%Z ->
  NoDup (map declared_id es) /\
  (forall i j d d', es !! i = Some d -> es !! j = Some d' -> dc_token d = dc_token d' ->
     i = j \/ dc_format d = FRos2Dds /\ dc_format d' = FRos2Dds) /\
  (Forall (fun d => dc_format d = FRmwZenoh) es -> NoDup (map dc_token es)).
Proof.
  intros Hr Hk. destruct (ctx_run_inv _ _ Hr Hk) as [(_ & Hf & Hn) Hc]. cbn [fst snd] in *.
  assert (forall n d, es !! n = Some d ->
    u_range 64 (declared_id d) /\ declares (dc_entity d) (dc_format d) (dc_token d)) as Hu.
  { intros n d Hd. rewrite Forall_forall in Hf. destruct (Hf d ltac:(by eapply list_elem_of_lookup_2)) as [Hx Hd'].
    split; [unfold u_range; lia|done]. }
  assert (forall i j d d', es !! i = Some d -> es !! j = Some d' -> dc_token d = dc_token d' ->
    i = j \/ dc_format d = FRos2Dds /\ dc_format d' = FRos2Dds) as Ht.
  { intros i j [e f ke] [e' f' ke'] Hi Hj. cbn. intros <-.
    destruct (Hu i _ Hi) as [U D], (Hu j _ Hj) as [U' D']. unfold declared_id in U, U'. cbn in U, D, U', D'. destruct f, f'.
    2, 3: exfalso; apply rmw_token in D as [_ D] || apply rmw_token in D' as [_ D'];
      apply dds_token in D' || apply dds_token in D; rewrite D in D'; discriminate D'.
    2: by right.
    left. apply rmw_token in D as [D _], D' as [D' _]. rewrite D in D'.
    assert (entity_id e = entity_id e') as Hid by (apply Z_dec_inj; [done..|congruence]).
    apply (NoDup_lookup _ i j (entity_id e) Hn); rewrite list_lookup_fmap; [by rewrite Hi|by rewrite Hj, Hid]. }
  split; [done|]. split; [done|]. intros Hz. apply NoDup_alt. intros i j ke Hi Hj.
  apply list_lookup_fmap_Some in Hi as (d & -> & Hi), Hj as (d' & Hke & Hj).
  destruct (Ht i j d d' Hi Hj Hke) as [|[F _]]; [done|]. rewrite Forall_forall in Hz.
  rewrite (Hz d ltac:(by eapply list_elem_of_lookup_2)) in F. discriminate F.
Qed.
End Tokens.

Section EndToEnd.
Context `{HA : HashApi} `{HXL : HexLaws}.
Context (json_total : forall v, exists j, serde_json_to_string v = Ok j).
Context (sha256_digest : forall j, Forall (u_range 8) (sha256 j) /\ length (sha256 j) = 32%nat).
Context `{ZA : ZenohApi} `{ZExtL : ZExtLaws} `{ChanL : ChannelLaws} `{Sess : SessionApi} `{PS : PubSubApi}.
Context {ReqM : ZMessage GetTypeDescriptionRequest} {RspM : ZMessage GetTypeDescriptionResponse}.
Context {ReqL : ZMessageLaws GetTypeDescriptionRequest} {RspL : ZMessageLaws GetTypeDescriptionResponse}.
Context (endpoint_gid : EndpointEntity -> GidArray) (zerror_fmt : ZError -> string) (cargo_pkg_version : string).
Context {ZBuf : Type} `{ZB : ZBufLaws ZBuf} `{DL : DynLayout}.
Context (debug_value : DynamicValue -> string) (debug_type : FieldType -> string) (size_of : nat).
Context (zbuf_from zbuf_from_shm : list byte -> ZBuf).
Context (zbuf_from_contents : forall bs, zbuf_contiguous (zbuf_from bs) = bs).
Context (zbuf_from_shm_contents : forall bs, zbuf_contiguous (zbuf_from_shm bs) = bs).

(** A node with the service, just built. *)
Lemma node_build_service nb c n c' :
  node_build endpoint_gid nb c = (Ok n, c') -> nb_enable_type_desc_service nb = true ->
  exists id server, tds_new endpoint_gid (nb_name nb) (nb_namespace nb) (nb_zid nb) c id = Ok (mkSchemas ∅ false, server) /\
    nd_type_desc_service n = Some (mkSchemas ∅ false, server) /\ nd_format n = nb_format nb /\
    nd_entity n = NodeEntity_new (nb_domain_id nb) (nb_zid nb) c (nb_name nb) (nb_namespace nb) (nb_enclave nb).
Proof.
  unfold node_build, increment. intros Hb He. rewrite He in Hb.
  destruct (mbind _ _) as [[]|e|]; [|done..]. injection Hb as Hx _. res_inv.
  match goal with H : tds_new _ _ _ _ _ ?i = Ok ?r |- _ => exists i, r.2; pose proof H as Ht; unfold tds_new in H; res_inv end.
  done.
Qed.

(** The entity of a publisher is the builder's, with its topic qualified. *)
Lemma pub_build_entity b zid p :
  pub_build endpoint_gid b zid = Ok p -> pub_entity p = with_topic (pb_entity b) (ep_topic (pub_entity p)).
Proof.
  unfold pub_build. intros Hx. res_inv. cbn.
  match goal with H : qualify_topic _ = Ok _ |- _ => unfold qualify_topic in H; res_inv end. done.
Qed.

(** What [create_dyn_pub] does on it. *)
Lemma create_dyn_pub_inv n c topic s p n1 c' schemas server st1 :
  create_dyn_pub endpoint_gid n c topic s = Ok (p, n1, c') ->
  nd_type_desc_service n = Some (schemas, server) -> register_schema schemas s = Ok st1 ->
  exists ti b, nd_type_desc_service n1 = Some (st1, server) /\ dyn_type_info (E := ZError) s = Ok ti /\
    pub_build endpoint_gid b (nd_zid n) = Ok p /\ pb_format b = nd_format n /\
    pb_entity b = new_entity n (increment c).1 KPublisher topic ti.
Proof.
  unfold create_dyn_pub, register_dyn. intros Hx Hs Hr. rewrite Hs, Hr in Hx. cbn [mbind res_bind] in Hx.
  unfold create_pub_impl, increment, pub_with_dyn_schema in Hx. res_inv.
  match goal with H : dyn_type_info s = Ok ?t |- _ => exists t; unfold dyn_type_info in H; res_inv end.
  cbn in *. simplify_eq. eexists. by repeat split.
Qed.

(** ** Properties *)

(** The topic of a publisher of [s] and of a subscription that discovered [s]. *)
#[local] Instance discovered_serdes : ZSerializerApi ZBuf DynamicMessage :=
  DynamicCdrSerdes debug_value debug_type zbuf_from zbuf_from_shm size_of.
Definition discovered (s : MessageSchema) : TopicType ZBuf DynamicMessage DynamicMessage :=
  discovered_topic zbuf_from zbuf_from_shm zbuf_from_contents zbuf_from_shm_contents debug_value debug_type size_of s.

(** C5 A dynamic topic end to end: a node with a type description service makes a
    dynamic publisher of a schema [s], and another node of the domain that has the
    publisher first in its graph makes a subscription by discovery. The discovery
    succeeds with [s] (up to default values and hashes), and the subscription, if the
    session declares it, has that schema and the key expression of the publisher; and
    in every run of publications of messages of [s], deliveries, losses and receives
    it receives a subsequence of the published messages in their order, each in its
    normal form over that schema, and when nothing is lost all of them.  The schema
    must be one that a description carries (elements of arrays and sequences are no
    arrays, sequences or bounded strings, a bounded string has a positive bound, and
    every nested schema is named package/kind/Name), with one definition for each name
    of a nested schema, and its own name of the form [pkg/msg/Name] whose parts have no
    slash or colon and whose last does not end with an underscore; the publishing
    node's name and namespace are valid, both nodes have one format and domain and
    name the topic alike, a client of the service is created and its answer is in
    time, and request and response are within the limits of the wire format. *)
Theorem dynamic_topic_end_to_end nb c0 n0 c1 c2 topic s p n1 c3 n' c' topic' pkg name rest ids nows late client :
  node_build endpoint_gid nb c0 = (Ok n0, c1) -> nb_enable_type_desc_service nb = true ->
  create_dyn_pub endpoint_gid n0 c2 topic s = Ok (p, n1, c3) ->
  nd_format n' = nb_format nb -> domain_id (nd_entity n') = nb_domain_id nb ->
  qualify_topic_name topic' (node_namespace (nd_entity n')) (node_name (nd_entity n')) =
    qualify_topic_name topic (nb_namespace nb) (nb_name nb) ->
  namespace_form (nb_namespace nb) -> namespace_ok (nb_namespace nb) = true ->
  is_valid_topic_component (nb_name nb) = true ->
  schema_describable s -> coherent (schema_nested s) -> type_name s = (pkg ++ "/msg/" ++ name)%string ->
  contains_char "/" pkg = false -> contains_char ":" pkg = false ->
  contains_char "/" name = false -> contains_char ":" name = false ->
  name = ""%string \/ ends_with_char "_" name = false ->
  create_client endpoint_gid zerror_fmt (description_service_name (nb_name nb) (nb_namespace nb)) "" (nd_zid n')
    (ids 0%nat) = Ok client ->
  (forall h st1 server, compute_type_hash s = Ok h -> nd_type_desc_service n1 = Some (st1, server) ->
     let request := mkRequest (type_name s) (schema_to_rihs_string h) false in
     msg_ok request /\
     forall response, build_response (E := ZError) cargo_pkg_version st1 request = Ok response -> msg_ok response) ->
  late 0%nat = false ->
  exists st1 server b,
    nd_type_desc_service n1 = Some (st1, server) /\
    create_dyn_sub_auto endpoint_gid zerror_fmt (service_net cargo_pkg_version st1 server) ids nows late
      (fun _ => EEndpoint (pub_entity p) :: rest) n' c' topic' =
      (s' ← sub_build endpoint_gid b (nd_zid n'); Ok (s', erase s, (increment c').2)) /\
    forall s', sub_build endpoint_gid b (nd_zid n') = Ok s' ->
      sub_key_expr s' = pub_key_expr p /\ sub_dyn_schema s' = Some (erase s) /\
      forall ops, Forall (op_ok (TT := discovered s)) ops ->
        let st := run_topic (TT := discovered s) (topic_new p s') ops in
        let published := map (fun m => norm_message (erase s) (erase_message m)) (tn_sent st) in
        sublist (tn_received st) published /\
        (lossless (TT := discovered s) (topic_new p s') ops = true ->
           exists rest, published = tn_received st ++ rest /\
             Forall2 (fun sample m => dyn_decode (erase s) (ts_payload sample) = Ok m)
               (sub_data (tn_sub st) ++ tn_flight st) rest) /\
        dyn_recv (tn_sub st) = recv_by (TT := discovered s) Waiting (tn_sub st).
Proof.
  intros Hnb He Hp Hf Hdom Hq Hform Hns Hnode Hdesc Hco Hn Hps Hpc Hcs Hcc Hu Hcl Hok Hlate.
  destruct (node_build_service _ _ _ _ Hnb He) as (id & server & Htds & Hsvc & Hfmt & Hent).
  destruct (description_roundtrip_ok s Hdesc Hco) as (msg & Hmsg & _).
  destruct (compute_type_hash_ok json_total sha256_digest s msg Hmsg) as (h & Hh & Hb & Hl).
  set (st1 := mkSchemas (<[type_name s := mkRegistered s (schema_to_rihs_string h) None]> ∅) false).
  assert (register_schema (mkSchemas ∅ false) s = Ok st1) as Hreg
    by (unfold register_schema, RegisteredSchema_new; by rewrite Hh).
  destruct (create_dyn_pub_inv _ _ _ _ _ _ _ _ _ _ Hp Hsvc Hreg) as (ti & bp & Hsvc1 & Hti & Hpb & Hbf & Hbe).
  destruct (dyn_type_info_agrees (E := ZError) s h Hh Hb Hl) as [Hw _].
  assert (ti = Some (mkTypeInfo (dds_type_name (type_name s)) (mkHash 1 h))) as ->.
  { unfold dyn_type_info in Hti. unfold with_dyn_schema in Hw. res_inv. congruence. }
  pose proof (pub_build_entity _ _ _ Hpb) as Hpe. rewrite Hbe in Hpe.
  destruct (discovery_ok json_total sha256_digest endpoint_gid zerror_fmt cargo_pkg_version (nb_name nb) (nb_namespace nb)
    (nb_zid nb) c0 id (mkSchemas ∅ false) server (mkSchemas ∅ false) st1 s pkg name (pub_entity p) rest topic'
    (nd_zid n') ids nows late client) as (h' & Hh' & Hd); try done.
  { rewrite Hpe. cbn. by rewrite Hent. }
  { rewrite Hpe. cbn. by rewrite Hent. }
  { rewrite Hpe. apply (dyn_type_info_agrees s h Hh Hb Hl). }
  { intros h1 Hh1. by apply (Hok h1 st1 server). }
  assert (h' = h) as -> by congruence.
  set (ti := mkTypeInfo (dds_type_name (type_name s)) (mkHash 1 h)) in *.
  set (bs := mkSubBuilder (new_entity n' (increment c').1 KSubscription topic' (Some ti)) (nd_format n') (Some (erase s)) None).
  exists st1, server, bs. split; [done|]. split.
  - unfold create_dyn_sub_auto. rewrite Hd. cbn [map_err mbind res_bind]. rewrite erase_name.
    destruct (schema_hash_text h Hb Hl) as [_ ->]. unfold sub_with_dyn_schema, with_dyn_schema. cbn.
    done.
  - intros s' Hs'.
    assert (same_topic (pb_entity bp) (sb_entity bs)) as Hsame
      by (rewrite Hbe; unfold same_topic; cbn; rewrite Hent; cbn; by rewrite Hdom, Hq).
    assert (pb_format bp = sb_format bs) as Hfb by (cbn; congruence).
    assert (sub_dyn_schema s' = Some (erase s)) as Hsch
      by (unfold sub_build in Hs'; by apply sub_build_internal_inv in Hs' as (? & _ & _ & _ & ->)).
    split; [symmetry; by eapply (publisher_reaches_subscription endpoint_gid)|]. split; [done|].
    intros ops Hops st published.
    destruct (topic_run_delivers (TT := discovered s) p s' ops) as (Hsub & _ & Hall); [by eapply topic_inv_new|done|].
    split; [exact Hsub|]. split; [exact Hall|]. unfold dyn_recv, with_schema, st.
    rewrite run_topic_schema. cbn [tn_sub topic_new]. by rewrite Hsch.
Qed.
End EndToEnd.

(** ** A concrete context: a talker that announces its schema, and a listener *)

#[local] Existing Instance ex_pubsub.
#[local] Existing Instance ex_digest.
#[local] Existing Instance ex_hex.
#[local] Existing Instance ex_hex_laws.
#[local] Existing Instance ex_zenoh.
#[local] Existing Instance ex_request_message.
#[local] Existing Instance ex_response_message.
#[local] Existing Instance ex_request_laws.
#[local] Existing Instance ex_response_laws.
#[local] Existing Instance ex_layout.

Definition ok_or_else {E A} (d : A) (r : res E A) : A := match r with Ok a => a | _ => d end.
Definition ex_builder (service : bool) : ZNodeBuilder :=
  mkNodeBuilder 0 "talker" "/demo" "" 1%N ∅ None FRmwZenoh service.
Definition ex_talker_node (service : bool) : ZNode :=
  let b := ex_builder service in
  ok_or_else (mkZNode ex_node 1%N ∅ None FRmwZenoh None) (node_build ex_gid b 0).1.
Definition ex_pose_builder : ZPubBuilder :=
  mkPubBuilder (new_entity (ex_talker_node true) 2 KPublisher "pose"
    (Some (mkTypeInfo "a_msgs::msg::dds_::Pose_" (mkHash 1 (replicate 32 7%Z))))) true None FRmwZenoh (Some ex_pose).
Definition ex_pose_pub : ZPub := ok_or_else ex_pub (pub_build ex_gid ex_pose_builder 1%N).
Definition ex_announced : ZNode := set_service (ex_talker_node true) (Some (ex_registered, ex_description_server)).
Definition ex_listener_node : ZNode :=
  mkZNode (NodeEntity_new 0 2%N 4 "listener" "/demo" "") 2%N ∅ None FRmwZenoh None.
Definition ex_client : ZClient :=
  mkClient 1 (replicate 16 x00) ex_service_key (bounded 10) "/demo/talker/get_type_description".

(** A pose is published and delivered, and one more is published. *)
Definition ex_discovered : TopicType (list (list byte)) DynamicMessage DynamicMessage :=
  discovered (fun _ => "") (fun _ => "") 32 ex_zbuf_from ex_zbuf_from ex_zbuf_from_contents ex_zbuf_from_contents ex_pose.
Definition ex_pose_message (x : Z) : DynamicMessage :=
  mkMessage ex_pose [VlMessage (mkMessage ex_point [VlFloat64 x; VlFloat64 0])].
Definition ex_pose_ops : list (TopicOp (Input := DynamicMessage)) :=
  [TPublish None (ex_pose_message 5); TDeliver; TRecv Waiting; TPublish None (ex_pose_message 6)].

Lemma dynamic_topic_end_to_end_witness :
  exists st1 server b,
    nd_type_desc_service ex_announced = Some (st1, server) /\
    create_dyn_sub_auto ex_gid ex_fmt (service_net "0.1.0" st1 server) (fun _ => (5, 6)%Z) (fun _ => None)
      (fun _ => false) (fun _ => [EEndpoint (pub_entity ex_pose_pub)]) ex_listener_node 7 "/demo/pose" =
      (s' ← sub_build ex_gid b (nd_zid ex_listener_node); Ok (s', erase ex_pose, (increment 7).2)) /\
    forall s', sub_build ex_gid b (nd_zid ex_listener_node) = Ok s' ->
      sub_key_expr s' = pub_key_expr ex_pose_pub /\ sub_dyn_schema s' = Some (erase ex_pose) /\
      forall ops, Forall (op_ok (TT := ex_discovered)) ops ->
        let st := run_topic (TT := ex_discovered) (topic_new ex_pose_pub s') ops in
        let published := map (fun m => norm_message (erase ex_pose) (erase_message m)) (tn_sent st) in
        sublist (tn_received st) published /\
        (lossless (TT := ex_discovered) (topic_new ex_pose_pub s') ops = true ->
           exists rest, published = tn_received st ++ rest /\
             Forall2 (fun sample m => dyn_decode (erase ex_pose) (ts_payload sample) = Ok m)
               (sub_data (tn_sub st) ++ tn_flight st) rest) /\
        dyn_recv (tn_sub st) = recv_by (TT := ex_discovered) Waiting (tn_sub st).
Proof.
  eapply (dynamic_topic_end_to_end ltac:(by eexists) ltac:(by intros; split; [apply Forall_replicate|]) ex_gid ex_fmt "0.1.0"
    (fun _ => "") (fun _ => "") 32 ex_zbuf_from ex_zbuf_from ex_zbuf_from_contents ex_zbuf_from_contents
    (ex_builder true) 0 (ex_talker_node true) 2 2 "pose" ex_pose ex_pose_pub ex_announced 3 ex_listener_node 7 "/demo/pose"
    "a_msgs" "Pose" [] (fun _ => (5, 6)%Z) (fun _ => None) (fun _ => false) ex_client); try reflexivity.
  - right. right. split; [reflexivity|discriminate].
  - cbn. split_and!; try done; by eexists.
  - intros a b Ha Hb _. cbn in Ha, Hb. apply list_elem_of_singleton in Ha as ->.
    by apply list_elem_of_singleton in Hb as ->.
  - by right.
  - intros h st1 server Hh Hs. vm_compute in Hh. injection Hh as <-. injection Hs as <- <-. split.
    + cbn. unfold u_range. repeat split; by vm_compute.
    + intros response Hr. vm_compute in Hr. injection Hr as <-. cbn. unfold u_range, MAX_SEQUENCE_LENGTH.
      repeat split; try lia; by vm_compute.
Defined.

Example ex_pose_delivered :
  match create_dyn_sub_auto ex_gid ex_fmt (service_net "0.1.0" ex_registered ex_description_server) (fun _ => (5, 6)%Z)
      (fun _ => None) (fun _ => false) (fun _ => [EEndpoint (pub_entity ex_pose_pub)]) ex_listener_node 7 "/demo/pose" with
  | Ok (s', _, _) =>
      let st := run_topic (TT := ex_discovered) (topic_new ex_pose_pub s') ex_pose_ops in
      lossless (TT := ex_discovered) (topic_new ex_pose_pub s') ex_pose_ops = true /\
      tn_received st = [norm_message (erase ex_pose) (erase_message (ex_pose_message 5))] /\ length (tn_flight st) = 1%nat
  | _ => False
  end.
Proof. vm_compute. done. Qed.

(** A node without the service and a publisher of it. *)
Definition ex_plain_pub : ZPub :=
  ok_or_else ex_pub (pub_build ex_gid (create_pub_impl (ex_talker_node false) 1 "chatter" None).1 1%N).
Definition ex_plain : list Declared :=
  [mkDeclared (EEndpoint (pub_entity ex_plain_pub)) FRmwZenoh
     (ok_or_else "" (format_liveliness_key_expr FRmwZenoh (pub_entity ex_plain_pub) 1%N));
   mkDeclared (ENode (nd_entity (ex_talker_node false))) FRmwZenoh
     (ok_or_else "" (node_lv_token_key_expr (nd_entity (ex_talker_node false))))].
Lemma tokens_distinct_witness : NoDup (map declared_id ex_plain) /\ NoDup (map dc_token ex_plain).
Proof.
  destruct (tokens_distinct (ZL := ex_zenoh_laws) ex_gid 2 2%Z ex_plain) as (H1 & _ & H2); [|lia|].
  - eapply ctx_more; [eapply ctx_more; [apply ctx_start|]|].
    + eapply (step_node ex_gid 0 [] (ex_builder false)); [reflexivity..|by split].
    + eapply (step_pub ex_gid 1 _ (ex_talker_node false) "chatter" None _ _ 2 1%N); reflexivity.
  - split; [exact H1|]. apply H2. repeat constructor.
Defined.

(** Two publishers of one topic, type and QoS in a context of the Ros2Dds format
    declare one token. *)
Lemma ros2dds_tokens_collide :
  let b id := mkPubBuilder (new_entity (ex_talker_node false) id KPublisher "chatter" None) true None FRos2Dds None in
  match pub_build ex_gid (b 1%Z) 1%N, pub_build ex_gid (b 2%Z) 1%N with
  | Ok p, Ok p' => ep_id (pub_entity p) <> ep_id (pub_entity p') /\
      is_ok (format_liveliness_key_expr FRos2Dds (pub_entity p) 1%N) = true /\
      format_liveliness_key_expr FRos2Dds (pub_entity p) 1%N = format_liveliness_key_expr FRos2Dds (pub_entity p') 1%N
  | _, _ => False
  end.
Proof. vm_compute. split; [discriminate|done]. Qed.
