(* ===== verification/RmwPubSub.v ===== *)
(** * Publishers and subscriptions of the RMW layer
    (crates/rmw-zenoh-rs/src/pubsub.rs, rmw.rs, msg.rs, type_support.rs)

    C messages behind their type support, publishing, the forms of taking with
    what they write through their pointers, and the reported QoS.  The generated C++
    code of a message ([TypeSupport]) is a parameter; a pointer that may be null is
    an option, and of a handle and its data either being null is [None].  The
    theorem: what a sequence of takes leaves. *)
From stdpp Require Import gmap strings.
From S2P Require Import Prelude CdrBuffer RustStr CdrPrimitives Queue Attachment Qos ProfileQos Entity Events RmwZenoh Ros2Dds MsgSerdes SchemaModel Service DescriptionWire DynTypes PubSub Node TopicNet RmwQos RmwCallbacks.
Open Scope list_scope.

(** ** Definitions *)

(** The return codes of src/bindings.rs. *)
Inductive rmw_ret_t :=
| RMW_RET_OK | RMW_RET_ERROR | RMW_RET_TIMEOUT | RMW_RET_UNSUPPORTED | RMW_RET_BAD_ALLOC | RMW_RET_INVALID_ARGUMENT
| RMW_RET_ALREADY_INIT | RMW_RET_INCORRECT_RMW_IMPLEMENTATION | RMW_RET_NODE_NAME_NON_EXISTENT.

(** The type support of a message in memory: its size, the calls that fill a
    buffer and a message, which say whether they succeeded, its names and its hash. *)
Record TypeSupport (CMessage : Type) := mkTypeSupport {
  cpp_serialized_size : CMessage -> nat;
  cpp_serialize : CMessage -> list byte -> bool * list byte;
  cpp_deserialize : list byte -> CMessage -> bool * CMessage;
  cpp_message_name : string;
  cpp_message_namespace : string;
  cpp_type_hash : TypeHash;
}.
Arguments mkTypeSupport {CMessage} _ _ _ _ _ _.
Arguments cpp_message_name {CMessage} _.
Arguments cpp_message_namespace {CMessage} _.
Arguments cpp_type_hash {CMessage} _.
Arguments cpp_serialized_size {CMessage} _ _.
Arguments cpp_serialize {CMessage} _ _ _.
Arguments cpp_deserialize {CMessage} _ _ _.

(** The sequences of [rmw_take_sequence]. *)
Record Sequence (T : Type) := mkSequence { seq_data : list T; seq_size : nat; seq_capacity : nat }.
Arguments mkSequence {T} _ _ _.
Arguments seq_data {T} _.
Arguments seq_size {T} _.
Arguments seq_capacity {T} _.

Section RmwPubSub.
Context `{ZA : ZenohApi} `{ZExt : ZExtApi} `{Chan : ChannelApi} `{Sess : SessionApi} `{PS : PubSubApi}.
Context `{HA : HashApi} `{HX : HexApi}.
Context {ReqM : ZMessage GetTypeDescriptionRequest} {RspM : ZMessage GetTypeDescriptionResponse}.
Context {CMessage ZBuf : Type} `{ZB : ZBufApi ZBuf} (zbuf_from zbuf_from_shm : list byte -> ZBuf).
Context (endpoint_gid : EndpointEntity -> GidArray).
#[local] Abbreviation TS := (TypeSupport CMessage).

(** *** Messages *)

(** [MessageTypeSupport::serialize_message] and [deserialize_message]. *)
Definition serialize_message (ts : TS) (m : CMessage) : list byte :=
  let size := cpp_serialized_size ts m in
  let buffer_size := Nat.max (size + 256) 512 in
  match cpp_serialize ts m (replicate buffer_size x00) with
  | (true, out) => out
  | (false, _) => []
  end.
Definition deserialize_message (ts : TS) (data : list byte) (m : CMessage) : bool * CMessage :=
  cpp_deserialize ts data m.

(** [get_type_prefix], [get_ros_type_name] and [get_type_info]. *)
Definition get_type_prefix (ts : TS) : string :=
  let ns := if String.eqb (cpp_message_namespace ts) "" then ""%string else (cpp_message_namespace ts ++ "::")%string in
  (ns ++ "dds_::" ++ cpp_message_name ts ++ "_")%string.
Definition get_ros_type_name (ts : TS) : string :=
  let name := cpp_message_name ts in
  let clean_name := default name (strip_suffix_char "_" name) in
  if String.eqb (cpp_message_namespace ts) "" then clean_name
  else (replace "::" "/" (cpp_message_namespace ts) ++ "/" ++ clean_name)%string.
Definition get_type_info (ts : TS) : TypeInfo := TypeInfo_new (get_ros_type_name ts) (cpp_type_hash ts).

(** [RosMessage] and [RosSerdes]. *)
Record RosMessage := mkRosMessage { rm_msg : CMessage; rm_ts : TS }.
Definition ros_serialize_to_shm (alloc : nat -> res string (list byte)) (input : RosMessage) (_estimated_size : nat)
    : res string (ZBuf * nat) :=
  let data := serialize_message (rm_ts input) (rm_msg input) in
  let actual_size := length data in
  block ← map_err (fun e => "SHM allocation failed: " ++ e)%string (alloc actual_size);
  if (length block <? actual_size)%nat then Panic
  else Ok (zbuf_from_shm (data ++ drop actual_size block), actual_size).
Definition RosSerdes (size_of : nat) : ZSerializerApi ZBuf RosMessage := {|
  ser_to_zbuf m := Some (zbuf_from (serialize_message (rm_ts m) (rm_msg m)));
  ser_to_shm := ros_serialize_to_shm;
  ser_estimate _ := estimated_serialized_size size_of;
|}.

(** *** Endpoints *)

(** [PublisherImpl] and [SubscriptionImpl], without the graph and the wait sets'
    notifier, which the context shares. *)
Record PublisherImpl := mkPublisherImpl {
  pi_inner : ZPub;
  pi_ts : TS;
  pi_topic : string;
  pi_qos : rmw_qos_profile_t;
  pi_entity : EndpointEntity;
}.
Record SubscriptionImpl := mkSubscriptionImpl {
  si_inner : ZSub;
  si_ts : TS;
  si_topic : string;
  si_qos : rmw_qos_profile_t;
  si_cells : Cells;
  si_entity : EndpointEntity;
}.
Definition pi_set_inner (p : PublisherImpl) (inner : ZPub) : PublisherImpl :=
  mkPublisherImpl inner (pi_ts p) (pi_topic p) (pi_qos p) (pi_entity p).
Definition si_set_inner (s : SubscriptionImpl) (inner : ZSub) : SubscriptionImpl :=
  mkSubscriptionImpl inner (si_ts s) (si_topic s) (si_qos s) (si_cells s) (si_entity s).
Definition impl_publish (size_of : nat) (p : PublisherImpl) (now : option Z) (msg : CMessage)
    : res ZError TopicSample * PublisherImpl :=
  let '(r, inner) := publish (H0 := RosSerdes size_of) (pi_inner p) now (mkRosMessage msg (pi_ts p)) in
  (r, pi_set_inner p inner).
Definition impl_publish_serialized_message (p : PublisherImpl) (now : option Z) (msg : list byte)
    : TopicSample * PublisherImpl :=
  let '(sample, inner) := publish_serialized (pi_inner p) now msg in (sample, pi_set_inner p inner).

(** **** Taking *)

(** What arrives: the sample goes to the queue, then the notifier and the
    callback hear of it. *)
Definition impl_on_sample (s : SubscriptionImpl) (sample : TopicSample) : SubscriptionImpl :=
  let '(effects, inner) := on_sample (si_inner s) sample in
  let cells := match effects with [] => si_cells s | _ => on_arrival (si_cells s) end in
  mkSubscriptionImpl inner (si_ts s) (si_topic s) (si_qos s) cells (si_entity s).
Definition subscription_is_ready (s : SubscriptionImpl) : bool := is_ready (si_inner s).

(** [rmw_message_info_t]; [now] is the clock's reading in nanoseconds. *)
Record MessageInfo := mkMessageInfo {
  mi_source_timestamp : Z;
  mi_received_timestamp : Z;
  mi_publication_sequence_number : Z;
  mi_reception_sequence_number : Z;
  mi_publisher_gid : GidArray;
  mi_from_intra_process : bool;
}.
Definition try_take (s : SubscriptionImpl) : res ZError (option TopicSample) * SubscriptionImpl :=
  match sub_queue (si_inner s) with
  | None => (Err (Message "Subscriber was built with callback, no queue available"), s)
  | Some queue =>
      match queue_try_recv queue with
      | (Some sample, queue) => (Ok (Some sample), si_set_inner s (sub_set_queue (si_inner s) queue))
      | (None, _) => (Ok None, s)
      end
  end.

(** [take]: [*taken] and the message. *)
Definition take (s : SubscriptionImpl) (ros_message : CMessage) : res ZError (bool * CMessage) * SubscriptionImpl :=
  let '(r, s) := try_take s in
  (o ← r;
   Ok (match o with
       | Some sample => (true, (deserialize_message (si_ts s) (ts_payload sample) ros_message).2)
       | None => (false, ros_message)
       end), s).
Definition source_timestamp_of (att : option (list byte)) : Z :=
  match att with
  | Some bytes => match Attachment_try_from bytes with Some a => source_timestamp a | None => 0 end
  | None => 0
  end.
Definition info_of (sample : TopicSample) (now : option Z) : MessageInfo :=
  mkMessageInfo (source_timestamp_of (ts_attachment sample)) (wrap_i 64 (default 0%Z now)) 0 0 (replicate 16 x00) false.
Definition take_with_info (s : SubscriptionImpl) (ros_message : CMessage) (message_info : option MessageInfo)
    (now : option Z) : res ZError (bool * CMessage * option MessageInfo) * SubscriptionImpl :=
  let '(r, s) := try_take s in
  (o ← r;
   Ok (match o with
       | Some sample => (true, (deserialize_message (si_ts s) (ts_payload sample) ros_message).2,
                         match message_info with Some _ => Some (info_of sample now) | None => None end)
       | None => (false, ros_message, message_info)
       end), s).

(** [rcl_serialized_message_t]: the buffer is as long as its capacity. *)
Record SerializedMessage := mkSerialized { sm_buffer : list byte; sm_length : nat }.
Definition fill (m : SerializedMessage) (bytes : list byte) : SerializedMessage :=
  let buffer := if (length (sm_buffer m) <? length bytes)%nat then replicate (length bytes) x00 else sm_buffer m in
  mkSerialized (bytes ++ drop (length bytes) buffer) (length bytes).
Definition take_serialized (s : SubscriptionImpl) (serialized_message : SerializedMessage)
    (message_info : option MessageInfo)
    : res ZError (bool * SerializedMessage * option MessageInfo) * SubscriptionImpl :=
  let '(r, s) := try_take s in
  (o ← r;
   Ok (match o with
       | Some sample => (true, fill serialized_message (ts_payload sample),
                         match message_info with
                         | Some _ => Some (mkMessageInfo 0 0 0 0 (replicate 16 x00) false)
                         | None => None
                         end)
       | None => (false, serialized_message, message_info)
       end), s).

(** [rmw_take_sequence], on a subscription and pointers that are not null: the
    sequences hold [capacity] messages and infos in memory, [taken] is [*taken] before. *)
Fixpoint take_loop (fuel taken : nat) (nows : nat -> option Z) (s : SubscriptionImpl)
    (msgs : list CMessage) (infos : list MessageInfo)
    : res ZError (nat * list CMessage * list MessageInfo) * SubscriptionImpl :=
  match fuel with
  | 0%nat => (Ok (taken, msgs, infos), s)
  | S fuel =>
      match msgs !! taken, infos !! taken with
      | Some msg, Some info =>
          match take_with_info s msg (Some info) (nows taken) with
          | (Ok (true, msg, Some info), s) =>
              take_loop fuel (S taken) nows s (<[taken := msg]> msgs) (<[taken := info]> infos)
          | (_, s) => (Ok (taken, msgs, infos), s)
          end
      | _, _ => (Panic, s)
      end
  end.
Definition rmw_take_sequence (s : SubscriptionImpl) (count taken : nat) (nows : nat -> option Z)
    (message_sequence : Sequence CMessage) (message_info_sequence : Sequence MessageInfo)
    : res ZError (rmw_ret_t * nat * Sequence CMessage * Sequence MessageInfo) * SubscriptionImpl :=
  if (count =? 0)%nat || (seq_capacity message_sequence <? count)%nat || (seq_capacity message_info_sequence <? count)%nat
  then (Ok (RMW_RET_INVALID_ARGUMENT, taken, message_sequence, message_info_sequence), s)
  else
    let '(r, s) := take_loop count 0 nows s (seq_data message_sequence) (seq_data message_info_sequence) in
    ('(taken, msgs, infos) ← r;
     Ok (RMW_RET_OK, taken, mkSequence msgs taken (seq_capacity message_sequence),
         mkSequence infos taken (seq_capacity message_info_sequence)), s).

(** *** The C functions

    A handle or an argument that is null is [None]; a result that is written
    through a pointer is an option that stays [None] when the pointer is null. *)
Definition RMW_RET {A} (r : res ZError A) : res ZError rmw_ret_t :=
  match r with Ok _ => Ok RMW_RET_OK | Err _ => Ok RMW_RET_ERROR | Panic => Panic end.
Definition rmw_publish (size_of : nat) (publisher : option PublisherImpl) (ros_message : option CMessage)
    (now : option Z) : res ZError (rmw_ret_t * option TopicSample) * option PublisherImpl :=
  match publisher, ros_message with
  | Some p, Some msg =>
      let '(r, p) := impl_publish size_of p now msg in
      (match r with
       | Ok sample => Ok (RMW_RET_OK, Some sample)
       | Err _ => Ok (RMW_RET_ERROR, None)
       | Panic => Panic
       end, Some p)
  | _, _ => (Ok (RMW_RET_INVALID_ARGUMENT, None), publisher)
  end.
Definition rmw_publish_serialized_message (publisher : option PublisherImpl)
    (serialized_message : option SerializedMessage) (now : option Z)
    : rmw_ret_t * option TopicSample * option PublisherImpl :=
  match publisher, serialized_message with
  | Some p, Some m =>
      let '(sample, p) := impl_publish_serialized_message p now (firstn (sm_length m) (sm_buffer m)) in
      (RMW_RET_OK, Some sample, Some p)
  | _, _ => (RMW_RET_INVALID_ARGUMENT, None, publisher)
  end.
Definition rmw_take (subscription : option SubscriptionImpl) (ros_message : option CMessage) (taken : option bool)
    : res ZError (rmw_ret_t * option CMessage * option bool) * option SubscriptionImpl :=
  match subscription, ros_message, taken with
  | Some s, Some msg, Some _ =>
      let '(r, s) := take s msg in
      (match r with
       | Ok (taken, msg) => Ok (RMW_RET_OK, Some msg, Some taken)
       | Err _ => Ok (RMW_RET_ERROR, Some msg, Some false)
       | Panic => Panic
       end, Some s)
  | _, _, _ => (Ok (RMW_RET_INVALID_ARGUMENT, ros_message, taken), subscription)
  end.
Definition rmw_take_with_info (subscription : option SubscriptionImpl) (ros_message : option CMessage)
    (taken : option bool) (message_info : option MessageInfo) (now : option Z)
    : res ZError (rmw_ret_t * option CMessage * option bool * option MessageInfo) * option SubscriptionImpl :=
  match subscription, ros_message, taken, message_info with
  | Some s, Some msg, Some _, Some _ =>
      let '(r, s) := take_with_info s msg message_info now in
      (match r with
       | Ok (taken, msg, info) => Ok (RMW_RET_OK, Some msg, Some taken, info)
       | Err _ => Ok (RMW_RET_ERROR, Some msg, Some false, message_info)
       | Panic => Panic
       end, Some s)
  | _, _, _, _ => (Ok (RMW_RET_INVALID_ARGUMENT, ros_message, taken, message_info), subscription)
  end.
(** Without and with a [message_info]. *)
Definition rmw_take_serialized_message_with_info (subscription : option SubscriptionImpl)
    (serialized_message : option SerializedMessage) (taken : option bool) (message_info : option MessageInfo)
    : res ZError (rmw_ret_t * option SerializedMessage * option bool * option MessageInfo) * option SubscriptionImpl :=
  match subscription, serialized_message, taken with
  | Some s, Some m, Some _ =>
      let '(r, s) := take_serialized s m message_info in
      (match r with
       | Ok (taken, m, info) => Ok (RMW_RET_OK, Some m, Some taken, info)
       | Err _ => Ok (RMW_RET_ERROR, Some m, Some false, message_info)
       | Panic => Panic
       end, Some s)
  | _, _, _ => (Ok (RMW_RET_INVALID_ARGUMENT, serialized_message, taken, message_info), subscription)
  end.

(** [rmw_serialize] and [rmw_deserialize], with a type support that was found. *)
Definition rmw_serialize (ros_message : CMessage) (ts : TS) (serialized_message : SerializedMessage) : SerializedMessage :=
  fill serialized_message (serialize_message ts ros_message).
Definition rmw_deserialize (serialized_message : SerializedMessage) (ts : TS) (ros_message : CMessage)
    : rmw_ret_t * CMessage :=
  let '(ok, msg) := deserialize_message ts (firstn (sm_length serialized_message) (sm_buffer serialized_message)) ros_message in
  (if ok then RMW_RET_OK else RMW_RET_ERROR, msg).

(** [rmw_publisher_get_actual_qos] and [rmw_subscription_get_actual_qos]. *)
Definition RMW_DURATION_INFINITE_SEC : Z := 2147483647.
Definition actual_duration (d : Duration) : Duration :=
  if (sec d =? 0)%Z && (nsec d =? 0)%Z then mkDuration RMW_DURATION_INFINITE_SEC 0 else d.
Definition actual_qos (qos : rmw_qos_profile_t) : rmw_qos_profile_t :=
  mkRmw (rmw_history qos) (rmw_depth qos) (rmw_reliability qos) (rmw_durability qos)
    (actual_duration (rmw_deadline qos)) (actual_duration (rmw_lifespan qos))
    (if (rmw_liveliness qos =? 0)%Z || (rmw_liveliness qos =? 4)%Z then LIVELINESS_AUTOMATIC else rmw_liveliness qos)
    (actual_duration (rmw_lease qos)) (avoid_ros_namespace_conventions qos).
Definition publisher_get_actual_qos (p : PublisherImpl) : rmw_qos_profile_t := actual_qos (pi_qos p).
Definition subscription_get_actual_qos (s : SubscriptionImpl) : rmw_qos_profile_t := actual_qos (si_qos s).

(** ** Lemmas *)

(** What [n] takes leave. *)
Definition queued (s : SubscriptionImpl) : option (list TopicSample) := data <$> sub_queue (si_inner s).
Definition deserialized (s : SubscriptionImpl) (msg : CMessage) (sample : TopicSample) : CMessage :=
  (deserialize_message (si_ts s) (ts_payload sample) msg).2.

Lemma take_with_info_spec s msg info now q :
  queued s = Some q ->
  exists s', take_with_info s msg (Some info) now =
    (Ok (match q with
         | [] => (false, msg, Some info)
         | sample :: _ => (true, deserialized s msg sample, Some (info_of sample now))
         end), s') /\ queued s' = Some (tail q) /\ si_ts s' = si_ts s.
Proof.
  unfold queued, take_with_info, try_take, deserialized. destruct s as [inner ts topic qos cells entity]. cbn [si_inner si_ts].
  destruct inner as [ent key loc handler events schema]. unfold sub_queue. cbn [sub_handler].
  destruct handler as [queue| |queue]; cbn; [|done|]; intros [= <-].
  all: destruct queue as [l cap]; unfold queue_try_recv, pop_front; cbn; destruct l as [|x l]; cbn.
  all: eexists; split; [reflexivity|]; done.
Qed.

Lemma take_loop_spec nows fuel : forall taken s msgs infos q,
  queued s = Some q -> (taken + fuel <= length msgs)%nat -> length infos = length msgs ->
  let n := Nat.min fuel (length q) in
  exists s' msgs' infos',
    take_loop fuel taken nows s msgs infos = (Ok ((taken + n)%nat, msgs', infos'), s') /\
    queued s' = Some (drop n q) /\ length msgs' = length msgs /\ length infos' = length msgs /\
    (forall i, (i < taken \/ taken + n <= i)%nat -> msgs' !! i = msgs !! i /\ infos' !! i = infos !! i) /\
    (forall i sample, (i < n)%nat -> q !! i = Some sample ->
       msgs' !! (taken + i)%nat = (fun m => deserialized s m sample) <$> msgs !! (taken + i)%nat /\
       infos' !! (taken + i)%nat = Some (info_of sample (nows (taken + i)%nat))).
Proof.
  induction fuel as [|fuel IH]; intros taken s msgs infos q Hq Hlen Hil.
  - exists s, msgs, infos. rewrite Nat.add_0_r. split_and!; try done. intros; lia.
  - cbn [take_loop].
    destruct (lookup_lt_is_Some_2 msgs taken) as [msg Hm]; [lia|].
    destruct (lookup_lt_is_Some_2 infos taken) as [info Hi]; [lia|]. rewrite Hm, Hi.
    destruct (take_with_info_spec s msg info (nows taken) q Hq) as (s1 & -> & Hq1 & Hts).
    destruct q as [|sample q].
    + exists s1, msgs, infos. cbn [length Nat.min]. rewrite Nat.add_0_r. by split_and!.
    + set (msgs1 := <[taken := deserialized s msg sample]> msgs).
      set (infos1 := <[taken := info_of sample (nows taken)]> infos).
      destruct (IH (S taken) s1 msgs1 infos1 q Hq1) as (s' & msgs' & infos' & Hrun & Hq' & Hl1 & Hl2 & Hout & Hin).
      { unfold msgs1. rewrite length_insert. lia. }
      { unfold infos1, msgs1. by rewrite !length_insert. }
      unfold msgs1 in Hl1, Hl2. rewrite length_insert in Hl1, Hl2.
      exists s', msgs', infos'. rewrite Hrun. cbn [length Nat.min].
      assert (S taken + Nat.min fuel (length q) = taken + S (Nat.min fuel (length q)))%nat as Hn by lia. rewrite Hn.
      split_and!; try done; [intros i Hi'; split|intros i sample0 Hi' Hs0; split].
      * destruct (Hout i) as [-> _]; [lia|]. unfold msgs1. by rewrite list_lookup_insert_ne by lia.
      * destruct (Hout i) as [_ ->]; [lia|]. unfold infos1. by rewrite list_lookup_insert_ne by lia.
      * destruct i as [|i]; cbn in Hs0.
        -- simplify_eq. rewrite Nat.add_0_r. destruct (Hout taken) as [-> _]; [lia|]. unfold msgs1.
           rewrite list_lookup_insert_eq, Hm by lia. done.
        -- rewrite <- Nat.add_succ_comm. destruct (Hin i sample0) as [-> _]; [lia|done|]. unfold msgs1, deserialized.
           rewrite list_lookup_insert_ne, Hts by lia. done.
      * destruct i as [|i]; cbn in Hs0.
        -- simplify_eq. rewrite Nat.add_0_r. destruct (Hout taken) as [_ ->]; [lia|]. unfold infos1.
           by rewrite list_lookup_insert_eq by lia.
        -- rewrite <- Nat.add_succ_comm. by destruct (Hin i sample0) as [_ ->]; [lia|done|].
Qed.

(** ** Properties *)

(** Taking a sequence: with sequences that have room, [rmw_take_sequence] takes
    the oldest messages, as many as were asked for or were there, each once and in
    order: message [i] of the sequence is the [i]-th sample decoded into what it
    held, with its info; the memory behind is as before, both sizes say how many,
    and the rest of the queue is what is left for the next call. *)
Theorem take_sequence_spec s q count taken nows msgs infos sz sz' :
  queued s = Some q -> (0 < count <= length msgs)%nat -> length infos = length msgs ->
  let n := Nat.min count (length q) in
  exists s' msgs' infos',
    rmw_take_sequence s count taken nows (mkSequence msgs sz (length msgs)) (mkSequence infos sz' (length msgs)) =
      (Ok (RMW_RET_OK, n, mkSequence msgs' n (length msgs), mkSequence infos' n (length msgs)), s') /\
    queued s' = Some (drop n q) /\ drop n msgs' = drop n msgs /\ drop n infos' = drop n infos /\
    (forall i sample, (i < n)%nat -> q !! i = Some sample ->
       msgs' !! i = (fun m => deserialized s m sample) <$> msgs !! i /\
       infos' !! i = Some (info_of sample (nows i))).
Proof.
  intros Hq Hc Hl n. destruct (take_loop_spec nows count 0 s msgs infos q Hq) as (s' & msgs' & infos' & Hrun & Hq' & H1 & H2 & Hout & Hin);
    [lia|done|]. exists s', msgs', infos'. unfold rmw_take_sequence. cbn [seq_capacity seq_data].
  rewrite (proj2 (Nat.eqb_neq count 0)), (proj2 (Nat.ltb_ge (length msgs) count)) by lia. cbn [orb]. rewrite Hrun.
  cbn [mbind res_bind]. rewrite Nat.add_0_l. fold n. split; [done|]. split; [done|]. split; [|split; [|exact Hin]].
  - apply list_eq. intros i. rewrite !lookup_drop. apply Hout. lia.
  - apply list_eq. intros i. rewrite !lookup_drop. apply Hout. lia.
Qed.
End RmwPubSub.

#[local] Existing Instance ex_zenoh.
#[local] Existing Instance ex_zext.
#[local] Existing Instance ex_pubsub.
(** Messages are their bytes; decoding fails on an empty buffer. *)
Definition ex_type_support : TypeSupport (list byte) :=
  mkTypeSupport (fun m => length m) (fun m buffer => (true, m ++ drop (length m) buffer))
    (fun bytes m => match bytes with [] => (false, m) | _ => (true, bytes) end) "String_" "std_msgs::msg" TypeHash_zero.
Definition ex_samples : list TopicSample :=
  [mkTopicSample "k" [x01] None; mkTopicSample "k" [] None; mkTopicSample "k" [x03] None].
Definition ex_subscription : SubscriptionImpl :=
  mkSubscriptionImpl (sub_set_queue ex_sub (mkQueue ex_samples 10)) ex_type_support "/chatter"
    (ros_z_qos_to_rmw_qos QosProfile_default) cells_new ex_listener.
Definition ex_info : MessageInfo := mkMessageInfo 0 0 0 0 [] false.

Lemma take_sequence_spec_witness :
  exists s' msgs' infos',
    rmw_take_sequence ex_subscription 2 7 (fun _ => Some 9%Z) (mkSequence [[]; [x07]; [x08]] 0 3)
      (mkSequence [ex_info; ex_info; ex_info] 0 3) =
      (Ok (RMW_RET_OK, 2%nat, mkSequence msgs' 2 3, mkSequence infos' 2 3), s') /\
    queued s' = Some [mkTopicSample "k" [x03] None] /\ drop 2 msgs' = [[x08]] /\
    msgs' !! 0%nat = Some [x01] /\ msgs' !! 1%nat = Some [x07].
Proof.
  destruct (take_sequence_spec ex_subscription ex_samples 2 7 (fun _ => Some 9%Z) [[]; [x07]; [x08]]
    [ex_info; ex_info; ex_info] 0 0) as (s' & msgs' & infos' & H1 & H2 & H3 & _ & H4).
  - reflexivity.
  - cbn; lia.
  - reflexivity.
  - exists s', msgs', infos'. split_and!; [exact H1|exact H2|exact H3|..].
    + by destruct (H4 0%nat (mkTopicSample "k" [x01] None)) as [-> _]; [cbn; lia|reflexivity|].
    + by destruct (H4 1%nat (mkTopicSample "k" [] None)) as [-> _]; [cbn; lia|reflexivity|].
Defined.
