(* ===== verification/RmwEndpoints.v ===== *)
(** * Creation, events and destruction of RMW endpoints
    (crates/rmw-zenoh-rs/src/rmw.rs, pubsub.rs)

    rmw_create_publisher and rmw_create_subscription with what they find in the
    graph, the matched counts, the reading of events through their C structs, and
    the destruction.  The two creations share [discover]; the numbers of the two
    closures that they register are arguments.  A topic name comes from a C string
    and holds no NUL, so the last CString::new of a creation does not fail. *)
From stdpp Require Import gmap strings.
From S2P Require Import Prelude CdrBuffer RustStr CdrPrimitives Attachment Qos ProfileQos Entity SchemaModel RmwZenoh Ros2Dds MsgSerdes Service DescriptionWire DynTypes Events Graph GraphInv GraphProps PubSub Node DescriptionService TopicNet NodeProps RmwQos RmwCallbacks RmwPubSub.
Open Scope list_scope.

(** ** Definitions *)

(** *** Events *)

Definition rmw_event_type_to_zenoh_event (rmw_event : Z) : option ZenohEventType :=
  match rmw_event with
  | 3 => Some RequestedQosIncompatible
  | 4 => Some MessageLost
  | 5 => Some SubscriptionIncompatibleType
  | 6 => Some SubscriptionMatched
  | 9 => Some OfferedQosIncompatible
  | 10 => Some PublisherIncompatibleType
  | 11 => Some PublicationMatched
  | _ => None
  end%Z.
Definition rmw_event_type_is_supported (event_type : Z) : bool :=
  match rmw_event_type_to_zenoh_event event_type with Some _ => true | None => false end.

(** [rmw_event_t], its data being the handle. *)
Record rmw_event_t := mkEvent { ev_data : option RmEventHandle; ev_type : Z }.
Definition is_publisher_event (e : ZenohEventType) : bool :=
  match e with
  | LivelinessLost | OfferedDeadlineMissed | OfferedQosIncompatible | PublisherIncompatibleType
  | PublicationMatched => true
  | _ => false
  end.
Definition is_subscription_event (e : ZenohEventType) : bool :=
  match e with
  | LivelinessChanged | RequestedDeadlineMissed | RequestedQosIncompatible | MessageLost
  | SubscriptionIncompatibleType | SubscriptionMatched => true
  | _ => false
  end.
(** [rmw_publisher_event_init] and [rmw_subscription_event_init], whose manager is
    the endpoint's; [None] is an argument that is null. *)
Definition event_init (mine : ZenohEventType -> bool) (rmw_event : option rmw_event_t) (endpoint : bool)
    (event_type : Z) : rmw_ret_t * option rmw_event_t :=
  match rmw_event with
  | Some ev =>
      if negb endpoint then (RMW_RET_INVALID_ARGUMENT, rmw_event) else
      match rmw_event_type_to_zenoh_event event_type with
      | None => (RMW_RET_UNSUPPORTED, rmw_event)
      | Some t => if mine t then (RMW_RET_OK, Some (mkEvent (Some (mkHandle t)) event_type))
                  else (RMW_RET_INVALID_ARGUMENT, rmw_event)
      end
  | None => (RMW_RET_INVALID_ARGUMENT, rmw_event)
  end.
Definition rmw_publisher_event_init := event_init is_publisher_event.
Definition rmw_subscription_event_init := event_init is_subscription_event.
Definition rmw_event_fini (event : option rmw_event_t) : rmw_ret_t * option rmw_event_t :=
  match event with
  | Some _ => (RMW_RET_OK, Some (mkEvent None 0))
  | None => (RMW_RET_INVALID_ARGUMENT, None)
  end.

(** What is written behind [event_info]. *)
Inductive EventInfo :=
| QosIncompatibleInfo (total_count total_count_change last_policy_kind : Z)
| MessageLostInfo (total_count total_count_change : Z)
| CountInfo (total_count total_count_change : Z)
| MatchedInfo (total_count total_count_change current_count current_count_change : Z)
| LivelinessInfo (alive_count alive_count_change not_alive_count not_alive_count_change : Z).
Definition as_usize (z : Z) : Z := wrap_u 64 z.
Definition event_info_of (e : ZenohEventType) (s : ZenohEventStatus) : EventInfo :=
  match e with
  | RequestedQosIncompatible | OfferedQosIncompatible =>
      QosIncompatibleInfo (total_count s) (total_count_change s) (last_policy_kind s)
  | MessageLost => MessageLostInfo (as_usize (total_count s)) (as_usize (total_count_change s))
  | SubscriptionMatched | PublicationMatched =>
      MatchedInfo (as_usize (total_count s)) (as_usize (total_count_change s)) (as_usize (current_count s))
        (current_count_change s)
  | LivelinessChanged => LivelinessInfo (current_count s) (current_count_change s) 0 0
  | _ => CountInfo (total_count s) (total_count_change s)
  end.
(** [rmw_take_event], with an [event_info] that is not null: the return code,
    [*taken] and what was written. The status is taken before the type is looked at. *)
Definition rmw_take_event {E} (events : EventsManager) (event : option rmw_event_t) (taken : option bool)
    : res E (rmw_ret_t * option bool * option EventInfo * EventsManager) :=
  match event with
  | Some (mkEvent (Some handle) event_type) =>
      '(events, status) ← take_event events handle;
      match rmw_event_type_to_zenoh_event event_type with
      | None => Ok (RMW_RET_UNSUPPORTED, (fun _ => false) <$> taken, None, events)
      | Some t => Ok (RMW_RET_OK, (fun _ => true) <$> taken, Some (event_info_of t status), events)
      end
  | _ => Ok (RMW_RET_INVALID_ARGUMENT, taken, None, events)
  end.

Section RmwEndpoints.
Context `{ZA : ZenohApi} `{ZExt : ZExtApi} `{Chan : ChannelApi} `{Sess : SessionApi} `{PS : PubSubApi}.
Context `{SL : SlabApi} `{HO : HashOrder} `{HA : HashApi} `{HX : HexApi} `{ZD : !EqDecision ZenohId}.
Context {ReqM : ZMessage GetTypeDescriptionRequest} {RspM : ZMessage GetTypeDescriptionResponse}.
Context {CMessage : Type} (parser : string -> option Entity) (endpoint_gid : EndpointEntity -> GidArray).
(** [Locality::Remote] of zenoh. *)
Context (locality_remote : Locality).
#[local] Abbreviation TS := (TypeSupport CMessage).
#[local] Abbreviation PublisherImpl := (PublisherImpl (CMessage := CMessage)).
#[local] Abbreviation SubscriptionImpl := (SubscriptionImpl (CMessage := CMessage)).
(** *** Matched counts *)

(** The end of the borrow of the entities that a query returned. *)
Definition drop_arcs (d : GraphData) (l : list nat) : GraphData := foldl arc_drop d l.
Definition set_graph_data (g : Graph) (d : GraphData) : Graph := mkGraph d (event_manager g) (graph_zid g).
Definition endpoint_rmw_qos (e : EndpointEntity) : rmw_qos_profile_t :=
  ros_z_qos_to_rmw_qos (protocol_qos_to_ros_z_qos (ep_qos e)).

(** [rmw_publisher_count_matched_subscriptions] and
    [rmw_subscription_count_matched_publishers]. *)
Definition count_matched {E} (g : Graph) (kind : EntityKind) (topic : string)
    (compatible : rmw_qos_profile_t -> bool) : res E (Graph * nat) :=
  '(d, l) ← get_entities_by_topic parser (data g) kind topic;
  let n := length (List.filter (fun e => compatible (endpoint_rmw_qos e)) (endpoints d l)) in
  Ok (set_graph_data g (drop_arcs d l), n).
Definition publisher_count_matched_subscriptions {E} (g : Graph) (p : PublisherImpl) : res E (Graph * nat) :=
  count_matched g KSubscription (pi_topic p) (fun sub_qos => qos_profiles_are_compatible (pi_qos p) sub_qos).
Definition subscription_count_matched_publishers {E} (g : Graph) (s : SubscriptionImpl) : res E (Graph * nat) :=
  count_matched g KPublisher (si_topic s) (fun pub_qos => qos_profiles_are_compatible pub_qos (si_qos s)).

(** *** What a new endpoint finds *)

(** The loop over the endpoints of the other kind. *)
Record Scan := mkScan {
  checked_gids : gset (list Z);
  incompatible_count : Z;
  scan_policy_kind : Z;
  scan_notices : list Notice;
}.
Definition scan_new : Scan := mkScan ∅ 0 0 [].
Section Loop.
Context (m : GraphEventManager) (local_zid : ZenohId) (other_event : ZenohEventType)
  (check : rmw_qos_profile_t -> res ZError (bool * Z)).
Definition scan_one (s : Scan) (endpoint : EndpointEntity) : res ZError Scan :=
  let gid := gid_numbers (endpoint_gid endpoint) in
  if decide (gid ∈ checked_gids s) then Ok s else
  let s := mkScan ({[gid]} ∪ checked_gids s) (incompatible_count s) (scan_policy_kind s) (scan_notices s) in
  if bool_decide (z_id (ep_node endpoint) = local_zid) then
    '(compatible, policy_kind) ← check (endpoint_rmw_qos endpoint);
    if (compatible : bool) then Ok s else
    count ← add_i32 (incompatible_count s) 1;
    Ok (mkScan (checked_gids s) count policy_kind
          (scan_notices s ++ trigger_event_with_policy m gid other_event 1 policy_kind))
  else Ok s.
Fixpoint scan_all (s : Scan) (l : list EndpointEntity) : res ZError Scan :=
  match l with
  | [] => Ok s
  | endpoint :: l => s ← scan_one s endpoint; scan_all s l
  end.
End Loop.

(** The part that the two creations share, from the registration of the event
    callbacks [matched_cb] and [incompatible_cb], the graph's numbers for the two
    closures: the matched count, then the incompatible endpoints. [events] is the
    manager of the endpoint, and what was called and whether the wait sets were
    notified come with the result. *)
Record Discovery := mkDiscovery {
  ds_graph : Graph;
  ds_events : EventsManager;
  ds_arcs : list nat;
  ds_notices : list Notice;
  ds_calls : list Call;
  ds_notified : bool;
}.
Definition discover (g : Graph) (entity : EndpointEntity) (events : EventsManager) (other : EntityKind)
    (matched incompatible other_incompatible : ZenohEventType) (matched_cb incompatible_cb : Callback)
    (check : rmw_qos_profile_t -> res ZError (bool * Z)) : res ZError Discovery :=
  let gid := gid_numbers (endpoint_gid entity) in
  let m := register_event_callback (event_manager g) gid matched matched_cb in
  let m := register_event_callback m gid incompatible incompatible_cb in
  '(d, matching) ← count parser (data g) other (ep_topic entity);
  '(events, calls) ← (if (0 <? matching)%nat
                      then update_event_status events matched (wrap_i 32 (Z.of_nat matching))
                      else Ok (events, []));
  '(d, l) ← get_entities_by_topic parser d other (ep_topic entity);
  s ← scan_all m (graph_zid g) other_incompatible check scan_new (endpoints d l);
  '(events, calls') ← (if (0 <? incompatible_count s)%Z
                       then update_event_status_with_policy events incompatible (incompatible_count s) (scan_policy_kind s)
                       else Ok (events, []));
  Ok (mkDiscovery (mkGraph d m (graph_zid g)) events l (scan_notices s) (calls ++ calls')
        ((0 <? matching)%nat || (0 <? incompatible_count s)%Z)).

(** *** Creation and destruction *)

(** What the functions leave: the impl behind the handle ([None] for a null
    handle), the graph, what the graph and the endpoint's manager called, and
    whether the wait sets were notified. *)
Record Created (A : Type) := mkCreated {
  cr_impl : option A;
  cr_graph : Graph;
  cr_notices : list Notice;
  cr_calls : list Call;
  cr_notified : bool;
}.
Arguments mkCreated {A} _ _ _ _ _.
Definition not_created {A} (g : Graph) : res ZError (Created A) := Ok (mkCreated None g [] [] false).

(** The end of both creations: the local entity, whose failure is logged, then
    the entities that the query returned are dropped. *)
Definition announce {A} (ds : Discovery) (entity : EndpointEntity) (impl : A) : res ZError (Created A) :=
  let done g notices :=
    Ok (mkCreated (Some impl) (set_graph_data g (drop_arcs (data g) (ds_arcs ds))) (ds_notices ds ++ notices)
          (ds_calls ds) (ds_notified ds)) in
  match add_local_entity (ds_graph ds) (EEndpoint entity) with
  | Ok (g, notices) => done g notices
  | Err _ => done (ds_graph ds) []
  | Panic => Panic
  end.
Definition ros_message_type_info : TypeInfo := TypeInfo_new "rcl_z::RosMessage" TypeHash_zero.
Definition set_pub_events (p : ZPub) (events : EventsManager) : ZPub :=
  mkPub (pub_entity p) (pub_sn p) (pub_gid p) (pub_key_expr p) (pub_congestion p) (pub_express p)
    (pub_with_attachment p) events (pub_shm_config p) (pub_dyn_schema p).
Definition set_sub_events (s : ZSub) (events : EventsManager) : ZSub :=
  mkSub (sub_entity s) (sub_key_expr s) (sub_locality s) (sub_handler s) events (sub_dyn_schema s).
Definition pub_with_type_info (b : ZPubBuilder) (type_info : TypeInfo) : ZPubBuilder :=
  mkPubBuilder (set_type_info (pb_entity b) (Some type_info)) (pb_with_attachment b) (pb_shm_config b)
    (pb_format b) (pb_dyn_schema b).
Definition sub_with_type_info (b : ZSubBuilder) (type_info : TypeInfo) : ZSubBuilder :=
  mkSubBuilder (set_type_info (sb_entity b) (Some type_info)) (sb_format b) (sb_dyn_schema b) (sb_locality b).

(** [rmw_create_publisher]; [ts] is [None] when the type support is not found. The
    counter of the context comes with the result. *)
Definition rmw_create_publisher (overflow_checks : bool) (g : Graph) (node : ZNode) (counter : Z)
    (ts : option TS) (topic_name : string) (qos_profile : rmw_qos_profile_t) (matched_cb incompatible_cb : Callback)
    : res ZError (Created PublisherImpl) * Z :=
  match ts with
  | None => (not_created g, counter)
  | Some ts =>
      let '(b, counter) := create_pub ros_message_type_info node counter topic_name in
      let b := pub_with_type_info (pub_with_qos b (rmw_qos_to_ros_z_qos qos_profile)) (get_type_info ts) in
      (match pub_build endpoint_gid b (nd_zid node) with
       | Err _ => not_created g
       | Panic => Panic
       | Ok zpub =>
           let pub_qos := normalize_rmw_qos qos_profile in
           ds ← discover g (pub_entity zpub) (pub_events zpub) KSubscription PublicationMatched
             OfferedQosIncompatible RequestedQosIncompatible matched_cb incompatible_cb
             (fun sub_qos => check_qos_compatibility_with_policy overflow_checks pub_qos sub_qos);
           announce ds (pub_entity zpub)
             (mkPublisherImpl (set_pub_events zpub (ds_events ds)) ts (ep_topic (pub_entity zpub)) pub_qos (pub_entity zpub))
       end, counter)
  end.
(** [rmw_create_subscription]. *)
Definition rmw_create_subscription (overflow_checks : bool) (g : Graph) (node : ZNode) (counter : Z)
    (ts : option TS) (topic_name : string) (qos_policies : rmw_qos_profile_t) (ignore_local_publications : bool)
    (matched_cb incompatible_cb : Callback) : res ZError (Created SubscriptionImpl) * Z :=
  match ts with
  | None => (not_created g, counter)
  | Some ts =>
      let '(b, counter) := create_sub ros_message_type_info node counter topic_name in
      let b := sub_with_qos b (rmw_qos_to_ros_z_qos qos_policies) in
      let b := if ignore_local_publications then with_locality b locality_remote else b in
      let b := sub_with_type_info b (get_type_info ts) in
      (match sub_build_with_notifier endpoint_gid b (nd_zid node) with
       | Err _ => not_created g
       | Panic => Panic
       | Ok zsub =>
           let sub_qos := normalize_rmw_qos qos_policies in
           ds ← discover g (sub_entity zsub) (sub_events zsub) KPublisher SubscriptionMatched
             RequestedQosIncompatible OfferedQosIncompatible matched_cb incompatible_cb
             (fun pub_qos => check_qos_compatibility_with_policy overflow_checks pub_qos sub_qos);
           announce ds (sub_entity zsub)
             (mkSubscriptionImpl (set_sub_events zsub (ds_events ds)) ts topic_name sub_qos cells_new (sub_entity zsub))
       end, counter)
  end.

(** [rmw_destroy_publisher] and [rmw_destroy_subscription], with handles that are
    not null: a failure is logged. *)
Definition destroy_endpoint (g : Graph) (entity : EndpointEntity) : res ZError (Graph * list Notice) :=
  match remove_local_entity g (EEndpoint entity) with
  | Ok r => Ok r
  | Err _ => Ok (g, [])
  | Panic => Panic
  end.
Definition rmw_destroy_publisher (g : Graph) (p : PublisherImpl) := destroy_endpoint g (pi_entity p).
Definition rmw_destroy_subscription (g : Graph) (s : SubscriptionImpl) := destroy_endpoint g (si_entity s).
End RmwEndpoints.
Arguments mkCreated {ZA SL A} _ _ _ _ _.
Arguments cr_impl {ZA SL A} _.
Arguments cr_graph {ZA SL A} _.

(** ** Lemmas *)

Section Lemmas.
Context `{ZA : ZenohApi} {SL : SlabApi} {SLL : SlabLaws} {HO : HashOrder} {HOL : HashOrderLaws} {ZD : EqDecision ZenohId}.
Context (parser : string -> option Entity) (endpoint_gid : EndpointEntity -> GidArray).
#[local] Abbreviation gid x := (gid_numbers (endpoint_gid x)).

Lemma endpoints_omap d l : endpoints d l = omap entity_get_endpoint (omap (fun a => heap d !! a) l).
Proof.
  unfold endpoints. induction l as [|a l IH]; cbn; [done|]. rewrite IH. by destruct (heap d !! a) as [[]|].
Qed.

(** The endpoints that a query for a kind and a topic finds. *)
Lemma topic_endpoints {E} d kind t :
  graph_inv d -> no_stale d -> is_topic_kind kind = true ->
  let found := List.filter (on_topic kind t) (known (tokens parser d)) in
  exists d' d'' l,
    count (E := E) parser d kind t = Ok (d', length found) /\
    get_entities_by_topic (E := E) parser d' kind t = Ok (d'', l) /\
    endpoints d'' l ≡ₚ omap entity_get_endpoint found.
Proof.
  intros Hd Hns Hk found. destruct (visit_by_topic parser d t) as [d1 l1] eqn:E1.
  destruct (topic_query parser d kind t d1 l1 Hd E1 Hk Hns) as [_ Hl].
  destruct (visit_by_topic_ok parser d t d1 l1 Hd E1) as [(Hd1 & Ht1 & Hns1) _].
  destruct (visit_by_topic parser d1 t) as [d2 l2] eqn:E2.
  destruct (topic_query parser d1 kind t d2 l2 Hd1 E2 Hk (Hns1 Hns)) as [Hp _].
  exists d1, (hold d2 (of_kind d2 kind l2)), (of_kind d2 kind l2). rewrite Ht1 in Hp. split; [|split].
  - unfold found. rewrite <- Hl. destruct kind; try done; cbn [count]; by rewrite E1.
  - destruct kind; try done; cbn [get_entities_by_topic]; by rewrite E2.
  - rewrite endpoints_omap. apply omap_Permutation. exact Hp.
Qed.

(** *** The loop *)

Section Scan.
Context (m : GraphEventManager) (local_zid : ZenohId) (other_event : ZenohEventType)
  (check : rmw_qos_profile_t -> res ZError (bool * Z)) (f : rmw_qos_profile_t -> bool * Z).
Hypothesis check_f : forall x, check (endpoint_rmw_qos x) = Ok (f (endpoint_rmw_qos x)).
Definition incompatible_here (x : EndpointEntity) : bool :=
  bool_decide (z_id (ep_node x) = local_zid) && negb (f (endpoint_rmw_qos x)).1.
Definition policy_of (x : EndpointEntity) : Z := (f (endpoint_rmw_qos x)).2.
Definition other_notices (x : EndpointEntity) : list Notice :=
  trigger_event_with_policy m (gid x) other_event 1 (policy_of x).

Lemma scan_one_seen s x : gid x ∈ checked_gids s -> scan_one endpoint_gid m local_zid other_event check s x = Ok s.
Proof. intros H. unfold scan_one. by rewrite decide_True. Qed.
Lemma scan_one_new s x :
  gid x ∉ checked_gids s -> 0 <= incompatible_count s < 2 ^ 31 - 1 ->
  scan_one endpoint_gid m local_zid other_event check s x =
    Ok (if incompatible_here x
        then mkScan ({[gid x]} ∪ checked_gids s) (incompatible_count s + 1) (policy_of x) (scan_notices s ++ other_notices x)
        else mkScan ({[gid x]} ∪ checked_gids s) (incompatible_count s) (scan_policy_kind s) (scan_notices s)).
Proof.
  intros Hn Hc. unfold scan_one, incompatible_here, policy_of, other_notices, policy_of. rewrite decide_False by done.
  destruct (bool_decide (z_id (ep_node x) = local_zid)); [|done]. rewrite check_f. cbn [mbind res_bind andb].
  destruct (f (endpoint_rmw_qos x)) as [[] p]; cbn [negb fst snd incompatible_count]; [done|].
  unfold add_i32. rewrite bool_decide_true by (unfold i_range; lia). done.
Qed.

Lemma scan_all_spec l : forall s,
  (forall x y, x ∈ l -> y ∈ l -> gid x = gid y -> x = y) ->
  0 <= incompatible_count s -> incompatible_count s + Z.of_nat (length l) < 2 ^ 31 ->
  exists bad,
    scan_all endpoint_gid m local_zid other_event check s l =
      Ok (mkScan (list_to_set (map (fun x => gid x) l) ∪ checked_gids s) (incompatible_count s + Z.of_nat (length bad))
            (default (scan_policy_kind s) (last (map policy_of bad))) (scan_notices s ++ flat_map other_notices bad)) /\
    NoDup bad /\ (length bad <= length l)%nat /\
    forall x, x ∈ bad <-> x ∈ l /\ incompatible_here x = true /\ gid x ∉ checked_gids s.
Proof.
  induction l as [|x l IH]; intros s Hinj Hc Hb.
  - exists []. cbn. rewrite Z.add_0_r, app_nil_r. split_and!; [|constructor|done|].
    + f_equal. destruct s as [c n p q]. f_equal. cbn. set_solver.
    + intros x. split; [by intros H%elem_of_nil|]. by intros (H%elem_of_nil & _).
  - cbn [length] in Hb. assert (forall y z, y ∈ l -> z ∈ l -> gid y = gid z -> y = z) as Hinj' by (intros; apply Hinj; set_solver).
    cbn [scan_all]. destruct (decide (gid x ∈ checked_gids s)) as [Hin|Hnin].
    + rewrite scan_one_seen by done. cbn [mbind res_bind]. destruct (IH s Hinj' Hc) as (bad & -> & Hnd & Hlen & Hiff); [lia|].
      exists bad. split_and!; [|done|cbn; lia|].
      * do 2 f_equal. cbn [map list_to_set foldr]. set_solver.
      * intros y. rewrite Hiff, elem_of_cons. split; [naive_solver|]. intros ([->|Hy] & ? & ?); [done|naive_solver].
    + rewrite scan_one_new by (done || lia). cbn [mbind res_bind].
      set (s1 := if incompatible_here x then _ else _).
      assert (checked_gids s1 = {[gid x]} ∪ checked_gids s) as Hck by (unfold s1; by destruct (incompatible_here x)).
      assert (0 <= incompatible_count s1 <= incompatible_count s + 1) as Hc1
        by (unfold s1; destruct (incompatible_here x); cbn; lia).
      destruct (IH s1 Hinj') as (bad & -> & Hnd & Hlen & Hiff); [lia|lia|].
      assert (forall y, y ∈ l -> gid y ∉ checked_gids s1 <-> gid y ∉ checked_gids s /\ y <> x) as Hnew.
      { intros y Hy. rewrite Hck, not_elem_of_union, not_elem_of_singleton. split; intros [H1 H2]; split; try done.
        - congruence.
        - intros Hg. apply H2, Hinj; set_solver. }
      assert (x ∉ bad) as Hx by (intros Hx; apply Hiff in Hx as (H1 & _ & H2); by apply Hnew in H2 as [_ []]).
      exists (if incompatible_here x then x :: bad else bad). rewrite Hck. unfold s1.
      destruct (incompatible_here x) eqn:Ei; cbn [incompatible_count scan_policy_kind scan_notices length map flat_map].
      * split_and!; [|by constructor|cbn; lia|].
        -- f_equal. f_equal; [set_solver|cbn [length]; lia| |by rewrite app_assoc].
           rewrite last_cons. by destruct (last (map policy_of bad)).
        -- intros y. rewrite !elem_of_cons, Hiff. split.
           ++ intros [->|(H1 & H2 & H3)]; [naive_solver|]. apply Hnew in H3; naive_solver.
           ++ intros ([->|Hy] & H2 & H3); [by left|]. destruct (decide (gid y = gid x)) as [Hg|Hne]; [left; apply Hinj; set_solver|].
              right. split_and!; [done..|]. apply (Hnew y Hy). split; congruence.
      * split_and!; [|done|cbn; lia|].
        -- do 2 f_equal. set_solver.
        -- intros y. rewrite elem_of_cons, Hiff. split.
           ++ intros (H1 & H2 & H3). apply Hnew in H3; naive_solver.
           ++ intros ([->|Hy] & H2 & H3); [congruence|]. split_and!; [done..|]. apply (Hnew y Hy). split; [done|congruence].
Qed.
End Scan.

(** *** A new manager *)

Lemma update_fresh {E} m e c p :
  event_statuses m !! event_id e = Some status_default -> event_callbacks m !! event_id e = Some None -> 0 <= c < 2 ^ 31 ->
  update_event_status_with_policy (E := E) m e c p =
    Ok (set_status m (event_id e) (mkStatus c c c c "" true p), []).
Proof.
  intros Hs Hk Hc. unfold update_event_status_with_policy, index. rewrite Hs. cbn [unwrap mbind res_bind status_default total_count
    total_count_change current_count current_count_change status_data last_policy_kind].
  rewrite Z.max_l by lia. rewrite !(add_i32_small 0 c 0) by lia. cbn [mbind res_bind unwrap].
  cbn [set_status event_callbacks]. rewrite Hk. cbn [unwrap mbind res_bind]. rewrite ?Z.add_0_l.
  by destruct (Z.eqb_spec p 0) as [->|].
Qed.

(** *** The part the creations share *)

Definition count_status (n : nat) (policy : Z) : ZenohEventStatus :=
  match n with
  | O => status_default
  | _ => let c := Z.of_nat n in mkStatus c c c c "" true policy
  end.
Lemma event_id_lt e : (event_id e < ZENOH_EVENT_ID_MAX)%nat.
Proof. unfold ZENOH_EVENT_ID_MAX. destruct e; cbn; lia. Qed.
Lemma update_count {E} m e n p :
  event_statuses m !! event_id e = Some status_default -> event_callbacks m !! event_id e = Some None ->
  Z.of_nat n < 2 ^ 31 ->
  (if (0 <? Z.of_nat n) then update_event_status_with_policy (E := E) m e (Z.of_nat n) p else Ok (m, [])) =
    Ok (set_status m (event_id e) (count_status n p), []).
Proof.
  intros Hs Hk Hn. destruct n as [|n].
  - cbn. do 2 f_equal. unfold set_status. destruct m as [sts cbs gd]. cbn in *. f_equal. by rewrite list_insert_id.
  - rewrite update_fresh by (done || lia). cbn [count_status]. destruct (Z.ltb_spec 0 (Z.of_nat (S n))); [done|lia].
Qed.

(** The endpoints among [found] that are of this session and not compatible. *)
Definition incompatible_among (found : list Entity) (zid : ZenohId) (f : rmw_qos_profile_t -> bool * Z) (bad : list EndpointEntity) : Prop :=
  NoDup bad /\ forall x, x ∈ bad <-> EEndpoint x ∈ found /\ z_id (ep_node x) = zid /\ (f (endpoint_rmw_qos x)).1 = false.
Definition gids_distinct (found : list Entity) : Prop :=
  forall x y, EEndpoint x ∈ found -> EEndpoint y ∈ found -> gid x = gid y -> x = y.

Lemma discover_spec g entity other matched incompatible other_incompatible cb1 cb2 check f :
  graph_inv (data g) -> no_stale (data g) -> is_topic_kind other = true -> matched <> incompatible ->
  (forall x, check (endpoint_rmw_qos x) = Ok (f (endpoint_rmw_qos x))) ->
  let found := List.filter (on_topic other (ep_topic entity)) (known (tokens parser (data g))) in
  gids_distinct found -> Z.of_nat (length found) < 2 ^ 31 - 1 ->
  let m := register_event_callback (register_event_callback (event_manager g) (gid entity) matched cb1) (gid entity) incompatible cb2 in
  exists bad d l,
    discover parser endpoint_gid g entity (events_new (gid entity)) other matched incompatible other_incompatible cb1 cb2 check =
      Ok (mkDiscovery (mkGraph d m (graph_zid g))
            (set_status (set_status (events_new (gid entity)) (event_id matched) (count_status (length found) 0))
               (event_id incompatible) (count_status (length bad) (default 0 (last (map (policy_of f) bad)))))
            l (flat_map (other_notices m other_incompatible f) bad) [] (bool_decide (found <> []))) /\
    incompatible_among found (graph_zid g) f bad /\ graph_inv d /\ tokens parser d = tokens parser (data g).
Proof.
  intros Hd Hns Hk Hne Hf found Hinj Hlen m. unfold discover.
  destruct (topic_endpoints (E := ZError) (data g) other (ep_topic entity) Hd Hns Hk) as (d1 & d2 & l & Hcount & Hget & Hperm).
  fold found in Hcount, Hperm. fold m. rewrite Hcount. cbn [mbind res_bind].
  assert (graph_inv d2 /\ tokens parser d2 = tokens parser (data g)) as [Hd2 Ht2].
  { destruct (query_same parser g (OpCount other (ep_topic entity)) (set_data g d1)) as (Ha & Hb & _);
      [done|cbn [graph_step]; unfold with_data; by rewrite Hcount|].
    destruct (query_same parser (set_data g d1) (OpByTopic other (ep_topic entity)) (set_data g d2)) as (Ha' & Hb' & _);
      [done|cbn [graph_step]; unfold with_data; cbn [set_data data]; by rewrite Hget|].
    split; [exact Ha'|]. cbn [set_data data] in *. congruence. }
  assert (forall x, x ∈ endpoints d2 l <-> EEndpoint x ∈ found) as Hmem.
  { intros x. rewrite Hperm, list_elem_of_omap. split; [intros ([n|y] & Hy & He); cbn in He; by simplify_eq|].
    intros Hx. by exists (EEndpoint x). }
  assert (length (endpoints d2 l) <= length found)%nat as Hle.
  { rewrite Hperm. clear. induction found as [|e es IH]; cbn; [lia|]. destruct (entity_get_endpoint e); cbn; lia. }
  assert (length (event_statuses (events_new (gid entity))) = ZENOH_EVENT_ID_MAX) as Hnew by done.
  assert (forall e, event_statuses (events_new (gid entity)) !! event_id e = Some status_default /\
                    event_callbacks (events_new (gid entity)) !! event_id e = Some None) as Hz by (by intros []).
  destruct (scan_all_spec m (graph_zid g) other_incompatible check f Hf (endpoints d2 l) scan_new) as (bad & Hscan & Hnd & Hbl & Hiff).
  { intros x y Hx Hy. apply Hinj; by apply Hmem. }
  { done. }
  { cbn. lia. }
  assert (incompatible_among found (graph_zid g) f bad) as Hbad.
  { split; [done|]. intros x. rewrite Hiff, Hmem. unfold incompatible_here. rewrite andb_true_iff, bool_decide_eq_true, negb_true_iff.
    cbn. set_solver. }
  exists bad, d2, l. split; [|done].
  unfold update_event_status. destruct (Hz matched) as [Hm1 Hm2], (Hz incompatible) as [Hi1 Hi2].
  assert (wrap_i 32 (Z.of_nat (length found)) = Z.of_nat (length found)) as ->
    by (unfold wrap_i; rewrite Z.mod_small by lia; lia).
  replace (0 <? length found)%nat with (0 <? Z.of_nat (length found)) by (destruct found; done).
  rewrite update_count by (done || lia). cbn [mbind res_bind]. rewrite Hget. cbn [mbind res_bind]. rewrite Hscan.
  cbn [mbind res_bind incompatible_count scan_policy_kind scan_notices scan_new]. rewrite Z.add_0_l.
  rewrite update_count; [|cbn [set_status event_statuses event_callbacks]; rewrite ?list_lookup_insert_ne; [done|]; by destruct matched, incompatible|done|lia].
  cbn [mbind res_bind]. do 2 f_equal.
  assert (length bad <= length found)%nat as Hbf by lia.
  destruct found as [|e es]; [|done]. destruct bad; [done|]. cbn in Hbf. lia.
Qed.
End Lemmas.

Section Creation.
Context `{ZA : ZenohApi} `{ZExt : ZExtApi} `{Chan : ChannelApi} `{Sess : SessionApi} `{PS : PubSubApi}.
Context {SL : SlabApi} {SLL : SlabLaws} {HO : HashOrder} {HOL : HashOrderLaws} `{HA : HashApi} `{HX : HexApi} {ZD : EqDecision ZenohId}.
Context {ReqM : ZMessage GetTypeDescriptionRequest} {RspM : ZMessage GetTypeDescriptionResponse}.
Context {CMessage : Type} (parser : string -> option Entity) (endpoint_gid : EndpointEntity -> GidArray).
#[local] Abbreviation gid x := (gid_numbers (endpoint_gid x)).

(** The check, when the durations of the profile fit or the build wraps. *)
Definition duration_readable (o : bool) (d : Duration) : Prop := o = true -> ns_ok d.
Lemma duration_ns_readable {E} o d : duration_readable o d -> exists n, duration_ns (E := E) o d = Ok n.
Proof.
  intros H. destruct o; [rewrite duration_ns_ok by auto; by eexists|].
  unfold duration_ns, checked_i64. destruct (decide _); cbn [mbind res_bind]; destruct (decide _); by eexists.
Qed.
Lemma check_reads {E} o p s :
  duration_readable o (rmw_deadline p) -> duration_readable o (rmw_lease p) ->
  duration_readable o (rmw_deadline s) -> duration_readable o (rmw_lease s) ->
  exists r, check_qos_compatibility_with_policy (E := E) o p s = Ok r.
Proof.
  intros H1 H2 H3 H4. unfold check_qos_compatibility_with_policy.
  destruct (duration_ns_readable (E := E) o _ H1) as [? ->], (duration_ns_readable (E := E) o _ H2) as [? ->],
    (duration_ns_readable (E := E) o _ H3) as [? ->], (duration_ns_readable (E := E) o _ H4) as [? ->].
  cbn [mbind res_bind]. repeat case_match; by eexists.
Qed.
Lemma graph_durations o x :
  duration_readable o (rmw_deadline (endpoint_rmw_qos x)) /\ duration_readable o (rmw_lease (endpoint_rmw_qos x)).
Proof.
  unfold duration_readable, endpoint_rmw_qos, ros_z_qos_to_rmw_qos, protocol_qos_to_ros_z_qos, ns_ok, ns.
  destruct (Qos.history (ep_qos x)) as [d|]; [unfold from_depth; destruct (_ =? _)%Z|]; cbn; split; intros _; lia.
Qed.

Lemma drop_arcs_held d l : exists h, drop_arcs d l = set_held d h.
Proof.
  unfold drop_arcs. revert d. induction l as [|a l IH]; intros d; cbn; [exists (held d); by destruct d|].
  destruct (IH (arc_drop d a)) as [h ->]. by exists h.
Qed.
(** The end of a creation never fails when the entity is a publisher's or a
    subscription's. *)
Lemma announce_ok {A} ds entity (impl : A) ke :
  is_topic_kind (ep_kind entity) = true -> endpoint_to_liveliness_ke entity = Ok ke -> graph_inv (data (ds_graph ds)) ->
  exists g notices,
    announce ds entity impl = Ok (mkCreated (Some impl) g (ds_notices ds ++ notices) (ds_calls ds) (ds_notified ds)) /\
    graph_inv (data g) /\ tokens parser (data g) = <[ke := EEndpoint entity]> (tokens parser (data (ds_graph ds))) /\
    event_manager g = event_manager (ds_graph ds).
Proof.
  intros Hk Hke Hd. unfold announce.
  assert (exists notices, add_local_entity (ds_graph ds) (EEndpoint entity) =
    Ok (set_data (ds_graph ds) (add_data (data (ds_graph ds)) ke (EEndpoint entity)), notices)) as [notices ->].
  { unfold add_local_entity. cbn [entity_to_liveliness_ke]. rewrite Hke. cbn [mbind res_bind].
    destruct (trigger_returns (E := ZError) (event_manager (ds_graph ds)) (EEndpoint entity) true) as [n Hn].
    { cbn. by destruct (ep_kind entity). }
    destruct (bool_decide _); [by eexists|]. rewrite Hn. by eexists. }
  destruct (drop_arcs_held (data (set_data (ds_graph ds) (add_data (data (ds_graph ds)) ke (EEndpoint entity)))) (ds_arcs ds)) as [h Hh].
  eexists _, notices. rewrite Hh. split; [reflexivity|]. cbn [set_graph_data set_data data event_manager].
  destruct (add_data_ok parser (data (ds_graph ds)) ke (EEndpoint entity) Hd) as [Hi Ht]. split_and!; [|exact Ht|done].
  by apply (inv_shrink _ (parsed (add_data (data (ds_graph ds)) ke (EEndpoint entity))) (cached (add_data (data (ds_graph ds)) ke (EEndpoint entity))) h).
Qed.

(** The entity of what a builder built. *)
Lemma qualify_topic_kind e e' : qualify_topic e = Ok e' -> ep_kind e' = ep_kind e.
Proof. unfold qualify_topic. intros H. by res_inv. Qed.
Lemma pub_build_kind b zid p :
  pub_build endpoint_gid b zid = Ok p ->
  ep_kind (pub_entity p) = ep_kind (pb_entity b) /\ pub_events p = events_new (gid (pub_entity p)).
Proof.
  unfold pub_build. intros H. destruct (qualify_topic (pb_entity b)) as [e|x|] eqn:Eq; cbn [mbind res_bind] in H; try done.
  apply qualify_topic_kind in Eq. res_inv. done.
Qed.

(** ** Properties *)

(** C11 Creating a publisher: once its builder has built it, and while no caller
    keeps an entity that has left, the creation never panics (with overflow
    checks, if the durations of its profile fit), and gives a publisher whose
    matched event counts every subscription that the graph knows on its topic and
    whose incompatibility event counts, once each, those of this session that fail
    the check, with the policy of one of them; each of these subscriptions is told
    of its incompatibility, and the graph then knows the publisher under its token. *)
Theorem create_publisher_spec o g node counter ts topic qos cb1 cb2 zpub ke :
  graph_inv (data g) -> no_stale (data g) ->
  duration_readable o (rmw_deadline qos) -> duration_readable o (rmw_lease qos) ->
  pub_build endpoint_gid (pub_with_type_info (pub_with_qos (create_pub ros_message_type_info node counter topic).1
    (rmw_qos_to_ros_z_qos qos)) (get_type_info ts)) (nd_zid node) = Ok zpub ->
  endpoint_to_liveliness_ke (pub_entity zpub) = Ok ke ->
  let found := List.filter (on_topic KSubscription (ep_topic (pub_entity zpub))) (known (tokens parser (data g))) in
  gids_distinct endpoint_gid found -> Z.of_nat (length found) < 2 ^ 31 - 1 ->
  exists p g' notices bad policies,
    rmw_create_publisher (CMessage := CMessage) parser endpoint_gid o g node counter (Some ts) topic qos cb1 cb2 =
      (Ok (mkCreated (Some p) g' notices [] (bool_decide (found <> []))), wrap_u 64 (counter + 1)) /\
    NoDup bad /\
    (forall x, x ∈ bad <-> EEndpoint x ∈ found /\ z_id (ep_node x) = graph_zid g /\
       exists policy, check_qos_compatibility_with_policy (E := ZError) o (normalize_rmw_qos qos) (endpoint_rmw_qos x) = Ok (false, policy)) /\
    Forall2 (fun x policy => check_qos_compatibility_with_policy (E := ZError) o (normalize_rmw_qos qos) (endpoint_rmw_qos x) =
       Ok (false, policy)) bad policies /\
    event_statuses (pub_events (pi_inner p)) !! event_id PublicationMatched = Some (count_status (length found) 0) /\
    event_statuses (pub_events (pi_inner p)) !! event_id OfferedQosIncompatible =
      Some (count_status (length bad) (default 0 (last policies))) /\
    (forall x policy, (x, policy) ∈ zip bad policies ->
       trigger_event_with_policy (event_manager g') (gid x) RequestedQosIncompatible 1 policy ⊆ notices) /\
    tokens parser (data g') = <[ke := EEndpoint (pub_entity zpub)]> (tokens parser (data g)).
Proof.
  intros Hd Hns Hq1 Hq2 Hb Hke found Hinj Hlen.
  destruct (pub_build_kind _ _ _ Hb) as [Hkind Hev].
  set (check := fun sub_qos => check_qos_compatibility_with_policy (E := ZError) o (normalize_rmw_qos qos) sub_qos).
  assert (rmw_deadline (normalize_rmw_qos qos) = rmw_deadline qos /\ rmw_lease (normalize_rmw_qos qos) = rmw_lease qos)
    as [Hn1 Hn2] by (unfold normalize_rmw_qos; by destruct (_ && _)).
  set (f := fun q => match check q with Ok r => r | _ => (true, 0) end).
  assert (forall x, check (endpoint_rmw_qos x) = Ok (f (endpoint_rmw_qos x))) as Hf.
  { intros x. destruct (graph_durations o x) as [Hg1 Hg2].
    destruct (check_reads (E := ZError) o (normalize_rmw_qos qos) (endpoint_rmw_qos x)) as [r Hr]; rewrite ?Hn1, ?Hn2; try done.
    unfold f, check. by rewrite Hr. }
  assert (forall x, (f (endpoint_rmw_qos x)).1 = false <-> check (endpoint_rmw_qos x) = Ok (false, policy_of f x)) as Hfx.
  { intros x. rewrite Hf. unfold policy_of. destruct (f (endpoint_rmw_qos x)) as [b n]; cbn. naive_solver. }
  destruct (discover_spec parser endpoint_gid g (pub_entity zpub) KSubscription PublicationMatched OfferedQosIncompatible
    RequestedQosIncompatible cb1 cb2 check f Hd Hns eq_refl ltac:(done) Hf Hinj Hlen) as (bad & d & l & Hds & [Hnd Hmem] & Hd' & Ht').
  set (ds := mkDiscovery _ _ _ _ _ _) in Hds.
  destruct (announce_ok ds (pub_entity zpub) (mkPublisherImpl (set_pub_events zpub (ds_events ds)) ts
    (ep_topic (pub_entity zpub)) (normalize_rmw_qos qos) (pub_entity zpub)) ke) as (g' & notices & Han & _ & Htok & Hem);
    [by rewrite Hkind|done|done|].
  eexists _, g', _, bad, (map (policy_of f) bad). split_and!.
  - unfold rmw_create_publisher, create_pub, create_pub_impl, increment. cbn [fst snd].
    unfold create_pub, create_pub_impl, increment in Hb. cbn [fst] in Hb. rewrite Hb, Hev. fold check. rewrite Hds.
    cbn [mbind res_bind]. rewrite Han. reflexivity.
  - done.
  - intros x. rewrite Hmem, Hfx. split; [naive_solver|]. intros (? & ? & policy & Hp). split_and!; [done..|].
    unfold policy_of. rewrite Hf in Hp. unfold check in *. rewrite Hf. by injection Hp as ->.
  - apply Forall2_fmap_r, Forall_Forall2_diag, Forall_forall. intros x Hx. apply Hmem in Hx as (_ & _ & Hx). by apply Hfx.
  - done.
  - done.
  - intros x policy Hz. rewrite Hem. cbn [ds ds_graph ds_notices event_manager].
    apply elem_of_lookup_zip_with in Hz as (i & y & p & [= <- <-] & Hi & Hj).
    change (map (policy_of f) bad) with (policy_of f <$> bad) in Hj. rewrite list_lookup_fmap, Hi in Hj. cbn in Hj. injection Hj as <-. intros n Hn. apply elem_of_app. left.
    apply list_elem_of_In, in_flat_map. exists x. split; apply list_elem_of_In; [by eapply list_elem_of_lookup_2|exact Hn].
  - by rewrite Htok, <- Ht'.
Qed.
End Creation.

(** ** A best-effort publisher beside a reliable subscription *)

#[local] Existing Instances ex_zenoh ex_zext ex_pubsub ex_digest ex_hex ex_request_message ex_response_message.
#[local] Existing Instances ex_slab ex_slab_laws ex_order ex_order_laws ex_zid_dec.
Definition ex_rmw_node : ZNode := mkZNode ex_node 42%N ∅ None FRmwZenoh None.
Definition ex_best_effort : rmw_qos_profile_t :=
  mkRmw 1 5 2 2 (mkDuration 0 0) (mkDuration 0 0) 1 (mkDuration 0 0) false.
Definition ex_listener_ke : string := match endpoint_to_liveliness_ke ex_listener with Ok ke => ke | _ => "" end.
Definition ex_heard : Graph := mkGraph (add_data data_new ex_listener_ke (EEndpoint ex_listener)) graph_events_new 42%N.
Definition ex_rmw_pub : ZPub :=
  ok_or_else ex_pub (pub_build ex_topic_gid (pub_with_type_info
    (pub_with_qos (create_pub ros_message_type_info ex_rmw_node 7 "chatter").1 (rmw_qos_to_ros_z_qos ex_best_effort))
    (get_type_info ex_type_support)) 42%N).
Definition ex_rmw_pub_ke : string := match endpoint_to_liveliness_ke (pub_entity ex_rmw_pub) with Ok ke => ke | _ => "" end.

Lemma ex_heard_held : no_stale (data ex_heard).
Proof.
  intros a Ha. assert (held (data ex_heard) = []) as Hh by (vm_compute; reflexivity).
  rewrite Hh in Ha. exfalso. exact (not_elem_of_nil a Ha).
Qed.

Lemma create_publisher_spec_witness :
  exists p g' notices bad policies,
    rmw_create_publisher ex_parser ex_topic_gid true ex_heard ex_rmw_node 7 (Some ex_type_support) "chatter"
      ex_best_effort 1%nat 2%nat = (Ok (mkCreated (Some p) g' notices [] true), 8) /\
    length (bad : list EndpointEntity) = 1%nat /\ policies = [POLICY_RELIABILITY] /\
    event_statuses (pub_events (pi_inner p)) !! event_id OfferedQosIncompatible =
      Some (mkStatus 1 1 1 1 "" true POLICY_RELIABILITY).
Proof.
  assert (List.filter (on_topic KSubscription (ep_topic (pub_entity ex_rmw_pub))) (known (tokens ex_parser (data ex_heard))) =
    [EEndpoint ex_listener]) as Hf by (vm_compute; reflexivity).
  destruct (create_publisher_spec ex_parser ex_topic_gid true ex_heard ex_rmw_node 7 ex_type_support "chatter"
    ex_best_effort 1%nat 2%nat ex_rmw_pub ex_rmw_pub_ke) as (p & g' & notices & bad & policies & H1 & Hnd & Hmem & Hpol & _ & Hev & _).
  - exact (proj1 (add_data_ok ex_parser data_new ex_listener_ke (EEndpoint ex_listener) (proj1 (data_new_ok ex_parser)))).
  - exact ex_heard_held.
  - intros _. unfold ns_ok, ns. cbn. lia.
  - intros _. unfold ns_ok, ns. cbn. lia.
  - vm_compute; reflexivity.
  - vm_compute; reflexivity.
  - rewrite Hf. intros x y Hx Hy _. apply list_elem_of_singleton in Hx, Hy. congruence.
  - rewrite Hf. done.
  - assert (forall x, x ∈ bad <-> x = ex_listener) as Hone.
    { intros x. rewrite Hmem, Hf, list_elem_of_singleton. split; [intros ([= ->] & _); done|]. intros ->.
      split_and!; [done|reflexivity|]. exists POLICY_RELIABILITY. reflexivity. }
    destruct bad as [|x [|y bad]].
    + exfalso. by apply (elem_of_nil ex_listener), Hone.
    + assert (x = ex_listener) as -> by (apply Hone; by left). apply Forall2_cons_inv_l in Hpol as (policy & rest & Hp & Hr & ->).
      apply Forall2_nil_inv_l in Hr as ->. assert (policy = POLICY_RELIABILITY) as -> by (unfold check_qos_compatibility_with_policy in Hp; cbn in Hp; congruence).
      exists p, g', notices, [ex_listener], [POLICY_RELIABILITY]. rewrite H1, Hf. split_and!; [reflexivity|done|done|exact Hev].
    + exfalso. assert (x = ex_listener) as -> by (apply Hone; by left). assert (y = ex_listener) as -> by (apply Hone; right; by left).
      apply NoDup_cons in Hnd as [Hnd _]. by apply Hnd; left.
Defined.
