(* ===== verification/RmwGraph.v ===== *)
(** * Graph queries and nodes of the RMW layer
    (crates/rmw-zenoh-rs/src/rmw.rs, node.rs)

    The C functions that answer with arrays allocated by rcutils, whose allocations
    succeed or not as [RcutilsApi] says; the counts; and the identifiers of
    endpoints.  An array that a failing function has freed is [None].  The theorem: the names and types of a node are those of
    its endpoints in the graph, grouped. *)
From stdpp Require Import gmap strings.
From S2P Require Import Prelude CdrBuffer RustStr Attachment Qos ProfileQos Entity SchemaModel RmwZenoh Ros2Dds MsgSerdes Service DescriptionWire DynTypes Events Graph GraphInv GraphProps PubSub Node RmwQos RmwPubSub RmwEndpoints.
Open Scope list_scope.

(** ** Definitions *)

(** The allocations of rcutils and rmw: the initialisation of an array of a number
    of names and types, of strings, of endpoint infos, and the copy of a string. *)
Class RcutilsApi := {
  names_and_types_init : nat -> bool;
  string_array_init : nat -> bool;
  endpoint_info_array_init : nat -> bool;
  strdup : string -> bool;
}.
(** [CString::new] fails on a NUL. *)
Fixpoint has_nul (s : string) : bool :=
  match s with
  | EmptyString => false
  | String a s => Ascii.eqb a "000" || has_nul s
  end.
Definition normalize_namespace (ns : string) : string := if String.eqb ns "/" then "" else ns.

(** Steps that end early with a return code. *)
Definition step (A : Type) : Type := rmw_ret_t + A.
Definition then_ {A B} (m : step A) (f : A -> step B) : step B := match m with inl e => inl e | inr a => f a end.

Section Names.
Context `{RC : RcutilsApi}.

(** [for .. { strdup .. }] over strings; a string that cannot be copied ends it. *)
Fixpoint copy_strings (l : list string) : step (list string) :=
  match l with
  | [] => inr []
  | s :: l =>
      if has_nul s then inl RMW_RET_ERROR
      else if negb (strdup s) then inl RMW_RET_BAD_ALLOC
      else then_ (copy_strings l) (fun l => inr (s :: l))
  end.
(** [entry(name).or_default().push(type_name)] for every pair. *)
Definition group_step (m : gmap string (list string)) (p : string * string) : gmap string (list string) :=
  <[p.1 := default [] (m !! p.1) ++ [p.2]]> m.
Definition group_by_name (pairs : list (string * string)) : gmap string (list string) := foldl group_step ∅ pairs.

Fixpoint fill_entries (l : list (string * list string)) : step (list (string * list string)) :=
  match l with
  | [] => inr []
  | (name, type_names) :: l =>
      if has_nul name then inl RMW_RET_ERROR
      else if negb (strdup name) then inl RMW_RET_BAD_ALLOC
      else if negb (string_array_init (length type_names)) then inl RMW_RET_BAD_ALLOC
      else then_ (copy_strings type_names) (fun types => then_ (fill_entries l) (fun l => inr ((name, types) :: l)))
  end.
Context `{HO : HashOrder}.
(** The end of the six functions: an [rmw_names_and_types_t], or freed again. *)
Definition fill_names_and_types (pairs : list (string * string)) : rmw_ret_t * option (list (string * list string)) :=
  let map := group_by_name pairs in
  if negb (names_and_types_init (size map)) then (RMW_RET_BAD_ALLOC, None) else
  match fill_entries (map_order (list string) map) with
  | inr l => (RMW_RET_OK, Some l)
  | inl e => (e, None)
  end.
End Names.

Section RmwGraph.
Context `{ZA : ZenohApi} {SL : SlabApi} {HO : HashOrder} {RC : RcutilsApi} {ZD : EqDecision ZenohId}.
Context (parser : string -> option Entity) (endpoint_gid : EndpointEntity -> GidArray).

(** *** Names and types *)

Definition rmw_get_topic_names_and_types (g : Graph) : (rmw_ret_t * option (list (string * list string))) * Graph :=
  let '(d, pairs) := get_topic_names_and_types parser (data g) in (fill_names_and_types pairs, set_graph_data g d).
Definition rmw_get_service_names_and_types (g : Graph) : (rmw_ret_t * option (list (string * list string))) * Graph :=
  let '(d, pairs) := get_service_names_and_types parser (data g) in (fill_names_and_types pairs, set_graph_data g d).
(** The four functions [.._names_and_types_by_node]. *)
Definition names_and_types_by_node (g : Graph) (kind : EntityKind) (node_name node_namespace : string)
    : (rmw_ret_t * option (list (string * list string))) * Graph :=
  let node_key := (normalize_namespace node_namespace, node_name) in
  let '(d, exists_) := node_exists parser (data g) node_key in
  if negb exists_ then ((RMW_RET_NODE_NAME_NON_EXISTENT, None), set_graph_data g d) else
  let '(d, pairs) := get_names_and_types_by_node parser d node_key kind in
  (fill_names_and_types pairs, set_graph_data g d).
Definition rmw_get_subscriber_names_and_types_by_node (g : Graph) := names_and_types_by_node g KSubscription.
Definition rmw_get_publisher_names_and_types_by_node (g : Graph) := names_and_types_by_node g KPublisher.
Definition rmw_get_service_names_and_types_by_node (g : Graph) := names_and_types_by_node g KService.
Definition rmw_get_client_names_and_types_by_node (g : Graph) := names_and_types_by_node g KClient.

(** *** Counts *)

Definition rmw_count_publishers {E} (g : Graph) (topic_name : string) : res E (Graph * nat) :=
  '(d, n) ← count parser (data g) KPublisher topic_name; Ok (set_graph_data g d, n).
Definition rmw_count_subscribers {E} (g : Graph) (topic_name : string) : res E (Graph * nat) :=
  '(d, n) ← count parser (data g) KSubscription topic_name; Ok (set_graph_data g d, n).
Definition rmw_count_clients {E} (g : Graph) (service_name : string) : res E (Graph * nat) :=
  '(d, n) ← count_by_service parser (data g) KClient service_name; Ok (set_graph_data g d, n).
Definition rmw_count_services {E} (g : Graph) (service_name : string) : res E (Graph * nat) :=
  '(d, n) ← count_by_service parser (data g) KService service_name; Ok (set_graph_data g d, n).
Definition rmw_service_server_is_available {E} (g : Graph) (client_service_name : string) : res E (Graph * bool) :=
  '(d, server_count) ← count parser (data g) KService client_service_name;
  Ok (set_graph_data g d, (0 <? server_count)%nat).

(** *** Endpoint infos *)

(** [rmw_topic_endpoint_info_t]; a copy that fails leaves a null pointer. *)
Record EndpointInfo := mkEndpointInfo {
  ei_node_name : option string;
  ei_node_namespace : option string;
  ei_topic_type : option string;
  ei_topic_type_hash : option TypeHash;
  ei_is_publisher : bool;
  ei_endpoint_gid : list Z;
  ei_qos_profile : rmw_qos_profile_t;
}.
Definition strdup_ptr (s : string) : option string := if strdup s then Some s else None.
(** The bytes of the number of the endpoint, on a little-endian machine. *)
Definition id_gid (id : Z) : list Z := le_bytes 8 id ++ replicate 8 0%Z.
Definition endpoint_info (is_publisher : bool) (endpoint : EndpointEntity) : step EndpointInfo :=
  let node := ep_node endpoint in
  if has_nul (node_name node) then inl RMW_RET_ERROR else
  let node_ns := if String.eqb (node_namespace node) "" then "/"%string else node_namespace node in
  if has_nul node_ns then inl RMW_RET_ERROR else
  let done topic_type hash :=
    inr (mkEndpointInfo (strdup_ptr (node_name node)) (strdup_ptr node_ns) topic_type hash is_publisher
           (id_gid (ep_id endpoint)) (endpoint_rmw_qos endpoint)) in
  match ep_type_info endpoint with
  | Some type_info =>
      if has_nul (ti_name type_info) then inl RMW_RET_ERROR
      else done (strdup_ptr (ti_name type_info)) (Some (ti_hash type_info))
  | None => done None None
  end.
Fixpoint endpoint_infos (is_publisher : bool) (l : list EndpointEntity) : step (list EndpointInfo) :=
  match l with
  | [] => inr []
  | x :: l => then_ (endpoint_info is_publisher x) (fun i => then_ (endpoint_infos is_publisher l) (fun infos => inr (i :: infos)))
  end.
(** [rmw_get_publishers_info_by_topic] and [rmw_get_subscriptions_info_by_topic]. *)
Definition info_by_topic {E} (g : Graph) (kind : EntityKind) (is_publisher : bool) (topic_name : string)
    : res E ((rmw_ret_t * option (list EndpointInfo)) * Graph) :=
  '(d, l) ← get_entities_by_topic parser (data g) kind topic_name;
  let answer :=
    if negb (endpoint_info_array_init (length l)) then (RMW_RET_BAD_ALLOC, None) else
    match endpoint_infos is_publisher (endpoints d l) with
    | inr infos => (RMW_RET_OK, Some infos)
    | inl e => (e, None)
    end in
  Ok (answer, set_graph_data g (drop_arcs d l)).
Definition rmw_get_publishers_info_by_topic {E} (g : Graph) (topic_name : string) :=
  info_by_topic (E := E) g KPublisher true topic_name.
Definition rmw_get_subscriptions_info_by_topic {E} (g : Graph) (topic_name : string) :=
  info_by_topic (E := E) g KSubscription false topic_name.

(** *** Identifiers *)

(** [rmw_gid_t]: whether it is of this implementation, and its bytes. *)
Record rmw_gid_t := mkGid { gid_is_zenoh : bool; gid_data : list Z }.
(** [rmw_get_gid_for_publisher] and [rmw_get_gid_for_client], of the entity of an
    endpoint of this implementation. *)
Definition rmw_get_gid (entity : EndpointEntity) : rmw_gid_t := mkGid true (gid_numbers (endpoint_gid entity)).
Definition rmw_compare_gids_equal (gid1 gid2 : option rmw_gid_t) (result : option bool) : rmw_ret_t * option bool :=
  match gid1 with
  | None => (RMW_RET_INVALID_ARGUMENT, result)
  | Some g1 =>
      if negb (gid_is_zenoh g1) then (RMW_RET_INCORRECT_RMW_IMPLEMENTATION, result) else
      match gid2 with
      | None => (RMW_RET_INVALID_ARGUMENT, result)
      | Some g2 =>
          if negb (gid_is_zenoh g2) then (RMW_RET_INCORRECT_RMW_IMPLEMENTATION, result) else
          match result with
          | None => (RMW_RET_INVALID_ARGUMENT, None)
          | Some _ => (RMW_RET_OK, Some (bool_decide (gid_data g1 = gid_data g2)))
          end
      end
  end.

(** *** Nodes *)

(** The strings that [get_node_names] and [get_node_names_with_enclaves] copy for a
    node: all are checked before the first copy. *)
Fixpoint copy_rows (rows : list (list string)) : step (list (list string)) :=
  match rows with
  | [] => inr []
  | row :: rows =>
      if existsb has_nul row then inl RMW_RET_ERROR
      else if negb (forallb strdup row) then inl RMW_RET_BAD_ALLOC
      else then_ (copy_rows rows) (fun rows => inr (row :: rows))
  end.
Definition fill_rows (rows : list (list string)) : rmw_ret_t * option (list (list string)) :=
  if negb (string_array_init (length rows)) then (RMW_RET_BAD_ALLOC, None) else
  match copy_rows rows with
  | inr rows => (RMW_RET_OK, Some rows)
  | inl e => (e, None)
  end.
Definition rmw_get_node_names (g : Graph) : (rmw_ret_t * option (list (list string))) * Graph :=
  let '(d, nodes) := get_node_names parser (data g) in
  (fill_rows (map (fun '(name, namespace) => [name; namespace]) nodes), set_graph_data g d).
Definition rmw_get_node_names_with_enclaves (g : Graph) : (rmw_ret_t * option (list (list string))) * Graph :=
  let '(d, nodes) := get_node_names_with_enclaves parser (data g) in
  (fill_rows (map (fun '(name, namespace, enclave) => [name; namespace; enclave]) nodes), set_graph_data g d).
End RmwGraph.

(** ** Lemmas *)

Definition types_of (name : string) (pairs : list (string * string)) : list string :=
  map snd (List.filter (fun p => String.eqb p.1 name) pairs).
Lemma group_lookup pairs : forall m name,
  foldl group_step m pairs !! name =
    match m !! name, types_of name pairs with
    | None, [] => None
    | o, found => Some (default [] o ++ found)
    end.
Proof.
  induction pairs as [|[n t] pairs IH]; intros m name.
  - cbn. by destruct (m !! name); cbn; rewrite ?app_nil_r.
  - cbn [foldl]. rewrite IH. unfold group_step, types_of. cbn [fst snd List.filter].
    destruct (String.eqb_spec n name) as [->|Hne].
    + rewrite lookup_insert_eq. cbn. destruct (m !! name); cbn; by rewrite <- ?app_assoc.
    + by rewrite lookup_insert_ne.
Qed.
Lemma group_by_name_lookup pairs name :
  group_by_name pairs !! name = match types_of name pairs with [] => None | l => Some l end.
Proof. unfold group_by_name. rewrite group_lookup, lookup_empty. by destruct (types_of name pairs). Qed.
Lemma types_of_elem name pairs t : t ∈ types_of name pairs <-> (name, t) ∈ pairs.
Proof.
  unfold types_of. rewrite list_elem_of_In, in_map_iff. setoid_rewrite filter_In. rewrite list_elem_of_In. split.
  - intros ([n t'] & <- & Hin & Hq%String.eqb_eq). cbn in *. by subst.
  - intros Hin. exists (name, t). split_and!; [done..|]. by rewrite String.eqb_refl.
Qed.
Lemma types_of_nodup name pairs : NoDup pairs -> NoDup (types_of name pairs).
Proof.
  intros Hnd. unfold types_of. apply (NoDup_fmap_2_strong snd).
  - intros [n t] [n' t'] H1 H2 Ht. apply filter_elem in H1 as [_ H1%String.eqb_eq], H2 as [_ H2%String.eqb_eq]. cbn in *. by subst.
  - by apply filter_nodup.
Qed.

Lemma singleton_list {A} (l : list A) a : NoDup l -> a ∈ l -> (forall b, b ∈ l -> b = a) -> l = [a].
Proof.
  intros Hnd Hin Hall. destruct l as [|x [|y l]]; [by apply elem_of_nil in Hin|by rewrite (Hall x) by (by left)|].
  exfalso. apply NoDup_cons in Hnd as [Hx _]. apply Hx. rewrite (Hall x), (Hall y) by (by left || (right; by left)). by left.
Qed.

Section Filled.
Context {RC : RcutilsApi} {HO : HashOrder} {HOL : HashOrderLaws}.
Hypothesis allocates : (forall n, names_and_types_init n = true) /\ (forall n, string_array_init n = true) /\ forall s, strdup s = true.

Lemma copy_strings_ok l : Forall (fun s => has_nul s = false) l -> copy_strings l = inr l.
Proof.
  destruct allocates as (_ & _ & Hd). induction 1 as [|s l Hs _ IH]; [done|]. cbn. by rewrite Hs, Hd, IH.
Qed.
Lemma fill_entries_ok l :
  Forall (fun e => has_nul e.1 = false /\ Forall (fun s => has_nul s = false) e.2) l -> fill_entries l = inr l.
Proof.
  destruct allocates as (_ & Ha & Hd). induction 1 as [|[n ts] l [Hn Ht] _ IH]; [done|]. cbn in *.
  by rewrite Hn, Hd, Ha, copy_strings_ok, IH.
Qed.
(** The pairs, grouped by name. *)
Lemma fill_names_and_types_ok pairs :
  NoDup pairs -> (forall n t, (n, t) ∈ pairs -> has_nul n = false /\ has_nul t = false) ->
  exists l, fill_names_and_types pairs = (RMW_RET_OK, Some l) /\ NoDup (map fst l) /\
    (forall n ts, (n, ts) ∈ l -> ts <> [] /\ NoDup ts /\ forall t, t ∈ ts <-> (n, t) ∈ pairs) /\
    forall n t, (n, t) ∈ pairs -> n ∈ map fst l.
Proof.
  intros Hnd Hnul. destruct allocates as (Hi & _). unfold fill_names_and_types. rewrite Hi. cbn [negb].
  set (m := group_by_name pairs).
  assert (forall n ts, (n, ts) ∈ map_order (list string) m <-> m !! n = Some ts) as Hmem.
  { intros n ts. by rewrite map_order_perm, elem_of_map_to_list. }
  assert (forall n ts, m !! n = Some ts -> ts <> [] /\ ts = types_of n pairs) as Hm.
  { intros n ts H. unfold m in H. rewrite group_by_name_lookup in H. destruct (types_of n pairs); simplify_eq; done. }
  rewrite fill_entries_ok.
  2: { apply Forall_forall. intros [n ts] Hin. apply Hmem, Hm in Hin as [Hne ->]. cbn. split.
       - destruct (types_of n pairs) as [|t ts] eqn:E; [done|]. apply (Hnul n t), types_of_elem. rewrite E. by left.
       - apply Forall_forall. intros t Ht. by apply (Hnul n t), types_of_elem. }
  eexists. split; [done|]. split_and!.
  - change (map fst ?l) with (fst <$> l). rewrite map_order_perm. apply NoDup_fst_map_to_list.
  - intros n ts Hin. apply Hmem, Hm in Hin as [Hne ->]. split_and!; [done|by apply types_of_nodup|]. intros t. apply types_of_elem.
  - intros n t Hin%types_of_elem. apply list_elem_of_In, in_map_iff.
    exists (n, types_of n pairs). split; [done|]. apply list_elem_of_In, Hmem. unfold m. rewrite group_by_name_lookup.
    destruct (types_of n pairs); [by apply elem_of_nil in Hin|done].
Qed.
End Filled.

(** ** Properties *)

Section Properties.
Context `{ZA : ZenohApi} {SL : SlabApi} {SLL : SlabLaws} {HO : HashOrder} {HOL : HashOrderLaws} {RC : RcutilsApi} {ZD : EqDecision ZenohId}.
Context (parser : string -> option Entity).
Hypothesis allocates : (forall n, names_and_types_init n = true) /\ (forall n, string_array_init n = true) /\ forall s, strdup s = true.

(** The names and types of a node: when allocations succeed, names hold no NUL and
    no caller keeps an entity that has left, the four functions answer that the
    node does not exist when the graph has never known it, and else list each name
    on which the node has an endpoint of the kind with a type, once, with the types
    of these endpoints, each once, and nothing else. *)
Theorem node_names_and_types_spec em zid ops g kind name ns answer g' :
  canonical_ops parser ops -> graph_run parser (graph_new em zid) ops = Ok g -> no_stale (data g) ->
  let known_ := known (spec_run parser zid ops) in
  let mine x := EEndpoint x ∈ known_ /\ node_key (ep_node x) = (normalize_namespace ns, name) /\ ep_kind x = kind in
  (forall x ti, mine x -> ep_type_info x = Some ti -> has_nul (ep_topic x) = false /\ has_nul (ti_name ti) = false) ->
  names_and_types_by_node parser g kind name ns = (answer, g') ->
  if (node_exists parser (data g) (normalize_namespace ns, name)).2 then
    exists l, answer = (RMW_RET_OK, Some l) /\ NoDup (map fst l) /\
      (forall topic types, (topic, types) ∈ l -> types <> [] /\ NoDup types /\
         forall ty, ty ∈ types <-> exists x ti, mine x /\ ep_topic x = topic /\ ep_type_info x = Some ti /\ ti_name ti = ty) /\
      (forall x ti, mine x -> ep_type_info x = Some ti -> ep_topic x ∈ map fst l)
  else answer = (RMW_RET_NODE_NAME_NON_EXISTENT, None).
Proof.
  intros Hc Hr Hns known_ mine Hnul H. destruct (new_run parser em zid ops g Hc Hr) as [Hi Ht].
  destruct (ensure_parsed_ok parser (data g) Hi) as [(Hi' & Ht' & Hns') _].
  unfold names_and_types_by_node in H. unfold node_exists in *. cbn [snd] in *.
  destruct (bool_decide _); cbn [negb] in H; [|by injection H as <- _].
  destruct (get_names_and_types_by_node parser (ensure_parsed parser (data g)) (normalize_namespace ns, name) kind) as [d pairs] eqn:Eg.
  injection H as <- _.
  destruct (types_by_node_inv parser _ _ _ _ _ Hi' (Hns' Hns) Eg) as (Hnd & _ & Hpairs). rewrite Ht', Ht in Hpairs.
  assert (forall topic ty, (topic, ty) ∈ pairs <-> exists x ti, mine x /\ ep_topic x = topic /\ ep_type_info x = Some ti /\ ti_name ti = ty) as Hp.
  { intros topic ty. rewrite Hpairs. unfold mine, known_. naive_solver. }
  destruct (fill_names_and_types_ok allocates pairs Hnd) as (l & Hl & Hn & H1 & H2).
  { intros n t (x & ti & Hx & <- & Hti & <-)%Hp. by apply (Hnul x ti). }
  exists l. split; [done|]. split_and!; [done| |].
  - intros topic types Hin. destruct (H1 _ _ Hin) as (G1 & G2 & G3). split_and!; [done..|]. intros ty. by rewrite G3, Hp.
  - intros x ti Hx Hti. apply (H2 _ (ti_name ti)), Hp. by exists x, ti.
Qed.
End Properties.

#[local] Existing Instances ex_zenoh ex_slab ex_slab_laws ex_order ex_order_laws ex_zid_dec.
#[local] Instance ex_rcutils : RcutilsApi := {|
  names_and_types_init _ := true; string_array_init _ := true; endpoint_info_array_init _ := true; strdup _ := true |}.
Lemma ex_known x : EEndpoint x ∈ [ex_entity] -> x = RmwZenoh.ex_endpoint.
Proof. intros Hx%list_elem_of_singleton. by injection Hx. Qed.

Lemma node_names_and_types_spec_witness :
  exists l, (names_and_types_by_node ex_parser ex_graph KPublisher "talker" "/ns").1 = (RMW_RET_OK, Some l) /\
    map fst l = ["/ns/chatter"].
Proof.
  assert (known (spec_run ex_parser ex_zid ex_gops) = [ex_entity]) as Hk by (vm_compute; reflexivity).
  destruct (names_and_types_by_node ex_parser ex_graph KPublisher "talker" "/ns") as [answer g'] eqn:E.
  pose proof (node_names_and_types_spec ex_parser ltac:(by split_and!) graph_events_new ex_zid ex_gops ex_graph KPublisher
    "talker" "/ns" answer g' ex_canonical_ops ex_graph_run ex_graph_held) as H.
  change (normalize_namespace "/ns") with "/ns"%string in H. rewrite ex_node_asked in H. cbn [snd] in H. rewrite Hk in H. destruct H as (l & -> & Hnd & H1 & H2).
  - intros x ti (Hx & _) Hti. rewrite (ex_known x Hx) in *.
    cbn [ep_type_info RmwZenoh.ex_endpoint] in Hti. injection Hti as <-. split; vm_compute; reflexivity.
  - exact E.
  - exists l. clear E. split; [reflexivity|]. assert (forall t, t ∈ map fst l -> t = "/ns/chatter") as Hall.
    { intros t ([n ts] & -> & Hin)%list_elem_of_fmap. destruct (H1 _ _ Hin) as (Hne & _ & Ht). destruct ts as [|ty ts]; [exfalso; exact (Hne eq_refl)|].
      destruct (proj1 (Ht ty) (list_elem_of_here _ _)) as (x & ti & (Hx & _) & <- & _). rewrite (ex_known x Hx). reflexivity. }
    assert ("/ns/chatter" ∈ map fst l) as Hin.
    { apply (H2 RmwZenoh.ex_endpoint (default (mkTypeInfo "" TypeHash_zero) (ep_type_info RmwZenoh.ex_endpoint))); [|reflexivity].
      split_and!; [by left|reflexivity|reflexivity]. }
    exact (singleton_list _ _ Hnd Hin Hall).
Defined.
