(* ===== verification/RmwService.v ===== *)
(** * Services and clients of the RMW layer
    (crates/rmw-zenoh-rs/src/service.rs, rmw.rs, type_support.rs)

    C requests and responses over the typed services of Service.v: the sequence
    counter that the client keeps beside the one of its [ZClient], the headers that
    the two sides fill from the attachments, the creation and the destruction.
    The theorems: a call goes through with the same identifier at both ends and its
    messages as they were; and the identifier that a caller gets is the one that its
    request carries as long as no other thread sends in between. *)
From stdpp Require Import gmap strings.
From S2P Require Import Prelude CdrBuffer RustStr RustColl TopicName CdrPrimitives CdrSpec Queue Attachment Qos ProfileQos Entity SchemaModel RmwZenoh Ros2Dds MsgSerdes Service ServiceNet DescriptionWire DynTypes Events Graph PubSub Node TopicNet RmwQos RmwCallbacks RmwPubSub RmwEndpoints.
Open Scope list_scope.

(** ** Definitions *)

(** [rmw_request_id_t] and [rmw_service_info_t]. *)
Record RequestId := mkRequestId { rq_sequence_number : Z; rq_writer_guid : GidArray }.
Record ServiceInfo := mkServiceInfo { si_request_id : RequestId; si_source_timestamp : Z; si_received_timestamp : Z }.

Section RmwService.
Context `{ZA : ZenohApi} `{ZExt : ZExtApi} `{Chan : ChannelApi} `{Sess : SessionApi} `{PS : PubSubApi}.
Context `{SL : SlabApi} `{HO : HashOrder} `{HA : HashApi} `{HX : HexApi} `{ZD : !EqDecision ZenohId}.
Context {ReqM : ZMessage GetTypeDescriptionRequest} {RspM : ZMessage GetTypeDescriptionResponse}.
Context {CMessage : Type} (endpoint_gid : EndpointEntity -> GidArray).
(** The typed decoder of a [RosMessage], which these functions never call. *)
Context (typed_decode : list byte -> res string (RosMessage (CMessage := CMessage))).
#[local] Abbreviation TS := (TypeSupport CMessage).
#[local] Abbreviation RosMessage := (RosMessage (CMessage := CMessage)).

(** [ServiceTypeSupport]; of the pointer, the hash. *)
Record ServiceTypeSupport := mkServiceTypeSupport { sts_hash : option TypeHash; sts_request : TS; sts_response : TS }.
Definition service_type_hash (ts : ServiceTypeSupport) : TypeHash := default (cpp_type_hash (sts_response ts)) (sts_hash ts).
Definition service_type_info {E} (ts : ServiceTypeSupport) : res E TypeInfo :=
  name ← unwrap (strip_suffix "_Response" (get_ros_type_name (sts_response ts)));
  Ok (TypeInfo_new name (service_type_hash ts)).

(** [RosService]. *)
#[export] Instance ros_message : ZMessage RosMessage := {|
  msg_serialize m := Some (serialize_message (rm_ts m) (rm_msg m));
  msg_deserialize := typed_decode;
|}.
#[export] Instance RosService : ZService := {| Request := RosMessage; Response := RosMessage |}.

(** *** The client *)

Record ClientImpl := mkClientImpl {
  ci_inner : ZClient;
  ci_service_name : string;
  ci_qos : rmw_qos_profile_t;
  ci_ts : ServiceTypeSupport;
  ci_cells : Cells;
  ci_sequence_counter : Z;
  ci_entity : EndpointEntity;
}.
Definition ci_set (c : ClientImpl) (inner : ZClient) (counter : Z) : ClientImpl :=
  mkClientImpl inner (ci_service_name c) (ci_qos c) (ci_ts c) (ci_cells c) counter (ci_entity c).

(** [ClientImpl::send_request] in its two sections: the counter, then the request
    of the inner client, which has its own counter. *)
Definition take_sequence (c : ClientImpl) : Z * ClientImpl :=
  (ci_sequence_counter c, ci_set c (ci_inner c) (wrap_i 64 (ci_sequence_counter c + 1))).
Definition send_inner (c : ClientImpl) (token : nat) (now : option Z) (request : CMessage)
    : res ZError ServiceQuery * ClientImpl :=
  let '(r, inner) := rmw_send_request (Svc := RosService) (ci_inner c) token now
                       (mkRosMessage request (sts_request (ci_ts c))) in
  ('(query, _) ← r; Ok query, ci_set c inner (ci_sequence_counter c)).
(** One thread alone: the query and [*sequence_id]. *)
Definition client_send_request (c : ClientImpl) (token : nat) (now : option Z) (request : CMessage)
    : res ZError (ServiceQuery * Z) * ClientImpl :=
  let '(sn, c) := take_sequence c in
  let '(r, c) := send_inner c token now request in
  (query ← r; Ok (query, sn), c).

(** A reply: an error is only logged; a sample goes to the channel unless it is
    full, and the notifier and the callback hear of it in any case. *)
Definition client_on_reply (c : ClientImpl) (reply : option Sample) : ClientImpl :=
  mkClientImpl (on_reply (ci_inner c) reply) (ci_service_name c) (ci_qos c) (ci_ts c)
    (match reply with Some _ => on_arrival (ci_cells c) | None => ci_cells c end)
    (ci_sequence_counter c) (ci_entity c).

Definition header_of (att : option (list byte)) (now : option Z) : ServiceInfo :=
  let a := match att with Some bytes => Attachment_try_from bytes | None => None end in
  let '(sn, gid, ts) := match a with
                        | Some a => (sequence_number a, source_gid a, source_timestamp a)
                        | None => (0%Z, replicate 16 x00, 0%Z)
                        end in
  mkServiceInfo (mkRequestId sn gid) ts (match now with Some v => wrap_i 64 v | None => 0 end).
(** [ClientImpl::take_response]: [*taken], the header and the response. *)
Definition client_take_response (c : ClientImpl) (request_header : option ServiceInfo) (response : CMessage)
    (now : option Z) : (bool * option ServiceInfo * CMessage) * ClientImpl :=
  match try_recv (cl_rx (ci_inner c)) with
  | Some (sample, rx) =>
      let response := (deserialize_message (sts_response (ci_ts c)) (smp_payload sample) response).2 in
      ((true, match request_header with Some _ => Some (header_of (smp_attachment sample) now) | None => None end, response),
       ci_set c (set_rx (ci_inner c) rx) (ci_sequence_counter c))
  | None => ((false, request_header, response), c)
  end.

(** *** The service *)

Record ServiceImpl := mkServiceImpl {
  vi_inner : ZServer;
  vi_service_name : string;
  vi_ts : ServiceTypeSupport;
  vi_qos : rmw_qos_profile_t;
  vi_cells : Cells;
  vi_entity : EndpointEntity;
}.
Definition vi_set (s : ServiceImpl) (inner : ZServer) : ServiceImpl :=
  mkServiceImpl inner (vi_service_name s) (vi_ts s) (vi_qos s) (vi_cells s) (vi_entity s).
(** The queryable's callback with the notification of rmw_create_service. *)
Definition service_on_query (s : ServiceImpl) (query : ServiceQuery) : ServiceImpl :=
  let '(effects, inner) := on_query (vi_inner s) query in
  mkServiceImpl inner (vi_service_name s) (vi_ts s) (vi_qos s)
    (match effects with [] => vi_cells s | _ => on_arrival (vi_cells s) end) (vi_entity s).

(** The key of a query; one without a readable attachment gets zeros. *)
Definition placeholder_key : QueryKey := mkQueryKey 0 (replicate 16 x00).
Definition request_key (att : option (list byte)) : QueryKey :=
  match att with
  | Some bytes => match Attachment_try_from bytes with Some a => QueryKey_from a | None => placeholder_key end
  | None => placeholder_key
  end.
(** [ServiceImpl::take_request]: [*taken], the header and the request. A query
    without a payload is dropped; one with a known key takes its place. *)
Definition service_take_request (s : ServiceImpl) (request_header : option ServiceInfo) (request : CMessage)
    (now : option Z) : (bool * option ServiceInfo * CMessage) * ServiceImpl :=
  match srv_queue (vi_inner s) with
  | None => ((false, request_header, request), s)
  | Some queue =>
      match queue_try_recv queue with
      | (None, _) => ((false, request_header, request), s)
      | (Some query, queue) =>
          let inner := set_queue (vi_inner s) queue in
          match payload (sq_query query) with
          | None => ((false, request_header, request), vi_set s inner)
          | Some bytes =>
              let key := request_key (attachment (sq_query query)) in
              let inner := set_map inner (<[key := query]> (srv_map inner)) in
              let header := mkServiceInfo (mkRequestId (qk_sn key) (qk_gid key))
                              (source_timestamp_of (attachment (sq_query query)))
                              (match now with Some v => wrap_i 64 v | None => 0 end) in
              ((true, match request_header with Some _ => Some header | None => None end,
                (deserialize_message (sts_request (vi_ts s)) bytes request).2), vi_set s inner)
          end
      end
  end.
(** [ServiceImpl::send_response]. *)
Definition service_send_response (s : ServiceImpl) (request_id : RequestId) (now : option Z) (response : CMessage)
    : res ZError Sample * ServiceImpl :=
  let '(r, inner) := send_response (Svc := RosService) (vi_inner s) now (mkRosMessage response (sts_response (vi_ts s)))
                       (mkQueryKey (rq_sequence_number request_id) (rq_writer_guid request_id)) in
  (r, vi_set s inner).

(** [Waitable]. *)
Definition client_is_ready (c : ClientImpl) : bool :=
  match try_recv (cl_rx (ci_inner c)) with Some _ => true | None => false end.
Definition service_is_ready (s : ServiceImpl) : bool :=
  match srv_queue (vi_inner s) with Some q => negb (queue_is_empty q) | None => false end.

(** *** The C functions *)

Definition rmw_take_request (service : option ServiceImpl) (request_header : option ServiceInfo)
    (ros_request : option CMessage) (taken : option bool) (now : option Z)
    : (rmw_ret_t * option ServiceInfo * option CMessage * option bool) * option ServiceImpl :=
  match service, request_header, ros_request, taken with
  | Some s, Some _, Some request, Some _ =>
      let '((taken, header, request), s) := service_take_request s request_header request now in
      ((RMW_RET_OK, header, Some request, Some taken), Some s)
  | _, _, _, _ => ((RMW_RET_INVALID_ARGUMENT, request_header, ros_request, taken), service)
  end.
Definition rmw_send_response (service : option ServiceImpl) (response_header : option RequestId)
    (ros_response : option CMessage) (now : option Z) : res ZError (rmw_ret_t * option Sample) * option ServiceImpl :=
  match service, response_header, ros_response with
  | Some s, Some id, Some response =>
      let '(r, s) := service_send_response s id now response in
      (match r with
       | Ok sample => Ok (RMW_RET_OK, Some sample)
       | Err _ => Ok (RMW_RET_ERROR, None)
       | Panic => Panic
       end, Some s)
  | _, _, _ => (Ok (RMW_RET_INVALID_ARGUMENT, None), service)
  end.
Definition rmw_send_request (client : option ClientImpl) (ros_request : option CMessage) (sequence_id : option Z)
    (token : nat) (now : option Z) : res ZError (rmw_ret_t * option ServiceQuery * option Z) * option ClientImpl :=
  match client, ros_request, sequence_id with
  | Some c, Some request, Some _ =>
      let '(r, c) := client_send_request c token now request in
      (match r with
       | Ok (query, sn) => Ok (RMW_RET_OK, Some query, Some sn)
       | Err _ => Ok (RMW_RET_ERROR, None, sequence_id)
       | Panic => Panic
       end, Some c)
  | _, _, _ => (Ok (RMW_RET_INVALID_ARGUMENT, None, sequence_id), client)
  end.
Definition rmw_take_response (client : option ClientImpl) (request_header : option ServiceInfo)
    (ros_response : option CMessage) (taken : option bool) (now : option Z)
    : (rmw_ret_t * option ServiceInfo * option CMessage * option bool) * option ClientImpl :=
  match client, request_header, ros_response, taken with
  | Some c, Some _, Some response, Some _ =>
      let '((taken, header, response), c) := client_take_response c request_header response now in
      ((RMW_RET_OK, header, Some response, Some taken), Some c)
  | _, _, _, _ => ((RMW_RET_INVALID_ARGUMENT, request_header, ros_response, taken), client)
  end.

(** *** Creation and destruction *)

Definition ros_service_type_info : TypeInfo := TypeInfo_new "rcl_z::RosService" TypeHash_zero.
(** The endpoint of both builders: the names are qualified before the endpoint is
    made, and once more by its builder. [None] is a null pointer. *)
Definition service_entity (kind : EntityKind) (node : ZNode) (counter : Z) (service_name : string)
    (ts : option ServiceTypeSupport) (qos : rmw_qos_profile_t)
    : res ZError (option (EndpointEntity * KeyExprFormat * string * ServiceTypeSupport)) * Z :=
  match qualify_service_name service_name (node_namespace (nd_entity node)) (node_name (nd_entity node)), ts with
  | Ok qualified_service, Some ts =>
      let '((entity, format), counter) :=
        match kind with
        | KClient => node_create_client ros_service_type_info node counter qualified_service
        | _ => create_service ros_service_type_info node counter qualified_service
        end in
      (type_info ← service_type_info ts;
       Ok (Some (set_qos (set_type_info entity (Some type_info)) (to_protocol_qos (rmw_qos_to_ros_z_qos qos)),
                 format, qualified_service, ts)), counter)
  | Panic, _ => (Panic, counter)
  | _, _ => (Ok None, counter)
  end.
(** The local entity, whose failure is logged. *)
Definition add_to_graph {A} (g : Graph) (entity : EndpointEntity) (impl : A) : res ZError (Created A) :=
  match add_local_entity g (EEndpoint entity) with
  | Ok (g, notices) => Ok (mkCreated (Some impl) g notices [] false)
  | Err _ => Ok (mkCreated (Some impl) g [] [] false)
  | Panic => Panic
  end.
Definition rmw_create_client (g : Graph) (node : ZNode) (counter : Z) (ts : option ServiceTypeSupport)
    (service_name : string) (qos_policies : rmw_qos_profile_t) : res ZError (Created ClientImpl) * Z :=
  let '(r, counter) := service_entity KClient node counter service_name ts qos_policies in
  (o ← r;
   match o with
   | None => not_created g
   | Some (entity, format, qualified_service, ts) =>
       match client_build endpoint_gid entity format (nd_zid node) with
       | Ok zclient =>
           add_to_graph g entity
             (mkClientImpl zclient qualified_service (normalize_rmw_qos qos_policies) ts cells_new 1 entity)
       | Err _ => not_created g
       | Panic => Panic
       end
   end, counter).
Definition rmw_create_service (g : Graph) (node : ZNode) (counter : Z) (ts : option ServiceTypeSupport)
    (service_name : string) (qos_profile : rmw_qos_profile_t) : res ZError (Created ServiceImpl) * Z :=
  let '(r, counter) := service_entity KService node counter service_name ts qos_profile in
  (o ← r;
   match o with
   | None => not_created g
   | Some (entity, format, qualified_service, ts) =>
       match build_with_notifier endpoint_gid entity format (nd_zid node) with
       | Ok zserver =>
           add_to_graph g entity
             (mkServiceImpl zserver qualified_service ts (normalize_rmw_qos qos_profile) cells_new entity)
       | Err _ => not_created g
       | Panic => Panic
       end
   end, counter).
Definition rmw_destroy_client (g : Graph) (c : ClientImpl) := destroy_endpoint g (ci_entity c).
Definition rmw_destroy_service (g : Graph) (s : ServiceImpl) := destroy_endpoint g (vi_entity s).

(** *** Sends of several threads *)

(** A thread enters [send_request] and takes a number, and later sends its request
    through the inner client; [done] is what came out: the thread, the number that
    it is given and the query. *)
Inductive SendStep := Enter (thread : nat) | Leave (thread : nat) (now : option Z) (request : CMessage).
Record Sending := mkSending { sg_client : ClientImpl; sg_entered : gmap nat Z; sg_done : list (nat * Z * ServiceQuery) }.
Definition send_step (s : Sending) (op : SendStep) : Sending :=
  match op with
  | Enter thread =>
      let '(sn, c) := take_sequence (sg_client s) in
      mkSending c (<[thread := sn]> (sg_entered s)) (sg_done s)
  | Leave thread now request =>
      match sg_entered s !! thread with
      | Some sn =>
          let '(r, c) := send_inner (sg_client s) (length (sg_done s)) now request in
          mkSending c (delete thread (sg_entered s))
            (match r with Ok query => sg_done s ++ [(thread, sn, query)] | _ => sg_done s end)
      | None => s
      end
  end.
Definition send_run (c : ClientImpl) (ops : list SendStep) : Sending := foldl send_step (mkSending c ∅ []) ops.
End RmwService.
Arguments mkServiceTypeSupport {CMessage} _ _ _.

(** ** Lemmas *)

Lemma wrap_i_mod a b : a mod 2 ^ 64 = b mod 2 ^ 64 -> wrap_i 64 a = wrap_i 64 b.
Proof. intros H. unfold wrap_i. rewrite <- (Zplus_mod_idemp_l a), <- (Zplus_mod_idemp_l b). by rewrite H. Qed.
Lemma wrap_i_congr z : (wrap_i 64 z) mod 2 ^ 64 = z mod 2 ^ 64.
Proof. unfold wrap_i. rewrite Zminus_mod_idemp_l. f_equal. lia. Qed.

Section Lemmas.
Context `{ZA : ZenohApi} `{ZExtL : ZExtLaws} `{ChanL : ChannelLaws} {CMessage : Type}.
Context (typed_decode : list byte -> res string (RosMessage (CMessage := CMessage))).
#[local] Abbreviation ClientImpl := (ClientImpl (CMessage := CMessage)).
#[local] Abbreviation ServiceImpl := (ServiceImpl (CMessage := CMessage)).

(** The two counters of a client agree. *)
Definition mirrored (c : ClientImpl) : Prop :=
  ci_sequence_counter c = wrap_i 64 (cl_sn (ci_inner c)) /\ gid_ok (cl_gid (ci_inner c)).
Definition query_id (q : ServiceQuery) : QueryKey := request_key (attachment (sq_query q)).
Definition next_sn (c : ClientImpl) : Z := wrap_i 64 (cl_sn (ci_inner c)).

Lemma wrap_succ z : wrap_i 64 (wrap_i 64 z + 1) = wrap_i 64 (wrap_u 64 (z + 1)).
Proof.
  apply wrap_i_mod. unfold wrap_u. rewrite Zmod_mod, <- Zplus_mod_idemp_l, wrap_i_congr. by rewrite Zplus_mod_idemp_l.
Qed.

(** A request of the inner client: it always goes out. *)
Lemma send_inner_spec c token now request :
  gid_ok (cl_gid (ci_inner c)) ->
  exists q c', send_inner typed_decode c token now request = (Ok q, c') /\
    query_id q = mkQueryKey (next_sn c) (cl_gid (ci_inner c)) /\ sq_token q = token /\
    payload (sq_query q) = Some (serialize_message (sts_request (ci_ts c)) request) /\
    source_timestamp_of (attachment (sq_query q)) = match now with Some v => wrap_i 64 v | None => 0 end /\
    ci_sequence_counter c' = ci_sequence_counter c /\ next_sn c' = wrap_i 64 (next_sn c + 1) /\
    cl_gid (ci_inner c') = cl_gid (ci_inner c) /\ cl_rx (ci_inner c') = cl_rx (ci_inner c) /\ ci_ts c' = ci_ts c.
Proof.
  intros Hg. unfold send_inner, rmw_send_request, client_new_attachment. cbn [msg_serialize ros_message].
  eexists _, _. split; [reflexivity|]. cbn.
  assert (attachment_ok (Attachment_new (wrap_i 64 (cl_sn (ci_inner c))) (cl_gid (ci_inner c)) now)) as Ha
    by (apply Attachment_new_ok; [apply wrap_i_range; lia|done]).
  unfold query_id, request_key, source_timestamp_of. cbn. rewrite attachment_roundtrip by done.
  split_and!; try done. unfold next_sn. cbn. by rewrite wrap_succ.
Qed.

Lemma client_send_spec c token now request :
  mirrored c ->
  exists q c', client_send_request typed_decode c token now request = (Ok (q, next_sn c), c') /\
    query_id q = mkQueryKey (next_sn c) (cl_gid (ci_inner c)) /\ sq_token q = token /\
    payload (sq_query q) = Some (serialize_message (sts_request (ci_ts c)) request) /\
    source_timestamp_of (attachment (sq_query q)) = match now with Some v => wrap_i 64 v | None => 0 end /\
    mirrored c' /\ next_sn c' = wrap_i 64 (next_sn c + 1) /\
    cl_gid (ci_inner c') = cl_gid (ci_inner c) /\ cl_rx (ci_inner c') = cl_rx (ci_inner c) /\ ci_ts c' = ci_ts c.
Proof.
  intros [Hm Hg]. unfold client_send_request, take_sequence.
  destruct (send_inner_spec (ci_set c (ci_inner c) (wrap_i 64 (ci_sequence_counter c + 1))) token now request Hg)
    as (q & c' & -> & H1 & H2 & H3 & H4 & H5 & H6 & H7 & H8 & H9).
  exists q, c'. cbn [mbind res_bind]. rewrite Hm. split; [done|]. unfold next_sn in *. cbn in *.
  split_and!; try done. unfold mirrored. rewrite H5, H6, H7, Hm. done.
Qed.

(** *** The ways of a query and of a reply *)

Lemma on_query_empty (s : ServiceImpl) query cap :
  srv_queue (vi_inner s) = Some (mkQueue [] cap) ->
  exists cap', srv_queue (vi_inner (service_on_query s query)) = Some (mkQueue [query] cap') /\
    srv_map (vi_inner (service_on_query s query)) = srv_map (vi_inner s) /\ vi_ts (service_on_query s query) = vi_ts s.
Proof.
  intros Hq. unfold service_on_query, on_query. unfold srv_queue in *. destruct (srv_handler (vi_inner s)) as [q| |q]; try done;
    injection Hq as ->; cbn [handle snd]; rewrite queue_push_eq; cbn; case_match; by eexists.
Qed.
Lemma take_request_spec (s : ServiceImpl) query bs cap header request now :
  srv_queue (vi_inner s) = Some (mkQueue [query] cap) -> payload (sq_query query) = Some bs ->
  exists s', service_take_request s (Some header) request now =
      ((true, Some (mkServiceInfo (mkRequestId (qk_sn (query_id query)) (qk_gid (query_id query)))
                      (source_timestamp_of (attachment (sq_query query))) (match now with Some v => wrap_i 64 v | None => 0 end)),
        (deserialize_message (sts_request (vi_ts s)) bs request).2), s') /\
    srv_map (vi_inner s') = <[query_id query := query]> (srv_map (vi_inner s)) /\ vi_ts s' = vi_ts s.
Proof.
  intros Hq Hp. unfold service_take_request. rewrite Hq. cbn. rewrite Hp. eexists. split; [reflexivity|]. done.
Qed.
Lemma send_response_spec (s : ServiceImpl) id query now response :
  srv_map (vi_inner s) !! mkQueryKey (rq_sequence_number id) (rq_writer_guid id) = Some query ->
  exists s', service_send_response typed_decode s id now response =
      (Ok (mkSample (sq_token query) (serialize_message (sts_response (vi_ts s)) response)
             (Some (Attachment_into_zbytes (Attachment_new (rq_sequence_number id) (rq_writer_guid id) now)))), s') /\
    srv_map (vi_inner s') = delete (mkQueryKey (rq_sequence_number id) (rq_writer_guid id)) (srv_map (vi_inner s)).
Proof. intros Hm. unfold service_send_response, send_response. rewrite Hm. eexists. split; [reflexivity|]. done. Qed.
Lemma reply_take_spec (c : ClientImpl) sample header response now :
  ch_items (cl_rx (ci_inner c)) = [] -> (0 < ch_capacity (cl_rx (ci_inner c)))%N ->
  exists c', client_take_response (client_on_reply c (Some sample)) (Some header) response now =
      ((true, Some (header_of (smp_attachment sample) now),
        (deserialize_message (sts_response (ci_ts c)) (smp_payload sample) response).2), c') /\
    ci_sequence_counter c' = ci_sequence_counter c /\ cl_sn (ci_inner c') = cl_sn (ci_inner c) /\
    cl_gid (ci_inner c') = cl_gid (ci_inner c) /\ ch_items (cl_rx (ci_inner c')) = [].
Proof.
  intros Hi Hcap. destruct (on_reply_spec (ci_inner c) sample Hcap) as (H1 & H2 & _ & _ & H3).
  rewrite Hi in H3. specialize (H3 Hcap). unfold client_take_response, client_on_reply. cbn [ci_inner].
  pose proof (try_recv_spec Sample (cl_rx (on_reply (ci_inner c) (Some sample)))) as Hr.
  destruct (try_recv (cl_rx (on_reply (ci_inner c) (Some sample)))) as [[x rx]|].
  - destruct Hr as [Hr _]. rewrite H3 in Hr. cbn in Hr. injection Hr as <- Hr. eexists. split; [reflexivity|]. done.
  - by rewrite Hr in H3.
Qed.

(** ** Properties *)

(** C6 A call through the RMW layer: for a client whose two counters agree, with no
    response waiting in its channel and room for one, and a service with no request
    queued, with type supports that read back what they wrote, the identifier given
    to the caller is the one in the request's header at the service, with the
    client's gid and the time of sending; answering with that identifier finds the
    request and forgets it; and the response comes back under the same identifier;
    the messages are as they were, and the client is ready for the next call, its
    counters in agreement and its channel empty.  (A response that waits from before
    would be taken first.) *)
Theorem rmw_call_spec (c : ClientImpl) (s : ServiceImpl) cap token now1 now2 now3 now4 request response header header' m m' :
  mirrored c -> ch_items (cl_rx (ci_inner c)) = [] -> (0 < ch_capacity (cl_rx (ci_inner c)))%N ->
  srv_queue (vi_inner s) = Some (mkQueue [] cap) ->
  (deserialize_message (sts_request (vi_ts s)) (serialize_message (sts_request (ci_ts c)) request) m).2 = request ->
  (deserialize_message (sts_response (ci_ts c)) (serialize_message (sts_response (vi_ts s)) response) m').2 = response ->
  let stamp now := match now with Some v => wrap_i 64 v | None => 0 end in
  exists query id c1 s2 sample s3 c2,
    let rid := mkRequestId id (cl_gid (ci_inner c)) in
    client_send_request typed_decode c token now1 request = (Ok (query, id), c1) /\
    service_take_request (service_on_query s query) (Some header) m now2 =
      ((true, Some (mkServiceInfo rid (stamp now1) (stamp now2)), request), s2) /\
    service_send_response typed_decode s2 rid now3 response = (Ok sample, s3) /\ smp_token sample = token /\
    srv_map (vi_inner s3) = delete (mkQueryKey id (cl_gid (ci_inner c))) (srv_map (vi_inner s)) /\
    client_take_response (client_on_reply c1 (Some sample)) (Some header') m' now4 =
      ((true, Some (mkServiceInfo rid (stamp now3) (stamp now4)), response), c2) /\
    mirrored c2 /\ next_sn c2 = wrap_i 64 (id + 1) /\ ch_items (cl_rx (ci_inner c2)) = [].
Proof.
  intros Hm Hrx Hcap Hq Hreq Hrsp stamp.
  destruct (client_send_spec c token now1 request Hm) as (query & c1 & Hs & Hid & Htok & Hpay & Hts & Hm1 & Hn1 & Hg1 & Hrx1 & Hts1).
  destruct (on_query_empty s query cap Hq) as (cap' & Hq1 & Hmap1 & Hvts).
  destruct (take_request_spec (service_on_query s query) query _ cap' header m now2 Hq1 Hpay) as (s2 & Ht & Hmap2 & Hvts2).
  destruct Hm as [Hc Hg]. rewrite Hid, Hts, Hvts, Hreq in Ht. cbn [qk_sn qk_gid] in Ht. rewrite Hid, Hmap1 in Hmap2.
  destruct (send_response_spec s2 (mkRequestId (next_sn c) (cl_gid (ci_inner c))) query now3 response) as (s3 & Hsr & Hmap3);
    [rewrite Hmap2; apply lookup_insert_eq|].
  set (sample := mkSample _ _ _) in Hsr.
  destruct (reply_take_spec c1 sample header' m' now4) as (c2 & Htr & Hk1 & Hk2 & Hk3 & Hk4); [by rewrite Hrx1|by rewrite Hrx1|].
  exists query, (next_sn c), c1, s2, sample, s3, c2. split_and!; [done|done|done|done| | | | |done].
  - rewrite Hmap3, Hmap2. cbn. by rewrite delete_insert_eq.
  - rewrite Htr, Hts1. cbn [sample smp_payload smp_attachment]. rewrite Hvts2, Hvts, Hrsp. unfold header_of.
    rewrite attachment_roundtrip by (apply Attachment_new_ok; [apply wrap_i_range; lia|done]). done.
  - unfold mirrored. destruct Hm1 as [Hm1 Hm2]. rewrite Hk1, Hk2, Hk3. done.
  - unfold next_sn in *. by rewrite Hk2.
Qed.

(** *** Whole sends, one after the other *)

Definition whole (send : nat * option Z * CMessage) : list SendStep :=
  [Enter send.1.1; Leave send.1.1 send.1.2 send.2].
Definition carries (gid : GidArray) (x : nat * Z * ServiceQuery) : Prop := query_id x.2 = mkQueryKey x.1.2 gid.
Lemma whole_step c l send :
  mirrored c -> Forall (carries (cl_gid (ci_inner c))) l ->
  exists c' x, foldl (send_step typed_decode) (mkSending c ∅ l) (whole send) = mkSending c' ∅ (l ++ [x]) /\
    mirrored c' /\ cl_gid (ci_inner c') = cl_gid (ci_inner c) /\ carries (cl_gid (ci_inner c)) x.
Proof.
  intros [Hm Hg] Hl. destruct send as [[t now] m]. cbn [whole foldl send_step take_sequence sg_client sg_entered sg_done fst snd].
  rewrite lookup_insert_eq.
  destruct (send_inner_spec (ci_set c (ci_inner c) (wrap_i 64 (ci_sequence_counter c + 1))) (length l) now m Hg)
    as (q & c' & -> & H1 & _ & _ & _ & H5 & H6 & H7 & _).
  eexists c', (t, _, q). rewrite delete_insert_eq, delete_empty. split; [reflexivity|]. cbn in *.
  split_and!; [|done|]; unfold mirrored, carries, next_sn in *; cbn in *.
  - by rewrite H5, H6, H7, Hm.
  - by rewrite H1, Hm.
Qed.

(** C24 The identifiers of requests: in any sequence of sends of any threads, none of
    which is interrupted by another, each caller is given the number that its
    request carries; but when two threads take their numbers in one order and send
    in the other, each is given the number of the other's request. *)
Theorem request_ids c :
  mirrored c ->
  (forall sends, let out := sg_done (send_run typed_decode c (flat_map whole sends)) in
     length out = length sends /\ Forall (carries (cl_gid (ci_inner c))) out) /\
  (forall now now' m m', exists q q',
     sg_done (send_run typed_decode c [Enter 1; Enter 2; Leave 2 now' m'; Leave 1 now m]) =
       [(2%nat, wrap_i 64 (next_sn c + 1), q'); (1%nat, next_sn c, q)] /\
     query_id q' = mkQueryKey (next_sn c) (cl_gid (ci_inner c)) /\
     query_id q = mkQueryKey (wrap_i 64 (next_sn c + 1)) (cl_gid (ci_inner c))).
Proof.
  intros Hm. split.
  - intros sends. unfold send_run.
    assert (forall l, Forall (carries (cl_gid (ci_inner c))) l -> let out := sg_done (foldl (send_step typed_decode) (mkSending c ∅ l) (flat_map whole sends)) in
      length out = (length l + length sends)%nat /\ Forall (carries (cl_gid (ci_inner c))) out) as Hgen; [|exact (Hgen [] ltac:(constructor))].
    revert c Hm. induction sends as [|x sends IH]; intros c Hm l Hl; [split; [cbn; lia|done]|].
    cbn [flat_map]. rewrite foldl_app. destruct (whole_step c l x Hm Hl) as (c' & y & -> & Hm' & Hg' & Hy).
    destruct (IH c' Hm' (l ++ [y])) as [H1 H2]; [rewrite Hg'; by apply Forall_app_2, Forall_singleton|].
    cbn zeta in *. rewrite H1, length_app, <- Hg'. split; [cbn; lia|exact H2].
  - intros now now' m m'. destruct Hm as [Hm Hg]. unfold send_run. cbn [foldl send_step take_sequence sg_client sg_entered sg_done].
    rewrite lookup_insert_eq. set (c2 := ci_set _ _ _).
    cbn [length]. destruct (send_inner_spec c2 0 now' m' Hg) as (q' & c3 & -> & H1 & _ & _ & _ & _ & H6 & H7 & _).
    cbn [sg_done sg_client sg_entered length app]. rewrite lookup_delete_ne, lookup_insert_ne, lookup_insert_eq by done.
    assert (gid_ok (cl_gid (ci_inner c3))) as Hg3 by (by rewrite H7).
    destruct (send_inner_spec c3 1 now m Hg3) as (q & c4 & -> & G1 & _).
    exists q, q'. cbn. rewrite Hm. split; [done|]. split; [exact H1|]. rewrite G1, H6, H7. done.
Qed.
End Lemmas.

(** ** A concrete call *)

#[local] Existing Instances ex_zenoh ex_zext ex_zext_laws.
(** Messages of bytes with the first byte as their length, in buffers of 512. *)
Definition ex_counted : TypeSupport (list byte) :=
  mkTypeSupport (fun m => S (length m))
    (fun m buffer => (true, byte_of_Z (Z.of_nat (length m)) :: m ++ drop (S (length m)) buffer))
    (fun bytes m => match bytes with [] => (false, m) | n :: rest => (true, firstn (Z.to_nat (u8_of_byte n)) rest) end)
    "AddTwoInts_Response_" "example_interfaces::srv" TypeHash_zero.
Definition ex_service_ts : ServiceTypeSupport := mkServiceTypeSupport None ex_counted ex_counted.
Definition ex_rmw_client : ClientImpl :=
  mkClientImpl (mkClient 1 (replicate 16 x05) "0/add" (bounded 10) "/add") "/add" ex_best_effort ex_service_ts cells_new 1 ex_talker.
Definition ex_rmw_service : ServiceImpl :=
  mkServiceImpl (mkServer "0/add" 1 (replicate 16 x06) (HQueueWithNotifier (queue_new 10)) ∅) "/add" ex_service_ts
    ex_best_effort cells_new ex_listener.
Definition ex_no_decode (_ : list byte) : res string (RosMessage (CMessage := list byte)) := Err "not called"%string.
Definition ex_header : ServiceInfo := mkServiceInfo (mkRequestId 0 []) 0 0.

Lemma rmw_call_spec_witness :
  exists query id c1 s2,
    client_send_request ex_no_decode ex_rmw_client 0 (Some 4%Z) [x01; x02] = (Ok (query, id), c1) /\ id = 1 /\
    service_take_request (service_on_query ex_rmw_service query) (Some ex_header) [] (Some 5%Z) =
      ((true, Some (mkServiceInfo (mkRequestId 1 (replicate 16 x05)) 4 5), [x01; x02]), s2).
Proof.
  destruct (rmw_call_spec ex_no_decode ex_rmw_client ex_rmw_service 10 0 (Some 4%Z) (Some 5%Z) (Some 6%Z) (Some 7%Z)
    [x01; x02] [x03] ex_header ex_header [] []) as (query & id & c1 & s2 & sample & s3 & c2 & H1 & H2 & _).
  - split; reflexivity.
  - reflexivity.
  - done.
  - reflexivity.
  - reflexivity.
  - reflexivity.
  - assert (id = 1) as Hid by (cbn in H1; by injection H1 as _ <- _). exists query, id, c1, s2. split_and!; [exact H1|exact Hid|].
    rewrite Hid in H2. exact H2.
Defined.

Lemma request_ids_witness :
  exists q q',
    sg_done (send_run ex_no_decode ex_rmw_client [Enter 1; Enter 2; Leave 2 None [x02]; Leave 1 None [x01]]) =
      [(2%nat, 2, q'); (1%nat, 1, q)] /\ qk_sn (query_id q') = 1 /\ qk_sn (query_id q) = 2.
Proof.
  destruct (request_ids ex_no_decode ex_rmw_client ltac:(by split)) as [_ H].
  destruct (H None None [x01] [x02]) as (q & q' & H1 & H2 & H3). exists q, q'. rewrite H2, H3. split_and!; [exact H1|reflexivity|reflexivity].
Defined.
