(* ===== verification/RmwWait.v ===== *)
(** * Waiting in the RMW layer
    (crates/rmw-zenoh-rs/src/wait_set.rs, guard_condition.rs, traits.rs, utils.rs)

    Guard conditions, and [rmw_wait] over arrays of pointers that it nulls in place.
    The entities live in a [World] that other threads change while the caller is
    asleep: [world_at] says what it is at each nanosecond, and a list of times says
    when the notifier was notified.  A notification is lost when nobody sleeps, as
    for any condition variable.  A call's check and its update of the arrays happen
    at one instant of the world.  A timeout whose [Duration] overflows panics.  The
    theorems: the arrays after a return, and when a call returns. *)
From stdpp Require Import gmap functions.
From S2P Require Import Prelude Entity Service Events PubSub RmwPubSub RmwEndpoints RmwService.
Open Scope list_scope.

(** ** Definitions *)

(** [trait Waitable]. *)
Class Waitable (T : Type) := waitable_ready : T -> bool.

(** [GuardConditionImpl]; of its notifier, whether it has one. *)
Record GuardConditionImpl := mkGuardCondition { gc_notifier : bool; gc_triggered : bool }.
Definition gc_default : GuardConditionImpl := mkGuardCondition false false.
Definition gc_is_ready (g : GuardConditionImpl) : bool := gc_triggered g.
#[export] Instance guard_condition_waitable : Waitable GuardConditionImpl := gc_is_ready.
(** [trigger]: whether the notifier was notified. *)
Definition gc_trigger (g : GuardConditionImpl) : bool * GuardConditionImpl :=
  if gc_notifier g then (true, mkGuardCondition true true) else (false, g).
Definition gc_reset (g : GuardConditionImpl) : GuardConditionImpl := mkGuardCondition (gc_notifier g) false.

(** The entities that are waited for; an event handle comes with the manager that it
    shares, whose list of statuses has one for each type. *)
Section Waitables.
Context `{ZA : ZenohApi} `{Chan : ChannelApi} `{PS : PubSubApi} {CMessage : Type}.
#[export] Instance subscription_waitable : Waitable (@SubscriptionImpl _ _ CMessage) := subscription_is_ready.
#[export] Instance service_waitable : Waitable (@ServiceImpl _ CMessage) := service_is_ready.
#[export] Instance client_waitable : Waitable (@ClientImpl _ _ CMessage) := client_is_ready.
#[export] Instance event_waitable : Waitable (EventsManager * RmEventHandle) := fun '(m, h) =>
  match Events.is_ready (E := unit) m (handle_event_type h) with Ok ready => ready | _ => false end.
End Waitables.

(** An array of pointers; [None] is null. *)
#[local] Abbreviation Pointers := (list (option nat)).

Section Wait.
Context {Sub Srv Cli Ev : Type} `{Waitable Sub} `{Waitable Srv} `{Waitable Cli} `{Waitable Ev}.

(** The entities behind pointers that are not null. An event is ready when it has
    data and its handle is. *)
Record World := mkWorld {
  w_sub : nat -> Sub;
  w_gc : nat -> GuardConditionImpl;
  w_srv : nat -> Srv;
  w_cli : nat -> Cli;
  w_event : nat -> option Ev;
}.
Definition set_gc (w : World) (p : nat) (g : GuardConditionImpl) : World :=
  mkWorld (w_sub w) (<[p := g]> (w_gc w)) (w_srv w) (w_cli w) (w_event w).
Definition event_ready (e : option Ev) : bool := match e with Some h => waitable_ready h | None => false end.

(** The array of a kind of entity; [None] is null. *)
Record Arrays := mkArrays {
  a_subscriptions : option Pointers;
  a_guard_conditions : option Pointers;
  a_services : option Pointers;
  a_clients : option Pointers;
  a_events : option Pointers;
}.

(** [WaitSetImpl]. *)
Record WaitSetImpl := mkWaitSet {
  ws_subscriptions : list nat;
  ws_guard_conditions : list nat;
  ws_services : list nat;
  ws_clients : list nat;
  ws_events : list nat;
}.
Definition wait_set_new : WaitSetImpl := mkWaitSet [] [] [] [] [].
Definition not_null (a : option Pointers) : list nat := omap id (default [] a).
Definition fill_wait_set (a : Arrays) : WaitSetImpl :=
  mkWaitSet (not_null (a_subscriptions a)) (not_null (a_guard_conditions a)) (not_null (a_services a))
    (not_null (a_clients a)) (not_null (a_events a)).

Definition check_ready (ws : WaitSetImpl) (w : World) : bool :=
  existsb (fun p => waitable_ready (w_sub w p)) (ws_subscriptions ws) ||
  existsb (fun p => waitable_ready (w_gc w p)) (ws_guard_conditions ws) ||
  existsb (fun p => waitable_ready (w_srv w p)) (ws_services ws) ||
  existsb (fun p => waitable_ready (w_cli w p)) (ws_clients ws) ||
  existsb (fun p => event_ready (w_event w p)) (ws_events ws).

(** [rmw_time_t], and the duration of a wait in nanoseconds. *)
Record rmw_time_t := mkTime { t_sec : Z; t_nsec : Z }.
Definition U64_MAX : Z := 2 ^ 64 - 1.
(** [Duration::from_secs(timeout.sec) + Duration::from_nanos(timeout.nsec)] panics
    when its seconds overflow; nothing here has an error. *)
Definition timeout_duration (timeout : rmw_time_t) : res unit (option Z) :=
  if (t_sec timeout =? U64_MAX)%Z then Ok None
  else if (U64_MAX <? t_sec timeout + t_nsec timeout / 1000000000)%Z then Panic
  else Ok (Some (t_sec timeout * 1000000000 + t_nsec timeout)%Z).

(** The loops of [wait], asleep since [t0]: [notified] are the times, in order, at
    which the notifier is notified from then on. The result is whether something
    was ready and when that was; [None] is a call that sleeps on. *)
Section Asleep.
Context (world_at : Z -> World).
Fixpoint wait_for (ws : WaitSetImpl) (dur t0 : Z) (notified : list Z) : bool * Z :=
  match notified with
  | t :: rest =>
      if (t <? t0 + dur)%Z then
        if check_ready ws (world_at t) then (true, t) else wait_for ws dur t rest
      else (check_ready ws (world_at (t0 + dur)), (t0 + dur)%Z)
  | [] => (check_ready ws (world_at (t0 + dur)), (t0 + dur)%Z)
  end.
Fixpoint wait_forever (ws : WaitSetImpl) (notified : list Z) : option Z :=
  match notified with
  | t :: rest => if check_ready ws (world_at t) then Some t else wait_forever ws rest
  | [] => None
  end.
Definition wait (ws : WaitSetImpl) (timeout : rmw_time_t) (t0 : Z) (notified : list Z) : res unit (option (bool * Z)) :=
  if (t_sec timeout =? 0)%Z && (t_nsec timeout =? 0)%Z then Ok (Some (check_ready ws (world_at t0), t0)) else
  timeout_duration ← timeout_duration timeout;
  Ok match timeout_duration with
     | None => (fun t => (true, t)) <$> wait_forever ws notified
     | Some dur => Some (wait_for ws dur t0 notified)
     end.
End Asleep.

(** *** The arrays *)

Definition null_unless (ready : nat -> bool) (a : Pointers) : Pointers :=
  map (fun o => match o with Some p => if ready p then Some p else None | None => None end) a.
(** The guard conditions are reset as they are found ready, so that a second
    pointer to the same one is nulled. *)
Fixpoint null_guards (w : World) (a : Pointers) : Pointers * World :=
  match a with
  | [] => ([], w)
  | None :: a => let '(a, w) := null_guards w a in (None :: a, w)
  | Some p :: a =>
      if negb (waitable_ready (w_gc w p)) then let '(a, w) := null_guards w a in (None :: a, w)
      else let '(a, w) := null_guards (set_gc w p (gc_reset (w_gc w p))) a in (Some p :: a, w)
  end.
Definition update_arrays (w : World) (a : Arrays) : Arrays * World :=
  let subscriptions := null_unless (fun p => waitable_ready (w_sub w p)) <$> a_subscriptions a in
  let services := null_unless (fun p => waitable_ready (w_srv w p)) <$> a_services a in
  let clients := null_unless (fun p => waitable_ready (w_cli w p)) <$> a_clients a in
  let '(guards, w) := match a_guard_conditions a with
                      | Some g => let '(g, w) := null_guards w g in (Some g, w)
                      | None => (None, w)
                      end in
  let events := null_unless (fun p => event_ready (w_event w p)) <$> a_events a in
  (mkArrays subscriptions guards services clients events, w).

(** [rmw_wait] on a wait set that is not null and whose old contents are cleared;
    a null timeout waits for ever. With the return code come the arrays, the world
    and the time of the return; [None] sleeps on. *)
Definition rmw_wait (world_at : Z -> World) (a : Arrays) (wait_timeout : option rmw_time_t) (t0 : Z) (notified : list Z)
    : res unit (option (rmw_ret_t * Arrays * World * Z)) :=
  let timeout := default (mkTime U64_MAX 0) wait_timeout in
  ready ← wait world_at (fill_wait_set a) timeout t0 notified;
  Ok match ready with
     | None => None
     | Some (true, t) => let '(a, w) := update_arrays (world_at t) a in Some (RMW_RET_OK, a, w, t)
     | Some (false, t) => Some (RMW_RET_TIMEOUT, a, world_at t, t)
     end.

(** *** Guard conditions *)

(** [rmw_create_guard_condition] leaves a condition with the context's notifier;
    [rmw_trigger_guard_condition], whether the notifier was notified and the code. *)
Definition rmw_create_guard_condition (w : World) (p : nat) : World := set_gc w p (mkGuardCondition true false).
Definition rmw_trigger_guard_condition (w : World) (guard_condition : option nat) : rmw_ret_t * bool * World :=
  match guard_condition with
  | None => (RMW_RET_INVALID_ARGUMENT, false, w)
  | Some p => let '(notified, g) := gc_trigger (w_gc w p) in (RMW_RET_OK, notified, set_gc w p g)
  end.
End Wait.
Arguments World _ _ _ _ : clear implicits.

(** ** Properties *)

Section Proofs.
Context {Sub Srv Cli Ev : Type} `{Waitable Sub} `{Waitable Srv} `{Waitable Cli} `{Waitable Ev}.
Implicit Types (w : World Sub Srv Cli Ev) (a : Arrays).

(** *** The arrays *)

(** An entry of an array after a return: its index is the one it had. *)
Definition entry_after (ready : nat -> bool) (o : option nat) : option nat :=
  match o with Some p => if ready p then Some p else None | None => None end.
(** A guard condition whose pointer comes at an earlier index was reset by then. *)
Definition first_at (l : Pointers) (i p : nat) : bool :=
  negb (existsb (fun o => bool_decide (o = Some p)) (firstn i l)).

Lemma set_gc_lookup w p g q : w_gc (set_gc w p g) q = if decide (p = q) then g else w_gc w q.
Proof.
  unfold set_gc. cbn. case_decide as E; [subst; by rewrite fn_lookup_insert | by rewrite fn_lookup_insert_ne].
Qed.

(** What the reset of some guard conditions leaves as it was. *)
Definition same_but_guards w w' : Prop :=
  w_sub w' = w_sub w /\ w_srv w' = w_srv w /\ w_cli w' = w_cli w /\ w_event w' = w_event w.

Lemma null_guards_others l : forall w, same_but_guards w (null_guards w l).2.
Proof.
  induction l as [|[p|] l IH]; intros w; cbn; [by repeat split | |].
  - destruct (waitable_ready (w_gc w p)); cbn.
    + specialize (IH (set_gc w p (gc_reset (w_gc w p)))). by destruct (null_guards _ l).
    + specialize (IH w). by destruct (null_guards _ l).
  - specialize (IH w). by destruct (null_guards _ l).
Qed.

Lemma null_guards_gc l : forall w p,
  w_gc (null_guards w l).2 p = if bool_decide (Some p ∈ l) then gc_reset (w_gc w p) else w_gc w p.
Proof.
  induction l as [|[q|] l IH]; intros w p; cbn; [by rewrite bool_decide_false by set_solver | |].
  - assert (Hq : waitable_ready (w_gc w q) = false -> gc_reset (w_gc w q) = w_gc w q).
    { unfold waitable_ready, guard_condition_waitable, gc_is_ready, gc_reset. by destruct (w_gc w q) as [? []]. }
    destruct (waitable_ready (w_gc w q)) eqn:R; cbn.
    + specialize (IH (set_gc w q (gc_reset (w_gc w q))) p). rewrite set_gc_lookup in IH.
      destruct (null_guards _ l). cbn in *. rewrite IH.
      repeat case_bool_decide; case_decide; subst; try set_solver; by destruct (w_gc w p).
    + specialize (IH w p). destruct (null_guards _ l). cbn in *. rewrite IH.
      destruct (decide (p = q)) as [->|N]; [rewrite (Hq eq_refl); by repeat case_bool_decide |].
      repeat case_bool_decide; try done; set_solver.
  - specialize (IH w p). destruct (null_guards _ l). cbn in *. rewrite IH.
    repeat case_bool_decide; try done; set_solver.
Qed.

Lemma null_guards_entries l : forall w i o, l !! i = Some o ->
  (null_guards w l).1 !! i = Some (entry_after (fun p => gc_triggered (w_gc w p) && first_at l i p) o).
Proof.
  induction l as [|h l IH]; intros w i o E; [done|].
  destruct i as [|i]; cbn in E.
  - simplify_eq. destruct o as [p|]; cbn; [|by destruct (null_guards w l)].
    change (waitable_ready (w_gc w p)) with (gc_triggered (w_gc w p)).
    rewrite andb_true_r. destruct (gc_triggered (w_gc w p)); cbn; by destruct (null_guards _ l).
  - assert (F : forall w', (forall p, Some p = o -> gc_triggered (w_gc w' p) && first_at l i p =
                                  gc_triggered (w_gc w p) && first_at (h :: l) (S i) p) ->
                       (null_guards w' l).1 !! i =
                       Some (entry_after (fun p => gc_triggered (w_gc w p) && first_at (h :: l) (S i) p) o)).
    { intros w' A. rewrite (IH w' i o E). destruct o as [p|]; [|done]. cbn [entry_after]. by rewrite A. }
    destruct h as [q|]; cbn [null_guards].
    + change (waitable_ready (w_gc w q)) with (gc_triggered (w_gc w q)).
      destruct (gc_triggered (w_gc w q)) eqn:R; cbn [negb].
      * specialize (F (set_gc w q (gc_reset (w_gc w q)))). assert (D := set_gc_lookup w q (gc_reset (w_gc w q))).
        destruct (null_guards _ l). cbn [fst] in *. apply F.
        intros p' _. rewrite D. clear D. unfold first_at. cbn. case_decide as D.
        -- subst. rewrite bool_decide_true by done. cbn. by rewrite andb_false_r.
        -- rewrite (bool_decide_false (Some q = Some p')) by congruence. done.
      * specialize (F w). destruct (null_guards _ l). cbn in *. apply F.
        intros p' _. unfold first_at. cbn. destruct (decide (q = p')) as [<-|D]; [by rewrite R|].
        rewrite (bool_decide_false (Some q = Some p')) by congruence. done.
    + specialize (F w). destruct (null_guards w l). cbn in *. by apply F.
Qed.

Lemma null_guards_length l : forall w, length (null_guards w l).1 = length l.
Proof.
  induction l as [|[p|] l IH]; intros w; cbn; [done | |].
  - destruct (waitable_ready (w_gc w p)); cbn.
    + specialize (IH (set_gc w p (gc_reset (w_gc w p)))). destruct (null_guards _ l). cbn in *. by rewrite IH.
    + specialize (IH w). destruct (null_guards _ l). cbn in *. by rewrite IH.
  - specialize (IH w). destruct (null_guards w l). cbn in *. by rewrite IH.
Qed.

Lemma null_guards_imap l w :
  (null_guards w l).1 = imap (fun i o => entry_after (fun p => gc_triggered (w_gc w p) && first_at l i p) o) l.
Proof.
  apply list_eq. intros i. rewrite list_lookup_imap.
  destruct (l !! i) as [o|] eqn:E; cbn [fmap option_fmap option_map].
  - by apply null_guards_entries.
  - apply lookup_ge_None_2. rewrite null_guards_length. by apply lookup_ge_None_1.
Qed.

(** *** What is ready *)

(** The pointer at an index of an array. *)
Definition slot (o : option Pointers) (i : nat) : option nat := l ← o; x ← l !! i; x.
#[local] Arguments slot : simpl never.
Definition has_ready w a : Prop := exists i p,
  slot (a_subscriptions a) i = Some p /\ waitable_ready (w_sub w p) = true \/
  slot (a_guard_conditions a) i = Some p /\ waitable_ready (w_gc w p) = true \/
  slot (a_services a) i = Some p /\ waitable_ready (w_srv w p) = true \/
  slot (a_clients a) i = Some p /\ waitable_ready (w_cli w p) = true \/
  slot (a_events a) i = Some p /\ event_ready (w_event w p) = true.

Lemma existsb_not_null (f : nat -> bool) o :
  existsb f (not_null o) = true <-> exists i p, slot o i = Some p /\ f p = true.
Proof.
  rewrite existsb_exists. setoid_rewrite <- list_elem_of_In. unfold not_null, slot.
  setoid_rewrite list_elem_of_omap. setoid_rewrite list_elem_of_lookup. destruct o as [l|]; cbn; split.
  - intros (x & (y & (i & I) & E) & F). unfold id in E. subst. exists i, x. by rewrite I.
  - intros (i & p & E & F). destruct (l !! i) as [x|] eqn:I; [|done]. cbn in E. subst. eauto 6.
  - intros (x & (y & (i & I) & E) & F). done.
  - intros (i & p & E & F). done.
Qed.

Lemma check_ready_spec w a : check_ready (fill_wait_set a) w = true <-> has_ready w a.
Proof.
  unfold check_ready, has_ready. cbn [ws_subscriptions ws_guard_conditions ws_services ws_clients ws_events fill_wait_set].
  rewrite !orb_true_iff, !existsb_not_null. naive_solver.
Qed.

Lemma kept_iff (b : nat -> bool) q p : (if b q then Some q else None) = Some p <-> q = p /\ b p = true.
Proof. split; [destruct (b q) eqn:E; intros; by simplify_eq | intros [-> E]; by rewrite E]. Qed.

Lemma slot_null_unless ready o i p :
  slot (null_unless ready <$> o) i = Some p <-> slot o i = Some p /\ ready p = true.
Proof.
  unfold slot, null_unless. destruct o as [l|]; cbn; [|naive_solver].
  rewrite (list_lookup_fmap _ l i). destruct (l !! i) as [[q|]|]; cbn; [|naive_solver..].
  rewrite kept_iff. naive_solver.
Qed.

Lemma slot_null_guards l w i p : slot (Some (null_guards w l).1) i = Some p <->
  slot (Some l) i = Some p /\ gc_triggered (w_gc w p) = true /\ first_at l i p = true.
Proof.
  rewrite null_guards_imap. unfold slot. cbn. rewrite list_lookup_imap.
  destruct (l !! i) as [[q|]|]; cbn; [|naive_solver..].
  rewrite (kept_iff (fun p => gc_triggered (w_gc w p) && first_at l i p)), andb_true_iff. naive_solver.
Qed.

Lemma null_guards_some l : forall w, (exists i p, slot (Some l) i = Some p /\ gc_triggered (w_gc w p) = true) ->
  exists i p, slot (Some (null_guards w l).1) i = Some p.
Proof.
  assert (S' : forall o (l' : Pointers) i p, slot (Some l') i = Some p -> slot (Some (o :: l')) (S i) = Some p) by done.
  induction l as [|[q|] l IH]; intros w (i & p & E & T).
  - by destruct i.
  - cbn [null_guards]. change (waitable_ready (w_gc w q)) with (gc_triggered (w_gc w q)).
    destruct (gc_triggered (w_gc w q)) eqn:R; cbn [negb].
    + exists 0, q. by destruct (null_guards _ l).
    + destruct i as [|i]; [unfold slot in E; cbn in E; congruence|].
      destruct (IH w) as (j & p' & E'); [eauto|]. destruct (null_guards w l). eauto.
  - destruct i as [|i]; [done|]. cbn [null_guards].
    destruct (IH w) as (j & p' & E'); [eauto|]. destruct (null_guards w l). eauto.
Qed.

Definition same_length (o o' : option Pointers) : Prop := length <$> o' = length <$> o.
Lemma null_unless_length ready o : same_length o (null_unless ready <$> o).
Proof. destruct o; [|done]. unfold same_length, null_unless. cbn. by rewrite length_fmap. Qed.

(** What a wait that found something ready leaves. *)
Record Woken w a w' a' : Prop := {
  woken_lengths :
    same_length (a_subscriptions a) (a_subscriptions a') /\ same_length (a_guard_conditions a) (a_guard_conditions a') /\
    same_length (a_services a) (a_services a') /\ same_length (a_clients a) (a_clients a') /\
    same_length (a_events a) (a_events a');
  woken_subscriptions : forall i p, slot (a_subscriptions a') i = Some p <->
    slot (a_subscriptions a) i = Some p /\ waitable_ready (w_sub w p) = true;
  woken_services : forall i p, slot (a_services a') i = Some p <->
    slot (a_services a) i = Some p /\ waitable_ready (w_srv w p) = true;
  woken_clients : forall i p, slot (a_clients a') i = Some p <->
    slot (a_clients a) i = Some p /\ waitable_ready (w_cli w p) = true;
  woken_events : forall i p, slot (a_events a') i = Some p <->
    slot (a_events a) i = Some p /\ event_ready (w_event w p) = true;
  woken_guard_conditions : forall i p, slot (a_guard_conditions a') i = Some p <->
    slot (a_guard_conditions a) i = Some p /\ gc_triggered (w_gc w p) = true /\
    (forall j, (j < i)%nat -> slot (a_guard_conditions a) j <> Some p);
  woken_some : exists i p, slot (a_subscriptions a') i = Some p \/ slot (a_guard_conditions a') i = Some p \/
    slot (a_services a') i = Some p \/ slot (a_clients a') i = Some p \/ slot (a_events a') i = Some p;
  woken_others : same_but_guards w w';
  woken_reset : forall p, w_gc w' p =
    if bool_decide (Some p ∈ default [] (a_guard_conditions a)) then gc_reset (w_gc w p) else w_gc w p;
}.

Lemma first_at_spec (l : Pointers) i p :
  first_at l i p = true <-> forall j, (j < i)%nat -> slot (Some l) j <> Some p.
Proof.
  unfold first_at. rewrite negb_true_iff, <- not_true_iff_false, existsb_exists. unfold slot. cbn. split.
  - intros N j L E. destruct (l !! j) as [o|] eqn:O; [|done]. cbn in E. subst.
    apply N. exists (Some p). split; [|by apply bool_decide_eq_true].
    apply list_elem_of_In, list_elem_of_lookup. exists j. by rewrite lookup_take_lt.
  - intros N (o & I & E%bool_decide_eq_true). subst.
    apply list_elem_of_In, list_elem_of_lookup in I as (j & J).
    apply lookup_take_Some in J as [J L]. apply (N j L). by rewrite J.
Qed.

Lemma update_arrays_spec w a : has_ready w a ->
  let '(a', w') := update_arrays w a in Woken w a w' a'.
Proof.
  intros (i & p & R). unfold update_arrays.
  assert (exists g' w', (match a_guard_conditions a with
      | Some g => let '(g, w) := null_guards w g in (Some g, w) | None => (None, w) end) = (g', w') /\
    same_length (a_guard_conditions a) g' /\ same_but_guards w w' /\
    (forall i p, slot g' i = Some p <-> slot (a_guard_conditions a) i = Some p /\ gc_triggered (w_gc w p) = true /\
       (forall j, (j < i)%nat -> slot (a_guard_conditions a) j <> Some p)) /\
    (forall i p, slot (a_guard_conditions a) i = Some p -> gc_triggered (w_gc w p) = true -> exists i p, slot g' i = Some p) /\
    (forall p, w_gc w' p =
       if bool_decide (Some p ∈ default [] (a_guard_conditions a)) then gc_reset (w_gc w p) else w_gc w p))
    as (g' & w' & -> & L & O & K & X & G).
  { destruct (a_guard_conditions a) as [l|].
    - exists (Some (null_guards w l).1), (null_guards w l).2. split_and!.
      + by destruct (null_guards w l).
      + unfold same_length. cbn. by rewrite null_guards_length.
      + apply null_guards_others.
      + intros. by rewrite slot_null_guards, first_at_spec.
      + intros. eapply null_guards_some; eauto.
      + intros. apply null_guards_gc.
    - exists None, w. by repeat split; unfold slot; cbn; try naive_solver. }
  assert (Y : forall i p, slot (a_guard_conditions a) i = Some p -> waitable_ready (w_gc w p) = true ->
                exists i p, slot g' i = Some p) by exact X.
  destruct O as (Os & Ov & Oc & Oe). rewrite Oe.
  split; cbn; try apply slot_null_unless; try done.
  - split_and!; try apply null_unless_length; done.
  - destruct R as [[E R]|[[E R]|[[E R]|[[E R]|[E R]]]]].
    2: { destruct (Y i p E R) as (i' & p' & E'). exists i', p'. by right; left. }
    all: exists i, p; rewrite !slot_null_unless; tauto.
Qed.

(** A wait for one guard condition. *)
Definition wait_guard (p : nat) : Arrays := mkArrays None (Some [Some p]) None None None.
Lemma check_guard w p : gc_triggered (w_gc w p) = true -> check_ready (fill_wait_set (wait_guard p)) w = true.
Proof.
  intros T. apply check_ready_spec. exists 0%nat, p. right. left. by split.
Qed.
Lemma update_guard w p : gc_triggered (w_gc w p) = true ->
  update_arrays w (wait_guard p) = (wait_guard p, set_gc w p (gc_reset (w_gc w p))).
Proof.
  intros T. unfold update_arrays. cbn. change (waitable_ready (w_gc w p)) with (gc_triggered (w_gc w p)).
  by rewrite T.
Qed.

(** *** When a call returns *)

Definition ready_at (world_at : Z -> World Sub Srv Cli Ev) a (t : Z) : bool :=
  check_ready (fill_wait_set a) (world_at t).
(** Each of the times comes before the time limit, which starts again at each. *)
Fixpoint in_time (limit : option Z) (t0 : Z) (times : list Z) : bool :=
  match times with
  | [] => true
  | t :: rest => match limit with Some d => (t <? t0 + d)%Z | None => true end && in_time limit t rest
  end.
Definition code_of (ready : bool) : rmw_ret_t := if ready then RMW_RET_OK else RMW_RET_TIMEOUT.
Definition code_and_time (o : option (rmw_ret_t * Arrays * World Sub Srv Cli Ev * Z)) : option (rmw_ret_t * Z) :=
  (fun x => (x.1.1.1, x.2)) <$> o.
Definition returned (r : res unit (option (rmw_ret_t * Arrays * World Sub Srv Cli Ev * Z)))
    : res unit (option (rmw_ret_t * Z)) :=
  o ← r; Ok (code_and_time o).
Definition ready_code (o : option (bool * Z)) : option (rmw_ret_t * Z) := (fun r => (code_of r.1, r.2)) <$> o.

Lemma rmw_wait_returned world_at a timeout t0 notified :
  returned (rmw_wait world_at a timeout t0 notified) =
  (o ← wait world_at (fill_wait_set a) (default (mkTime U64_MAX 0) timeout) t0 notified;
   Ok (ready_code o)).
Proof.
  unfold rmw_wait, returned. destruct (wait _ _ _ _ _) as [[[[] t]|]| |]; [|done..].
  cbn. by destruct (update_arrays (world_at t) a).
Qed.

(** The answer of [wait] is what [check_ready] says at the time of the return. *)
Lemma wait_result world_at a T t0 notified r t :
  wait world_at (fill_wait_set a) T t0 notified = Ok (Some (r, t)) -> r = ready_at world_at a t.
Proof.
  unfold wait, ready_at. destruct (_ && _); [by intros [= <- <-]|].
  destruct (timeout_duration T) as [[d|]| |]; cbn [mbind res_bind]; [..|done|done]; intros [= E].
  - simplify_eq. revert t0 E. induction notified as [|t' l IH]; intros t0 E; cbn in E; [by simplify_eq|].
    destruct (t' <? t0 + d)%Z; [|by simplify_eq].
    destruct (check_ready _ (world_at t')) eqn:C; [by simplify_eq|by eapply IH].
  - induction notified as [|t' l IH]; cbn in E; [done|].
    destruct (check_ready _ (world_at t')) eqn:C; [cbn in E; by simplify_eq|by apply IH].
Qed.

(** Both loops at once. *)
Lemma wait_for_split world_at a limit notified : forall t0, exists unready rest, notified = unready ++ rest /\
  in_time limit t0 unready = true /\ Forall (fun t => ready_at world_at a t = false) unready /\
  let since := default t0 (last unready) in
  ready_code
    match limit with
    | None => (fun t => (true, t)) <$> wait_forever world_at (fill_wait_set a) notified
    | Some dur => Some (wait_for world_at (fill_wait_set a) dur t0 notified)
    end =
  match rest with
  | t :: _ => if in_time limit since [t] then Some (RMW_RET_OK, t)
              else (fun d => (code_of (ready_at world_at a (since + d)), since + d)%Z) <$> limit
  | [] => (fun d => (code_of (ready_at world_at a (since + d)), since + d)%Z) <$> limit
  end /\
  (forall t, head rest = Some t -> in_time limit since [t] = true -> ready_at world_at a t = true).
Proof.
  induction notified as [|t l IH]; intros t0.
  - exists [], []. cbv zeta; split_and!; try done. by destruct limit.
  - destruct (in_time limit t0 [t]) eqn:I; [destruct (ready_at world_at a t) eqn:R|].
    + exists [], (t :: l). cbn [last default]. rewrite I. cbv zeta; split_and!; try done; [|intros t' [= <-] _; exact R].
      unfold ready_at in R. destruct limit as [d|]; cbn in I |- *; [rewrite andb_true_r in I; rewrite I|]; by rewrite R.
    + destruct (IH t) as (unready & rest & -> & I' & F & E & X). exists (t :: unready), rest.
      assert (default t0 (last (t :: unready)) = default t (last unready)) as -> by (by rewrite last_cons; destruct (last unready)).
      cbv zeta; split_and!; try done.
      * cbn in I |- *. rewrite andb_true_r in I. by rewrite I, I'.
      * by constructor.
      * etransitivity; [|exact E]. unfold ready_at in R.
        destruct limit as [d|]; cbn in I |- *; [rewrite andb_true_r in I; rewrite I|]; by rewrite R.
    + exists [], (t :: l). cbn [last default]. rewrite I. cbv zeta; split_and!; try done; [|intros t' [= <-]; congruence].
      destruct limit as [d|]; [|done]. cbn in I |- *. rewrite andb_true_r in I. by rewrite I.
Qed.


(** C9 What the arrays and the entities are after [rmw_wait]. On [RMW_RET_OK] the
    arrays keep their lengths and every pointer that stays keeps its index ([Woken]); a
    subscription, service, client or event stays exactly when it is ready, a guard
    condition exactly when it is triggered and its pointer comes at no earlier index,
    at least one pointer stays, the triggered guard conditions of the array are reset,
    and no other entity changes. On [RMW_RET_TIMEOUT], the only other code, no entity of
    the arrays is ready and nothing changes. *)
Theorem rmw_wait_arrays world_at a timeout t0 notified code a' w' t :
  rmw_wait world_at a timeout t0 notified = Ok (Some (code, a', w', t)) ->
  let w := world_at t in
  match code with
  | RMW_RET_OK => has_ready w a /\ Woken w a w' a'
  | RMW_RET_TIMEOUT => ~ has_ready w a /\ a' = a /\ w' = w
  | _ => False
  end.
Proof.
  unfold rmw_wait. set (T := default _ timeout). intros E. set (w := world_at t).
  destruct (wait world_at (fill_wait_set a) T t0 notified) as [[[r t']|]| |] eqn:W; [|done..]. cbn [mbind res_bind] in E.
  assert (t' = t) as ->.
  { destruct r; [destruct (update_arrays (world_at t') a)|]; by simplify_eq. }
  pose proof (wait_result world_at a T t0 notified r t W) as Hr.
  destruct r; [|simplify_eq; cbn; split_and!; [|done..]].
  2: { rewrite <- check_ready_spec. unfold ready_at in Hr. fold w in Hr. congruence. }
  apply eq_sym, check_ready_spec in Hr. fold w in Hr, E.
  pose proof (update_arrays_spec w a) as U. destruct (update_arrays w a) as [a1 w1]. injection E as <- <- <-. exact (conj Hr (U Hr)).
Qed.

(** C8 When [rmw_wait] returns, on every sequence of notifications. A zero timeout is
    one check. Otherwise the call sleeps first, whatever is ready: the notifications
    split into those that come in time, each within the time limit of the one before,
    and find nothing ready, and the rest. When the rest starts in time its first
    notification finds something ready and the call returns [RMW_RET_OK] then;
    otherwise the call checks when the limit since the last unready notification has
    passed, and without a limit it never returns. A timeout whose seconds overflow is
    a panic. *)
Theorem rmw_wait_returns world_at a timeout t0 notified :
  let T := default (mkTime U64_MAX 0) timeout in
  if bool_decide (t_sec T = 0 /\ t_nsec T = 0)%Z
  then returned (rmw_wait world_at a timeout t0 notified) = Ok (Some (code_of (ready_at world_at a t0), t0))
  else match timeout_duration T with
  | Ok limit => exists unready rest, notified = unready ++ rest /\
    in_time limit t0 unready = true /\ Forall (fun t => ready_at world_at a t = false) unready /\
    let since := default t0 (last unready) in
    returned (rmw_wait world_at a timeout t0 notified) =
    Ok match rest with
       | t :: _ => if in_time limit since [t] then Some (RMW_RET_OK, t)
                   else (fun d => (code_of (ready_at world_at a (since + d)), since + d)%Z) <$> limit
       | [] => (fun d => (code_of (ready_at world_at a (since + d)), since + d)%Z) <$> limit
       end /\
    (forall t, head rest = Some t -> in_time limit since [t] = true -> ready_at world_at a t = true)
  | Err _ => False
  | Panic => rmw_wait world_at a timeout t0 notified = Panic /\ (U64_MAX < t_sec T + t_nsec T / 1000000000)%Z
  end.
Proof.
  cbv zeta. set (T := default _ timeout). case_bool_decide as Z0.
  - rewrite rmw_wait_returned. fold T. destruct Z0 as [Z1 Z2]. unfold wait. rewrite Z1, Z2. done.
  - assert ((t_sec T =? 0)%Z && (t_nsec T =? 0)%Z = false) as Nz by (apply andb_false_iff; lia).
    destruct (timeout_duration T) as [limit|e|] eqn:D.
    + rewrite rmw_wait_returned. fold T. unfold wait. rewrite Nz, D. cbn [mbind res_bind].
      destruct (wait_for_split world_at a limit notified t0) as (unready & rest & -> & I & F & R & X).
      exists unready, rest. split_and!; [done..| |exact X]. rewrite <- R. by destruct limit.
    + revert D. unfold timeout_duration. by repeat case_match.
    + split.
      * unfold rmw_wait. fold T. unfold wait. by rewrite Nz, D.
      * revert D. unfold timeout_duration. case_match; [done|]. destruct (Z.ltb_spec U64_MAX (t_sec T + t_nsec T / 1000000000)); done.
Qed.

End Proofs.

(** Two subscriptions, of which the second has data after 5 ns, and one guard
    condition, whose pointer comes twice; a null notification at 3 ns. *)
#[local] Instance bool_waitable : Waitable bool := fun b => b.
Definition world_ex (t : Z) : World bool bool bool bool :=
  mkWorld (fun p => (p =? 1)%nat && (5 <=? t)%Z) (fun _ => mkGuardCondition true (5 <=? t)%Z)
    (fun _ => false) (fun _ => false) (fun _ => None).
Definition arrays_ex : Arrays := mkArrays (Some [Some 0; None; Some 1]) (Some [Some 7; Some 7]) None None None.
Lemma rmw_wait_arrays_witness : exists w',
  rmw_wait world_ex arrays_ex None 0 [3; 6]%Z =
    Ok (Some (RMW_RET_OK, mkArrays (Some [None; None; Some 1]) (Some [Some 7; None]) None None None, w', 6%Z)) /\
  Woken (world_ex 6) arrays_ex w' (mkArrays (Some [None; None; Some 1]) (Some [Some 7; None]) None None None).
Proof.
  eexists. split; [reflexivity|].
  exact (proj2 (rmw_wait_arrays world_ex arrays_ex None 0 [3; 6]%Z RMW_RET_OK _ _ 6 eq_refl)).
Defined.
(** The longest finite time of [rmw_time_t] and a few nanoseconds more. *)
Example rmw_wait_overflow :
  rmw_wait world_ex arrays_ex (Some (mkTime (2 ^ 64 - 2) 2000000000)) 0 [3]%Z = Panic.
Proof. reflexivity. Qed.
Example rmw_wait_sleeps : rmw_wait world_ex arrays_ex None 10 [] = Ok None.
Proof. reflexivity. Qed.
