(* ===== verification/RmwContext.v ===== *)
(** * Contexts and nodes of the RMW layer
    (crates/rmw-zenoh-rs/src/context.rs, node.rs, guard_condition.rs, traits.rs)

    The C handles of traits.rs, the error string, the options of an
    initialization, the life of a context, and the nodes with the guard conditions
    that the graph triggers.  Memory that a C caller owns is a value that a function
    returns anew; guard conditions and nodes are boxes, in maps by their pointers,
    and a guard condition that was freed is no longer in its map.  The options of
    security and discovery are C code, by [OptionsApi]. *)
From stdpp Require Import gmap strings.
From S2P Require Import Prelude CdrBuffer RustStr Utf8 CdrPrimitives Attachment Qos ProfileQos Entity SchemaModel RmwZenoh Ros2Dds MsgSerdes Service DescriptionWire DynTypes Events Graph GraphInv GraphProps Config PubSub Node Context DescriptionService TopicNet NodeProps RmwQos RmwPubSub RmwEndpoints RmwWait.
Open Scope list_scope.

(** ** Definitions *)

(** *** Handles *)

Inductive ImplAccessError := NullSelfPtr | NullImplPtr | NonNullImplPtr.

Section Handles.
Context {I : Type}.
(** A pointer to a C struct by what the struct's own pointer leads to; the outer
    [None] is the null handle. [own_*] and [assign_*] return the handle after. *)
Definition Handle : Type := option (option I).
Definition borrow_impl (self : Handle) : res ImplAccessError I :=
  match self with
  | None => Err NullSelfPtr
  | Some None => Err NullImplPtr
  | Some (Some i) => Ok i
  end.
Definition own_impl (self : Handle) : res ImplAccessError I * Handle :=
  match self with
  | None => (Err NullSelfPtr, self)
  | Some None => (Err NullImplPtr, self)
  | Some (Some i) => (Ok i, Some None)
  end.
Definition assign_impl (self : Handle) (val : I) : res ImplAccessError unit * Handle :=
  match self with
  | None => (Err NullSelfPtr, self)
  | Some (Some _) => (Err NonNullImplPtr, self)
  | Some None => (Ok tt, Some (Some val))
  end.
End Handles.
Arguments Handle : clear implicits.

(** *** The error string *)

(** [RMW_ERROR_BUFFER]; a C string is its characters before the NUL. *)
Definition error_buffer_new : list Z := replicate 1024 0%Z.
Fixpoint copy_error (n i : nat) (s buf : list Z) : list Z * nat :=
  match n with
  | O => (buf, i)
  | S n =>
      let c := default 0%Z (s !! i) in
      let buf := <[i := c]> buf in
      if (c =? 0)%Z then (buf, i) else copy_error n (S i) s buf
  end.
Definition rmw_set_error_string (error_string : option (list Z)) (buf : list Z) : list Z :=
  match error_string with
  | Some s => let '(buf, i) := copy_error 1023 0 s buf in <[i := 0%Z]> buf
  | None => <[0%nat := 0%Z]> buf
  end.
Definition c_chars (s : string) : list Z := map (fun a => Z.of_N (N_of_ascii a)) (list_ascii_of_string s).
(** What it returns is what the buffer then holds. *)
Definition rmw_get_error_string (buf : list Z) : list Z :=
  if (default 0 (buf !! 0%nat) =? 0)%Z then list_inserts 0 (c_chars "Mock error" ++ [0%Z]) buf else buf.
Definition rmw_reset_error (buf : list Z) : list Z := <[0%nat := 0%Z]> buf.

(** *** The options *)

Class OptionsApi := {
  Security : Type;
  Discovery_ : Type;
  zero_security : Security;
  zero_discovery : Discovery_;
  security_options_copy : Security -> rmw_ret_t * Security;
  security_options_fini : Security -> rmw_ret_t * Security;
  discovery_options_init : Discovery_ -> rmw_ret_t * Discovery_;
  discovery_options_copy : Discovery_ -> rmw_ret_t * Discovery_;
  discovery_options_fini : Discovery_ -> rmw_ret_t * Discovery_;
}.
(** An allocator: whether a number of bytes can be had, if it has the function,
    and whether it has the other. *)
Record rcl_allocator_t := mkAllocator { allocate : option (nat -> bool); deallocate : bool }.

Section Options.
Context `{OA : OptionsApi}.
Record rmw_init_options_t := mkInitOptions {
  io_instance_id : Z;
  io_identifier : option string;
  io_domain_id : Z;
  io_security : Security;
  io_discovery : Discovery_;
  io_enclave : option string;
  io_allocator : rcl_allocator_t;
  io_impl : option nat;
}.
Definition USIZE_MAX : Z := 2 ^ 64 - 1.
Definition invalid (msg : string) (buf : list Z) : rmw_ret_t * list Z :=
  (RMW_RET_INVALID_ARGUMENT, rmw_set_error_string (Some (c_chars msg)) buf).

(** Each function returns its code, the options after it and the error buffer. *)
Definition rmw_init_options_init (init_options : option rmw_init_options_t) (allocator : rcl_allocator_t)
    (buf : list Z) : rmw_ret_t * option rmw_init_options_t * list Z :=
  match init_options with
  | None => let '(c, buf) := invalid "Invalid argument" buf in (c, None, buf)
  | Some o =>
      let '(ret, discovery) := discovery_options_init zero_discovery in
      let o := mkInitOptions (io_instance_id o) (Some "rmw_zenoh_rs"%string) USIZE_MAX (io_security o) discovery
                 (io_enclave o) allocator (io_impl o) in
      (ret, Some o, buf)
  end.
Definition set_security (o : rmw_init_options_t) s := mkInitOptions (io_instance_id o) (io_identifier o) (io_domain_id o)
  s (io_discovery o) (io_enclave o) (io_allocator o) (io_impl o).
Definition set_discovery (o : rmw_init_options_t) d := mkInitOptions (io_instance_id o) (io_identifier o) (io_domain_id o)
  (io_security o) d (io_enclave o) (io_allocator o) (io_impl o).
Definition set_enclave_impl (o : rmw_init_options_t) e i := mkInitOptions (io_instance_id o) (io_identifier o)
  (io_domain_id o) (io_security o) (io_discovery o) e (io_allocator o) i.

Definition rmw_init_options_copy (src dst : option rmw_init_options_t) (buf : list Z)
    : rmw_ret_t * option rmw_init_options_t * list Z :=
  match src, dst with
  | Some s, Some d =>
      match io_impl d with
      | Some _ => let '(c, buf) := invalid "dst already initialized" buf in (c, dst, buf)
      | None =>
          match allocate (io_allocator s) with
          | None => let '(c, buf) := invalid "Invalid allocator" buf in (c, dst, buf)
          | Some alloc =>
              let '(ret, security) := security_options_copy (io_security s) in
              let d := mkInitOptions (io_instance_id s) (io_identifier s) (io_domain_id s) security (io_discovery d)
                         (io_enclave d) (io_allocator s) (io_impl d) in
              match ret with
              | RMW_RET_OK =>
                  let '(ret, discovery) := discovery_options_copy (io_discovery s) in
                  let d := set_discovery d discovery in
                  match ret with
                  | RMW_RET_OK =>
                      match io_enclave s with
                      | Some enclave =>
                          if alloc (S (String.length enclave)) then (RMW_RET_OK, Some (set_enclave_impl d (Some enclave) None), buf)
                          else (RMW_RET_BAD_ALLOC, Some d,
                                rmw_set_error_string (Some (c_chars "Failed to allocate memory for enclave")) buf)
                      | None => (RMW_RET_OK, Some (set_enclave_impl d None None), buf)
                      end
                  | ret => (ret, Some d, buf)
                  end
              | ret => (ret, Some d, buf)
              end
          end
      end
  | _, _ => let '(c, buf) := invalid "Invalid argument" buf in (c, dst, buf)
  end.
Definition rmw_init_options_fini (init_options : option rmw_init_options_t) : rmw_ret_t * option rmw_init_options_t :=
  match init_options with
  | None => (RMW_RET_INVALID_ARGUMENT, None)
  | Some o =>
      let o := if deallocate (io_allocator o) then set_enclave_impl o None (io_impl o) else o in
      let '(ret, security) := security_options_fini (io_security o) in
      let o := set_security o security in
      match ret with
      | RMW_RET_OK =>
          let '(ret, discovery) := discovery_options_fini (io_discovery o) in
          let o := set_discovery o discovery in
          match ret with
          | RMW_RET_OK => (RMW_RET_OK, Some (set_enclave_impl o (io_enclave o) None))
          | ret => (ret, Some o)
          end
      | ret => (ret, Some o)
      end
  end.
End Options.

(** *** Contexts *)

(** The guard conditions that live. *)
#[local] Abbreviation Guards := (gmap nat GuardConditionImpl).

Section Contexts.
Context `{CX : ContextApi} `{ZExt : !ZExtApi} `{Chan : ChannelApi} `{Sess : SessionApi} `{PS : PubSubApi}.
Context `{HA : HashApi} `{HX : HexApi}.
Context {ReqM : ZMessage GetTypeDescriptionRequest} {RspM : ZMessage GetTypeDescriptionResponse}.
Context {SL : SlabApi} `{OA : OptionsApi}.
Context (endpoint_gid : EndpointEntity -> GidArray).

(** [CStr::to_str]. *)
Definition to_str (s : string) : option string :=
  match from_utf8 (str_bytes s) with Ok s => Some s | _ => None end.

(** [NodeImpl], whose condition [None] is null. *)
Record NodeImpl := mkNodeImpl {
  ni_inner : ZNode;
  ni_name : string;
  ni_namespace : string;
  ni_fq_name : string;
  ni_graph_guard_condition : option nat;
}.
(** [ContextImpl], without its notifier; of its graph, the manager that it sets up. *)
Record ContextImpl := mkContextImpl {
  ci_zcontext : ZContext;
  ci_events : GraphEventManager;
  ci_enclave : string;
  ci_next_entity_id : Z;
  ci_is_shutdown : bool;
  ci_nodes : gmap nat NodeImpl;
}.
Definition ContextImpl_new (domain_id : Z) (enclave : string) : res string ContextImpl :=
  match context_build (with_enclave (with_domain_id context_builder_default domain_id) enclave) with
  | Ok zcontext => Ok (mkContextImpl zcontext (set_guard_condition_trigger graph_events_new) enclave 1 false ∅)
  | Err e => Err ("Failed to create ZContext: " ++ zerror_text e)%string
  | Panic => Panic
  end.
Record rmw_context_t := mkRmwContext {
  ctx_instance_id : Z;
  ctx_identifier : option string;
  ctx_actual_domain_id : Z;
  ctx_impl : option ContextImpl;
}.
(** [rmw_get_zero_initialized_context]. *)
Definition zero_initialized_context : rmw_context_t := mkRmwContext 0 None 0 None.
Definition set_impl (c : rmw_context_t) (i : option ContextImpl) : rmw_context_t :=
  mkRmwContext (ctx_instance_id c) (ctx_identifier c) (ctx_actual_domain_id c) i.
Definition handle_of (c : option rmw_context_t) : Handle ContextImpl := ctx_impl <$> c.
Definition with_handle (c : option rmw_context_t) (h : Handle ContextImpl) : option rmw_context_t :=
  match c, h with Some c, Some i => Some (set_impl c i) | c, _ => c end.

Definition rmw_init (options : option rmw_init_options_t) (context : option rmw_context_t)
    : res ZError (rmw_ret_t * option rmw_context_t) :=
  match options, context with
  | Some o, Some c =>
      match ctx_impl c with
      | Some _ => Ok (RMW_RET_ALREADY_INIT, context)
      | None =>
          let enclave := match io_enclave o with
                         | None => "/"%string
                         | Some s => default "/"%string (to_str s)
                         end in
          match ContextImpl_new (io_domain_id o) enclave with
          | Err _ => Ok (RMW_RET_ERROR, context)
          | Panic => Panic
          | Ok context_impl =>
              match assign_impl (handle_of context) context_impl with
              | (Ok _, h) =>
                  Ok (RMW_RET_OK,
                      (fun c => mkRmwContext 1 (ctx_identifier c) (io_domain_id o) (ctx_impl c)) <$> with_handle context h)
              | (_, h) => Ok (RMW_RET_ERROR, with_handle context h)
              end
          end
      end
  | _, _ => Ok (RMW_RET_INVALID_ARGUMENT, context)
  end.
Definition rmw_shutdown (context : option rmw_context_t) : rmw_ret_t * option rmw_context_t :=
  match borrow_impl (handle_of context) with
  | Ok i => (RMW_RET_OK, with_handle context (Some (Some
               (mkContextImpl (ci_zcontext i) (ci_events i) (ci_enclave i) (ci_next_entity_id i) true (ci_nodes i)))))
  | _ => (RMW_RET_INVALID_ARGUMENT, context)
  end.
Definition rmw_context_fini (context : option rmw_context_t) : rmw_ret_t * option rmw_context_t :=
  match context with
  | None => (RMW_RET_INVALID_ARGUMENT, context)
  | Some c =>
      match borrow_impl (handle_of context) with
      | Ok i =>
          if negb (ci_is_shutdown i) then (RMW_RET_INVALID_ARGUMENT, context)
          else if negb (bool_decide (ci_nodes i = ∅)) then (RMW_RET_INVALID_ARGUMENT, context)
          else match ctx_identifier c with
               | None => (RMW_RET_INVALID_ARGUMENT, context)
               | Some _ =>
                   match own_impl (handle_of context) with
                   | (Ok _, h) => (RMW_RET_OK, with_handle context h)
                   | (_, h) => (RMW_RET_ERROR, with_handle context h)
                   end
               end
      | _ => (RMW_RET_INVALID_ARGUMENT, context)
      end
  end.

(** *** Nodes *)

(** [NodeImpl::new]; the arguments come from C strings and hold no NUL. *)
Definition NodeImpl_new (zcontext : ZContext) (name namespace : string) (counter : Z) : res ZError NodeImpl * Z :=
  let fq_name := if String.eqb namespace "" || String.eqb namespace "/" then ("/" ++ name)%string
                 else (namespace ++ "/" ++ name)%string in
  let '(inner, counter) := node_build endpoint_gid (with_namespace (create_node zcontext name) namespace) counter in
  (inner ← inner; Ok (mkNodeImpl inner name namespace fq_name None), counter).
(** [ContextImpl::new_node]. *)
Definition new_node (i : ContextImpl) (name namespace_ : string) (counter : Z) : res ZError NodeImpl * Z :=
  match to_str name, to_str namespace_ with
  | Some name, Some namespace => NodeImpl_new (ci_zcontext i) name namespace counter
  | None, _ => (Err (Message "Invalid name string"), counter)
  | _, None => (Err (Message "Invalid namespace string"), counter)
  end.
Definition set_condition (n : NodeImpl) (gc : nat) : NodeImpl :=
  mkNodeImpl (ni_inner n) (ni_name n) (ni_namespace n) (ni_fq_name n) (Some gc).

(** Calls on guard conditions; [None] is a call on one that was freed. *)
Fixpoint run_guards (notices : list Notice) (gs : Guards) : option Guards :=
  match notices with
  | [] => Some gs
  | Guard p :: rest =>
      g ← gs !! Z.to_nat p;
      run_guards rest (<[Z.to_nat p := (gc_trigger g).2]> gs)
  | Event _ _ _ _ :: rest => run_guards rest gs
  end.
Definition set_events (g : Graph) (m : GraphEventManager) : Graph := mkGraph (data g) m (graph_zid g).
(** What both do with the local entity: a failure is logged. *)
Definition logged (g : Graph) (r : res ZError (Graph * list Notice)) : res ZError (Graph * list Notice) :=
  match r with Err _ => Ok (g, []) | r => r end.

(** [rmw_create_node] and [rmw_destroy_node]; [gc] is the pointer of the guard
    condition that the first makes. [Ok None] is a call on a freed condition. *)
Definition rmw_create_node (context : option rmw_context_t) (name : option string) (namespace_ : string) (gc : nat)
    (g : Graph) (gs : Guards) (counter : Z) : res ZError (option (option NodeImpl * Graph * Guards)) * Z :=
  let null := Ok (Some (None, g, gs)) in
  match name, borrow_impl (handle_of context) with
  | Some name, Ok i =>
      let '(node_impl, counter) := new_node i name namespace_ counter in
      (match node_impl with
       | Err _ => null
       | Panic => Panic
       | Ok n =>
           let gs := <[gc := mkGuardCondition true false]> gs in
           let g := set_events g (register_graph_guard_condition (event_manager g) (Z.of_nat gc)) in
           '(g, notices) ← logged g (add_local_entity g (ENode (nd_entity (ni_inner n))));
           Ok (gs ← run_guards notices gs; Some (Some (set_condition n gc), g, gs))
       end, counter)
  | _, _ => (null, counter)
  end.
Definition rmw_destroy_node (node : option NodeImpl) (g : Graph) (gs : Guards)
    : res ZError (option (rmw_ret_t * Graph * Guards)) :=
  match node with
  | None => Ok (Some (RMW_RET_INVALID_ARGUMENT, g, gs))
  | Some n =>
      '(g, notices) ← logged g (remove_local_entity g (ENode (nd_entity (ni_inner n))));
      Ok (gs ← run_guards notices gs;
          match ni_graph_guard_condition n with
          | Some gc =>
              Some (RMW_RET_OK, set_events g (unregister_graph_guard_condition (event_manager g) (Z.of_nat gc)), delete gc gs)
          | None => Some (RMW_RET_OK, g, gs)
          end)
  end.

(** *** The life of a context: the abstract machine *)

Inductive ContextCall :=
| CallInit (options : option rmw_init_options_t)
| CallShutdown
| CallFini.
Definition context_call (c : option rmw_context_t) (call : ContextCall) : res ZError (rmw_ret_t * option rmw_context_t) :=
  match call with
  | CallInit options => rmw_init options c
  | CallShutdown => Ok (rmw_shutdown c)
  | CallFini => Ok (rmw_context_fini c)
  end.
Fixpoint context_calls (c : option rmw_context_t) (calls : list ContextCall)
    : res ZError (list rmw_ret_t * option rmw_context_t) :=
  match calls with
  | [] => Ok ([], c)
  | call :: calls =>
      '(code, c) ← context_call c call;
      '(codes, c) ← context_calls c calls;
      Ok (code :: codes, c)
  end.
(** Whether a context can be created with the options. *)
Definition enclave_of (o : rmw_init_options_t) : string :=
  match io_enclave o with Some s => default "/"%string (to_str s) | None => "/"%string end.
Definition can_create (o : rmw_init_options_t) : bool :=
  match ContextImpl_new (io_domain_id o) (enclave_of o) with Ok _ => true | _ => false end.
Inductive Phase := Uninitialized | Running | ShutDown.
Definition phase_of (c : option rmw_context_t) : Phase :=
  match handle_of c with
  | Some (Some i) => if ci_is_shutdown i then ShutDown else Running
  | _ => Uninitialized
  end.
Definition machine (identified : bool) (ph : Phase) (call : ContextCall) : rmw_ret_t * Phase :=
  match call, ph with
  | CallInit None, _ => (RMW_RET_INVALID_ARGUMENT, ph)
  | CallInit (Some o), Uninitialized => if can_create o then (RMW_RET_OK, Running) else (RMW_RET_ERROR, Uninitialized)
  | CallInit (Some _), _ => (RMW_RET_ALREADY_INIT, ph)
  | CallShutdown, Uninitialized => (RMW_RET_INVALID_ARGUMENT, ph)
  | CallShutdown, _ => (RMW_RET_OK, ShutDown)
  | CallFini, ShutDown => if identified then (RMW_RET_OK, Uninitialized) else (RMW_RET_INVALID_ARGUMENT, ph)
  | CallFini, _ => (RMW_RET_INVALID_ARGUMENT, ph)
  end.
Fixpoint machine_run (identified : bool) (ph : Phase) (calls : list ContextCall) : list rmw_ret_t * Phase :=
  match calls with
  | [] => ([], ph)
  | call :: calls =>
      let '(code, ph) := machine identified ph call in
      let '(codes, ph) := machine_run identified ph calls in
      (code :: codes, ph)
  end.

(** *** A process: its nodes and what happens to the graph *)

Record Rmw := mkRmw {
  r_graph : Graph;
  r_guards : Guards;
  r_nodes : gmap nat NodeImpl;
  r_counter : Z;
}.
Inductive RmwOp :=
| CreateNode (name : option string) (namespace_ : string) (gc node : nat)
| DestroyNode (node : nat)
| TokenPut (ke : string)
| TokenDelete (ke : string)
| EntityAdd (e : Entity)
| EntityRemove (e : Entity)
| Waited (gc : nat).
Context `{ZD : !EqDecision ZenohId} (parser : string -> option Entity).
Definition graph_changed (s : Rmw) (r : res ZError (Graph * list Notice)) : res ZError (option Rmw) :=
  '(g, notices) ← logged (r_graph s) r;
  Ok (gs ← run_guards notices (r_guards s); Some (mkRmw g gs (r_nodes s) (r_counter s))).
Definition rmw_step (context : option rmw_context_t) (s : Rmw) (op : RmwOp) : res ZError (option Rmw) :=
  match op with
  | CreateNode name namespace_ gc node =>
      let '(r, counter) := rmw_create_node context name namespace_ gc (r_graph s) (r_guards s) (r_counter s) in
      r ← r;
      Ok ('(n, g, gs) ← r;
          Some (mkRmw g gs (match n with Some n => <[node := n]> (r_nodes s) | None => r_nodes s end) counter))
  | DestroyNode node =>
      r ← rmw_destroy_node (r_nodes s !! node) (r_graph s) (r_guards s);
      Ok ('(_, g, gs) ← r; Some (mkRmw g gs (delete node (r_nodes s)) (r_counter s)))
  | TokenPut ke => graph_changed s (put_sample parser (r_graph s) ke)
  | TokenDelete ke => graph_changed s (delete_sample parser (r_graph s) ke)
  | EntityAdd e => graph_changed s (add_local_entity (r_graph s) e)
  | EntityRemove e => graph_changed s (remove_local_entity (r_graph s) e)
  | Waited gc => Ok (Some (mkRmw (r_graph s) (alter gc_reset gc (r_guards s)) (r_nodes s) (r_counter s)))
  end.
(** New boxes are not at pointers in use, and a node is destroyed once. *)
Definition allowed (s : Rmw) (op : RmwOp) : Prop :=
  match op with
  | CreateNode _ _ gc node => r_guards s !! gc = None /\ r_nodes s !! node = None
  | DestroyNode node => is_Some (r_nodes s !! node)
  | _ => True
  end.
(** The context of the process is not finalized meanwhile; its graph starts out
    with the manager that [ContextImpl_new] set up. *)
Definition rmw_start (i : ContextImpl) : Rmw := mkRmw (GraphProps.graph_new (ci_events i) (cx_zid (ci_zcontext i))) ∅ ∅ 0.
Inductive reachable (context : option rmw_context_t) (i : ContextImpl) : Rmw -> Prop :=
| reach_start : reachable context i (rmw_start i)
| reach_step s op s' : reachable context i s -> allowed s op ->
    rmw_step context s op = Ok (Some s') -> reachable context i s'.
(** The operations that change the graph, when their token can be made or parsed. *)
Definition changes (s : Rmw) (op : RmwOp) : Prop :=
  match op with
  | TokenPut ke | TokenDelete ke => is_Some (parser ke)
  | EntityAdd e => exists ke, entity_to_liveliness_ke e = Ok ke /\ parsed (data (r_graph s)) !! ke = None
  | EntityRemove e => exists ke, entity_to_liveliness_ke e = Ok ke
  | DestroyNode node => exists n ke, r_nodes s !! node = Some n /\ entity_to_liveliness_ke (ENode (nd_entity (ni_inner n))) = Ok ke
  | _ => False
  end.
End Contexts.

(** ** Lemmas *)

(** *** The error string *)

Lemma copy_error_spec s n : forall i buf, Forall (fun c => c <> 0%Z) s -> (i + n < length buf)%nat ->
  let j := Nat.min (length s) (i + n) in (i <= length s)%nat ->
  firstn i buf = firstn i s ->
  let '(buf', k) := copy_error n i s buf in
  k = j /\ length buf' = length buf /\ firstn j buf' = firstn j s.
Proof.
  induction n as [|n IH]; intros i buf Hs L j Hi P; cbn [copy_error].
  - subst j. rewrite Nat.add_0_r, Nat.min_r by lia. done.
  - destruct (s !! i) as [c|] eqn:E; cbn [default].
    + assert (c <> 0%Z) as Hc by (eapply Forall_lookup_1 in Hs; eauto).
      apply Z.eqb_neq in Hc. change (id c) with c. cbv zeta. rewrite Hc.
      assert (i < length s)%nat as Hlt by (by eapply lookup_lt_Some).
      specialize (IH (S i) (<[i:=c]> buf) Hs). rewrite length_insert in IH.
      replace (S i + n)%nat with (i + S n)%nat in IH by lia.
      destruct (copy_error n (S i) s (<[i:=c]> buf)) as [buf' k]. apply IH; [lia|lia|].
      rewrite (take_S_r (<[i:=c]> buf) i c), (take_S_r s i c E) by (apply list_lookup_insert_eq; lia).
      by rewrite take_insert_ge, P by lia.
    + apply lookup_ge_None in E. cbn. subst j.
      rewrite length_insert, Nat.min_l by lia. split_and!; [lia|done|].
      assert (length s = i) as -> by lia. by rewrite take_insert_ge, P by lia.
Qed.

Fixpoint c_text (b : list Z) : list Z :=
  match b with
  | c :: b => if (c =? 0)%Z then [] else c :: c_text b
  | [] => []
  end.
Lemma c_text_app s b : Forall (fun c => c <> 0%Z) s -> c_text (s ++ 0%Z :: b) = s.
Proof.
  induction 1 as [|c s Hc _ IH]; [done|]. cbn. apply Z.eqb_neq in Hc. by rewrite Hc, IH.
Qed.
Lemma text_after s buf k : Forall (fun c => c <> 0%Z) s -> (k < length buf)%nat -> firstn k buf = firstn k s ->
  (k <= length s)%nat -> c_text (<[k := 0%Z]> buf) = firstn k s.
Proof.
  intros Hs L P Hk. rewrite insert_take_drop by lia. rewrite P. apply c_text_app. by apply Forall_take.
Qed.

(** What was set is what is read: the buffer keeps its 1024 characters, and the text
    returned is the first 1023 characters of the message that was set, or
    ["Mock error"] when that was empty or null, or was reset. *)
Theorem error_string_read s buf : Forall (fun c => c <> 0%Z) s -> length buf = 1024%nat ->
  let set := rmw_set_error_string (Some s) buf in
  length set = 1024%nat /\
  c_text (rmw_get_error_string set) = match s with [] => c_chars "Mock error" | _ => firstn 1023 s end /\
  c_text (rmw_get_error_string (rmw_set_error_string None buf)) = c_chars "Mock error" /\
  c_text (rmw_get_error_string (rmw_reset_error buf)) = c_chars "Mock error".
Proof.
  intros Hs L. cbv zeta. assert (D : forall b, length b = 1024%nat -> b !! 0%nat = Some 0%Z ->
    c_text (rmw_get_error_string b) = c_chars "Mock error").
  { intros b Lb Hb. unfold rmw_get_error_string. rewrite Hb. cbn [default Z.eqb].
    do 12 (destruct b as [|? b]; [done|]). reflexivity. }
  assert (Z0 : forall b, length b = 1024%nat -> (<[0%nat := 0%Z]> b) !! 0%nat = Some 0%Z)
    by (intros b Lb; apply list_lookup_insert_eq; lia).
  pose proof (copy_error_spec s 1023 0 buf Hs) as C. cbv zeta in C. specialize (C ltac:(lia) ltac:(lia) eq_refl).
  unfold rmw_set_error_string, rmw_reset_error. destruct (copy_error 1023 0 s buf) as [b k].
  destruct C as (-> & Lb & P). rewrite Nat.add_0_l in *. split_and!.
  - by rewrite length_insert, Lb.
  - pose proof (text_after s b (Nat.min (length s) 1023) Hs ltac:(lia) P ltac:(lia)) as T.
    destruct s as [|c s]; [apply D; [by rewrite length_insert, Lb|apply Z0; lia]|].
    unfold rmw_get_error_string. inversion Hs as [|? ? Hc _]; subst.
    rewrite list_lookup_insert_ne by (cbn; lia).
    assert (b !! 0%nat = Some c) as ->.
    { destruct b as [|x b]; [cbn in Lb; lia|]. destruct (Nat.min (length (c :: s)) 1023) eqn:E; [cbn in E; lia|].
      cbn in P. by simplify_eq. }
    apply Z.eqb_neq in Hc. cbn [default]. change (id c) with c. rewrite Hc, T.
    destruct (Nat.le_ge_cases (length (c :: s)) 1023) as [Hl|Hl].
    + rewrite Nat.min_l by done. by rewrite !firstn_all2 by lia.
    + by rewrite Nat.min_r.
  - apply D; [by rewrite length_insert|by apply Z0].
  - apply D; [by rewrite length_insert|by apply Z0].
Qed.

(** *** The life of a context *)

Section Life.
Context `{CX : ContextApi} `{OA : OptionsApi}.

(** No node is ever in the map of a context, and the identifier is the caller's. *)
Definition life_ok (identifier : option string) (c : option rmw_context_t) : Prop :=
  exists x, c = Some x /\ ctx_identifier x = identifier /\ forall i, ctx_impl x = Some i -> ci_nodes i = ∅.

Lemma phase_some x : phase_of (Some x) =
  match ctx_impl x with Some i => if ci_is_shutdown i then ShutDown else Running | None => Uninitialized end.
Proof. unfold phase_of, handle_of. cbn. by destruct (ctx_impl x). Qed.

Lemma context_call_spec identifier c call code c' : life_ok identifier c -> context_call c call = Ok (code, c') ->
  life_ok identifier c' /\
  machine (match identifier with Some _ => true | None => false end) (phase_of c) call = (code, phase_of c').
Proof.
  intros (x & -> & I & N) E. rewrite phase_some. unfold life_ok.
  destruct call as [[o|]| |]; cbn [context_call] in E; unfold rmw_init, rmw_shutdown, rmw_context_fini in E; cbn in E.
  - unfold machine, can_create, enclave_of. destruct (ctx_impl x) as [i|] eqn:X.
    + injection E as <- <-. rewrite phase_some, X. split; [by exists x; rewrite X|]. by destruct (ci_is_shutdown i).
    + destruct (ContextImpl_new _ _) as [i| |] eqn:C; [| |done]; injection E as <- <-; rewrite phase_some.
      * unfold ContextImpl_new in C. destruct (context_build _); simplify_eq. cbn.
        split; [|done]. eexists. split_and!; [done..|]. cbn. by intros i' [= <-].
      * rewrite X. split; [|done]. by exists x; rewrite X.
  - injection E as <- <-. rewrite phase_some. split; [by exists x | done].
  - destruct (ctx_impl x) as [i|] eqn:X; cbn in E; injection E as <- <-; rewrite phase_some; cbn.
    + split; [|by destruct (ci_is_shutdown i)]. eexists. split_and!; [done..|]. intros i' [= <-]. exact (N i eq_refl).
    + rewrite X. split; [|done]. by exists x; rewrite X.
  - destruct (ctx_impl x) as [i|] eqn:X; cbn in E.
    + rewrite (N i eq_refl), bool_decide_true, I in E by done. cbn in E.
      destruct (ci_is_shutdown i) eqn:S; [destruct identifier as [id|]|]; cbn in E; injection E as <- <-; rewrite phase_some; cbn.
      * split; [by eexists | done].
      * rewrite X, S. split; [|done]. exists x. split_and!; [done..|]. intros i' Ei. rewrite X in Ei. by apply N.
      * rewrite X, S. split; [|done]. exists x. split_and!; [done..|]. intros i' Ei. rewrite X in Ei. by apply N.
    + injection E as <- <-. rewrite phase_some, X. split; [|done]. by exists x; rewrite X.
Qed.

(** C23 The life of a context refines a machine with three phases, for any sequence of
    [rmw_init], [rmw_shutdown] and [rmw_context_fini] on a context that is not null and
    not initialized, when no initialization panics: the return codes are the machine's.
    An initialization succeeds once, until the context is finalized; a shutdown can be
    repeated; a finalization succeeds after a shutdown, whatever nodes are left, but
    only when the caller has set the context's identifier, which [rmw_init] never does. *)
Theorem context_lifecycle identifier domain_id instance_id calls codes c' :
  let c := Some (mkRmwContext instance_id identifier domain_id None) in
  context_calls c calls = Ok (codes, c') ->
  machine_run (match identifier with Some _ => true | None => false end) Uninitialized calls = (codes, phase_of c').
Proof.
  cbv zeta. set (c := Some _). assert (L : life_ok identifier c) by (eexists; split_and!; done).
  change Uninitialized with (phase_of c). clearbody c. revert c codes L.
  induction calls as [|call calls IH]; intros c codes L E; cbn [context_calls machine_run] in *; [by simplify_eq|].
  destruct (context_call c call) as [[code c1]| |] eqn:C; cbn [mbind res_bind] in E; [|done..].
  destruct (context_calls c1 calls) as [[codes1 c2]| |] eqn:R; cbn in E; [|done..]. simplify_eq.
  destruct (context_call_spec identifier c call code c1 L C) as [L1 ->]. by rewrite (IH c1 codes1 L1 R).
Qed.
End Life.


(** *** Guard conditions *)

Definition guard_ptrs (notices : list Notice) : list Z :=
  omap (fun n => match n with Guard p => Some p | Event _ _ _ _ => None end) notices.
Lemma elem_of_guard_ptrs p notices : p ∈ guard_ptrs notices <-> Guard p ∈ notices.
Proof.
  unfold guard_ptrs. rewrite list_elem_of_omap. split.
  - intros ([q|? ? ? ?] & I & E); by simplify_eq.
  - intros I. by exists (Guard p).
Qed.
Definition good_guard (gs : Guards) (p : Z) : Prop := exists q g, p = Z.of_nat q /\ gs !! q = Some g /\ gc_notifier g = true.

Lemma good_guard_trigger gs p q g : good_guard gs p -> gs !! q = Some g ->
  gc_notifier g = true -> good_guard (<[q := mkGuardCondition true true]> gs) p.
Proof.
  intros (q' & g' & -> & E & N) Q G. destruct (decide (q = q')) as [->|D].
  - exists q', (mkGuardCondition true true). by rewrite lookup_insert_eq.
  - exists q', g'. by rewrite lookup_insert_ne.
Qed.
Lemma run_guards_ok notices : forall gs, Forall (good_guard gs) (guard_ptrs notices) ->
  exists gs', run_guards notices gs = Some gs' /\
    (forall p, gs' !! p = if bool_decide (Z.of_nat p ∈ guard_ptrs notices)
                          then Some (mkGuardCondition true true) else gs !! p).
Proof.
  induction notices as [|[z|gid et cb ch] rest IH]; intros gs F; cbn [run_guards].
  - exists gs. split; [done|]. intros p. by rewrite bool_decide_false by apply not_elem_of_nil.
  - cbn in F. apply Forall_cons in F as [(q & g & -> & E & N) F]. rewrite Nat2Z.id, E. cbn [mbind option_bind].
    assert ((gc_trigger g).2 = mkGuardCondition true true) as -> by (unfold gc_trigger; by rewrite N).
    destruct (IH (<[q := mkGuardCondition true true]> gs)) as (gs' & R & L).
    { eapply Forall_impl; [exact F|]. intros p G. by eapply good_guard_trigger. }
    exists gs'. split; [exact R|]. intros p. rewrite L. change (guard_ptrs (Guard (Z.of_nat q) :: rest)) with
      (Z.of_nat q :: guard_ptrs rest). destruct (decide (p = q)) as [->|D].
    + rewrite lookup_insert_eq, (bool_decide_true (_ ∈ _ :: _)) by set_solver. by case_bool_decide.
    + rewrite lookup_insert_ne by done. erewrite bool_decide_ext; [reflexivity|].
      rewrite elem_of_cons. split; [by right|]. intros [H|H]; [lia|done].
  - apply (IH gs F).
Qed.

Section Nodes.
Context `{CX : ContextApi} `{ZExt : !ZExtApi} `{Chan : ChannelApi} `{Sess : SessionApi} `{PS : PubSubApi}.
Context `{HA : HashApi} `{HX : HexApi}.
Context {ReqM : ZMessage GetTypeDescriptionRequest} {RspM : ZMessage GetTypeDescriptionResponse}.
Context {SL : SlabApi} `{OA : OptionsApi}.
Context (endpoint_gid : EndpointEntity -> GidArray).
Context `{ZD : !EqDecision ZenohId} (parser : string -> option Entity).

(** The conditions that the graph knows are those of the nodes, and they live. *)
Record conditions_ok (g : Graph) (gs : Guards) (nodes : gmap nat NodeImpl) : Prop := {
  co_trigger : trigger_guard_condition (event_manager g) = true;
  co_registered : forall z, z ∈ graph_guard_conditions (event_manager g) <->
    exists k n p, nodes !! k = Some n /\ ni_graph_guard_condition n = Some p /\ z = Z.of_nat p;
  co_alive : forall k n, nodes !! k = Some n -> exists p c,
    ni_graph_guard_condition n = Some p /\ gs !! p = Some c /\ gc_notifier c = true;
  co_distinct : forall k1 k2 n1 n2 p, nodes !! k1 = Some n1 -> nodes !! k2 = Some n2 ->
    ni_graph_guard_condition n1 = Some p -> ni_graph_guard_condition n2 = Some p -> k1 = k2;
}.

Lemma conditions_good g gs nodes z : conditions_ok g gs nodes ->
  z ∈ graph_guard_conditions (event_manager g) -> good_guard gs z.
Proof.
  intros C (k & n & p & K & P & ->)%(co_registered _ _ _ C).
  destruct (co_alive _ _ _ C k n K) as (p' & c & P' & G & N). exists p, c. naive_solver.
Qed.

(** What a change of the graph announces. *)
Definition announced_by (g : Graph) (notices : list Notice) : Prop :=
  notices = [] \/ exists e b, trigger_graph_change (E := ZError) (event_manager g) e b = Ok notices.
Lemma announced_guards g notices p : announced_by g notices -> p ∈ guard_ptrs notices ->
  p ∈ graph_guard_conditions (event_manager g).
Proof.
  intros [->|(e & b & T)] Hp; [by apply elem_of_nil in Hp|].
  apply elem_of_guard_ptrs in Hp. by apply (graph_change_notices _ _ _ _ T) in Hp as [_ ?].
Qed.
Lemma all_announced g gs nodes e b notices p : conditions_ok g gs nodes ->
  trigger_graph_change (E := ZError) (event_manager g) e b = Ok notices ->
  p ∈ guard_ptrs notices <-> p ∈ graph_guard_conditions (event_manager g).
Proof.
  intros C T. rewrite elem_of_guard_ptrs, (proj1 (graph_change_notices _ _ _ _ T)).
  pose proof (co_trigger _ _ _ C). naive_solver.
Qed.

Definition same_events (g g' : Graph) : Prop := event_manager g' = event_manager g.
Lemma add_shape g e g' notices : add_local_entity g e = Ok (g', notices) ->
  same_events g g' /\ announced_by g notices.
Proof.
  unfold add_local_entity, announced_by, same_events. intros Hr. destruct (entity_to_liveliness_ke e) as [ke| |]; [|done..].
  cbn [mbind res_bind] in Hr. destruct (bool_decide _); [cbn in Hr; simplify_eq; by split; [|left]|].
  destruct (trigger_graph_change _ _ _) eqn:T; [|done..]. cbn in Hr. simplify_eq. eauto 6.
Qed.
Lemma remove_shape g e g' notices : remove_local_entity g e = Ok (g', notices) ->
  same_events g g' /\ announced_by g notices.
Proof.
  unfold remove_local_entity, announced_by, same_events. intros Hr. destruct (entity_to_liveliness_ke e) as [ke| |]; [|done..].
  cbn [mbind res_bind] in Hr. destruct (trigger_graph_change _ _ _) eqn:T; [|done..]. cbn in Hr. simplify_eq. eauto 6.
Qed.
Lemma put_events g ke : same_events g
  (if decide (is_Some (parsed (data g) !! ke)) then g
   else if decide (ke ∈ cached (data g)) then g else set_data g (data_insert (data g) ke)).
Proof. repeat case_decide; done. Qed.
Lemma put_shape g ke g' notices : put_sample (E := ZError) parser g ke = Ok (g', notices) ->
  same_events g g' /\ announced_by g notices.
Proof.
  unfold put_sample, announced_by. pose proof (put_events g ke) as E.
  set (g1 := if decide _ then _ else _) in *. clearbody g1. rewrite E. intros Hr.
  destruct (parser ke) as [e|]; [|cbn in Hr; simplify_eq; by split; [|left]].
  destruct (trigger_graph_change _ _ _) eqn:T; [|done..]. cbn in Hr. simplify_eq. eauto 6.
Qed.
Lemma delete_shape g ke g' notices : delete_sample (E := ZError) parser g ke = Ok (g', notices) ->
  same_events g g' /\ announced_by g notices.
Proof.
  unfold delete_sample, announced_by, same_events. intros Hr.
  destruct (parser ke) as [e|]; [|cbn in Hr; simplify_eq; by split; [|left]].
  destruct (trigger_graph_change _ _ _) eqn:T; [|done..]. cbn in Hr. simplify_eq. eauto 6.
Qed.
Lemma logged_shape g r g' notices : logged g r = Ok (g', notices) ->
  (forall g1 n1, r = Ok (g1, n1) -> same_events g g1 /\ announced_by g n1) ->
  same_events g g' /\ announced_by g notices.
Proof. destruct r as [[g1 n1]| |]; cbn; intros Hr F; [by apply F|simplify_eq; by split; [|left]|done]. Qed.

(** The notices of a change reach living conditions, and leave the nodes theirs. *)
Lemma after_notices g gs nodes g' notices : conditions_ok g gs nodes -> same_events g g' -> announced_by g notices ->
  exists gs', run_guards notices gs = Some gs' /\ conditions_ok g' gs' nodes /\
    (forall p, gs' !! p = if bool_decide (Z.of_nat p ∈ guard_ptrs notices)
                          then Some (mkGuardCondition true true) else gs !! p).
Proof.
  intros C S A. destruct (run_guards_ok notices gs) as (gs' & R & L).
  { apply Forall_forall. intros z Z0. by eapply conditions_good, announced_guards. }
  exists gs'. split_and!; [done| |done]. split; rewrite ?S; try apply C.
  intros k n K. destruct (co_alive _ _ _ C k n K) as (p & c & P & G & N).
  exists p. rewrite L. case_bool_decide; eauto.
Qed.

Lemma graph_changed_ok s r g : r_graph s = g -> conditions_ok g (r_guards s) (r_nodes s) ->
  (forall g1 n1, r = Ok (g1, n1) -> same_events g g1 /\ announced_by g n1) ->
  match graph_changed s r with
  | Ok (Some s') => conditions_ok (r_graph s') (r_guards s') (r_nodes s') /\ r_nodes s' = r_nodes s
  | Ok None => False
  | _ => True
  end.
Proof.
  intros <- C F. unfold graph_changed. destruct (logged (r_graph s) r) as [[g' notices]| |] eqn:L; [|done..].
  destruct (logged_shape _ _ _ _ L F) as [S A]. destruct (after_notices _ _ _ _ _ C S A) as (gs' & R & C' & _).
  cbn [mbind res_bind]. by rewrite R.
Qed.

Lemma create_ok context s name ns gc node : conditions_ok (r_graph s) (r_guards s) (r_nodes s) ->
  r_guards s !! gc = None -> r_nodes s !! node = None ->
  match rmw_step endpoint_gid parser context s (CreateNode name ns gc node) with
  | Ok (Some s') => conditions_ok (r_graph s') (r_guards s') (r_nodes s')
  | Ok None => False
  | _ => True
  end.
Proof.
  intros C Hg Hn. cbn [rmw_step]. unfold rmw_create_node.
  destruct name as [name|]; [|by destruct s]. destruct (borrow_impl _) as [i| |]; [|by destruct s..].
  destruct (new_node _ _ _ _) as [[n| |] counter]; [|by destruct s|done].
  set (gs1 := <[gc := _]> _). set (g1 := set_events _ _).
  assert (C1 : conditions_ok g1 gs1 (<[node := set_condition n gc]> (r_nodes s))).
  { split.
    - exact (co_trigger _ _ _ C).
    - intros z. cbn. rewrite elem_of_app, list_elem_of_singleton, (co_registered _ _ _ C). split.
      + intros [(k & n' & p & K & P & ->)| ->].
        * exists k, n', p. rewrite lookup_insert_ne by (intros ->; congruence). done.
        * exists node, (set_condition n gc), gc. by rewrite lookup_insert_eq.
      + intros (k & n' & p & K & P & ->). destruct (decide (k = node)) as [->|D].
        * rewrite lookup_insert_eq in K. simplify_eq. cbn in P. simplify_eq. by right.
        * rewrite lookup_insert_ne in K by done. left. eauto 6.
    - intros k n' K. destruct (decide (k = node)) as [->|D].
      + rewrite lookup_insert_eq in K. simplify_eq. exists gc, (mkGuardCondition true false).
        unfold gs1. by rewrite lookup_insert_eq.
      + rewrite lookup_insert_ne in K by done. destruct (co_alive _ _ _ C k n' K) as (p & c & P & G & N).
        exists p, c. unfold gs1. rewrite lookup_insert_ne by (intros ->; congruence). done.
    - assert (F : forall k n', r_nodes s !! k = Some n' -> ni_graph_guard_condition n' <> Some gc).
      { intros k n' K E. destruct (co_alive _ _ _ C k n' K) as (p & c & P & G & N). congruence. }
      assert (G : forall k n', <[node := set_condition n gc]> (r_nodes s) !! k = Some n' ->
                k = node /\ ni_graph_guard_condition n' = Some gc \/ r_nodes s !! k = Some n').
      { intros k n' K. destruct (decide (k = node)) as [->|D];
          [rewrite lookup_insert_eq in K; simplify_eq; by left | rewrite lookup_insert_ne in K by done; by right]. }
      intros k1 k2 n1 n2 p K1 K2 P1 P2. apply G in K1 as [[-> E1]|K1], K2 as [[-> E2]|K2]; [done|..].
      + destruct (F k2 n2 K2). congruence.
      + destruct (F k1 n1 K1). congruence.
      + exact (co_distinct _ _ _ C k1 k2 n1 n2 p K1 K2 P1 P2). }
  destruct (logged g1 _) as [[g' notices]| |] eqn:L; [|done..]. cbn [mbind res_bind].
  destruct (logged_shape _ _ _ _ L (add_shape g1 _)) as [S A].
  destruct (after_notices _ _ _ _ _ C1 S A) as (gs' & R & C' & _). rewrite R. exact C'.
Qed.

Lemma destroy_ok context s node : conditions_ok (r_graph s) (r_guards s) (r_nodes s) -> is_Some (r_nodes s !! node) ->
  match rmw_step endpoint_gid parser context s (DestroyNode node) with
  | Ok (Some s') => conditions_ok (r_graph s') (r_guards s') (r_nodes s')
  | Ok None => False
  | _ => True
  end.
Proof.
  intros C [n K]. cbn [rmw_step]. rewrite K. unfold rmw_destroy_node.
  destruct (logged _ _) as [[g' notices]| |] eqn:L; [|done..]. cbn [mbind res_bind].
  destruct (logged_shape _ _ _ _ L (remove_shape _ _)) as [S A].
  destruct (after_notices _ _ _ _ _ C S A) as (gs' & R & C' & _). rewrite R. cbn [mbind option_bind].
  destruct (co_alive _ _ _ C' node n K) as (p & c & P & G & N). rewrite P. cbn.
  assert (F : forall k n', delete node (r_nodes s) !! k = Some n' -> r_nodes s !! k = Some n' /\ ni_graph_guard_condition n' <> Some p).
  { intros k n' K'. apply lookup_delete_Some in K' as [D K']. split; [done|].
    intros E. apply D. exact (co_distinct _ _ _ C' node k n n' p K K' P E). }
  split.
  - exact (co_trigger _ _ _ C').
  - intros z. cbn. rewrite list_elem_of_In, filter_In, <- list_elem_of_In, (co_registered _ _ _ C'). split.
    + intros [(k & n' & p' & K' & P' & ->) D]. exists k, n', p'. rewrite lookup_delete_ne; [done|].
      intros ->. simplify_eq. lia.
    + intros (k & n' & p' & K' & P' & ->). apply F in K' as [K' D]. split; [eauto 6|].
      apply negb_true_iff, Z.eqb_neq. intros E%Nat2Z.inj. congruence.
  - intros k n' K'. apply F in K' as [K' D]. destruct (co_alive _ _ _ C' k n' K') as (p' & c' & P' & G' & N').
    exists p', c'. rewrite lookup_delete_ne; [done|]. congruence.
  - intros k1 k2 n1 n2 p' K1 K2. apply F in K1 as [K1 _]. apply F in K2 as [K2 _]. by apply (co_distinct _ _ _ C').
Qed.

Lemma waited_ok g gs nodes gc : conditions_ok g gs nodes -> conditions_ok g (alter gc_reset gc gs) nodes.
Proof.
  intros C. split; try apply C. intros k n K. destruct (co_alive _ _ _ C k n K) as (p & c & P & G & N).
  destruct (decide (gc = p)) as [->|D].
  - exists p, (gc_reset c). by rewrite lookup_alter_eq, G.
  - exists p, c. by rewrite lookup_alter_ne.
Qed.

Lemma rmw_step_ok context s op : conditions_ok (r_graph s) (r_guards s) (r_nodes s) -> allowed s op ->
  match rmw_step endpoint_gid parser context s op with
  | Ok (Some s') => conditions_ok (r_graph s') (r_guards s') (r_nodes s')
  | Ok None => False
  | _ => True
  end.
Proof.
  intros C A. destruct op as [name ns gc node|node|ke|ke|e|e|gc]; [by apply create_ok; destruct A|by apply destroy_ok|..];
    cbn [rmw_step]; [| | | |exact (waited_ok _ _ _ gc C)].
  - pose proof (graph_changed_ok s _ _ eq_refl C (put_shape (r_graph s) ke)) as G.
    destruct (graph_changed _ _) as [[]| |]; naive_solver.
  - pose proof (graph_changed_ok s _ _ eq_refl C (delete_shape (r_graph s) ke)) as G.
    destruct (graph_changed _ _) as [[]| |]; naive_solver.
  - pose proof (graph_changed_ok s _ _ eq_refl C (add_shape (r_graph s) e)) as G.
    destruct (graph_changed _ _) as [[]| |]; naive_solver.
  - pose proof (graph_changed_ok s _ _ eq_refl C (remove_shape (r_graph s) e)) as G.
    destruct (graph_changed _ _) as [[]| |]; naive_solver.
Qed.
Lemma reachable_ok context d enclave i s : ContextImpl_new d enclave = Ok i ->
  reachable endpoint_gid parser context i s -> conditions_ok (r_graph s) (r_guards s) (r_nodes s).
Proof.
  intros I R. induction R as [|s op s' _ IH A E].
  - unfold ContextImpl_new in I. destruct (context_build _); simplify_eq.
    split; cbn; [done| |intros k n K; by apply lookup_empty_Some in K|intros ????? K; by apply lookup_empty_Some in K].
    intros z. split; [intros Hz; by apply elem_of_nil in Hz|]. intros (k & n & p & K & _). by apply lookup_empty_Some in K.
  - pose proof (rmw_step_ok context s op IH A) as S. by rewrite E in S.
Qed.

(** A change runs the notices of its trigger. *)
Lemma changes_announce context s op s' : changes parser s op -> rmw_step endpoint_gid parser context s op = Ok (Some s') ->
  conditions_ok (r_graph s) (r_guards s) (r_nodes s) ->
  exists e b notices gs, trigger_graph_change (E := ZError) (event_manager (r_graph s)) e b = Ok notices /\
    run_guards notices (r_guards s) = Some gs /\
    forall k n, r_nodes s' !! k = Some n -> r_nodes s !! k = Some n /\
      forall p, ni_graph_guard_condition n = Some p -> r_guards s' !! p = gs !! p.
Proof.
  assert (X : forall r e b notices, trigger_graph_change (E := ZError) (event_manager (r_graph s)) e b = Ok notices ->
    (exists g', r = Ok (g', notices)) -> graph_changed s r = Ok (Some s') ->
    exists e b notices gs, trigger_graph_change (E := ZError) (event_manager (r_graph s)) e b = Ok notices /\
    run_guards notices (r_guards s) = Some gs /\
    forall k n, r_nodes s' !! k = Some n -> r_nodes s !! k = Some n /\
      forall p, ni_graph_guard_condition n = Some p -> r_guards s' !! p = gs !! p).
  { intros r e b notices T (g' & ->) E. unfold graph_changed in E. cbn in E.
    destruct (run_guards notices (r_guards s)) as [gs|] eqn:R; [|done]. cbn in E. simplify_eq. cbn. eauto 10. }
  intros Ch E C. destruct op as [name ns gc node|node|ke|ke|e|e|gc]; cbn [changes rmw_step] in *; [done| | | | | |done].
  - destruct Ch as (n & ke & K & T). rewrite K in E. unfold rmw_destroy_node in E.
    unfold remove_local_entity in E. rewrite T in E. cbn [mbind res_bind] in E.
    destruct (trigger_graph_change _ _ _) as [notices| |] eqn:Tr; [|done..]. cbn in E.
    destruct (run_guards notices (r_guards s)) as [gs|] eqn:R; [|done]. cbn in E.
    destruct (co_alive _ _ _ C node n K) as (p & c & P & G & N). rewrite P in E. cbn in E. simplify_eq. cbn.
    exists (ENode (nd_entity (ni_inner n))), false, notices, gs. split_and!; [done..|]. intros k n' K'.
    apply lookup_delete_Some in K' as [D K']. split; [done|]. intros p' P'. apply lookup_delete_ne. intros ->.
    apply D. exact (co_distinct _ _ _ C node k n n' p' K K' P P').
  - destruct Ch as [e Pe]. unfold put_sample in E. rewrite Pe, put_events in E.
    destruct (trigger_graph_change _ e true) as [notices| |] eqn:T; [|by apply trigger_not_err in T|by cbn in E]. cbn [mbind res_bind] in E. eapply X; eauto.
  - destruct Ch as [e Pe]. unfold delete_sample in E. rewrite Pe in E.
    destruct (trigger_graph_change _ e false) as [notices| |] eqn:T; [|by apply trigger_not_err in T|by cbn in E]. cbn [mbind res_bind] in E. eapply X; eauto.
  - destruct Ch as (ke & K & P). unfold add_local_entity in E. rewrite K in E. cbn [mbind res_bind] in E.
    rewrite bool_decide_false in E by (rewrite P; by intros []).
    destruct (trigger_graph_change _ e true) as [notices| |] eqn:T; [|by apply trigger_not_err in T|by cbn in E]. cbn [mbind res_bind] in E. eapply X; eauto.
  - destruct Ch as (ke & K). unfold remove_local_entity in E. rewrite K in E. cbn [mbind res_bind] in E.
    destruct (trigger_graph_change _ e false) as [notices| |] eqn:T; [|by apply trigger_not_err in T|by cbn in E]. cbn [mbind res_bind] in E. eapply X; eauto.
Qed.

(** ** Properties *)

(** C10 The guard conditions that the graph triggers are alive: in every state that the
    creation and destruction of nodes, the changes of the graph and the resets of waiting
    lead to, the conditions registered with the graph are those of the nodes that exist,
    each node has its own, and no further operation triggers a condition that was freed. *)
Theorem conditions_live context d enclave i s :
  ContextImpl_new d enclave = Ok i -> reachable endpoint_gid parser context i s ->
  conditions_ok (r_graph s) (r_guards s) (r_nodes s) /\
  forall op, allowed s op -> rmw_step endpoint_gid parser context s op <> Ok None.
Proof.
  intros I R. pose proof (reachable_ok _ _ _ _ _ I R) as C. split; [exact C|].
  intros op A E. pose proof (rmw_step_ok context s op C A) as S. by rewrite E in S.
Qed.

(** C7 A change of the graph wakes who waits for it: after a token appears or goes, a
    new local entity is added, one is removed or a node is destroyed, the guard condition
    of every node is triggered; [rmw_wait] on it with a zero timeout returns [RMW_RET_OK]
    at once, one that sleeps without a time limit returns at the next notification, and
    both keep the pointer and reset the condition. *)
Theorem graph_change_wakes {Sub Srv Cli Ev} `{Waitable Sub} `{Waitable Srv} `{Waitable Cli} `{Waitable Ev}
    context d enclave i s op s' k n (w : World Sub Srv Cli Ev) t0 t :
  ContextImpl_new d enclave = Ok i -> reachable endpoint_gid parser context i s -> allowed s op -> changes parser s op ->
  rmw_step endpoint_gid parser context s op = Ok (Some s') -> r_nodes s' !! k = Some n ->
  (forall p c, r_guards s' !! p = Some c -> w_gc w p = c) ->
  exists p, ni_graph_guard_condition n = Some p /\ r_guards s' !! p = Some (mkGuardCondition true true) /\
    let a := wait_guard p in
    let after := set_gc w p (mkGuardCondition true false) in
    rmw_wait (fun _ => w) a (Some (mkTime 0 0)) t0 [] = Ok (Some (RMW_RET_OK, a, after, t0)) /\
    rmw_wait (fun _ => w) a None t0 [t] = Ok (Some (RMW_RET_OK, a, after, t)).
Proof.
  intros I R A Ch E K W. pose proof (reachable_ok _ _ _ _ _ I R) as C.
  destruct (changes_announce _ _ _ _ Ch E C) as (e & b & notices & gs & T & Rn & L).
  destruct (L k n K) as [K0 G]. destruct (co_alive _ _ _ C k n K0) as (p & c & P & _ & _).
  assert (Gp : r_guards s' !! p = Some (mkGuardCondition true true)).
  { rewrite (G p P). destruct (after_notices _ _ _ (r_graph s) notices C eq_refl) as (gs' & R' & _ & L').
    { right. eauto. }
    rewrite Rn in R'. simplify_eq. rewrite L', bool_decide_true; [done|].
    apply (all_announced _ _ _ _ _ _ _ C T), (co_registered _ _ _ C). eauto 6. }
  exists p. pose proof (W p _ Gp) as Wp. cbv zeta.
  assert (Tp : gc_triggered (w_gc w p) = true) by (by rewrite Wp).
  pose proof (update_guard w p Tp) as U. rewrite Wp in U. split_and!; [done..| |]; unfold rmw_wait, wait.
  - cbn [default t_sec t_nsec Z.eqb andb]. change (t_sec (id _)) with 0%Z. change (t_nsec (id _)) with 0%Z.
    cbn [Z.eqb andb]. by rewrite (check_guard w p Tp), U.
  - cbn. by rewrite (check_guard w p Tp), U.
Qed.
End Nodes.

(** ** A context, a node and a change *)

#[local] Existing Instances ex_zenoh ex_zext ex_pubsub ex_digest ex_hex ex_request_message ex_response_message ex_slab ex_zid_dec.
#[local] Instance ex_json_text : JsonApi := {| json_to_string _ := Ok "{}"%string; json_to_string_pretty _ := Ok "{}"%string |}.
#[local] Instance ex_config : ConfigApi := {|
  Config := list (string * string);
  config_default := [];
  insert_json5 c k v := Ok ((k, v) :: c);
  json_error := Message;
|}.
#[local] Instance ex_context_api : ContextApi := {|
  env_var _ := None;
  json5_from_str _ := Err "no JSON"%string;
  config_from_file _ := Err (Message "no file");
  zenoh_open _ := Ok 42%N;
  graph_new _ _ := Ok tt;
  zerror_text _ := "error"%string;
|}.
#[local] Instance ex_options_api : OptionsApi := {|
  Security := unit;
  Discovery_ := unit;
  zero_security := tt;
  zero_discovery := tt;
  security_options_copy s := (RMW_RET_OK, s);
  security_options_fini s := (RMW_RET_OK, s);
  discovery_options_init d := (RMW_RET_OK, d);
  discovery_options_copy d := (RMW_RET_OK, d);
  discovery_options_fini d := (RMW_RET_OK, d);
|}.
Definition ex_options : rmw_init_options_t := mkInitOptions 0 None 0 tt tt None (mkAllocator None false) None.
Definition ex_calls : list ContextCall :=
  [CallShutdown; CallInit (Some ex_options); CallInit (Some ex_options); CallFini; CallShutdown; CallShutdown; CallFini].
Definition ex_codes : list rmw_ret_t :=
  [RMW_RET_INVALID_ARGUMENT; RMW_RET_OK; RMW_RET_ALREADY_INIT; RMW_RET_INVALID_ARGUMENT; RMW_RET_OK; RMW_RET_OK; RMW_RET_OK].
Definition ex_finalized : option rmw_context_t := Some (mkRmwContext 1 (Some "rmw_zenoh_rs"%string) 0 None).
Lemma context_lifecycle_witness : machine_run true Uninitialized ex_calls = (ex_codes, Uninitialized).
Proof.
  exact (context_lifecycle (Some "rmw_zenoh_rs"%string) 0 0 ex_calls ex_codes ex_finalized eq_refl).
Defined.
(** A context from [rmw_get_zero_initialized_context] is never finalized. *)
Example zero_context_stays : fst <$> context_calls (Some zero_initialized_context)
  [CallInit (Some ex_options); CallShutdown; CallFini] = Ok [RMW_RET_OK; RMW_RET_OK; RMW_RET_INVALID_ARGUMENT].
Proof. reflexivity. Qed.

Definition ex_impl : ContextImpl :=
  ok_or_else (mkContextImpl (mkContext 42%N 0 "/" ∅ None FRmwZenoh) graph_events_new "/" 1 false ∅) (ContextImpl_new 0 "/").
Definition ex_context : option rmw_context_t := Some (mkRmwContext 1 None 0 (Some ex_impl)).
Definition ex_no_parser (_ : string) : option Entity := None.
Definition ok_some {E A} (d : A) (r : res E (option A)) : A := match r with Ok (Some a) => a | _ => d end.
Definition ex_process : Rmw :=
  ok_some (rmw_start ex_impl)
    (rmw_step ex_gid ex_no_parser ex_context (rmw_start ex_impl) (CreateNode (Some "talker"%string) "/demo" 1 2)).
Definition ex_other : Entity := ENode (NodeEntity_new 0 42%N 9 "listener" "/demo" "").
Definition ex_changed : Rmw :=
  ok_some (rmw_start ex_impl) (rmw_step ex_gid ex_no_parser ex_context ex_process (EntityAdd ex_other)).
Lemma ex_process_reachable : reachable ex_gid ex_no_parser ex_context ex_impl ex_process.
Proof.
  eapply (reach_step _ _ _ _ (rmw_start ex_impl) (CreateNode (Some "talker"%string) "/demo" 1 2)); [apply reach_start|by split|].
  reflexivity.
Defined.
Lemma conditions_live_witness : conditions_ok (r_graph ex_process) (r_guards ex_process) (r_nodes ex_process).
Proof.
  exact (proj1 (conditions_live ex_gid ex_no_parser ex_context 0 "/" ex_impl ex_process eq_refl ex_process_reachable)).
Defined.
Definition ex_process_node : NodeImpl := default (mkNodeImpl ex_rmw_node "" "" "" None) (r_nodes ex_process !! 2%nat).
Definition ex_world : World unit unit unit unit :=
  mkWorld (fun _ => tt) (fun p => default gc_default (r_guards ex_changed !! p)) (fun _ => tt) (fun _ => tt) (fun _ => None).
#[local] Instance unit_waitable : Waitable unit := fun _ => false.
Lemma graph_change_wakes_witness : exists w,
  rmw_wait (fun _ => ex_world) (wait_guard 1) (Some (mkTime 0 0)) 5 [] = Ok (Some (RMW_RET_OK, wait_guard 1, w, 5%Z)).
Proof.
  assert (exists ke, entity_to_liveliness_ke ex_other = Ok ke /\ parsed (data (r_graph ex_process)) !! ke = None) as Ch.
  { eexists. split; vm_compute; reflexivity. }
  assert (W : forall p c, r_guards ex_changed !! p = Some c -> w_gc ex_world p = c).
  { intros p c E. cbn. by rewrite E. }
  assert (C : ContextImpl_new 0 "/" = Ok ex_impl) by reflexivity.
  assert (E : rmw_step ex_gid ex_no_parser ex_context ex_process (EntityAdd ex_other) = Ok (Some ex_changed)) by reflexivity.
  assert (K : r_nodes ex_changed !! 2%nat = Some ex_process_node) by reflexivity.
  destruct (graph_change_wakes ex_gid ex_no_parser ex_context 0 "/" ex_impl ex_process (EntityAdd ex_other) ex_changed 2
    ex_process_node ex_world 5 9 C ex_process_reachable I Ch E K W) as (p & P & _ & R & _).
  assert (Q : ni_graph_guard_condition ex_process_node = Some 1%nat) by reflexivity.
  pose proof (eq_trans (eq_sym Q) P) as Q'. injection Q' as <-.
  eexists. exact R.
Defined.
