(* ===== verification/Action.v ===== *)
(** * The action server's state and operations
    (crates/ros-z/src/action/mod.rs, state.rs, server.rs)

    The goal table ([GoalManagerInternal]) behind its mutex, the shared cells
    the server hands out ([Arc<AtomicBool>] cancel flags and the oneshot
    channels of pending result requests) as heaps indexed by allocation order,
    and what the server sends.  Every operation of [GoalHandle] and
    [ZActionServer] is a computation of the state monad [SM], whose [None] is a
    panic: the state reached when it unwinds is kept, because a panic while the
    mutex is held poisons it.  The typestate of [GoalHandle] is its index. *)
From S2P Require Import Prelude Attachment.
From stdpp Require Import gmap countable vector.

(** ** Definitions *)

(** [struct GoalId(\[u8; 16\])].  The [Countable] instance goes through the list
    of its bytes, so that tables keyed by it compute. *)
Record GoalId := GoalId_from_bytes { GoalId_as_bytes : vec byte 16 }.
#[export] Instance GoalId_eq_dec : EqDecision GoalId.
Proof. solve_decision. Defined.
Definition goal_id_of_list (l : list byte) : option GoalId :=
  match l with
  | [a; b; c; d; e; f; g; h; i; j; k; l; m; n; o; p] =>
      Some (GoalId_from_bytes [# a; b; c; d; e; f; g; h; i; j; k; l; m; n; o; p])
  | _ => None
  end.
#[export] Program Instance GoalId_countable : Countable GoalId :=
  inj_countable (fun g => vec_to_list (GoalId_as_bytes g)) goal_id_of_list _.
Next Obligation. intros [v]. inv_all_vec_fin. done. Qed.

(** [GoalId::is_valid]. *)
Definition GoalId_is_valid (g : GoalId) : bool :=
  existsb (fun x => negb (bool_decide (x = x00))) (vec_to_list (GoalId_as_bytes g)).

Inductive GoalStatus :=
| Unknown | Accepted | Executing | Canceling | Succeeded | Canceled | Aborted.
#[export] Instance GoalStatus_eq_dec : EqDecision GoalStatus.
Proof. solve_decision. Defined.

Definition is_active (s : GoalStatus) : bool :=
  match s with Accepted | Executing | Canceling => true | _ => false end.
Definition is_terminal (s : GoalStatus) : bool :=
  match s with Succeeded | Canceled | Aborted => true | _ => false end.

(** [From<GoalStatus> for i8] and [TryFrom<i8> for GoalStatus]. *)
Definition status_as_i8 (s : GoalStatus) : Z :=
  match s with
  | Unknown => 0 | Accepted => 1 | Executing => 2 | Canceling => 3
  | Succeeded => 4 | Canceled => 5 | Aborted => 6
  end%Z.
Definition status_try_from (value : Z) : option GoalStatus :=
  match value with
  | 0 => Some Unknown | 1 => Some Accepted | 2 => Some Executing | 3 => Some Canceling
  | 4 => Some Succeeded | 5 => Some Canceled | 6 => Some Aborted
  | _ => None
  end%Z.

Inductive GoalEvent := EvExecute | EvCancelGoal | EvSucceed | EvAbort | EvCanceled.

Definition transition_goal_state (current : GoalStatus) (event : GoalEvent) : GoalStatus :=
  match current, event with
  | Accepted, EvExecute => Executing
  | Accepted, EvCancelGoal => Canceling
  | Executing, EvCancelGoal => Canceling
  | Executing, EvSucceed => Succeeded
  | Executing, EvAbort => Aborted
  | Canceling, EvCanceled => Canceled
  | Canceling, EvSucceed => Succeeded
  | Canceling, EvAbort => Aborted
  | _, _ => Unknown
  end.

(** [Time] and [GoalInfo]; [Time_of] is [Time::now] for a reading of the system
    clock, in seconds and nanoseconds since the epoch. *)
Record Time := mkTime { sec : Z; nanosec : Z }.
Definition Time_of (secs subsec_nanos : Z) : Time := mkTime (wrap_i 32 secs) subsec_nanos.
Definition Time_zero : Time := mkTime 0 0.
Record GoalInfo := mkGoalInfo { goal_id : GoalId; stamp : Time }.
Definition GoalInfo_new (g : GoalId) (now : Time) : GoalInfo := mkGoalInfo g now.

(** [Instant] and [Duration] in nanoseconds; [now + d] panics when the sum is
    not representable (a 64-bit signed number of seconds). *)
Definition Instant := Z.
Definition Duration := Z.
Definition instant_add (now d : Z) : option Z :=
  if (now + d <? 2 ^ 63 * 1000000000)%Z then Some (now + d)%Z else None.

Section Action.
(** The associated types of [ZAction], and [ZMessage::deserialize] of the three
    request types (generated serde code over the action's own types). *)
Context {Goal Result Feedback : Type} `{ZExt : ZExtApi}.
Context (deserialize_goal : list byte -> option (GoalId * Goal)).
Context (deserialize_cancel : list byte -> option GoalInfo).
Context (deserialize_result : list byte -> option GoalId).

(** [enum ServerGoalState]; a cancel flag is its index in the heap of flags. *)
Inductive ServerGoalState :=
| StAccepted (goal : Goal) (timestamp : Instant) (expires_at : option Instant)
| StExecuting (goal : Goal) (cancel_flag : nat) (expires_at : option Instant)
| StCanceling (goal : Goal)
| StTerminated (result : Result) (status : GoalStatus) (timestamp : Instant)
    (expires_at : option Instant).

(** [struct GoalManagerInternal]; a sender is its channel's index. *)
Record GoalManagerInternal := mkManager {
  goals : gmap GoalId ServerGoalState;
  result_timeout : Duration;
  goal_timeout : option Duration;
  result_futures : gmap GoalId (list nat);
}.
Definition set_goals (m : GoalManagerInternal) (g : gmap GoalId ServerGoalState) :=
  mkManager g (result_timeout m) (goal_timeout m) (result_futures m).
Definition set_futures (m : GoalManagerInternal) (f : gmap GoalId (list nat)) :=
  mkManager (goals m) (result_timeout m) (goal_timeout m) f.

Definition manager_new (rt : Duration) (gt : option Duration) : GoalManagerInternal :=
  mkManager ∅ rt gt ∅.

Inductive Response :=
| SendGoalResponse (accepted : bool) (stamp_sec stamp_nanosec : Z)
| CancelGoalServiceResponse (return_code : Z) (goals_canceling : list GoalInfo)
| GetResultResponse (status : Z) (result : Result).
Record GoalStatusInfo := mkStatusInfo { goal_info : GoalInfo; gs_status : GoalStatus }.
Inductive Sent :=
| Reply (q : Query) (a : Attachment) (r : Response)
| StatusMessage (status_list : list GoalStatusInfo)
| FeedbackMessage (id : GoalId) (feedback : Feedback).

(** A oneshot channel: [None] until its sender has sent. *)
Definition channel := option (Result * GoalStatus).

Record Server := mkServer {
  inner : GoalManagerInternal;
  poisoned : bool;
  flags : list bool;
  channels : list channel;
  sent : list Sent;
}.
Definition server_new (rt : Duration) (gt : option Duration) : Server :=
  mkServer (manager_new rt gt) false [] [] [].

(** The state monad of the server; [None] is a panic. *)
Definition SM (A : Type) : Type := Server -> option A * Server.
#[export] Instance SM_ret : MRet SM := fun A a s => (Some a, s).
#[export] Instance SM_bind : MBind SM := fun A B f m s =>
  match m s with
  | (Some a, s') => f a s'
  | (None, s') => (None, s')
  end.
Definition unwrap_SM {A} (o : option A) : SM A := fun s => (o, s).

(** [SafeGoalManager::modify]: [lock().expect(..)] panics on a poisoned mutex; a
    closure that panics poisons it. *)
Definition modify {R} (f : GoalManagerInternal -> option R * GoalManagerInternal) : SM R :=
  fun s =>
    if poisoned s then (None, s) else
    let '(r, m) := f (inner s) in
    (r, mkServer m (match r with Some _ => false | None => true end)
          (flags s) (channels s) (sent s)).
Definition read {R} (f : GoalManagerInternal -> R) : SM R :=
  fun s => if poisoned s then (None, s) else (Some (f (inner s)), s).

(** [Arc::new(AtomicBool::new(false))], [store(true)], [load]. *)
Definition new_flag : SM nat := fun s =>
  (Some (length (flags s)),
   mkServer (inner s) (poisoned s) (flags s ++ [false]) (channels s) (sent s)).
Definition store_flag (f : nat) : SM unit := fun s =>
  (Some tt, mkServer (inner s) (poisoned s) (<[f := true]> (flags s)) (channels s) (sent s)).
Definition load_flag (s : Server) (f : nat) : bool := default false (flags s !! f).

(** [oneshot::channel()] and [tx.send(..)], which consumes the sender. *)
Definition new_channel : SM nat := fun s =>
  (Some (length (channels s)),
   mkServer (inner s) (poisoned s) (flags s) (channels s ++ [None]) (sent s)).
Definition send_result (r : Result) (st : GoalStatus) (tx : nat) : SM unit := fun s =>
  (Some tt, mkServer (inner s) (poisoned s) (flags s)
              (<[tx := Some (r, st)]> (channels s)) (sent s)).
Definition emit (x : Sent) : SM unit := fun s =>
  (Some tt, mkServer (inner s) (poisoned s) (flags s) (channels s) (sent s ++ [x])).

(** The block that answers a query: the request's attachment is parsed (both
    [unwrap]s panic) and echoed; the outcome of [wait] is ignored. *)
Definition reply (q : Query) (r : Response) : SM unit :=
  bytes ← unwrap_SM (attachment q);
  a ← unwrap_SM (Attachment_try_from bytes);
  emit (Reply q a r).

(** [publish_status]: [stamp_of] gives the clock's reading for each entry.  The
    order of the list is the map's, which the code leaves unspecified. *)
Definition state_status (st : ServerGoalState) : GoalStatus :=
  match st with
  | StAccepted _ _ _ => Accepted
  | StExecuting _ _ _ => Executing
  | StCanceling _ => Canceling
  | StTerminated _ status _ _ => status
  end.
Definition status_list (stamp_of : GoalId -> Time) (m : GoalManagerInternal) : list GoalStatusInfo :=
  map (fun '(id, st) => mkStatusInfo (GoalInfo_new id (stamp_of id)) (state_status st))
      (map_to_list (goals m)).
Definition publish_status (stamp_of : GoalId -> Time) : SM unit :=
  l ← read (status_list stamp_of);
  emit (StatusMessage l).

(** The goal handle; its index is the [State] marker. *)
Inductive Marker := MRequested | MAccepted | MExecuting.
Record GoalHandle (State : Marker) := mkHandle {
  goal : Goal;
  info : GoalInfo;
  query : option Query;
  cancel_flag : option nat;
}.
Arguments mkHandle {State} _ _ _ _.
Arguments goal {State} _.
Arguments info {State} _.
Arguments query {State} _.
Arguments cancel_flag {State} _.
Definition handle_id {State} (h : GoalHandle State) : GoalId := goal_id (info h).

(** [recv_goal]: a deserialization error is returned; no payload panics. *)
Definition recv_goal (q : Query) (now : Time) : SM (option (GoalHandle MRequested)) :=
  bytes ← unwrap_SM (payload q);
  match deserialize_goal bytes with
  | None => mret None
  | Some (id, g) => mret (Some (mkHandle g (GoalInfo_new id now) (Some q) None))
  end.

(** [accept]; [modify]'s closure is [insert_accepted], with the two readings of
    the monotonic clock. *)
Definition expiry (timeout : option Duration) (now : Instant) : option (option Instant) :=
  match timeout with
  | None => Some None
  | Some d => match instant_add now d with Some e => Some (Some e) | None => None end
  end.
Definition insert_accepted (id : GoalId) (g : Goal) (t1 t2 : Instant)
    (m : GoalManagerInternal) : option unit * GoalManagerInternal :=
  match expiry (goal_timeout m) t1 with
  | None => (None, m)
  | Some expires_at => (Some tt, set_goals m (<[id := StAccepted g t2 expires_at]> (goals m)))
  end.
Definition answer {State} (h : GoalHandle State) (r : Response) : SM unit :=
  match query h with Some q => reply q r | None => mret tt end.
Definition accept (h : GoalHandle MRequested) (t1 t2 : Instant) (stamp_of : GoalId -> Time)
    : SM (GoalHandle MAccepted) :=
  answer h (SendGoalResponse true (sec (stamp (info h))) (nanosec (stamp (info h))));;
  modify (insert_accepted (handle_id h) (goal h) t1 t2);;
  publish_status stamp_of;;
  mret (mkHandle (goal h) (info h) None None).
Definition reject (h : GoalHandle MRequested) : SM unit :=
  answer h (SendGoalResponse false 0 0).

(** [execute]. *)
Definition insert_executing (id : GoalId) (g : Goal) (flag : nat) (t : Instant)
    (m : GoalManagerInternal) : option unit * GoalManagerInternal :=
  match expiry (goal_timeout m) t with
  | None => (None, m)
  | Some expires_at => (Some tt, set_goals m (<[id := StExecuting g flag expires_at]> (goals m)))
  end.
Definition execute (h : GoalHandle MAccepted) (t : Instant) (stamp_of : GoalId -> Time)
    : SM (GoalHandle MExecuting) :=
  flag ← new_flag;
  modify (insert_executing (handle_id h) (goal h) flag t);;
  publish_status stamp_of;;
  mret (mkHandle (goal h) (info h) None (Some flag)).

Definition publish_feedback (h : GoalHandle MExecuting) (f : Feedback) : SM unit :=
  emit (FeedbackMessage (handle_id h) f).

Definition is_cancel_requested (s : Server) (h : GoalHandle MExecuting) : bool :=
  match cancel_flag h with Some f => load_flag s f | None => false end.

(** [terminate] and the three methods that call it. *)
Definition insert_terminated (id : GoalId) (r : Result) (st : GoalStatus) (now : Instant)
    (m : GoalManagerInternal) : option (list nat) * GoalManagerInternal :=
  match instant_add now (result_timeout m) with
  | None => (None, m)
  | Some e =>
      let m := set_goals m (<[id := StTerminated r st now (Some e)]> (goals m)) in
      (Some (default [] (result_futures m !! id)), set_futures m (delete id (result_futures m)))
  end.
Fixpoint notify (txs : list nat) (r : Result) (st : GoalStatus) : SM unit :=
  match txs with
  | [] => mret tt
  | tx :: txs' => send_result r st tx;; notify txs' r st
  end.
Definition terminate (h : GoalHandle MExecuting) (r : Result) (st : GoalStatus) (now : Instant)
    (stamp_of : GoalId -> Time) : SM unit :=
  futures_to_notify ← modify (insert_terminated (handle_id h) r st now);
  notify futures_to_notify r st;;
  publish_status stamp_of.
Definition succeed (h : GoalHandle MExecuting) (r : Result) := terminate h r Succeeded.
Definition abort (h : GoalHandle MExecuting) (r : Result) := terminate h r Aborted.
Definition canceled (h : GoalHandle MExecuting) (r : Result) := terminate h r Canceled.

(** [request_cancel]: the closure of [read] stores the flag under the lock. *)
Definition executing_flag (id : GoalId) (m : GoalManagerInternal) : option nat :=
  match goals m !! id with Some (StExecuting _ f _) => Some f | _ => None end.
Definition request_cancel (id : GoalId) : SM bool :=
  o ← read (executing_flag id);
  match o with
  | Some f => store_flag f;; mret true
  | None => mret false
  end.

(** [expire_goals]. *)
Definition should_expire (now : Instant) (st : ServerGoalState) : bool :=
  match st with
  | StAccepted _ _ e | StExecuting _ _ e | StTerminated _ _ _ e =>
      match e with Some exp => (exp <=? now)%Z | None => false end
  | StCanceling _ => false
  end.
Definition retain_live (now : Instant) (m : GoalManagerInternal)
    : option (list GoalId) * GoalManagerInternal :=
  (Some (map fst (filter (fun p => should_expire now p.2 = true) (map_to_list (goals m)))),
   set_goals m (filter (fun p => should_expire now p.2 = false) (goals m))).
Definition expire_goals (now : Instant) (stamp_of : GoalId -> Time) : SM (list GoalId) :=
  expired ← modify (retain_live now);
  match expired with
  | [] => mret expired
  | _ => publish_status stamp_of;; mret expired
  end.

Definition set_result_timeout (timeout : Duration) : SM unit :=
  modify (fun m => (Some tt, mkManager (goals m) timeout (goal_timeout m) (result_futures m))).
Definition server_result_timeout : SM Duration := read result_timeout.

(** [handle_result_requests_legacy_inner]: only a terminated goal is answered. *)
Definition terminated_result (id : GoalId) (m : GoalManagerInternal) : option (Result * GoalStatus) :=
  match goals m !! id with Some (StTerminated r st _ _) => Some (r, st) | _ => None end.
Definition handle_result_requests_legacy_inner (q : Query) : SM unit :=
  bytes ← unwrap_SM (payload q);
  match deserialize_result bytes with
  | None => mret tt
  | Some id =>
      o ← read (terminated_result id);
      match o with
      | Some (r, st) => reply q (GetResultResponse (status_as_i8 st) r)
      | None => mret tt
      end
  end.
End Action.

Arguments mkHandle {Goal State} _ _ _ _.
Arguments goal {Goal State} _.
Arguments info {Goal State} _.
Arguments query {Goal State} _.
Arguments cancel_flag {Goal State} _.
