(* ===== verification/ActionClient.v ===== *)
(** * The action client (crates/ros-z/src/action/client.rs)

    The goal board with the feedback and status channels of each goal, the
    callbacks that route what the server publishes, and the calls: sending a
    goal, cancelling, getting a result, the handle's [result], each cut at its
    awaits.  The channels of a goal are heaps indexed by their allocation, since
    the board holds the sending ends and handles and callers the receiving ones.
    The channels of tokio ([TokioApi]) and the messages ([ActionMessages]) are
    parameters. *)
From stdpp Require Import gmap strings.
From S2P Require Import Prelude RustStr CdrPrimitives Queue Attachment Qos Entity RmwZenoh Ros2Dds Action Service PubSub ActionBuild.
Open Scope list_scope.

(** ** Definitions *)

(** *** Channels of tokio *)

(** [mpsc::unbounded_channel] and [watch::channel], both ends in one value; a
    receiver of a watch is its number, the first being 0.  [changed] is pending
    ([None]), or returns [Ok] or an error ([Some true], [Some false]). *)
Class TokioApi := {
  Unbounded : Type -> Type;
  unbounded_channel : forall T, Unbounded T;
  mpsc_send : forall T, Unbounded T -> T -> Unbounded T;
  mpsc_recv : forall T, Unbounded T -> option T * Unbounded T;
  mpsc_drop_tx : forall T, Unbounded T -> Unbounded T;
  mpsc_drop_rx : forall T, Unbounded T -> Unbounded T;
  Watch : Type -> Type;
  watch_channel : forall T, T -> Watch T;
  watch_send : forall T, Watch T -> T -> Watch T;
  watch_subscribe : forall T, Watch T -> nat * Watch T;
  watch_borrow_and_update : forall T, Watch T -> nat -> T * Watch T;
  watch_changed : forall T, Watch T -> nat -> option bool * Watch T;
  watch_drop_tx : forall T, Watch T -> Watch T;
  watch_drop_rx : forall T, Watch T -> nat -> Watch T;
}.
Arguments unbounded_channel {_ T}.
Arguments mpsc_send {_ T} _ _.
Arguments mpsc_recv {_ T} _.
Arguments mpsc_drop_tx {_ T} _.
Arguments mpsc_drop_rx {_ T} _.
Arguments watch_channel {_ T} _.
Arguments watch_send {_ T} _ _.
Arguments watch_subscribe {_ T} _.
Arguments watch_borrow_and_update {_ T} _ _.
Arguments watch_changed {_ T} _ _.
Arguments watch_drop_tx {_ T} _.
Arguments watch_drop_rx {_ T} _ _.

(** An unbounded channel is a queue that refuses when its receiver is gone. *)
Class MpscLaws `{TokioApi} := {
  ub_items : forall T, Unbounded T -> list T;
  ub_has_rx : forall T, Unbounded T -> bool;
  ub_new : forall T, ub_items T unbounded_channel = [] /\ ub_has_rx T unbounded_channel = true;
  ub_send : forall T c x,
    ub_items T (mpsc_send c x) = (if ub_has_rx T c then ub_items T c ++ [x] else ub_items T c) /\
    ub_has_rx T (mpsc_send c x) = ub_has_rx T c;
  ub_recv : forall T c,
    match mpsc_recv c with
    | (Some x, c') => ub_items T c = x :: ub_items T c' /\ ub_has_rx T c' = ub_has_rx T c
    | (None, c') => ub_items T c = [] /\ ub_items T c' = [] /\ ub_has_rx T c' = ub_has_rx T c
    end;
  ub_drop_tx : forall T c, ub_items T (mpsc_drop_tx c) = ub_items T c /\ ub_has_rx T (mpsc_drop_tx c) = ub_has_rx T c;
  ub_drop_rx : forall T c, ub_items T (mpsc_drop_rx c) = [] /\ ub_has_rx T (mpsc_drop_rx c) = false;
}.
Arguments ub_items {_ _ T} _.
Arguments ub_has_rx {_ _ T} _.

(** A watch holds its last value, which it keeps when it has no receiver; a
    receiver learns of changes until the sender is gone. *)
Class WatchLaws `{TokioApi} := {
  w_value : forall T, Watch T -> T;
  w_receivers : forall T, Watch T -> gset nat;
  w_open : forall T, Watch T -> bool;
  w_new : forall T x, w_value T (watch_channel x) = x /\ w_receivers T (watch_channel x) = {[0%nat]} /\
    w_open T (watch_channel x) = true;
  w_send : forall T c x,
    w_value T (watch_send c x) = (if decide (w_receivers T c = ∅) then w_value T c else x) /\
    w_receivers T (watch_send c x) = w_receivers T c /\ w_open T (watch_send c x) = w_open T c;
  w_subscribe : forall T c, let '(r, c') := watch_subscribe c in
    r ∉ w_receivers T c /\ w_value T c' = w_value T c /\ w_receivers T c' = {[r]} ∪ w_receivers T c /\
    w_open T c' = w_open T c;
  w_borrow : forall T c r, let '(x, c') := watch_borrow_and_update c r in
    x = w_value T c /\ w_value T c' = w_value T c /\ w_receivers T c' = w_receivers T c /\ w_open T c' = w_open T c;
  w_changed : forall T c r, let '(o, c') := watch_changed c r in
    (o = Some false -> w_open T c = false) /\
    w_value T c' = w_value T c /\ w_receivers T c' = w_receivers T c /\ w_open T c' = w_open T c;
  w_drop_tx : forall T c, w_value T (watch_drop_tx c) = w_value T c /\
    w_receivers T (watch_drop_tx c) = w_receivers T c /\ w_open T (watch_drop_tx c) = false;
  w_drop_rx : forall T c r, w_value T (watch_drop_rx c r) = w_value T c /\
    w_receivers T (watch_drop_rx c r) = w_receivers T c ∖ {[r]} /\ w_open T (watch_drop_rx c r) = w_open T c;
}.
Arguments w_value {_ _ T} _.
Arguments w_receivers {_ _ T} _.
Arguments w_open {_ _ T} _.

(** *** Messages *)

(** The messages of messages.rs as the client has them. *)
Record SendGoalRequest (Goal : Type) := mkSendGoalRequest { sg_goal_id : GoalId; sg_goal : Goal }.
Record GoalResponse := mkGoalResponse { accepted : bool; stamp_sec : Z; stamp_nanosec : Z }.
Record CancelResponse := mkCancelResponse { return_code : Z; goals_canceling : list GoalInfo }.
Record ResultResponse (R : Type) := mkResultResponse { rr_status : Z; rr_result : R }.
Record FeedbackMsg (F : Type) := mkFeedbackMsg { fm_goal_id : GoalId; fm_feedback : F }.
Record StatusMsg := mkStatusMsg { sm_status_list : list GoalStatusInfo }.
Arguments mkSendGoalRequest {Goal} _ _.
Arguments sg_goal_id {Goal} _.
Arguments sg_goal {Goal} _.
Arguments mkResultResponse {R} _ _.
Arguments rr_status {R} _.
Arguments rr_result {R} _.
Arguments mkFeedbackMsg {F} _ _.
Arguments fm_goal_id {F} _.
Arguments fm_feedback {F} _.

Class ActionMessages (Goal Result Feedback : Type) := {
  goal_request_msg :: ZMessage (SendGoalRequest Goal);
  goal_response_msg :: ZMessage GoalResponse;
  cancel_request_msg :: ZMessage GoalInfo;
  cancel_response_msg :: ZMessage CancelResponse;
  result_request_msg :: ZMessage GoalId;
  result_response_msg :: ZMessage (ResultResponse Result);
  feedback_msg :: ZMessage (FeedbackMsg Feedback);
  status_msg :: ZMessage StatusMsg;
}.

Section ActionClient.
Context {Goal Result Feedback : Type} `{AMsg : ActionMessages Goal Result Feedback}.
Context `{ZA : ZenohApi} `{ZExt : ZExtApi} `{Chan : ChannelApi} `{Sess : SessionApi} `{PS : PubSubApi} `{Tokio : TokioApi}.

(** [GoalService], [CancelService], [ResultService]. *)
Definition GoalService : ZService := {| Request := SendGoalRequest Goal; Response := GoalResponse |}.
Definition CancelService : ZService := {| Request := GoalInfo; Response := CancelResponse |}.
Definition ResultService : ZService := {| Request := GoalId; Response := ResultResponse Result |}.

(** *** State *)

(** [struct GoalChannels], the board, and the channels. *)
Record GoalChannels := mkGoalChannels { feedback_tx : nat; status_tx : nat }.
Record ZActionClient := mkActionClient {
  ac_parts : ActionClientParts;
  active_goals : gmap GoalId GoalChannels;
  feedbacks : list (Unbounded Feedback);
  statuses : list (Watch GoalStatus);
}.
Definition action_client_new (parts : ActionClientParts) : ZActionClient := mkActionClient parts ∅ [] [].

Definition set_parts (c : ZActionClient) (p : ActionClientParts) : ZActionClient :=
  mkActionClient p (active_goals c) (feedbacks c) (statuses c).
Definition set_board (c : ZActionClient) (b : gmap GoalId GoalChannels) : ZActionClient :=
  mkActionClient (ac_parts c) b (feedbacks c) (statuses c).
Definition on_feedbacks (k : nat) (f : Unbounded Feedback -> Unbounded Feedback) (c : ZActionClient) : ZActionClient :=
  mkActionClient (ac_parts c) (active_goals c) (alter f k (feedbacks c)) (statuses c).
Definition on_statuses (k : nat) (f : Watch GoalStatus -> Watch GoalStatus) (c : ZActionClient) : ZActionClient :=
  mkActionClient (ac_parts c) (active_goals c) (feedbacks c) (alter f k (statuses c)).

(** [DashMap::insert] and [remove]: the senders of the entry that goes are
    dropped. *)
Definition drop_senders (ch : GoalChannels) (c : ZActionClient) : ZActionClient :=
  on_statuses (status_tx ch) watch_drop_tx (on_feedbacks (feedback_tx ch) mpsc_drop_tx c).
Definition drop_entry (id : GoalId) (c : ZActionClient) : ZActionClient :=
  match active_goals c !! id with Some ch => drop_senders ch c | None => c end.
Definition board_insert (id : GoalId) (ch : GoalChannels) (c : ZActionClient) : ZActionClient :=
  let c := drop_entry id c in set_board c (<[id := ch]> (active_goals c)).
Definition board_remove (id : GoalId) (c : ZActionClient) : ZActionClient :=
  let c := drop_entry id c in set_board c (delete id (active_goals c)).

(** *** Routing *)

(** The callback of the feedback subscription and that of the status one, on a
    message and on a sample. *)
Definition on_feedback (c : ZActionClient) (msg : FeedbackMsg Feedback) : ZActionClient :=
  match active_goals c !! fm_goal_id msg with
  | Some channels => on_feedbacks (feedback_tx channels) (fun ch => mpsc_send ch (fm_feedback msg)) c
  | None => c
  end.
Definition on_status_info (c : ZActionClient) (status_info : GoalStatusInfo) : ZActionClient :=
  match active_goals c !! goal_id (goal_info status_info) with
  | Some channels => on_statuses (status_tx channels) (fun w => watch_send w (gs_status status_info)) c
  | None => c
  end.
Definition on_status (c : ZActionClient) (msg : StatusMsg) : ZActionClient :=
  foldl on_status_info c (sm_status_list msg).
Definition on_feedback_sample (c : ZActionClient) (sample : TopicSample) : res ZError ZActionClient :=
  o ← typed_callback msg_deserialize sample;
  Ok (match o with Some msg => on_feedback c msg | None => c end).
Definition on_status_sample (c : ZActionClient) (sample : TopicSample) : res ZError ZActionClient :=
  o ← typed_callback msg_deserialize sample;
  Ok (match o with Some msg => on_status c msg | None => c end).

(** [ZActionClient::feedback_stream]: the old sender is dropped. *)
Definition feedback_stream (id : GoalId) (c : ZActionClient) : option nat * ZActionClient :=
  match active_goals c !! id with
  | Some channels =>
      let k := length (feedbacks c) in
      let c := mkActionClient (ac_parts c) (active_goals c) (feedbacks c ++ [unbounded_channel]) (statuses c) in
      let c := on_feedbacks (feedback_tx channels) mpsc_drop_tx c in
      (Some k, set_board c (<[id := mkGoalChannels k (status_tx channels)]> (active_goals c)))
  | None => (None, c)
  end.
(** [ZActionClient::status_watch]. *)
Definition client_status_watch (id : GoalId) (c : ZActionClient) : option (nat * nat) * ZActionClient :=
  match active_goals c !! id with
  | Some channels =>
      match statuses c !! status_tx channels with
      | Some w => let '(r, w) := watch_subscribe w in
          (Some (status_tx channels, r), on_statuses (status_tx channels) (fun _ => w) c)
      | None => (None, c)
      end
  | None => (None, c)
  end.

(** *** Calls *)

(** A section of a call; [None] of a waiting section is that it still waits. *)
Definition AM (A : Type) : Type := ZActionClient -> res ZError A * ZActionClient.
#[local] Instance AM_ret : MRet AM := fun A a c => (Ok a, c).
#[local] Instance AM_bind : MBind AM := fun A B f m c =>
  match m c with
  | (Ok a, c) => f a c
  | (Err e, c) => (Err e, c)
  | (Panic, c) => (Panic, c)
  end.
Definition edit (f : ZActionClient -> ZActionClient) : AM unit := fun c => (Ok tt, f c).

Definition set_goal_client (p : ActionClientParts) (cl : ZClient) : ActionClientParts :=
  mkClientParts cl (ac_result_client p) (ac_cancel_client p) (ac_feedback_sub p) (ac_status_sub p).
Definition set_result_client (p : ActionClientParts) (cl : ZClient) : ActionClientParts :=
  mkClientParts (ac_goal_client p) cl (ac_cancel_client p) (ac_feedback_sub p) (ac_status_sub p).
Definition set_cancel_client (p : ActionClientParts) (cl : ZClient) : ActionClientParts :=
  mkClientParts (ac_goal_client p) (ac_result_client p) cl (ac_feedback_sub p) (ac_status_sub p).

(** [client.send_request(&request)] up to the [get], on one of the clients, and
    [client.rx.recv_async().await?] with the decoding of the response; the client
    holds a sending end, so that its channel is not disconnected. *)
Definition send_on (S : ZService) (get : ActionClientParts -> ZClient)
    (set : ActionClientParts -> ZClient -> ActionClientParts) (token : nat) (now : option Z) (request : Request)
    : AM ServiceQuery := fun c =>
  let '(r, cl) := send_request (get (ac_parts c)) token now request in
  (r, set_parts c (set (ac_parts c) cl)).
Definition recv_on (S : ZService) (get : ActionClientParts -> ZClient)
    (set : ActionClientParts -> ZClient -> ActionClientParts) : AM (option Response) := fun c =>
  match take_response_async (get (ac_parts c)) with
  | (Blocked, _) => (Ok None, c)
  | (Done r, cl) => (r ← r; Ok (Some r), set_parts c (set (ac_parts c) cl))
  end.

(** [send_goal_request_low] and [recv_goal_response_low], and the same of the
    other services. *)
Definition send_goal_request_low (token : nat) (now : option Z) (request : SendGoalRequest Goal) : AM ServiceQuery :=
  send_on GoalService ac_goal_client set_goal_client token now request.
Definition recv_goal_response_low : AM (option GoalResponse) :=
  recv_on GoalService ac_goal_client set_goal_client.
Definition send_cancel_request_low (token : nat) (now : option Z) (request : GoalInfo) : AM ServiceQuery :=
  send_on CancelService ac_cancel_client set_cancel_client token now request.
Definition recv_cancel_response_low : AM (option CancelResponse) :=
  recv_on CancelService ac_cancel_client set_cancel_client.
Definition send_result_request_low (token : nat) (now : option Z) (request : GoalId) : AM ServiceQuery :=
  send_on ResultService ac_result_client set_result_client token now request.
Definition recv_result_response_low : AM (option (ResultResponse Result)) :=
  recv_on ResultService ac_result_client set_result_client.

(** [GoalHandle] in its [Active] state; a receiver of a watch is the watch and
    the number.  A goal being sent holds the same receivers. *)
Record GoalHandle := mkGoalHandle {
  gh_id : GoalId;
  gh_feedback_rx : option nat;
  gh_status_rx : option (nat * nat);
}.
Definition drop_feedback_rx (rx : option nat) : ZActionClient -> ZActionClient :=
  match rx with Some k => on_feedbacks k mpsc_drop_rx | None => id end.
Definition drop_status_rx (rx : option (nat * nat)) : ZActionClient -> ZActionClient :=
  match rx with Some (k, r) => on_statuses k (fun w => watch_drop_rx w r) | None => id end.
Definition drop_handle (h : GoalHandle) : ZActionClient -> ZActionClient :=
  fun c => drop_status_rx (gh_status_rx h) (drop_feedback_rx (gh_feedback_rx h) c).

(** [send_goal]: steps 1 to 3, up to the [get]; what the [get] answers; the
    response.  [id] is the identifier that [GoalId::new] draws.  The receivers are
    dropped when the call ends without a handle, the entry of the board only in
    two of the cases. *)
Definition new_channels (id : GoalId) (c : ZActionClient) : ZActionClient :=
  board_insert id (mkGoalChannels (length (feedbacks c)) (length (statuses c)))
    (mkActionClient (ac_parts c) (active_goals c) (feedbacks c ++ [unbounded_channel])
       (statuses c ++ [watch_channel Unknown])).
Definition send_goal_begin (id : GoalId) (goal : Goal) (token : nat) (now : option Z)
    : AM (ServiceQuery * GoalHandle) := fun c =>
  let h := mkGoalHandle id (Some (length (feedbacks c))) (Some (length (statuses c), 0%nat)) in
  match send_goal_request_low token now (mkSendGoalRequest id goal) (new_channels id c) with
  | (Ok q, c) => (Ok (q, h), c)
  | (Err e, c) => (Err e, drop_handle h (board_remove id c))
  | (Panic, c) => (Panic, drop_handle h c)
  end.
Definition send_goal_sent (h : GoalHandle) (get : res ZError unit) : AM GoalHandle := fun c =>
  match get with
  | Ok _ => (Ok h, c)
  | Err e => (Err e, drop_handle h (board_remove (gh_id h) c))
  | Panic => (Panic, drop_handle h c)
  end.
Definition send_goal_finish (h : GoalHandle) : AM (option GoalHandle) := fun c =>
  match recv_goal_response_low c with
  | (Ok None, c) => (Ok None, c)
  | (Ok (Some response), c) =>
      if accepted response then (Ok (Some h), c)
      else (Err (Message "Goal rejected"), drop_handle h (board_remove (gh_id h) c))
  | (Err e, c) => (Err e, drop_handle h c)
  | (Panic, c) => (Panic, drop_handle h c)
  end.

(** [cancel_goal], with the clock's reading of [GoalInfo::new], and
    [cancel_all_goals]; both end in [recv_cancel_response_low]. *)
Definition zero_goal_id : GoalId := GoalId_from_bytes (vreplicate 16 x00).
Definition cancel_goal_begin (id : GoalId) (stamp : Time) (token : nat) (now : option Z) : AM ServiceQuery :=
  send_cancel_request_low token now (GoalInfo_new id stamp).
Definition cancel_all_goals_begin (token : nat) (now : option Z) : AM ServiceQuery :=
  send_cancel_request_low token now (mkGoalInfo zero_goal_id Time_zero).
Definition cancel_finish : AM (option CancelResponse) := recv_cancel_response_low.

(** [get_result]; the status of the response is not looked at. *)
Definition get_result_begin (id : GoalId) (token : nat) (now : option Z) : AM ServiceQuery :=
  send_result_request_low token now id.
Definition get_result_finish : AM (option Result) :=
  o ← recv_result_response_low;
  mret (rr_result <$> o).

(** [GoalHandle::feedback], [status_watch] and [cancel]. *)
Definition handle_feedback (h : GoalHandle) : option nat * GoalHandle :=
  (gh_feedback_rx h, mkGoalHandle (gh_id h) None (gh_status_rx h)).
Definition handle_status_watch (h : GoalHandle) : option (nat * nat) * GoalHandle :=
  (gh_status_rx h, mkGoalHandle (gh_id h) (gh_feedback_rx h) None).
Definition handle_cancel_begin (h : GoalHandle) := cancel_goal_begin (gh_id h).

(** [GoalHandle::result]: where the call is.  [RCheck] is the head of its loop,
    [RChanging] waits for a change, [RRequest] is about to ask for the result,
    [RSent] is in the [get], [RReply] waits for the response. *)
Inductive ResultAt :=
| RCheck (rx : nat * nat)
| RChanging (rx : nat * nat)
| RRequest
| RSent
| RReply.
Record ResultCall := mkResultCall {
  rc_id : GoalId;
  rc_feedback_rx : option nat;
  rc_at : ResultAt;
}.
Inductive progress :=
| Going (call : ResultCall) (sent : option ServiceQuery)
| Finished (r : res ZError Result).
Definition result_begin (h : GoalHandle) : ResultCall :=
  mkResultCall (gh_id h) (gh_feedback_rx h)
    (match gh_status_rx h with Some rx => RCheck rx | None => RRequest end).
Definition result_goto (call : ResultCall) (a : ResultAt) : ResultCall :=
  mkResultCall (rc_id call) (rc_feedback_rx call) a.
Definition result_end (call : ResultCall) (r : res ZError Result) (c : ZActionClient)
    : progress * ZActionClient :=
  (Finished r, drop_feedback_rx (rc_feedback_rx call)
     (match r with Panic => c | _ => board_remove (rc_id call) c end)).
Definition result_step (token : nat) (now : option Z) (get : res ZError unit) (call : ResultCall)
    (c : ZActionClient) : progress * ZActionClient :=
  match rc_at call with
  | RCheck (k, r) =>
      match statuses c !! k with
      | Some w =>
          let '(status, w) := watch_borrow_and_update w r in
          let c := on_statuses k (fun _ => w) c in
          if is_terminal status then
            (Going (result_goto call RRequest) None, drop_status_rx (Some (k, r)) c)
          else (Going (result_goto call (RChanging (k, r))) None, c)
      | None => (Going call None, c)
      end
  | RChanging (k, r) =>
      match statuses c !! k with
      | Some w =>
          let '(o, w) := watch_changed w r in
          let c := on_statuses k (fun _ => w) c in
          match o with
          | None => (Going call None, c)
          | Some true => (Going (result_goto call (RCheck (k, r))) None, c)
          | Some false => (Going (result_goto call RRequest) None, drop_status_rx (Some (k, r)) c)
          end
      | None => (Going call None, c)
      end
  | RRequest =>
      match get_result_begin (rc_id call) token now c with
      | (Ok q, c) => (Going (result_goto call RSent) (Some q), c)
      | (Err e, c) => result_end call (Err e) c
      | (Panic, c) => result_end call Panic c
      end
  | RSent =>
      match get with
      | Ok _ => (Going (result_goto call RReply) None, c)
      | Err e => result_end call (Err e) c
      | Panic => result_end call Panic c
      end
  | RReply =>
      match get_result_finish c with
      | (Ok None, c) => (Going call None, c)
      | (Ok (Some r), c) => result_end call (Ok r) c
      | (Err e, c) => result_end call (Err e) c
      | (Panic, c) => result_end call Panic c
      end
  end.
End ActionClient.
