(* ===== verification/ActionClientProps.v ===== *)
(** * The action client: what reaches whom

    [exec_client] is one step of a client and of its callers: a section of a call,
    a message or a reply that arrives, a receiver that is read or dropped.  A run
    is any list of steps.  Its log says what arrived, and for which goal and when
    each channel was made.  The theorems: each channel of a goal gets what arrived
    for that goal since, in order and nothing else; and [result] asks for the
    result only when the goal's last status is terminal. *)
From stdpp Require Import gmap strings.
From S2P Require Import Prelude RustStr CdrPrimitives Queue Attachment Qos Entity RmwZenoh Ros2Dds Action Service PubSub ActionBuild ActionClient.
Open Scope list_scope.

(** ** Definitions *)

Section Run.
Context {Goal Result Feedback : Type} `{AMsg : ActionMessages Goal Result Feedback}.
Context `{ZA : ZenohApi} `{ZExt : ZExtApi} `{Chan : ChannelApi} `{Sess : SessionApi} `{PS : PubSubApi}.
Context `{Tokio : TokioApi} `{ML : !MpscLaws} `{WL : !WatchLaws}.
#[local] Abbreviation client := (ZActionClient (Feedback := Feedback)).

(** Who holds what: goals being sent (and whether their [get] was answered),
    handles, calls of [result], and the receivers of watches that callers hold. *)
Record Owners := mkOwners {
  ow_sending : list (GoalHandle * bool);
  ow_handles : list GoalHandle;
  ow_calls : list ResultCall;
  ow_watchers : list (nat * nat);
}.
(** What arrived, for each channel its goal and what had arrived before it was
    made, the watches that missed a status for want of a receiver, and what was
    received from the feedback channels. *)
Record Log := mkLog {
  lg_feedback : list (GoalId * Feedback);
  lg_status : list (GoalId * GoalStatus);
  lg_born_f : list (GoalId * nat);
  lg_born_w : list (GoalId * nat);
  lg_missed : list nat;
  lg_got : list (nat * Feedback);
}.
Record ClientRun := mkRun { cr_client : client; cr_owners : Owners; cr_log : Log }.
Definition run_new (parts : ActionClientParts) : ClientRun :=
  mkRun (action_client_new parts) (mkOwners [] [] [] []) (mkLog [] [] [] [] [] []).

Inductive ClientOp :=
| CSend (id : GoalId) (goal : Goal) (token : nat) (now : option Z)
| CSent (i : nat) (get : res ZError unit)
| CFinish (i : nat)
| CAbandon (i : nat)
| CFeedback (sample : TopicSample)
| CStatus (sample : TopicSample)
| CReply (service : nat) (reply : option Sample)
| CStream (id : GoalId)
| CWatch (id : GoalId)
| CTakeFeedback (i : nat)
| CTakeStatus (i : nat)
| CDropHandle (i : nat)
| CRecv (k : nat)
| CDropRx (k : nat)
| CBorrow (i : nat)
| CChanged (i : nat)
| CDropWatcher (i : nat)
| CCancel (id : GoalId) (stamp : Time) (token : nat) (now : option Z)
| CCancelAll (token : nat) (now : option Z)
| CCancelFinish
| CGetResult (id : GoalId) (token : nat) (now : option Z)
| CGetResultFinish
| CResult (i : nat)
| CResultStep (i : nat) (token : nat) (now : option Z) (get : res ZError unit)
| CResultAbandon (i : nat).

Definition set_client (st : ClientRun) (c : client) : ClientRun := mkRun c (cr_owners st) (cr_log st).
Definition set_sending (o : Owners) (l : list (GoalHandle * bool)) : Owners :=
  mkOwners l (ow_handles o) (ow_calls o) (ow_watchers o).
Definition set_handles (o : Owners) (l : list GoalHandle) : Owners :=
  mkOwners (ow_sending o) l (ow_calls o) (ow_watchers o).
Definition set_calls (o : Owners) (l : list ResultCall) : Owners :=
  mkOwners (ow_sending o) (ow_handles o) l (ow_watchers o).
Definition set_watchers (o : Owners) (l : list (nat * nat)) : Owners :=
  mkOwners (ow_sending o) (ow_handles o) (ow_calls o) l.
Definition set_born (l : Log) (f w : list (GoalId * nat)) : Log :=
  mkLog (lg_feedback l) (lg_status l) f w (lg_missed l) (lg_got l).

Definition log_new_channels (id : GoalId) (l : Log) : Log :=
  set_born l (lg_born_f l ++ [(id, length (lg_feedback l))]) (lg_born_w l ++ [(id, length (lg_status l))]).
Definition exec_send (st : ClientRun) (id : GoalId) (goal : Goal) (token : nat) (now : option Z) : ClientRun :=
  let l := log_new_channels id (cr_log st) in
  match send_goal_begin id goal token now (cr_client st) with
  | (Ok (_, h), c) => mkRun c (set_sending (cr_owners st) (ow_sending (cr_owners st) ++ [(h, false)])) l
  | (_, c) => mkRun c (cr_owners st) l
  end.
Definition exec_sent (st : ClientRun) (i : nat) (get : res ZError unit) : ClientRun :=
  match ow_sending (cr_owners st) !! i with
  | Some (h, false) =>
      match send_goal_sent h get (cr_client st) with
      | (Ok h, c) => mkRun c (set_sending (cr_owners st) (<[i := (h, true)]> (ow_sending (cr_owners st)))) (cr_log st)
      | (_, c) => mkRun c (set_sending (cr_owners st) (delete i (ow_sending (cr_owners st)))) (cr_log st)
      end
  | _ => st
  end.
Definition exec_finish (st : ClientRun) (i : nat) : ClientRun :=
  match ow_sending (cr_owners st) !! i with
  | Some (h, true) =>
      let o := set_sending (cr_owners st) (delete i (ow_sending (cr_owners st))) in
      match send_goal_finish h (cr_client st) with
      | (Ok None, c) => set_client st c
      | (Ok (Some h), c) => mkRun c (set_handles o (ow_handles o ++ [h])) (cr_log st)
      | (_, c) => mkRun c o (cr_log st)
      end
  | _ => st
  end.
(** The future of [send_goal] is dropped before it is done. *)
Definition exec_abandon (st : ClientRun) (i : nat) : ClientRun :=
  match ow_sending (cr_owners st) !! i with
  | Some (h, _) => mkRun (drop_handle h (cr_client st))
      (set_sending (cr_owners st) (delete i (ow_sending (cr_owners st)))) (cr_log st)
  | None => st
  end.

Definition log_feedback (l : Log) (msg : FeedbackMsg Feedback) : Log :=
  mkLog (lg_feedback l ++ [(fm_goal_id msg, fm_feedback msg)]) (lg_status l) (lg_born_f l) (lg_born_w l)
    (lg_missed l) (lg_got l).
Definition log_status (c : client) (l : Log) (x : GoalStatusInfo) : Log :=
  let missed := match active_goals c !! goal_id (goal_info x) with
    | Some ch => match statuses c !! status_tx ch with
        | Some w => if decide (w_receivers w = ∅) then [status_tx ch] else []
        | None => []
        end
    | None => []
    end in
  mkLog (lg_feedback l) (lg_status l ++ [(goal_id (goal_info x), gs_status x)]) (lg_born_f l) (lg_born_w l)
    (lg_missed l ++ missed) (lg_got l).
Definition exec_feedback (st : ClientRun) (sample : TopicSample) : ClientRun :=
  match typed_callback (E := ZError) msg_deserialize sample with
  | Ok (Some msg) => mkRun (on_feedback (cr_client st) msg) (cr_owners st) (log_feedback (cr_log st) msg)
  | _ => st
  end.
Definition exec_status_info (st : ClientRun) (x : GoalStatusInfo) : ClientRun :=
  mkRun (on_status_info (cr_client st) x) (cr_owners st) (log_status (cr_client st) (cr_log st) x).
Definition exec_status (st : ClientRun) (sample : TopicSample) : ClientRun :=
  match typed_callback (E := ZError) msg_deserialize sample with
  | Ok (Some msg) => foldl exec_status_info st (sm_status_list msg)
  | _ => st
  end.
Definition exec_reply (st : ClientRun) (service : nat) (reply : option Sample) : ClientRun :=
  let p := ac_parts (cr_client st) in
  set_client st (set_parts (cr_client st)
    match service with
    | 0%nat => set_goal_client p (on_reply (ac_goal_client p) reply)
    | 1%nat => set_cancel_client p (on_reply (ac_cancel_client p) reply)
    | _ => set_result_client p (on_reply (ac_result_client p) reply)
    end).

Definition exec_stream (st : ClientRun) (id : GoalId) : ClientRun :=
  match feedback_stream id (cr_client st) with
  | (Some _, c) => mkRun c (cr_owners st)
      (set_born (cr_log st) (lg_born_f (cr_log st) ++ [(id, length (lg_feedback (cr_log st)))]) (lg_born_w (cr_log st)))
  | (None, c) => set_client st c
  end.
Definition exec_watch (st : ClientRun) (id : GoalId) : ClientRun :=
  match client_status_watch id (cr_client st) with
  | (Some rx, c) => mkRun c (set_watchers (cr_owners st) (ow_watchers (cr_owners st) ++ [rx])) (cr_log st)
  | (None, c) => set_client st c
  end.
Definition exec_take_feedback (st : ClientRun) (i : nat) : ClientRun :=
  match ow_handles (cr_owners st) !! i with
  | Some h => mkRun (cr_client st)
      (set_handles (cr_owners st) (<[i := (handle_feedback h).2]> (ow_handles (cr_owners st)))) (cr_log st)
  | None => st
  end.
Definition exec_take_status (st : ClientRun) (i : nat) : ClientRun :=
  match ow_handles (cr_owners st) !! i with
  | Some h =>
      let o := set_handles (cr_owners st) (<[i := (handle_status_watch h).2]> (ow_handles (cr_owners st))) in
      mkRun (cr_client st) (set_watchers o (ow_watchers o ++ option_list (handle_status_watch h).1)) (cr_log st)
  | None => st
  end.
Definition exec_drop_handle (st : ClientRun) (i : nat) : ClientRun :=
  match ow_handles (cr_owners st) !! i with
  | Some h => mkRun (drop_handle h (cr_client st))
      (set_handles (cr_owners st) (delete i (ow_handles (cr_owners st)))) (cr_log st)
  | None => st
  end.
Definition exec_recv (st : ClientRun) (k : nat) : ClientRun :=
  match feedbacks (cr_client st) !! k with
  | Some ch =>
      let '(o, ch) := mpsc_recv ch in
      let l := cr_log st in
      mkRun (on_feedbacks k (fun _ => ch) (cr_client st)) (cr_owners st)
        (mkLog (lg_feedback l) (lg_status l) (lg_born_f l) (lg_born_w l) (lg_missed l)
           (lg_got l ++ match o with Some x => [(k, x)] | None => [] end))
  | None => st
  end.
Definition exec_watcher (st : ClientRun) (i : nat) (f : nat -> Watch GoalStatus -> Watch GoalStatus) : ClientRun :=
  match ow_watchers (cr_owners st) !! i with
  | Some (k, r) => set_client st (on_statuses k (f r) (cr_client st))
  | None => st
  end.

Definition exec_drop_watcher (st : ClientRun) (i : nat) : ClientRun :=
  match ow_watchers (cr_owners st) !! i with
  | Some (k, r) => mkRun (on_statuses k (fun w => watch_drop_rx w r) (cr_client st))
      (set_watchers (cr_owners st) (delete i (ow_watchers (cr_owners st)))) (cr_log st)
  | None => st
  end.

(** [result] on a handle; the sections that only use a service. *)
Definition exec_result (st : ClientRun) (i : nat) : ClientRun :=
  match ow_handles (cr_owners st) !! i with
  | Some h =>
      let o := set_handles (cr_owners st) (delete i (ow_handles (cr_owners st))) in
      mkRun (cr_client st) (set_calls o (ow_calls o ++ [result_begin h])) (cr_log st)
  | None => st
  end.
Definition exec_result_step (st : ClientRun) (i : nat) (token : nat) (now : option Z) (get : res ZError unit)
    : ClientRun :=
  match ow_calls (cr_owners st) !! i with
  | Some call =>
      match result_step token now get call (cr_client st) with
      | (Going call _, c) => mkRun c (set_calls (cr_owners st) (<[i := call]> (ow_calls (cr_owners st)))) (cr_log st)
      | (Finished _, c) => mkRun c (set_calls (cr_owners st) (delete i (ow_calls (cr_owners st)))) (cr_log st)
      end
  | None => st
  end.
Definition call_status_rx (call : ResultCall) : option (nat * nat) :=
  match rc_at call with RCheck rx | RChanging rx => Some rx | _ => None end.
Definition exec_result_abandon (st : ClientRun) (i : nat) : ClientRun :=
  match ow_calls (cr_owners st) !! i with
  | Some call =>
      mkRun (drop_status_rx (call_status_rx call) (drop_feedback_rx (rc_feedback_rx call) (cr_client st)))
        (set_calls (cr_owners st) (delete i (ow_calls (cr_owners st)))) (cr_log st)
  | None => st
  end.

Definition exec_client (st : ClientRun) (op : ClientOp) : ClientRun :=
  match op with
  | CSend id goal token now => exec_send st id goal token now
  | CSent i get => exec_sent st i get
  | CFinish i => exec_finish st i
  | CAbandon i => exec_abandon st i
  | CFeedback sample => exec_feedback st sample
  | CStatus sample => exec_status st sample
  | CReply service reply => exec_reply st service reply
  | CStream id => exec_stream st id
  | CWatch id => exec_watch st id
  | CTakeFeedback i => exec_take_feedback st i
  | CTakeStatus i => exec_take_status st i
  | CDropHandle i => exec_drop_handle st i
  | CRecv k => exec_recv st k
  | CDropRx k => set_client st (on_feedbacks k mpsc_drop_rx (cr_client st))
  | CBorrow i => exec_watcher st i (fun r w => (watch_borrow_and_update w r).2)
  | CChanged i => exec_watcher st i (fun r w => (watch_changed w r).2)
  | CDropWatcher i => exec_drop_watcher st i
  | CCancel id stamp token now => set_client st (cancel_goal_begin id stamp token now (cr_client st)).2
  | CCancelAll token now => set_client st (cancel_all_goals_begin token now (cr_client st)).2
  | CCancelFinish => set_client st (cancel_finish (cr_client st)).2
  | CGetResult id token now => set_client st (get_result_begin id token now (cr_client st)).2
  | CGetResultFinish => set_client st (get_result_finish (cr_client st)).2
  | CResult i => exec_result st i
  | CResultStep i token now get => exec_result_step st i token now get
  | CResultAbandon i => exec_result_abandon st i
  end.
Definition run_client (st : ClientRun) (ops : list ClientOp) : ClientRun := foldl exec_client st ops.

(** *** Specification *)

(** What a log has under a key, and what it has for a goal since a channel was
    made. *)
Definition of_key {K A} `{EqDecision K} (k : K) (l : list (K * A)) : list A :=
  omap (fun p => if decide (p.1 = k) then Some p.2 else None) l.
Definition since {A} (log : list (GoalId * A)) (born : GoalId * nat) : list A :=
  of_key born.1 (drop born.2 log).

(** [GoalId::new] draws identifiers that were not drawn before. *)
Definition op_ids (ops : list ClientOp) : list GoalId :=
  omap (fun op => match op with CSend id _ _ _ => Some id | _ => None end) ops.

(** ** Lemmas *)

Lemma of_key_app {K A} `{EqDecision K} (k : K) (l1 l2 : list (K * A)) :
  of_key k (l1 ++ l2) = of_key k l1 ++ of_key k l2.
Proof. apply omap_app. Qed.
Lemma since_app {A} (log : list (GoalId * A)) g n x :
  (n <= length log)%nat -> since (log ++ [x]) (g, n) = since log (g, n) ++ of_key g [x].
Proof. intros Hn. unfold since. cbn [fst snd]. by rewrite drop_app_le, of_key_app by done. Qed.
Lemma since_now {A} (log : list (GoalId * A)) g : since log (g, length log) = [].
Proof. unfold since. cbn [fst snd]. by rewrite drop_all. Qed.

(** **** Feedback *)

(** Each channel has a prefix of what it should get, and all of it while it is
    the one on the board and its receiver lives. *)
Definition feedback_chan (b : gmap GoalId GoalChannels) (log : list (GoalId * Feedback)) (got : list (nat * Feedback))
    (k : nat) (born : GoalId * nat) (c : Unbounded Feedback) : Prop :=
  (born.2 <= length log)%nat /\ of_key k got ++ ub_items c `prefix_of` since log born /\
  (forall ch, b !! born.1 = Some ch -> feedback_tx ch = k -> ub_has_rx c = true ->
     of_key k got ++ ub_items c = since log born).
Record feedback_inv (b : gmap GoalId GoalChannels) (fs : list (Unbounded Feedback)) (born : list (GoalId * nat))
    (log : list (GoalId * Feedback)) (got : list (nat * Feedback)) : Prop := {
  fi_len : length born = length fs;
  fi_board : forall g ch, b !! g = Some ch -> exists n, born !! feedback_tx ch = Some (g, n);
  fi_chan : forall k x c, born !! k = Some x -> fs !! k = Some c -> feedback_chan b log got k x c;
  fi_got : Forall (fun p => (p.1 < length fs)%nat) got;
}.

Lemma of_key_ge (got : list (nat * Feedback)) k :
  Forall (fun p => (p.1 < k)%nat) got -> of_key k got = [].
Proof.
  induction 1 as [|p got Hp _ IH]; [done|]. unfold of_key in *. cbn. rewrite decide_False by lia. exact IH.
Qed.

(** A new channel for a goal, on the board. *)
Lemma feedback_inv_new b fs born log got g t :
  feedback_inv b fs born log got ->
  feedback_inv (<[g := mkGoalChannels (length fs) t]> b) (fs ++ [unbounded_channel])
    (born ++ [(g, length log)]) log got.
Proof.
  intros [Hl Hb Hc Hg]. destruct (ub_new Feedback) as [Hn1 Hn2]. split.
  - rewrite !length_app. cbn. lia.
  - intros g' ch [[<- <-]|[Hne Hx]]%lookup_insert_Some.
    + cbn. rewrite <- Hl. exists (length log). by rewrite list_lookup_middle.
    + destruct (Hb _ _ Hx) as [n Hn]. exists n. by apply lookup_app_l_Some.
  - intros k x c Hx Hk. apply lookup_snoc_Some in Hk as [[Hlt Hk]|[-> <-]].
    + rewrite lookup_app_l in Hx by lia. destruct (Hc _ _ _ Hx Hk) as (H1 & H2 & H3). split; [done|]. split; [done|].
      intros ch [[_ <-]|[Hne Hy]]%lookup_insert_Some; [cbn; lia|by apply H3].
    + rewrite <- Hl, list_lookup_middle in Hx by done. injection Hx as <-. unfold feedback_chan. cbn [fst snd].
      rewrite since_now, Hn1, of_key_ge by (by rewrite <- Hl in *). by repeat split.
  - eapply Forall_impl; [exact Hg|]. cbn. intros p Hp. rewrite length_app. lia.
Qed.
(** Reading a channel or dropping an end. *)
Lemma feedback_inv_alter b fs born log got got' k f :
  (forall c, fs !! k = Some c ->
     of_key k got' ++ ub_items (f c) `prefix_of` of_key k got ++ ub_items c /\
     (ub_has_rx (f c) = true -> ub_has_rx c = true /\ of_key k got' ++ ub_items (f c) = of_key k got ++ ub_items c)) ->
  (forall j, j <> k -> of_key j got' = of_key j got) -> Forall (fun p => (p.1 < length fs)%nat) got' ->
  feedback_inv b fs born log got -> feedback_inv b (alter f k fs) born log got'.
Proof.
  intros Hk Ho Hg' [Hl Hb Hc Hg]. split; [by rewrite length_alter|done| |by rewrite length_alter].
  intros j x c Hx Hj. destruct (decide (j = k)) as [->|Hne].
  - rewrite list_lookup_alter_eq in Hj. destruct (fs !! k) as [c0|] eqn:E; [|done]. cbn in Hj. injection Hj as <-.
    destruct (Hc _ _ _ Hx E) as (H1 & H2 & H3), (Hk _ eq_refl) as [Hp He]. split; [done|]. split; [by etrans|].
    intros ch Hch Hf Hr. destruct (He Hr) as [Hr' ->]. by eapply H3.
  - rewrite list_lookup_alter_ne in Hj by done. unfold feedback_chan. rewrite (Ho _ Hne). by apply (Hc _ _ _ Hx Hj).
Qed.
Lemma feedback_inv_drop_tx b fs born log got k :
  feedback_inv b fs born log got -> feedback_inv b (alter mpsc_drop_tx k fs) born log got.
Proof.
  intros Hi. eapply (feedback_inv_alter b fs born log got); [|done|by destruct Hi|exact Hi].
  intros c _. destruct (ub_drop_tx _ c) as [-> ->]. by auto.
Qed.
Lemma feedback_inv_drop_rx b fs born log got k :
  feedback_inv b fs born log got -> feedback_inv b (alter mpsc_drop_rx k fs) born log got.
Proof.
  intros Hi. eapply (feedback_inv_alter b fs born log got); [|done|by destruct Hi|exact Hi].
  intros c _. destruct (ub_drop_rx _ c) as [-> ->]. split; [|done]. rewrite app_nil_r. by apply prefix_app_r.
Qed.
Lemma feedback_inv_recv b fs born log got k ch :
  fs !! k = Some ch -> feedback_inv b fs born log got ->
  feedback_inv b (alter (fun _ => (mpsc_recv ch).2) k fs) born log
    (got ++ match (mpsc_recv ch).1 with Some x => [(k, x)] | None => [] end).
Proof.
  intros Hk Hi. eapply (feedback_inv_alter b fs born log got); [| | |exact Hi].
  - intros c Hc. rewrite Hk in Hc. injection Hc as <-. pose proof (ub_recv _ ch) as Hr. rewrite of_key_app.
    destruct (mpsc_recv ch) as [[x|] c']; cbn [fst snd] in *.
    + destruct Hr as [-> ->]. cbn. rewrite decide_True by done. rewrite <- app_assoc. by auto.
    + destruct Hr as (-> & -> & ->). cbn. by rewrite !app_nil_r.
  - intros j Hne. rewrite of_key_app. destruct (mpsc_recv ch).1; cbn; [rewrite decide_False by done|]; by rewrite app_nil_r.
  - destruct Hi as [_ _ _ Hg]. apply Forall_app. split; [done|].
    destruct (mpsc_recv ch).1; constructor; [|done]. by eapply lookup_lt_Some.
Qed.
Lemma feedback_inv_delete b fs born log got g :
  feedback_inv b fs born log got -> feedback_inv (delete g b) fs born log got.
Proof.
  intros [Hl Hb Hc Hg]. split; [done| | |done].
  - intros g' ch [_ Hx]%lookup_delete_Some. by apply Hb.
  - intros k x c Hx Hk. destruct (Hc _ _ _ Hx Hk) as (H1 & H2 & H3). split; [done|]. split; [done|].
    intros ch [_ Hy]%lookup_delete_Some. by apply H3.
Qed.

(** A message arrives. *)
Lemma feedback_inv_log b fs born log got g x :
  feedback_inv b fs born log got ->
  feedback_inv b (match b !! g with Some ch => alter (fun c => mpsc_send c x) (feedback_tx ch) fs | None => fs end)
    born (log ++ [(g, x)]) got.
Proof.
  intros [Hl Hb Hc Hg]. split; [|done| |].
  - by case_match; rewrite ?length_alter.
  - intros k [g' n] c Hx Hk. assert (exists c0, fs !! k = Some c0 /\
      c = match b !! g with Some ch => if decide (feedback_tx ch = k) then mpsc_send c0 x else c0 | None => c0 end) as (c0 & Hk0 & ->).
    { destruct (b !! g) as [ch|]; [|by exists c]. destruct (decide (feedback_tx ch = k)) as [<-|Hne].
      - rewrite list_lookup_alter_eq in Hk. destruct (fs !! _) as [c0|]; [|done]. cbn in Hk. injection Hk as <-. by exists c0.
      - rewrite list_lookup_alter_ne in Hk by done. by exists c. }
    destruct (Hc _ _ _ Hx Hk0) as (H1 & H2 & H3). cbn [fst snd] in *. unfold feedback_chan. cbn [fst snd].
    rewrite since_app by done. split; [rewrite length_app; cbn; lia|]. clear Hk.
    destruct (b !! g) as [ch|] eqn:Eb; [destruct (decide (feedback_tx ch = k)) as [<-|Hne]|].
    + destruct (Hb _ _ Eb) as [m Hm]. rewrite Hx in Hm. injection Hm as <- <-.
      destruct (ub_send _ c0 x) as [-> ->]. cbn. rewrite decide_True by done. destruct (ub_has_rx c0) eqn:Er.
      * rewrite app_assoc, (H3 ch) by done. by auto.
      * split; [by apply prefix_app_r|done].
    + split; [by apply prefix_app_r|]. intros ch' Hch' Hf Hr. rewrite (H3 _ Hch' Hf Hr). cbn.
      rewrite decide_False; [by rewrite app_nil_r|]. intros ->. congruence.
    + split; [by apply prefix_app_r|]. intros ch' Hch' Hf Hr. rewrite (H3 _ Hch' Hf Hr). cbn.
      rewrite decide_False; [by rewrite app_nil_r|]. intros ->. congruence.
  - by case_match; rewrite ?length_alter.
Qed.
(** **** Status *)

(** The watch of a goal on the board is open and has the goal's last status,
    unless it missed one. *)
Definition status_chan (ws : list (Watch GoalStatus)) (born : list (GoalId * nat)) (log : list (GoalId * GoalStatus))
    (missed : list nat) (g : GoalId) (ch : GoalChannels) : Prop :=
  exists n w, born !! status_tx ch = Some (g, n) /\ ws !! status_tx ch = Some w /\ w_open w = true /\
    (n <= length log)%nat /\
    (status_tx ch ∉ missed -> w_value w = default Unknown (last (since log (g, n)))).
Record status_inv (b : gmap GoalId GoalChannels) (ws : list (Watch GoalStatus)) (born : list (GoalId * nat))
    (log : list (GoalId * GoalStatus)) (missed : list nat) : Prop := {
  si_len : length born = length ws;
  si_board : forall g ch, b !! g = Some ch -> status_chan ws born log missed g ch;
  si_missed : Forall (fun k => (k < length ws)%nat) missed;
}.

Lemma status_inv_new b ws born log missed g f :
  status_inv b ws born log missed ->
  status_inv (<[g := mkGoalChannels f (length ws)]> b) (ws ++ [watch_channel Unknown])
    (born ++ [(g, length log)]) log missed.
Proof.
  intros [Hl Hb Hm]. destruct (w_new _ Unknown) as (Hv & _ & Ho). split.
  - rewrite !length_app. cbn. lia.
  - intros g' ch [[<- <-]|[Hne Hx]]%lookup_insert_Some.
    + exists (length log), (watch_channel Unknown). cbn [status_tx]. rewrite <- Hl at 1. rewrite !list_lookup_middle by done.
      rewrite since_now. by auto.
    + destruct (Hb _ _ Hx) as (n & w & H1 & H2 & H). exists n, w.
      by rewrite (lookup_app_l_Some _ _ _ _ H1), (lookup_app_l_Some _ _ _ _ H2).
  - eapply Forall_impl; [exact Hm|]. cbn. intros k Hk. rewrite length_app. lia.
Qed.

(** An operation on a watch that keeps its value and its sender. *)
Lemma status_inv_alter b ws born log missed k f :
  (forall w, w_value (f w) = w_value w /\ w_open (f w) = w_open w) ->
  status_inv b ws born log missed -> status_inv b (alter f k ws) born log missed.
Proof.
  intros Hf [Hl Hb Hm]. split; [by rewrite length_alter| |by rewrite length_alter].
  intros g ch Hx. destruct (Hb _ _ Hx) as (n & w & H1 & H2 & H3 & H4 & H5).
  destruct (decide (k = status_tx ch)) as [->|Hne].
  - exists n, (f w). rewrite list_lookup_alter_eq, H2. destruct (Hf w) as [-> ->]. done.
  - exists n, w. by rewrite list_lookup_alter_ne.
Qed.

Lemma status_inv_set b ws born log missed k w w' :
  ws !! k = Some w -> w_value w' = w_value w -> w_open w' = w_open w ->
  status_inv b ws born log missed -> status_inv b (<[k := w']> ws) born log missed.
Proof.
  intros Hk Hv Ho [Hl Hb Hm]. split; [by rewrite length_insert| |by rewrite length_insert].
  intros g ch Hx. destruct (Hb _ _ Hx) as (n & w0 & H1 & H2 & H3 & H4 & H5).
  destruct (decide (k = status_tx ch)) as [->|Hne].
  - rewrite Hk in H2. injection H2 as <-. exists n, w'. rewrite list_lookup_insert_eq by (by eapply lookup_lt_Some).
    by rewrite Hv, Ho.
  - exists n, w0. by rewrite list_lookup_insert_ne.
Qed.

(** An entry leaves the board; it keeps its watch when only the feedback channel
    changes. *)
Lemma status_inv_delete b ws born log missed g ch :
  b !! g = Some ch -> status_inv b ws born log missed ->
  status_inv (delete g b) (alter watch_drop_tx (status_tx ch) ws) born log missed.
Proof.
  intros Hg [Hl Hb Hm]. split; [by rewrite length_alter| |by rewrite length_alter].
  intros g' ch' [Hne Hx]%lookup_delete_Some. destruct (Hb _ _ Hx) as (n & w & H1 & H2 & H).
  exists n, w. rewrite list_lookup_alter_ne; [done|]. intros E.
  destruct (Hb _ _ Hg) as (m & ? & Hm' & _). rewrite E in Hm'. congruence.
Qed.
Lemma status_inv_rekey b ws born log missed g ch f :
  b !! g = Some ch -> status_inv b ws born log missed ->
  status_inv (<[g := mkGoalChannels f (status_tx ch)]> b) ws born log missed.
Proof.
  intros Hg [Hl Hb Hm]. split; [done| |done].
  intros g' ch' [[<- <-]|[_ Hx]]%lookup_insert_Some; [exact (Hb _ _ Hg)|by apply Hb].
Qed.

(** A status arrives. *)
Definition missed_by (b : gmap GoalId GoalChannels) (ws : list (Watch GoalStatus)) (g : GoalId) : list nat :=
  match b !! g with
  | Some ch => match ws !! status_tx ch with
      | Some w => if decide (w_receivers w = ∅) then [status_tx ch] else []
      | None => []
      end
  | None => []
  end.
Lemma status_inv_log b ws born log missed g s :
  status_inv b ws born log missed ->
  status_inv b (match b !! g with Some ch => alter (fun w => watch_send w s) (status_tx ch) ws | None => ws end)
    born (log ++ [(g, s)]) (missed ++ missed_by b ws g).
Proof.
  intros [Hl Hb Hm]. split.
  - by case_match; rewrite ?length_alter.
  - intros g' ch' Hx. destruct (Hb _ _ Hx) as (n & w & H1 & H2 & H3 & H4 & H5).
    unfold missed_by. destruct (b !! g) as [ch|] eqn:Eb; [destruct (decide (status_tx ch = status_tx ch')) as [E|Hne]|].
    + destruct (Hb _ _ Eb) as (m & ? & Hm' & _). rewrite E, H1 in Hm'. injection Hm' as -> ->.
      exists m, (watch_send w s). rewrite E, list_lookup_alter_eq, H2. destruct (w_send _ w s) as (-> & _ & ->).
      split; [done|]. split; [done|]. split; [done|]. split; [rewrite length_app; cbn; lia|]. intros Hin.
      destruct (decide (w_receivers w = ∅)) as [He|He]; [set_solver|]. rewrite since_app by done. cbn.
      by rewrite decide_True, last_snoc by done.
    + exists n, w. rewrite list_lookup_alter_ne by done. split; [done|]. split; [done|]. split; [done|].
      split; [rewrite length_app; cbn; lia|]. intros Hin. rewrite since_app by done. cbn.
      rewrite decide_False; [rewrite app_nil_r; apply H5; set_solver|]. intros ->. congruence.
    + exists n, w. split; [done|]. split; [done|]. split; [done|]. split; [rewrite length_app; cbn; lia|].
      intros Hin. rewrite since_app by done. cbn.
      rewrite decide_False; [rewrite app_nil_r; apply H5; set_solver|]. intros ->. congruence.
  - apply Forall_app. split; [case_match; by rewrite ?length_alter|]. unfold missed_by.
    destruct (b !! g) as [ch|] eqn:Eb; [|done]. destruct (ws !! status_tx ch) as [w|] eqn:Ew; [|done].
    rewrite length_alter. apply lookup_lt_Some in Ew. case_decide; by repeat constructor.
Qed.

(** **** Owners *)

(** What each goal's sending, handle or [result] call holds of its watch. *)
Definition owned_by (o : Owners) : list (GoalId * option (nat * nat)) :=
  map (fun p => (gh_id p.1, gh_status_rx p.1)) (ow_sending o) ++
  map (fun h => (gh_id h, gh_status_rx h)) (ow_handles o) ++
  map (fun c => (rc_id c, call_status_rx c)) (ow_calls o).
Definition holds (b : gmap GoalId GoalChannels) (ws : list (Watch GoalStatus)) (missed : list nat)
    (watchers : list (nat * nat)) (p : GoalId * option (nat * nat)) : Prop :=
  match p.2 with
  | Some (k, r) => (exists ch, b !! p.1 = Some ch /\ status_tx ch = k) /\
      (exists w, ws !! k = Some w /\ r ∈ w_receivers w) /\ k ∉ missed /\ (k, r) ∉ watchers
  | None => True
  end.
Record owner_inv (b : gmap GoalId GoalChannels) (ws : list (Watch GoalStatus)) (born : list (GoalId * nat))
    (missed : list nat) (watchers : list (nat * nat)) (own : list (GoalId * option (nat * nat))) : Prop := {
  oi_nodup : NoDup (map fst own);
  oi_born : Forall (fun p => p.1 ∈ map fst born) own;
  oi_holds : Forall (holds b ws missed watchers) own;
}.
Section Owner.
Context (b : gmap GoalId GoalChannels) (ws : list (Watch GoalStatus)) (born : list (GoalId * nat)).
Context (missed : list nat) (watchers : list (nat * nat)).
#[local] Abbreviation inv := (owner_inv b ws born missed watchers).

Lemma owner_perm own own' : own ≡ₚ own' -> inv own -> inv own'.
Proof. intros Hp [H1 H2 H3]. split; by rewrite <- Hp. Qed.
Lemma owner_tail p own : inv (p :: own) -> inv own.
Proof. intros [[_ ?]%NoDup_cons [_ ?]%Forall_cons [_ ?]%Forall_cons]. by split. Qed.
Lemma owner_forget g o own : inv ((g, o) :: own) -> inv ((g, None) :: own).
Proof. intros [? [??]%Forall_cons [_ ?]%Forall_cons]. split; [done|by constructor..]. Qed.

(** The same owners hold what they held. *)
Lemma owner_mono b' ws' born' missed' watchers' own :
  (forall x, x ∈ map fst born -> x ∈ map fst born') ->
  (forall p, p ∈ own -> holds b ws missed watchers p -> holds b' ws' missed' watchers' p) ->
  inv own -> owner_inv b' ws' born' missed' watchers' own.
Proof.
  intros Hb Hh [H1 H2 H3]. split; [done| |].
  - eapply Forall_impl; [exact H2|]. intros p. apply Hb.
  - rewrite Forall_forall in *. intros p Hp. by apply Hh, H3.
Qed.

(** Watches that keep their receivers. *)
Lemma owner_alter f k own :
  (forall w, w_receivers (f w) = w_receivers w) -> inv own -> owner_inv b (alter f k ws) born missed watchers own.
Proof.
  intros Hf. apply owner_mono; [done|]. intros [g [[j r]|]] _; [|done]. unfold holds. cbn.
  intros (H1 & (w & Hw & Hr) & H3). split; [done|]. split; [|done].
  destruct (decide (k = j)) as [->|Hne].
  - exists (f w). by rewrite list_lookup_alter_eq, Hw, Hf.
  - exists w. by rewrite list_lookup_alter_ne.
Qed.

(** No two owners hold receivers of one watch. *)
Context (Hst : forall g ch, b !! g = Some ch -> exists n, born !! status_tx ch = Some (g, n)).
Lemma owner_apart g k r own g' k' r' :
  inv ((g, Some (k, r)) :: own) -> (g', Some (k', r')) ∈ own -> k' <> k.
Proof.
  intros [[Hn _]%NoDup_cons _ [Hg Hf]%Forall_cons] Hin ->. rewrite Forall_forall in Hf. specialize (Hf _ Hin).
  destruct Hg as ((ch & Hc & <-) & _), Hf as ((ch' & Hc' & He) & _).
  destruct (Hst _ _ Hc) as [n Hx], (Hst _ _ Hc') as [n' Hx']. cbn in *. rewrite He, Hx in Hx'. injection Hx' as -> _.
  apply Hn. apply list_elem_of_fmap. eexists. split; [|exact Hin]. done.
Qed.
(** An owner drops its receiver, or gives it to a watcher. *)
Lemma owner_drop g k r own :
  inv ((g, Some (k, r)) :: own) ->
  owner_inv b (alter (fun w => watch_drop_rx w r) k ws) born missed watchers ((g, None) :: own).
Proof.
  intros Hi. pose proof Hi as [H1 [H2 H2']%Forall_cons [_ H3]%Forall_cons]. split; [done|by constructor|]. constructor; [done|].
  rewrite Forall_forall in *. intros [g' [[k' r']|]] Hp; [|done].
  pose proof (owner_apart _ _ _ _ _ _ _ Hi Hp) as Hne. specialize (H3 _ Hp). unfold holds in *. cbn in *.
  by rewrite list_lookup_alter_ne by done.
Qed.
Lemma owner_give g rx own :
  inv ((g, Some rx) :: own) -> owner_inv b ws born missed (watchers ++ [rx]) ((g, None) :: own).
Proof.
  destruct rx as [k r]. intros Hi. pose proof Hi as [H1 [H2 H2']%Forall_cons [_ H3]%Forall_cons]. split; [done|by constructor|].
  constructor; [done|]. rewrite Forall_forall in *. intros [g' [[k' r']|]] Hp; [|done].
  pose proof (owner_apart _ _ _ _ _ _ _ Hi Hp) as Hne. specialize (H3 _ Hp). unfold holds in *. cbn in *.
  destruct H3 as (? & ? & ? & Hw). split; [done|]. split; [done|]. split; [done|].
  rewrite elem_of_app, list_elem_of_singleton. intros [?|[= -> ->]]; done.
Qed.
(** The owner of a goal that leaves the board. *)
Lemma owner_remove g f k own :
  (forall w, w_receivers (f w) = w_receivers w) ->
  inv ((g, None) :: own) -> owner_inv (delete g b) (alter f k ws) born missed watchers own.
Proof.
  intros Hf Hi. pose proof (owner_alter f k _ Hf Hi) as [[Hn H1]%NoDup_cons [_ H2]%Forall_cons [_ H3]%Forall_cons].
  split; [done|done|]. rewrite Forall_forall in *. intros [g' [[k' r']|]] Hp; [|done]. specialize (H3 _ Hp).
  unfold holds in *. cbn in *. destruct H3 as ((ch & Hc & Hk) & H). split; [|done]. exists ch.
  rewrite lookup_delete_ne; [done|]. intros <-. apply Hn. apply list_elem_of_fmap. eexists. split; [|exact Hp]. done.
Qed.
Lemma owner_rekey g ch f own :
  b !! g = Some ch -> inv own ->
  owner_inv (<[g := mkGoalChannels f (status_tx ch)]> b) ws born missed watchers own.
Proof.
  intros Hg. apply owner_mono; [done|]. intros [g' [[k r]|]] _; [|done]. unfold holds. cbn.
  intros ((ch' & Hc & Hk) & H). split; [|done]. destruct (decide (g' = g)) as [->|Hne].
  - eexists. rewrite lookup_insert_eq. split; [done|]. cbn. congruence.
  - exists ch'. by rewrite lookup_insert_ne.
Qed.
(** A status arrives: a watch that is held has a receiver. *)
Lemma owner_status g s own :
  inv own ->
  owner_inv b (match b !! g with Some ch => alter (fun w => watch_send w s) (status_tx ch) ws | None => ws end)
    born (missed ++ missed_by b ws g) watchers own.
Proof.
  intros Hi. assert (forall p, p ∈ own -> holds b ws missed watchers p -> holds b ws (missed ++ missed_by b ws g) watchers p) as Hm.
  { intros [g' [[k r]|]] _; [|done]. unfold holds. cbn. intros (H1 & (w & Hw & Hr) & H3 & H4).
    split; [done|]. split; [by exists w|]. split; [|done]. rewrite elem_of_app. intros [?|Hin]; [done|].
    unfold missed_by in Hin. destruct (b !! g) as [ch|]; [|set_solver]. destruct (ws !! status_tx ch) as [w'|] eqn:Ew; [|set_solver].
    case_decide as He; [|set_solver]. apply list_elem_of_singleton in Hin as ->. rewrite Hw in Ew. injection Ew as ->. set_solver. }
  apply (owner_mono b ws born (missed ++ missed_by b ws g) watchers) in Hi; [|done|exact Hm].
  destruct (b !! g) as [ch|]; [|exact Hi]. destruct Hi as [H1 H2 H3]. split; [done|done|].
  eapply Forall_impl; [exact H3|]. intros [g' [[j r]|]]; [|done]. unfold holds. cbn.
  intros (? & (w & Hw & Hr) & H). split; [done|]. split; [|done]. destruct (decide (status_tx ch = j)) as [->|Hne].
  - exists (watch_send w s). rewrite list_lookup_alter_eq, Hw. by destruct (w_send _ w s) as (_ & -> & _).
  - exists w. by rewrite list_lookup_alter_ne.
Qed.
End Owner.
(** A goal gets its channels; a watcher joins and leaves. *)
Lemma owner_new b ws born missed watchers own g f n :
  g ∉ map fst born -> Forall (fun k => (k < length ws)%nat) missed -> Forall (fun p => (p.1 < length ws)%nat) watchers ->
  owner_inv b ws born missed watchers own ->
  owner_inv (<[g := mkGoalChannels f (length ws)]> b) (ws ++ [watch_channel Unknown]) (born ++ [(g, n)]) missed
    watchers ((g, Some (length ws, 0%nat)) :: own).
Proof.
  intros Hg Hm Hw [H1 H2 H3]. rewrite Forall_forall in Hm. rewrite Forall_forall in Hw.
  rewrite Forall_forall in H2. rewrite Forall_forall in H3.
  assert (forall p, p ∈ own -> p.1 <> g) as Hne by (intros p Hp <-; by apply Hg, H2).
  split.
  - constructor; [|done]. intros (p & He & Hp)%list_elem_of_fmap. by apply (Hne p Hp).
  - constructor; [rewrite map_app; cbn; set_solver|]. apply Forall_forall. intros p Hp. rewrite map_app, elem_of_app. left. by apply H2.
  - constructor.
    + destruct (w_new _ Unknown) as (_ & Hr & _). repeat split.
      * eexists. by rewrite lookup_insert_eq.
      * exists (watch_channel Unknown). rewrite list_lookup_middle by done. rewrite Hr. split; [done|set_solver].
      * intros Hin. specialize (Hm _ Hin). lia.
      * intros Hin. specialize (Hw _ Hin). cbn in Hw. lia.
    + apply Forall_forall. intros [g' [[k r]|]] Hp; [|done]. specialize (H3 _ Hp). specialize (Hne _ Hp).
      unfold holds in *. cbn in *. destruct H3 as ((ch & Hc & Hk) & (w & Hx & Hr) & H).
      split; [|split; [|done]].
      * exists ch. by rewrite lookup_insert_ne by auto.
      * exists w. by rewrite (lookup_app_l_Some _ _ _ _ Hx).
Qed.
Lemma owner_subscribe b ws born missed watchers own k w :
  ws !! k = Some w -> owner_inv b ws born missed watchers own ->
  owner_inv b (alter (fun _ => (watch_subscribe w).2) k ws) born missed (watchers ++ [(k, (watch_subscribe w).1)]) own.
Proof.
  intros Hk. pose proof (w_subscribe _ w) as Hs. destruct (watch_subscribe w) as [r w']. destruct Hs as (Hr & _ & Hrs & _).
  apply owner_mono; [done|]. intros [g' [[j r']|]] _; [|done]. unfold holds. cbn. intros (H1 & (x & Hx & Hxr) & H3 & H4).
  split; [done|]. destruct (decide (k = j)) as [->|Hne].
  - rewrite Hk in Hx. injection Hx as <-. split; [exists w'; rewrite list_lookup_alter_eq, Hk; cbn; split; [done|set_solver]|].
    split; [done|]. rewrite elem_of_app, list_elem_of_singleton. intros [?|[= <-]]; done.
  - split; [exists x; by rewrite list_lookup_alter_ne|]. split; [done|].
    rewrite elem_of_app, list_elem_of_singleton. intros [?|[= -> ->]]; done.
Qed.
Lemma owner_drop_watcher b ws born missed watchers own i k r :
  watchers !! i = Some (k, r) -> owner_inv b ws born missed watchers own ->
  owner_inv b (alter (fun w => watch_drop_rx w r) k ws) born missed (delete i watchers) own.
Proof.
  intros Hi. apply owner_mono; [done|]. intros [g' [[j r']|]] _; [|done]. unfold holds. cbn.
  intros (H1 & (x & Hx & Hxr) & H3 & H4). split; [done|]. apply list_elem_of_lookup_2 in Hi as Hin.
  split; [|split; [done|]].
  - destruct (decide (k = j)) as [->|Hne]; [|exists x; by rewrite list_lookup_alter_ne].
    exists (watch_drop_rx x r). rewrite list_lookup_alter_eq, Hx. split; [done|].
    destruct (w_drop_rx _ x r) as (_ & -> & _). assert (r' <> r) by (intros ->; done). set_solver.
  - intros Hd. apply H4. eapply elem_of_submseteq; [exact Hd|]. by apply submseteq_delete.
Qed.

(** **** The whole state *)

(** The invariant of a client, for what its callers hold and the watchers. *)
Record client_inv (c : client) (own : list (GoalId * option (nat * nat))) (watchers : list (nat * nat)) (l : Log)
    : Prop := {
  ci_feedback : feedback_inv (active_goals c) (feedbacks c) (lg_born_f l) (lg_feedback l) (lg_got l);
  ci_status : status_inv (active_goals c) (statuses c) (lg_born_w l) (lg_status l) (lg_missed l);
  ci_owner : owner_inv (active_goals c) (statuses c) (lg_born_w l) (lg_missed l) watchers own;
  ci_watchers : Forall (fun p => (p.1 < length (statuses c))%nat) watchers;
}.
Definition run_inv (st : ClientRun) : Prop :=
  client_inv (cr_client st) (owned_by (cr_owners st)) (ow_watchers (cr_owners st)) (cr_log st).

(** What a call does to the services is no matter. *)
Lemma inv_parts c p own wt l : client_inv c own wt l -> client_inv (set_parts c p) own wt l.
Proof. by intros []. Qed.
Lemma inv_send_on S get set token now request c own wt l :
  client_inv c own wt l -> client_inv (send_on S get set token now request c).2 own wt l.
Proof. intros Hi. unfold send_on. destruct (send_request _ _ _ _) as [r cl]. by apply inv_parts. Qed.
Lemma inv_recv_on S get set c own wt l : client_inv c own wt l -> client_inv (recv_on S get set c).2 own wt l.
Proof. intros Hi. unfold recv_on. destruct (take_response_async _) as [[|r] cl]; [done|by apply inv_parts]. Qed.

Lemma inv_board_born c own wt l g ch :
  client_inv c own wt l -> active_goals c !! g = Some ch -> exists n, lg_born_w l !! status_tx ch = Some (g, n).
Proof. intros [_ [_ Hb _] _ _] Hx. destruct (Hb _ _ Hx) as (n & w & H & _). by exists n. Qed.

(** Owners are listed in any order. *)
Lemma inv_perm c own own' wt l : own ≡ₚ own' -> client_inv c own wt l -> client_inv c own' wt l.
Proof. intros Hp [H1 H2 H3 H4]. split; [done|done| |done]. by eapply owner_perm. Qed.
Lemma inv_tail c p own wt l : client_inv c (p :: own) wt l -> client_inv c own wt l.
Proof. intros [H1 H2 H3 H4]. split; [done|done| |done]. by eapply owner_tail. Qed.
Lemma inv_forget c g o own wt l : client_inv c ((g, o) :: own) wt l -> client_inv c ((g, None) :: own) wt l.
Proof. intros [H1 H2 H3 H4]. split; [done|done| |done]. by eapply owner_forget. Qed.

(** Receivers are dropped: of a feedback channel, of a watch that no other owner
    holds, of a handle. *)
Lemma inv_drop_feedback rx c own wt l : client_inv c own wt l -> client_inv (drop_feedback_rx rx c) own wt l.
Proof. intros [H1 H2 H3 H4]. destruct rx as [k|]; [|by split]. split; cbn; [by apply feedback_inv_drop_rx|done..]. Qed.
Definition free_of (own : list (GoalId * option (nat * nat))) (rx : option (nat * nat)) : Prop :=
  forall g k r k' r', rx = Some (k, r) -> (g, Some (k', r')) ∈ own -> k' <> k.
Lemma inv_free c g rx own wt l : client_inv c ((g, rx) :: own) wt l -> free_of own rx.
Proof.
  intros Hi g' k r k' r' -> Hin. eapply owner_apart; [|exact (ci_owner _ _ _ _ Hi)|exact Hin].
  intros ??. by apply (inv_board_born _ _ _ _ _ _ Hi).
Qed.
Lemma inv_drop_status rx c own wt l :
  free_of own rx -> client_inv c own wt l -> client_inv (drop_status_rx rx c) own wt l.
Proof.
  intros Hf [H1 H2 H3 H4]. destruct rx as [[k r]|]; [|by split]. split; cbn; [done| | |by rewrite length_alter].
  - apply status_inv_alter; [|done]. intros w. by destruct (w_drop_rx _ w r) as (-> & _ & ->).
  - revert H3. apply owner_mono; [done|]. intros [g [[k' r']|]] Hp; [|done]. unfold holds. cbn.
    by rewrite list_lookup_alter_ne by (intros <-; by eapply Hf).
Qed.
Lemma inv_drop_handle h c own wt l :
  client_inv c ((gh_id h, gh_status_rx h) :: own) wt l -> client_inv (drop_handle h c) own wt l.
Proof.
  intros Hi. unfold drop_handle. apply inv_drop_status; [by eapply inv_free|]. apply inv_drop_feedback. by eapply inv_tail.
Qed.

(** A goal leaves the board. *)
Lemma inv_remove g c own wt l : client_inv c ((g, None) :: own) wt l -> client_inv (board_remove g c) own wt l.
Proof.
  intros Hi. pose proof Hi as [H1 H2 H3 H4]. unfold board_remove, drop_entry.
  destruct (active_goals c !! g) as [ch|] eqn:E.
  - split; cbn; [|by apply status_inv_delete| |by rewrite length_alter].
    + apply feedback_inv_delete. by apply feedback_inv_drop_tx.
    + apply owner_remove; [|done]. intros w. by destruct (w_drop_tx _ w) as (_ & -> & _).
  - rewrite delete_id by done. apply inv_tail in Hi as []. by split.
Qed.
Lemma inv_remove_drop h c own wt l :
  client_inv c ((gh_id h, gh_status_rx h) :: own) wt l ->
  client_inv (drop_handle h (board_remove (gh_id h) c)) own wt l.
Proof.
  intros Hi. unfold drop_handle. apply inv_drop_status; [by eapply inv_free|]. apply inv_drop_feedback.
  apply inv_remove. by eapply inv_forget.
Qed.

(** A goal gets its channels. *)
Lemma inv_new_goal id c own wt l :
  id ∉ map fst (lg_born_w l) -> client_inv c own wt l ->
  client_inv (new_channels id c) ((id, Some (length (statuses c), 0%nat)) :: own) wt (log_new_channels id l).
Proof.
  intros Hid Hi. pose proof Hi as [H1 H2 H3 H4]. unfold new_channels, board_insert, drop_entry. cbn [active_goals].
  destruct (active_goals c !! id) as [ch|] eqn:E.
  { destruct (inv_board_born _ _ _ _ _ _ Hi E) as [n Hn]. destruct Hid. apply list_elem_of_fmap.
    exists (id, n). split; [done|]. by eapply list_elem_of_lookup_2. }
  split; cbn.
  - by apply feedback_inv_new.
  - by apply status_inv_new.
  - apply owner_new; [done|by destruct H2|done|done].
  - rewrite length_app. eapply Forall_impl; [exact H4|]. cbn. lia.
Qed.
(** What is owned when an owner comes, goes or changes. *)
Definition handle_entry (h : GoalHandle) : GoalId * option (nat * nat) := (gh_id h, gh_status_rx h).
Definition call_entry (c : ResultCall) : GoalId * option (nat * nat) := (rc_id c, call_status_rx c).
Lemma map_delete_perm {A B} (f : A -> B) l i x : l !! i = Some x -> map f l ≡ₚ f x :: map f (delete i l).
Proof. intros Hi. by rewrite (delete_Permutation l i x Hi) at 1. Qed.
Lemma map_insert_perm {A B} (f : A -> B) l i x y : l !! i = Some x -> map f (<[i := y]> l) ≡ₚ f y :: map f (delete i l).
Proof.
  intros Hi. assert (i < length l)%nat as Hlt by (by eapply lookup_lt_Some).
  rewrite insert_take_drop, delete_take_drop, !map_app by done. cbn. by rewrite <- Permutation_middle.
Qed.
Lemma owned_sending_delete o i h s :
  ow_sending o !! i = Some (h, s) -> owned_by o ≡ₚ handle_entry h :: owned_by (set_sending o (delete i (ow_sending o))).
Proof. intros Hi. unfold owned_by. cbn. by rewrite (map_delete_perm _ _ _ _ Hi). Qed.
Lemma owned_sending_insert o i h s s' :
  ow_sending o !! i = Some (h, s) -> owned_by o ≡ₚ owned_by (set_sending o (<[i := (h, s')]> (ow_sending o))).
Proof. intros Hi. rewrite (owned_sending_delete _ _ _ _ Hi). unfold owned_by. cbn. by rewrite (map_insert_perm _ _ _ _ (h, s') Hi). Qed.
Lemma owned_sending_app o h s : handle_entry h :: owned_by o ≡ₚ owned_by (set_sending o (ow_sending o ++ [(h, s)])).
Proof. unfold owned_by. cbn. rewrite map_app, <- app_assoc. cbn. by rewrite Permutation_middle. Qed.
Lemma owned_handles_delete o i h :
  ow_handles o !! i = Some h -> owned_by o ≡ₚ handle_entry h :: owned_by (set_handles o (delete i (ow_handles o))).
Proof. intros Hi. unfold owned_by. cbn. rewrite (map_delete_perm _ _ _ _ Hi). cbn. by rewrite <- Permutation_middle. Qed.
Lemma owned_handles_insert o i h h' :
  ow_handles o !! i = Some h ->
  handle_entry h' :: owned_by (set_handles o (delete i (ow_handles o))) ≡ₚ owned_by (set_handles o (<[i := h']> (ow_handles o))).
Proof. intros Hi. unfold owned_by. cbn. rewrite (map_insert_perm _ _ _ _ h' Hi). cbn. by rewrite <- Permutation_middle. Qed.
Lemma owned_handles_app o h : handle_entry h :: owned_by o ≡ₚ owned_by (set_handles o (ow_handles o ++ [h])).
Proof. unfold owned_by. cbn. rewrite map_app, <- app_assoc. cbn. by rewrite <- !Permutation_middle. Qed.
Lemma owned_calls_delete o i c :
  ow_calls o !! i = Some c -> owned_by o ≡ₚ call_entry c :: owned_by (set_calls o (delete i (ow_calls o))).
Proof. intros Hi. unfold owned_by. cbn. rewrite (map_delete_perm _ _ _ _ Hi). cbn. by rewrite <- !Permutation_middle. Qed.
Lemma owned_calls_insert o i c c' :
  ow_calls o !! i = Some c ->
  call_entry c' :: owned_by (set_calls o (delete i (ow_calls o))) ≡ₚ owned_by (set_calls o (<[i := c']> (ow_calls o))).
Proof. intros Hi. unfold owned_by. cbn. rewrite (map_insert_perm _ _ _ _ c' Hi). cbn. by rewrite <- !Permutation_middle. Qed.
Lemma owned_calls_app o c : call_entry c :: owned_by o ≡ₚ owned_by (set_calls o (ow_calls o ++ [c])).
Proof. unfold owned_by. cbn. rewrite map_app. cbn. by rewrite !app_assoc, <- Permutation_cons_append. Qed.

(** **** Each step *)

Lemma send_on_spec S get set token now request c own wt l :
  client_inv c own wt l ->
  let r := send_on S get set token now request c in client_inv r.2 own wt l /\ (forall e, r.1 <> Err e).
Proof.
  intros Hi. split; [by apply inv_send_on|]. unfold send_on, send_request. by destruct (msg_serialize request).
Qed.

Lemma step_send st id goal token now :
  run_inv st -> id ∉ map fst (lg_born_w (cr_log st)) -> run_inv (exec_send st id goal token now).
Proof.
  intros Hi Hid. apply (inv_new_goal id) in Hi; [|done]. unfold exec_send, send_goal_begin, send_goal_request_low.
  set (h := mkGoalHandle _ _ _).
  destruct (send_on_spec GoalService ac_goal_client set_goal_client token now (mkSendGoalRequest id goal) _ _ _ _ Hi)
    as [Hs He].
  destruct (send_on _ _ _ _ _ _ _) as [[q|e|] c]; cbn [fst snd] in *.
  - eapply inv_perm; [apply (owned_sending_app _ h)|exact Hs].
  - by destruct (He e).
  - by apply inv_drop_handle.
Qed.
Lemma step_sent st i get : run_inv st -> run_inv (exec_sent st i get).
Proof.
  intros Hi. unfold exec_sent, send_goal_sent. destruct (ow_sending _ !! i) as [[h []]|] eqn:E; [done| |done].
  destruct get as [[]|e|]; cbn.
  - eapply inv_perm; [by eapply owned_sending_insert|exact Hi].
  - apply inv_remove_drop. eapply inv_perm; [by eapply owned_sending_delete|exact Hi].
  - apply inv_drop_handle. eapply inv_perm; [by eapply owned_sending_delete|exact Hi].
Qed.
Lemma step_finish st i : run_inv st -> run_inv (exec_finish st i).
Proof.
  intros Hi. unfold exec_finish, send_goal_finish, recv_goal_response_low.
  destruct (ow_sending _ !! i) as [[h []]|] eqn:E; [|done..].
  apply (inv_recv_on GoalService ac_goal_client set_goal_client) in Hi.
  destruct (recv_on _ _ _ _) as [[[r|]|e|] c]; cbn [fst snd] in *; [| |apply inv_drop_handle; eapply inv_perm; [by eapply owned_sending_delete|exact Hi]..].
  - destruct (accepted r); cbn.
    + eapply inv_perm; [|exact Hi]. etrans; [by eapply owned_sending_delete|]. by apply owned_handles_app.
    + apply inv_remove_drop. eapply inv_perm; [by eapply owned_sending_delete|exact Hi].
  - exact Hi.
Qed.
Lemma step_abandon st i : run_inv st -> run_inv (exec_abandon st i).
Proof.
  intros Hi. unfold exec_abandon. destruct (ow_sending _ !! i) as [[h s]|] eqn:E; [|done].
  apply inv_drop_handle. eapply inv_perm; [by eapply owned_sending_delete|exact Hi].
Qed.
Lemma step_drop_handle st i : run_inv st -> run_inv (exec_drop_handle st i).
Proof.
  intros Hi. unfold exec_drop_handle. destruct (ow_handles _ !! i) as [h|] eqn:E; [|done].
  apply inv_drop_handle. eapply inv_perm; [by eapply owned_handles_delete|exact Hi].
Qed.
(** Messages and watches. *)
Lemma step_feedback st sample : run_inv st -> run_inv (exec_feedback st sample).
Proof.
  intros [H1 H2 H3 H4]. unfold exec_feedback. destruct (typed_callback _ _) as [[msg|]|e|]; [|by split..].
  apply (feedback_inv_log _ _ _ _ _ (fm_goal_id msg) (fm_feedback msg)) in H1.
  unfold run_inv. cbn [cr_client cr_owners cr_log]. unfold on_feedback. by destruct (active_goals _ !! fm_goal_id msg).
Qed.
Lemma step_status_info st x : run_inv st -> run_inv (exec_status_info st x).
Proof.
  intros Hi. pose proof Hi as [H1 H2 H3 H4].
  apply (status_inv_log _ _ _ _ _ (goal_id (goal_info x)) (gs_status x)) in H2.
  apply (owner_status _ _ _ _ _ (fun g ch => inv_board_born _ _ _ _ g ch Hi) (goal_id (goal_info x)) (gs_status x)) in H3.
  unfold run_inv. cbn [cr_client cr_owners cr_log exec_status_info]. unfold on_status_info.
  destruct (active_goals _ !! goal_id (goal_info x)) as [ch|] eqn:E; split; cbn;
    rewrite ?length_alter, ?E; unfold missed_by in H2, H3; rewrite E in H2, H3; done.
Qed.
Lemma step_status st sample : run_inv st -> run_inv (exec_status st sample).
Proof.
  intros Hi. unfold exec_status. destruct (typed_callback _ _) as [[[l]|]|e|]; [cbn|done..].
  revert st Hi. induction l as [|x l IH]; intros st Hi; [done|]. cbn. by apply IH, step_status_info.
Qed.
Lemma step_stream st id : run_inv st -> run_inv (exec_stream st id).
Proof.
  intros [H1 H2 H3 H4]. unfold exec_stream, feedback_stream. destruct (active_goals _ !! id) as [ch|] eqn:E; [|by split].
  split; cbn; [|by apply status_inv_rekey|by apply owner_rekey|done].
  destruct (fi_board _ _ _ _ _ H1 _ _ E) as [n Hn%lookup_lt_Some]. rewrite (fi_len _ _ _ _ _ H1) in Hn.
  apply (feedback_inv_drop_tx _ _ _ _ _ (feedback_tx ch)) in H1.
  apply (feedback_inv_new _ _ _ _ _ id (status_tx ch)) in H1. rewrite length_alter in H1. by rewrite alter_app_l.
Qed.
Lemma step_watch st id : run_inv st -> run_inv (exec_watch st id).
Proof.
  intros Hi. pose proof Hi as [H1 H2 H3 H4]. unfold exec_watch, client_status_watch.
  destruct (active_goals _ !! id) as [ch|] eqn:E; [|exact Hi].
  destruct (statuses _ !! status_tx ch) as [w|] eqn:Ew; [|exact Hi].
  pose proof (owner_subscribe _ _ _ _ _ _ _ _ Ew H3) as Ho. pose proof (w_subscribe _ w) as Hs.
  destruct (watch_subscribe w) as [r w']. destruct Hs as (_ & Hv & _ & Hop). split; cbn; [done| |done|].
  - rewrite <- list_insert_alter. apply status_inv_set with w; [done|done|done|done].
  - rewrite length_alter. apply Forall_app. split; [done|]. constructor; [|done]. by eapply lookup_lt_Some.
Qed.
Lemma step_take_feedback st i : run_inv st -> run_inv (exec_take_feedback st i).
Proof.
  intros Hi. unfold exec_take_feedback. destruct (ow_handles _ !! i) as [h|] eqn:E; [|done].
  eapply inv_perm; [|exact Hi]. etrans; [by eapply owned_handles_delete|]. by apply (owned_handles_insert _ _ h (handle_feedback h).2).
Qed.
Lemma step_take_status st i : run_inv st -> run_inv (exec_take_status st i).
Proof.
  intros Hi. unfold exec_take_status. destruct (ow_handles _ !! i) as [h|] eqn:E; [|done].
  apply (inv_perm _ _ _ _ _ (owned_handles_delete _ _ _ E)) in Hi.
  assert (client_inv (cr_client st) ((gh_id h, None) :: owned_by (set_handles (cr_owners st) (delete i (ow_handles (cr_owners st)))))
    (ow_watchers (cr_owners st) ++ option_list (gh_status_rx h)) (cr_log st)) as Hg.
  { unfold handle_entry in Hi. destruct (gh_status_rx h) as [[k r]|]; cbn; [|by rewrite app_nil_r].
    destruct Hi as [H1 H2 H3 H4]. split; [done|done| |].
    - apply owner_give; [|done]. intros g ch Hc. destruct (si_board _ _ _ _ _ H2 _ _ Hc) as (n & w & ? & _). by exists n.
    - apply Forall_app. split; [done|]. constructor; [|done]. destruct H3 as [_ _ [(_ & (w & Hw & _) & _) _]%Forall_cons].
      by eapply lookup_lt_Some. }
  eapply inv_perm; [|exact Hg]. by apply (owned_handles_insert _ _ h (handle_status_watch h).2).
Qed.
Lemma step_recv st k : run_inv st -> run_inv (exec_recv st k).
Proof.
  intros [H1 H2 H3 H4]. unfold exec_recv. destruct (feedbacks _ !! k) as [ch|] eqn:E; [|by split].
  apply (feedback_inv_recv _ _ _ _ _ _ _ E) in H1. destruct (mpsc_recv ch) as [o ch']. by split.
Qed.
(** A watcher looks; a watcher goes. *)
Lemma inv_look k f c own wt l :
  (forall w, w_value (f w) = w_value w /\ w_receivers (f w) = w_receivers w /\ w_open (f w) = w_open w) ->
  client_inv c own wt l -> client_inv (on_statuses k f c) own wt l.
Proof.
  intros Hf [H1 H2 H3 H4]. split; cbn; [done| | |by rewrite length_alter].
  - apply status_inv_alter; [|done]. intros w. by destruct (Hf w) as (-> & _ & ->).
  - apply owner_alter; [|done]. intros w. by destruct (Hf w) as (_ & -> & _).
Qed.
Lemma borrow_keeps (w : Watch GoalStatus) r :
  let w' := (watch_borrow_and_update w r).2 in
  w_value w' = w_value w /\ w_receivers w' = w_receivers w /\ w_open w' = w_open w.
Proof. cbn. pose proof (w_borrow _ w r) as Hb. destruct (watch_borrow_and_update w r). by destruct Hb as (_ & ? & ? & ?). Qed.
Lemma changed_keeps (w : Watch GoalStatus) r :
  let w' := (watch_changed w r).2 in
  w_value w' = w_value w /\ w_receivers w' = w_receivers w /\ w_open w' = w_open w.
Proof. cbn. pose proof (w_changed _ w r) as Hb. destruct (watch_changed w r). by destruct Hb as (_ & ? & ? & ?). Qed.
Lemma step_watcher st i f :
  (forall r w, w_value (f r w) = w_value w /\ w_receivers (f r w) = w_receivers w /\ w_open (f r w) = w_open w) ->
  run_inv st -> run_inv (exec_watcher st i f).
Proof.
  intros Hf Hi. unfold exec_watcher. destruct (ow_watchers _ !! i) as [[k r]|]; [|done]. by apply inv_look.
Qed.
Lemma step_drop_watcher st i : run_inv st -> run_inv (exec_drop_watcher st i).
Proof.
  intros [H1 H2 H3 H4]. unfold exec_drop_watcher. destruct (ow_watchers _ !! i) as [[k r]|] eqn:E; [|by split].
  split; cbn; [done| |by apply owner_drop_watcher|].
  - apply status_inv_alter; [|done]. intros w. by destruct (w_drop_rx _ w r) as (-> & _ & ->).
  - rewrite length_alter. by apply Forall_delete.
Qed.

(** The calls of [result]. *)
Lemma step_result st i : run_inv st -> run_inv (exec_result st i).
Proof.
  intros Hi. unfold exec_result. destruct (ow_handles _ !! i) as [h|] eqn:E; [|done].
  eapply inv_perm; [|exact Hi]. etrans; [by eapply owned_handles_delete|].
  assert (handle_entry h = call_entry (result_begin h)) as ->.
  { unfold handle_entry, call_entry, result_begin, call_status_rx. cbn. by destruct (gh_status_rx h). }
  apply owned_calls_app.
Qed.
(** A receiver looks at its watch, and is given up. *)
Lemma inv_replace k w w' c own wt l :
  statuses c !! k = Some w ->
  w_value w' = w_value w /\ w_receivers w' = w_receivers w /\ w_open w' = w_open w ->
  client_inv c own wt l -> client_inv (on_statuses k (fun _ => w') c) own wt l.
Proof.
  intros Hk (Hv & Hr & Ho) [H1 H2 H3 H4]. split; cbn; [done| | |by rewrite length_alter].
  - rewrite <- list_insert_alter. by eapply status_inv_set.
  - revert H3. apply owner_mono; [done|]. intros [g [[j r]|]] _; [|done]. unfold holds. cbn.
    intros (? & (x & Hx & Hxr) & H). split; [done|]. split; [|done]. destruct (decide (k = j)) as [->|Hne].
    + exists w'. rewrite list_lookup_alter_eq, Hx. split; [done|]. rewrite Hr. congruence.
    + exists x. by rewrite list_lookup_alter_ne.
Qed.
Lemma inv_release id k r c own wt l :
  client_inv c ((id, Some (k, r)) :: own) wt l ->
  client_inv (drop_status_rx (Some (k, r)) c) ((id, None) :: own) wt l.
Proof.
  intros Hi. apply inv_drop_status; [|by eapply inv_forget].
  pose proof (inv_free _ _ _ _ _ _ Hi) as Hf. intros g k' r' k'' r'' He [[= ]|Hin]%elem_of_cons. by eapply Hf.
Qed.

Lemma inv_result_end call (r : res ZError Result) c own wt l :
  client_inv c ((rc_id call, None) :: own) wt l -> client_inv (result_end call r c).2 own wt l.
Proof.
  intros Hi. apply inv_drop_feedback. destruct r; [by apply inv_remove..|by eapply inv_tail].
Qed.
Definition after_result_step (p : progress (Result := Result)) (c : client) (own : list (GoalId * option (nat * nat)))
    (wt : list (nat * nat)) (l : Log) : Prop :=
  match p with
  | Going call _ => client_inv c (call_entry call :: own) wt l
  | Finished _ => client_inv c own wt l
  end.
Lemma inv_result_step token now get call c own wt l :
  client_inv c (call_entry call :: own) wt l ->
  let r := result_step token now get call c in after_result_step r.1 r.2 own wt l.
Proof.
  intros Hi. destruct call as [id fb [[k r]|[k r]| | |]]; unfold call_entry, result_step in *; cbn [rc_id rc_at call_status_rx] in *.
  - destruct (statuses c !! k) as [w|] eqn:Ew; [|exact Hi]. pose proof (borrow_keeps w r) as Hb.
    destruct (watch_borrow_and_update w r) as [s w'].
    assert (client_inv (on_statuses k (fun _ => w') c) ((id, Some (k, r)) :: own) wt l) as Hi' by (by eapply inv_replace).
    destruct (is_terminal s); [|exact Hi']. cbn -[drop_status_rx].
    eapply inv_release; exact Hi'.
  - destruct (statuses c !! k) as [w|] eqn:Ew; [|exact Hi]. pose proof (changed_keeps w r) as Hb.
    destruct (watch_changed w r) as [o w'].
    assert (client_inv (on_statuses k (fun _ => w') c) ((id, Some (k, r)) :: own) wt l) as Hi' by (by eapply inv_replace).
    destruct o as [[]|]; [exact Hi'| |exact Hi']. cbn -[drop_status_rx]. eapply inv_release; exact Hi'.
  - unfold get_result_begin, send_result_request_low.
    pose proof (inv_send_on ResultService ac_result_client set_result_client token now id _ _ _ _ Hi) as Hs.
    destruct (send_on _ _ _ _ _ _ _) as [[q|e|] c']; [exact Hs|apply inv_result_end, Hs..].
  - destruct get; [exact Hi|apply inv_result_end, Hi..].
  - unfold get_result_finish, recv_result_response_low.
    pose proof (inv_recv_on ResultService ac_result_client set_result_client _ _ _ _ Hi) as Hs.
    unfold mbind, AM_bind. destruct (recv_on _ _ _ _) as [[[x|]|e|] c']; cbn -[result_end];
      [apply inv_result_end, Hs|exact Hs|apply inv_result_end, Hs..].
Qed.
Lemma step_result_step st i token now get : run_inv st -> run_inv (exec_result_step st i token now get).
Proof.
  intros Hi. unfold exec_result_step. destruct (ow_calls _ !! i) as [call|] eqn:E; [|done].
  apply (inv_perm _ _ _ _ _ (owned_calls_delete _ _ _ E)) in Hi.
  apply (inv_result_step token now get) in Hi.
  destruct (result_step _ _ _ _ _) as [[call' s|r] c]; [|exact Hi].
  eapply inv_perm; [|exact Hi]. by eapply owned_calls_insert.
Qed.
Lemma step_result_abandon st i : run_inv st -> run_inv (exec_result_abandon st i).
Proof.
  intros Hi. unfold exec_result_abandon. destruct (ow_calls _ !! i) as [call|] eqn:E; [|done].
  apply (inv_perm _ _ _ _ _ (owned_calls_delete _ _ _ E)) in Hi.
  apply inv_drop_status; [by eapply inv_free|]. apply inv_drop_feedback. by eapply inv_tail.
Qed.

(** The identifiers drawn are those of the watches. *)
Definition drawn (st : ClientRun) : list GoalId := map fst (lg_born_w (cr_log st)).
Lemma drawn_step st op :
  drawn (exec_client st op) = drawn st ++ op_ids [op].
Proof.
  destruct op; cbn; rewrite ?app_nil_r; try done.
  - unfold drawn, exec_send. destruct (send_goal_begin _ _ _ _ _) as [[[q h]|e|] c]; cbn; by rewrite map_app.
  - unfold exec_sent. by repeat case_match.
  - unfold exec_finish. by repeat case_match.
  - unfold exec_abandon. by repeat case_match.
  - unfold exec_feedback. by repeat case_match.
  - unfold exec_status. destruct (typed_callback _ _) as [[[xs]|]|e|]; [cbn|done..].
    revert st. induction xs as [|x xs IH]; intros st; [done|]. cbn. by rewrite IH.
  - unfold exec_stream, feedback_stream. by repeat case_match.
  - unfold exec_watch. by repeat case_match.
  - unfold exec_take_feedback. by repeat case_match.
  - unfold exec_take_status. by repeat case_match.
  - unfold exec_drop_handle. by repeat case_match.
  - unfold exec_recv. by repeat case_match.
  - unfold exec_watcher. by repeat case_match.
  - unfold exec_watcher. by repeat case_match.
  - unfold exec_drop_watcher. by repeat case_match.
  - unfold exec_result. by repeat case_match.
  - unfold exec_result_step. by repeat case_match.
  - unfold exec_result_abandon. by repeat case_match.
Qed.
Lemma inv_step st op :
  run_inv st -> (forall id, id ∈ op_ids [op] -> id ∉ drawn st) -> run_inv (exec_client st op).
Proof.
  intros Hi Hid. destruct op; cbn [exec_client].
  - apply step_send; [done|]. apply Hid. by left.
  - by apply step_sent.
  - by apply step_finish.
  - by apply step_abandon.
  - by apply step_feedback.
  - by apply step_status.
  - by apply inv_parts.
  - by apply step_stream.
  - by apply step_watch.
  - by apply step_take_feedback.
  - by apply step_take_status.
  - by apply step_drop_handle.
  - by apply step_recv.
  - by apply (inv_drop_feedback (Some k)).
  - apply step_watcher; [|done]. intros r w. apply borrow_keeps.
  - apply step_watcher; [|done]. intros r w. apply changed_keeps.
  - by apply step_drop_watcher.
  - by apply inv_send_on.
  - by apply inv_send_on.
  - by apply (inv_recv_on CancelService ac_cancel_client set_cancel_client).
  - by apply inv_send_on.
  - apply (inv_recv_on ResultService ac_result_client set_result_client) in Hi. unfold run_inv, set_client. cbn.
    unfold get_result_finish, recv_result_response_low, mbind, AM_bind.
    by destruct (recv_on _ _ _ _) as [[[x|]|e|] c].
  - by apply step_result.
  - by apply step_result_step.
  - by apply step_result_abandon.
Qed.
Lemma run_client_inv ops : forall st,
  run_inv st -> NoDup (op_ids ops) -> (forall id, id ∈ op_ids ops -> id ∉ drawn st) -> run_inv (run_client st ops).
Proof.
  induction ops as [|op ops IH]; intros st Hi Hn Hf; [done|]. cbn [run_client foldl].
  assert (op_ids (op :: ops) = op_ids [op] ++ op_ids ops) as Heq by apply (omap_app _ [op]).
  rewrite Heq in *. apply NoDup_app in Hn as (H1 & H2 & H3). apply IH; [|done|].
  - apply inv_step; [done|]. intros id Hin. apply Hf. set_solver.
  - intros id Hin. rewrite drawn_step. specialize (Hf id). set_solver.
Qed.
Lemma run_new_inv parts : run_inv (run_new parts).
Proof. split; cbn; [split|split|split|]; cbn; try done; try apply NoDup_nil_2; by constructor. Qed.

(** A call moves on when its goal has ended, and leaves no entry behind. *)
Lemma owned_watch_value c id k r own wt l w :
  client_inv c ((id, Some (k, r)) :: own) wt l -> statuses c !! k = Some w ->
  w_open w = true /\
  exists n, (id, n) ∈ lg_born_w l /\ w_value w = default Unknown (last (since (lg_status l) (id, n))).
Proof.
  intros [_ H2 H3 _] Hw. destruct H3 as [_ _ [((ch & Hch & Hk) & _ & Hm & _) _]%Forall_cons]. cbn in *. subst k.
  destruct (si_board _ _ _ _ _ H2 _ _ Hch) as (n & w' & Hb & Hw' & Ho & _ & Hv).
  rewrite Hw in Hw'. injection Hw' as <-. split; [done|]. exists n. split; [by eapply list_elem_of_lookup_2|by apply Hv].
Qed.
Lemma result_step_request token now get call c own wt l :
  client_inv c (call_entry call :: own) wt l ->
  match (result_step (Result := Result) token now get call c).1 with
  | Going call' _ => rc_at call' = RRequest ->
      exists n s, (rc_id call, n) ∈ lg_born_w l /\ is_terminal s = true /\
        last (since (lg_status l) (rc_id call, n)) = Some s
  | Finished _ => True
  end.
Proof.
  intros Hi. destruct call as [id fb [[k r]|[k r]| | |]]; unfold call_entry, result_step in *; cbn [rc_id rc_at call_status_rx] in *.
  - destruct (statuses c !! k) as [w|] eqn:Ew; [|done]. pose proof (w_borrow _ w r) as Hb.
    destruct (watch_borrow_and_update w r) as [s w']. destruct Hb as [-> _].
    destruct (owned_watch_value _ _ _ _ _ _ _ _ Hi Ew) as (_ & n & Hn & Hv).
    destruct (is_terminal (w_value w)) eqn:Et; cbn; [|done]. intros _. exists n, (w_value w). split; [done|]. split; [done|].
    rewrite Hv. destruct (last _); [done|]. by rewrite Hv in Et.
  - destruct (statuses c !! k) as [w|] eqn:Ew; [|done]. pose proof (w_changed _ w r) as Hb.
    destruct (watch_changed w r) as [o w']. destruct Hb as [Hb _].
    destruct (owned_watch_value _ _ _ _ _ _ _ _ Hi Ew) as [Ho _].
    destruct o as [[]|]; cbn; [done| |done]. rewrite Hb in Ho by done. done.
  - by destruct (get_result_begin _ _ _ _) as [[q|e|] c'].
  - by destruct get.
  - by destruct (get_result_finish _) as [[[x|]|e|] c'].
Qed.
Lemma result_end_board call (r : res ZError Result) (c : client) :
  match result_end call r c with
  | (Finished r, c) => r <> Panic -> active_goals c !! rc_id call = None
  | _ => True
  end.
Proof.
  unfold result_end, drop_feedback_rx, board_remove.
  destruct r; [| |done]; destruct (rc_feedback_rx call); cbn; intros _; apply lookup_delete_eq.
Qed.
Lemma result_step_finished token now get call (c : client) :
  match result_step (Result := Result) token now get call c with
  | (Finished r, c) => r <> Panic -> active_goals c !! rc_id call = None
  | _ => True
  end.
Proof.
  destruct call as [id fb [[k r]|[k r]| | |]]; unfold result_step; cbn [rc_id rc_at].
  - destruct (statuses c !! k) as [w|]; [|done]. destruct (watch_borrow_and_update w r) as [s w']. by destruct (is_terminal s).
  - destruct (statuses c !! k) as [w|]; [|done]. by destruct (watch_changed w r) as [[[]|] w'].
  - destruct (get_result_begin _ _ _ _) as [[q|e|] c']; [done|apply (result_end_board (mkResultCall id fb RRequest))..].
  - destruct get; [done|apply (result_end_board (mkResultCall id fb RSent))..].
  - destruct (get_result_finish _) as [[[x|]|e|] c']; try done; apply (result_end_board (mkResultCall id fb RReply)).
Qed.

(** ** Properties *)

(** C17 What reaches whom: in every run of a client with distinct goal identifiers,
    each feedback channel ever made for a goal has got, read or not, an initial
    part of the feedback that arrived for that goal since, in order and of no other
    goal; the channel of a goal on the board has got all of it while its receiver
    lives; and the watch of a goal on the board is open and shows the last status
    that arrived for the goal since the goal was sent, [Unknown] before the first,
    unless one arrived while the watch had no receiver. *)
Theorem channels_get_what_arrived parts ops :
  NoDup (op_ids ops) ->
  let st := run_client (run_new parts) ops in
  let l := cr_log st in
  (forall k born c, lg_born_f l !! k = Some born -> feedbacks (cr_client st) !! k = Some c ->
     of_key k (lg_got l) ++ ub_items c `prefix_of` since (lg_feedback l) born) /\
  (forall id ch, active_goals (cr_client st) !! id = Some ch ->
     (exists n c, lg_born_f l !! feedback_tx ch = Some (id, n) /\ feedbacks (cr_client st) !! feedback_tx ch = Some c /\
        (ub_has_rx c = true -> of_key (feedback_tx ch) (lg_got l) ++ ub_items c = since (lg_feedback l) (id, n))) /\
     (exists n w, lg_born_w l !! status_tx ch = Some (id, n) /\ statuses (cr_client st) !! status_tx ch = Some w /\
        w_open w = true /\
        (status_tx ch ∉ lg_missed l -> w_value w = default Unknown (last (since (lg_status l) (id, n)))))).
Proof.
  intros Hn st l. assert (run_inv st) as [[Hl Hb Hc Hg] [_ Hs _] _ _]
    by (apply run_client_inv; [apply run_new_inv|done|intros id _; apply not_elem_of_nil]).
  split.
  - intros k born c Hk Hx. by apply (Hc _ _ _ Hk Hx).
  - intros id ch Hch. split.
    + destruct (Hb _ _ Hch) as [n Hn']. apply lookup_lt_Some in Hn' as Hlt. rewrite Hl in Hlt.
      apply lookup_lt_is_Some in Hlt as [c Hx]. exists n, c. split; [done|]. split; [done|].
      destruct (Hc _ _ _ Hn' Hx) as (_ & _ & H). by apply (H ch).
    + destruct (Hs _ _ Hch) as (n & w & H1 & H2 & H3 & _ & H5). by exists n, w.
Qed.

(** [result] waits for the end of the goal: in every run with distinct goal
    identifiers, a call of [result] that holds the receiver of its goal's watch
    goes on to ask for the result only when the last status that arrived for the
    goal is terminal (its watch is never closed under it); and when a call returns,
    its goal is off the board. *)
Theorem result_asks_when_terminal parts ops i call token now get :
  NoDup (op_ids ops) ->
  let st := run_client (run_new parts) ops in
  ow_calls (cr_owners st) !! i = Some call ->
  match result_step token now get call (cr_client st) with
  | (Going call' _, _) => rc_at call' = RRequest ->
      exists n s, (rc_id call, n) ∈ lg_born_w (cr_log st) /\ is_terminal s = true /\
        last (since (lg_status (cr_log st)) (rc_id call, n)) = Some s
  | (Finished r, c) => r <> Panic -> active_goals c !! rc_id call = None
  end.
Proof.
  intros Hn st Hcall. assert (run_inv st) as Hi
    by (apply run_client_inv; [apply run_new_inv|done|intros id _; apply not_elem_of_nil]).
  apply (inv_perm _ _ _ _ _ (owned_calls_delete _ _ _ Hcall)) in Hi.
  pose proof (result_step_request token now get call _ _ _ _ Hi) as Hr.
  pose proof (result_step_finished token now get call (cr_client st)) as Hf.
  destruct (result_step _ _ _ _ _) as [[call' s|r] c]; [exact Hr|exact Hf].
Qed.
End Run.

(** ** A concrete client: one goal, with feedback and a status *)

(** Channels as lists, watches as records. *)
#[export] Instance ex_tokio : TokioApi := {|
  Unbounded T := (list T * bool)%type;
  unbounded_channel T := ([], true);
  mpsc_send T c x := if c.2 then (c.1 ++ [x], true) else c;
  mpsc_recv T c := match c.1 with [] => (None, c) | x :: l => (Some x, (l, c.2)) end;
  mpsc_drop_tx T c := c;
  mpsc_drop_rx T c := ([], false);
  Watch T := (T * gset nat * bool * gset nat)%type;
  watch_channel T x := (x, {[0%nat]}, true, ∅);
  watch_send T c x := let '(v, r, o, _) := c in if decide (r = ∅) then c else (x, r, o, r);
  watch_subscribe T c := let '(v, r, o, u) := c in (fresh r, (v, {[fresh r]} ∪ r, o, u));
  watch_borrow_and_update T c i := let '(v, r, o, u) := c in (v, (v, r, o, u ∖ {[i]}));
  watch_changed T c i := let '(v, r, o, u) := c in
    (if decide (i ∈ u) then Some true else if o then None else Some false, (v, r, o, u ∖ {[i]}));
  watch_drop_tx T c := let '(v, r, o, u) := c in (v, r, false, u);
  watch_drop_rx T c i := let '(v, r, o, u) := c in (v, r ∖ {[i]}, o, u);
|}.
#[export] Program Instance ex_mpsc_laws : MpscLaws := {| ub_items T c := c.1; ub_has_rx T c := c.2 |}.
Next Obligation. done. Qed.
Next Obligation. by intros T [l []] x. Qed.
Next Obligation. by intros T [[|x l] b]. Qed.
Next Obligation. done. Qed.
Next Obligation. done. Qed.
#[export] Program Instance ex_watch_laws : WatchLaws := {|
  w_value T c := c.1.1.1; w_receivers T c := c.1.1.2; w_open T c := c.1.2 |}.
Next Obligation. done. Qed.
Next Obligation. intros T [[[v r] o] u] x. cbn. by case_decide. Qed.
Next Obligation. intros T [[[v r] o] u]. cbn. split; [apply is_fresh|done]. Qed.
Next Obligation. by intros T [[[v r] o] u] i. Qed.
Next Obligation. intros T [[[v r] o] u] i. cbn. split; [|done]. case_decide; [done|]. by destruct o. Qed.
Next Obligation. by intros T [[[v r] o] u]. Qed.
Next Obligation. by intros T [[[v r] o] u] i. Qed.

(** Messages of one action on bytes, as far as the example uses them. *)
Definition ex_decode_id (bs : list byte) : res string (GoalId * list byte) :=
  match goal_id_of_list (take 16 bs) with Some id => Ok (id, drop 16 bs) | None => Err "short"%string end.
Definition ex_id_bytes (id : GoalId) : list byte := vec_to_list (GoalId_as_bytes id).
Definition ex_no_message {T} : ZMessage T := {| msg_serialize _ := Some []; msg_deserialize _ := Err "none"%string |}.
#[local] Instance ex_action_messages : ActionMessages byte byte byte := {|
  goal_request_msg := {| msg_serialize m := Some (ex_id_bytes (sg_goal_id m) ++ [sg_goal m]); msg_deserialize _ := Err "none"%string |};
  goal_response_msg := {| msg_serialize _ := Some []; msg_deserialize bs := Ok (mkGoalResponse (bool_decide (bs = [x01])) 0 0) |};
  cancel_request_msg := ex_no_message;
  cancel_response_msg := ex_no_message;
  result_request_msg := {| msg_serialize id := Some (ex_id_bytes id); msg_deserialize _ := Err "none"%string |};
  result_response_msg := ex_no_message;
  feedback_msg := {| msg_serialize _ := Some [];
    msg_deserialize bs := '(id, r) ← ex_decode_id bs;
      match r with [f] => Ok (mkFeedbackMsg id f) | _ => Err "length"%string end |};
  status_msg := {| msg_serialize _ := Some [];
    msg_deserialize bs := '(id, r) ← ex_decode_id bs;
      match r with
      | [s] => Ok (mkStatusMsg [mkStatusInfo (mkGoalInfo id Time_zero) (default Unknown (status_try_from (u8_of_byte s)))])
      | _ => Err "length"%string
      end |};
|}.
#[local] Existing Instance ex_zenoh.
#[local] Existing Instance ex_zext.
#[local] Existing Instance ex_action_pubsub.

Definition ex_goal_id : GoalId := GoalId_from_bytes (vreplicate 16 x05).
Definition ex_sample (bs : list byte) : TopicSample := mkTopicSample "k" bs None.
Definition ex_action_zclient : ZClient := mkClient 1 (replicate 16 x07) "k" (bounded 10) "k".
Definition ex_callback_sub : ZSub := mkSub ex_endpoint "k" None HCallback (Events.events_new []) None.
Definition ex_client_parts : ActionClientParts :=
  mkClientParts ex_action_zclient ex_action_zclient ex_action_zclient ex_callback_sub ex_callback_sub.
Definition ex_client_ops : list ClientOp :=
  [CSend ex_goal_id x09 0 None; CSent 0 (Ok tt); CReply 0 (Some (mkSample 0 [x01] None)); CFinish 0;
   CFeedback (ex_sample (replicate 16 x06 ++ [x00])); CFeedback (ex_sample (replicate 16 x05 ++ [x01]));
   CFeedback (ex_sample (replicate 16 x05 ++ [x02])); CRecv 0;
   CStatus (ex_sample (replicate 16 x05 ++ [x04])); CResult 0].
#[local] Abbreviation ex_client_run := (run_client (run_new ex_client_parts) ex_client_ops).

Lemma ex_client_ids : NoDup (op_ids ex_client_ops).
Proof. apply NoDup_singleton. Qed.

Lemma channels_get_what_arrived_witness :
  active_goals (cr_client ex_client_run) !! ex_goal_id = Some (mkGoalChannels 0 0) /\
  (exists n c, lg_born_f (cr_log ex_client_run) !! 0%nat = Some (ex_goal_id, n) /\
    feedbacks (cr_client ex_client_run) !! 0%nat = Some c /\
    (ub_has_rx c = true -> of_key 0%nat (lg_got (cr_log ex_client_run)) ++ ub_items c =
       since (lg_feedback (cr_log ex_client_run)) (ex_goal_id, n))) /\
  of_key 0%nat (lg_got (cr_log ex_client_run)) = [x01].
Proof.
  assert (active_goals (cr_client ex_client_run) !! ex_goal_id = Some (mkGoalChannels 0 0)) as Hb by reflexivity.
  split; [exact Hb|]. split; [|reflexivity].
  pose proof (channels_get_what_arrived ex_client_parts ex_client_ops ex_client_ids) as H.
  cbv zeta in H.
  destruct H as [_ H]. destruct (H _ _ Hb) as [H1 _]. cbn [feedback_tx] in H1. exact H1.
Defined.
Lemma result_asks_when_terminal_witness :
  match result_step 7 None (Ok tt) (mkResultCall ex_goal_id (Some 0%nat) (RCheck (0, 0)%nat)) (cr_client ex_client_run) with
  | (Going call' _, _) => rc_at call' = RRequest /\
      exists n s, (ex_goal_id, n) ∈ lg_born_w (cr_log ex_client_run) /\ is_terminal s = true /\
        last (since (lg_status (cr_log ex_client_run)) (ex_goal_id, n)) = Some s
  | (Finished r, c) => False
  end.
Proof.
  pose proof (result_asks_when_terminal ex_client_parts ex_client_ops 0
    (mkResultCall ex_goal_id (Some 0%nat) (RCheck (0, 0)%nat)) 7 None (Ok tt)) as H.
  specialize (H ex_client_ids).
  cbv zeta in H.
  specialize (H eq_refl).
  assert ((result_step 7 None (Ok tt) (mkResultCall ex_goal_id (Some 0%nat) (RCheck (0, 0)%nat)) (cr_client ex_client_run)).1
    = Going (Result := byte) (mkResultCall ex_goal_id (Some 0%nat) RRequest) None) as E by reflexivity.
  destruct (result_step _ _ _ _ _) as [[call' s|r] c]; cbn [fst] in E; [|discriminate E].
  injection E as -> _. exact (conj eq_refl (H eq_refl)).
Defined.
