(* ===== verification/ActionDriver.v ===== *)
(** * The action server's driver loop (crates/ros-z/src/action/driver.rs)

    The three handlers of [run_driver_loop], and the loop itself as a step
    relation: a [World] is the server, the goal handles that are alive in some
    task, the results taken out of the table but not yet sent, and the driver
    loops with the result request each of them may be waiting on.  A step is
    one critical section of the goal table's mutex with the effects that follow
    it, so a run is an interleaving of goal tasks, user calls and driver loops.
    A driver loop handles one event at a time and awaits the handler inside its
    [select!], so a loop that waits for a result takes no other event. *)
From S2P Require Import Prelude Attachment Action.
From stdpp Require Import gmap countable vector.

Section Driver.
Context {Goal Result Feedback : Type} `{ZExt : ZExtApi}.
Context (deserialize_goal : list byte -> option (GoalId * Goal)).
Context (deserialize_cancel : list byte -> option GoalInfo).
Context (deserialize_result : list byte -> option GoalId).

Abbreviation Server := (Server (Goal := Goal) (Result := Result) (Feedback := Feedback)).
Abbreviation SM := (SM (Goal := Goal) (Result := Result) (Feedback := Feedback)).
Abbreviation GoalHandle := (GoalHandle (Goal := Goal)).
Abbreviation Manager := (GoalManagerInternal (Goal := Goal) (Result := Result)).

(** ** The handlers *)

(** [handle_goal_request], up to the call of the user's handler. *)
Definition handle_goal_request (q : Query) (now : Time) (t1 t2 t3 : Instant)
    (stamp_of : GoalId -> Time) : SM (option (GoalHandle MExecuting)) :=
  requested ← recv_goal deserialize_goal q now;
  match requested with
  | None => mret None
  | Some requested =>
      accepted ← accept requested t1 t2 stamp_of;
      executing ← execute accepted t3 stamp_of;
      mret (Some executing)
  end.

(** [handle_cancel_request]. *)
Definition cancel_response (i : GoalInfo) (cancelled : bool) : Response (Result := Result) :=
  CancelGoalServiceResponse (if cancelled then 1%Z else 0%Z) (if cancelled then [i] else []).
Definition handle_cancel_request (q : Query) : SM unit :=
  bytes ← unwrap_SM (payload q);
  match deserialize_cancel bytes with
  | None => mret tt
  | Some i =>
      cancelled ← request_cancel (goal_id i);
      reply q (cancel_response i cancelled)
  end.

(** [handle_result_request]: the section under the lock, the wait, the reply. *)
Inductive ResultState :=
| RsTerminated (result : Result) (status : GoalStatus)
| RsWaiting
| RsNotFound.
Definition lookup_or_register (id : GoalId) (tx : nat) (m : Manager)
    : option ResultState * Manager :=
  match goals m !! id with
  | Some (StTerminated r st _ _) => (Some (RsTerminated r st), m)
  | Some _ =>
      (Some RsWaiting,
       set_futures m (<[id := default [] (result_futures m !! id) ++ [tx]]> (result_futures m)))
  | None => (Some RsNotFound, m)
  end.
Definition reply_result (q : Query) (r : Result) (st : GoalStatus) : SM unit :=
  reply q (GetResultResponse (status_as_i8 st) r).
(** [Some (id, rx)]: the handler waits on [rx] for goal [id]. *)
Definition handle_result_request (q : Query) : SM (option (GoalId * nat)) :=
  bytes ← unwrap_SM (payload q);
  match deserialize_result bytes with
  | None => mret None
  | Some id =>
      tx ← new_channel;
      rs ← modify (lookup_or_register id tx);
      match rs with
      | RsTerminated r st => reply_result q r st;; mret None
      | RsWaiting => mret (Some (id, tx))
      | RsNotFound => mret None
      end
  end.
(** [rx.await] has returned: the sender is dropped unsent only with the table,
    which the loop keeps alive, so it returned a value. *)
Definition resume_result_request (q : Query) (rx : nat) : SM bool := fun s =>
  match channels s !! rx with
  | Some (Some (r, st)) =>
      match reply_result q r st s with
      | (Some _, s') => (Some true, s')
      | (None, s') => (None, s')
      end
  | _ => (Some false, s)
  end.

(** ** The loop *)

(** A goal handle owned by some task. *)
Inductive live :=
| LvReq (h : GoalHandle MRequested)
| LvAcc (h : GoalHandle MAccepted)
| LvExe (h : GoalHandle MExecuting).
Definition live_id (l : live) : GoalId :=
  match l with LvReq h => handle_id h | LvAcc h => handle_id h | LvExe h => handle_id h end.

Record Waiter := mkWaiter { w_query : Query; w_goal : GoalId; w_rx : nat }.

Record World := mkWorld {
  srv : Server;
  handles : list live;
  sends : list (nat * Result * GoalStatus);
  waiters : list Waiter;
  drivers : nat;
}.
Definition world_new (s : Server) : World := mkWorld s [] [] [] 0.

(** Who runs a section: a task or the user, or a driver loop. *)
Inductive agent := User | Driver.

Inductive label :=
| LStart
| LShutdown
| LRequest (a : agent) (id : GoalId)
| LAccept (id : GoalId)
| LReject (id : GoalId)
| LExecute (id : GoalId)
| LTerminate (id : GoalId) (r : Result) (st : GoalStatus)
| LSend (tx : nat)
| LDrop (id : GoalId)
| LPublish
| LFeedback (id : GoalId)
| LCancel (a : agent) (id : GoalId) (cancelled : bool)
| LResult (id : GoalId)
| LWake (id : GoalId)
| LLegacy
| LExpire (a : agent) (now : Instant)
| LTimeout.

(** A loop is idle when it is not waiting for a result. *)
Definition may_act (a : agent) (w : World) : Prop :=
  match a with User => True | Driver => (length (waiters w) < drivers w)%nat end.

(** A panic in a handler that the loop awaits ends the loop. *)
Definition survivors {A} (a : agent) (o : option A) (n : nat) : nat :=
  match a, o with Driver, None => pred n | _, _ => n end.

(** The critical sections of [accept] and [execute]: without the final
    [publish_status]. *)
Definition accept_section (h : GoalHandle MRequested) (t1 t2 : Instant)
    : SM (GoalHandle MAccepted) :=
  answer h (SendGoalResponse true (sec (stamp (info h))) (nanosec (stamp (info h))));;
  modify (insert_accepted (handle_id h) (goal h) t1 t2);;
  mret (mkHandle (goal h) (info h) None None).
Definition execute_section (h : GoalHandle MAccepted) (t : Instant) : SM (GoalHandle MExecuting) :=
  flag ← new_flag;
  modify (insert_executing (handle_id h) (goal h) flag t);;
  mret (mkHandle (goal h) (info h) None (Some flag)).

Definition olist {A B} (f : A -> B) (o : option A) : list B :=
  match o with Some a => [f a] | None => [] end.

Inductive step (w : World) : label -> World -> Prop :=
| st_start : step w LStart (mkWorld (srv w) (handles w) (sends w) (waiters w) (S (drivers w)))
| st_shutdown : may_act Driver w ->
    step w LShutdown (mkWorld (srv w) (handles w) (sends w) (waiters w) (pred (drivers w)))
| st_request a q now h s' : may_act a w ->
    recv_goal deserialize_goal q now (srv w) = (Some (Some h), s') ->
    step w (LRequest a (handle_id h))
      (mkWorld s' (LvReq h :: handles w) (sends w) (waiters w) (drivers w))
| st_accept l1 h l2 t1 t2 o s' : handles w = l1 ++ LvReq h :: l2 ->
    accept_section h t1 t2 (srv w) = (o, s') ->
    step w (LAccept (handle_id h))
      (mkWorld s' (l1 ++ olist LvAcc o ++ l2) (sends w) (waiters w) (drivers w))
| st_reject l1 h l2 o s' : handles w = l1 ++ LvReq h :: l2 ->
    reject h (srv w) = (o, s') ->
    step w (LReject (handle_id h)) (mkWorld s' (l1 ++ l2) (sends w) (waiters w) (drivers w))
| st_execute l1 h l2 t o s' : handles w = l1 ++ LvAcc h :: l2 ->
    execute_section h t (srv w) = (o, s') ->
    step w (LExecute (handle_id h))
      (mkWorld s' (l1 ++ olist LvExe o ++ l2) (sends w) (waiters w) (drivers w))
| st_terminate l1 h l2 r st now txs s' : handles w = l1 ++ LvExe h :: l2 ->
    is_terminal st = true ->
    modify (insert_terminated (handle_id h) r st now) (srv w) = (Some txs, s') ->
    step w (LTerminate (handle_id h) r st)
      (mkWorld s' (l1 ++ l2) (sends w ++ map (fun tx => (tx, r, st)) txs) (waiters w) (drivers w))
| st_terminate_panic l1 h l2 r st now s' : handles w = l1 ++ LvExe h :: l2 ->
    modify (insert_terminated (handle_id h) r st now) (srv w) = (None, s') ->
    step w (LDrop (handle_id h)) (mkWorld s' (l1 ++ l2) (sends w) (waiters w) (drivers w))
| st_send l1 tx r st l2 o s' : sends w = l1 ++ (tx, r, st) :: l2 ->
    send_result r st tx (srv w) = (o, s') ->
    step w (LSend tx) (mkWorld s' (handles w) (l1 ++ l2) (waiters w) (drivers w))
| st_drop l1 h l2 : handles w = l1 ++ h :: l2 ->
    step w (LDrop (live_id h)) (mkWorld (srv w) (l1 ++ l2) (sends w) (waiters w) (drivers w))
| st_publish stamp_of o s' : publish_status stamp_of (srv w) = (o, s') ->
    step w LPublish (mkWorld s' (handles w) (sends w) (waiters w) (drivers w))
| st_feedback h f o s' : LvExe h ∈ handles w -> publish_feedback h f (srv w) = (o, s') ->
    step w (LFeedback (handle_id h)) (mkWorld s' (handles w) (sends w) (waiters w) (drivers w))
| st_cancel_user id b s' : request_cancel id (srv w) = (Some b, s') ->
    step w (LCancel User id b) (mkWorld s' (handles w) (sends w) (waiters w) (drivers w))
| st_cancel_driver q bytes i b s1 o s' : may_act Driver w ->
    payload q = Some bytes -> deserialize_cancel bytes = Some i ->
    request_cancel (goal_id i) (srv w) = (Some b, s1) ->
    handle_cancel_request q (srv w) = (o, s') ->
    step w (LCancel Driver (goal_id i) b)
      (mkWorld s' (handles w) (sends w) (waiters w) (survivors Driver o (drivers w)))
| st_result q bytes id o s' : may_act Driver w ->
    payload q = Some bytes -> deserialize_result bytes = Some id ->
    handle_result_request q (srv w) = (o, s') ->
    step w (LResult id)
      (mkWorld s' (handles w) (sends w)
         (match o with Some (Some (id', rx)) => waiters w ++ [mkWaiter q id' rx] | _ => waiters w end)
         (survivors Driver o (drivers w)))
| st_wake l1 x l2 o s' : waiters w = l1 ++ x :: l2 ->
    resume_result_request (w_query x) (w_rx x) (srv w) = (o, s') -> o <> Some false ->
    step w (LWake (w_goal x))
      (mkWorld s' (handles w) (sends w) (l1 ++ l2) (survivors Driver o (drivers w)))
| st_legacy q o s' : handle_result_requests_legacy_inner deserialize_result q (srv w) = (o, s') ->
    step w LLegacy (mkWorld s' (handles w) (sends w) (waiters w) (drivers w))
| st_expire a now o s' : may_act a w -> modify (retain_live now) (srv w) = (o, s') ->
    step w (LExpire a now)
      (mkWorld s' (handles w) (sends w) (waiters w) (survivors a o (drivers w)))
| st_timeout d o s' : set_result_timeout d (srv w) = (o, s') ->
    step w LTimeout (mkWorld s' (handles w) (sends w) (waiters w) (drivers w)).

Inductive run : World -> list label -> World -> Prop :=
| run_nil w : run w [] w
| run_snoc w es w' l w'' : run w es w' -> step w' l w'' -> run w (es ++ [l]) w''.

(** What a run did: the goals requested and executed, in order, the results they
    were given, the goals whose cancellation was recorded, and the goal of each
    channel, in the order of the channels. *)
Definition requested (es : list label) : list GoalId :=
  omap (fun l => match l with LRequest _ id => Some id | _ => None end) es.
Definition executed (es : list label) : list GoalId :=
  omap (fun l => match l with LExecute id => Some id | _ => None end) es.
Definition terminated (es : list label) : list (GoalId * (Result * GoalStatus)) :=
  omap (fun l => match l with LTerminate id r st => Some (id, (r, st)) | _ => None end) es.
Definition cancelled (es : list label) : list GoalId :=
  omap (fun l => match l with LCancel _ id true => Some id | _ => None end) es.
Definition channel_goals (es : list label) : list GoalId :=
  omap (fun l => match l with LResult id => Some id | _ => None end) es.
Definition driver_label (l : label) : bool :=
  match l with
  | LShutdown | LRequest Driver _ | LCancel Driver _ _ | LResult _ | LWake _
  | LExpire Driver _ => true
  | _ => false
  end.

Definition status_at (w : World) (id : GoalId) : option GoalStatus :=
  state_status <$> (goals (inner (srv w)) !! id).
End Driver.
