(* ===== verification/ActionInvariant.v ===== *)
(** * What every run of the action server keeps

    The invariant of [ActionDriver.step] when the clients' goal identifiers are
    distinct, and what follows: the legal status transitions, results that are
    delivered once and never change, cancel flags that reach their handle, and
    the driver loop that a pending result request holds back. *)
From S2P Require Import Prelude Attachment Action ActionDriver.
From stdpp Require Import gmap countable vector.

Section Invariant.
Context {Goal Result Feedback : Type} `{ZExt : ZExtApi}.
Context (deserialize_goal : list byte -> option (GoalId * Goal)).
Context (deserialize_cancel : list byte -> option GoalInfo).
Context (deserialize_result : list byte -> option GoalId).

Abbreviation Server := (Server (Goal := Goal) (Result := Result) (Feedback := Feedback)).
Abbreviation World := (World (Goal := Goal) (Result := Result) (Feedback := Feedback)).
Abbreviation State := (ServerGoalState (Goal := Goal) (Result := Result)).
Abbreviation live := (live (Goal := Goal)).
Abbreviation label := (label (Result := Result)).
Abbreviation step := (step (Feedback := Feedback) deserialize_goal deserialize_cancel deserialize_result).
Abbreviation run := (run (Feedback := Feedback) deserialize_goal deserialize_cancel deserialize_result).

(** ** Definitions *)

(** The replies to result requests among what was sent. *)
Definition result_reply (x : Sent (Result := Result) (Feedback := Feedback))
    : option (Query * (Z * Result)) :=
  match x with Reply q _ (GetResultResponse code r) => Some (q, (code, r)) | _ => None end.
Definition result_replies (s : Server) : list (Query * (Z * Result)) := omap result_reply (sent s).

Definition ids_of_terminated (es : list label) : list GoalId := map fst (terminated es).

(** A live handle, its table entry and its flag. *)
Definition handle_ok (es : list label) (G : gmap GoalId State) (l : live) : Prop :=
  (live_id l ∈ requested es) /\ (live_id l ∉ ids_of_terminated es) /\
  match l with
  | LvReq h => G !! handle_id h = None /\ handle_id h ∉ executed es
  | LvAcc h =>
      (G !! handle_id h = None \/ exists t e, G !! handle_id h = Some (StAccepted (goal h) t e)) /\
      handle_id h ∉ executed es
  | LvExe h => exists f, cancel_flag h = Some f /\ executed es !! f = Some (handle_id h) /\
      (G !! handle_id h = None \/ exists e, G !! handle_id h = Some (StExecuting (goal h) f e))
  end.

Definition goal_ok (es : list label) (id : GoalId) (st : State) : Prop :=
  (id ∈ requested es) /\
  match st with
  | StAccepted _ _ _ => id ∉ ids_of_terminated es
  | StExecuting _ f _ => executed es !! f = Some id /\ id ∉ ids_of_terminated es
  | StCanceling _ => False
  | StTerminated r s _ _ => (id, (r, s)) ∈ terminated es
  end.

Record inv_handles (es : list label) (G : gmap GoalId State) (fl : list bool) (hs : list live)
    : Prop := {
  ih_nodup : NoDup (map live_id hs);
  ih_handles : forall l, l ∈ hs -> handle_ok es G l;
  ih_goals : forall id st, G !! id = Some st -> goal_ok es id st;
  ih_terminated : forall id r st, (id, (r, st)) ∈ terminated es ->
    id ∈ requested es /\ is_terminal st = true;
  ih_unique : NoDup (ids_of_terminated es);
  ih_executed : forall id, id ∈ executed es -> id ∈ requested es;
  ih_executed_nodup : NoDup (executed es);
  ih_flag_count : length fl = length (executed es);
  ih_flags : forall f id, executed es !! f = Some id ->
    (fl !! f = Some true <-> id ∈ cancelled es);
  ih_cancelled : forall id, id ∈ cancelled es -> id ∈ executed es;
}.

Record inv_results (es : list label) (F : gmap GoalId (list nat)) (ch : list (channel (Result := Result)))
    (snds : list (nat * Result * GoalStatus)) (ws : list Waiter)
    (rr : list (Query * (Z * Result))) : Prop := {
  ir_count : length ch = length (channel_goals es);
  ir_terminated : forall id, id ∈ ids_of_terminated es -> F !! id = None;
  ir_futures : forall id l tx, F !! id = Some l -> tx ∈ l -> channel_goals es !! tx = Some id;
  ir_sends : forall tx r st, (tx, r, st) ∈ snds ->
    exists id, channel_goals es !! tx = Some id /\ (id, (r, st)) ∈ terminated es;
  ir_channels : forall tx r st, ch !! tx = Some (Some (r, st)) ->
    exists id, channel_goals es !! tx = Some id /\ (id, (r, st)) ∈ terminated es;
  ir_waiters : forall x, x ∈ ws ->
    (exists bytes, payload (w_query x) = Some bytes /\ deserialize_result bytes = Some (w_goal x)) /\
    channel_goals es !! w_rx x = Some (w_goal x) /\
    ((exists l, F !! w_goal x = Some l /\ w_rx x ∈ l) \/
     (exists r st, (w_rx x, r, st) ∈ snds) \/
     (exists r st, ch !! w_rx x = Some (Some (r, st))));
  ir_replies : forall q code r, (q, (code, r)) ∈ rr ->
    exists bytes id st, payload q = Some bytes /\ deserialize_result bytes = Some id /\
      code = status_as_i8 st /\ (id, (r, st)) ∈ terminated es;
}.

Definition inv (es : list label) (w : World) : Prop :=
  inv_handles es (goals (inner (srv w))) (flags (srv w)) (handles w) /\
  inv_results es (result_futures (inner (srv w))) (channels (srv w)) (sends w) (waiters w)
    (result_replies (srv w)).

(** The status changes of one goal that a step can make: those of
    [transition_goal_state], and [Executing] to [Canceled]; an entry that
    expired is [None], and a task that still owns the goal re-creates it. *)
Definition allowed (a b : option GoalStatus) : Prop :=
  match a, b with
  | Some a, Some b =>
      a = b \/ (exists ev, transition_goal_state a ev = b /\ b <> Unknown) \/
      (a = Executing /\ b = Canceled)
  | None, Some b => b <> Unknown /\ b <> Canceling
  | _, None => True
  end.

(** ** What each section does to the server *)

Ltac run_SM := unfold mbind, mret, SM_bind, SM_ret, unwrap_SM in *; cbn beta iota in *.

Lemma reply_effect q (r : Response) (s : Server) o s' :
  reply q r s = (o, s') ->
  inner s' = inner s /\ flags s' = flags s /\ channels s' = channels s /\
  (result_replies s' = result_replies s \/
   exists code v, r = GetResultResponse code v /\
     result_replies s' = result_replies s ++ [(q, (code, v))]).
Proof.
  unfold reply. run_SM. destruct (attachment q) as [b|]; [|intros; simplify_eq; auto 6].
  destruct (Attachment_try_from b) as [a|]; [|intros; simplify_eq; auto 6].
  unfold emit. intros. simplify_eq. unfold result_replies. cbn.
  rewrite omap_app. cbn. split_and!; try done.
  destruct r; cbn; rewrite ?app_nil_r; eauto 8.
Qed.

(** [s'] differs from [s] in its goal table only. *)
Definition quiet (s s' : Server) : Prop :=
  result_futures (inner s') = result_futures (inner s) /\ flags s' = flags s /\
  channels s' = channels s /\ result_replies s' = result_replies s.

Lemma answer_effect {State} (h : GoalHandle State) accepted t n (s : Server) o s' :
  answer h (SendGoalResponse accepted t n) s = (o, s') ->
  goals (inner s') = goals (inner s) /\ quiet s s'.
Proof.
  unfold answer, quiet. destruct (query h).
  - intros (-> & -> & -> & [-> | (? & ? & ? & _)])%reply_effect; [auto|done].
  - run_SM. intros. by simplify_eq.
Qed.

Lemma modify_effect {R} (f : GoalManagerInternal -> option R * GoalManagerInternal) (s : Server) o s' :
  modify f s = (o, s') ->
  (o = None /\ s' = s) \/
  (f (inner s) = (o, inner s') /\ flags s' = flags s /\ channels s' = channels s /\ sent s' = sent s).
Proof.
  unfold modify. destruct (poisoned s); [intros; simplify_eq; auto|].
  destruct (f (inner s)) as [r m] eqn:E. intros. simplify_eq. auto.
Qed.

Lemma accept_effect (h : GoalHandle MRequested) t1 t2 (s : Server) o s' :
  accept_section h t1 t2 s = (o, s') ->
  quiet s s' /\
  ((o = None /\ goals (inner s') = goals (inner s)) \/
   (o = Some (mkHandle (goal h) (info h) None None) /\
    exists e, goals (inner s') = <[handle_id h := StAccepted (goal h) t2 e]> (goals (inner s)))).
Proof.
  unfold accept_section. run_SM.
  destruct (answer _ _ s) as [o1 s1] eqn:E1.
  apply answer_effect in E1 as (HG & HF & Hfl & Hch & Hrr).
  destruct o1; [|intros; simplify_eq; unfold quiet; auto 8].
  destruct (modify _ s1) as [o2 s2] eqn:E2.
  apply modify_effect in E2 as [[-> ->]|(Hf & H1 & H2 & H3)]; [intros; simplify_eq; unfold quiet; auto 8|].
  unfold insert_accepted in Hf. unfold quiet, result_replies in *.
  intros Ho. assert (s' = s2 /\ (o2 = None -> o = None) /\ (o2 = Some tt ->
    o = Some (mkHandle (goal h) (info h) None None))) as (-> & Hn & Hs).
  { destruct o2 as [[]|]; naive_solver. }
  rewrite H1, H2, H3. destruct (expiry _ _) as [e|]; injection Hf as <- Hi;
    rewrite <- Hi; cbn; rewrite ?HG; (split; [auto|]); eauto.
Qed.

Lemma execute_effect (h : GoalHandle MAccepted) t (s : Server) o s' :
  execute_section h t s = (o, s') ->
  result_futures (inner s') = result_futures (inner s) /\ flags s' = flags s ++ [false] /\
  channels s' = channels s /\ result_replies s' = result_replies s /\
  ((o = None /\ goals (inner s') = goals (inner s)) \/
   (o = Some (mkHandle (goal h) (info h) None (Some (length (flags s)))) /\
    exists e, goals (inner s') =
      <[handle_id h := StExecuting (goal h) (length (flags s)) e]> (goals (inner s)))).
Proof.
  unfold execute_section, new_flag. run_SM.
  destruct (modify _ _) as [o2 s2] eqn:E2.
  apply modify_effect in E2 as [[-> ->]|(Hf & H1 & H2 & H3)]; [intros; simplify_eq; auto 8|].
  cbn in *. unfold insert_executing in Hf. unfold result_replies in *. rewrite <- H1, <- H2, <- H3.
  destruct (expiry _ _) as [e|]; injection Hf as <- Hi; intros [= <- <-];
    rewrite <- Hi; cbn; eauto 10.
Qed.

Lemma terminate_effect id (r : Result) st now (s : Server) o s' :
  modify (insert_terminated id r st now) s = (o, s') ->
  flags s' = flags s /\ channels s' = channels s /\ result_replies s' = result_replies s /\
  ((o = None /\ inner s' = inner s) \/
   (o = Some (default [] (result_futures (inner s) !! id)) /\
    result_futures (inner s') = delete id (result_futures (inner s)) /\
    exists e, goals (inner s') = <[id := StTerminated r st now e]> (goals (inner s)))).
Proof.
  intros [[-> ->]|(Hf & H1 & H2 & H3)]%modify_effect; [auto 8|].
  unfold insert_terminated in Hf. unfold result_replies. rewrite H1, H2, H3.
  destruct (instant_add _ _) as [e|]; injection Hf as <- Hi; rewrite <- Hi; cbn; eauto 10.
Qed.

Lemma request_cancel_effect id (s : Server) b s' :
  request_cancel id s = (Some b, s') ->
  inner s' = inner s /\ channels s' = channels s /\ sent s' = sent s /\
  match b with
  | true => exists f, executing_flag id (inner s) = Some f /\ flags s' = <[f := true]> (flags s)
  | false => executing_flag id (inner s) = None /\ flags s' = flags s
  end.
Proof.
  unfold request_cancel, read, store_flag. run_SM. destruct (poisoned s); [done|].
  destruct (executing_flag id (inner s)); intros; simplify_eq; cbn; eauto 8.
Qed.

Lemma handle_cancel_effect q bytes i b (s s1 s' : Server) o :
  payload q = Some bytes -> deserialize_cancel bytes = Some i ->
  request_cancel (goal_id i) s = (Some b, s1) ->
  handle_cancel_request deserialize_cancel q s = (o, s') ->
  inner s' = inner s1 /\ flags s' = flags s1 /\ channels s' = channels s1 /\
  result_replies s' = result_replies s1.
Proof.
  intros Hp Hd Hr. unfold handle_cancel_request. run_SM. rewrite Hp, Hd. run_SM. rewrite Hr.
  intros (-> & -> & -> & [-> | (? & ? & ? & _)])%reply_effect; [auto|done].
Qed.

Lemma result_effect q bytes id (s s' : Server) o :
  payload q = Some bytes -> deserialize_result bytes = Some id ->
  handle_result_request deserialize_result q s = (o, s') ->
  goals (inner s') = goals (inner s) /\ flags s' = flags s /\ channels s' = channels s ++ [None] /\
  ((exists st, o = Some (Some (id, length (channels s))) /\ goals (inner s) !! id = Some st /\
      (forall r x t e, st <> StTerminated r x t e) /\ result_replies s' = result_replies s /\
      result_futures (inner s') = <[id := default [] (result_futures (inner s) !! id)
        ++ [length (channels s)]]> (result_futures (inner s))) \/
   ((o = None \/ o = Some None) /\ result_futures (inner s') = result_futures (inner s) /\
    (result_replies s' = result_replies s \/
     exists r st t e, goals (inner s) !! id = Some (StTerminated r st t e) /\
       result_replies s' = result_replies s ++ [(q, (status_as_i8 st, r))]))).
Proof.
  intros Hp Hd. unfold handle_result_request, new_channel. run_SM. rewrite Hp, Hd. run_SM.
  destruct (modify _ _) as [o2 s2] eqn:E2.
  apply modify_effect in E2 as [[-> ->]|(Hf & H1 & H2 & H3)]; [intros; simplify_eq; cbn; eauto 10|].
  cbn in *. unfold lookup_or_register in Hf.
  unfold result_replies in *.
  destruct (goals (inner s) !! id) as [[| | |r st]|] eqn:EG; injection Hf as <- Hi.
  4: {
    unfold reply_result. destruct (reply _ _ s2) as [o3 s3] eqn:E3.
    apply reply_effect in E3 as (I1 & I2 & I3 & I4). rewrite <- Hi in I1.
    intros Ho. assert (s' = s3 /\ (o = None \/ o = Some None)) as [-> Ho'] by (destruct o3; simplify_eq; auto).
    rewrite I1, I2, I3, H1, H2. split_and!; try done. right. split; [done|]. split; [done|].
    unfold result_replies in *. rewrite H3 in I4.
    destruct I4 as [->|(? & ? & ? & ->)]; [auto|]. simplify_eq. right. eauto 8. }
  all: intros [= <- <-]; rewrite H1, H2, H3, <- Hi; cbn; split_and!; try done.
  4: { right. auto. }
  all: left; eexists; split_and!; done.
Qed.

Lemma resume_effect q tx (s : Server) o s' :
  resume_result_request q tx s = (o, s') -> o <> Some false ->
  inner s' = inner s /\ flags s' = flags s /\ channels s' = channels s /\
  exists r st, channels s !! tx = Some (Some (r, st)) /\
    (result_replies s' = result_replies s \/
     result_replies s' = result_replies s ++ [(q, (status_as_i8 st, r))]).
Proof.
  unfold resume_result_request, reply_result.
  destruct (channels s !! tx) as [[[r st]|]|]; [|intros; simplify_eq..].
  destruct (reply _ _ s) as [o3 s3] eqn:E.
  apply reply_effect in E as (I1 & I2 & I3 & I4). intros Ho _.
  assert (s' = s3) as -> by (destruct o3; simplify_eq; done).
  split_and!; try done. exists r, st. split; [done|].
  destruct I4 as [|(? & ? & [= <- <-] & ?)]; auto.
Qed.

Lemma legacy_effect q (s : Server) o s' :
  handle_result_requests_legacy_inner deserialize_result q s = (o, s') ->
  inner s' = inner s /\ flags s' = flags s /\ channels s' = channels s /\
  (result_replies s' = result_replies s \/
   exists bytes id r st t e, payload q = Some bytes /\ deserialize_result bytes = Some id /\
     goals (inner s) !! id = Some (StTerminated r st t e) /\
     result_replies s' = result_replies s ++ [(q, (status_as_i8 st, r))]).
Proof.
  unfold handle_result_requests_legacy_inner, read. run_SM.
  destruct (payload q) as [bytes|] eqn:Ep; [|intros; simplify_eq; auto].
  destruct (deserialize_result bytes) as [id|] eqn:Ed; [|intros; simplify_eq; auto].
  destruct (poisoned s); [intros; simplify_eq; auto|].
  unfold terminated_result. destruct (goals (inner s) !! id) as [[| | |r st]|] eqn:EG;
    try (intros; simplify_eq; auto).
  match goal with H : reply _ _ _ = _ |- _ => apply reply_effect in H as (-> & -> & -> & I4) end.
  split_and!; try done. destruct I4 as [|(? & ? & [= <- <-] & ?)]; eauto 12.
Qed.

Lemma publish_effect stamp_of (s : Server) o s' :
  publish_status stamp_of s = (o, s') ->
  inner s' = inner s /\ flags s' = flags s /\ channels s' = channels s /\
  result_replies s' = result_replies s.
Proof.
  unfold publish_status, read, emit. run_SM. destruct (poisoned s); intros; simplify_eq; [done|].
  unfold result_replies. cbn. rewrite omap_app. cbn. by rewrite app_nil_r.
Qed.

Lemma expire_effect now (s : Server) o s' :
  modify (retain_live now) s = (o, s') ->
  result_futures (inner s') = result_futures (inner s) /\ flags s' = flags s /\
  channels s' = channels s /\ result_replies s' = result_replies s /\
  forall id, goals (inner s') !! id = goals (inner s) !! id \/
    (goals (inner s') !! id = None /\ exists st, goals (inner s) !! id = Some st /\
       should_expire now st = true).
Proof.
  intros [[-> ->]|(Hf & H1 & H2 & H3)]%modify_effect; [auto 8|].
  unfold retain_live in Hf. injection Hf as <- Hi. unfold result_replies.
  rewrite H1, H2, H3, <- Hi. cbn. split_and!; try done.
  intros id. rewrite map_lookup_filter. destruct (goals (inner s) !! id) as [st|] eqn:E; cbn; [|auto].
  destruct (should_expire now st) eqn:Ee; cbn; rewrite ?option_guard_True, ?option_guard_False by auto; eauto.
Qed.

(** ** Preservation: the handles and the table *)

Lemma handle_ok_mono es es' G G' l :
  (forall id, id ∈ requested es -> id ∈ requested es') ->
  (live_id l ∈ ids_of_terminated es' -> live_id l ∈ ids_of_terminated es) ->
  executed es `prefix_of` executed es' ->
  (live_id l ∈ executed es' -> live_id l ∈ executed es) ->
  (G' !! live_id l = G !! live_id l \/ G' !! live_id l = None) ->
  handle_ok es G l -> handle_ok es' G' l.
Proof.
  intros Hr Ht [k Hk] He HG (H1 & H2 & H3). split_and!; [auto|auto|].
  destruct l as [h|h|h]; cbn in *.
  - destruct H3. split; [destruct HG; congruence|auto].
  - destruct H3 as [H3 ?]. split; [|auto].
    destruct HG as [->| ->]; auto.
  - destruct H3 as (f & ? & ? & H3). exists f. split_and!; [done| |].
    + rewrite Hk. by apply lookup_app_l_Some.
    + destruct HG as [->| ->]; auto.
Qed.

Lemma goal_ok_mono es es' id st :
  (id ∈ requested es -> id ∈ requested es') ->
  (id ∈ ids_of_terminated es' -> id ∈ ids_of_terminated es) ->
  terminated es `prefix_of` terminated es' -> executed es `prefix_of` executed es' ->
  goal_ok es id st -> goal_ok es' id st.
Proof.
  intros Hr Ht [k1 H1] [k2 H2] [H3 H4]. split; [auto|].
  destruct st; auto.
  - destruct H4. split; [|auto]. rewrite H2. by apply lookup_app_l_Some.
  - rewrite H1. apply elem_of_app. auto.
Qed.

(** A step that records none of the facts, and only drops handles or entries. *)
Definition same_facts (es es' : list label) : Prop :=
  requested es' = requested es /\ executed es' = executed es /\
  terminated es' = terminated es /\ cancelled es' = cancelled es.

Lemma inv_handles_shrink es es' G G' fl hs hs' :
  same_facts es es' ->
  (forall id, G' !! id = G !! id \/ G' !! id = None) ->
  hs' `sublist_of` hs ->
  inv_handles es G fl hs -> inv_handles es' G' fl hs'.
Proof.
  intros (E1 & E2 & E3 & E4) HG Hs []. unfold ids_of_terminated in *.
  split; unfold ids_of_terminated; rewrite ?E1, ?E2, ?E3, ?E4; try done.
  - apply (sublist_NoDup _ (map live_id hs)); [done|by apply sublist_map].
  - intros l Hl. apply (handle_ok_mono es _ G); unfold ids_of_terminated; rewrite ?E1, ?E2, ?E3; auto.
    apply ih_handles0. by eapply sublist_subseteq.
  - intros id st Hst. apply (goal_ok_mono es); unfold ids_of_terminated; rewrite ?E1, ?E2, ?E3; auto.
    apply ih_goals0. destruct (HG id); congruence.
Qed.

Lemma not_requested es G fl hs id :
  inv_handles es G fl hs -> id ∉ requested es ->
  G !! id = None /\ (id ∉ executed es) /\ (id ∉ ids_of_terminated es).
Proof.
  intros [] Hid. split_and!.
  - destruct (G !! id) as [st|] eqn:E; [|done]. by destruct (ih_goals0 _ _ E).
  - intros ?. auto.
  - intros Ht. unfold ids_of_terminated in Ht.
    apply list_elem_of_fmap in Ht as ([id' [r st]] & -> & Ht). by apply ih_terminated0 in Ht as [].
Qed.

(** A table entry replaced under an identifier that no other handle has. *)
Lemma others_ok es es' G l1 h l2 (st : State) l :
  (forall x, x ∈ l1 ++ h :: l2 -> handle_ok es G x) ->
  NoDup (map live_id (l1 ++ h :: l2)) ->
  (forall id, id ∈ requested es -> id ∈ requested es') ->
  (forall id, id <> live_id h -> id ∈ ids_of_terminated es' -> id ∈ ids_of_terminated es) ->
  executed es `prefix_of` executed es' ->
  (forall id, id <> live_id h -> id ∈ executed es' -> id ∈ executed es) ->
  l ∈ l1 ++ l2 -> handle_ok es' (<[live_id h := st]> G) l.
Proof.
  intros Hok Hn Hr Ht Hp He Hl.
  pose proof (NoDup_map_others _ _ _ _ _ Hn Hl) as Hne.
  apply (handle_ok_mono es _ G); auto.
  - left. by rewrite lookup_insert_ne.
  - apply Hok. by eapply sublist_subseteq, Hl; apply sublist_remove.
Qed.

Ltac facts := unfold requested, executed, terminated, cancelled, channel_goals, ids_of_terminated in *;
  rewrite ?omap_app, ?map_app; cbn [omap list_omap map]; rewrite ?app_nil_r.

Lemma ih_request es G fl hs a (h : GoalHandle MRequested) :
  handle_id h ∉ requested es ->
  inv_handles es G fl hs ->
  inv_handles (es ++ [LRequest a (handle_id h)]) G fl (LvReq h :: hs).
Proof.
  intros Hid I. destruct (not_requested _ _ _ _ _ I Hid) as (HG & He & Ht). destruct I.
  assert (requested (es ++ [LRequest a (handle_id h)]) = requested es ++ [handle_id h]) as E1 by by facts.
  assert (executed (es ++ [LRequest a (handle_id h)]) = executed es) as E2 by by facts.
  assert (terminated (es ++ [LRequest a (handle_id h)]) = terminated es) as E3 by by facts.
  assert (cancelled (es ++ [LRequest a (handle_id h)]) = cancelled es) as E4 by by facts.
  assert (forall id, id ∈ requested es -> id ∈ requested es ++ [handle_id h]) as Hsub
    by (intros; apply elem_of_app; auto).
  split; unfold ids_of_terminated in *; rewrite ?E1, ?E2, ?E3, ?E4; try done; auto.
  - cbn. apply NoDup_cons. split; [|done]. intros Hin.
    apply list_elem_of_fmap in Hin as (l & Heq & Hin).
    destruct (ih_handles0 _ Hin) as (Hr & _ & _). congruence.
  - intros l [->|Hl]%elem_of_cons.
    + unfold handle_ok, ids_of_terminated. rewrite E1, E2, E3. cbn.
      split_and!; auto. apply elem_of_app. right. by left.
    + apply (handle_ok_mono es _ G); unfold ids_of_terminated; rewrite ?E1, ?E2, ?E3; auto.
  - intros id st Hst. apply (goal_ok_mono es); unfold ids_of_terminated; rewrite ?E1, ?E2, ?E3; auto.
  - intros id r st Hin. destruct (ih_terminated0 _ _ _ Hin). split; [auto|done].
Qed.

(** The handle of the identifier rewritten, and its entry with it. *)
Lemma handles_replace es es' G l1 h h' l2 (st : State) :
  (forall x, x ∈ l1 ++ h :: l2 -> handle_ok es G x) ->
  NoDup (map live_id (l1 ++ h :: l2)) ->
  (forall id, id ∈ requested es -> id ∈ requested es') ->
  (forall id, id <> live_id h -> id ∈ ids_of_terminated es' -> id ∈ ids_of_terminated es) ->
  executed es `prefix_of` executed es' ->
  (forall id, id <> live_id h -> id ∈ executed es' -> id ∈ executed es) ->
  live_id h' = live_id h -> handle_ok es' (<[live_id h := st]> G) h' ->
  NoDup (map live_id (l1 ++ h' :: l2)) /\
  (forall x, x ∈ l1 ++ h' :: l2 -> handle_ok es' (<[live_id h := st]> G) x).
Proof.
  intros Hok Hn Hr Ht Hp He Hid Hh. split; [by rewrite map_app, map_cons, Hid, <- map_cons, <- map_app|].
  intros x Hx. rewrite elem_of_app, elem_of_cons in Hx.
  destruct Hx as [Hx|[->|Hx]]; [|done|];
    eapply others_ok; eauto; apply elem_of_app; auto.
Qed.

(** [accept] replaces the handle and writes the entry, or panics before. *)
Lemma ih_accept es G G' fl l1 (h : GoalHandle MRequested) l2 o t :
  (o = None /\ G' = G \/
   o = Some (mkHandle (goal h) (info h) None None) /\
   exists e, G' = <[handle_id h := StAccepted (goal h) t e]> G) ->
  inv_handles es G fl (l1 ++ LvReq h :: l2) ->
  inv_handles (es ++ [LAccept (handle_id h)]) G' fl (l1 ++ olist LvAcc o ++ l2).
Proof.
  intros Ho I.
  assert (same_facts es (es ++ [LAccept (handle_id h)])) as Hs by (split_and!; by facts).
  destruct Ho as [[-> ->]|[-> [e ->]]].
  { apply (inv_handles_shrink es _ G _ _ (l1 ++ LvReq h :: l2)); auto. apply sublist_remove. }
  destruct (inv_handles_shrink es _ G G fl _ (l1 ++ LvReq h :: l2) Hs ltac:(auto) ltac:(done) I).
  set (es' := es ++ _) in *. clearbody es'. clear I Hs es.
  destruct (ih_handles0 (LvReq h)) as (H1 & H2 & H3 & H4); [apply elem_of_app; right; by left|].
  cbn in H1, H2.
  destruct (handles_replace es' es' G l1 (LvReq h) (LvAcc (mkHandle (goal h) (info h) None None)) l2
    (StAccepted (goal h) t e)) as [J1 J2]; auto.
  { unfold handle_ok. cbn. split_and!; auto. right. exists t, e. apply lookup_insert_eq. }
  split; auto.
  intros id st. rewrite lookup_insert_Some. intros [[<- <-]|[? ?]]; [|auto]. by split.
Qed.

Lemma prefix_app_r' {A} (l k : list A) : l `prefix_of` l ++ k.
Proof. by exists k. Qed.

Lemma lookup_snoc_Some' {A} (l : list A) x i y :
  (l ++ [x]) !! i = Some y -> (l !! i = Some y) \/ (i = length l /\ x = y).
Proof.
  intros [H|[Hi H]]%lookup_app_Some; [auto|]. right.
  apply list_lookup_singleton_Some in H as [H ->]. split; [lia|done].
Qed.

(** [execute] allocates the flag, then replaces the handle and the entry. *)
Lemma ih_execute es G G' fl l1 (h : GoalHandle MAccepted) l2 o :
  (o = None /\ G' = G \/
   o = Some (mkHandle (goal h) (info h) None (Some (length fl))) /\
   exists e, G' = <[handle_id h := StExecuting (goal h) (length fl) e]> G) ->
  inv_handles es G fl (l1 ++ LvAcc h :: l2) ->
  inv_handles (es ++ [LExecute (handle_id h)]) G' (fl ++ [false]) (l1 ++ olist LvExe o ++ l2).
Proof.
  intros Ho I. destruct I.
  assert (requested (es ++ [LExecute (handle_id h)]) = requested es) as E1 by by facts.
  assert (executed (es ++ [LExecute (handle_id h)]) = executed es ++ [handle_id h]) as E2 by by facts.
  assert (terminated (es ++ [LExecute (handle_id h)]) = terminated es) as E3 by by facts.
  assert (cancelled (es ++ [LExecute (handle_id h)]) = cancelled es) as E4 by by facts.
  set (es' := es ++ _) in *. clearbody es'.
  assert (ids_of_terminated es' = ids_of_terminated es) as E5 by (unfold ids_of_terminated; by rewrite E3).
  destruct (ih_handles0 (LvAcc h)) as (H1 & H2 & H3 & H4); [apply elem_of_app; right; by left|].
  cbn in H1, H2.
  assert (executed es' !! length fl = Some (handle_id h)) as Hf.
  { rewrite E2, ih_flag_count0. by apply list_lookup_middle. }
  assert (executed es `prefix_of` executed es') as Hp by (rewrite E2; apply prefix_app_r').
  assert (forall id st, G !! id = Some st -> goal_ok es' id st) as HG.
  { intros. apply (goal_ok_mono es); rewrite ?E1, ?E3, ?E5; auto. }
  assert (forall l, l ∈ l1 ++ l2 -> handle_ok es' G l) as Hoth.
  { intros l Hl. pose proof (NoDup_map_others _ _ _ _ _ ih_nodup0 Hl) as Hne.
    apply (handle_ok_mono es _ G); rewrite ?E1, ?E5; auto.
    - rewrite E2. intros [?|Hx%list_elem_of_singleton]%elem_of_app; [done|]. by destruct Hne.
    - apply ih_handles0. eapply sublist_subseteq, Hl. apply sublist_remove. }
  assert (NoDup (map live_id (l1 ++ olist LvExe o ++ l2)) /\
    (forall l, l ∈ l1 ++ olist LvExe o ++ l2 -> handle_ok es' G' l) /\
    (forall id st, G' !! id = Some st -> goal_ok es' id st)) as (J1 & J2 & J3).
  { destruct Ho as [[-> ->]|[-> [e ->]]]; cbn.
    - split_and!; [|done|done].
      apply (sublist_NoDup _ (map live_id (l1 ++ LvAcc h :: l2))); [done|].
      apply sublist_map, sublist_remove.
    - apply and_assoc. split.
      + apply (handles_replace es es' G l1 (LvAcc h)); rewrite ?E1, ?E5; auto.
        * rewrite E2. intros id Hne [?|Hx%list_elem_of_singleton]%elem_of_app; done.
        * unfold handle_ok. rewrite E1, E5. cbn. split_and!; auto. exists (length fl).
          split_and!; auto. right. exists e. apply lookup_insert_eq.
      + intros id st. rewrite lookup_insert_Some. intros [[<- <-]|[? ?]]; [|auto].
        split; rewrite ?E1, ?E5; auto. }
  split; auto; rewrite ?E1, ?E3, ?E4, ?E5; auto.
  - intros id. rewrite E2. intros [?| ->%list_elem_of_singleton]%elem_of_app; auto.
  - rewrite E2. apply NoDup_app. split_and!; [done| |apply NoDup_singleton].
    intros x Hx ->%list_elem_of_singleton. auto.
  - rewrite E2, !length_app, ih_flag_count0. done.
  - intros f id. rewrite E2. intros [Hl|[-> <-]]%lookup_snoc_Some'.
    + rewrite lookup_app_l by (rewrite ih_flag_count0; by eapply lookup_lt_Some). auto.
    + rewrite <- ih_flag_count0, list_lookup_middle by done. split; [done|].
      intros Hc. apply ih_cancelled0 in Hc. done.
  - rewrite E2. intros id Hc. apply elem_of_app. auto.
Qed.

(** [terminate] consumes the handle and writes the final entry. *)
Lemma ih_terminate es G fl l1 (h : GoalHandle MExecuting) l2 r st now e :
  is_terminal st = true ->
  inv_handles es G fl (l1 ++ LvExe h :: l2) ->
  inv_handles (es ++ [LTerminate (handle_id h) r st])
    (<[handle_id h := StTerminated r st now e]> G) fl (l1 ++ l2).
Proof.
  intros Hst I. destruct I.
  set (es' := es ++ _) in *.
  assert (requested es' = requested es) as E1 by (subst es'; by facts).
  assert (executed es' = executed es) as E2 by (subst es'; by facts).
  assert (terminated es' = terminated es ++ [(handle_id h, (r, st))]) as E3 by (subst es'; by facts).
  assert (cancelled es' = cancelled es) as E4 by (subst es'; by facts).
  assert (ids_of_terminated es' = ids_of_terminated es ++ [handle_id h]) as E5
    by (unfold ids_of_terminated; by rewrite E3, map_app).
  clearbody es'.
  destruct (ih_handles0 (LvExe h)) as (H1 & H2 & f & Hf & Hx & H3); [apply elem_of_app; right; by left|].
  cbn in H1, H2.
  assert (forall id, id <> handle_id h -> id ∈ ids_of_terminated es' -> id ∈ ids_of_terminated es) as Ht.
  { rewrite E5. intros id Hne [?|Hy%list_elem_of_singleton]%elem_of_app; done. }
  split; rewrite ?E1, ?E2, ?E4; auto.
  - apply (sublist_NoDup _ (map live_id (l1 ++ LvExe h :: l2))); [done|].
    apply sublist_map, sublist_remove.
  - intros l Hl. apply (others_ok es es' G l1 (LvExe h) l2); rewrite ?E1, ?E2; auto.
  - intros id st'. rewrite lookup_insert_Some. intros [[<- <-]|[Hne Hid]].
    + split; [by rewrite E1|]. rewrite E3. apply elem_of_app. right. by left.
    + apply (goal_ok_mono es); rewrite ?E1, ?E2, ?E3; auto using prefix_app_r'.
  - rewrite E3. intros id r' st' [Hin|Heq%list_elem_of_singleton]%elem_of_app; [by eapply ih_terminated0|].
    simplify_eq. auto.
  - rewrite E5. apply NoDup_app. split_and!; [done| |apply NoDup_singleton].
    intros x Hi ->%list_elem_of_singleton. auto.
Qed.

(** A cancel request that reaches an executing goal sets its flag. *)
Lemma ih_cancel es G fl hs a id f :
  match G !! id with Some (StExecuting _ f' _) => Some f' | _ => None end = Some f ->
  inv_handles es G fl hs ->
  inv_handles (es ++ [LCancel a id true]) G (<[f := true]> fl) hs.
Proof.
  intros Hf I. destruct I.
  set (es' := es ++ _) in *.
  assert (requested es' = requested es) as E1 by (subst es'; by facts).
  assert (executed es' = executed es) as E2 by (subst es'; by facts).
  assert (terminated es' = terminated es) as E3 by (subst es'; by facts).
  assert (cancelled es' = cancelled es ++ [id]) as E4 by (subst es'; by facts).
  assert (ids_of_terminated es' = ids_of_terminated es) as E5 by (unfold ids_of_terminated; by rewrite E3).
  clearbody es'.
  destruct (G !! id) as [[|g f' e| |]|] eqn:EG; simplify_eq.
  destruct (ih_goals0 _ _ EG) as (H1 & H2 & H3).
  split; rewrite ?E1, ?E2, ?E3, ?E5; auto.
  - intros l Hl. apply (handle_ok_mono es _ G); rewrite ?E1, ?E2, ?E5; auto.
  - intros id' st Hid. apply (goal_ok_mono es); rewrite ?E1, ?E2, ?E3, ?E5; auto.
  - by rewrite length_insert.
  - intros f' id' Hl. rewrite E4, elem_of_app, list_elem_of_singleton.
    destruct (decide (f' = f)) as [->|Hne].
    + rewrite list_lookup_insert_eq by (rewrite ih_flag_count0; by eapply lookup_lt_Some).
      simplify_eq. split; auto.
    + rewrite list_lookup_insert_ne by done. rewrite ih_flags0 by done.
      split; [auto|]. intros [?| ->]; [done|]. destruct Hne. by eapply NoDup_lookup.
  - intros id'. rewrite E4. intros [?| ->%list_elem_of_singleton]%elem_of_app; [auto|].
    by eapply list_elem_of_lookup_2.
Qed.

(** ** Preservation: the channels and the replies *)


(** A reply that the history justifies. *)
Definition reply_ok (es : list label) (x : Query * (Z * Result)) : Prop :=
  exists bytes id st, payload x.1 = Some bytes /\ deserialize_result bytes = Some id /\
    x.2.1 = status_as_i8 st /\ (id, (x.2.2, st)) ∈ terminated es.

Lemma ir_neutral es es' F ch snds ws ws' rr rr' :
  channel_goals es' = channel_goals es -> terminated es' = terminated es ->
  (forall x, x ∈ ws' -> x ∈ ws) ->
  (rr' = rr \/ exists x, rr' = rr ++ [x] /\ reply_ok es x) ->
  inv_results es F ch snds ws rr -> inv_results es' F ch snds ws' rr'.
Proof.
  intros E1 E2 Hw Hr []. split; unfold ids_of_terminated; rewrite ?E1, ?E2; auto.
  intros q code r Hin. destruct Hr as [->|(x & -> & Hx)]; [by apply ir_replies0|].
  apply elem_of_app in Hin as [?|Hin]; [by apply ir_replies0|].
  apply list_elem_of_singleton in Hin as <-. done.
Qed.

Lemma ir_terminate es F ch snds ws rr id r st :
  inv_results es F ch snds ws rr ->
  inv_results (es ++ [LTerminate id r st]) (delete id F) ch
    (snds ++ map (fun tx => (tx, r, st)) (default [] (F !! id))) ws rr.
Proof.
  intros []. set (es' := es ++ _).
  assert (channel_goals es' = channel_goals es) as E1 by (subst es'; by facts).
  assert (terminated es' = terminated es ++ [(id, (r, st))]) as E2 by (subst es'; by facts).
  assert (ids_of_terminated es' = ids_of_terminated es ++ [id]) as E3
    by (unfold ids_of_terminated; by rewrite E2, map_app).
  clearbody es'.
  assert (forall x, x ∈ terminated es -> x ∈ terminated es') as Hsub
    by (rewrite E2; intros; apply elem_of_app; auto).
  assert ((id, (r, st)) ∈ terminated es') as Hnew by (rewrite E2; apply elem_of_app; right; by left).
  split; rewrite ?E1; auto.
  - intros id'. rewrite E3, elem_of_app, list_elem_of_singleton, lookup_delete_None.
    intros [?| ->]; auto.
  - intros id' l tx [_ Hl]%lookup_delete_Some. by apply ir_futures0.
  - intros tx r' st' [Hin|Hin]%elem_of_app.
    + apply ir_sends0 in Hin as (i & ? & ?). eauto.
    + apply list_elem_of_fmap in Hin as (tx' & Heq & Hin). simplify_eq.
      exists id. split; [|done]. destruct (F !! id) as [l|] eqn:El; cbn in Hin; [eauto|].
      by apply elem_of_nil in Hin.
  - intros tx r' st' Hc. apply ir_channels0 in Hc as (i & ? & ?). eauto.
  - intros x Hx. destruct (ir_waiters0 _ Hx) as (H1 & H2 & H3). split_and!; [done|done|].
    destruct H3 as [(l & Hl & Hin)|[(r' & st' & Hin)|]]; [|right; left; exists r', st'; apply elem_of_app; auto|auto].
    destruct (decide (w_goal x = id)) as [<-|Hne].
    + right. left. exists r, st. apply elem_of_app. right. rewrite Hl. cbn.
      apply (list_elem_of_fmap_2 (fun tx => (tx, r, st))). done.
    + left. exists l. by rewrite lookup_delete_ne.
  - intros q code r' Hin. destruct (ir_replies0 _ _ _ Hin) as (b & i & s & ? & ? & ? & ?). eauto 10.
Qed.

Lemma ir_send es es' F ch l1 tx r st l2 ws rr :
  channel_goals es' = channel_goals es -> terminated es' = terminated es ->
  inv_results es F ch (l1 ++ (tx, r, st) :: l2) ws rr ->
  inv_results es' F (<[tx := Some (r, st)]> ch) (l1 ++ l2) ws rr.
Proof.
  intros E1 E2 [].
  destruct (ir_sends0 tx r st) as (id & Hc & Ht); [apply elem_of_app; right; by left|].
  assert (tx < length ch)%nat as Hlt by (rewrite ir_count0; by eapply lookup_lt_Some).
  split; unfold ids_of_terminated; rewrite ?E1, ?E2; auto.
  - by rewrite length_insert.
  - intros tx' r' st' Hin. apply ir_sends0.
    eapply sublist_subseteq, Hin. apply sublist_remove.
  - intros tx' r' st' Hl. apply list_lookup_insert_Some in Hl as [(<- & Hl & _)|[_ Hl]]; [|auto].
    simplify_eq. eauto.
  - intros x Hx. destruct (ir_waiters0 _ Hx) as (H1 & H2 & H3). split_and!; [done|done|].
    destruct (decide (w_rx x = tx)) as [->|Hne].
    { right. right. exists r, st. by rewrite list_lookup_insert_eq. }
    destruct H3 as [?|[(r' & st' & Hin)|(r' & st' & Hin)]]; [auto| |].
    + right. left. exists r', st'. rewrite elem_of_app, elem_of_cons in Hin. apply elem_of_app.
      destruct Hin as [?|[?|?]]; [auto|congruence|auto].
    + right. right. exists r', st'. by rewrite list_lookup_insert_ne.
Qed.

Lemma ir_result es F F' ch snds ws ws' rr rr' id :
  (F' = F /\ ws' = ws \/
   F' = <[id := default [] (F !! id) ++ [length ch]]> F /\ id ∉ ids_of_terminated es /\
   exists q bytes, ws' = ws ++ [mkWaiter q id (length ch)] /\
     payload q = Some bytes /\ deserialize_result bytes = Some id) ->
  (rr' = rr \/ exists x, rr' = rr ++ [x] /\ reply_ok es x) ->
  inv_results es F ch snds ws rr ->
  inv_results (es ++ [LResult id]) F' (ch ++ [None]) snds ws' rr'.
Proof.
  intros HF Hr [].
  assert (channel_goals (es ++ [LResult id]) = channel_goals es ++ [id]) as E1 by by facts.
  assert (terminated (es ++ [LResult id]) = terminated es) as E2 by by facts.
  assert (forall tx i, channel_goals es !! tx = Some i -> (channel_goals es ++ [id]) !! tx = Some i) as Hsub
    by (intros; by apply lookup_app_l_Some).
  assert ((channel_goals es ++ [id]) !! length ch = Some id) as Hnew
    by (rewrite ir_count0; by apply list_lookup_middle).
  split; unfold ids_of_terminated; rewrite ?E1, ?E2; auto.
  - by rewrite !length_app, ir_count0.
  - intros i Hi. destruct HF as [[-> _]|(-> & Hn & _)]; [by apply ir_terminated0|].
    rewrite lookup_insert_ne by (intros ->; done). by apply ir_terminated0.
  - intros i l tx Hl Hin. destruct HF as [[-> _]|(-> & Hn & _)]; [eauto|].
    apply lookup_insert_Some in Hl as [[<- <-]|[_ Hl]]; [|eauto].
    apply elem_of_app in Hin as [Hin| ->%list_elem_of_singleton]; [|done].
    destruct (F !! id) as [l|] eqn:El; cbn in Hin; [eauto|]. by apply elem_of_nil in Hin.
  - intros tx r st Hin. destruct (ir_sends0 _ _ _ Hin) as (i & ? & ?). eauto.
  - intros tx r st [Hl|[_ ?]]%lookup_snoc_Some'; [|done].
    destruct (ir_channels0 _ _ _ Hl) as (i & ? & ?). eauto.
  - assert (forall x, x ∈ ws -> (exists bytes, payload (w_query x) = Some bytes /\
      deserialize_result bytes = Some (w_goal x)) /\
      (channel_goals es ++ [id]) !! w_rx x = Some (w_goal x) /\
      ((exists l, F' !! w_goal x = Some l /\ w_rx x ∈ l) \/
       (exists r st, (w_rx x, r, st) ∈ snds) \/
       (exists r st, (ch ++ [None]) !! w_rx x = Some (Some (r, st))))) as Hold.
    { intros x Hx. destruct (ir_waiters0 _ Hx) as (H1 & H2 & H3). split_and!; [done|auto|].
      destruct H3 as [(l & Hl & Hin)|[?|(r & st & Hl)]]; [left|auto|right; right].
      - destruct HF as [[-> _]|(-> & _)]; [eauto|].
        destruct (decide (w_goal x = id)) as [<-|Hne].
        + eexists. rewrite lookup_insert_eq, Hl. split; [done|]. apply elem_of_app. auto.
        + exists l. by rewrite lookup_insert_ne.
      - exists r, st. by apply lookup_app_l_Some. }
    intros x Hx. destruct HF as [[_ ->]|(-> & _ & q & bytes & -> & Hq & Hd)]; [auto|].
    apply elem_of_app in Hx as [?| ->%list_elem_of_singleton]; [auto|]. cbn.
    split_and!; [eauto|done|]. left. eexists. rewrite lookup_insert_eq. split; [done|].
    apply elem_of_app. right. by left.
  - intros q code r Hin. destruct Hr as [->|(x & -> & Hx)]; [by apply ir_replies0|].
    apply elem_of_app in Hin as [?|Hin]; [by apply ir_replies0|].
    apply list_elem_of_singleton in Hin as <-. done.
Qed.

(** ** Every step keeps the invariant *)

Lemma same_facts_neutral es l :
  (forall a id, l <> LRequest a id) -> (forall id, l <> LExecute id) ->
  (forall id r st, l <> LTerminate id r st) -> (forall a id, l <> LCancel a id true) ->
  same_facts es (es ++ [l]).
Proof.
  intros H1 H2 H3 H4. split_and!; facts; destruct l; cbn; repeat case_match; simplify_eq;
    rewrite ?app_nil_r; try done; exfalso.
  - by eapply H1.
  - by eapply H2.
  - by eapply H3.
  - by eapply H4.
Qed.

(** A step that touches neither the flags nor the channels. *)
Lemma inv_quiet es w l w' :
  inv es w -> same_facts es (es ++ [l]) -> channel_goals (es ++ [l]) = channel_goals es ->
  (forall id, goals (inner (srv w')) !! id = goals (inner (srv w)) !! id \/
     goals (inner (srv w')) !! id = None) ->
  handles w' `sublist_of` handles w -> flags (srv w') = flags (srv w) ->
  channels (srv w') = channels (srv w) ->
  result_futures (inner (srv w')) = result_futures (inner (srv w)) ->
  sends w' = sends w -> (forall x, x ∈ waiters w' -> x ∈ waiters w) ->
  (result_replies (srv w') = result_replies (srv w) \/
   exists x, result_replies (srv w') = result_replies (srv w) ++ [x] /\ reply_ok es x) ->
  inv (es ++ [l]) w'.
Proof.
  intros [IH IR] Hf Hc HG Hh Hfl Hch HF Hsn Hw Hr. pose proof Hf as (_ & _ & Ht & _). split.
  - rewrite Hfl. by apply (inv_handles_shrink es _ (goals (inner (srv w))) _ _ (handles w)).
  - rewrite Hch, HF, Hsn. by apply (ir_neutral es _ _ _ _ (waiters w) _ (result_replies (srv w))).
Qed.

Ltac quiet_step w :=
  apply (inv_quiet _ w); cbn [srv handles sends waiters];
  [done | by apply same_facts_neutral | by facts | .. ]; auto using sublist_remove.

Lemma terminated_entry es G fl hs id r st t e :
  inv_handles es G fl hs -> G !! id = Some (StTerminated r st t e) ->
  (id, (r, st)) ∈ terminated es.
Proof. intros I Hid. by destruct (ih_goals _ _ _ _ I _ _ Hid). Qed.

Lemma recv_goal_effect q now (h : GoalHandle MRequested) (s s' : Server) :
  recv_goal deserialize_goal q now s = (Some (Some h), s') -> s' = s.
Proof.
  unfold recv_goal. run_SM. destruct (payload q) as [bytes|]; [|done].
  destruct (deserialize_goal bytes) as [[? ?]|]; intros; by simplify_eq.
Qed.

Lemma executing_flag_entry id (m : GoalManagerInternal (Goal := Goal) (Result := Result)) :
  executing_flag id m = match goals m !! id with Some (StExecuting _ f _) => Some f | _ => None end.
Proof. done. Qed.

(** A cancel request, with what its reply adds. *)
Lemma inv_cancel es w a id b s' hs dr :
  inv es w -> hs = handles w ->
  inner s' = inner (srv w) -> channels s' = channels (srv w) ->
  result_replies s' = result_replies (srv w) ->
  match b with
  | true => exists f, executing_flag id (inner (srv w)) = Some f /\ flags s' = <[f := true]> (flags (srv w))
  | false => executing_flag id (inner (srv w)) = None /\ flags s' = flags (srv w)
  end ->
  inv (es ++ [LCancel a id b]) (mkWorld s' hs (sends w) (waiters w) dr).
Proof.
  intros I -> Hi Hch Hr Hb. pose proof I as [IH IR]. destruct b.
  - destruct Hb as (f & Hf & Hfl). split; cbn; rewrite Hi.
    + rewrite Hfl. by apply ih_cancel.
    + rewrite Hch, Hr. apply (ir_neutral es _ _ _ _ (waiters w) _ (result_replies (srv w))); auto; by facts.
  - destruct Hb as [_ Hfl].
    apply (inv_quiet _ w); cbn; auto; rewrite ?Hi; auto; [apply same_facts_neutral; done|by facts].
Qed.

Lemma inv_accept es w l1 (h : GoalHandle MRequested) l2 t1 t2 o s' :
  inv es w -> handles w = l1 ++ LvReq h :: l2 ->
  accept_section h t1 t2 (srv w) = (o, s') ->
  inv (es ++ [LAccept (handle_id h)])
    (mkWorld s' (l1 ++ olist LvAcc o ++ l2) (sends w) (waiters w) (drivers w)).
Proof.
  intros [IH IR] Hh ((HF & Hfl & Hch & Hr) & Hg)%accept_effect. rewrite Hh in IH. split; cbn.
  - rewrite Hfl. by eapply ih_accept.
  - rewrite HF, Hch, Hr. eapply (ir_neutral es); try exact IR; auto; by facts.
Qed.

Lemma inv_execute es w l1 (h : GoalHandle MAccepted) l2 t o s' :
  inv es w -> handles w = l1 ++ LvAcc h :: l2 ->
  execute_section h t (srv w) = (o, s') ->
  inv (es ++ [LExecute (handle_id h)])
    (mkWorld s' (l1 ++ olist LvExe o ++ l2) (sends w) (waiters w) (drivers w)).
Proof.
  intros [IH IR] Hh (HF & Hfl & Hch & Hr & Hg)%execute_effect. rewrite Hh in IH. split; cbn.
  - rewrite Hfl. by eapply ih_execute.
  - rewrite HF, Hch, Hr. eapply (ir_neutral es); try exact IR; auto; by facts.
Qed.

Lemma inv_terminate es w l1 (h : GoalHandle MExecuting) l2 r st now txs s' :
  inv es w -> handles w = l1 ++ LvExe h :: l2 -> is_terminal st = true ->
  modify (insert_terminated (handle_id h) r st now) (srv w) = (Some txs, s') ->
  inv (es ++ [LTerminate (handle_id h) r st])
    (mkWorld s' (l1 ++ l2) (sends w ++ map (fun tx => (tx, r, st)) txs) (waiters w) (drivers w)).
Proof.
  intros [IH IR] Hh Hst (Hfl & Hch & Hr & [[? _]|(Htx & HF & e & HG)])%terminate_effect; [done|].
  rewrite Hh in IH. injection Htx as ->. split; cbn.
  - rewrite Hfl, HG. by apply ih_terminate.
  - rewrite HF, Hch, Hr. by apply ir_terminate.
Qed.

Lemma inv_result es w q bytes id o s' dr :
  inv es w -> payload q = Some bytes -> deserialize_result bytes = Some id ->
  handle_result_request deserialize_result q (srv w) = (o, s') ->
  inv (es ++ [LResult id]) (mkWorld s' (handles w) (sends w)
    (match o with Some (Some (id', rx)) => waiters w ++ [mkWaiter q id' rx] | _ => waiters w end) dr).
Proof.
  intros [IH IR] Hp Hd Hr. apply (result_effect _ _ _ _ _ _ Hp Hd) in Hr as (HG & Hfl & Hch & Hr).
  split; cbn.
  - rewrite HG, Hfl. apply (inv_handles_shrink es _ (goals (inner (srv w))) _ _ (handles w)); auto.
    by apply same_facts_neutral.
  - rewrite Hch. apply (ir_result es (result_futures (inner (srv w))) _ _ _ (waiters w) _
      (result_replies (srv w))); [| |done].
    + destruct Hr as [(st & -> & Hst & Hnt & _ & HF)|([-> | ->] & HF & _)]; [right|auto..].
      split_and!; [done| |eauto 6].
      destruct (ih_goals _ _ _ _ IH _ _ Hst) as [_ Hok].
      destruct st as [| | |r' st' t' e']; [done|apply Hok|done|]. by destruct (Hnt r' st' t' e').
    + destruct Hr as [(st & _ & _ & _ & -> & _)|(_ & _ & [->|(r & st & t & e & Hg & ->)])]; [auto..|].
      right. eexists. split; [done|]. exists bytes, id, st. cbn. split_and!; try done.
      by eapply terminated_entry.
Qed.

Lemma step_inv es w l w' :
  inv es w -> step w l w' -> NoDup (requested (es ++ [l])) -> inv (es ++ [l]) w'.
Proof.
  intros I Hs Hn. pose proof I as [IH IR]. destruct Hs.
  - quiet_step w.
  - quiet_step w.
  - apply recv_goal_effect in H0 as ->. split; cbn.
    + apply ih_request; [|done]. revert Hn. facts. intros (_ & Hn & _)%NoDup_app Hi.
      apply (Hn _ Hi). by left.
    + eapply (ir_neutral es); try exact IR; auto; by facts.
  - by eapply inv_accept.
  - apply answer_effect in H0 as (HG & HF & Hfl & Hch & Hr).
    quiet_step w; rewrite ?HG, ?H; auto using sublist_remove.
  - by eapply inv_execute.
  - by eapply inv_terminate.
  - apply terminate_effect in H0 as (Hfl & Hch & Hr & [[_ Hi]|[? _]]); [|done].
    quiet_step w; rewrite ?Hi, ?H; auto using sublist_remove.
  - unfold send_result in H0. injection H0 as <- <-. split; cbn.
    + apply (inv_handles_shrink es _ (goals (inner (srv w))) _ _ (handles w)); auto.
      by apply same_facts_neutral.
    + rewrite H in IR. eapply (ir_send es); try exact IR; by facts.
  - quiet_step w. rewrite H. apply sublist_remove.
  - apply publish_effect in H as (Hi & Hfl & Hch & Hr). quiet_step w; rewrite ?Hi; auto.
  - unfold publish_feedback, emit in H0. injection H0 as <- <-. quiet_step w.
    left. unfold result_replies. cbn. by rewrite omap_app, app_nil_r.
  - apply request_cancel_effect in H as (Hi & Hch & Hsn & Hb).
    apply inv_cancel; auto. unfold result_replies. by rewrite Hsn.
  - destruct (handle_cancel_effect _ _ _ _ _ _ _ _ H0 H1 H2 H3) as (J1 & J2 & J3 & J4).
    apply request_cancel_effect in H2 as (Hi & Hch & Hsn & Hb).
    apply inv_cancel; auto; rewrite ?J1, ?J2, ?J3, ?J4; auto. unfold result_replies. by rewrite Hsn.
  - by eapply inv_result.
  - apply resume_effect in H0 as (Hi & Hfl & Hch & r & st & Hc & Hr); [|done].
    quiet_step w; rewrite ?Hi, ?H; auto.
    { intros y. rewrite !elem_of_app, elem_of_cons. naive_solver. }
    destruct Hr as [->| ->]; [auto|]. right. eexists. split; [done|].
    destruct (ir_waiters _ _ _ _ _ _ IR x) as ((bytes & Hp & Hd) & Hg & _);
      [rewrite H; apply elem_of_app; right; by left|].
    destruct (ir_channels _ _ _ _ _ _ IR _ _ _ Hc) as (id & Hg' & Ht).
    exists bytes, (w_goal x), st. cbn. split_and!; try done. congruence.
  - apply legacy_effect in H as (Hi & Hfl & Hch & Hr). quiet_step w; rewrite ?Hi; auto.
    destruct Hr as [->|(bytes & id & r & st & t & e & Hp & Hd & Hg & ->)]; [auto|].
    right. eexists. split; [done|]. exists bytes, id, st. cbn. split_and!; try done.
    by eapply terminated_entry.
  - apply expire_effect in H0 as (HF & Hfl & Hch & Hr & HG). quiet_step w.
    intros id. destruct (HG id) as [?|[? _]]; auto.
  - unfold set_result_timeout in H. apply modify_effect in H as [[_ ->]|(Hf & Hfl & Hch & Hsn)]; [quiet_step w|].
    injection Hf as _ Hf. quiet_step w; try (rewrite <- Hf; auto). left. unfold result_replies. by rewrite Hsn.
Qed.

Lemma inv_new rt gt : inv [] (world_new (server_new rt gt)).
Proof.
  split; split; cbn; try done; try (intros; set_solver); try apply NoDup_nil_2;
    try (intros; rewrite lookup_empty in *; done).
Qed.

Lemma run_inv w es w' :
  (exists rt gt, w = world_new (server_new rt gt)) -> run w es w' ->
  NoDup (requested es) -> inv es w'.
Proof.
  intros (rt & gt & Hw) Hr. induction Hr as [|w es w' l w'' Hr IH Hs]; intros Hn.
  - subst. apply inv_new.
  - eapply step_inv; eauto. apply IH; [done|]. revert Hn. unfold requested. rewrite omap_app.
    intros Hn%NoDup_app. apply Hn.
Qed.

(** ** Consequences *)

Lemma run_one (w : World) (l : label) w' : step w l w' -> run w [l] w'.
Proof. intros H. eapply (run_snoc _ _ _ _ []); [constructor|done]. Qed.

Lemma run_app (w : World) es1 w1 es2 w2 : run w es1 w1 -> run w1 es2 w2 -> run w (es1 ++ es2) w2.
Proof.
  intros H1 H2. induction H2; [by rewrite app_nil_r|].
  rewrite app_assoc. eapply run_snoc; eauto.
Qed.

Lemma run_cons (w : World) l w1 es w2 : step w l w1 -> run w1 es w2 -> run w (l :: es) w2.
Proof. intros H1 H2. change (l :: es) with ([l] ++ es). eapply run_app; [by apply run_one|done]. Qed.

Lemma requested_app es1 es2 : requested (es1 ++ es2) = requested (Result := Result) es1 ++ requested es2.
Proof. unfold requested. apply omap_app. Qed.

(** What a step writes in the table. *)
Lemma step_goals (w : World) l w' :
  step w l w' ->
  goals (inner (srv w')) = goals (inner (srv w)) \/
  (exists a now, l = LExpire a now /\ forall id,
     goals (inner (srv w')) !! id = goals (inner (srv w)) !! id \/
     (goals (inner (srv w')) !! id = None /\
      exists st, goals (inner (srv w)) !! id = Some st /\ should_expire now st = true)) \/
  exists h (st : State), h ∈ handles w /\
    goals (inner (srv w')) = <[live_id h := st]> (goals (inner (srv w))) /\
    match h, st with
    | LvReq h, StAccepted g _ _ => g = goal h
    | LvAcc h, StExecuting g _ _ => g = goal h
    | LvExe _, StTerminated r s _ _ => is_terminal s = true
    | _, _ => False
    end.
Proof.
  assert (forall (l1 l2 : list live) h, h ∈ l1 ++ h :: l2) as Hin
    by (intros; apply elem_of_app; right; by left).
  intros []; cbn; auto.
  - apply recv_goal_effect in H0 as ->. auto.
  - apply accept_effect in H0 as (_ & [[_ ->]|[_ [e ->]]]); [auto|]. right. right.
    exists (LvReq h). eexists. rewrite H. split_and!; [done|done|]. done.
  - apply answer_effect in H0 as (-> & _). auto.
  - apply execute_effect in H0 as (_ & _ & _ & _ & [[_ ->]|[_ [e ->]]]); [auto|]. right. right.
    exists (LvAcc h). eexists. rewrite H. split_and!; [done|done|]. done.
  - apply terminate_effect in H1 as (_ & _ & _ & [[? _]|(_ & _ & e & ->)]); [done|]. right. right.
    exists (LvExe h). eexists. rewrite H. split_and!; [done|done|]. done.
  - apply terminate_effect in H0 as (_ & _ & _ & [[_ ->]|(? & _)]); [auto|done].
  - unfold send_result in H0. injection H0 as <- <-. auto.
  - apply publish_effect in H as (-> & _). auto.
  - unfold publish_feedback, emit in H0. injection H0 as <- <-. auto.
  - apply request_cancel_effect in H as (-> & _). auto.
  - destruct (handle_cancel_effect _ _ _ _ _ _ _ _ H0 H1 H2 H3) as (-> & _).
    apply request_cancel_effect in H2 as (-> & _). auto.
  - apply (result_effect _ _ _ _ _ _ H0 H1) in H2 as (-> & _). auto.
  - apply resume_effect in H0 as (-> & _); auto.
  - apply legacy_effect in H as (-> & _). auto.
  - apply expire_effect in H0 as (_ & _ & _ & _ & HG). right. left. eauto.
  - unfold set_result_timeout in H. apply modify_effect in H as [[_ ->]|(Hf & _)]; [auto|].
    injection Hf as _ <-. auto.
Qed.

(** ** The properties *)

(** C14 In every run with distinct goal identifiers, a step moves the status of
    each goal along the transitions of [transition_goal_state] (or from
    executing to canceled); it creates an entry only as accepted, executing or
    terminal; it removes one only by an expiration whose time has come; no
    goal is ever in the state [Canceling]. *)
Theorem status_transitions rt gt es (w : World) l w' :
  run (world_new (server_new rt gt)) es w -> step w l w' -> NoDup (requested (es ++ [l])) ->
  forall id, allowed (status_at w id) (status_at w' id) /\ status_at w id <> Some Canceling /\
    (forall st, goals (inner (srv w)) !! id = Some st -> status_at w' id = None ->
       exists a now, l = LExpire a now /\ should_expire now st = true).
Proof.
  intros Hr Hs Hn id. pose proof Hn as Hn0.
  assert (inv es w) as [IH IR].
  { eapply run_inv; eauto. revert Hn. rewrite requested_app. intros Hn%NoDup_app. apply Hn. }
  unfold status_at. split_and!.
  - destruct (step_goals _ _ _ Hs) as [->|[(a & now & -> & HG)|(h & st & Hh & -> & Hst)]].
    + destruct (goals (inner (srv w)) !! id); cbn; auto.
    + destruct (HG id) as [->|[-> _]]; destruct (goals (inner (srv w)) !! id); cbn; auto.
    + destruct (decide (id = live_id h)) as [->|Hne]; [|rewrite lookup_insert_ne by done;
        destruct (goals (inner (srv w)) !! id); cbn; auto].
      rewrite lookup_insert_eq. destruct (ih_handles _ _ _ _ IH _ Hh) as (_ & _ & Hok).
      destruct h as [h|h|h], st; try done; cbn in *.
      * destruct Hok as [-> _]. cbn. done.
      * destruct Hok as [[->|(t & e & ->)] _]; cbn; [done|]. right. left. by exists EvExecute.
      * destruct Hok as (f & _ & _ & [->|(e & ->)]); cbn; [by destruct status|].
        right. destruct status; try done; [left; by exists EvSucceed|by right|left; by exists EvAbort].
  - destruct (goals (inner (srv w)) !! id) as [st|] eqn:E; cbn; [|done].
    destruct (ih_goals _ _ _ _ IH _ _ E) as [_ Hok].
    destruct st; cbn; try done. intros [= ->].
    by destruct (ih_terminated _ _ _ _ IH _ _ _ Hok).
  - intros st Hst. destruct (step_goals _ _ _ Hs) as [->|[(a & now & -> & HG)|(h & st' & Hh & -> & _)]].
    + by rewrite Hst.
    + destruct (HG id) as [->|(-> & st' & Hst' & He)]; [by rewrite Hst|]. simplify_eq. eauto.
    + destruct (decide (id = live_id h)) as [->|Hne];
        [by rewrite lookup_insert_eq|by rewrite lookup_insert_ne, Hst].
Qed.

(** A reachable world with distinct goal identifiers. *)
Definition reachable (es : list label) (w : World) : Prop :=
  NoDup (requested es) /\ exists rt gt, run (world_new (server_new rt gt)) es w.

Lemma reachable_inv es w : reachable es w -> inv es w.
Proof. intros (Hn & rt & gt & Hr). eapply run_inv; eauto. Qed.

Lemma terminated_elem (es : list label) id r st :
  (id, (r, st)) ∈ terminated es <-> LTerminate id r st ∈ es.
Proof.
  unfold terminated. rewrite list_elem_of_omap. split.
  - intros (x & Hx & E). destruct x; simplify_eq. done.
  - intros H. eexists. split; [done|]. done.
Qed.

Lemma cancelled_elem (es : list label) id :
  id ∈ cancelled es <-> exists a, LCancel a id true ∈ es.
Proof.
  unfold cancelled. rewrite list_elem_of_omap. split.
  - intros (x & Hx & E). destruct x as [| | | | | | | | | | |a i [|]| | | | |]; simplify_eq. eauto.
  - intros [a H]. eexists. split; [done|]. done.
Qed.

Lemma terminated_unique es id x y :
  NoDup (ids_of_terminated es) -> (id, x) ∈ terminated es -> (id, y) ∈ terminated es -> x = y.
Proof.
  unfold ids_of_terminated. induction (terminated es) as [|[i z] l IH]; [by intros _ ?%elem_of_nil|].
  rewrite map_cons, NoDup_cons, !elem_of_cons. intros [Hi Hn] [Hx|Hx] [Hy|Hy]; simplify_eq; auto;
    destruct Hi; by apply (list_elem_of_fmap_2 fst) in Hx || apply (list_elem_of_fmap_2 fst) in Hy.
Qed.

(** A terminated goal is final: in a run with distinct goal identifiers its
    table entry (result, status and times) never changes, and it only leaves
    the table by an expiration after its result timeout. *)
Theorem terminated_entry_final es w l w' id r st t e :
  reachable es w -> step w l w' -> NoDup (requested (es ++ [l])) ->
  goals (inner (srv w)) !! id = Some (StTerminated r st t e) ->
  goals (inner (srv w')) !! id = Some (StTerminated r st t e) \/
  (goals (inner (srv w')) !! id = None /\
   exists a now x, l = LExpire a now /\ e = Some x /\ (x <= now)%Z).
Proof.
  intros [IH _]%reachable_inv Hs _ Hid.
  destruct (step_goals _ _ _ Hs) as [->|[(a & now & -> & HG)|(h & st' & Hh & -> & _)]]; [auto| |].
  - destruct (HG id) as [->|(-> & st' & Hst' & He)]; [auto|]. right. split; [done|].
    simplify_eq. cbn in He. destruct e as [x|]; [|done]. exists a, now, x. split_and!; try done.
    by apply Z.leb_le.
  - destruct (decide (id = live_id h)) as [->|Hne]; [|rewrite lookup_insert_ne; auto].
    destruct (ih_handles _ _ _ _ IH _ Hh) as (_ & Hn & _). destruct Hn.
    apply (list_elem_of_fmap_2' fst _ (live_id h, (r, st))); [|done].
    by eapply terminated_entry.
Qed.

(** C13 In every run with distinct goal identifiers, every reply to a result request
    for a goal, whoever sends it and at any time, carries the terminal status (as i8)
    and the result that the goal was terminated with; two replies for one goal are the
    same.  (An identifier that is accepted twice can be terminated twice, see
    [duplicate_goal_overwrites_result].) *)
Theorem result_replies_agree es w q code r :
  reachable es w -> (q, (code, r)) ∈ result_replies (srv w) ->
  exists bytes id st, payload q = Some bytes /\ deserialize_result bytes = Some id /\
    code = status_as_i8 st /\ is_terminal st = true /\ LTerminate id r st ∈ es /\
    forall q' code' r', (q', (code', r')) ∈ result_replies (srv w) ->
      payload q' ≫= deserialize_result = Some id -> code' = code /\ r' = r.
Proof.
  intros [IH IR]%reachable_inv Hin.
  destruct (ir_replies _ _ _ _ _ _ IR _ _ _ Hin) as (bytes & id & st & Hp & Hd & Hc & Ht).
  exists bytes, id, st. split_and!; try done.
  - by destruct (ih_terminated _ _ _ _ IH _ _ _ Ht).
  - by apply terminated_elem.
  - intros q' code' r' Hin'.
    destruct (ir_replies _ _ _ _ _ _ IR _ _ _ Hin') as (bytes' & id' & st' & Hp' & Hd' & Hc' & Ht').
    rewrite Hp'. cbn. rewrite Hd'. intros [= ->].
    pose proof (terminated_unique _ _ _ _ (ih_unique _ _ _ _ IH) Ht Ht') as [= -> ->]. by subst.
Qed.

(** C30 No wakeup is lost: in every run with distinct goal identifiers, once a goal
    is terminated and the results taken out of the table have been sent, every handler
    that waits for that goal holds a channel with exactly that result, whatever
    happened in between. *)
Theorem waiters_of_terminated_resolved es w x r st :
  reachable es w -> sends w = [] -> x ∈ waiters w -> LTerminate (w_goal x) r st ∈ es ->
  channels (srv w) !! w_rx x = Some (Some (r, st)).
Proof.
  intros [IH IR]%reachable_inv Hsn Hx Ht%terminated_elem.
  destruct (ir_waiters _ _ _ _ _ _ IR _ Hx) as (_ & Hc & Hw).
  destruct Hw as [(l & Hl & _)|[(r' & st' & Hin)|(r' & st' & Hl)]].
  - rewrite (ir_terminated _ _ _ _ _ _ IR) in Hl; [done|].
    by apply (list_elem_of_fmap_2' fst _ (w_goal x, (r, st))).
  - rewrite Hsn in Hin. by apply elem_of_nil in Hin.
  - destruct (ir_channels _ _ _ _ _ _ IR _ _ _ Hl) as (id & Hc' & Ht').
    rewrite Hc in Hc'. injection Hc' as <-.
    pose proof (terminated_unique _ _ _ _ (ih_unique _ _ _ _ IH) Ht Ht') as [= -> ->]. done.
Qed.

(** [is_cancel_requested] is exact: a task that owns an executing goal sees
    the flag set if and only if some cancel request for that goal was answered
    with success, even if the table's entry has expired since. *)
Theorem cancel_requested_iff es w h :
  reachable es w -> LvExe h ∈ handles w ->
  is_cancel_requested (srv w) h = true <-> exists a, LCancel a (handle_id h) true ∈ es.
Proof.
  intros [IH _]%reachable_inv Hh. rewrite <- cancelled_elem.
  destruct (ih_handles _ _ _ _ IH _ Hh) as (_ & _ & f & Hf & Hx & _).
  rewrite <- (ih_flags _ _ _ _ IH _ _ Hx). unfold is_cancel_requested, load_flag. rewrite Hf.
  destruct (flags (srv w) !! f) as [b|]; cbn; [|split; discriminate].
  split; [by intros ->|by intros [= ->]].
Qed.

(** The driver loop is held by a pending result request: while the goal it
    asks about is not terminated, the one loop of the server takes no event at
    all (no cancel request, no new goal, no expiration, no shutdown). *)
Theorem driver_waits_for_termination es w es' w' x :
  reachable es w -> run w es' w' -> NoDup (requested (es ++ es')) ->
  waiters w = [x] -> drivers w = 1%nat -> LStart ∉ es' ->
  (forall r st, LTerminate (w_goal x) r st ∉ es ++ es') ->
  waiters w' = [x] /\ forall l, l ∈ es' -> driver_label l = false.
Proof.
  intros (_ & rt & gt & Hr) Hr' Hn Hw Hd Hns Hnt.
  enough (waiters w' = [x] /\ drivers w' = 1%nat /\ forall l, l ∈ es' -> driver_label l = false) by naive_solver.
  induction Hr' as [w|w es' w' l w'' Hr' IH Hs]; [split_and!; try done; by intros ? ?%elem_of_nil|].
  rewrite app_assoc in Hn, Hnt.
  destruct IH as (Hw' & Hd' & Hl); auto.
  { revert Hn. rewrite requested_app. intros Hn%NoDup_app. apply Hn. }
  { intros Hi. apply Hns, elem_of_app. auto. }
  { intros r st Hi. apply (Hnt r st), elem_of_app. auto. }
  assert (reachable (es ++ es') w') as [_ IR]%reachable_inv.
  { split; [revert Hn; rewrite requested_app; intros Hn%NoDup_app; apply Hn|].
    exists rt, gt. by eapply run_app. }
  assert (forall a, may_act a w' -> a = User) as Hact.
  { intros [|]; [done|]. cbn. rewrite Hw', Hd'. cbn. lia. }
  enough (waiters w'' = [x] /\ drivers w'' = 1%nat /\ driver_label l = false) as (? & ? & ?).
  { split_and!; [done|done|]. intros l' [?| ->%list_elem_of_singleton]%elem_of_app; auto. }
  destruct Hs; cbn; try (apply Hact in H; subst); try done.
  - destruct Hns. apply elem_of_app. right. by left.
  - exfalso. assert (x0 = x) as ->.
    { rewrite Hw' in H. destruct l1 as [|? [|]]; simplify_eq/=; done. }
    apply resume_effect in H0 as (_ & _ & _ & r & st & Hc & _); [|done].
    destruct (ir_channels _ _ _ _ _ _ IR _ _ _ Hc) as (id & Hg & Ht).
    destruct (ir_waiters _ _ _ _ _ _ IR x) as (_ & Hg' & _); [rewrite Hw'; by left|].
    apply terminated_elem in Ht. rewrite Hg in Hg'. simplify_eq.
    apply (Hnt r st). apply elem_of_app. auto.
Qed.

(** [expire_goals] removes exactly the entries whose time has come (the
    expiration instant itself counts), reports each once, publishes the status
    list when there is one, and touches nothing else: in particular the waiters
    of an expired goal stay registered. *)
Theorem expire_goals_spec now stamp_of (s : Server) :
  poisoned s = false ->
  exists l s', expire_goals now stamp_of s = (Some l, s') /\ NoDup l /\
    (forall id, id ∈ l <-> exists st, goals (inner s) !! id = Some st /\ should_expire now st = true) /\
    (forall id, goals (inner s') !! id =
       match goals (inner s) !! id with
       | Some st => if should_expire now st then None else Some st
       | None => None
       end) /\
    result_futures (inner s') = result_futures (inner s) /\
    result_timeout (inner s') = result_timeout (inner s) /\
    goal_timeout (inner s') = goal_timeout (inner s) /\
    channels s' = channels s /\ flags s' = flags s /\ poisoned s' = false /\
    sent s' = sent s ++ (if decide (l = []) then []
                         else [StatusMessage (status_list stamp_of (inner s'))]).
Proof.
  intros Hp. unfold expire_goals, modify, retain_live. run_SM. rewrite Hp.
  set (l := map fst (filter (fun p => should_expire now p.2 = true) (map_to_list (goals (inner s))))).
  set (m := set_goals (inner s) (filter (fun p => should_expire now p.2 = false) (goals (inner s)))).
  assert (NoDup l) as Hn.
  { subst l. apply (NoDup_fmap_fst); [|apply NoDup_filter, NoDup_map_to_list].
    intros x y1 y2 [_ H1]%list_elem_of_filter [_ H2]%list_elem_of_filter.
    apply elem_of_map_to_list in H1, H2. congruence. }
  assert (forall id, id ∈ l <-> exists st, goals (inner s) !! id = Some st /\ should_expire now st = true) as Hl.
  { intros id. subst l. rewrite list_elem_of_fmap. split.
    - intros ([i st] & -> & [He Hin]%list_elem_of_filter). apply elem_of_map_to_list in Hin. eauto.
    - intros (st & Hst & He). exists (id, st). split; [done|]. apply list_elem_of_filter.
      split; [done|]. by apply elem_of_map_to_list. }
  assert (forall id, goals m !! id = match goals (inner s) !! id with
    | Some st => if should_expire now st then None else Some st | None => None end) as Hg.
  { intros id. subst m. cbn. rewrite map_lookup_filter.
    destruct (goals (inner s) !! id) as [st|]; cbn; [|done].
    destruct (should_expire now st); cbn; [by rewrite option_guard_False|by rewrite option_guard_True]. }
  clearbody l. destruct l as [|i l].
  - eexists [], _. split; [done|]. cbn. rewrite app_nil_r. auto 12.
  - unfold publish_status, read, emit. run_SM. cbn.
    eexists (i :: l), _. split; [done|]. cbn. auto 12.
Qed.

(** An expiration instant that [Instant] cannot represent panics inside
    [terminate] with the mutex held: nothing is recorded or sent, the mutex is
    poisoned, and from then on every operation that takes it panics. *)
Theorem terminate_overflow_poisons h (r : Result) st now stamp_of (s : Server) :
  poisoned s = false -> (2 ^ 63 * 1000000000 <= now + result_timeout (inner s))%Z ->
  exists s', terminate h r st now stamp_of s = (None, s') /\
    inner s' = inner s /\ channels s' = channels s /\ sent s' = sent s /\
    poisoned s' = true /\
    (forall id, request_cancel id s' = (None, s')) /\
    (forall t f, expire_goals t f s' = (None, s')) /\
    (forall h' r' st' t f, terminate h' r' st' t f s' = (None, s')) /\
    (forall d, set_result_timeout d s' = (None, s')) /\
    (forall f, publish_status f s' = (None, s')).
Proof.
  intros Hp Ho. unfold terminate, modify, insert_terminated, instant_add. run_SM. rewrite Hp.
  rewrite (proj2 (Z.ltb_ge _ _)) by lia. cbn. eexists. split; [done|]. cbn. split_and!; done.
Qed.

(** [accept] and [execute] are their sections followed by [publish_status]. *)
Lemma accept_sections (h : GoalHandle MRequested) t1 t2 stamp_of (s : Server) :
  accept h t1 t2 stamp_of s =
  (a ← accept_section h t1 t2; publish_status stamp_of;; mret a) s.
Proof.
  unfold accept, accept_section. run_SM.
  destruct (answer _ _ s) as [[[]|] s1]; [|done].
  destruct (modify _ s1) as [[[]|] s2]; done.
Qed.

Lemma execute_sections (h : GoalHandle MAccepted) t stamp_of (s : Server) :
  execute h t stamp_of s =
  (a ← execute_section h t; publish_status stamp_of;; mret a) s.
Proof.
  unfold execute, execute_section. run_SM.
  destruct (new_flag s) as [[f|] s1]; [|done].
  destruct (modify _ s1) as [[[]|] s2]; done.
Qed.

(** [handle_goal_request] is simulated by the step relation: when it returns
    an executing handle, the idle loop that took the query followed by the
    task's sections is a run to the world that owns that handle, in the server
    state that the function computes. *)
Theorem handle_goal_request_runs q now t1 t2 t3 stamp_of (w : World) h s' :
  may_act Driver w ->
  handle_goal_request deserialize_goal q now t1 t2 t3 stamp_of (srv w) = (Some (Some h), s') ->
  run w [LRequest Driver (handle_id h); LAccept (handle_id h); LPublish;
         LExecute (handle_id h); LPublish]
    (mkWorld s' (LvExe h :: handles w) (sends w) (waiters w) (drivers w)) /\
  goals (inner s') !! handle_id h <> None.
Proof.
  intros Hd. unfold handle_goal_request. run_SM.
  destruct (recv_goal _ q now (srv w)) as [[[h0|]|] s0] eqn:E0; try done.
  rewrite accept_sections. run_SM.
  destruct (accept_section h0 t1 t2 s0) as [[h1|] s1] eqn:E1; [|done].
  destruct (publish_status stamp_of s1) as [[[]|] s2] eqn:E2; [|done].
  rewrite execute_sections. run_SM.
  destruct (execute_section h1 t3 s2) as [[h2|] s3] eqn:E3; [|done].
  destruct (publish_status stamp_of s3) as [[[]|] s4] eqn:E4; [|done].
  intros [= <- <-].
  pose proof (accept_effect _ _ _ _ _ _ E1) as (_ & [[? _]|[Hh1 _]]); [done|]. injection Hh1 as ->.
  pose proof (execute_effect _ _ _ _ _ E3) as (_ & _ & _ & _ & [[? _]|(Hh2 & e & HG)]); [done|].
  injection Hh2 as ->. split.
  - eapply run_cons; [exact (st_request _ _ _ w Driver q now h0 s0 Hd E0)|].
    eapply run_cons; [exact (st_accept _ _ _ (mkWorld s0 (LvReq h0 :: handles w) (sends w)
      (waiters w) (drivers w)) [] h0 (handles w) t1 t2 _ s1 eq_refl E1)|].
    eapply run_cons; [exact (st_publish _ _ _ (mkWorld s1 _ _ _ _) stamp_of _ s2 E2)|].
    eapply run_cons; [exact (st_execute _ _ _ (mkWorld s2 (LvAcc _ :: handles w) _ _ _)
      [] _ (handles w) t3 _ s3 eq_refl E3)|].
    apply run_one. exact (st_publish _ _ _ (mkWorld s3 _ _ _ _) stamp_of _ s4 E4).
  - apply publish_effect in E4 as (-> & _). rewrite HG.
    unfold handle_id in *. cbn. by rewrite lookup_insert_eq.
Qed.

(** A cancel request is answered from the state of the one goal it names: if
    that goal is executing, its flag is set and the reply has return code 1 and
    that goal; otherwise nothing is set, and the reply has code 0 and no goal.
    The zero identifier of "cancel all goals" is looked up like any other. *)
Theorem handle_cancel_request_spec q bytes i abytes a (s : Server) :
  poisoned s = false -> payload q = Some bytes -> deserialize_cancel bytes = Some i ->
  attachment q = Some abytes -> Attachment_try_from abytes = Some a ->
  exists s', handle_cancel_request deserialize_cancel q s = (Some tt, s') /\
    inner s' = inner s /\ channels s' = channels s /\
    match goals (inner s) !! goal_id i with
    | Some (StExecuting _ f _) =>
        flags s' = <[f := true]> (flags s) /\
        sent s' = sent s ++ [Reply q a (CancelGoalServiceResponse 1 [i])]
    | _ => flags s' = flags s /\
        sent s' = sent s ++ [Reply q a (CancelGoalServiceResponse 0 [])]
    end.
Proof.
  intros Hp Hq Hd Ha Hat. unfold handle_cancel_request, request_cancel, read, executing_flag, reply,
    store_flag, emit. run_SM. rewrite Hq, Hd. cbn. rewrite Hp.
  destruct (goals (inner s) !! goal_id i) as [[| | |]|]; cbn; rewrite Ha; cbn; rewrite Hat;
    cbn; eexists; (split; [done|]); auto.
Qed.
End Invariant.

(** ** A concrete server *)

(** Requests that are one byte, repeated to make the identifier. *)
Definition ex_id (b : byte) : GoalId := GoalId_from_bytes (list_to_vec (replicate 16 b)).
Definition ex_goal (bs : list byte) : option (GoalId * nat) :=
  match bs with [b] => Some (ex_id b, 7%nat) | _ => None end.
Definition ex_cancel (bs : list byte) : option GoalInfo :=
  match bs with [b] => Some (mkGoalInfo (ex_id b) Time_zero) | _ => None end.
Definition ex_result (bs : list byte) : option GoalId :=
  match bs with [b] => Some (ex_id b) | _ => None end.
Definition ex_query (b : byte) : Query := mkQuery "k" (Some [b]) (Some (replicate 40 x00)).

Abbreviation ex_run := (run (Goal := nat) (Result := Z) (Feedback := unit) ex_goal ex_cancel ex_result).
Abbreviation ex_World := (World (Goal := nat) (Result := Z) (Feedback := unit)).
Abbreviation ex_Server := (Server (Goal := nat) (Result := Z) (Feedback := unit)).
Abbreviation ex_label := (label (Result := Z)).
Abbreviation ex_new := (world_new (server_new (Goal := nat) (Result := Z) (Feedback := unit) 10%Z None)).

(** A goal is requested and executed by the loop, cancelled, and its result is
    asked for: the loop waits. *)
Definition ex_before : list ex_label :=
  [LStart; LRequest Driver (ex_id x01); LAccept (ex_id x01); LExecute (ex_id x01);
   LCancel Driver (ex_id x01) true; LResult (ex_id x01)].
Definition ex_after : list ex_label :=
  [LTerminate (ex_id x01) 42%Z Succeeded; LSend 0; LWake (ex_id x01)].


(** The handle at each stage, and the server after each section. *)
Definition ex_info : GoalInfo := mkGoalInfo (ex_id x01) Time_zero.
Definition ex_h0 : GoalHandle (Goal := nat) MRequested := mkHandle 7%nat ex_info (Some (ex_query x01)) None.
Definition ex_h1 : GoalHandle (Goal := nat) MAccepted := mkHandle 7%nat ex_info None None.
Definition ex_h2 : GoalHandle (Goal := nat) MExecuting := mkHandle 7%nat ex_info None (Some 0%nat).
Definition ex_s0 : ex_Server := server_new 10%Z None.
Definition ex_s1 : ex_Server := (accept_section ex_h0 5%Z 5%Z ex_s0).2.
Definition ex_s2 : ex_Server := (execute_section ex_h1 6%Z ex_s1).2.
Definition ex_s3 : ex_Server := (handle_cancel_request ex_cancel (ex_query x01) ex_s2).2.
Definition ex_s4 : ex_Server := (handle_result_request ex_result (ex_query x01) ex_s3).2.
Definition ex_s5 : ex_Server := (modify (insert_terminated (ex_id x01) 42%Z Succeeded 7%Z) ex_s4).2.
Definition ex_s6 : ex_Server := (send_result 42%Z Succeeded 0 ex_s5).2.
Definition ex_s7 : ex_Server := (resume_result_request (ex_query x01) 0 ex_s6).2.
Definition ex_waiter : Waiter := mkWaiter (ex_query x01) (ex_id x01) 0.
Definition ex_w1 : ex_World := mkWorld ex_s4 [LvExe ex_h2] [] [ex_waiter] 1.
Definition ex_w2 : ex_World := mkWorld ex_s7 [] [] [] 1.

Lemma pair_fst {A B} (p : A * B) a : p.1 = a -> p = (a, p.2).
Proof. destruct p. by intros <-. Qed.

Ltac fst_eq := apply pair_fst; vm_compute; reflexivity.

Lemma ex_run_before : ex_run ex_new ex_before ex_w1.
Proof.
  eapply run_cons; [apply st_start|]. cbn.
  eapply run_cons; [apply (st_request _ _ _ (mkWorld _ _ _ _ _) Driver (ex_query x01) Time_zero ex_h0 ex_s0);
    [cbn; lia|reflexivity]|]. cbn.
  eapply run_cons; [apply (st_accept _ _ _ (mkWorld _ _ _ _ _) [] ex_h0 [] 5%Z 5%Z (Some ex_h1) ex_s1);
    [reflexivity|fst_eq]|]. cbn.
  eapply run_cons; [apply (st_execute _ _ _ (mkWorld _ _ _ _ _) [] ex_h1 [] 6%Z (Some ex_h2) ex_s2);
    [reflexivity|fst_eq]|]. cbn.
  eapply run_cons; [eapply (st_cancel_driver _ _ _ (mkWorld _ _ _ _ _) (ex_query x01) [x01] ex_info true
    _ (Some tt) ex_s3); [cbn; lia|reflexivity|reflexivity|fst_eq|fst_eq]|]. cbn.
  apply run_one.
  apply (st_result _ _ _ (mkWorld ex_s3 [LvExe ex_h2] [] [] 1) (ex_query x01) [x01] (ex_id x01)
    (Some (Some (ex_id x01, 0%nat))) ex_s4); [cbn; lia|reflexivity|reflexivity|fst_eq].
Qed.

Lemma ex_run_after : ex_run ex_w1 ex_after ex_w2.
Proof.
  eapply run_cons; [apply (st_terminate _ _ _ ex_w1 [] ex_h2 [] 42%Z Succeeded 7%Z [0%nat] ex_s5);
    [reflexivity|reflexivity|fst_eq]|]. cbn.
  eapply run_cons; [apply (st_send _ _ _ (mkWorld _ _ _ _ _) [] 0 42%Z Succeeded [] (Some tt) ex_s6);
    [reflexivity|reflexivity]|]. cbn.
  apply run_one.
  apply (st_wake _ _ _ (mkWorld ex_s6 [] [] [ex_waiter] 1) [] ex_waiter [] (Some true) ex_s7);
    [reflexivity|fst_eq|discriminate].
Qed.

Definition ex_end : ex_label := LTerminate (ex_id x01) 42%Z Succeeded.
Definition ex_w5 : ex_World := mkWorld ex_s5 [] [(0%nat, 42%Z, Succeeded)] [ex_waiter] 1.
Definition ex_w6 : ex_World := mkWorld ex_s6 [] [] [ex_waiter] 1.
Abbreviation ex_step := (step (Goal := nat) (Result := Z) (Feedback := unit) ex_goal ex_cancel ex_result).
Abbreviation ex_reachable :=
  (reachable (Goal := nat) (Result := Z) (Feedback := unit) ex_goal ex_cancel ex_result).

Lemma ex_step_end : ex_step ex_w1 ex_end ex_w5.
Proof.
  apply (st_terminate _ _ _ ex_w1 [] ex_h2 [] 42%Z Succeeded 7%Z [0%nat] ex_s5);
    [reflexivity|reflexivity|fst_eq].
Qed.

Lemma ex_step_send : ex_step ex_w5 (LSend 0) ex_w6.
Proof.
  apply (st_send _ _ _ ex_w5 [] 0 42%Z Succeeded [] (Some tt) ex_s6); [reflexivity|reflexivity].
Qed.

Lemma ex_nodup (es : list ex_label) :
  requested es = [ex_id x01] -> NoDup (requested es).
Proof. intros ->. apply NoDup_singleton. Qed.

Lemma ex_reachable_1 : ex_reachable ex_before ex_w1.
Proof.
  split; [by apply ex_nodup|]. exists 10%Z, None. apply ex_run_before.
Qed.

Lemma ex_reachable_5 : ex_reachable (ex_before ++ [ex_end]) ex_w5.
Proof.
  split; [by apply ex_nodup|]. exists 10%Z, None.
  eapply run_app; [apply ex_run_before|]. apply run_one, ex_step_end.
Qed.

Lemma ex_reachable_6 : ex_reachable (ex_before ++ [ex_end; LSend 0]) ex_w6.
Proof.
  split; [by apply ex_nodup|]. exists 10%Z, None.
  eapply run_app; [apply ex_run_before|]. eapply run_cons; [apply ex_step_end|].
  apply run_one, ex_step_send.
Qed.

Lemma ex_reachable_2 : ex_reachable (ex_before ++ ex_after) ex_w2.
Proof.
  split; [by apply ex_nodup|]. exists 10%Z, None.
  eapply run_app; [apply ex_run_before|apply ex_run_after].
Qed.

Lemma status_transitions_witness :
  status_at ex_w1 (ex_id x01) = Some Executing /\ status_at ex_w5 (ex_id x01) = Some Succeeded /\
  allowed (status_at ex_w1 (ex_id x01)) (status_at ex_w5 (ex_id x01)).
Proof.
  split; [vm_compute; reflexivity|]. split; [vm_compute; reflexivity|].
  apply (status_transitions ex_goal ex_cancel ex_result 10%Z None ex_before ex_w1 ex_end ex_w5
    ex_run_before ex_step_end (ex_nodup (ex_before ++ [ex_end]) eq_refl)).
Defined.

Lemma terminated_entry_final_witness :
  goals (inner (srv ex_w5)) !! ex_id x01 = Some (StTerminated 42%Z Succeeded 7%Z (Some 17%Z)) /\
  (goals (inner (srv ex_w6)) !! ex_id x01 = Some (StTerminated 42%Z Succeeded 7%Z (Some 17%Z)) \/
   (goals (inner (srv ex_w6)) !! ex_id x01 = None /\
    exists a now x, LSend (Result := Z) 0 = LExpire a now /\ Some 17%Z = Some x /\ (x <= now)%Z)).
Proof.
  split; [vm_compute; reflexivity|].
  apply (terminated_entry_final ex_goal ex_cancel ex_result (ex_before ++ [ex_end]) ex_w5 (LSend 0)
    ex_w6 _ _ _ _ _ ex_reachable_5 ex_step_send); [by apply ex_nodup|vm_compute; reflexivity].
Defined.

Lemma result_replies_agree_witness :
  result_replies (srv ex_w2) = [(ex_query x01, (4%Z, 42%Z))] /\
  exists bytes id st, payload (ex_query x01) = Some bytes /\ ex_result bytes = Some id /\
    4%Z = status_as_i8 st /\ is_terminal st = true /\ LTerminate id 42%Z st ∈ ex_before ++ ex_after /\
    forall q' code' r', (q', (code', r')) ∈ result_replies (srv ex_w2) ->
      payload q' ≫= ex_result = Some id -> code' = 4%Z /\ r' = 42%Z.
Proof.
  assert (result_replies (srv ex_w2) = [(ex_query x01, (4%Z, 42%Z))]) as E by (vm_compute; reflexivity).
  split; [exact E|].
  apply (result_replies_agree ex_goal ex_cancel ex_result _ ex_w2 (ex_query x01) 4%Z 42%Z ex_reachable_2).
  rewrite E. left.
Defined.

Lemma waiters_of_terminated_resolved_witness :
  channels (srv ex_w6) !! 0%nat = Some (Some (42%Z, Succeeded)).
Proof.
  apply (waiters_of_terminated_resolved ex_goal ex_cancel ex_result _ ex_w6 ex_waiter 42%Z Succeeded
    ex_reachable_6); [reflexivity|left|]. apply elem_of_app. right. left.
Defined.

Lemma cancel_requested_iff_witness :
  is_cancel_requested (srv ex_w1) ex_h2 = true <-> exists a, LCancel a (ex_id x01) true ∈ ex_before.
Proof.
  apply (cancel_requested_iff ex_goal ex_cancel ex_result ex_before ex_w1 ex_h2 ex_reachable_1). left.
Defined.

(** While the loop waits, the task publishes feedback and the user asks again
    for the cancellation; nothing is taken from the loop's queues. *)
Lemma driver_waits_for_termination_witness :
  exists w', ex_run ex_w1 [LFeedback (ex_id x01); LCancel User (ex_id x01) true] w' /\
    waiters w' = [ex_waiter] /\
    forall l : ex_label, l ∈ [LFeedback (ex_id x01); LCancel User (ex_id x01) true] -> driver_label l = false.
Proof.
  eexists. assert (ex_run ex_w1 [LFeedback (ex_id x01); LCancel User (ex_id x01) true]
    (mkWorld (request_cancel (ex_id x01) (publish_feedback ex_h2 tt ex_s4).2).2
       [LvExe ex_h2] [] [ex_waiter] 1)) as Hr.
  { eapply run_cons; [apply (st_feedback _ _ _ ex_w1 ex_h2 tt (Some tt)); [left|reflexivity]|].
    apply run_one. apply (st_cancel_user _ _ _ (mkWorld (publish_feedback ex_h2 tt ex_s4).2
      [LvExe ex_h2] [] [ex_waiter] 1) (ex_id x01) true). fst_eq. }
  split; [exact Hr|].
  apply (driver_waits_for_termination ex_goal ex_cancel ex_result ex_before ex_w1 _ _ ex_waiter
    ex_reachable_1 Hr); [by apply ex_nodup|reflexivity|reflexivity|..].
  - intros H. repeat (apply elem_of_cons in H as [H|H]; [discriminate|]). by apply elem_of_nil in H.
  - intros r st H. cbn in H. repeat (apply elem_of_cons in H as [H|H]; [discriminate|]). by apply elem_of_nil in H.
Defined.

Lemma expire_goals_spec_witness :
  exists l s', expire_goals 17%Z (fun _ => Time_zero) ex_s5 = (Some l, s') /\ ex_id x01 ∈ l.
Proof.
  destruct (expire_goals_spec 17%Z (fun _ => Time_zero) ex_s5) as (l & s' & He & _ & Hl & _);
    [vm_compute; reflexivity|].
  exists l, s'. split; [exact He|]. apply Hl. eexists. split; vm_compute; reflexivity.
Defined.

Lemma terminate_overflow_poisons_witness :
  exists s', terminate ex_h2 42%Z Succeeded 7%Z (fun _ => Time_zero)
    (server_new (Feedback := unit) (2 ^ 63 * 1000000000)%Z None) = (None, s') /\ poisoned s' = true.
Proof.
  destruct (terminate_overflow_poisons ex_h2 42%Z Succeeded 7%Z (fun _ => Time_zero)
    (server_new (Feedback := unit) (2 ^ 63 * 1000000000)%Z None)) as (s' & H & _ & _ & _ & Hp & _);
    [reflexivity|cbn; lia|]. exists s'. split; assumption.
Defined.

Lemma handle_goal_request_runs_witness :
  exists s', goals (inner s') !! ex_id x01 <> None /\
    ex_run (mkWorld ex_s0 [] [] [] 1) [LRequest Driver (ex_id x01); LAccept (ex_id x01); LPublish;
      LExecute (ex_id x01); LPublish] (mkWorld s' [LvExe ex_h2] [] [] 1).
Proof.
  exists (handle_goal_request ex_goal (ex_query x01) Time_zero 5%Z 5%Z 6%Z (fun _ => Time_zero) ex_s0).2.
  destruct (handle_goal_request_runs ex_goal ex_cancel ex_result (ex_query x01) Time_zero 5%Z 5%Z 6%Z
    (fun _ => Time_zero) (mkWorld ex_s0 [] [] [] 1) ex_h2
    (handle_goal_request ex_goal (ex_query x01) Time_zero 5%Z 5%Z 6%Z (fun _ => Time_zero) ex_s0).2)
    as [Hr Hg]; [cbn; lia|fst_eq|]. split; [exact Hg|exact Hr].
Defined.

Lemma handle_cancel_request_spec_witness :
  exists a s', handle_cancel_request ex_cancel (ex_query x01) ex_s2 = (Some tt, s') /\
    flags s' = [true] /\
    sent s' = sent ex_s2 ++ [Reply (ex_query x01) a (CancelGoalServiceResponse 1 [ex_info])].
Proof.
  exists (mkAttachment 0 0 (replicate 16 x00)).
  destruct (handle_cancel_request_spec ex_cancel (ex_query x01) [x01] ex_info (replicate 40 x00)
    (mkAttachment 0 0 (replicate 16 x00)) ex_s2) as (s' & H & _ & _ & Hm);
    [vm_compute; reflexivity|reflexivity|reflexivity|reflexivity|vm_compute; reflexivity|].
  exists s'. split; [exact H|]. exact Hm.
Defined.

(** A goal request with an identifier already in use overwrites the entry of
    the goal that is there: here a terminated one, whose result is lost. *)
Lemma duplicate_goal_overwrites_result :
  goals (inner ex_s5) !! ex_id x01 = Some (StTerminated 42%Z Succeeded 7%Z (Some 17%Z)) /\
  goals (inner (accept_section ex_h0 8%Z 8%Z ex_s5).2) !! ex_id x01 = Some (StAccepted 7%nat 8%Z None).
Proof. split; vm_compute; reflexivity. Qed.

(** An executing goal that expires leaves its waiter registered, with a channel
    that nothing will resolve once the task that owned the goal is gone. *)
Lemma expired_goal_orphans_waiter :
  let s := (execute_section ex_h1 6%Z (server_new (Result := Z) (Feedback := unit) 10%Z (Some 5%Z))).2 in
  let s := (handle_result_request ex_result (ex_query x01) s).2 in
  let s := (modify (retain_live 100%Z) s).2 in
  goals (inner s) !! ex_id x01 = None /\ result_futures (inner s) !! ex_id x01 = Some [0%nat] /\
  channels s = [None].
Proof. vm_compute. auto. Qed.
