(* ===== verification/MsgParser.v ===== *)
(** * The parser of message definitions
    (crates/ros-z-codegen/src/types.rs, parser/mod.rs, parser/msg.rs)

    The parsed form of a [.msg] file and the line parser that produces it.  An
    [anyhow] error is its outermost message; a slice out of range panics.  Paths
    are reduced to what the parser reads of them, the file stem. *)
From S2P Require Import Prelude Utf8 RustStr RustText.
Open Scope string_scope.

(** ** Definitions *)

Inductive ArrayType := Single | Fixed (n : Z) | Bounded (n : Z) | Unbounded.
#[export] Instance ArrayType_eq_dec : EqDecision ArrayType.
Proof. solve_decision. Defined.

(** [types::FieldType]. *)
Record PFieldType := mkPFieldType {
  base_type : string;
  ft_package : option string;
  array : ArrayType;
  string_bound : option Z;
}.

(** [f64] values are their bits. *)
Inductive DefaultValue :=
| DvBool (b : bool)
| DvInt (z : Z)
| DvFloat (bits : Z)
| DvString (s : string)
| DvBoolArray (l : list bool)
| DvIntArray (l : list Z)
| DvFloatArray (l : list Z)
| DvStringArray (l : list string).

(** [types::Field]. *)
Record PField := mkPField {
  pf_name : string;
  pf_type : PFieldType;
  pf_default : option DefaultValue;
}.
Record Constant := mkConstant { c_name : string; const_type : string; c_value : string }.
Record ParsedMessage := mkParsed {
  pm_name : string;
  pm_package : string;
  pm_fields : list PField;
  pm_constants : list Constant;
  pm_source : string;
  pm_path : string;
}.

Abbreviation parse := (res string).

(** [strip_comment]. *)
Definition strip_comment (line : string) : string :=
  match split_on "#" line with p :: _ => p | [] => "" end.

(** [parse_constant]. *)
Definition parse_constant (line : string) (line_num : nat) : parse Constant :=
  match splitn2 "=" line with
  | [decl; value] =>
      match split_whitespace decl with
      | [t; n] => Ok (mkConstant n t (trim value))
      | [t] => Ok (mkConstant "" t (trim value))
      | _ => Err ("Line " ++ Z_dec (Z.of_nat line_num)
                    ++ ": Invalid constant declaration, expected 'type NAME'")
      end
  | _ => Err ("Line " ++ Z_dec (Z.of_nat line_num) ++ ": Invalid constant format, expected '='")
  end.

(** [parse_field_type]: the bounded string case, the array suffix, the package. *)
Definition bounded_string (type_str : string) : option (parse PFieldType) :=
  match find_str "<=" type_str with
  | None => None
  | Some idx =>
      if contains_char "[" type_str then None
      else Some (
        base ← str_slice type_str 0 idx;
        rest ← str_slice type_str (idx + 2) (String.length type_str);
        bound ← ok_or (parse_usize rest) ("Invalid string bound in '" ++ type_str ++ "'");
        Ok (mkPFieldType base None Single (Some bound)))
  end.
Definition parse_array (type_str : string) : parse (string * ArrayType) :=
  match find_char "[" type_str with
  | None => Ok (type_str, Single)
  | Some idx =>
      if negb (ends_with_char "]" type_str) then Err ("Invalid array syntax: " ++ type_str)
      else
        base ← str_slice type_str 0 idx;
        array_str ← str_slice type_str (idx + 1) (String.length type_str - 1);
        array ← (if negb (nonempty array_str) then Ok Unbounded
                 else match strip_prefix "<=" array_str with
                 | Some stripped => Bounded <$> ok_or (parse_usize stripped)
                     ("Invalid bounded array size in '" ++ type_str ++ "'")
                 | None => Fixed <$> ok_or (parse_usize array_str)
                     ("Invalid fixed array size in '" ++ type_str ++ "'")
                 end);
        Ok (base, array)
  end.
Definition split_package (base_str : string) : parse (option string * string) :=
  match find_char "/" base_str with
  | Some idx =>
      pkg ← str_slice base_str 0 idx;
      typ ← str_slice base_str (idx + 1) (String.length base_str);
      Ok (Some pkg, typ)
  | None =>
      if String.eqb base_str "Header" then Ok (Some "std_msgs", "Header")
      else Ok (None, base_str)
  end.
Definition parse_field_type (type_str _source_package : string) : parse PFieldType :=
  match bounded_string type_str with
  | Some r => r
  | None =>
      '(base_str, array) ← parse_array type_str;
      '(package, base_type) ← split_package base_str;
      Ok (mkPFieldType base_type package array None)
  end.

(** [parse_default_value]. *)
Definition parse_bool (e : string) : option bool :=
  if String.eqb e "true" || String.eqb e "True" then Some true
  else if String.eqb e "false" || String.eqb e "False" then Some false
  else None.
Definition single_quote : ascii := "039".
Definition double_quote : ascii := "034".
Definition quoted (s : string) : bool :=
  (starts_with_char double_quote s && ends_with_char double_quote s)
  || (starts_with_char single_quote s && ends_with_char single_quote s).
Definition unquote (s : string) : parse string := str_slice s 1 (String.length s - 1).
(** The loop over the elements as strings: [None] when one is not quoted. *)
Fixpoint unquote_all (elements : list string) : parse (option (list string)) :=
  match elements with
  | [] => Ok (Some [])
  | e :: es =>
      if quoted e then
        x ← unquote e;
        xs ← unquote_all es;
        Ok (match xs with Some l => Some (x :: l) | None => None end)
      else Ok None
  end.
Definition parse_default_value (s : string) : parse DefaultValue :=
  if starts_with_char "[" s && ends_with_char "]" s then
    inner ← str_slice s 1 (String.length s - 1);
    if negb (nonempty inner) then Err ("Empty array default value: " ++ s) else
    let elements := map trim (split_on "," inner) in
    match mapM parse_bool elements with
    | Some bools => Ok (DvBoolArray bools)
    | None =>
        match mapM parse_i64 elements with
        | Some ints => Ok (DvIntArray ints)
        | None =>
            match mapM parse_f64 elements with
            | Some floats => Ok (DvFloatArray floats)
            | None =>
                strings ← unquote_all elements;
                match strings with
                | Some l => Ok (DvStringArray l)
                | None => Err ("Invalid array default value: " ++ s)
                end
            end
        end
    end
  else match parse_bool s with
  | Some b => Ok (DvBool b)
  | None =>
      if quoted s then DvString <$> unquote s
      else match parse_i64 s with
      | Some i => Ok (DvInt i)
      | None =>
          match parse_f64 s with
          | Some f => Ok (DvFloat f)
          | None => Err ("Invalid default value: " ++ s)
          end
      end
  end.

(** [parse_field]. *)
Definition parse_field (line source_package : string) (line_num : nat) : parse PField :=
  match split_whitespace line with
  | t :: name :: rest =>
      field_type ← parse_field_type t source_package;
      dflt ← match rest with
             | [] => Ok None
             | _ => Some <$> parse_default_value (join_space rest)
             end;
      Ok (mkPField name field_type dflt)
  | _ => Err ("Line " ++ Z_dec (Z.of_nat line_num) ++ ": Invalid field format: " ++ line)
  end.

(** [parse_msg_string]: what the loop does with a line. *)
Definition is_constant (line : string) : bool :=
  match find_char "=" line with
  | Some eq_pos =>
      if negb (Nat.eqb eq_pos 0) &&
         match String.get (eq_pos - 1) line with Some c => Ascii.eqb c "<" | None => false end
      then false
      else
        let before_eq := String.substring 0 eq_pos line in
        Nat.eqb (count_char "[" before_eq) (count_char "]" before_eq)
  | None => false
  end.
Fixpoint parse_lines (package : string) (ls : list string) (line_num : nat)
    (fields : list PField) (constants : list Constant) : parse (list PField * list Constant) :=
  match ls with
  | [] => Ok (fields, constants)
  | line :: ls' =>
      let line := trim (strip_comment line) in
      if negb (nonempty line) then parse_lines package ls' (S line_num) fields constants
      else if is_constant line then
        match parse_constant line line_num with
        | Ok c =>
            parse_lines package ls' (S line_num) fields
              (if nonempty (c_name c) then constants ++ [c] else constants)%list
        | Err _ => parse_lines package ls' (S line_num) fields constants
        | Panic => Panic
        end
      else
        f ← parse_field line package line_num;
        parse_lines package ls' (S line_num) (fields ++ [f])%list constants
  end.
(** [file_stem] is [path.file_stem()] as UTF-8, with the two errors. *)
Definition parse_msg_string (source package path : string) (file_stem : parse string)
    : parse ParsedMessage :=
  name ← file_stem;
  '(fields, constants) ← parse_lines package (lines source) 0 [] [];
  Ok (mkParsed name package fields constants source path).

(** ** Lemmas *)

Example parse_msg_value :
  let src := String.concat (String newline "") ["# c"; "uint8 A = 1"; "uint8[<=20] b  # x"; "";
    "geometry_msgs/Point[] p"; "string<=255 s"; "int32 n -7"; "float64[2] f [1, 2.5]"] in
  parse_msg_string src "pkg" "Test.msg" (Ok "Test") =
  Ok (mkParsed "Test" "pkg"
    [mkPField "b" (mkPFieldType "uint8" None (Bounded 20) None) None;
     mkPField "p" (mkPFieldType "Point" (Some "geometry_msgs") Unbounded None) None;
     mkPField "s" (mkPFieldType "string" None Single (Some 255%Z)) None;
     mkPField "n" (mkPFieldType "int32" None Single None) (Some (DvInt (-7)));
     mkPField "f" (mkPFieldType "float64" None (Fixed 2) None)
       (Some (DvFloatArray [0x3FF0000000000000; 0x4004000000000000]%Z))]
    [mkConstant "A" "uint8" "1"] src "Test.msg").
Proof. vm_compute. reflexivity. Qed.
