(* ===== verification/MsgRoundtrip.v ===== *)
(** * Properties of the message parser

    A printer of message definitions, the round trip through the parser, and
    the inputs on which the parser can panic. *)
From S2P Require Import Prelude Utf8 RustStr RustText MsgParser.
From Stdlib Require Import DecimalString.
Open Scope string_scope.

(** ** Definitions *)

(** A visible ASCII character other than the comment sign; a word of them. *)
Definition graphic (a : ascii) : bool :=
  (33 <=? code a)%Z && (code a <=? 126)%Z && negb (Ascii.eqb a "#").
Definition word (s : string) : bool := nonempty s && all_chars graphic s.
Definition space : ascii := " ".
Definition textual (a : ascii) : bool := graphic a || Ascii.eqb a space.

Definition no_chars (cs : list ascii) (s : string) : bool :=
  forallb (fun c => negb (contains_char c s)) cs.

(** The printed form of a type, as the documentation of [.msg] files has it. *)
Definition print_array (a : ArrayType) : string :=
  match a with
  | Single => ""
  | Fixed n => "[" ++ Z_dec n ++ "]"
  | Bounded n => "[<=" ++ Z_dec n ++ "]"
  | Unbounded => "[]"
  end.
Definition print_type (t : PFieldType) : string :=
  match string_bound t with
  | Some n => base_type t ++ "<=" ++ Z_dec n
  | None =>
      match ft_package t with Some p => p ++ "/" | None => "" end
      ++ base_type t ++ print_array (array t)
  end.
Definition usize_ok (n : Z) : Prop := (0 <= n < 2 ^ 64)%Z.
Definition ident (s : string) : Prop :=
  word s = true /\ no_chars ["["%char; "]"%char; "/"%char; "<"%char; "="%char] s = true.
Definition type_ok (t : PFieldType) : Prop :=
  ident (base_type t) /\
  match string_bound t with
  | Some n => usize_ok n /\ ft_package t = None /\ array t = Single
  | None =>
      match ft_package t with Some p => ident p | None => base_type t <> "Header" end /\
      match array t with Fixed n | Bounded n => usize_ok n | _ => True end
  end.

Definition Z_str (z : Z) : string :=
  if (z <? 0)%Z then "-" ++ Z_dec (- z) else Z_dec z.
Definition bool_str (b : bool) : string := if b then "true" else "false".
(** The defaults that are printed: booleans, integers, strings without spaces
    and arrays of the first two. *)
Definition print_default (d : DefaultValue) : string :=
  match d with
  | DvBool b => bool_str b
  | DvInt z => Z_str z
  | DvString s => String double_quote (s ++ String double_quote "")
  | DvBoolArray l => "[" ++ join_on "," (map bool_str l) ++ "]"
  | DvIntArray l => "[" ++ join_on "," (map Z_str l) ++ "]"
  | _ => ""
  end.
Definition i64_ok (z : Z) : Prop := (- 2 ^ 63 <= z < 2 ^ 63)%Z.
Definition default_ok (d : DefaultValue) : Prop :=
  match d with
  | DvBool _ => True
  | DvInt z => i64_ok z
  | DvString s => all_chars graphic s = true /\ contains_char "=" s = false
  | DvBoolArray l => l <> []
  | DvIntArray l => l <> [] /\ Forall i64_ok l
  | _ => False
  end.
Definition print_field (f : PField) : string :=
  join_space (print_type (pf_type f) :: pf_name f
              :: match pf_default f with Some d => [print_default d] | None => [] end).
Definition field_ok (f : PField) : Prop :=
  type_ok (pf_type f) /\ ident (pf_name f) /\
  match pf_default f with Some d => default_ok d | None => True end.

(** A constant whose value is a sequence of words. *)
Definition print_constant (c : Constant) : string :=
  join_space [const_type c; c_name c; "="; c_value c].
Definition constant_ok (c : Constant) : Prop :=
  ident (const_type c) /\ ident (c_name c) /\
  exists w ws, Forall (fun w => word w = true) (w :: ws) /\ c_value c = join_space (w :: ws).

Definition print_msg (m : ParsedMessage) : string :=
  join_on newline (map print_constant (pm_constants m) ++ map print_field (pm_fields m)).
Definition msg_ok (m : ParsedMessage) : Prop :=
  Forall constant_ok (pm_constants m) /\ Forall field_ok (pm_fields m) /\
  pm_source m = print_msg m.

(** ** White space and lines of visible characters *)

Lemma graphic_code a : graphic a = true -> (33 <= code a <= 126)%Z.
Proof. unfold graphic. rewrite !andb_true_iff, !Z.leb_le. tauto. Qed.

Lemma ws_width_graphic a r : graphic a = true -> ws_width (String a r) = 0%nat.
Proof.
  intros Ha%graphic_code. unfold ws_width.
  replace (code a <=? 13)%Z with false by (symmetry; apply Z.leb_gt; lia).
  replace (code a =? 32)%Z with false by (symmetry; apply Z.eqb_neq; lia).
  replace (code a =? 0xC2)%Z with false by (symmetry; apply Z.eqb_neq; lia).
  replace (code a =? 0xE1)%Z with false by (symmetry; apply Z.eqb_neq; lia).
  replace (code a =? 0xE2)%Z with false by (symmetry; apply Z.eqb_neq; lia).
  replace (code a =? 0xE3)%Z with false by (symmetry; apply Z.eqb_neq; lia).
  rewrite andb_false_r. cbn. destruct r as [|b r]; [done|]. by destruct r as [|c r].
Qed.

Lemma ws_width_space r : ws_width (String space r) = 1%nat.
Proof. done. Qed.

Lemma word_cons s : word s = true ->
  exists a r, s = String a r /\ graphic a = true /\ all_chars graphic r = true.
Proof.
  unfold word. intros [Hn Hs]%andb_true_iff. destruct s as [|a r]; [done|].
  cbn in Hs. apply andb_true_iff in Hs as []. eauto.
Qed.

Lemma ws_pieces_none w : all_chars graphic w = true -> ws_pieces 0 w = [w].
Proof.
  induction w as [|a w IH]; [done|]. cbn [all_chars]. intros [Ha Hw]%andb_true_iff.
  cbn [ws_pieces]. by rewrite ws_width_graphic, IH.
Qed.

Lemma ws_pieces_app w r :
  all_chars graphic w = true -> ws_pieces 0 (w ++ String space r) = w :: ws_pieces 0 r.
Proof.
  induction w as [|a w IH]; [done|]. cbn [all_chars]. intros [Ha Hw]%andb_true_iff.
  cbn [append ws_pieces]. by rewrite ws_width_graphic, IH.
Qed.

Lemma join_space_cons w x ws : join_space (w :: x :: ws) = w ++ String space (join_space (x :: ws)).
Proof. done. Qed.

Lemma ws_pieces_words w ws :
  Forall (fun w => word w = true) (w :: ws) -> ws_pieces 0 (join_space (w :: ws)) = w :: ws.
Proof.
  revert w. induction ws as [|x ws IH]; intros w [Hw Hws]%Forall_cons;
    pose proof Hw as [_ Hg]%andb_true_iff.
  - by apply ws_pieces_none.
  - by rewrite join_space_cons, ws_pieces_app, IH.
Qed.

Lemma filter_words ws :
  Forall (fun w => word w = true) ws -> List.filter nonempty ws = ws.
Proof.
  induction 1 as [|w ws Hw _ IH]; [done|]. cbn. apply andb_true_iff in Hw as [-> _]. by rewrite IH.
Qed.

Lemma split_whitespace_words ws :
  Forall (fun w => word w = true) ws -> split_whitespace (join_space ws) = ws.
Proof.
  intros H. unfold split_whitespace. destruct ws as [|w ws]; [done|].
  by rewrite ws_pieces_words, filter_words.
Qed.

(** A line: visible characters and spaces, the first and the last visible. *)
Definition ends_graphic (s : string) : Prop := exists p a, s = p ++ String a "" /\ graphic a = true.
Definition line_ok (s : string) : Prop :=
  all_chars textual s = true /\ ends_graphic s /\ exists a r, s = String a r /\ graphic a = true.

Lemma all_chars_app f a b : all_chars f (a ++ b) = all_chars f a && all_chars f b.
Proof. induction a as [|x a IH]; [done|]. cbn. by rewrite IH, andb_assoc. Qed.

Lemma all_chars_impl f g s :
  (forall a, f a = true -> g a = true) -> all_chars f s = true -> all_chars g s = true.
Proof.
  intros H. induction s as [|a s IH]; [done|]. cbn. rewrite !andb_true_iff. intros []. auto.
Qed.

Lemma word_textual w : all_chars graphic w = true -> all_chars textual w = true.
Proof. apply all_chars_impl. intros a Ha. unfold textual. by rewrite Ha. Qed.

Lemma word_ends w : word w = true -> ends_graphic w.
Proof.
  induction w as [|a w IH]; [done|]. intros (b & r & [= <- <-] & Ha & Hr)%word_cons.
  destruct w as [|c w]; [by exists "", a|].
  destruct IH as (p & d & -> & Hd); [exact Hr|]. by exists (String a p), d.
Qed.

Lemma join_space_line w ws :
  Forall (fun w => word w = true) (w :: ws) -> line_ok (join_space (w :: ws)).
Proof.
  intros Hall. assert (all_chars textual (join_space (w :: ws)) = true /\ ends_graphic (join_space (w :: ws))) as [H1 H2].
  { revert w Hall. induction ws as [|x ws IH]; intros w [Hw Hws]%Forall_cons;
      pose proof Hw as [_ Hg]%andb_true_iff.
    - split; [by apply word_textual|].
      by apply word_ends.
    - rewrite join_space_cons. destruct (IH x Hws) as [J1 (p & a & J2 & Ha)]. split.
      + rewrite all_chars_app. cbn [all_chars]. rewrite J1, word_textual by done. done.
      + rewrite J2. exists (w ++ String space p), a. by rewrite app_assoc_str. }
  split; [done|]. split; [done|]. apply Forall_cons in Hall as [(a & r & -> & Ha & Hr)%word_cons _].
  destruct ws as [|x ws]; [exists a, r; auto|]. rewrite join_space_cons. cbn. eauto.
Qed.

Lemma all_ws_graphic s : ends_graphic s -> all_chars textual s = true -> all_ws 0 s = false.
Proof.
  intros (p & a & -> & Ha). rewrite all_chars_app. intros [Hp _]%andb_true_iff.
  induction p as [|b p IH]; cbn [append].
  - cbn [all_ws]. by rewrite ws_width_graphic.
  - cbn in Hp. apply andb_true_iff in Hp as [Hb Hp].
    apply orb_true_iff in Hb as [Hb|Hb].
    + cbn [all_ws]. by rewrite ws_width_graphic.
    + apply Ascii.eqb_eq in Hb as ->. change (all_ws 0 (String space ?s)) with (all_ws 0 s). auto.
Qed.

Lemma trim_end_line s : ends_graphic s -> all_chars textual s = true -> trim_end s = s.
Proof.
  induction s as [|a s IH]; [done|]. intros He Ht. cbn [trim_end].
  rewrite all_ws_graphic by done. f_equal.
  destruct He as (p & b & Hs & Hb). destruct p as [|c p]; cbn in Hs; [by injection Hs as -> ->|].
  injection Hs as -> ->. apply IH; [by exists p, b|]. cbn in Ht. by apply andb_true_iff in Ht as [].
Qed.

Lemma trim_line s : line_ok s -> trim s = s.
Proof.
  intros (Ht & He & a & r & -> & Ha). unfold trim, trim_start. cbn [trim_start_go].
  rewrite ws_width_graphic by done. by apply trim_end_line.
Qed.

Lemma textual_contains c s :
  all_chars textual s = true -> textual c = false -> contains_char c s = false.
Proof. apply all_chars_contains. Qed.

Lemma strip_comment_line s : all_chars textual s = true -> strip_comment s = s.
Proof.
  intros H. unfold strip_comment. rewrite split_on_none; [done|]. by eapply textual_contains.
Qed.

Lemma strip_suffix_absent c s : contains_char c s = false -> strip_suffix_char c s = None.
Proof.
  intros H. apply strip_suffix_char_None. induction s as [|a s IH]; [done|].
  cbn in H. apply orb_false_iff in H as [Ha Hs]. cbn. destruct s; [done|]. auto.
Qed.

Lemma lines_join ls : Forall line_ok ls -> lines (join_on newline ls) = ls.
Proof.
  intros Hl. unfold lines. destruct ls as [|l ls]; [done|].
  rewrite split_on_join; [|done|].
  - induction Hl as [|s ss Hs Hss IH]; [done|].
    destruct Hs as (Ht & _ & a & r & -> & _). destruct ss as [|s' ss]; [done|].
    change (default (String a r) (strip_suffix_char carriage_return (String a r))
      :: lines_of (s' :: ss) = String a r :: s' :: ss).
    rewrite strip_suffix_absent by (by eapply textual_contains). cbn [default]. f_equal.
    apply IH.
  - eapply Forall_impl; [exact Hl|]. intros s (Ht & _). by eapply textual_contains.
Qed.

(** ** Types *)

Lemma substring_prefix b c : String.substring 0 (String.length b) (b ++ c) = b.
Proof. induction b as [|x b IH]; cbn; [by destruct c|]. by rewrite IH. Qed.

Lemma substring_app a b c :
  String.substring (String.length a) (String.length b) (a ++ b ++ c) = b.
Proof. induction a as [|x a IH]; cbn; [apply substring_prefix|done]. Qed.

Lemma str_slice_app {E} a b c i j :
  i = String.length a -> j = (String.length a + String.length b)%nat ->
  str_slice (E := E) (a ++ b ++ c) i j = Ok b.
Proof.
  intros -> ->. unfold str_slice. rewrite !length_app_str, decide_True by lia.
  replace (String.length a + String.length b - String.length a)%nat with (String.length b) by lia.
  by rewrite substring_app.
Qed.

Lemma str_slice_front {E} a b j :
  j = String.length a -> str_slice (E := E) (a ++ b) 0 j = Ok a.
Proof. intros ->. by apply (str_slice_app "" a b). Qed.

Lemma str_slice_back {E} a b i j :
  i = String.length a -> j = (String.length a + String.length b)%nat ->
  str_slice (E := E) (a ++ b) i j = Ok b.
Proof. intros -> ->. rewrite <- (app_nil_r_str b) at 1. by apply str_slice_app. Qed.

Lemma find_char_app c a b :
  contains_char c a = false -> find_char c (a ++ String c b) = Some (String.length a).
Proof.
  induction a as [|x a IH]; cbn; [by rewrite Ascii.eqb_refl|].
  intros [Hx Ha]%orb_false_iff. by rewrite Hx, IH.
Qed.

Lemma find_char_none c s : contains_char c s = false -> find_char c s = None.
Proof.
  induction s as [|x s IH]; cbn; [done|]. intros [Hx Hs]%orb_false_iff. by rewrite Hx, IH.
Qed.

Lemma index_cons pat b s :
  String.index 0 pat (String b s) =
  if String.prefix pat (String b s) then Some O else S <$> String.index 0 pat s.
Proof. cbn [String.index]. destruct (String.prefix _ _); [done|]. by destruct (String.index 0 pat s). Qed.

Lemma prefix_le_other b s : Ascii.eqb b "<" = false -> String.prefix "<=" (String b s) = false.
Proof.
  intros Hb%Ascii.eqb_neq. cbn [String.prefix].
  destruct (ascii_dec "<" b) as [<-|]; [congruence|done].
Qed.

Lemma find_str_le a b :
  contains_char "<" a = false -> find_str "<=" (a ++ "<=" ++ b) = Some (String.length a).
Proof.
  unfold find_str. intros H. induction a as [|x a IH].
  - change ("" ++ "<=" ++ b) with (String "<" (String "=" b)). rewrite index_cons.
    change (String.prefix "<=" (String "<" (String "=" b))) with (String.prefix "" b). by destruct b.
  - cbn in H. apply orb_false_iff in H as [Hx Ha].
    rewrite app_cons_str, index_cons, prefix_le_other by done. by rewrite IH.
Qed.

Lemma find_str_none s : contains_char "<" s = false -> find_str "<=" s = None.
Proof.
  unfold find_str. induction s as [|x s IH]; [done|]. cbn [contains_char].
  intros [Hx Ha]%orb_false_iff. rewrite index_cons, prefix_le_other by done. by rewrite IH.
Qed.

Lemma ends_with_char_last c s : ends_with_char c (s ++ String c "") = true.
Proof.
  induction s as [|a s IH]; cbn; [apply Ascii.eqb_refl|]. destruct s; [apply Ascii.eqb_refl|exact IH].
Qed.

Lemma ident_no c s :
  ident s -> In c ["["%char; "]"%char; "/"%char; "<"%char; "="%char] -> contains_char c s = false.
Proof.
  intros [_ H] Hc. unfold no_chars in H. rewrite forallb_forall in H.
  specialize (H c Hc). by apply negb_true_iff in H.
Qed.

Ltac ident_side := first [eapply ident_no; [eassumption|cbn; tauto] | apply Z_dec_contains; done].

Lemma Z_dec_nonempty n : nonempty (Z_dec n) = true.
Proof.
  unfold Z_dec. by destruct (N.to_uint (Z.to_N n)).
Qed.

(** The array suffix, after a name without brackets. *)
Definition array_ok (a : ArrayType) : Prop :=
  match a with Fixed n | Bounded n => usize_ok n | _ => True end.

Lemma strip_prefix_dec n : strip_prefix "<=" (Z_dec n) = None.
Proof.
  pose proof (Z_dec_contains "<" n eq_refl) as Hc. destruct (Z_dec n) as [|a s]; [done|].
  change (strip_prefix "<=" (String a s)) with (if Ascii.eqb "<" a then strip_prefix "=" s else None).
  cbn [contains_char] in Hc. apply orb_false_iff in Hc as [Ha _]. rewrite Ascii.eqb_sym. by rewrite Ha.
Qed.

Lemma parse_array_bracket base x :
  contains_char "[" base = false ->
  parse_array (base ++ String "[" (x ++ "]")) =
  (array ← (if negb (nonempty x) then Ok Unbounded
            else match strip_prefix "<=" x with
            | Some stripped => Bounded <$> ok_or (parse_usize stripped)
                ("Invalid bounded array size in '" ++ (base ++ String "[" (x ++ "]")) ++ "'")
            | None => Fixed <$> ok_or (parse_usize x)
                ("Invalid fixed array size in '" ++ (base ++ String "[" (x ++ "]")) ++ "'")
            end); Ok (base, array)).
Proof.
  intros Hb. unfold parse_array. rewrite (find_char_app "[" base) by done.
  assert (ends_with_char "]" (base ++ String "[" (x ++ "]")) = true) as ->.
  { change (base ++ String "[" (x ++ "]")) with (base ++ (("[" ++ x) ++ String "]" "")).
    rewrite <- app_assoc_str. apply ends_with_char_last. }
  cbn [negb]. rewrite str_slice_front by done. cbn [mbind res_bind].
  assert (str_slice (E := string) (base ++ String "[" (x ++ "]")) (String.length base + 1)
    (String.length (base ++ String "[" (x ++ "]")) - 1) = Ok x) as ->.
  { change (base ++ String "[" (x ++ "]")) with (base ++ ("[" ++ (x ++ "]"))).
    rewrite <- (app_assoc_str base). apply str_slice_app; rewrite !length_app_str; cbn; lia. }
  done.
Qed.

Lemma parse_array_print base a :
  contains_char "[" base = false -> array_ok a ->
  parse_array (base ++ print_array a) = Ok (base, a).
Proof.
  intros Hb Ha. destruct a as [|n|n|]; cbn [print_array].
  - unfold parse_array. by rewrite app_nil_r_str, find_char_none.
  - change ("[" ++ Z_dec n ++ "]") with (String "[" (Z_dec n ++ "]")).
    rewrite parse_array_bracket by done. rewrite Z_dec_nonempty, strip_prefix_dec, parse_usize_Z_dec by done.
    done.
  - change ("[<=" ++ Z_dec n ++ "]") with (String "[" (("<=" ++ Z_dec n) ++ "]")).
    rewrite parse_array_bracket by done. change (nonempty ("<=" ++ Z_dec n)) with true.
    rewrite strip_prefix_app, parse_usize_Z_dec by done. done.
  - change "[]" with (String "[" ("" ++ "]")). by rewrite parse_array_bracket.
Qed.

Lemma bounded_string_none s :
  contains_char "<" s = false \/ contains_char "[" s = true -> bounded_string s = None.
Proof.
  unfold bounded_string. intros [H|H]; [by rewrite find_str_none|].
  destruct (find_str "<=" s); [by rewrite H|done].
Qed.

Lemma print_array_le a base :
  contains_char "<" base = false ->
  contains_char "<" (base ++ print_array a) = false \/ contains_char "[" (base ++ print_array a) = true.
Proof.
  intros Hb. rewrite !contains_char_app, Hb. destruct a as [|n|n|]; cbn; auto; right; by rewrite orb_true_r.
Qed.

Lemma parse_type_print t pkg : type_ok t -> parse_field_type (print_type t) pkg = Ok t.
Proof.
  destruct t as [base p a sb]. unfold type_ok, print_type, parse_field_type.
  cbn [string_bound ft_package array base_type].
  intros [Hb Ht]. destruct sb as [n|].
  - destruct Ht as (Hn & -> & ->). unfold bounded_string.
    rewrite (find_str_le base) by ident_side.
    assert (contains_char "[" (base ++ "<=" ++ Z_dec n) = false) as ->.
    { rewrite !contains_char_app. rewrite (ident_no "[" base) by (done || cbn; tauto).
      by rewrite Z_dec_contains. }
    rewrite str_slice_front by done. cbn [mbind res_bind].
    replace (base ++ "<=" ++ Z_dec n) with ((base ++ "<=") ++ Z_dec n) by apply app_assoc_str.
    rewrite (str_slice_back (base ++ "<=")) by (rewrite !length_app_str; done).
    cbn [mbind res_bind]. by rewrite parse_usize_Z_dec.
  - destruct Ht as [Hp Ha].
    assert (exists q, match p with Some p => p ++ "/" | None => "" end ++ base ++ print_array a
        = q ++ print_array a /\ contains_char "[" q = false /\ contains_char "<" q = false /\
      split_package q = Ok (p, base)) as (q & -> & H1 & H2 & H3).
    { destruct p as [p|].
      - exists (p ++ "/" ++ base). rewrite !app_assoc_str. split; [done|].
        rewrite !contains_char_app. cbn [contains_char].
        rewrite !(ident_no "[" p), !(ident_no "[" base), !(ident_no "<" p), !(ident_no "<" base)
          by (done || cbn; tauto).
        split_and!; [done|done|]. unfold split_package. change (p ++ "/" ++ base) with (p ++ String "/" base) at 1.
        rewrite (find_char_app "/" p) by ident_side.
        rewrite str_slice_front by done. cbn [mbind res_bind].
        replace (p ++ "/" ++ base) with ((p ++ "/") ++ base) by apply app_assoc_str.
        by rewrite (str_slice_back (p ++ "/")) by (rewrite !length_app_str; cbn; lia).
      - exists base. split; [done|]. split_and!; [ident_side|ident_side|].
        unfold split_package. rewrite find_char_none by ident_side.
        by destruct (String.eqb_spec base "Header"). }
    rewrite bounded_string_none by (by apply print_array_le).
    rewrite parse_array_print by done. cbn [mbind res_bind]. rewrite H3. done.
Qed.

(** ** Defaults *)

Lemma digit_graphic a : is_ascii_digit a = true -> graphic a = true.
Proof.
  unfold is_ascii_digit, graphic. fold (code a). rewrite !andb_true_iff, !Z.leb_le. intros [? ?].
  split; [split; lia|]. destruct (Ascii.eqb_spec a "#") as [->|]; [|done]. vm_compute in H. done.
Qed.

Lemma Z_dec_word n : word (Z_dec n) = true.
Proof.
  unfold word. rewrite Z_dec_nonempty. cbn [andb].
  eapply all_chars_impl; [apply digit_graphic|apply Z_dec_digits].
Qed.

Lemma word_app a b : word a = true -> all_chars graphic b = true -> word (a ++ b) = true.
Proof.
  unfold word. intros [Hn Ha]%andb_true_iff Hb. rewrite all_chars_app, Ha, Hb.
  destruct a; [done|]. done.
Qed.

Lemma word_graphic w : word w = true -> all_chars graphic w = true.
Proof. by intros [_ H]%andb_true_iff. Qed.

Lemma Z_str_word z : word (Z_str z) = true.
Proof.
  unfold Z_str. destruct (z <? 0)%Z; [|apply Z_dec_word].
  apply (word_app "-"); [done|]. apply word_graphic, Z_dec_word.
Qed.

Lemma Z_str_cons z : exists a r, Z_str z = String a r /\ (a = "-"%char \/ is_ascii_digit a = true).
Proof.
  unfold Z_str. destruct (z <? 0)%Z; [by eexists _, _; split; [done|left]|].
  pose proof (Z_dec_nonempty z) as Hn. pose proof (Z_dec_digits z) as Hd.
  destruct (Z_dec z) as [|a r]; [done|]. cbn in Hd. apply andb_true_iff in Hd as [Ha _]. eauto.
Qed.

Lemma Z_str_contains c z :
  c <> "-"%char -> is_ascii_digit c = false -> contains_char c (Z_str z) = false.
Proof.
  intros Hc Hd. unfold Z_str. destruct (z <? 0)%Z; [|by apply Z_dec_contains].
  change ("-" ++ Z_dec (- z)) with (String "-" (Z_dec (- z))). cbn [contains_char].
  rewrite Z_dec_contains by done. rewrite orb_false_r. apply Ascii.eqb_neq. congruence.
Qed.

Lemma Z_str_other z s : contains_char "-" s = false -> all_chars is_ascii_digit s = false ->
  String.eqb (Z_str z) s = false.
Proof.
  intros Hc Hd. apply String.eqb_neq. intros <-. unfold Z_str in *.
  destruct (z <? 0)%Z; [done|]. by rewrite Z_dec_digits in Hd.
Qed.

Lemma uint_of_string_Z_dec n : (0 <= n)%Z ->
  exists d, NilZero.uint_of_string (Z_dec n) = Some d /\ Z.of_N (N.of_uint d) = n.
Proof.
  intros Hn. exists (N.to_uint (Z.to_N n)). unfold Z_dec. rewrite NilZero.usu by apply uint_nonnil.
  split; [done|]. by rewrite DecimalN.Unsigned.of_to, Z2N.id.
Qed.

Lemma parse_i64_Z_str z : i64_ok z -> parse_i64 (Z_str z) = Some z.
Proof.
  intros [Hl Hh]. unfold Z_str. destruct (Z.ltb_spec z 0) as [Hz|Hz].
  - change ("-" ++ Z_dec (- z)) with (String "-" (Z_dec (- z))). unfold parse_i64. cbn [Ascii.eqb Bool.eqb].
    destruct (uint_of_string_Z_dec (- z) ltac:(lia)) as (d & -> & ->).
    rewrite Z.opp_involutive. rewrite (proj2 (Z.leb_le _ _)), (proj2 (Z.ltb_lt _ _)) by lia. done.
  - pose proof (Z_dec_contains "-" z eq_refl) as H1. pose proof (Z_dec_contains "+" z eq_refl) as H2.
    destruct (uint_of_string_Z_dec z Hz) as (d & Hd & He). unfold parse_i64.
    destruct (Z_dec z) as [|a r]; [done|]. cbn [contains_char] in H1, H2.
    apply orb_false_iff in H1 as [-> _]. apply orb_false_iff in H2 as [-> _]. rewrite Hd, He.
    rewrite (proj2 (Z.leb_le _ _)), (proj2 (Z.ltb_lt _ _)) by lia. done.
Qed.

Lemma parse_bool_Z_str z : parse_bool (Z_str z) = None.
Proof. unfold parse_bool. by rewrite !Z_str_other. Qed.

Lemma digit_other a c : is_ascii_digit a = true -> is_ascii_digit c = false -> Ascii.eqb a c = false.
Proof. intros Ha Hc. apply Ascii.eqb_neq. congruence. Qed.

Lemma Z_str_starts z c : c <> "-"%char -> is_ascii_digit c = false -> starts_with_char c (Z_str z) = false.
Proof.
  intros H1 H2. destruct (Z_str_cons z) as (a & r & -> & [->|Ha]); cbn [starts_with_char].
  - apply Ascii.eqb_neq. congruence.
  - by apply digit_other.
Qed.

Lemma mapM_map {A B C} (f : B -> option C) (g : A -> B) (h : A -> C) l :
  Forall (fun x => f (g x) = Some (h x)) l -> mapM f (map g l) = Some (map h l).
Proof. induction 1 as [|x l Hx _ IH]; [done|]. cbn. rewrite Hx. cbn. by rewrite IH. Qed.

Lemma join_on_chars f c ps :
  f c = true -> Forall (fun p => all_chars f p = true) ps -> all_chars f (join_on c ps) = true.
Proof.
  intros Hc. induction 1 as [|p ps Hp Hps IH]; [done|]. destruct ps as [|q ps]; [done|].
  change (join_on c (p :: q :: ps)) with (p ++ String c (join_on c (q :: ps))).
  rewrite all_chars_app, Hp. cbn [all_chars andb]. by rewrite Hc, IH.
Qed.

Lemma bool_str_word b : word (bool_str b) = true.
Proof. by destruct b. Qed.

(** The elements of a printed array. *)
Lemma parse_elements ps :
  ps <> [] -> Forall (fun p => word p = true /\ contains_char "," p = false) ps ->
  let s := "[" ++ join_on "," ps ++ "]" in
  starts_with_char "[" s && ends_with_char "]" s = true /\
  str_slice (E := string) s 1 (String.length s - 1) = Ok (join_on "," ps) /\
  nonempty (join_on "," ps) = true /\ map trim (split_on "," (join_on "," ps)) = ps.
Proof.
  intros Hne Hps s. split_and!.
  - subst s. cbn [starts_with_char append]. rewrite Ascii.eqb_refl. cbn [andb].
    change (String "[" (join_on "," ps ++ "]")) with (("[" ++ join_on "," ps) ++ String "]" "").
    apply ends_with_char_last.
  - subst s. apply (str_slice_app "["); [done|]. rewrite !length_app_str. cbn. lia.
  - destruct Hps as [|p ps [Hp _] _]; [done|]. apply word_cons in Hp as (a & r & -> & _).
    by destruct ps.
  - rewrite split_on_join; [|done|eapply Forall_impl; [exact Hps|by intros ? []]].
    clear Hne. induction Hps as [|p ps [Hp _] _ IH]; [done|]. cbn [map]. rewrite IH.
    rewrite trim_line; [done|]. apply (join_space_line p []). by constructor.
Qed.

Lemma parse_default_print d : default_ok d -> parse_default_value (print_default d) = Ok d.
Proof.
  destruct d as [b|z| |s|l|l| |]; cbn [default_ok print_default]; try done; intros H.
  - by destruct b.
  - unfold parse_default_value. rewrite Z_str_starts by done. cbn [andb].
    rewrite parse_bool_Z_str. unfold quoted. rewrite !Z_str_starts by done. cbn [andb orb].
    by rewrite parse_i64_Z_str.
  - destruct H as [Hs _]. unfold parse_default_value.
    change (starts_with_char "[" (String double_quote (s ++ String double_quote ""))) with false.
    cbn [andb].
    assert (parse_bool (String double_quote (s ++ String double_quote "")) = None) as -> by done.
    assert (quoted (String double_quote (s ++ String double_quote "")) = true) as ->.
    { unfold quoted. apply orb_true_iff. left. apply andb_true_iff. split; [done|].
      apply (ends_with_char_last double_quote (String double_quote s)). }
    unfold unquote. rewrite (str_slice_app (String double_quote "") s (String double_quote "")
      1 (String.length (String double_quote (s ++ String double_quote "")) - 1)); [done|done|].
    cbn. rewrite length_app_str. cbn. lia.
  - destruct (parse_elements (map bool_str l)) as (H1 & H2 & H3 & H4).
    { by destruct l. }
    { apply Forall_map, Forall_true. by intros []. }
    unfold parse_default_value. rewrite H1, H2. cbn [mbind res_bind]. rewrite H3, H4. cbn [negb].
    rewrite (mapM_map _ _ (fun b => b)); [by rewrite map_id|]. apply Forall_true. by intros [].
  - destruct H as [Hl Hok]. destruct (parse_elements (map Z_str l)) as (H1 & H2 & H3 & H4).
    { by destruct l. }
    { apply Forall_map, Forall_true. intros z. split; [apply Z_str_word|by apply Z_str_contains]. }
    unfold parse_default_value. rewrite H1, H2. cbn [mbind res_bind]. rewrite H3, H4. cbn [negb].
    assert (mapM parse_bool (map Z_str l) = None) as ->.
    { destruct l as [|z l]; [done|]. cbn. by rewrite parse_bool_Z_str. }
    rewrite (mapM_map _ _ (fun z => z)); [by rewrite map_id|].
    eapply Forall_impl; [exact Hok|]. apply parse_i64_Z_str.
Qed.

(** ** Fields and constants *)

Lemma ident_word s : ident s -> word s = true.
Proof. by intros [H _]. Qed.

Lemma print_array_graphic a : all_chars graphic (print_array a) = true.
Proof.
  destruct a as [|n|n|]; try done; cbn [print_array];
    rewrite !all_chars_app, (word_graphic _ (Z_dec_word n)); done.
Qed.

Lemma print_type_word t : type_ok t -> word (print_type t) = true.
Proof.
  destruct t as [base p a sb]. unfold type_ok, print_type. cbn [string_bound ft_package array base_type].
  intros [Hb%ident_word Ht]. destruct sb as [n|].
  - apply word_app; [done|]. rewrite all_chars_app, (word_graphic _ (Z_dec_word n)). done.
  - assert (word (base ++ print_array a) = true) as Hw by (apply word_app; [done|apply print_array_graphic]).
    destruct p as [p|]; [|done]. destruct Ht as [Hp%ident_word _].
    rewrite app_assoc_str. apply word_app; [done|].
    rewrite all_chars_app, (word_graphic _ Hw). done.
Qed.

Lemma print_default_word d : default_ok d -> word (print_default d) = true.
Proof.
  assert (forall ps, Forall (fun p => word p = true) ps -> word ("[" ++ join_on "," ps ++ "]") = true) as Hj.
  { intros ps Hps. apply word_app; [done|]. rewrite all_chars_app, join_on_chars; [done|done|].
    eapply Forall_impl; [exact Hps|]. apply word_graphic. }
  destruct d as [b|z| |s|l|l| |]; cbn [default_ok print_default]; try done; intros H.
  - by destruct b.
  - apply Z_str_word.
  - apply (word_app (String double_quote "")); [done|]. rewrite all_chars_app.
    destruct H as [-> _]. done.
  - apply Hj, Forall_map, Forall_true. apply bool_str_word.
  - apply Hj, Forall_map, Forall_true. apply Z_str_word.
Qed.

(** The equality sign occurs in a printed field only after ['<']. *)
Lemma join_on_contains c sep ps :
  Ascii.eqb sep c = false -> Forall (fun p => contains_char c p = false) ps ->
  contains_char c (join_on sep ps) = false.
Proof.
  intros Hc. induction 1 as [|p ps Hp Hps IH]; [done|]. destruct ps as [|q ps]; [done|].
  change (join_on sep (p :: q :: ps)) with (p ++ String sep (join_on sep (q :: ps))).
  rewrite contains_char_app, Hp. cbn [contains_char orb]. by rewrite Hc, IH.
Qed.

Lemma print_default_eq d : default_ok d -> contains_char "=" (print_default d) = false.
Proof.
  destruct d as [b|z| |s|l|l| |]; cbn [default_ok print_default]; try done; intros H.
  - by destruct b.
  - by apply Z_str_contains.
  - destruct H as [_ H]. cbn. rewrite contains_char_app, H. done.
  - rewrite !contains_char_app, join_on_contains; [done|done|].
    apply Forall_map, Forall_true. by intros [].
  - rewrite !contains_char_app, join_on_contains; [done|done|].
    apply Forall_map, Forall_true. intros z. by apply Z_str_contains.
Qed.

Lemma print_type_eq t : type_ok t ->
  contains_char "=" (print_type t) = false \/
  exists a b, print_type t = a ++ "<=" ++ b /\ contains_char "=" a = false.
Proof.
  destruct t as [base p a sb]. unfold type_ok, print_type. cbn [string_bound ft_package array base_type].
  intros [Hb Ht]. assert (contains_char "=" base = false) as He by ident_side. destruct sb as [n|]; [eauto|].
  destruct Ht as [Hp _].
  assert (exists q, match p with Some p => p ++ "/" | None => "" end ++ base ++ print_array a
    = q ++ print_array a /\ contains_char "=" q = false) as (q & -> & Hq).
  { destruct p as [p|]; [|eauto]. exists (p ++ "/" ++ base). rewrite !app_assoc_str. split; [done|].
    rewrite !contains_char_app, He, (ident_no "=" p) by (done || cbn; tauto). done. }
  rewrite contains_char_app, Hq. cbn [orb].
  destruct a as [|n|n|]; cbn [print_array].
  - by left.
  - left. by rewrite !contains_char_app, Z_dec_contains.
  - right. exists (q ++ "["), (Z_dec n ++ "]"). rewrite app_assoc_str. split; [done|].
    by rewrite contains_char_app, Hq.
  - by left.
Qed.

Lemma string_get_app a c b : String.get (String.length a) (a ++ String c b) = Some c.
Proof. induction a as [|x a IH]; [done|]. exact IH. Qed.

Lemma is_constant_le a b : contains_char "=" a = false -> is_constant (a ++ "<=" ++ b) = false.
Proof.
  intros Ha. unfold is_constant.
  replace (a ++ "<=" ++ b) with ((a ++ "<") ++ String "=" b) by (by rewrite app_assoc_str).
  rewrite find_char_app by (by rewrite contains_char_app, Ha).
  rewrite length_app_str. cbn [String.length].
  replace (String.length a + 1 - 1)%nat with (String.length a) by lia.
  rewrite app_assoc_str. change ("<" ++ String "=" b) with (String "<" (String "=" b)).
  rewrite string_get_app. destruct (Nat.eqb_spec (String.length a + 1) 0); [lia|done].
Qed.

Lemma is_constant_none s : contains_char "=" s = false -> is_constant s = false.
Proof. intros H. unfold is_constant. by rewrite find_char_none. Qed.

(** The rest of a printed field after its type. *)
Definition field_rest (f : PField) : list string :=
  pf_name f :: match pf_default f with Some d => [print_default d] | None => [] end.

Lemma field_rest_words f : field_ok f -> Forall (fun w => word w = true) (print_type (pf_type f) :: field_rest f).
Proof.
  intros (Ht & Hn & Hd). constructor; [by apply print_type_word|]. unfold field_rest.
  constructor; [by apply ident_word|]. destruct (pf_default f); constructor; [|done].
  by apply print_default_word.
Qed.

Lemma field_line f : field_ok f -> line_ok (print_field f).
Proof. intros H. by apply join_space_line, field_rest_words. Qed.

Lemma field_not_constant f : field_ok f -> is_constant (print_field f) = false.
Proof.
  intros (Ht & Hn & Hd).
  assert (contains_char "=" (String space (join_space (field_rest f))) = false) as Hr.
  { unfold field_rest. assert (contains_char "=" (pf_name f) = false) as Hi by ident_side.
    destruct (pf_default f) as [d|]; cbn [contains_char]; [|exact Hi].
    rewrite join_space_cons, contains_char_app, Hi. cbn [contains_char orb].
    change (join_space [print_default d]) with (print_default d). by rewrite print_default_eq. }
  change (print_field f) with (print_type (pf_type f) ++ String space (join_space (field_rest f))).
  destruct (print_type_eq _ Ht) as [H|(a & b & -> & Ha)].
  - apply is_constant_none. by rewrite contains_char_app, H.
  - rewrite app_assoc_str. change (("<=" ++ b) ++ ?r) with ("<=" ++ (b ++ r)). by apply is_constant_le.
Qed.

Lemma parse_field_print f pkg n : field_ok f -> parse_field (print_field f) pkg n = Ok f.
Proof.
  intros Hf. pose proof (split_whitespace_words _ (field_rest_words f Hf)) as Hw.
  destruct Hf as (Ht & Hn & Hd). unfold parse_field.
  change (print_field f) with (join_space (print_type (pf_type f) :: field_rest f)). rewrite Hw.
  unfold field_rest. rewrite parse_type_print by done. cbn [mbind res_bind].
  destruct f as [name t [d|]]; cbn [pf_default pf_name pf_type] in *; [|done].
  change (join_space [print_default d]) with (print_default d). by rewrite parse_default_print.
Qed.

(** *** Constants *)

Lemma constant_words c : constant_ok c -> exists w ws,
  Forall (fun w => word w = true) (w :: ws) /\ c_value c = join_space (w :: ws) /\
  Forall (fun w => word w = true) (const_type c :: c_name c :: "=" :: w :: ws).
Proof.
  intros (Ht%ident_word & Hn%ident_word & w & ws & Hw & He). exists w, ws. split_and!; [done|done|].
  repeat (constructor; [done|]). done.
Qed.

Lemma constant_line c : constant_ok c -> line_ok (print_constant c).
Proof.
  intros (w & ws & Hw & He & Hall)%constant_words. unfold print_constant. rewrite He.
  exact (join_space_line _ _ Hall).
Qed.

(** The declaration part, before the equality sign. *)
Definition decl (c : Constant) : string := const_type c ++ String space (c_name c ++ String space "").

Lemma print_constant_decl c : print_constant c = decl c ++ String "=" (String space (c_value c)).
Proof.
  unfold print_constant, decl. rewrite !join_space_cons.
  change (join_space [c_value c]) with (c_value c).
  by rewrite app_assoc_str, (app_cons_str space), app_assoc_str.
Qed.

Lemma decl_no c ch : constant_ok c -> In ch ["["%char; "]"%char; "/"%char; "<"%char; "="%char] ->
  contains_char ch (decl c) = false.
Proof.
  intros (Ht & Hn & _) Hc. unfold decl. rewrite contains_char_app, (ident_no ch _ Ht Hc).
  cbn [contains_char orb]. rewrite contains_char_app, (ident_no ch _ Hn Hc). cbn.
  repeat (destruct Hc as [<-|Hc]; [done|]). done.
Qed.

Lemma count_char_none c s : contains_char c s = false -> count_char c s = 0%nat.
Proof.
  induction s as [|a s IH]; [done|]. cbn. intros [Ha Hs]%orb_false_iff. by rewrite Ha, IH.
Qed.

Lemma constant_is_constant c : constant_ok c -> is_constant (print_constant c) = true.
Proof.
  intros Hc. rewrite print_constant_decl. unfold is_constant.
  rewrite find_char_app by (apply decl_no; [done|cbn; tauto]). rewrite substring_prefix.
  rewrite !count_char_none by (apply decl_no; [done|cbn; tauto]).
  assert (exists p, decl c = p ++ String space "") as [p Hp].
  { exists (const_type c ++ String space (c_name c)). unfold decl. by rewrite app_assoc_str. }
  rewrite Hp, length_app_str. cbn [String.length].
  replace (String.length p + 1 - 1)%nat with (String.length p) by lia.
  rewrite app_assoc_str. change (String space "" ++ ?r) with (String space r).
  rewrite string_get_app. by rewrite andb_false_r.
Qed.

Lemma splitn2_app c a b : contains_char c a = false -> splitn2 c (a ++ String c b) = [a; b].
Proof.
  intros Ha. unfold splitn2. rewrite find_char_app by done. rewrite substring_prefix.
  rewrite length_app_str. cbn [String.length].
  replace (String.length a + S (String.length b) - S (String.length a))%nat with (String.length b) by lia.
  assert (String.substring (S (String.length a)) (String.length b) (a ++ String c b) = b) as ->; [|done].
  change (a ++ String c b) with (a ++ (String c "" ++ b)).
  replace (S (String.length a)) with (String.length (a ++ String c "")) by (rewrite length_app_str; cbn; lia).
  rewrite <- app_assoc_str. pose proof (substring_app (a ++ String c "") b "") as H.
  by rewrite app_nil_r_str in H.
Qed.

Lemma parse_constant_print c n : constant_ok c -> parse_constant (print_constant c) n = Ok c.
Proof.
  intros Hc. pose proof (constant_words c Hc) as (w & ws & Hw & He & Hall).
  apply Forall_cons in Hall as [Ht [Hn _]%Forall_cons].
  rewrite print_constant_decl. unfold parse_constant.
  rewrite splitn2_app by (apply decl_no; [done|cbn; tauto]).
  assert (split_whitespace (decl c) = [const_type c; c_name c]) as ->.
  { unfold split_whitespace, decl. rewrite !ws_pieces_app by (by apply word_graphic). cbn [ws_pieces List.filter].
    apply andb_true_iff in Ht as [-> _], Hn as [-> _]. done. }
  assert (trim (String space (c_value c)) = c_value c) as ->.
  { pose proof (trim_line _ (join_space_line _ _ Hw)) as Htr. rewrite <- He in Htr.
    rewrite <- Htr at 2. unfold trim, trim_start. cbn [trim_start_go]. by rewrite ws_width_space. }
  by destruct c.
Qed.

(** ** Messages *)

Lemma line_nonempty s : line_ok s -> nonempty s = true.
Proof. by intros (_ & _ & a & r & -> & _). Qed.

Lemma parse_lines_constants pkg cs ls n fs acc :
  Forall constant_ok cs ->
  parse_lines pkg (map print_constant cs ++ ls) n fs acc
  = parse_lines pkg ls (n + length cs) fs (acc ++ cs)%list.
Proof.
  intros H. revert n acc. induction H as [|c cs Hc _ IH]; intros n acc.
  - cbn. by rewrite app_nil_r, Nat.add_0_r.
  - pose proof (constant_line c Hc) as Hl. cbn [map app parse_lines].
    rewrite strip_comment_line, trim_line, line_nonempty by (done || apply Hl).
    cbn [negb]. rewrite constant_is_constant, parse_constant_print by done.
    destruct Hc as (_ & [Hn _]%ident_word%andb_true_iff & _). rewrite Hn, IH, <- app_assoc.
    replace (n + length (c :: cs))%nat with (S n + length cs)%nat by (cbn; lia). done.
Qed.

Lemma parse_lines_fields pkg fs n acc cs :
  Forall field_ok fs ->
  parse_lines pkg (map print_field fs) n acc cs = Ok ((acc ++ fs)%list, cs).
Proof.
  intros H. revert n acc. induction H as [|f fs Hf _ IH]; intros n acc.
  - cbn. by rewrite app_nil_r.
  - pose proof (field_line f Hf) as Hl. cbn [map parse_lines].
    rewrite strip_comment_line, trim_line, line_nonempty by (done || apply Hl).
    cbn [negb]. rewrite field_not_constant, parse_field_print by done. cbn [mbind res_bind].
    by rewrite IH, <- app_assoc.
Qed.

Lemma parse_print m :
  msg_ok m -> parse_msg_string (pm_source m) (pm_package m) (pm_path m) (Ok (pm_name m)) = Ok m.
Proof.
  intros (Hc & Hf & Hs). unfold parse_msg_string. cbn [mbind res_bind]. rewrite Hs at 1. unfold print_msg.
  rewrite lines_join.
  - rewrite parse_lines_constants, parse_lines_fields by done. by destruct m.
  - apply Forall_app. split; apply Forall_map.
    + eapply Forall_impl; [exact Hc|]. apply constant_line.
    + eapply Forall_impl; [exact Hf|]. apply field_line.
Qed.

(** ** Panics *)

(** A quote on its own, which both starts and ends with a quote. *)
Definition lone_quote (s : string) : Prop :=
  s = String double_quote "" \/ s = String single_quote "".
Definition array_text (s : string) : option (list string) :=
  if starts_with_char "[" s && ends_with_char "]" s
  then Some (map trim (split_on "," (String.substring 1 (String.length s - 2) s))) else None.
(** A default that makes the parser slice out of range. *)
Definition bad_default (s : string) : Prop :=
  lone_quote s \/ exists l pre e post, array_text s = Some l /\ l = (pre ++ e :: post)%list /\
    lone_quote e /\ Forall (fun p => quoted p = true /\ ~ lone_quote p) pre.

Lemma str_slice_panic {E} s a b :
  str_slice (E := E) s a b = Panic <-> ~ (a <= b /\ b <= String.length s)%nat.
Proof. unfold str_slice. destruct (decide _); split; try done. Qed.

Lemma str_slice_not_err {E} s a b (e : E) : str_slice s a b <> Err e.
Proof. unfold str_slice. by destruct (decide _). Qed.

Lemma quoted_cases s : quoted s = true -> lone_quote s \/ (2 <= String.length s)%nat.
Proof.
  unfold quoted, lone_quote. destruct s as [|a [|b s]]; cbn; [done| |lia].
  rewrite orb_true_iff, !andb_true_iff, !Ascii.eqb_eq. intros [[-> _]|[-> _]]; auto.
Qed.

Lemma unquote_panic s : quoted s = true -> unquote s = Panic <-> lone_quote s.
Proof.
  intros Hq. unfold unquote. rewrite str_slice_panic. split.
  - intros H. destruct (quoted_cases s Hq); [done|]. lia.
  - intros [->| ->]; cbn; lia.
Qed.

Lemma unquote_all_panic l : unquote_all l = Panic <->
  exists pre e post, l = (pre ++ e :: post)%list /\ lone_quote e /\
    Forall (fun p => quoted p = true /\ ~ lone_quote p) pre.
Proof.
  induction l as [|x l IH]; cbn [unquote_all].
  - split; [done|]. intros ([|? ?] & ? & ? & ? & _); done.
  - destruct (quoted x) eqn:Hq.
    + destruct (unquote x) as [y|y|] eqn:Hu; cbn [mbind res_bind].
      * assert (~ lone_quote x) as Hx by (rewrite <- unquote_panic by done; congruence).
        transitivity (unquote_all l = Panic); [by destruct (unquote_all l)|]. rewrite IH. split.
        -- intros (pre & e & post & -> & He & Hp). exists (x :: pre), e, post. auto.
        -- intros ([|p pre] & e & post & Heq & He & Hp); simplify_list_eq; [done|].
           apply Forall_cons in Hp as [_ Hp]. eauto 6.
      * by apply str_slice_not_err in Hu.
      * split; [|done]. intros _. apply unquote_panic in Hu; [|done]. by exists [], x, l.
    + split; [done|]. intros ([|p pre] & e & post & Heq & He & Hp); simplify_list_eq.
      * destruct He as [->| ->]; done.
      * apply Forall_cons in Hp as [[? _] _]. congruence.
Qed.

Lemma mapM_None {A B} (f : A -> option B) l x : x ∈ l -> f x = None -> mapM f l = None.
Proof.
  induction 1 as [x l|x y l _ IH]; intros Hx; cbn; [by rewrite Hx|].
  destruct (f y); cbn; [by rewrite IH|done].
Qed.

Lemma brackets_length s :
  starts_with_char "[" s = true -> ends_with_char "]" s = true -> (2 <= String.length s)%nat.
Proof.
  destruct s as [|a [|b s]]; cbn [starts_with_char ends_with_char]; [done| |cbn; lia].
  rewrite !Ascii.eqb_eq. by intros -> [=].
Qed.

Lemma lone_quote_plain e : lone_quote e ->
  parse_bool e = None /\ parse_i64 e = None /\ parse_f64 e = None /\ quoted e = true.
Proof. by intros [->| ->]. Qed.

Lemma lone_quote_no_bracket e : lone_quote e -> starts_with_char "[" e = false.
Proof. by intros [->| ->]. Qed.

Lemma parse_default_panics s : parse_default_value s = Panic <-> bad_default s.
Proof.
  unfold parse_default_value, bad_default, array_text.
  destruct (starts_with_char "[" s && ends_with_char "]" s) eqn:Hb.
  - apply andb_true_iff in Hb as [H1 H2]. pose proof (brackets_length s H1 H2) as Hlen.
    assert (str_slice (E := string) s 1 (String.length s - 1)
      = Ok (String.substring 1 (String.length s - 2) s)) as ->.
    { unfold str_slice. rewrite decide_True by lia. do 2 f_equal. lia. }
    cbn [mbind res_bind]. set (inner := String.substring _ _ s).
    assert ((exists l pre e post, Some (map trim (split_on "," inner)) = Some l /\
      l = (pre ++ e :: post)%list /\ lone_quote e /\
      Forall (fun p => quoted p = true /\ ~ lone_quote p) pre) <->
      unquote_all (map trim (split_on "," inner)) = Panic) as Hex.
    { rewrite unquote_all_panic. naive_solver. }
    rewrite Hex. clear Hex.
    transitivity (unquote_all (map trim (split_on "," inner)) = Panic);
      [|split; [auto|]; intros [Hl|?]; [|done]; apply lone_quote_no_bracket in Hl; congruence].
    destruct (nonempty inner) eqn:Hin; cbn [negb].
    + destruct (unquote_all _) as [o|o|] eqn:Hu.
      * cbn [mbind res_bind]. split; [|done]. repeat case_match; done.
      * cbn [mbind res_bind]. split; [|done]. repeat case_match; done.
      * apply unquote_all_panic in Hu as (pre & e & post & Hl & He & _).
        apply lone_quote_plain in He as (N1 & N2 & N3 & _).
        assert (e ∈ map trim (split_on "," inner)) as Hi
          by (rewrite Hl; apply elem_of_app; right; by left).
        rewrite (mapM_None _ _ _ Hi N1), (mapM_None _ _ _ Hi N2), (mapM_None _ _ _ Hi N3). done.
    + split; [done|]. destruct inner; [done|done].
  - destruct (parse_bool s) eqn:Hpb.
    { split; [done|]. intros [Hl|(? & ? & ? & ? & ? & _)]; [|done].
      apply lone_quote_plain in Hl as []. congruence. }
    destruct (quoted s) eqn:Hq.
    + transitivity (unquote s = Panic); [by destruct (unquote s)|]. rewrite unquote_panic by done.
      split; [auto|]. by intros [?|(? & ? & ? & ? & ? & _)].
    + split; [by repeat case_match|].
      intros [Hl|(? & ? & ? & ? & ? & _)]; [|done].
      apply lone_quote_plain in Hl as (_ & _ & _ & Hl). congruence.
Qed.

Lemma find_char_lt c s i : find_char c s = Some i -> (i < String.length s)%nat.
Proof.
  revert i. induction s as [|a s IH]; intros i; cbn; [done|].
  destruct (Ascii.eqb a c); [intros [= <-]; lia|].
  destruct (find_char c s) as [j|]; [|done]. intros [= <-]. specialize (IH j eq_refl). lia.
Qed.

Lemma find_bracket_lt s i :
  find_char "[" s = Some i -> ends_with_char "]" s = true -> (i + 2 <= String.length s)%nat.
Proof.
  revert i. induction s as [|a s IH]; intros i; [done|]. cbn [find_char].
  destruct (Ascii.eqb_spec a "[") as [->|].
  - intros [= <-]. destruct s; [done|]. cbn. lia.
  - destruct (find_char "[" s) as [j|] eqn:Hj; [|done]. intros [= <-] He.
    destruct s as [|b s]; [done|]. specialize (IH j eq_refl He). cbn in *. lia.
Qed.

Lemma find_le_lt s i : find_str "<=" s = Some i -> (i + 2 <= String.length s)%nat.
Proof.
  unfold find_str. revert i. induction s as [|a s IH]; intros i; [done|]. rewrite index_cons.
  destruct (String.prefix "<=" (String a s)) eqn:Hp.
  - intros [= <-]. destruct s as [|b s]; [|cbn; lia].
    cbn [String.prefix] in Hp. destruct (ascii_dec "<" a); discriminate Hp.
  - destruct (String.index 0 "<=" s) as [j|]; [|done]. intros [= <-]. specialize (IH j eq_refl). cbn. lia.
Qed.

Lemma no_panic_slice {E} s a b :
  (a <= b)%nat -> (b <= String.length s)%nat -> no_panic (str_slice (E := E) s a b).
Proof. intros ? ? H. apply str_slice_panic in H. lia. Qed.

Lemma parse_field_type_no_panic s pkg : no_panic (parse_field_type s pkg).
Proof.
  unfold parse_field_type. destruct (bounded_string s) as [r|] eqn:Hr.
  - unfold bounded_string in Hr. destruct (find_str "<=" s) as [i|] eqn:Hi; [|done].
    apply find_le_lt in Hi. destruct (contains_char "[" s); [done|]. injection Hr as <-.
    repeat (apply no_panic_bind; [first [apply no_panic_slice; lia|auto with rosz]|intros ? _]).
    auto with rosz.
  - apply no_panic_bind.
    + unfold parse_array. destruct (find_char "[" s) as [i|] eqn:Hi; [|auto with rosz].
      destruct (ends_with_char "]" s) eqn:He; [|apply no_panic_Err].
      apply find_bracket_lt in Hi; [|done]. cbn [negb].
      do 2 (apply no_panic_bind; [apply no_panic_slice; lia|intros ? _]).
      apply no_panic_bind; [|intros ? _; apply no_panic_Ok].
      destruct (negb _); [apply no_panic_Ok|].
      destruct (strip_prefix _ _) as [x|]; [by destruct (parse_usize x)|by destruct (parse_usize _)].
    + intros [base arr] _. apply no_panic_bind; [|intros [? ?] _; auto with rosz].
      unfold split_package. destruct (find_char "/" base) as [i|] eqn:Hi.
      * apply find_char_lt in Hi.
        repeat (apply no_panic_bind; [apply no_panic_slice; lia|intros ? _]). auto with rosz.
      * destruct (String.eqb base "Header"); auto with rosz.
Qed.

Lemma parse_constant_no_panic line n : no_panic (parse_constant line n).
Proof. unfold parse_constant. repeat case_match; auto with rosz. Qed.

(** The text of the default on a source line that declares a field. *)
Definition default_text (line : string) : option string :=
  let line := trim (strip_comment line) in
  if is_constant line then None
  else match split_whitespace line with
       | _ :: _ :: w :: ws => Some (join_space (w :: ws))
       | _ => None
       end.

Lemma parse_lines_panic pkg ls n fs cs :
  parse_lines pkg ls n fs cs = Panic ->
  exists line s, line ∈ ls /\ default_text line = Some s /\ bad_default s.
Proof.
  revert n fs cs. induction ls as [|l ls IH]; intros n fs cs; cbn [parse_lines]; [done|].
  assert (forall n fs cs, parse_lines pkg ls n fs cs = Panic ->
    exists line s, line ∈ l :: ls /\ default_text line = Some s /\ bad_default s) as IH'.
  { intros ? ? ? (line & s & Hl & H)%IH. exists line, s. split; [by right|done]. }
  destruct (nonempty (trim (strip_comment l))); cbn [negb]; [|apply IH'].
  destruct (is_constant (trim (strip_comment l))) eqn:Hc.
  - destruct (parse_constant _ n) eqn:Hp; [apply IH'|apply IH'|].
    by destruct (parse_constant_no_panic (trim (strip_comment l)) n).
  - destruct (parse_field _ pkg n) as [f|e|] eqn:Hf; cbn [mbind res_bind]; [apply IH'|done|]. intros _.
    unfold parse_field in Hf.
    destruct (split_whitespace (trim (strip_comment l))) as [|t [|name rest]] eqn:Hw; try done.
    destruct (parse_field_type t pkg) eqn:Ht; cbn [mbind res_bind] in Hf; [|done|by destruct (parse_field_type_no_panic t pkg)].
    destruct rest as [|w ws]; [done|].
    exists l, (join_space (w :: ws)). split; [by left|]. split; [unfold default_text; by rewrite Hc, Hw|].
    apply parse_default_panics. by destruct (parse_default_value _).
Qed.

(** ** The properties *)

(** C34 Round trip of message definitions: a message whose constants and fields
    are well formed (every type form: plain, of a package, bounded string, the
    four array forms; defaults that are booleans, integers, quoted words and
    arrays of the first two) parses back from its printed text to itself. *)
Theorem parse_msg_print m :
  msg_ok m ->
  parse_msg_string (print_msg m) (pm_package m) (pm_path m) (Ok (pm_name m)) = Ok m.
Proof. intros H. pose proof H as (_ & _ & Hs). rewrite <- Hs. by apply parse_print. Qed.

(** The only inputs on which the message parser can panic have a field whose
    default text is one quotation mark on its own (single or double), or an
    array with such an element after quoted elements; and [parse_default_value]
    does panic on all of those. *)
Theorem parse_msg_panics source package path stem :
  parse_msg_string source package path (Ok stem) = Panic ->
  exists line s, line ∈ lines source /\ default_text line = Some s /\
    bad_default s /\ parse_default_value s = Panic.
Proof.
  unfold parse_msg_string. cbn [mbind res_bind].
  destruct (parse_lines package (lines source) 0 [] []) as [[? ?]|e|] eqn:Hp; try done. intros _.
  apply parse_lines_panic in Hp as (line & s & Hl & Hs & Hb). exists line, s.
  split_and!; try done. by apply parse_default_panics.
Qed.

Definition ex_msg : ParsedMessage :=
  let fields := [
    mkPField "b" (mkPFieldType "uint8" None (Bounded 20) None) None;
    mkPField "p" (mkPFieldType "Point" (Some "geometry_msgs") Unbounded None) None;
    mkPField "s" (mkPFieldType "string" None Single (Some 255%Z)) None;
    mkPField "n" (mkPFieldType "int32" None (Fixed 2) None) (Some (DvIntArray [-7; 8]%Z));
    mkPField "t" (mkPFieldType "bool" None Single None) (Some (DvBool true))] in
  let constants := [mkConstant "A" "uint8" "1"; mkConstant "B" "string" "two words"] in
  mkParsed "Test" "pkg" fields constants
    (join_on newline (map print_constant constants ++ map print_field fields)) "Test.msg".

Lemma ex_msg_ok : msg_ok ex_msg.
Proof.
  split_and!; [| |reflexivity].
  - repeat constructor; try done; [exists "1", []|exists "two", ["words"]]; repeat constructor.
  - unfold ex_msg, field_ok, type_ok, ident, usize_ok, i64_ok. cbn.
    repeat constructor; try done; unfold usize_ok, i64_ok; try lia.
Qed.

Lemma parse_msg_print_witness :
  parse_msg_string (print_msg ex_msg) "pkg" "Test.msg" (Ok "Test") = Ok ex_msg.
Proof. apply (parse_msg_print ex_msg). exact ex_msg_ok. Defined.

Lemma parse_msg_panics_witness :
  exists line s, line ∈ lines "string s '" /\ default_text line = Some s /\
    bad_default s /\ parse_default_value s = Panic.
Proof. apply (parse_msg_panics "string s '" "pkg" "T.msg" "T"). vm_compute. reflexivity. Defined.
