(* ===== verification/SrvActionParser.v ===== *)
(** * The parsers of service and action definitions
    (crates/ros-z-codegen/src/parser/srv.rs, parser/action.rs)

    A service file is two messages around one delimiter line, an action file
    three sections around two delimiters. *)
From S2P Require Import Prelude Utf8 RustStr RustText RustColl MsgParser MsgRoundtrip.
Open Scope string_scope.

(** ** Definitions *)

Record ParsedService := mkService {
  ps_name : string;
  ps_package : string;
  ps_request : ParsedMessage;
  ps_response : ParsedMessage;
  ps_source : string;
  ps_path : string;
}.
Record ParsedAction := mkAction {
  pa_name : string;
  pa_package : string;
  pa_goal : ParsedMessage;
  pa_result : option ParsedMessage;
  pa_feedback : option ParsedMessage;
  pa_source : string;
  pa_path : string;
}.

(** [std::path::Path] as the parsers use it: a directory with its slash, and a
    file name.  [file_stem] is the name up to its last dot, unless that is its
    first character. *)
Record Path := mkPath { directory : string; file_name : string }.
Definition with_file_name (p : Path) (n : string) : Path := mkPath (directory p) n.
Definition path_text (p : Path) : string := directory p ++ file_name p.
Fixpoint last_dot (s : string) : option nat :=
  match s with
  | EmptyString => None
  | String c r =>
      match last_dot r with
      | Some i => Some (S i)
      | None => if Ascii.eqb c "." then Some O else None
      end
  end.
Definition file_stem (p : Path) : option string :=
  let n := file_name p in
  if String.eqb n "" || String.eqb n "." || String.eqb n ".." then None
  else match last_dot n with
       | Some (S i) => Some (String.substring 0 (S i) n)
       | _ => Some n
       end.
Definition stem_or_error (p : Path) : parse string := ok_or (file_stem p) "Invalid filename".

(** [parse_srv_string]. *)
Definition delimiter_indices (ls : list string) : list nat :=
  omap (fun '(i, line) => if String.eqb (trim line) "---" then Some i else None)
    (zip (seq 0 (length ls)) ls).
Definition set_name (m : ParsedMessage) (name : string) : ParsedMessage :=
  mkParsed name (pm_package m) (pm_fields m) (pm_constants m) (pm_source m) (pm_path m).
Definition parse_srv_string (source package : string) (path : Path) : parse ParsedService :=
  name ← stem_or_error path;
  let ls := lines source in
  match delimiter_indices ls with
  | [delimiter_idx] =>
      request_lines ← slice ls 0 delimiter_idx;
      response_lines ← slice ls (delimiter_idx + 1) (length ls);
      let request_source := join_on newline request_lines in
      let response_source := join_on newline response_lines in
      let request_path := with_file_name path (name ++ "Request.msg") in
      let response_path := with_file_name path (name ++ "Response.msg") in
      request ← parse_msg_string request_source package (path_text request_path) (stem_or_error request_path);
      let request := set_name request (name ++ "Request") in
      response ← parse_msg_string response_source package (path_text response_path) (stem_or_error response_path);
      let response := set_name response (name ++ "Response") in
      Ok (mkService name package request response source (path_text path))
  | idxs => Err ("Service must have exactly one '---' delimiter, found "
                 ++ Z_dec (Z.of_nat (length idxs)))
  end.

(** [s.split(pat)] for a pattern that is not empty; [skip] bytes belong to the
    last match. *)
Definition push_front (c : ascii) (ps : list string) : list string :=
  match ps with
  | p :: ps => String c p :: ps
  | [] => [String c ""]
  end.
Fixpoint split_go (pat : string) (skip : nat) (s : string) : list string :=
  match s with
  | EmptyString => [""]
  | String c r =>
      match skip with
      | S k => split_go pat k r
      | O =>
          if String.prefix pat s then "" :: split_go pat (String.length pat - 1) r
          else push_front c (split_go pat 0 r)
      end
  end.
Definition split_str (pat s : string) : list string := split_go pat 0 s.
Definition section_delimiter : string := String newline ("---" ++ String newline "").

(** [parse_action_section]: here a constant that does not parse is an error,
    and any line with an equals sign is one. *)
Fixpoint parse_section_lines (package : string) (ls : list string) (line_num : nat)
    (fields : list PField) (constants : list Constant) : parse (list PField * list Constant) :=
  match ls with
  | [] => Ok (fields, constants)
  | line :: ls' =>
      let line := trim (strip_comment line) in
      if negb (nonempty line) then parse_section_lines package ls' (S line_num) fields constants
      else if contains_char "=" line then
        constant ← parse_constant line (line_num + 1);
        parse_section_lines package ls' (S line_num) fields (constants ++ [constant])%list
      else
        field ← parse_field line package (line_num + 1);
        parse_section_lines package ls' (S line_num) (fields ++ [field])%list constants
  end.
Definition parse_action_section (content name package path : string) : parse ParsedMessage :=
  '(fields, constants) ← parse_section_lines package (lines content) 0 [] [];
  Ok (mkParsed name package fields constants content path).
Definition optional_section (content name package path : string) : parse (option ParsedMessage) :=
  if negb (nonempty (trim content)) then Ok None
  else Some <$> parse_action_section content name package path.
Definition parse_action (content action_name package path : string) : parse ParsedAction :=
  match split_str section_delimiter content with
  | [goal_content; result_content; feedback_content] =>
      goal ← parse_action_section goal_content (action_name ++ "Goal") package path;
      result ← optional_section result_content (action_name ++ "Result") package path;
      feedback ← optional_section feedback_content (action_name ++ "Feedback") package path;
      Ok (mkAction action_name package goal result feedback content path)
  | sections => Err ("Action file must have exactly 3 sections (goal, result, feedback), found "
                     ++ Z_dec (Z.of_nat (length sections)))
  end.

(** ** Lemmas *)

(** *** Delimiter lines *)

Definition dashes : string := "---".
Definition body_line (s : string) : Prop := line_ok s /\ s <> dashes.

Lemma dashes_line : line_ok dashes.
Proof.
  split; [reflexivity|]. split; [by exists "--", "-"%char|]. by exists "-"%char, "--".
Qed.

Lemma delimiters_from k ls :
  Forall body_line ls ->
  omap (fun '(i, line) => if String.eqb (trim line) "---" then Some i else None)
    (zip (seq k (length ls)) ls) = @nil nat.
Proof.
  intros H. revert k. induction H as [|l ls [Hl Hn] _ IH]; intros k; [done|]. cbn.
  rewrite trim_line by done. destruct (String.eqb_spec l "---"); [done|]. apply IH.
Qed.

Lemma delimiter_single pre post :
  Forall body_line pre -> Forall body_line post ->
  delimiter_indices (pre ++ dashes :: post) = [length pre].
Proof.
  intros Hpre Hpost. unfold delimiter_indices. rewrite length_app, seq_app. cbn [length seq].
  rewrite zip_with_app by by rewrite length_seq. rewrite omap_app, (delimiters_from 0 pre Hpre).
  cbn. by rewrite (delimiters_from (S (length pre)) post Hpost).
Qed.

Lemma body_lines_join ls : Forall body_line ls -> lines (join_on newline ls) = ls.
Proof. intros H. apply lines_join. eapply Forall_impl; [exact H|]. by intros l []. Qed.

(** *** Splitting at the section delimiter *)

Lemma prefix_head c d p t : c <> d -> String.prefix (String c p) (String d t) = false.
Proof. intros H. cbn. by destruct (ascii_dec c d). Qed.

Lemma split_delimiter b : split_str section_delimiter (section_delimiter ++ b) = "" :: split_str section_delimiter b.
Proof.
  unfold split_str.
  change (split_go section_delimiter 0 (section_delimiter ++ b)) with
    (if String.prefix section_delimiter (section_delimiter ++ b)
     then "" :: split_go section_delimiter 4 (("---" ++ String newline "") ++ b)
     else push_front newline (split_go section_delimiter 0 (("---" ++ String newline "") ++ b))).
  replace (String.prefix section_delimiter (section_delimiter ++ b)) with true; [done|].
  symmetry. apply prefix_iff. by eexists.
Qed.

Lemma split_other c s :
  String.prefix section_delimiter (String c s) = false ->
  split_str section_delimiter (String c s) = push_front c (split_str section_delimiter s).
Proof. intros H. unfold split_str. cbn [split_go]. by rewrite H. Qed.

(** A text without newline ahead. *)
Fixpoint push_text (a : string) (ps : list string) : list string :=
  match a with
  | EmptyString => ps
  | String c a' => push_front c (push_text a' ps)
  end.

Lemma split_text a s :
  contains_char newline a = false ->
  split_str section_delimiter (a ++ s) = push_text a (split_str section_delimiter s).
Proof.
  induction a as [|c a IH]; intros Ha; [done|]. cbn in Ha.
  destruct (Ascii.eqb_spec c newline) as [->|Hc]; [done|].
  rewrite app_cons_str, split_other; [cbn; by rewrite IH|].
  apply prefix_head. congruence.
Qed.

Lemma push_text_app a b ps : push_text (a ++ b) ps = push_text a (push_text b ps).
Proof. induction a as [|c a IH]; [done|]. rewrite app_cons_str. cbn. by rewrite IH. Qed.

Lemma push_text_cons a p ps : push_text a (p :: ps) = (a ++ p) :: ps.
Proof. induction a as [|c a IH]; [done|]. cbn. by rewrite IH. Qed.

(** The delimiter does not start inside the lines of a section. *)
Lemma delimiter_not_here l rest :
  contains_char newline l = false -> l <> dashes ->
  String.prefix section_delimiter (String newline (l ++ String newline rest)) = false.
Proof.
  intros Hl Hd. destruct (String.prefix _ _) eqn:E; [|done]. exfalso.
  apply prefix_iff in E as [r E]. change (String newline (l ++ String newline rest) =
    String newline (dashes ++ String newline r)) in E. injection E as E.
  assert (split_on newline (l ++ String newline rest) = split_on newline (dashes ++ String newline r)) as E'
    by by rewrite E.
  rewrite !split_on_app_sep, !split_on_none in E' by done. cbn in E'. by injection E' as ->.
Qed.

Lemma split_section ls b :
  Forall body_line ls -> ls <> [] ->
  split_str section_delimiter (join_on newline ls ++ section_delimiter ++ b) =
    join_on newline ls :: split_str section_delimiter b.
Proof.
  intros H. induction H as [|l ls [Hl Hd] Hls IH]; [done|]. intros _.
  assert (contains_char newline l = false) as Hc by (destruct Hl as [Ht _]; by eapply textual_contains).
  destruct ls as [|l2 ls].
  - cbn [join_on]. rewrite split_text, split_delimiter, push_text_cons, app_nil_r_str by done. done.
  - change (join_on newline (l :: l2 :: ls)) with (l ++ String newline (join_on newline (l2 :: ls))).
    rewrite app_assoc_str, split_text, app_cons_str by done.
    rewrite split_other; [rewrite IH by done; cbn [push_front]; by rewrite push_text_cons|].
    inversion_clear Hls as [|?? [Hl2 Hd2] _].
    assert (contains_char newline l2 = false) as Hc2 by (destruct Hl2 as [Ht _]; by eapply textual_contains).
    destruct ls as [|l3 ls].
    + cbn [join_on]. unfold section_delimiter at 2. rewrite app_cons_str. by apply delimiter_not_here.
    + change (join_on newline (l2 :: l3 :: ls)) with (l2 ++ String newline (join_on newline (l3 :: ls))).
      rewrite app_assoc_str, app_cons_str. by apply delimiter_not_here.
Qed.

Lemma split_last ls :
  Forall body_line ls -> split_str section_delimiter (join_on newline ls) = [join_on newline ls].
Proof.
  intros H. induction H as [|l ls [Hl Hd] Hls IH]; [done|].
  assert (contains_char newline l = false) as Hc by (destruct Hl as [Ht _]; by eapply textual_contains).
  destruct ls as [|l2 ls].
  - cbn [join_on]. rewrite <- (app_nil_r_str l) at 1. rewrite split_text by done. cbn.
    by rewrite push_text_cons, app_nil_r_str.
  - change (join_on newline (l :: l2 :: ls)) with (l ++ String newline (join_on newline (l2 :: ls))).
    rewrite split_text by done.
    rewrite split_other; [rewrite IH; cbn [push_front]; by rewrite push_text_cons|].
    inversion_clear Hls as [|?? [Hl2 Hd2] _].
    assert (contains_char newline l2 = false) as Hc2 by (destruct Hl2 as [Ht _]; by eapply textual_contains).
    destruct ls as [|l3 ls].
    + cbn [join_on]. destruct (String.prefix _ _) eqn:E; [|done]. exfalso. clear -E Hc2.
      unfold section_delimiter in E. cbn in E.
      destruct l2 as [|a [|a2 [|a3 [|a4 l2]]]]; cbn in E; try done;
        repeat (case_match; simplify_eq; try done).
    + change (join_on newline (l2 :: l3 :: ls)) with (l2 ++ String newline (join_on newline (l3 :: ls))).
      by apply delimiter_not_here.
Qed.

(** *** The lines of a message *)

Definition msg_lines (m : ParsedMessage) : list string :=
  map print_constant (pm_constants m) ++ map print_field (pm_fields m).

Lemma has_space_not_dashes a b : a ++ String space b <> dashes.
Proof.
  intros E. assert (contains_char space (a ++ String space b) = true) as H.
  { rewrite contains_char_app. cbn. by rewrite orb_true_r. }
  by rewrite E in H.
Qed.

Lemma msg_body_lines m : msg_ok m -> Forall body_line (msg_lines m).
Proof.
  intros (Hc & Hf & _). apply Forall_app. split; apply Forall_map.
  - eapply Forall_impl; [exact Hc|]. intros c H. split; [by apply constant_line|].
    unfold print_constant. rewrite join_space_cons. apply has_space_not_dashes.
  - eapply Forall_impl; [exact Hf|]. intros f H. split; [by apply field_line|].
    unfold print_field. rewrite join_space_cons. apply has_space_not_dashes.
Qed.

Lemma parse_msg_named m stem :
  msg_ok m ->
  parse_msg_string (print_msg m) (pm_package m) (pm_path m) (Ok stem) = Ok (set_name m stem).
Proof.
  intros H. pose proof H as (_ & _ & Hs). rewrite <- Hs. by apply (parse_print (set_name m stem)).
Qed.

Lemma message_stem p n suffix :
  (3 <= String.length suffix)%nat -> exists stem, stem_or_error (with_file_name p (n ++ suffix)) = Ok stem.
Proof.
  intros Hl. unfold stem_or_error, file_stem. cbn [with_file_name file_name].
  assert (forall t, (String.length t < 3)%nat -> String.eqb (n ++ suffix) t = false) as Hne.
  { intros t Ht. apply String.eqb_neq. intros E. apply (f_equal String.length) in E.
    rewrite length_app_str in E. lia. }
  rewrite !Hne by (cbn; lia). cbn [orb]. destruct (last_dot (n ++ suffix)) as [[|i]|]; by eexists.
Qed.

(** *** The sections of an action *)

Definition section_ok (m : ParsedMessage) : Prop :=
  msg_ok m /\ Forall (fun f => contains_char "=" (print_field f) = false) (pm_fields m).

Lemma section_constants pkg cs ls n fs acc :
  Forall constant_ok cs ->
  parse_section_lines pkg (map print_constant cs ++ ls) n fs acc
  = parse_section_lines pkg ls (n + length cs) fs (acc ++ cs)%list.
Proof.
  intros H. revert n acc. induction H as [|c cs Hc _ IH]; intros n acc.
  - cbn. by rewrite app_nil_r, Nat.add_0_r.
  - pose proof (constant_line c Hc) as Hl. cbn [map app parse_section_lines].
    rewrite strip_comment_line, trim_line, line_nonempty by (done || apply Hl).
    cbn [negb]. replace (contains_char "=" (print_constant c)) with true
      by (rewrite print_constant_decl, contains_char_app; cbn; by rewrite orb_true_r).
    rewrite parse_constant_print by done. cbn [mbind res_bind]. rewrite IH, <- app_assoc.
    replace (n + length (c :: cs))%nat with (S n + length cs)%nat by (cbn; lia). done.
Qed.

Lemma section_fields pkg fs n acc cs :
  Forall field_ok fs -> Forall (fun f => contains_char "=" (print_field f) = false) fs ->
  parse_section_lines pkg (map print_field fs) n acc cs = Ok ((acc ++ fs)%list, cs).
Proof.
  intros H He. revert n acc. induction H as [|f fs Hf _ IH]; intros n acc.
  - cbn. by rewrite app_nil_r.
  - apply Forall_cons in He as [Hfe He]. pose proof (field_line f Hf) as Hl. cbn [map parse_section_lines].
    rewrite strip_comment_line, trim_line, line_nonempty by (done || apply Hl).
    cbn [negb]. rewrite Hfe, parse_field_print by done. cbn [mbind res_bind].
    by rewrite IH, <- app_assoc.
Qed.

Lemma parse_section_print m :
  section_ok m ->
  parse_action_section (print_msg m) (pm_name m) (pm_package m) (pm_path m) = Ok m.
Proof.
  intros [Hm He]. pose proof (msg_body_lines m Hm) as Hb. destruct Hm as (Hc & Hf & Hs).
  unfold parse_action_section, print_msg. change (map print_constant _ ++ _)%list with (msg_lines m).
  rewrite body_lines_join by done. unfold msg_lines.
  rewrite section_constants, section_fields by done. cbn [mbind res_bind app].
  destruct m; cbn in *. by rewrite Hs.
Qed.

Lemma trim_lines_nonempty ls : Forall body_line ls -> ls <> [] -> nonempty (trim (join_on newline ls)) = true.
Proof.
  intros H Hne. destruct H as [|l ls [Hl _] Hls]; [done|]. destruct Hl as (_ & _ & a & r & -> & Ha).
  assert (exists r', join_on newline (String a r :: ls) = String a r') as [r' ->]
    by (destruct ls; by eexists).
  unfold trim, trim_start. cbn [trim_start_go]. rewrite ws_width_graphic by done.
  cbn [trim_end all_ws]. by rewrite ws_width_graphic.
Qed.

Definition print_section (o : option ParsedMessage) : string :=
  match o with Some m => print_msg m | None => "" end.
Definition optional_ok (o : option ParsedMessage) (name package path : string) : Prop :=
  match o with
  | Some m => section_ok m /\ msg_lines m <> [] /\ pm_name m = name /\ pm_package m = package /\ pm_path m = path
  | None => True
  end.

Lemma optional_section_print o name package path :
  optional_ok o name package path ->
  optional_section (print_section o) name package path = Ok o.
Proof.
  destruct o as [m|]; [|done]. intros (Hm & Hne & <- & <- & <-). unfold optional_section. cbn [print_section].
  unfold print_msg. change (map print_constant _ ++ _)%list with (msg_lines m).
  rewrite trim_lines_nonempty by (done || apply msg_body_lines, Hm).
  change (join_on newline (msg_lines m)) with (print_msg m). cbn [negb]. by rewrite parse_section_print.
Qed.

Lemma split_print_section ls b :
  Forall body_line ls ->
  split_str section_delimiter (join_on newline ls ++ section_delimiter ++ b) =
    join_on newline ls :: split_str section_delimiter b.
Proof. intros H. destruct ls as [|l ls]; [apply split_delimiter | by apply split_section]. Qed.

Definition section_lines (o : option ParsedMessage) : list string :=
  match o with Some m => msg_lines m | None => [] end.

Lemma section_lines_ok o name package path :
  optional_ok o name package path ->
  Forall body_line (section_lines o) /\ join_on newline (section_lines o) = print_section o.
Proof. destruct o as [m|]; [|done]. intros ([Hm _] & _). split; [by apply msg_body_lines | done]. Qed.

(** ** Properties *)

Definition print_srv (request response : ParsedMessage) : string :=
  join_on newline (msg_lines request ++ dashes :: msg_lines response).
Definition part_of (m : ParsedMessage) (name package : string) (path : Path) (file : string) : Prop :=
  pm_name m = name /\ pm_package m = package /\ pm_path m = path_text (with_file_name path file).

(** Round trip of service definitions: a request and a response of well
    formed constants and fields, printed around a delimiter line, parse back to
    the service of those two messages. *)
Theorem parse_srv_print request response name package path :
  msg_ok request -> msg_ok response -> file_stem path = Some name ->
  part_of request (name ++ "Request") package path (name ++ "Request.msg") ->
  part_of response (name ++ "Response") package path (name ++ "Response.msg") ->
  parse_srv_string (print_srv request response) package path =
    Ok (mkService name package request response (print_srv request response) (path_text path)).
Proof.
  intros Hq Hr Hn (Nq & Pq & Tq) (Nr & Pr & Tr). unfold parse_srv_string.
  assert (stem_or_error path = Ok name) as -> by (unfold stem_or_error; by rewrite Hn).
  cbn [mbind res_bind]. set (src := print_srv request response).
  pose proof (msg_body_lines _ Hq) as Bq. pose proof (msg_body_lines _ Hr) as Br.
  assert (lines src = msg_lines request ++ dashes :: msg_lines response)%list as ->.
  { apply lines_join. apply Forall_app. split; [eapply Forall_impl; [exact Bq|]; by intros ? []|].
    constructor; [apply dashes_line|]. eapply Forall_impl; [exact Br|]. by intros ? []. }
  rewrite delimiter_single by done.
  rewrite (slice_ok [] (msg_lines request) (dashes :: msg_lines response) : slice _ 0 (length (msg_lines request)) = _).
  pose proof (slice_ok (E := string) (msg_lines request ++ [dashes]) (msg_lines response) []) as Hsl.
  rewrite app_nil_r, <- app_assoc in Hsl. cbn [app] in Hsl. rewrite length_app in Hsl. cbn [length] in Hsl.
  replace (length (msg_lines request ++ dashes :: msg_lines response))
    with (length (msg_lines request) + 1 + length (msg_lines response))%nat by (rewrite length_app; cbn; lia).
  rewrite Hsl. cbn [mbind res_bind].
  destruct (message_stem path name "Request.msg") as [s1 ->]; [cbn; lia|].
  destruct (message_stem path name "Response.msg") as [s2 ->]; [cbn; lia|].
  rewrite <- Tq, <- Tr, <- Pq. change (join_on newline (msg_lines request)) with (print_msg request).
  change (join_on newline (msg_lines response)) with (print_msg response).
  rewrite parse_msg_named by done. rewrite Pq, <- Pr, parse_msg_named by done. cbn [mbind res_bind].
  rewrite <- Nq, <- Nr. by destruct request, response.
Qed.

(** Round trip of action definitions: a goal, a result and a feedback of well
    formed constants and of fields whose text holds no equals sign, with an
    empty section for an absent result or feedback, parse back to that action. *)
Theorem parse_action_print goal result feedback name package path :
  section_ok goal -> pm_name goal = name ++ "Goal" -> pm_package goal = package -> pm_path goal = path ->
  optional_ok result (name ++ "Result") package path ->
  optional_ok feedback (name ++ "Feedback") package path ->
  let source := print_msg goal ++ section_delimiter ++ print_section result
                  ++ section_delimiter ++ print_section feedback in
  parse_action source name package path = Ok (mkAction name package goal result feedback source path).
Proof.
  intros Hg Ng Pg Tg Hr Hf source. unfold parse_action.
  destruct (section_lines_ok _ _ _ _ Hr) as [Br Er]. destruct (section_lines_ok _ _ _ _ Hf) as [Bf Ef].
  assert (split_str section_delimiter source = [print_msg goal; print_section result; print_section feedback]) as ->.
  { unfold source. rewrite <- Er, <- Ef. unfold print_msg.
    rewrite split_print_section by (apply msg_body_lines, Hg). by rewrite split_print_section, split_last by done. }
  rewrite <- Ng, <- Pg, <- Tg, parse_section_print by done. cbn [mbind res_bind].
  rewrite Pg, Tg, !optional_section_print by done. done.
Qed.

Definition ex_part (name package path : string) (fs : list PField) : ParsedMessage :=
  mkParsed name package fs [] (join_on newline (map print_field fs)) path.
Definition ex_int (n : string) : PField := mkPField n (mkPFieldType "int32" None Single None) None.

Lemma ex_int_ok n : ident n -> field_ok (ex_int n).
Proof. intros Hn. split; [|by split]. split; [by split|]. by split. Qed.

Lemma ex_part_ok name package path ns :
  Forall ident ns -> msg_ok (ex_part name package path (map ex_int ns)).
Proof.
  intros H. split; [constructor|]. split; [|done]. cbn. apply Forall_map. eapply Forall_impl; [exact H|].
  apply ex_int_ok.
Qed.

Lemma parse_srv_print_witness :
  let p := mkPath "srv/" "Add.srv" in
  let q := ex_part "AddRequest" "pkg" "srv/AddRequest.msg" [ex_int "a"; ex_int "b"] in
  let r := ex_part "AddResponse" "pkg" "srv/AddResponse.msg" [ex_int "sum"] in
  parse_srv_string (print_srv q r) "pkg" p = Ok (mkService "Add" "pkg" q r (print_srv q r) "srv/Add.srv").
Proof.
  apply (parse_srv_print (ex_part "AddRequest" "pkg" "srv/AddRequest.msg" (map ex_int ["a"; "b"]))
    (ex_part "AddResponse" "pkg" "srv/AddResponse.msg" (map ex_int ["sum"])) "Add" "pkg" (mkPath "srv/" "Add.srv"));
    try done; apply ex_part_ok; by repeat constructor.
Defined.

Lemma parse_action_print_witness :
  let g := ex_part "FibGoal" "pkg" "Fib.action" [ex_int "order"] in
  let f := ex_part "FibFeedback" "pkg" "Fib.action" [ex_int "last"] in
  let source := print_msg g ++ section_delimiter ++ print_section None
                  ++ section_delimiter ++ print_section (Some f) in
  parse_action source "Fib" "pkg" "Fib.action" = Ok (mkAction "Fib" "pkg" g None (Some f) source "Fib.action").
Proof.
  apply (parse_action_print (ex_part "FibGoal" "pkg" "Fib.action" (map ex_int ["order"])) None
    (Some (ex_part "FibFeedback" "pkg" "Fib.action" (map ex_int ["last"]))) "Fib" "pkg" "Fib.action"); try done.
  - split; [apply ex_part_ok|]; by repeat constructor.
  - split; [split; [apply ex_part_ok|]|]; by repeat constructor.
Defined.

(** In an action, a field of a bounded type is taken for a constant, and lost:
    in a message it is a field. *)
Lemma bounded_field_lost :
  let line := "int32[<=3] xs" in
  parse_action_section line "AGoal" "pkg" "A.action" =
    Ok (mkParsed "AGoal" "pkg" [] [mkConstant "" "int32[<" "3] xs"] line "A.action") /\
  parse_msg_string line "pkg" "A.msg" (Ok "A") =
    Ok (mkParsed "A" "pkg" [mkPField "xs" (mkPFieldType "int32" None (Bounded 3) None) None] [] line "A.msg").
Proof. by vm_compute. Qed.
