(* ===== verification/DynRegistry.v ===== *)
(** * The schema registry (crates/ros-z/src/dynamic/registry.rs)

    The map from type names to schemas, the global one behind its [RwLock], and
    the conversion of a parsed message definition to a schema. *)
From S2P Require Import Prelude Utf8 RustStr CdrPrimitives CdrSpec CdrDeserializer DynTypes DynCdr DynAccess MsgParser.
From stdpp Require Import gmap strings.
Open Scope string_scope.

(** ** Definitions *)

(** [struct SchemaRegistry]; an [Arc] is its contents. *)
Record SchemaRegistry := mkRegistry { schemas : gmap string MessageSchema }.
Definition registry_new : SchemaRegistry := mkRegistry ∅.
Definition registry_get (r : SchemaRegistry) (type_name : string) : option MessageSchema :=
  schemas r !! type_name.
Definition registry_register (r : SchemaRegistry) (s : MessageSchema)
    : MessageSchema * SchemaRegistry :=
  (s, mkRegistry (<[type_name s := s]> (schemas r))).
Definition registry_contains (r : SchemaRegistry) (type_name : string) : bool :=
  match schemas r !! type_name with Some _ => true | None => false end.
Definition registry_type_names (r : SchemaRegistry) : list string := map fst (map_to_list (schemas r)).
Definition registry_len (r : SchemaRegistry) : nat := size (schemas r).
Definition registry_is_empty (r : SchemaRegistry) : bool := Nat.eqb (registry_len r) 0.
Definition registry_clear (r : SchemaRegistry) : SchemaRegistry := mkRegistry ∅.

(** The global registry: a poisoned lock is read as absent and written with a
    panic. *)
Record GlobalRegistry := mkGlobal { g_registry : SchemaRegistry; g_poisoned : bool }.
Definition get_schema (g : GlobalRegistry) (type_name : string) : option MessageSchema :=
  if g_poisoned g then None else registry_get (g_registry g) type_name.
Definition register_schema (g : GlobalRegistry) (s : MessageSchema)
    : res DynamicError (MessageSchema * GlobalRegistry) :=
  if g_poisoned g then Panic
  else let '(s, r) := registry_register (g_registry g) s in Ok (s, mkGlobal r false).
Definition has_schema (g : GlobalRegistry) (type_name : string) : bool :=
  if g_poisoned g then false else registry_contains (g_registry g) type_name.

Section Conversion.
(** [resolver: &impl Fn(&str, &str) -> Option<Arc<MessageSchema>>]. *)
Context (resolver : string -> string -> option MessageSchema).

Definition primitive_type (base_type : string) : option FieldType :=
  if String.eqb base_type "bool" then Some TyBool
  else if String.eqb base_type "int8" || String.eqb base_type "byte" then Some TyInt8
  else if String.eqb base_type "int16" then Some TyInt16
  else if String.eqb base_type "int32" then Some TyInt32
  else if String.eqb base_type "int64" then Some TyInt64
  else if String.eqb base_type "uint8" || String.eqb base_type "char" then Some TyUint8
  else if String.eqb base_type "uint16" then Some TyUint16
  else if String.eqb base_type "uint32" then Some TyUint32
  else if String.eqb base_type "uint64" then Some TyUint64
  else if String.eqb base_type "float32" then Some TyFloat32
  else if String.eqb base_type "float64" then Some TyFloat64
  else if String.eqb base_type "string" then Some TyString
  else None.
Definition convert_base_type (base_type : string) (pkg : option string)
    : res DynamicError FieldType :=
  match primitive_type base_type with
  | Some t => Ok t
  | None =>
      match RustStr.strip_prefix "string<=" base_type ≫= parse_usize with
      | Some max_len => Ok (TyBoundedString (Z.to_nat max_len))
      | None =>
          pkg ← ok_or pkg (InvalidTypeName base_type);
          schema ← ok_or (resolver pkg base_type) (SchemaNotFound (pkg ++ "/msg/" ++ base_type));
          Ok (TyMessage schema)
      end
  end.
Definition convert_field_type (field : PField) : res DynamicError FieldType :=
  base_type ← convert_base_type (base_type (pf_type field)) (ft_package (pf_type field));
  match array (pf_type field) with
  | Single => Ok base_type
  | Fixed n => Ok (TyArray base_type (Z.to_nat n))
  | Bounded n => Ok (TyBoundedSequence base_type (Z.to_nat n))
  | Unbounded => Ok (TySequence base_type)
  end.
Definition parsed_message_to_schema (msg : ParsedMessage) : res DynamicError MessageSchema :=
  fields ← traverse (fun f =>
    field_type ← convert_field_type f; Ok (FieldSchema_new (pf_name f) field_type)) (pm_fields msg);
  Ok (mkSchema (pm_package msg ++ "/msg/" ++ pm_name msg) (pm_package msg) (pm_name msg) fields None).

(** ** The specification *)

(** The builtin types of the interface definition language, with their wire
    types. *)
Definition builtin_types : list (string * FieldType) :=
  [("bool", TyBool); ("byte", TyInt8); ("char", TyUint8); ("int8", TyInt8); ("uint8", TyUint8);
   ("int16", TyInt16); ("uint16", TyUint16); ("int32", TyInt32); ("uint32", TyUint32);
   ("int64", TyInt64); ("uint64", TyUint64); ("float32", TyFloat32); ("float64", TyFloat64);
   ("string", TyString)].
Definition of_array (a : ArrayType) (t : FieldType) : FieldType :=
  match a with
  | Single => t
  | Fixed n => TyArray t (Z.to_nat n)
  | Bounded n => TyBoundedSequence t (Z.to_nat n)
  | Unbounded => TySequence t
  end.
(** What a field type stands for: a builtin, a bounded string or a message that
    the resolver knows. *)
Inductive denotes (t : PFieldType) : FieldType -> Prop :=
| denotes_builtin w : (base_type t, w) ∈ builtin_types -> denotes t (of_array (array t) w)
| denotes_bounded n rest : base_type t = "string<=" ++ rest -> parse_usize rest = Some n ->
    denotes t (of_array (array t) (TyBoundedString (Z.to_nat n)))
| denotes_message p s : ft_package t = Some p -> resolver p (base_type t) = Some s ->
    base_type t ∉ map fst builtin_types ->
    RustStr.strip_prefix "string<=" (base_type t) ≫= parse_usize = None ->
    denotes t (of_array (array t) (TyMessage s)).
Definition conversion_error (t : PFieldType) : DynamicError :=
  match ft_package t with
  | None => InvalidTypeName (base_type t)
  | Some p => SchemaNotFound (p ++ "/msg/" ++ base_type t)
  end.
(** A fixed array of the definition is one a vector can hold. *)
Definition fixed_array_fits `{DynLayout} (t : PFieldType) : Prop :=
  match array t with Fixed n => vec_fits (Z.to_nat n) = true | _ => True end.
Definition field_denotes (f : PField) (fs : FieldSchema) : Prop :=
  field_name fs = pf_name f /\ default_value fs = None /\ denotes (pf_type f) (field_type fs).

(** ** Lemmas *)

Lemma primitive_builtin b w : primitive_type b = Some w <-> (b, w) ∈ builtin_types.
Proof.
  split.
  - unfold primitive_type.
    repeat match goal with
    | |- context [String.eqb b ?s] => destruct (String.eqb_spec b s) as [->|]; cbn [orb]
    end; intros [= <-]; unfold builtin_types;
      repeat (first [by left | right]).
  - unfold builtin_types. intros H.
    repeat (apply elem_of_cons in H as [H|H]; [injection H as -> ->; reflexivity|]).
    by apply elem_of_nil in H.
Qed.

Lemma primitive_none b : primitive_type b = None <-> b ∉ map fst builtin_types.
Proof.
  split.
  - intros Hn (p & -> & Hp)%list_elem_of_fmap. destruct p as [b w].
    apply primitive_builtin in Hp. cbn in Hn. congruence.
  - intros Hn. destruct (primitive_type b) as [w|] eqn:E; [|done]. destruct Hn.
    apply primitive_builtin in E. by apply (list_elem_of_fmap_2 fst) in E.
Qed.

Lemma convert_field_type_spec f :
  (exists w, convert_field_type f = Ok w /\ denotes (pf_type f) w) \/
  (convert_field_type f = Err (conversion_error (pf_type f)) /\ forall w, ~ denotes (pf_type f) w).
Proof.
  destruct f as [n [b p a sb] d]. unfold convert_field_type, convert_base_type, conversion_error.
  cbn [pf_type base_type ft_package array].
  destruct (primitive_type b) as [w|] eqn:Hp.
  { left. exists (of_array a w). split; [by destruct a|].
    apply (denotes_builtin (mkPFieldType b p a sb)). by apply primitive_builtin. }
  pose proof Hp as Hp'. rewrite primitive_none in Hp'.
  destruct (RustStr.strip_prefix "string<=" b ≫= parse_usize) as [k|] eqn:Hs.
  { left. exists (of_array a (TyBoundedString (Z.to_nat k))). split; [by destruct a|].
    destruct (RustStr.strip_prefix "string<=" b) as [rest|] eqn:Hr; [|done]. cbn in Hs.
    apply RustStr.strip_prefix_Some in Hr. by apply (denotes_bounded (mkPFieldType b p a sb) k rest). }
  assert (forall w, denotes (mkPFieldType b p a sb) w ->
    exists q s, p = Some q /\ resolver q b = Some s) as Hd.
  { intros w [w' Hw|k rest Hr Hk|q s Hq Hs' _ _]; cbn [base_type ft_package] in *; [|exfalso|eauto].
    - apply primitive_builtin in Hw. congruence.
    - subst b. rewrite RustStr.strip_prefix_app in Hs. cbn [mbind option_bind] in Hs. congruence. }
  destruct p as [q|]; cbn [ok_or mbind res_bind].
  - destruct (resolver q b) as [s|] eqn:Hq; cbn [ok_or mbind res_bind].
    + left. exists (of_array a (TyMessage s)). split; [by destruct a|].
      by apply (denotes_message (mkPFieldType b (Some q) a sb) q s).
    + right. split; [done|]. intros w Hw. destruct (Hd w Hw) as (q' & s & [= <-] & ?). congruence.
  - right. split; [done|]. intros w Hw. by destruct (Hd w Hw) as (? & ? & ? & _).
Qed.

Lemma denotes_defaults `{DL : DynLayout} t w :
  (forall p n s, resolver p n = Some s -> schema_defaults_typed s) ->
  fixed_array_fits t -> denotes t w -> defaults_typed w.
Proof.
  intros Hr Hf H.
  assert (forall v, defaults_typed v -> defaults_typed (of_array (array t) v)) as Ha.
  { unfold fixed_array_fits in Hf. by destruct (array t). }
  destruct H as [v Hv|n rest _ _|p s _ Hs _ _]; apply Ha; [|done|by eapply Hr].
  apply primitive_builtin in Hv. unfold primitive_type in Hv.
  repeat case_match; simplify_eq; done.
Qed.

Lemma fields_denote_defaults `{DL : DynLayout} fs l tn p n h :
  (forall p n s, resolver p n = Some s -> schema_defaults_typed s) ->
  Forall (fun f => fixed_array_fits (pf_type f)) fs ->
  Forall2 field_denotes fs l -> schema_defaults_typed (mkSchema tn p n l h).
Proof.
  intros Hr Hfit. cbn. induction 1 as [|f [nm ft d] fs l (_ & Hd & Hw) _ IH]; [done|].
  apply Forall_cons in Hfit as [Hf Hfit].
  cbn in *. subst d. split; [by eapply denotes_defaults|by apply IH].
Qed.

Lemma convert_fields_spec fs :
  let conv := fun f => field_type ← convert_field_type f; Ok (FieldSchema_new (pf_name f) field_type) in
  match traverse conv fs with
  | Ok l => Forall2 field_denotes fs l
  | Err e => exists pre f post, fs = (pre ++ f :: post)%list /\ e = conversion_error (pf_type f) /\
      Forall (fun g => exists w, denotes (pf_type g) w) pre /\ forall w, ~ denotes (pf_type f) w
  | Panic => False
  end.
Proof.
  intros conv. induction fs as [|f fs IH]; [constructor|]. cbn [traverse]. subst conv. cbn beta.
  destruct (convert_field_type_spec f) as [(w & -> & Hw)|[-> Hn]]; cbn [mbind res_bind].
  - destruct (traverse _ fs) as [l|e|]; cbn [mbind res_bind]; [| |done].
    + by constructor.
    + destruct IH as (pre & g & post & -> & He & Hpre & Hg).
      exists (f :: pre), g, post. split_and!; try done. constructor; eauto.
  - exists [], f, fs. auto.
Qed.

(** Conversion of a parsed definition: it succeeds exactly when every field's
    type denotes a wire type (a builtin, a bounded string, a message known to the
    resolver), and the schema has the message's name and package, the fields in
    order with those wire types and no hash; otherwise the error is that of the
    first field that denotes nothing.  It never panics, and if every schema of
    the resolver has typed defaults and the fixed arrays of the definition fit in
    a vector, the new one has typed defaults too. *)
Theorem parsed_message_to_schema_spec `{DL : DynLayout} msg :
  match parsed_message_to_schema msg with
  | Ok s =>
      type_name s = pm_package msg ++ "/msg/" ++ pm_name msg /\
      package s = pm_package msg /\ schema_name s = pm_name msg /\ type_hash s = None /\
      Forall2 field_denotes (pm_fields msg) (fields s) /\
      ((forall p n s', resolver p n = Some s' -> schema_defaults_typed s') ->
       Forall (fun f => fixed_array_fits (pf_type f)) (pm_fields msg) ->
       schema_defaults_typed s)
  | Err e => exists pre f post, pm_fields msg = (pre ++ f :: post)%list /\
      e = conversion_error (pf_type f) /\
      Forall (fun g => exists w, denotes (pf_type g) w) pre /\ forall w, ~ denotes (pf_type f) w
  | Panic => False
  end.
Proof.
  unfold parsed_message_to_schema. pose proof (convert_fields_spec (pm_fields msg)) as H.
  cbv zeta in H. destruct (traverse _ (pm_fields msg)) as [l|e|]; cbn [mbind res_bind]; [|done|done].
  split_and!; try done. intros Hr Hf. by eapply fields_denote_defaults.
Qed.
End Conversion.

(** *** The registry *)

Lemma registry_get_register r s n :
  registry_get (registry_register r s).2 n = if String.eqb (type_name s) n then Some s else registry_get r n.
Proof.
  unfold registry_get, registry_register. cbn [snd schemas].
  destruct (String.eqb_spec (type_name s) n) as [->|Hn];
    [by rewrite lookup_insert_eq | by rewrite lookup_insert_ne].
Qed.

Lemma registry_contains_iff r n : registry_contains r n = true <-> n ∈ registry_type_names r.
Proof.
  unfold registry_contains, registry_type_names. split.
  - destruct (schemas r !! n) as [s|] eqn:E; [|done]. intros _.
    apply list_elem_of_fmap. exists (n, s). split; [done|]. by apply elem_of_map_to_list.
  - intros ([n' s] & -> & H)%list_elem_of_fmap. apply elem_of_map_to_list in H. cbn. by rewrite H.
Qed.

Lemma registry_len_register r s :
  registry_len (registry_register r s).2 =
  (if registry_contains r (type_name s) then registry_len r else S (registry_len r)).
Proof.
  unfold registry_len, registry_contains, registry_register. cbn [snd schemas].
  rewrite map_size_insert. by destruct (schemas r !! type_name s).
Qed.

Lemma registry_empty_iff r : registry_is_empty r = true <-> forall n, registry_get r n = None.
Proof.
  unfold registry_is_empty, registry_len, registry_get. rewrite Nat.eqb_eq, map_size_empty_iff.
  split; [intros ->; apply lookup_empty | apply map_empty].
Qed.

(** On the global registry, a poisoned lock hides every schema from the readers
    and makes a registration panic. *)
Lemma register_then_get g s :
  match register_schema g s with
  | Ok (s', g') => s' = s /\ get_schema g' (type_name s) = Some s /\
      (forall n, n <> type_name s -> get_schema g' n = get_schema g n) /\ has_schema g' (type_name s) = true
  | Err _ => False
  | Panic => g_poisoned g = true /\ forall n, get_schema g n = None /\ has_schema g n = false
  end.
Proof.
  unfold register_schema, get_schema, has_schema. destruct (g_poisoned g) eqn:Hp; [done|].
  unfold registry_register, registry_get, registry_contains. cbn [schemas g_registry g_poisoned].
  rewrite lookup_insert_eq. split_and!; try done. intros n Hn. by rewrite lookup_insert_ne.
Qed.

(** *** The parser's output *)

Definition convert_line (resolver : string -> string -> option MessageSchema) (line : string) :
    option (res DynamicError FieldType) :=
  match parse_field line "pkg" 1 with
  | Ok f => Some (convert_field_type resolver f)
  | _ => None
  end.

(** The parser keeps the bound of a string apart from its base type, where the
    conversion looks for it: a bounded string becomes an unbounded one. *)
Lemma string_bound_dropped resolver :
  convert_line resolver "string<=10 s" = Some (Ok TyString).
Proof. reflexivity. Qed.

(** A type named without its package is not looked up in the message's own. *)
Lemma same_package_reference resolver :
  convert_line resolver "Point p" = Some (Err (InvalidTypeName "Point")).
Proof. reflexivity. Qed.
