(* ===== verification/TypeHashing.v ===== *)
(** * Type hashing of the code generator (crates/ros-z-codegen/src/hashing.rs)

    From parsed messages and the descriptions of their dependencies to the
    description messages that are hashed. *)
From stdpp Require Import gmap strings.
From S2P Require Import Prelude Utf8 RustStr RustText RustColl SchemaModel DynTypes TypeDescription MsgParser DynRegistry.
Open Scope string_scope.

(** ** Definitions *)

Definition is_primitive_type (base_type : string) : bool :=
  existsb (String.eqb base_type)
    ["bool"; "byte"; "char"; "uint8"; "int8"; "uint16"; "int16"; "uint32"; "int32";
     "uint64"; "int64"; "float32"; "float64"; "string"].

(** The rows of the table in [get_type_id]: single, fixed, bounded, unbounded. *)
Definition type_id_row (base_type : string) : option (Z * Z * Z * Z) :=
  let same := String.eqb base_type in
  if same "int8" then Some (TypeId.INT8, TypeId.INT8_ARRAY, TypeId.INT8_BOUNDED_SEQUENCE, TypeId.INT8_UNBOUNDED_SEQUENCE)
  else if same "uint8" || same "byte" || same "char" then
    Some (TypeId.UINT8, TypeId.UINT8_ARRAY, TypeId.UINT8_BOUNDED_SEQUENCE, TypeId.UINT8_UNBOUNDED_SEQUENCE)
  else if same "int16" then Some (TypeId.INT16, TypeId.INT16_ARRAY, TypeId.INT16_BOUNDED_SEQUENCE, TypeId.INT16_UNBOUNDED_SEQUENCE)
  else if same "uint16" then Some (TypeId.UINT16, TypeId.UINT16_ARRAY, TypeId.UINT16_BOUNDED_SEQUENCE, TypeId.UINT16_UNBOUNDED_SEQUENCE)
  else if same "int32" then Some (TypeId.INT32, TypeId.INT32_ARRAY, TypeId.INT32_BOUNDED_SEQUENCE, TypeId.INT32_UNBOUNDED_SEQUENCE)
  else if same "uint32" then Some (TypeId.UINT32, TypeId.UINT32_ARRAY, TypeId.UINT32_BOUNDED_SEQUENCE, TypeId.UINT32_UNBOUNDED_SEQUENCE)
  else if same "int64" then Some (TypeId.INT64, TypeId.INT64_ARRAY, TypeId.INT64_BOUNDED_SEQUENCE, TypeId.INT64_UNBOUNDED_SEQUENCE)
  else if same "uint64" then Some (TypeId.UINT64, TypeId.UINT64_ARRAY, TypeId.UINT64_BOUNDED_SEQUENCE, TypeId.UINT64_UNBOUNDED_SEQUENCE)
  else if same "float32" then Some (TypeId.FLOAT32, TypeId.FLOAT32_ARRAY, TypeId.FLOAT32_BOUNDED_SEQUENCE, TypeId.FLOAT32_UNBOUNDED_SEQUENCE)
  else if same "float64" then Some (TypeId.FLOAT64, TypeId.FLOAT64_ARRAY, TypeId.FLOAT64_BOUNDED_SEQUENCE, TypeId.FLOAT64_UNBOUNDED_SEQUENCE)
  else if same "bool" then Some (TypeId.BOOL, TypeId.BOOL_ARRAY, TypeId.BOOL_BOUNDED_SEQUENCE, TypeId.BOOL_UNBOUNDED_SEQUENCE)
  else if same "string" then Some (TypeId.STRING, TypeId.STRING_ARRAY, TypeId.STRING_BOUNDED_SEQUENCE, TypeId.STRING_UNBOUNDED_SEQUENCE)
  else None.
Definition array_form (a : ArrayType) (row : Z * Z * Z * Z) : Z :=
  let '(single, fixed, bounded, unbounded) := row in
  match a with
  | Single => single
  | Fixed _ => fixed
  | Bounded _ => bounded
  | Unbounded => unbounded
  end.
(** An [anyhow] error is the text [bail!] formats, less the debug output. *)
Definition get_type_id (field_type : PFieldType) : res string Z :=
  let base := base_type field_type in
  let has_package := match ft_package field_type with Some _ => true | None => false end in
  let is_bounded_string := match string_bound field_type with Some _ => true | None => false end in
  if has_package || negb (is_primitive_type base) then
    Ok (array_form (array field_type)
          (TypeId.NESTED_TYPE, TypeId.NESTED_TYPE_ARRAY, TypeId.NESTED_TYPE_BOUNDED_SEQUENCE,
           TypeId.NESTED_TYPE_UNBOUNDED_SEQUENCE))
  else if is_bounded_string && String.eqb base "string" then Ok TypeId.BOUNDED_STRING
  else match type_id_row base with
       | Some row => Ok (array_form (array field_type) row)
       | None => Err ("Unsupported field type: " ++ base)
       end.

(** [*n as u64]: [usize] is 64 bits wide. *)
Definition get_array_capacity (field_type : PFieldType) : Z :=
  match array field_type with
  | Fixed n | Bounded n => n
  | _ => 0%Z
  end.
Definition get_nested_type_name_with_context (field_type : PFieldType) (source_package : string)
    : string :=
  default source_package (ft_package field_type) ++ "/msg/" ++ base_type field_type.

Abbreviation Deps := (gmap string TypeDescription).

(** [collect_referenced_types]: it recurses into a dependency before it records
    it. Fuel bounds the depth; a recursion deeper than the number of
    dependencies comes back to one it is in the middle of, and never ends: its
    end is the overflow of the stack, a panic here. *)
Fixpoint collect_referenced_types (fuel : nat) (type_desc : TypeDescription) (all_deps collected : Deps)
    : res string Deps :=
  match fuel with
  | O => Panic
  | S fuel =>
      for_each (fun collected field =>
        let nested := nested_type_name (fd_type field) in
        if String.eqb nested "" then Ok collected
        else match all_deps !! nested with
             | Some dep =>
                 if decide (is_Some (collected !! td_name dep)) then Ok collected
                 else
                   collected ← collect_referenced_types fuel dep all_deps collected;
                   Ok (<[td_name dep := dep]> collected)
             | None => Ok collected
             end) collected (td_fields type_desc)
  end.

(** [build_type_description_msg]: the description of a field, and the loop. *)
Definition field_description_of (package : string) (field : PField) : res string FieldDescription :=
  let ft := pf_type field in
  type_id ← get_type_id ft;
  let capacity := get_array_capacity ft in
  let string_capacity := default 0%Z (string_bound ft) in
  let nested := if is_primitive_type (base_type ft) then ""
                else get_nested_type_name_with_context ft package in
  Ok (mkFD (pf_name field)
        (if String.eqb nested "" then
           if (0 <? capacity)%Z then ftd_array type_id capacity
           else if (0 <? string_capacity)%Z then mkFTD type_id 0 string_capacity ""
           else ftd_primitive type_id
         else if (0 <? capacity)%Z then ftd_nested_array type_id capacity nested
         else ftd_nested type_id nested) "").
Definition dep_key (package : string) (ft : PFieldType) : string :=
  default package (ft_package ft) ++ "/" ++ base_type ft.
Definition add_references (package : string) (resolved_deps : Deps) (referenced : Deps) (field : PField)
    : res string Deps :=
  if is_primitive_type (base_type (pf_type field)) then Ok referenced
  else match resolved_deps !! dep_key package (pf_type field) with
       | Some dep_desc =>
           referenced ← collect_referenced_types (S (size resolved_deps)) dep_desc resolved_deps referenced;
           Ok (<[td_name dep_desc := dep_desc]> referenced)
       | None => Ok referenced
       end.
Definition empty_member : FieldDescription :=
  mkFD "structure_needs_at_least_one_member" (ftd_primitive TypeId.UINT8) "".
Definition build_type_description_msg (msg : ParsedMessage) (resolved_deps : Deps)
    : res string TypeDescriptionMsg :=
  let name := pm_package msg ++ "/msg/" ++ pm_name msg in
  match pm_fields msg with
  | [] => Ok (mkTDM (mkTD name [empty_member]) [])
  | fs =>
      '(fields, referenced) ← for_each (fun '(fields, referenced) field =>
        fd ← field_description_of (pm_package msg) field;
        referenced ← add_references (pm_package msg) resolved_deps referenced field;
        Ok (fields ++ [fd], referenced)%list) ([], ∅) fs;
      Ok (mkTDM (mkTD name fields) (btree_values referenced))
  end.

Section Hashing.
Context `{HA : HashApi}.
Definition calculate_type_hash (msg : ParsedMessage) (resolved_deps : Deps) : res string SchemaHash :=
  type_desc_msg ← build_type_description_msg msg resolved_deps;
  calculate_hash type_desc_msg.

(** [calculate_service_type_hash]: the service and event types it makes, and
    the hash. *)
Definition nested_field (name nested : string) : FieldDescription :=
  mkFD name (ftd_nested TypeId.NESTED_TYPE nested) "".
Definition service_type_description (package service_name : string)
    (request_desc response_desc service_event_info_desc : TypeDescription) (resolved_deps : Deps)
    : TypeDescriptionMsg :=
  let is_action := str_contains "SendGoal" service_name || str_contains "GetResult" service_name
                   || str_contains "CancelGoal" service_name in
  let path := if is_action then "action" else "srv" in
  let service_type_name := package ++ "/" ++ path ++ "/" ++ service_name in
  let request_type_name := service_type_name ++ "_Request" in
  let response_type_name := service_type_name ++ "_Response" in
  let event_type_name := service_type_name ++ "_Event" in
  let event_desc := mkTD event_type_name
    [nested_field "info" (td_name service_event_info_desc);
     mkFD "request" (ftd_nested_array TypeId.NESTED_TYPE_BOUNDED_SEQUENCE 1 request_type_name) "";
     mkFD "response" (ftd_nested_array TypeId.NESTED_TYPE_BOUNDED_SEQUENCE 1 response_type_name) ""] in
  let service_desc := mkTD service_type_name
    [nested_field "request_message" request_type_name;
     nested_field "response_message" response_type_name;
     nested_field "event_message" event_type_name] in
  let request_desc_corrected := mkTD request_type_name (td_fields request_desc) in
  let response_desc_corrected := mkTD response_type_name (td_fields response_desc) in
  let referenced :=
    foldl (fun (m : Deps) desc => <[td_name desc := desc]> m) ∅ (btree_values resolved_deps) in
  let referenced := <[td_name event_desc := event_desc]> referenced in
  let referenced := <[request_type_name := request_desc_corrected]> referenced in
  let referenced := <[response_type_name := response_desc_corrected]> referenced in
  mkTDM service_desc (sort_by td_name (btree_values referenced)).
Definition calculate_service_type_hash (package service_name : string)
    (request_desc response_desc service_event_info_desc : TypeDescription) (resolved_deps : Deps)
    : res string SchemaHash :=
  calculate_hash (service_type_description package service_name request_desc response_desc
                    service_event_info_desc resolved_deps).
End Hashing.

(** ** Lemmas *)

Lemma is_primitive_row b : is_primitive_type b = true <-> is_Some (type_id_row b).
Proof.
  split.
  - unfold is_primitive_type. rewrite existsb_exists. intros (x & Hx & ->%String.eqb_eq).
    repeat (destruct Hx as [<-|Hx]; [by eexists|]). done.
  - intros [row H]. unfold type_id_row in H. cbv zeta in H.
    repeat match type of H with
    | context [String.eqb b ?s] => destruct (String.eqb_spec b s) as [->|]; [done|]
    end. done.
Qed.

(** The [bail!] of [get_type_id] is unreachable. *)
Lemma get_type_id_ok ft : exists i, get_type_id ft = Ok i.
Proof.
  unfold get_type_id. cbv zeta. destruct (_ || negb _) eqn:E; [by eexists|].
  apply orb_false_iff in E as [_ E]. apply negb_false_iff, is_primitive_row in E as [row ->].
  destruct (_ && _); by eexists.
Qed.

Lemma field_description_ok p f : exists fd, field_description_of p f = Ok fd /\ fd_name fd = pf_name f.
Proof.
  unfold field_description_of. destruct (get_type_id_ok (pf_type f)) as [i ->]. by eexists.
Qed.

(** *** Which references are found *)

(** The keys of the dependency map are package and name, those of the recursion
    full type names: with keys of two parts the recursion finds nothing. *)
Definition two_part_keys (deps : Deps) : Prop :=
  forall k td, deps !! k = Some td -> length (split_on "/" k) = 2%nat.
Definition three_part_names (deps : Deps) : Prop :=
  forall k td, deps !! k = Some td ->
    Forall (fun f => nested_type_name (fd_type f) = "" \/
                     length (split_on "/" (nested_type_name (fd_type f))) = 3%nat) (td_fields td).

Lemma collect_finds_nothing fuel td deps collected :
  two_part_keys deps ->
  Forall (fun f => nested_type_name (fd_type f) = "" \/
                   length (split_on "/" (nested_type_name (fd_type f))) = 3%nat) (td_fields td) ->
  collect_referenced_types (S fuel) td deps collected = Ok collected.
Proof.
  intros Hk Hn. cbn [collect_referenced_types]. revert collected.
  induction Hn as [|f fs Hf _ IH]; intros collected; [done|]. cbn [for_each].
  destruct (String.eqb_spec (nested_type_name (fd_type f)) "") as [|Hne]; [apply IH|].
  destruct Hf as [?|Hf]; [done|].
  destruct (deps !! nested_type_name (fd_type f)) as [dep|] eqn:E; [|apply IH].
  apply Hk in E. congruence.
Qed.

(** The direct references of a message: those of its fields, by key. *)
Definition direct_references (package : string) (deps : Deps) (fs : list PField) : list TypeDescription :=
  omap (fun f => if is_primitive_type (base_type (pf_type f)) then None
                 else deps !! dep_key package (pf_type f)) fs.
Definition insert_all (m : Deps) (tds : list TypeDescription) : Deps :=
  foldl (fun (m : Deps) td => <[td_name td := td]> m) m tds.

Lemma build_loop package deps fs fields referenced :
  two_part_keys deps -> three_part_names deps ->
  exists fds,
    for_each (fun '(fields, referenced) field =>
      fd ← field_description_of package field;
      referenced ← add_references package deps referenced field;
      Ok (fields ++ [fd], referenced)%list) (fields, referenced) fs
    = Ok ((fields ++ fds)%list, insert_all referenced (direct_references package deps fs)) /\
    traverse (field_description_of package) fs = Ok fds.
Proof.
  intros Hk Hn. revert fields referenced.
  induction fs as [|f fs IH]; intros fields referenced; [exists []; by rewrite app_nil_r|].
  cbn [for_each traverse]. destruct (field_description_ok package f) as (fd & -> & _). cbn [mbind res_bind].
  assert (add_references package deps referenced f =
    Ok (insert_all referenced (direct_references package deps [f]))) as ->.
  { unfold add_references, direct_references. cbn [omap list_omap].
    destruct (is_primitive_type (base_type (pf_type f))); [done|].
    destruct (deps !! dep_key package (pf_type f)) as [dep|] eqn:E; [|done].
    by rewrite collect_finds_nothing; [|done|by eapply Hn]. }
  cbn [mbind res_bind].
  destruct (IH (fields ++ [fd])%list (insert_all referenced (direct_references package deps [f])))
    as (fds & -> & ->).
  exists (fd :: fds). rewrite <- app_assoc. split; [|done]. do 2 f_equal.
  unfold insert_all. rewrite <- foldl_app. f_equal. unfold direct_references.
  change (f :: fs) with ([f] ++ fs)%list. by rewrite omap_app.
Qed.

Lemma build_direct msg deps :
  two_part_keys deps -> three_part_names deps ->
  exists fds, traverse (field_description_of (pm_package msg)) (pm_fields msg) = Ok fds /\
    build_type_description_msg msg deps =
      Ok (mkTDM (mkTD (pm_package msg ++ "/msg/" ++ pm_name msg)
                   (match pm_fields msg with [] => [empty_member] | _ => fds end))
            (btree_values (insert_all ∅ (direct_references (pm_package msg) deps (pm_fields msg))))).
Proof.
  intros Hk Hn. unfold build_type_description_msg.
  destruct (build_loop (pm_package msg) deps (pm_fields msg) [] ∅ Hk Hn) as (fds & Hl & Ht).
  exists fds. split; [done|]. destruct (pm_fields msg) as [|f fs]; [done|]. by rewrite Hl.
Qed.

(** *** Agreement with the dynamic schemas *)

(** A field on which the two sides mean the same: not [byte] (int8 for the
    dynamic side, uint8 here), no bound on strings, builtin types without a
    package, sizes in range, and messages that the resolver knows under their
    full name. *)
Definition agreeing_field (resolver : string -> string -> option MessageSchema) (f : PField) : Prop :=
  let ft := pf_type f in
  base_type ft <> "byte" /\ string_bound ft = None /\
  (is_primitive_type (base_type ft) = true -> ft_package ft = None) /\
  RustStr.strip_prefix "string<=" (base_type ft) = None /\
  match array ft with Fixed n | Bounded n => (0 <= n)%Z | _ => True end /\
  forall p s, ft_package ft = Some p -> resolver p (base_type ft) = Some s ->
    type_name s = p ++ "/msg/" ++ base_type ft.

Lemma description_form (a : ArrayType) (i1 i2 i3 i4 : Z) (nested : string) :
  match a with Fixed n | Bounded n => (0 <= n)%Z | _ => True end ->
  let c := match a with Fixed n | Bounded n => n | _ => 0%Z end in
  (if (0 <? c)%Z then mkFTD (array_form a (i1, i2, i3, i4)) c 0 nested
   else mkFTD (array_form a (i1, i2, i3, i4)) 0 0 nested) =
  match a with
  | Single => mkFTD i1 0 0 nested
  | Fixed n => mkFTD i2 (Z.of_nat (Z.to_nat n)) 0 nested
  | Bounded n => mkFTD i3 (Z.of_nat (Z.to_nat n)) 0 nested
  | Unbounded => mkFTD i4 0 0 nested
  end.
Proof.
  intros Ha. destruct a as [|n|n|]; cbv zeta; cbn [array_form]; try done;
    (destruct (Z.ltb_spec 0 n); rewrite Z2Nat.id by done; [done | by replace n with 0%Z by lia]).
Qed.

Lemma builtin_rows b w :
  (b, w) ∈ builtin_types -> b <> "byte" ->
  exists i, is_primitive_type b = true /\ get_base_type_id w = Ok i /\
    type_id_row b = Some (i, wrap_u 8 (i + TypeId.ARRAY_OFFSET), wrap_u 8 (i + TypeId.BOUNDED_SEQUENCE_OFFSET),
                          wrap_u 8 (i + TypeId.UNBOUNDED_SEQUENCE_OFFSET)) /\
    field_type_to_description w = Ok (mkFTD i 0 0 "") /\
    (match w with TyMessage _ | TyBoundedString _ => False | _ => True end).
Proof.
  unfold builtin_types. intros H Hb.
  repeat (apply elem_of_cons in H as [H|H];
    [injection H as -> ->; first [done | eexists; split_and!; reflexivity]|]).
  by apply elem_of_nil in H.
Qed.

Lemma describe_of_array a w i (nested : string) :
  get_base_type_id w = Ok i ->
  match w with TyMessage s => nested = type_name s | TyBoundedString _ => False | _ => nested = "" end ->
  field_type_to_description w = Ok (mkFTD i 0 0 nested) ->
  field_type_to_description (of_array a w) = Ok
    (match a with
     | Single => mkFTD i 0 0 nested
     | Fixed n => mkFTD (wrap_u 8 (i + TypeId.ARRAY_OFFSET)) (Z.of_nat (Z.to_nat n)) 0 nested
     | Bounded n => mkFTD (wrap_u 8 (i + TypeId.BOUNDED_SEQUENCE_OFFSET)) (Z.of_nat (Z.to_nat n)) 0 nested
     | Unbounded => mkFTD (wrap_u 8 (i + TypeId.UNBOUNDED_SEQUENCE_OFFSET)) 0 0 nested
     end).
Proof.
  intros Hi Hw Hd. destruct a; cbn [of_array]; [done|..];
    cbn [field_type_to_description]; rewrite Hi; cbn [mbind res_bind];
    by destruct w; try done; rewrite Hw.
Qed.

Lemma field_descriptions_agree resolver package f fs :
  agreeing_field resolver f -> field_denotes resolver f fs ->
  field_schema_to_description fs = map_err (fun _ => EmptyPath) (field_description_of package f).
Proof.
  destruct f as [fn [b p a sb] dv]. unfold agreeing_field. cbn [pf_type base_type ft_package array string_bound].
  intros (Hb & -> & Hpk & Hsp & Ha & Hres) (Hn & _ & Hd).
  destruct fs as [fsn t d]. cbn [field_name field_type pf_name pf_type] in *. subst fsn.
  unfold field_schema_to_description, field_description_of. cbn [field_name field_type pf_name pf_type].
  unfold get_type_id. cbn [base_type ft_package array string_bound default]. cbv zeta.
  inversion Hd as [w Hw E|n rest Hr Hp E|q s Hq Hs Hnb Hno E]; cbn [base_type ft_package array] in *; subst t.
  - destruct (builtin_rows b w Hw Hb) as (i & Hprim & Hi & Hrow & Hdw & Hm).
    rewrite Hprim, (Hpk Hprim), Hrow. cbn [negb orb andb].
    rewrite (describe_of_array a w i "" Hi) by (done || by destruct w).
    cbn [mbind res_bind map_err String.eqb]. unfold ftd_array, ftd_primitive, get_array_capacity.
    cbn [array]. rewrite <- description_form by done. done.
  - rewrite Hr, RustStr.strip_prefix_app in Hsp. done.
  - subst p.
    assert (is_primitive_type b = false) as Hprim.
    { destruct (is_primitive_type b) eqn:Hprim; [|done]. by specialize (Hpk eq_refl). }
    rewrite Hprim. cbn [negb orb andb].
    rewrite (describe_of_array a (TyMessage s) TypeId.NESTED_TYPE (type_name s)) by done.
    rewrite (Hres q s) by done. cbn [mbind res_bind map_err].
    unfold get_nested_type_name_with_context. cbn [default ft_package base_type]. unfold id.
    replace (String.eqb (q ++ "/msg/" ++ b) "") with false by (by destruct q).
    unfold ftd_nested_array, ftd_nested, get_array_capacity. cbn [array].
    rewrite <- description_form by done. done.
Qed.

(** ** Properties *)

(** What the generator hashes for a message, when the dependency map is keyed
    by package and name as the resolver keys it: the description of every field
    (the conversion never fails), and as references the dependencies of the
    fields themselves, in the order of their names: a dependency of a
    dependency is not among them unless a field has it too. *)
Theorem hashed_references_are_direct msg deps :
  two_part_keys deps -> three_part_names deps ->
  exists fds, traverse (field_description_of (pm_package msg)) (pm_fields msg) = Ok fds /\
    build_type_description_msg msg deps =
      Ok (mkTDM (mkTD (pm_package msg ++ "/msg/" ++ pm_name msg)
                   (match pm_fields msg with [] => [empty_member] | _ => fds end))
            (btree_values (insert_all ∅ (direct_references (pm_package msg) deps (pm_fields msg))))).
Proof. apply build_direct. Qed.

Definition ex_field (t : string) (p : option string) (n : string) : PField :=
  mkPField n (mkPFieldType t p Single None) None.
Definition ex_message (package name : string) (fs : list PField) : ParsedMessage :=
  mkParsed name package fs [] "" "".
Definition ex_time_td : TypeDescription := mkTD "b/msg/Time" [mkFD "sec" (ftd_primitive 6) ""].
Definition ex_header_td : TypeDescription :=
  mkTD "s/msg/Header" [mkFD "stamp" (ftd_nested 1 "b/msg/Time") ""].
Definition ex_deps : Deps := <["s/Header" := ex_header_td]> (<["b/Time" := ex_time_td]> ∅).

Lemma ex_deps_lookup k td :
  ex_deps !! k = Some td -> k = "s/Header" /\ td = ex_header_td \/ k = "b/Time" /\ td = ex_time_td.
Proof.
  unfold ex_deps. intros [[<- <-]|[_ H]]%lookup_insert_Some; [by left|].
  apply lookup_insert_Some in H as [[<- <-]|[_ H]]; [by right|]. discriminate H.
Qed.

Lemma ex_deps_keys : two_part_keys ex_deps /\ three_part_names ex_deps.
Proof.
  split; intros k td [[-> ->]|[-> ->]]%ex_deps_lookup; try reflexivity; repeat constructor;
    first [by left | by right].
Qed.

Lemma hashed_references_are_direct_witness :
  let msg := ex_message "g" "Stamped" [ex_field "Header" (Some "s") "header"] in
  exists fds, traverse (field_description_of "g") (pm_fields msg) = Ok fds /\
    build_type_description_msg msg ex_deps =
      Ok (mkTDM (mkTD "g/msg/Stamped" fds)
            (btree_values (insert_all ∅ (direct_references "g" ex_deps (pm_fields msg))))).
Proof. exact (hashed_references_are_direct (ex_message "g" "Stamped" [ex_field "Header" (Some "s") "header"])
  ex_deps (proj1 ex_deps_keys) (proj2 ex_deps_keys)). Defined.

(** A header in a message brings its own type to the hash, not the type of its
    time stamp. *)
Lemma transitive_reference_missing :
  let msg := ex_message "g" "Stamped" [ex_field "Header" (Some "s") "header"] in
  map_err (fun _ => tt) (build_type_description_msg msg ex_deps) =
    Ok (mkTDM (mkTD "g/msg/Stamped" [mkFD "header" (ftd_nested 1 "s/msg/Header") ""]) [ex_header_td]).
Proof. vm_compute. reflexivity. Qed.

(** The code generator and the dynamic schemas describe a message alike: if a
    parsed message with fields converts to a schema, and its fields are ones on
    which the two agree, then the description of the schema is the description
    that the generator hashes. *)
Theorem generator_and_schema_agree resolver msg s deps m :
  parsed_message_to_schema resolver msg = Ok s ->
  Forall (agreeing_field resolver) (pm_fields msg) -> pm_fields msg <> [] ->
  two_part_keys deps -> three_part_names deps ->
  build_type_description_msg msg deps = Ok m ->
  to_type_description s = Ok (type_description m).
Proof.
  intros Hs Ha Hne Hk Hn Hm. destruct (build_direct msg deps Hk Hn) as (fds & Ht & Hb).
  rewrite Hb in Hm. injection Hm as <-. cbn [type_description].
  unfold parsed_message_to_schema in Hs. pose proof (convert_fields_spec resolver (pm_fields msg)) as Hc.
  cbv zeta in Hc. destruct (traverse _ (pm_fields msg)) as [l|e|] in Hs, Hc; try done.
  cbn [mbind res_bind] in Hs. injection Hs as <-. unfold to_type_description. cbn [fields type_name].
  assert (traverse field_schema_to_description l = Ok fds) as ->.
  { clear Hb Hne. revert fds Ht. induction Hc as [|f fs pfs l Hf _ IH]; intros fds Ht; [by injection Ht as <-|].
    apply Forall_cons in Ha as [Hfa Ha]. cbn [traverse] in *.
    rewrite (field_descriptions_agree resolver (pm_package msg) f fs) by done.
    destruct (field_description_of (pm_package msg) f) as [fd|e|]; cbn [mbind res_bind map_err] in *; try done.
    destruct (traverse (field_description_of (pm_package msg)) pfs) as [fds'|e|]; try done.
    cbn [mbind res_bind] in Ht. injection Ht as <-. by rewrite (IH Ha fds'). }
  cbn [mbind res_bind]. by destruct (pm_fields msg).
Qed.

Lemma generator_and_schema_agree_witness :
  let msg := ex_message "g" "Two" [ex_field "uint8" None "a"; ex_field "string" None "b"] in
  let s := mkSchema "g/msg/Two" "g" "Two" [mkField "a" TyUint8 None; mkField "b" TyString None] None in
  to_type_description s = Ok (mkTD "g/msg/Two" [mkFD "a" (ftd_primitive 3) ""; mkFD "b" (ftd_primitive 17) ""]).
Proof.
  intros msg s.
  apply (generator_and_schema_agree (fun _ _ => None) msg s ∅
    (mkTDM (mkTD "g/msg/Two" [mkFD "a" (ftd_primitive 3) ""; mkFD "b" (ftd_primitive 17) ""]) [])).
  - reflexivity.
  - repeat constructor; done.
  - done.
  - intros k td H. discriminate H.
  - intros k td H. discriminate H.
  - vm_compute. reflexivity.
Defined.

(** A message without fields: the generator hashes a placeholder member, the
    schema has none. *)
Lemma empty_message_differs :
  let msg := ex_message "g" "Empty" [] in
  build_type_description_msg msg ∅ = Ok (mkTDM (mkTD "g/msg/Empty" [empty_member]) []) /\
  (s ← parsed_message_to_schema (fun _ _ => None) msg; to_type_description s) = Ok (mkTD "g/msg/Empty" []).
Proof. by vm_compute. Qed.
