(* ===== verification/Resolver.v ===== *)
(** * Dependency resolution of the code generator
    (crates/ros-z-codegen/src/resolver.rs)

    The resolver takes parsed messages from a queue, computes the hash of those
    whose dependencies it knows and puts the others back, then resolves the
    services and actions over the messages it has. *)
From stdpp Require Import gmap strings.
From S2P Require Import Prelude Utf8 RustStr RustText RustColl SchemaModel MsgParser SrvActionParser TypeHashing.
Open Scope string_scope.

(** ** Definitions *)

(** *** Resolved definitions (types.rs) *)

Record ResolvedMessage := mkResolved {
  rm_parsed : ParsedMessage;
  rm_type_hash : SchemaHash;
  rm_definition : string;
}.
Record ResolvedService := mkResolvedService {
  rs_parsed : ParsedService;
  rs_request : ResolvedMessage;
  rs_response : ResolvedMessage;
  rs_type_hash : SchemaHash;
}.
Record ResolvedAction := mkResolvedAction {
  ra_parsed : ParsedAction;
  ra_goal : ResolvedMessage;
  ra_result : option ResolvedMessage;
  ra_feedback : option ResolvedMessage;
  ra_type_hash : SchemaHash;
  ra_send_goal_hash : SchemaHash;
  ra_get_result_hash : SchemaHash;
  ra_feedback_message_hash : SchemaHash;
  ra_cancel_goal_hash : SchemaHash;
  ra_status_hash : SchemaHash;
}.

(** [ResolvedMessageExt::type_description]: the names of action parts, and the
    fields. *)
Definition interface_name (package name : string) : string :=
  match strip_suffix "Goal" name with
  | Some base => package ++ "/action/" ++ base ++ "_Goal"
  | None =>
      match strip_suffix "Result" name with
      | Some base => package ++ "/action/" ++ base ++ "_Result"
      | None =>
          match strip_suffix "Feedback" name with
          | Some base => package ++ "/action/" ++ base ++ "_Feedback"
          | None => package ++ "/msg/" ++ name
          end
      end
  end.
Definition described_field (package : string) (field : PField) : FieldDescription :=
  let ft := pf_type field in
  let type_id := match get_type_id ft with Ok i => i | _ => 0%Z end in
  let pkg := default package (ft_package ft) in
  let nested := if is_primitive_type (base_type ft) then "" else interface_name pkg (base_type ft) in
  mkFD (pf_name field) (mkFTD type_id (get_array_capacity ft) (default 0%Z (string_bound ft)) nested) "".
Definition type_description (m : ParsedMessage) : TypeDescription :=
  mkTD (interface_name (pm_package m) (pm_name m))
    (match pm_fields m with
     | [] => [empty_member]
     | fs => map (described_field (pm_package m)) fs
     end).

(** *** The resolver *)

Record Resolver := mkResolver {
  type_descriptions : Deps;
  resolved_messages : gmap string ResolvedMessage;
  is_humble : bool;
  external_packages : gset string;
}.
Definition resolver_new (is_humble : bool) : Resolver := mkResolver ∅ ∅ is_humble ∅.
Definition with_external_packages (is_humble : bool) (external_packages : gset string) : Resolver :=
  mkResolver ∅ ∅ is_humble external_packages.
Definition is_external_package (r : Resolver) (package : string) : bool :=
  bool_decide (package ∈ external_packages r).
Definition set_descriptions (r : Resolver) (f : Deps -> Deps) : Resolver :=
  mkResolver (f (type_descriptions r)) (resolved_messages r) (is_humble r) (external_packages r).

(** The errors, with the values that their texts show. *)
Inductive ResolveError :=
| MaxIterations (unresolved : nat) (stuck : list string)
| Stalled (iterations unresolved : nat) (stuck : list (string * list PFieldType))
| Bail (e : string).

Definition message_key (m : ParsedMessage) : string := pm_package m ++ "/" ++ pm_name m.
Definition contains_key (r : Resolver) (key : string) : bool :=
  match type_descriptions r !! key with Some _ => true | None => false end.
Definition is_type_resolved (r : Resolver) (package : option string) (base_type : string) : bool :=
  match package with
  | Some pkg => contains_key r (pkg ++ "/" ++ base_type)
  | None => false
  end.
Definition is_type_resolved_in_context (r : Resolver) (package : option string)
    (base_type source_package : string) : bool :=
  match package with
  | Some pkg => is_external_package r pkg || contains_key r (pkg ++ "/" ++ base_type)
  | None => contains_key r (source_package ++ "/" ++ base_type)
  end.
Definition all_deps_resolved (r : Resolver) (msg : ParsedMessage) : bool :=
  forallb (fun field =>
    is_primitive_type (base_type (pf_type field)) ||
    is_type_resolved_in_context r (ft_package (pf_type field)) (base_type (pf_type field)) (pm_package msg))
    (pm_fields msg).
Definition unresolved_deps (r : Resolver) (m : ParsedMessage) : list PFieldType :=
  map pf_type (List.filter (fun f =>
    negb (is_primitive_type (base_type (pf_type f))) &&
    negb (is_type_resolved r (ft_package (pf_type f)) (base_type (pf_type f)))) (pm_fields m)).

(** [expand_definition]. *)
Definition nested_types (msg : ParsedMessage) : list string :=
  foldl (fun keys field =>
    match ft_package (pf_type field) with
    | Some pkg =>
        let key := pkg ++ "/" ++ base_type (pf_type field) in
        if bool_decide (key ∈ keys) then keys else (keys ++ [key])%list
    | None => keys
    end) [] (pm_fields msg).
Definition definition_rule : string :=
  "================================================================================" ++ String newline "".
Definition expand_definition (r : Resolver) (msg : ParsedMessage) : string :=
  foldl (fun definition nested_key =>
    match resolved_messages r !! nested_key with
    | Some resolved =>
        definition ++ String newline (String newline "") ++ definition_rule
          ++ "MSG: " ++ nested_key ++ String newline "" ++ rm_definition resolved
    | None => definition
    end) (pm_source msg) (nested_types msg).

(** The key of a full type name. *)
Definition nested_key (nested_name : string) : string :=
  if str_contains "/msg/" nested_name then RustStr.replace "/msg/" "/" nested_name
  else if str_contains "/srv/" nested_name then RustStr.replace "/srv/" "/" nested_name
  else nested_name.

(** [collect_nested_deps]: a dependency is recorded before it is visited.  Fuel
    bounds the depth; running out is the overflow of the stack. *)
Fixpoint collect_nested_deps (fuel : nat) (descriptions : Deps) (type_desc : TypeDescription) (collected : Deps)
    : res ResolveError Deps :=
  match fuel with
  | O => Panic
  | S fuel =>
      for_each (fun collected field =>
        let nested_name := nested_type_name (fd_type field) in
        if String.eqb nested_name "" then Ok collected
        else if decide (is_Some (collected !! nested_name)) then Ok collected
        else match descriptions !! nested_key nested_name with
             | Some dep_desc =>
                 collect_nested_deps fuel descriptions dep_desc (<[td_name dep_desc := dep_desc]> collected)
             | None => Ok collected
             end) collected (td_fields type_desc)
  end.
Definition nested_deps (descriptions : Deps) (type_desc : TypeDescription) (collected : Deps) :=
  collect_nested_deps (S (size descriptions)) descriptions type_desc collected.

Section Resolve.
Context `{HA : HashApi}.

Definition resolve_message (r : Resolver) (msg : ParsedMessage) : res ResolveError ResolvedMessage :=
  type_hash ← map_err Bail (calculate_type_hash msg (type_descriptions r));
  Ok (mkResolved msg type_hash (expand_definition r msg)).

(** [resolve_messages]: what it stores, its loop and the loop's bounds.  [budget]
    is [MAX_ITERATIONS] less the iterations made.  On an error the caller gives
    the resolver up. *)
Definition MAX_ITERATIONS : nat := N.to_nat 10000.
Definition store (r : Resolver) (key : string) (resolved : ResolvedMessage) : Resolver :=
  mkResolver (<[key := type_description (rm_parsed resolved)]> (type_descriptions r))
    (<[key := resolved]> (resolved_messages r)) (is_humble r) (external_packages r).
Definition resolve_and_store (r : Resolver) (msg : ParsedMessage) : res ResolveError Resolver :=
  resolved ← resolve_message r msg;
  Ok (store r (message_key (rm_parsed resolved)) resolved).
Fixpoint resolve_queue (budget : nat) (r : Resolver) (queue : list ParsedMessage)
    (last_queue_size stagnant_iterations : nat) : res ResolveError Resolver :=
  match queue with
  | [] => Ok r
  | msg :: queue =>
      match budget with
      | O => Err (MaxIterations (length queue + 1) (map message_key (take 10 queue)))
      | S budget =>
          '(r, queue, stagnant_iterations) ←
            (if all_deps_resolved r msg then
               r ← resolve_and_store r msg; Ok (r, queue, 0%nat)
             else Ok (r, (queue ++ [msg])%list, stagnant_iterations));
          if (length queue =? last_queue_size)%nat then
            let stagnant_iterations := S stagnant_iterations in
            if (100 <? stagnant_iterations)%nat then
              Err (Stalled (MAX_ITERATIONS - budget) (length queue)
                     (map (fun m => (message_key m, unresolved_deps r m)) (take 10 queue)))
            else resolve_queue budget r queue last_queue_size stagnant_iterations
          else resolve_queue budget r queue (length queue) 0
      end
  end.
Definition resolve_messages (r : Resolver) (messages : list ParsedMessage)
    : res ResolveError (Resolver * list ResolvedMessage) :=
  r ← resolve_queue MAX_ITERATIONS r messages (length messages) 0;
  Ok (r, map snd (map_to_list (resolved_messages r))).

(** [resolve_service]: the type description that is hashed, and the rest. *)
Definition insert_known (r : Resolver) (key : string) (deps : Deps) : Deps :=
  match type_descriptions r !! key with
  | Some desc => <[td_name desc := desc]> deps
  | None => deps
  end.
Definition event_info (r : Resolver) (e : string) : res ResolveError TypeDescription :=
  ok_or (type_descriptions r !! "service_msgs/ServiceEventInfo") (Bail e).
Definition service_hash (r : Resolver) (srv : ParsedService) (request response : ResolvedMessage)
    : res ResolveError SchemaHash :=
  service_event_info_desc ← event_info r "ServiceEventInfo not found in builtin types";
  let service_deps := <[td_name service_event_info_desc := service_event_info_desc]> ∅ in
  let service_deps := insert_known r "builtin_interfaces/Time" service_deps in
  service_deps ← nested_deps (type_descriptions r) (type_description (rm_parsed request)) service_deps;
  service_deps ← nested_deps (type_descriptions r) (type_description (rm_parsed response)) service_deps;
  map_err Bail (calculate_service_type_hash (ps_package srv) (ps_name srv)
    (type_description (rm_parsed request)) (type_description (rm_parsed response))
    service_event_info_desc service_deps).
Definition store_description (r : Resolver) (m : ParsedMessage) : Resolver :=
  set_descriptions r (insert (message_key m) (type_description m)).
Definition resolve_service (r : Resolver) (srv : ParsedService)
    : res ResolveError (Resolver * ResolvedService) :=
  request ← resolve_message r (ps_request srv);
  response ← resolve_message r (ps_response srv);
  let r := store_description (store_description r (ps_request srv)) (ps_response srv) in
  let has_external_deps := negb (bool_decide (external_packages r = ∅)) in
  type_hash ← (if is_humble r || has_external_deps then Ok schema_hash_zero
               else service_hash r srv request response);
  Ok (r, mkResolvedService srv request response type_hash).
Fixpoint resolve_services (r : Resolver) (services : list ParsedService)
    : res ResolveError (Resolver * list ResolvedService) :=
  match services with
  | [] => Ok (r, [])
  | srv :: services =>
      '(r, resolved) ← resolve_service r srv;
      '(r, rest) ← resolve_services r services;
      Ok (r, resolved :: rest)
  end.

(** *** The types of the action protocol *)

Definition field_of (name : string) (type_id capacity : Z) (nested : string) : FieldDescription :=
  mkFD name (mkFTD type_id capacity 0 nested) "".
Definition uuid_name : string := "unique_identifier_msgs/msg/UUID".
Definition time_name : string := "builtin_interfaces/msg/Time".
Definition goal_id_field : FieldDescription := field_of "goal_id" 1 0 uuid_name.
Definition action_type (action : ParsedAction) (suffix : string) : string :=
  pa_package action ++ "/action/" ++ pa_name action ++ suffix.
Definition event_info_missing : string := "ServiceEventInfo not found in type descriptions".

Definition calculate_send_goal_hash (r : Resolver) (action : ParsedAction) (goal : ResolvedMessage)
    : res ResolveError SchemaHash :=
  if is_humble r then Ok schema_hash_zero
  else
    let request_desc := mkTD (action_type action "_SendGoal_Request")
      [goal_id_field; field_of "goal" 1 0 (action_type action "_Goal")] in
    let response_desc := mkTD (action_type action "_SendGoal_Response")
      [field_of "accepted" 15 0 ""; field_of "stamp" 1 0 time_name] in
    let deps := insert_known r "unique_identifier_msgs/UUID" ∅ in
    let deps := insert_known r "builtin_interfaces/Time" deps in
    service_event_info_desc ← event_info r event_info_missing;
    let deps := <[td_name service_event_info_desc := service_event_info_desc]> deps in
    let goal_desc := type_description (rm_parsed goal) in
    let deps := <[td_name goal_desc := goal_desc]> deps in
    map_err Bail (calculate_service_type_hash (pa_package action) (pa_name action ++ "_SendGoal")
      request_desc response_desc service_event_info_desc deps).
Definition calculate_get_result_hash (r : Resolver) (action : ParsedAction) (result : ResolvedMessage)
    : res ResolveError SchemaHash :=
  if is_humble r then Ok schema_hash_zero
  else
    let request_desc := mkTD (action_type action "_GetResult_Request") [goal_id_field] in
    let response_desc := mkTD (action_type action "_GetResult_Response")
      [field_of "status" 2 0 ""; field_of "result" 1 0 (action_type action "_Result")] in
    let deps := insert_known r "unique_identifier_msgs/UUID" ∅ in
    let deps := insert_known r "builtin_interfaces/Time" deps in
    service_event_info_desc ← event_info r event_info_missing;
    let deps := <[td_name service_event_info_desc := service_event_info_desc]> deps in
    let result_desc := type_description (rm_parsed result) in
    let deps := <[td_name result_desc := result_desc]> deps in
    map_err Bail (calculate_service_type_hash (pa_package action) (pa_name action ++ "_GetResult")
      request_desc response_desc service_event_info_desc deps).
Definition hash_with_deps (type_desc : TypeDescription) (deps : Deps) : res ResolveError SchemaHash :=
  let type_desc_msg := mkTDM type_desc (sort_by td_name (btree_values deps)) in
  json ← map_err Bail (to_ros2_json (to_hash_version type_desc_msg));
  Ok (sha256 json).
Definition calculate_feedback_message_hash (r : Resolver) (action : ParsedAction) (feedback : ResolvedMessage)
    : res ResolveError SchemaHash :=
  let type_desc := mkTD (action_type action "_FeedbackMessage")
    [goal_id_field; field_of "feedback" 1 0 (action_type action "_Feedback")] in
  let deps := insert_known r "unique_identifier_msgs/UUID" ∅ in
  let feedback_desc := type_description (rm_parsed feedback) in
  let deps := <[td_name feedback_desc := feedback_desc]> deps in
  hash_with_deps type_desc deps.
Definition calculate_cancel_goal_hash (r : Resolver) : res ResolveError SchemaHash :=
  if is_humble r then Ok schema_hash_zero
  else
    let request_desc := mkTD "action_msgs/srv/CancelGoal_Request"
      [field_of "goal_info" 1 0 "action_msgs/msg/GoalInfo"] in
    let response_desc := mkTD "action_msgs/srv/CancelGoal_Response" [field_of "return_code" 2 0 ""] in
    let deps := insert_known r "action_msgs/GoalInfo" ∅ in
    let deps := insert_known r "builtin_interfaces/Time" deps in
    service_event_info_desc ← event_info r event_info_missing;
    let deps := <[td_name service_event_info_desc := service_event_info_desc]> deps in
    map_err Bail (calculate_service_type_hash "action_msgs" "CancelGoal" request_desc response_desc
      service_event_info_desc deps).
Definition goal_info_desc : TypeDescription :=
  mkTD "action_msgs/msg/GoalInfo" [goal_id_field; field_of "stamp" 1 0 time_name].
Definition goal_status_desc : TypeDescription :=
  mkTD "action_msgs/msg/GoalStatus"
    [field_of "goal_info" 1 0 "action_msgs/msg/GoalInfo"; field_of "status" 2 0 ""].
Definition uuid_desc : TypeDescription := mkTD uuid_name [field_of "uuid" 51 16 ""].
Definition calculate_status_hash (r : Resolver) : res ResolveError SchemaHash :=
  let type_desc := mkTD "action_msgs/msg/GoalStatusArray"
    [field_of "status_list" 145 0 "action_msgs/msg/GoalStatus"] in
  let deps := <[td_name goal_info_desc := goal_info_desc]> ∅ in
  let deps := <[td_name goal_status_desc := goal_status_desc]> deps in
  let deps := insert_known r "builtin_interfaces/Time" deps in
  let deps := <[td_name uuid_desc := uuid_desc]> deps in
  hash_with_deps type_desc deps.

(** [resolve_action] and [resolve_actions]. *)
Definition resolve_optional (r : Resolver) (o : option ParsedMessage)
    : res ResolveError (option ResolvedMessage) :=
  match o with
  | Some m => Some <$> resolve_message r m
  | None => Ok None
  end.
Definition store_optional (r : Resolver) (o : option ParsedMessage) : Resolver :=
  match o with Some m => store_description r m | None => r end.
Definition optional_hash (hash : ResolvedMessage -> res ResolveError SchemaHash) (o : option ResolvedMessage)
    : res ResolveError SchemaHash :=
  match o with Some m => hash m | None => Ok (replicate 32 0%Z) end.
Definition resolve_action (r : Resolver) (action : ParsedAction)
    : res ResolveError (Resolver * ResolvedAction) :=
  goal ← resolve_message r (pa_goal action);
  result ← resolve_optional r (pa_result action);
  feedback ← resolve_optional r (pa_feedback action);
  let r := store_description r (pa_goal action) in
  let r := store_optional (store_optional r (pa_result action)) (pa_feedback action) in
  let type_hash := rm_type_hash goal in
  send_goal_hash ← calculate_send_goal_hash r action goal;
  get_result_hash ← optional_hash (calculate_get_result_hash r action) result;
  feedback_message_hash ← optional_hash (calculate_feedback_message_hash r action) feedback;
  cancel_goal_hash ← calculate_cancel_goal_hash r;
  status_hash ← calculate_status_hash r;
  Ok (r, mkResolvedAction action goal result feedback type_hash send_goal_hash get_result_hash
           feedback_message_hash cancel_goal_hash status_hash).
Fixpoint resolve_actions (r : Resolver) (actions : list ParsedAction)
    : res ResolveError (Resolver * list ResolvedAction) :=
  match actions with
  | [] => Ok (r, [])
  | action :: actions =>
      '(r, resolved) ← resolve_action r action;
      '(r, rest) ← resolve_actions r actions;
      Ok (r, resolved :: rest)
  end.
End Resolve.
