(* ===== verification/ResolverProps.v ===== *)
(** * What dependency resolution guarantees

    Messages that are resolved have all their dependencies and a hash that does
    not depend on the order of the queue; a solvable set of at most 101 messages
    is resolved; more than 100 failures in a row stop the resolution. *)
From stdpp Require Import gmap strings.
From S2P Require Import Prelude Utf8 RustStr RustText RustColl SchemaModel MsgParser SrvActionParser TypeHashing Resolver.
Open Scope string_scope.

(** ** Definitions *)

(** Names without a slash, as the parsers produce them. *)
Definition plain (s : string) : Prop := contains_char "/" s = false.
Definition plain_field (f : PField) : Prop :=
  plain (base_type (pf_type f)) /\ plain (default "" (ft_package (pf_type f))).
Definition plain_message (m : ParsedMessage) : Prop :=
  plain (pm_package m) /\ plain (pm_name m) /\ is_primitive_type (pm_name m) = false /\
  Forall plain_field (pm_fields m).
Definition resolver_ok (r : Resolver) : Prop :=
  two_part_keys (type_descriptions r) /\ three_part_names (type_descriptions r).
(** A message that the resolver has not met. *)
Definition fresh_message (r : Resolver) (m : ParsedMessage) : Prop :=
  plain_message m /\ pm_package m ∉ external_packages r /\
  type_descriptions r !! message_key m = None /\ resolved_messages r !! message_key m = None.
Definition queue_ok (r : Resolver) (ms : list ParsedMessage) : Prop :=
  resolver_ok r /\ NoDup (map message_key ms) /\ Forall (fresh_message r) ms.

(** ** Lemmas *)

Lemma split_plain a : plain a -> split_on "/" a = [a].
Proof. apply split_on_none. Qed.

Lemma key_parts p n : plain p -> plain n -> split_on "/" (p ++ "/" ++ n) = [p; n].
Proof. intros Hp Hn. change ("/" ++ n) with (String "/" n). rewrite split_on_app, split_plain by done. done. Qed.

Lemma key_inj p n p' n' :
  plain p -> plain n -> plain p' -> plain n' -> p ++ "/" ++ n = p' ++ "/" ++ n' -> p = p' /\ n = n'.
Proof.
  intros Hp Hn Hp' Hn' H. apply (f_equal (split_on "/")) in H. rewrite !key_parts in H by done.
  by injection H.
Qed.

Lemma plain_app a b : plain (a ++ b) <-> plain a /\ plain b.
Proof. unfold plain. by rewrite contains_char_app, orb_false_iff. Qed.

Lemma interface_name_parts p n : plain p -> plain n -> length (split_on "/" (interface_name p n)) = 3%nat.
Proof.
  intros Hp Hn.
  assert (forall dir x, plain dir -> plain x -> length (split_on "/" (p ++ "/" ++ dir ++ "/" ++ x)) = 3%nat) as H.
  { intros dir x Hd Hx. change ("/" ++ dir ++ "/" ++ x) with (String "/" (dir ++ String "/" x)).
    by rewrite !split_on_app, split_plain by done. }
  assert (forall t base, plain t -> strip_suffix t n = Some base -> plain (base ++ "_" ++ t)) as Hs.
  { intros t base Ht ->%strip_suffix_Some. apply plain_app in Hn as [Hb _]. by rewrite !plain_app. }
  unfold interface_name. destruct (strip_suffix "Goal" n) as [b|] eqn:E1; [by apply (H "action"), (Hs "Goal")|].
  destruct (strip_suffix "Result" n) as [b|] eqn:E2; [by apply (H "action"), (Hs "Result")|].
  destruct (strip_suffix "Feedback" n) as [b|] eqn:E3; [by apply (H "action"), (Hs "Feedback")|].
  by apply (H "msg").
Qed.

Lemma described_fields_three m :
  plain_message m ->
  Forall (fun f => nested_type_name (fd_type f) = "" \/
                   length (split_on "/" (nested_type_name (fd_type f))) = 3%nat)
    (td_fields (type_description m)).
Proof.
  intros (Hp & _ & _ & Hf). unfold type_description. cbn [td_fields].
  destruct (pm_fields m) as [|f fs]; [repeat constructor; by left|]. apply Forall_map.
  eapply Forall_impl; [exact Hf|]. intros g [Hb Hk]. unfold described_field. cbn [fd_type nested_type_name].
  destruct (is_primitive_type _); [by left|right]. apply interface_name_parts; [|done].
  by destruct (ft_package (pf_type g)).
Qed.

Lemma store_description_ok r m : plain_message m -> resolver_ok r -> resolver_ok (store_description r m).
Proof.
  intros Hm [Hk Hn]. split; intros k td; cbn; intros [[<- <-]|[_ H]]%lookup_insert_Some.
  - destruct Hm as (Hp & Hq & _). unfold message_key. by rewrite key_parts.
  - by eapply Hk.
  - by apply described_fields_three.
  - by eapply Hn.
Qed.

Section Props.
Context {HA : HashApi} {HL : HashLaws}.

Lemma store_ok r m rm :
  plain_message m -> resolver_ok r -> rm_parsed rm = m -> resolver_ok (store r (message_key m) rm).
Proof. intros Hm Hr <-. exact (store_description_ok r _ Hm Hr). Qed.

(** *** One message *)

Lemma calculate_hash_ok {E} msg : exists h, calculate_hash (E := E) msg = Ok h.
Proof.
  unfold calculate_hash, to_ros2_json. destruct (json_total (to_hash_version msg)) as [j ->]. by eexists.
Qed.

Lemma resolve_message_ok r m :
  resolver_ok r -> exists rm, resolve_message r m = Ok rm /\ rm_parsed rm = m.
Proof.
  intros [Hk Hn]. unfold resolve_message, calculate_type_hash.
  destruct (build_direct m (type_descriptions r) Hk Hn) as (fds & _ & ->). cbn [mbind res_bind map_err].
  destruct (calculate_hash_ok (E := string) (mkTDM (mkTD (pm_package m ++ "/msg/" ++ pm_name m)
    (match pm_fields m with [] => [empty_member] | _ => fds end))
    (btree_values (insert_all ∅ (direct_references (pm_package m) (type_descriptions r) (pm_fields m))))))
    as [h ->]. by eexists.
Qed.

(** What a message reads of the resolver. *)
Definition same_context (r r' : Resolver) (m : ParsedMessage) : Prop :=
  Forall (fun f => is_primitive_type (base_type (pf_type f)) = false ->
                   type_descriptions r !! dep_key (pm_package m) (pf_type f) =
                   type_descriptions r' !! dep_key (pm_package m) (pf_type f)) (pm_fields m) /\
  Forall (fun k => resolved_messages r !! k = resolved_messages r' !! k) (nested_types m).

Lemma resolve_message_context r r' m :
  resolver_ok r -> resolver_ok r' -> same_context r r' m -> resolve_message r m = resolve_message r' m.
Proof.
  intros [Hk Hn] [Hk' Hn'] [Hd Hr]. unfold resolve_message, calculate_type_hash.
  destruct (build_direct m (type_descriptions r) Hk Hn) as (fds & Ht & ->).
  destruct (build_direct m (type_descriptions r') Hk' Hn') as (fds' & Ht' & ->).
  rewrite Ht in Ht'. injection Ht' as <-.
  assert (direct_references (pm_package m) (type_descriptions r) (pm_fields m) =
          direct_references (pm_package m) (type_descriptions r') (pm_fields m)) as ->.
  { unfold direct_references. clear -Hd. induction Hd as [|f fs Hf _ IH]; [done|]. cbn [omap list_omap].
    rewrite IH. destruct (is_primitive_type _) eqn:E; [done|]. by rewrite Hf. }
  assert (expand_definition r m = expand_definition r' m) as ->; [|done].
  unfold expand_definition. generalize (pm_source m). clear -Hr.
  induction Hr as [|k ks Hk _ IH]; intros s; [done|]. cbn [foldl]. by rewrite Hk, IH.
Qed.

Lemma nested_types_spec m k :
  k ∈ nested_types m ->
  exists f p, f ∈ pm_fields m /\ ft_package (pf_type f) = Some p /\ k = p ++ "/" ++ base_type (pf_type f).
Proof.
  unfold nested_types. assert (forall fs acc, k ∈ foldl (fun keys field =>
    match ft_package (pf_type field) with
    | Some pkg => let key := pkg ++ "/" ++ base_type (pf_type field) in
                  if bool_decide (key ∈ keys) then keys else (keys ++ [key])%list
    | None => keys end) acc fs -> k ∈ acc \/
    exists f p, f ∈ fs /\ ft_package (pf_type f) = Some p /\ k = p ++ "/" ++ base_type (pf_type f)) as Hspec.
  { induction fs as [|f fs IH]; intros acc H; [by left|]. cbn [foldl] in H.
    apply IH in H as [H|(g & p & Hg & Hp & ->)]; [|right; exists g, p; split_and!; [by right|done..]].
    destruct (ft_package (pf_type f)) as [p|] eqn:Ep; [|by left]. cbv zeta in H.
    case_bool_decide; [by left|]. apply elem_of_app in H as [H|H%list_elem_of_singleton]; [by left|].
    right. exists f, p. split_and!; [by left|done..]. }
  intros Hk. apply Hspec in Hk as [Hk%elem_of_nil|Hk]; done.
Qed.

(** The keys that a resolvable message reads are not those of fresh messages. *)
Lemma dep_key_not_fresh r m m' f :
  plain_message m -> all_deps_resolved r m = true -> f ∈ pm_fields m -> fresh_message r m' ->
  message_key m' <> dep_key (pm_package m) (pf_type f).
Proof.
  intros (Hp & _ & _ & Hfs) Hd Hf ((Hp' & Hn' & Hprim & _) & Hx & Hk & _) He.
  apply (proj1 (list.Forall_forall _ _) Hfs) in Hf as Hpf. destruct Hpf as [Hb Hpk].
  unfold all_deps_resolved in Hd. rewrite forallb_forall in Hd.
  specialize (Hd f (proj1 (list_elem_of_In _ _) Hf)).
  assert (plain (default (pm_package m) (ft_package (pf_type f)))) as Hq
    by (by destruct (ft_package (pf_type f))).
  unfold message_key, dep_key in He. apply key_inj in He as [E1 E2]; [|done..].
  rewrite <- E2, Hprim in Hd. unfold message_key in Hk. cbn [orb] in Hd.
  unfold is_type_resolved_in_context, contains_key, is_external_package in Hd.
  destruct (ft_package (pf_type f)) as [q|]; cbn [default] in E1; unfold id in E1; subst.
  - rewrite bool_decide_eq_false_2, Hk in Hd by done. done.
  - rewrite <- E1, Hk in Hd. done.
Qed.

(** [r'] is [r] but for the keys of [ms]. *)
Definition agree_off (r r' : Resolver) (ms : list ParsedMessage) : Prop :=
  forall k, k ∉ map message_key ms ->
    type_descriptions r' !! k = type_descriptions r !! k /\
    resolved_messages r' !! k = resolved_messages r !! k.

Lemma context_kept r r' m ms :
  plain_message m -> all_deps_resolved r m = true -> Forall (fresh_message r) ms -> agree_off r r' ms ->
  same_context r r' m.
Proof.
  intros Hm Hd Hms Ha.
  assert (forall f, f ∈ pm_fields m -> dep_key (pm_package m) (pf_type f) ∉ map message_key ms) as Hk.
  { intros f Hf (m' & E & Hm')%list_elem_of_fmap.
    refine (dep_key_not_fresh r m m' f Hm Hd Hf _ (eq_sym E)).
    by apply (proj1 (list.Forall_forall _ _) Hms). }
  split; apply list.Forall_forall.
  - intros f Hf _. symmetry. by apply Ha, Hk.
  - intros k (f & p & Hf & Hp & ->)%nested_types_spec. symmetry. apply Ha.
    specialize (Hk f Hf). unfold dep_key in Hk. by rewrite Hp in Hk.
Qed.

Lemma agree_off_deps r r' m ms :
  plain_message m -> Forall (fresh_message r) ms -> agree_off r r' ms ->
  external_packages r' = external_packages r -> all_deps_resolved r m = true -> all_deps_resolved r' m = true.
Proof.
  intros Hm Hms Ha Hx Hd. destruct (context_kept r r' m ms) as [Hc _]; [done..|].
  unfold all_deps_resolved in *. rewrite forallb_forall in *. intros f Hf. specialize (Hd f Hf).
  destruct (is_primitive_type _) eqn:E; [done|]. cbn [orb] in *.
  apply (proj1 (list.Forall_forall _ _) Hc f) in E; [|by apply list_elem_of_In].
  unfold is_type_resolved_in_context, is_external_package, contains_key in *. rewrite Hx.
  unfold dep_key in E. destruct (ft_package (pf_type f)) as [q|]; cbn [default] in E; unfold id in E; by rewrite <- E.
Qed.

(** *** The queue *)

(** What a finished run has done with the messages of its queue. *)
Definition run_ok (r r' : Resolver) (ms : list ParsedMessage) : Prop :=
  resolver_ok r' /\ external_packages r' = external_packages r /\ is_humble r' = is_humble r /\
  agree_off r r' ms /\
  forall m, m ∈ ms ->
    all_deps_resolved r' m = true /\
    type_descriptions r' !! message_key m = Some (type_description m) /\
    exists rm, resolved_messages r' !! message_key m = Some rm /\ resolve_message r' m = Ok rm.

Lemma queue_ok_perm r ms ms' : ms ≡ₚ ms' -> queue_ok r ms -> queue_ok r ms'.
Proof.
  intros Hp (Hr & Hn & Hf). split_and!; [done| |by rewrite <- Hp].
  by rewrite <- (Permutation_map message_key Hp).
Qed.

Lemma run_ok_perm r r' ms ms' : ms ≡ₚ ms' -> run_ok r r' ms -> run_ok r r' ms'.
Proof.
  intros Hp (Hr & Hx & Hh & Ha & Hm). split_and!; try done.
  - intros k Hk. apply Ha. intros Hi. apply Hk. by rewrite <- Hp.
  - intros m Hi. apply Hm. by rewrite Hp.
Qed.

Lemma fresh_other r m rm m' :
  message_key m <> message_key m' -> fresh_message r m' -> fresh_message (store r (message_key m) rm) m'.
Proof. intros Hk (Hp & Hx & Ht & Hm). split_and!; try done; cbn [store type_descriptions resolved_messages]. all: by rewrite lookup_insert_ne. Qed.

Lemma queue_ok_store r m rm ms :
  rm_parsed rm = m -> queue_ok r (m :: ms) -> queue_ok (store r (message_key m) rm) ms.
Proof.
  intros Hrm (Hr & Hn & Hf). apply Forall_cons in Hf as [Hm Hf]. cbn in Hn. apply NoDup_cons in Hn as [Hk Hn].
  split_and!; [apply store_ok; [apply Hm|done..]|done|].
  apply list.Forall_forall. intros m' Hm'. apply fresh_other.
  - intros E. apply Hk. rewrite E. by apply list_elem_of_fmap_2.
  - by apply (proj1 (list.Forall_forall _ _) Hf).
Qed.

Lemma run_ok_store r r' m rm ms :
  queue_ok r (m :: ms) -> all_deps_resolved r m = true -> resolve_message r m = Ok rm -> rm_parsed rm = m ->
  run_ok (store r (message_key m) rm) r' ms -> run_ok r r' (m :: ms).
Proof.
  intros (Hr & Hn & Hf) Hd Hrm Hpm (Hr' & Hx & Hh & Ha & Hms). cbn in Hn. apply NoDup_cons in Hn as [Hk Hn].
  assert (agree_off r r' (m :: ms)) as Ha'.
  { intros k [Hkm Hkms]%not_elem_of_cons. destruct (Ha k Hkms) as [-> ->]. cbn.
    by rewrite !lookup_insert_ne by done. }
  assert (plain_message m) as Hm by (by apply Forall_cons in Hf as [[? _] _]).
  split_and!; try done.
  intros m' [->|Hm']%elem_of_cons; [|by apply Hms]. destruct (Ha _ Hk) as [Et Em].
  cbn [store type_descriptions resolved_messages] in Et, Em. rewrite lookup_insert_eq in Et.
  rewrite lookup_insert_eq in Em. split_and!; [|by rewrite Et, Hpm|].
  - by eapply (agree_off_deps r r').
  - exists rm. split; [done|]. rewrite <- Hrm. symmetry. apply resolve_message_context; [done..|].
    by eapply context_kept.
Qed.

(** One iteration. *)
Lemma resolve_queue_stuck budget r m queue last stagnant :
  all_deps_resolved r m = false -> length (m :: queue) = last -> (stagnant < 100)%nat ->
  resolve_queue (S budget) r (m :: queue) last stagnant = resolve_queue budget r (queue ++ [m]) last (S stagnant).
Proof.
  intros Hd <- Hs. cbn [resolve_queue]. rewrite Hd. cbn [mbind res_bind].
  replace (length (queue ++ [m]))%nat with (length (m :: queue)) by (rewrite length_app; cbn; lia).
  rewrite Nat.eqb_refl. replace (100 <? S stagnant)%nat with false by (symmetry; apply Nat.ltb_ge; lia). done.
Qed.

Lemma resolve_queue_stalls budget r m queue :
  all_deps_resolved r m = false ->
  resolve_queue (S budget) r (m :: queue) (length (m :: queue)) 100 =
    Err (Stalled (MAX_ITERATIONS - budget) (length (m :: queue))
           (map (fun m => (message_key m, unresolved_deps r m)) (take 10 (queue ++ [m])))).
Proof.
  intros Hd. cbn [resolve_queue]. rewrite Hd. cbn [mbind res_bind].
  replace (length (queue ++ [m]))%nat with (length (m :: queue)) by (rewrite length_app; cbn; lia).
  by rewrite Nat.eqb_refl.
Qed.

Lemma resolve_queue_resolved budget r m rm queue last stagnant :
  all_deps_resolved r m = true -> resolve_message r m = Ok rm -> rm_parsed rm = m ->
  length (m :: queue) = last ->
  resolve_queue (S budget) r (m :: queue) last stagnant =
    resolve_queue budget (store r (message_key m) rm) queue (length queue) 0.
Proof.
  intros Hd Hm Hp <-. cbn [resolve_queue]. rewrite Hd. unfold resolve_and_store. rewrite Hm.
  cbn [mbind res_bind]. rewrite Hp. cbn [length].
  replace (length queue =? S (length queue))%nat with false by (symmetry; apply Nat.eqb_neq; lia). done.
Qed.

Lemma resolve_queue_sound budget r queue stagnant r' :
  queue_ok r queue -> resolve_queue budget r queue (length queue) stagnant = Ok r' -> run_ok r r' queue.
Proof.
  revert r queue stagnant. induction budget as [|budget IH]; intros r [|m queue] stagnant Hq H.
  1, 3: injection H as <-; destruct Hq as (Hr & _); split_and!; try done; by intros m' ?%elem_of_nil.
  { done. }
  pose proof Hq as (Hr & _). destruct (resolve_message_ok r m Hr) as (rm & Hm & Hp).
  destruct (all_deps_resolved r m) eqn:Hd.
  - rewrite (resolve_queue_resolved budget r m rm) in H by done.
    apply (run_ok_store r r' m rm); [done..|]. eapply IH; [|exact H]. by apply queue_ok_store.
  - assert (queue ++ [m] ≡ₚ m :: queue) as Hperm by (rewrite Permutation_app_comm; done).
    destruct (decide (stagnant < 100)%nat).
    + rewrite resolve_queue_stuck in H by done. eapply run_ok_perm; [exact Hperm|].
      replace (length (m :: queue)) with (length (queue ++ [m])) in H by (by rewrite Hperm).
      eapply IH; [|exact H]. eapply queue_ok_perm; [symmetry; exact Hperm | done].
    + exfalso. cbn [resolve_queue] in H. rewrite Hd in H. cbn [mbind res_bind] in H.
      rewrite (Permutation_length Hperm), Nat.eqb_refl in H.
      replace (100 <? S stagnant)%nat with true in H by (symmetry; apply Nat.ltb_lt; lia). done.
Qed.

(** *** Which queues are emptied *)

Lemma max_iterations : Z.of_nat MAX_ITERATIONS = 10000%Z.
Proof. unfold MAX_ITERATIONS. by rewrite N_nat_Z. Qed.

(** An order in which the messages can be resolved. *)
Fixpoint ordered (r : Resolver) (ms : list ParsedMessage) : Prop :=
  match ms with
  | [] => True
  | m :: ms => all_deps_resolved r m = true /\ ordered (store_description r m) ms
  end.
Definition knows_more (r r' : Resolver) : Prop :=
  external_packages r' = external_packages r /\
  forall k, contains_key r k = true -> contains_key r' k = true.

Lemma contains_store r m k :
  contains_key (store_description r m) k = true <-> k = message_key m \/ contains_key r k = true.
Proof.
  unfold contains_key. cbn [store_description set_descriptions type_descriptions].
  destruct (decide (message_key m = k)) as [<-|Hne]; [rewrite lookup_insert_eq; tauto|].
  rewrite lookup_insert_ne by done. split; [by right|]. by intros [->|].
Qed.

Lemma knows_more_store r r' m :
  knows_more r r' -> knows_more (store_description r m) (store_description r' m).
Proof.
  intros [Hx Hk]. split; [done|]. intros k. rewrite !contains_store. intros [|]; [by left|right]. by apply Hk.
Qed.

Lemma all_deps_mono r r' m : knows_more r r' -> all_deps_resolved r m = true -> all_deps_resolved r' m = true.
Proof.
  intros [Hx Hk]. unfold all_deps_resolved. rewrite !forallb_forall. intros H f Hf. specialize (H f Hf).
  destruct (is_primitive_type _); [done|]. cbn [orb] in *.
  unfold is_type_resolved_in_context, is_external_package in *. rewrite Hx.
  destruct (ft_package (pf_type f)); [|by apply Hk]. apply orb_true_iff in H as [->|H]; [done|].
  by rewrite Hk, orb_true_r.
Qed.

Lemma ordered_mono r r' ms : knows_more r r' -> ordered r ms -> ordered r' ms.
Proof.
  revert r r'. induction ms as [|m ms IH]; intros r r' Hk; [done|]. intros [Hd Ho]. split.
  - by eapply all_deps_mono.
  - eapply IH; [|exact Ho]. by apply knows_more_store.
Qed.

Lemma ordered_remove r a m b :
  all_deps_resolved r m = true -> ordered r (a ++ m :: b) -> ordered (store_description r m) (a ++ b).
Proof.
  revert r. induction a as [|x a IH]; intros r Hm; [by intros [_ Ho]|]. intros [Hx Ho].
  assert (forall y, knows_more r (store_description r y)) as Hs.
  { intros y. split; [done|]. intros k Hk. apply contains_store. by right. }
  split; [by eapply all_deps_mono|].
  eapply ordered_mono; [|apply IH; [by eapply all_deps_mono|exact Ho]]. split; [done|].
  intros k. rewrite !contains_store. tauto.
Qed.

(** Messages that wait are passed over. *)
Lemma resolve_queue_skip budget r pre queue stagnant :
  Forall (fun m => all_deps_resolved r m = false) pre -> (stagnant + length pre <= 100)%nat ->
  resolve_queue (length pre + budget) r (pre ++ queue) (length (pre ++ queue)) stagnant =
    resolve_queue budget r (queue ++ pre) (length (queue ++ pre)) (stagnant + length pre).
Proof.
  intros Hpre. revert queue stagnant. induction Hpre as [|m pre Hm _ IH]; intros queue stagnant Hs.
  - by rewrite app_nil_r, Nat.add_0_r.
  - cbn [length app Nat.add] in *. rewrite resolve_queue_stuck by (done || lia).
    rewrite <- app_assoc.
    replace (S (length (pre ++ queue)))%nat with (length (pre ++ queue ++ [m])) by (rewrite !length_app; cbn; lia).
    rewrite IH by lia. rewrite <- app_assoc. cbn [app].
    replace (stagnant + S (length pre))%nat with (S stagnant + length pre)%nat by lia. done.
Qed.

Lemma first_resolvable r ms m :
  m ∈ ms -> all_deps_resolved r m = true ->
  exists pre x post, ms = (pre ++ x :: post)%list /\ all_deps_resolved r x = true /\
    Forall (fun m => all_deps_resolved r m = false) pre.
Proof.
  intros Hm Hd. induction ms as [|y ms IH]; [by apply elem_of_nil in Hm|].
  apply elem_of_cons in Hm as [<-|Hm].
  - exists [], m, ms. by repeat split.
  - destruct (all_deps_resolved r y) eqn:Hy; [by exists [], y, ms|].
    destruct (IH Hm) as (pre & x & post & -> & Hx & Hpre). exists (y :: pre), x, post. repeat split; [done|].
    by constructor.
Qed.

Lemma resolve_queue_complete n budget r queue order :
  length queue = n -> (n <= 101)%nat -> (n * (n + 1) <= 2 * budget)%nat ->
  queue_ok r queue -> queue ≡ₚ order -> ordered r order ->
  exists r', resolve_queue budget r queue n 0 = Ok r'.
Proof.
  revert budget r queue order. induction n as [|n IH]; intros budget r queue order Hl Hn Hb Hq Hp Ho.
  { apply nil_length_inv in Hl as ->. exists r. by destruct budget. }
  destruct order as [|m order]; [by rewrite Hp in Hl|]. destruct Ho as [Hm Ho].
  destruct (first_resolvable r queue m) as (pre & x & post & -> & Hx & Hpre); [rewrite Hp; by left|done|].
  destruct (resolve_message_ok r x) as (rm & Hrm & Hpx); [apply Hq|].
  assert (x ∈ m :: order) as (a & b & Hab)%list_elem_of_split by (rewrite <- Hp; set_solver).
  rewrite length_app in Hl. cbn [length] in Hl.
  assert (length pre + 1 <= n + 1)%nat as Hpn by lia.
  replace budget with (length pre + S (budget - length pre - 1))%nat by lia.
  replace (S n) with (length (pre ++ x :: post)) by (rewrite length_app; cbn; lia).
  rewrite resolve_queue_skip by (done || lia). cbn [app].
  rewrite (resolve_queue_resolved _ r x rm) by done.
  assert (post ++ pre ≡ₚ a ++ b) as Hpost.
  { apply (Permutation_cons_inv (a := x)). rewrite (Permutation_middle a b x), <- Hab, <- Hp.
    by rewrite <- Permutation_middle, Permutation_app_comm. }
  assert (length (post ++ pre) = n) as Hlen by (rewrite length_app; lia). rewrite Hlen.
  eapply (IH _ _ _ (a ++ b)%list); [done|lia|lia| |done|].
  - apply queue_ok_store; [done|]. eapply queue_ok_perm; [|exact Hq].
    by rewrite <- Permutation_middle, Permutation_app_comm.
  - eapply ordered_mono; [|apply (ordered_remove r a x b Hx)].
    + split; [done|]. intros k. unfold contains_key. cbn [store store_description set_descriptions type_descriptions].
      by rewrite Hpx.
    + by rewrite <- Hab.
Qed.

End Props.

(** *** The dependencies of a service *)

Section Nested.
Variable descriptions : Deps.

(** The nested types of a list of fields that are known are in [c]. *)
Definition closed_fields (fs : list FieldDescription) (c : Deps) : Prop :=
  Forall (fun f => nested_type_name (fd_type f) <> "" ->
    is_Some (descriptions !! nested_key (nested_type_name (fd_type f))) ->
    is_Some (c !! nested_type_name (fd_type f))) fs.
(** The descriptions found for the fields are of the types they name. *)
Definition names_found (fs : list FieldDescription) : Prop :=
  Forall (fun f => nested_type_name (fd_type f) <> "" -> forall d,
    descriptions !! nested_key (nested_type_name (fd_type f)) = Some d ->
    td_name d = nested_type_name (fd_type f)) fs.
Definition keyed : Prop := forall k td, descriptions !! k = Some td -> names_found (td_fields td).
(** What a visit adds. *)
Definition grown (c c' : Deps) : Prop :=
  c ⊆ c' /\
  forall name d, c' !! name = Some d ->
    c !! name = Some d \/ (exists k, descriptions !! k = Some d) /\ closed_fields (td_fields d) c'.

Lemma closed_fields_mono fs c c' : c ⊆ c' -> closed_fields fs c -> closed_fields fs c'.
Proof.
  intros Hc Hfs. eapply Forall_impl; [exact Hfs|]. intros f Hf Hn Hs. destruct (Hf Hn Hs) as [d Hd]. exists d.
  by eapply lookup_weaken.
Qed.

Lemma grown_refl c : grown c c.
Proof. split; [done|]. by left. Qed.

Lemma grown_trans a b c : grown a b -> grown b c -> grown a c.
Proof.
  intros [Hab Ha] [Hbc Hb]. split; [by etrans|]. intros name d H.
  apply Hb in H as [H|H]; [|by right]. apply Ha in H as [H|[H1 H2]]; [by left|right].
  split; [done|]. by eapply closed_fields_mono.
Qed.

Definition missing (c : Deps) : nat :=
  size (filter (fun kd : string * TypeDescription => c !! td_name kd.2 = None) descriptions).

Lemma missing_mono c c' : c ⊆ c' -> (missing c' <= missing c)%nat.
Proof.
  intros Hc. apply map_subseteq_size. apply map_filter_subseteq_ext. intros k d _. cbn.
  intros H. by eapply lookup_weaken_None.
Qed.

Lemma missing_insert c k d :
  descriptions !! k = Some d -> c !! td_name d = None -> (missing (<[td_name d := d]> c) < missing c)%nat.
Proof.
  intros Hk Hc. apply map_subset_size. split.
  - apply map_filter_subseteq_ext. intros k' d' _. cbn. intros H.
    destruct (decide (td_name d = td_name d')) as [E|E].
    + rewrite E, lookup_insert_eq in H. done.
    + by rewrite lookup_insert_ne in H.
  - intros H. assert (filter (fun kd : string * TypeDescription => c !! td_name kd.2 = None) descriptions !! k = Some d) as Hf
      by (by apply map_lookup_filter_Some).
    eapply lookup_weaken in Hf; [|exact H]. apply map_lookup_filter_Some in Hf as [_ Hf]. cbn in Hf.
    by rewrite lookup_insert_eq in Hf.
Qed.

Lemma collect_deps_spec fuel td c :
  keyed -> names_found (td_fields td) -> (missing c < fuel)%nat ->
  exists c', collect_nested_deps fuel descriptions td c = Ok c' /\ grown c c' /\
    closed_fields (td_fields td) c'.
Proof.
  intros Hkeyed. revert td c. induction fuel as [|fuel IH]; intros td c Hn Hf; [lia|].
  cbn [collect_nested_deps]. revert c Hf. induction Hn as [|f fs Hn _ IHfs]; intros c Hf.
  { exists c. split; [done|]. split; [apply grown_refl | constructor]. }
  cbn [for_each]. destruct (String.eqb_spec (nested_type_name (fd_type f)) "") as [He|He].
  { cbn [mbind res_bind]. destruct (IHfs c Hf) as (c' & -> & Hg & Hc). exists c'.
    split; [done|]. split; [done|]. constructor; [by intros ?|done]. }
  destruct (decide _) as [Hin|Hin].
  { cbn [mbind res_bind]. destruct (IHfs c Hf) as (c' & -> & Hg & Hc). exists c'. split; [done|]. split; [done|].
    constructor; [|done]. intros _ _. destruct Hin as [d Hd]. exists d. eapply lookup_weaken; [done|apply Hg]. }
  destruct (descriptions !! nested_key (nested_type_name (fd_type f))) as [d|] eqn:Hd.
  - specialize (Hn He d eq_refl). apply eq_None_not_Some in Hin. rewrite <- Hn in Hin.
    pose proof (missing_insert c _ d Hd Hin) as Hm.
    destruct (IH d (<[td_name d := d]> c)) as (c1 & -> & Hg1 & Hc1); [by eapply Hkeyed|lia|].
    cbn [mbind res_bind].
    assert (c ⊆ <[td_name d := d]> c) as Hins by (by apply insert_subseteq).
    destruct (IHfs c1) as (c2 & -> & Hg2 & Hc2).
    { pose proof (missing_mono _ _ (proj1 Hg1)). lia. }
    exists c2. split; [done|]. split.
    + eapply grown_trans; [|exact Hg2]. split; [etrans; [exact Hins | apply Hg1]|].
      intros name e H. apply Hg1 in H as [H|H]; [|by right].
      apply lookup_insert_Some in H as [[<- <-]|[_ H]]; [right|by left]. split; [by eexists|done].
    + constructor; [|done]. intros _ _. rewrite <- Hn. exists d. eapply lookup_weaken; [|apply Hg2].
      eapply lookup_weaken; [|apply Hg1]. apply lookup_insert_eq.
  - cbn [mbind res_bind]. destruct (IHfs c Hf) as (c' & -> & Hg & Hc). exists c'. split; [done|]. split; [done|].
    constructor; [|done]. intros _ [? ?]. congruence.
Qed.
End Nested.

(** *** The keys of the resolver's descriptions *)

Lemma replace_plain_front q rep a s :
  plain a ->
  RustStr.replace (String "/" q) rep (a ++ s) = a ++ RustStr.replace (String "/" q) rep s.
Proof.
  induction a as [|c a IH]; intros Ha; [done|]. unfold plain in Ha. cbn [contains_char] in Ha.
  apply orb_false_iff in Ha as [Hc Ha]. rewrite !app_cons_str. unfold RustStr.replace in *.
  cbn [replace_go]. rewrite prefix_head; [by rewrite IH|]. intros E. by rewrite E, Ascii.eqb_refl in Hc.
Qed.

Lemma replace_here q rep s :
  RustStr.replace (String "/" q) rep (String "/" q ++ s) = rep ++ RustStr.replace (String "/" q) rep s.
Proof.
  unfold RustStr.replace. rewrite app_cons_str. cbn [replace_go].
  replace (String.prefix (String "/" q) (String "/" (q ++ s))) with true
    by (symmetry; apply prefix_iff; by exists s).
  cbn [String.length]. by rewrite Nat.sub_succ, Nat.sub_0_r, replace_go_skip.
Qed.

Lemma nested_key_msg p n : plain p -> plain n -> nested_key (p ++ "/msg/" ++ n) = p ++ "/" ++ n.
Proof.
  intros Hp Hn. unfold nested_key.
  replace (str_contains "/msg/" (p ++ "/msg/" ++ n)) with true
    by (symmetry; apply str_contains_iff; by exists p, n).
  change "/msg/" with (String "/" "msg/"). rewrite replace_plain_front, replace_here by done. do 2 f_equal.
  rewrite <- (app_nil_r_str n) at 1. rewrite replace_plain_front by done. cbn. by rewrite app_nil_r_str.
Qed.

Lemma middle_part x a b c :
  plain a -> plain b -> plain c -> plain x ->
  str_contains ("/" ++ x ++ "/") (a ++ "/" ++ b ++ "/" ++ c) = true -> x = b.
Proof.
  intros Ha Hb Hc Hx (u & v & E)%str_contains_iff. apply (f_equal (split_on "/")) in E.
  change (a ++ "/" ++ b ++ "/" ++ c) with (a ++ String "/" (b ++ String "/" c)) in E.
  replace (u ++ ("/" ++ x ++ "/") ++ v) with (u ++ String "/" (x ++ String "/" v)) in E
    by (by rewrite !app_assoc_str).
  rewrite !split_on_app_sep, !(split_plain _ Ha), !(split_plain _ Hb), !(split_plain _ Hc), (split_plain _ Hx) in E.
  pose proof (split_on_nonempty "/" u). pose proof (split_on_nonempty "/" v).
  destruct (split_on "/" u) as [|u1 [|u2 us]], (split_on "/" v) as [|v1 [|v2 vs]]; try done; cbn in E; try congruence.
  all: apply (f_equal (@length string)) in E; rewrite ?length_app in E; cbn in E; rewrite ?length_app in E; cbn in E; lia.
Qed.

(** Every description is that of a message, under the message's key. *)
Definition described (r : Resolver) : Prop :=
  forall k td, type_descriptions r !! k = Some td ->
    exists m, plain_message m /\ k = message_key m /\ td = type_description m.

Lemma interface_name_cases p n :
  plain n ->
  interface_name p n = p ++ "/msg/" ++ n \/ exists b, plain b /\ interface_name p n = p ++ "/action/" ++ b.
Proof.
  intros Hn. assert (forall t b, plain t -> strip_suffix t n = Some b -> plain (b ++ "_" ++ t)) as Hs.
  { intros t b Ht ->%strip_suffix_Some. apply plain_app in Hn as [Hb _]. by rewrite !plain_app. }
  unfold interface_name. destruct (strip_suffix "Goal" n) as [b|] eqn:E1.
  { right. exists (b ++ "_Goal"). split; [by apply (Hs "Goal")|done]. }
  destruct (strip_suffix "Result" n) as [b|] eqn:E2.
  { right. exists (b ++ "_Result"). split; [by apply (Hs "Result")|done]. }
  destruct (strip_suffix "Feedback" n) as [b|] eqn:E3; [|by left].
  right. exists (b ++ "_Feedback"). split; [by apply (Hs "Feedback")|done].
Qed.

Lemma described_names_found r m :
  described r -> plain_message m -> names_found (type_descriptions r) (td_fields (type_description m)).
Proof.
  intros Hr (Hp & _ & _ & Hf). unfold type_description. cbn [td_fields].
  destruct (pm_fields m) as [|f fs]; [repeat constructor; done|]. apply Forall_map.
  eapply Forall_impl; [exact Hf|]. intros g [Hb Hk]. cbn [described_field fd_type nested_type_name].
  destruct (is_primitive_type _); [done|]. intros _ d Hd.
  assert (plain (default (pm_package m) (ft_package (pf_type g)))) as Hq by (by destruct (ft_package (pf_type g))).
  revert Hd. generalize (default (pm_package m) (ft_package (pf_type g))) Hq. intros q Hq' Hd.
  apply Hr in Hd as (m' & (Hp' & Hn' & _) & Hkey & ->). cbn [type_description td_name].
  destruct (interface_name_cases q (base_type (pf_type g)) Hb) as [E|(b & Hb' & E)]; rewrite E in Hkey.
  - rewrite nested_key_msg in Hkey by done. unfold message_key in Hkey. apply key_inj in Hkey as [<- <-]; done.
  - exfalso. assert (nested_key (q ++ "/action/" ++ b) = q ++ "/action/" ++ b) as Hkk.
    { unfold nested_key.
      destruct (str_contains "/msg/" (q ++ "/action/" ++ b)) eqn:E1;
        [by apply (middle_part "msg" q "action" b) in E1|].
      destruct (str_contains "/srv/" (q ++ "/action/" ++ b)) eqn:E2;
        [by apply (middle_part "srv" q "action" b) in E2|done]. }
    rewrite Hkk in Hkey. apply (f_equal (fun s => length (split_on "/" s))) in Hkey.
    unfold message_key in Hkey. rewrite key_parts in Hkey by done.
    change (q ++ "/action/" ++ b) with (q ++ String "/" ("action" ++ String "/" b)) in Hkey.
    by rewrite !split_on_app_sep, !split_plain in Hkey by done.
Qed.

Lemma described_store r m : plain_message m -> described r -> described (store_description r m).
Proof.
  intros Hm Hr k td. cbn [store_description set_descriptions type_descriptions].
  intros [[<- <-]|[_ H]]%lookup_insert_Some; [by exists m | by apply Hr].
Qed.

Section Runs.
Context {HA : HashApi} {HL : HashLaws}.

Lemma described_run r r' ms : queue_ok r ms -> described r -> run_ok r r' ms -> described r'.
Proof.
  intros (_ & _ & Hf) Hr (_ & _ & _ & Ha & Hms) k td Hk.
  destruct (decide (k ∈ map message_key ms)) as [(m & -> & Hm)%list_elem_of_fmap|Hn].
  - destruct (Hms m Hm) as (_ & E & _). rewrite E in Hk. injection Hk as <-. exists m. split; [|done].
    by apply (proj1 (list.Forall_forall _ _) Hf).
  - apply Hr. by rewrite <- (proj1 (Ha k Hn)).
Qed.

Lemma resolve_messages_run r ms r' out :
  queue_ok r ms -> resolve_messages r ms = Ok (r', out) ->
  run_ok r r' ms /\ out = map snd (map_to_list (resolved_messages r')).
Proof.
  intros Hq. unfold resolve_messages. pose proof (resolve_queue_sound MAX_ITERATIONS r ms 0) as Hs. revert Hs.
  generalize (resolve_queue MAX_ITERATIONS r ms (length ms) 0) as run. intros run Hs H.
  destruct run as [r1|e|]; [|discriminate H..]. injection H as <- <-. split; [by apply Hs|done].
Qed.

(** ** Properties *)

(** C22 Dependency resolution succeeds where it can: at most 101 messages that can
    be resolved in some order are all resolved, whatever the order of the queue;
    in the result every message has its dependencies, and is resolved as the
    final resolver would resolve it. *)
Theorem solvable_messages_resolved r ms order :
  queue_ok r ms -> ms ≡ₚ order -> ordered r order -> (length ms <= 101)%nat ->
  exists r' out, resolve_messages r ms = Ok (r', out) /\
    forall m, m ∈ ms -> all_deps_resolved r' m = true /\ exists rm, rm ∈ out /\ resolve_message r' m = Ok rm.
Proof.
  intros Hq Hp Ho Hl.
  destruct (resolve_queue_complete (length ms) MAX_ITERATIONS r ms order) as [r' E]; try done.
  { etrans; [apply (Nat.mul_le_mono _ 101 _ 102); lia|]. pose proof max_iterations. lia. }
  exists r', (map snd (map_to_list (resolved_messages r'))).
  split; [unfold resolve_messages; by rewrite E|]. intros m Hm. destruct (resolve_queue_sound _ _ _ _ _ Hq E) as (_ & _ & _ & _ & Hms).
  destruct (Hms m Hm) as (Hd & _ & rm & Hrm & Hr). split; [done|]. exists rm. split; [|done].
  apply list_elem_of_fmap. exists (message_key m, rm). split; [done|]. by apply elem_of_map_to_list.
Qed.

(** The result does not depend on the order of the queue: two orders of the same
    messages that both succeed end with the same type descriptions, and with the
    same hash for every message. *)
Theorem resolution_order_irrelevant r ms ms' r1 r2 out1 out2 :
  queue_ok r ms -> ms ≡ₚ ms' ->
  resolve_messages r ms = Ok (r1, out1) -> resolve_messages r ms' = Ok (r2, out2) ->
  type_descriptions r1 = type_descriptions r2 /\
  forall m, m ∈ ms -> exists h d1 d2,
    resolved_messages r1 !! message_key m = Some (mkResolved m h d1) /\
    resolved_messages r2 !! message_key m = Some (mkResolved m h d2).
Proof.
  intros Hq Hp H1 H2. apply resolve_messages_run in H1 as [(_ & _ & _ & Ha1 & Hm1) _]; [|done].
  apply resolve_messages_run in H2 as [H2 _]; [|by eapply queue_ok_perm].
  apply (run_ok_perm _ _ _ ms) in H2 as (_ & _ & _ & Ha2 & Hm2); [|done].
  assert (type_descriptions r1 = type_descriptions r2) as Htd.
  { apply map_eq. intros k. destruct (decide (k ∈ map message_key ms)) as [(m & -> & Hm)%list_elem_of_fmap|Hn].
    - destruct (Hm1 m Hm) as (_ & -> & _). by destruct (Hm2 m Hm) as (_ & -> & _).
    - rewrite (proj1 (Ha1 k Hn)). symmetry. apply (Ha2 k Hn). }
  split; [done|]. intros m Hm. destruct (Hm1 m Hm) as (_ & _ & rm1 & -> & E1).
  destruct (Hm2 m Hm) as (_ & _ & rm2 & -> & E2). unfold resolve_message in E1, E2. rewrite Htd in E1.
  res_inv. by do 3 eexists.
Qed.

(** C33 Resolution gives up after 101 messages in a row whose dependencies are
    unknown, whatever follows them in the queue: the error carries the 101
    iterations and the whole queue. *)
Theorem resolution_stalls r pre rest :
  Forall (fun m => all_deps_resolved r m = false) pre -> length pre = 101%nat ->
  exists stuck, resolve_messages r (pre ++ rest) = Err (Stalled 101 (length (pre ++ rest)) stuck).
Proof.
  intros Hpre Hl. destruct (@exists_last _ pre) as (pre0 & m & ->); [by intros ->|].
  rewrite length_app in Hl. cbn in Hl. apply Forall_app in Hpre as [Hpre [Hm _]%Forall_cons].
  unfold resolve_messages.
  assert (MAX_ITERATIONS = length pre0 + S (MAX_ITERATIONS - 101))%nat as Hb by (pose proof max_iterations; lia).
  rewrite Hb, <- app_assoc. cbn [app]. rewrite resolve_queue_skip by (done || lia). cbn [app].
  replace (0 + length pre0)%nat with 100%nat by lia. rewrite resolve_queue_stalls by done.
  replace (MAX_ITERATIONS - (MAX_ITERATIONS - 101))%nat with 101%nat by (pose proof max_iterations; lia).
  replace (length (m :: rest ++ pre0)) with (length (pre0 ++ m :: rest))
    by (rewrite length_app; cbn; rewrite length_app; lia).
  by eexists.
Qed.
End Runs.

(** C32 The dependencies that go into the hash of a service are complete: collecting
    them terminates, keeps what was there, and adds known descriptions only,
    each with all the known types that its fields name. *)
Theorem service_dependencies_closed r m c :
  described r -> plain_message m ->
  exists c', nested_deps (type_descriptions r) (type_description m) c = Ok c' /\ c ⊆ c' /\
    closed_fields (type_descriptions r) (td_fields (type_description m)) c' /\
    forall name d, c' !! name = Some d ->
      c !! name = Some d \/
      (exists k, type_descriptions r !! k = Some d) /\ closed_fields (type_descriptions r) (td_fields d) c'.
Proof.
  intros Hr Hm. destruct (collect_deps_spec (type_descriptions r) (S (size (type_descriptions r))) (type_description m) c)
    as (c' & E & [Hs Hg] & Hc).
  - intros k td Hk. destruct (Hr k td Hk) as (m' & Hm' & _ & ->). by apply described_names_found.
  - by apply described_names_found.
  - apply Nat.lt_succ_r. apply map_subseteq_size, map_filter_subseteq.
  - by exists c'.
Qed.

(** ** Examples *)

Definition ex_B : ParsedMessage := ex_message "p" "B" [ex_field "int32" None "x"].
Definition ex_A (name : string) : ParsedMessage := ex_message "p" name [ex_field "B" (Some "p") "b"].
Definition ex_new : Resolver := resolver_new false.

Lemma ex_plain : plain_message ex_B /\ plain_message (ex_A "A").
Proof. split; (split_and!; [done..|]); by repeat constructor. Qed.

Lemma ex_new_lookup k : type_descriptions ex_new !! k = None.
Proof. apply lookup_empty. Qed.

Lemma ex_described : described ex_new.
Proof. intros k td H. by rewrite ex_new_lookup in H. Qed.

Lemma ex_queue_ok : queue_ok ex_new [ex_A "A"; ex_B].
Proof.
  split; [split; intros k td H; by rewrite ex_new_lookup in H|]. split.
  - cbn. repeat constructor; set_solver.
  - repeat constructor; try done; by repeat constructor.
Qed.

Lemma solvable_messages_resolved_witness :
  let HA := ex_hash in
  exists r' out, resolve_messages ex_new [ex_A "A"; ex_B] = Ok (r', out) /\
    forall m, m ∈ [ex_A "A"; ex_B] ->
      all_deps_resolved r' m = true /\ exists rm, rm ∈ out /\ resolve_message r' m = Ok rm.
Proof.
  apply (@solvable_messages_resolved ex_hash ex_hash_laws ex_new [ex_A "A"; ex_B] [ex_B; ex_A "A"]).
  - apply ex_queue_ok.
  - apply Permutation_swap.
  - by repeat split.
  - cbn. lia.
Defined.

Lemma ex_resolves ms :
  ms ≡ₚ [ex_A "A"; ex_B] -> exists r' out, @resolve_messages ex_hash ex_new ms = Ok (r', out).
Proof.
  intros Hp. destruct (@resolve_queue_complete ex_hash ex_hash_laws (length ms) MAX_ITERATIONS ex_new ms [ex_B; ex_A "A"])
    as [r' E]; try done.
  - rewrite Hp. cbn. lia.
  - rewrite Hp. pose proof max_iterations. cbn [length]. lia.
  - eapply queue_ok_perm; [symmetry; exact Hp | apply ex_queue_ok].
  - rewrite Hp. apply Permutation_swap.
  - exists r', (map snd (map_to_list (resolved_messages r'))). unfold resolve_messages. by rewrite E.
Qed.

Lemma resolution_order_irrelevant_witness :
  let HA := ex_hash in
  exists r1 r2 out1 out2,
    resolve_messages ex_new [ex_A "A"; ex_B] = Ok (r1, out1) /\
    resolve_messages ex_new [ex_B; ex_A "A"] = Ok (r2, out2) /\
    type_descriptions r1 = type_descriptions r2 /\
    forall m, m ∈ [ex_A "A"; ex_B] -> exists h d1 d2,
      resolved_messages r1 !! message_key m = Some (mkResolved m h d1) /\
      resolved_messages r2 !! message_key m = Some (mkResolved m h d2).
Proof.
  destruct (ex_resolves [ex_A "A"; ex_B]) as (r1 & out1 & H1); [done|].
  destruct (ex_resolves [ex_B; ex_A "A"]) as (r2 & out2 & H2); [apply Permutation_swap|].
  exists r1, r2, out1, out2. split; [exact H1|]. split; [exact H2|].
  apply (@resolution_order_irrelevant ex_hash ex_hash_laws ex_new [ex_A "A"; ex_B] [ex_B; ex_A "A"] r1 r2 out1 out2
    ex_queue_ok (Permutation_swap _ _ _) H1 H2).
Defined.

(** 101 messages that wait for the last one: they could all be resolved. *)
Definition ex_waiting : list ParsedMessage := map (fun i => ex_A ("A" ++ Z_dec (Z.of_nat i))) (seq 0 101).

Lemma resolution_stalls_witness :
  let HA := ex_hash in
  exists stuck, resolve_messages ex_new (ex_waiting ++ [ex_B]) = Err (Stalled 101 102 stuck).
Proof.
  apply (@resolution_stalls ex_hash ex_new ex_waiting [ex_B]); [|reflexivity].
  apply list.Forall_forall. intros m (i & -> & _)%list_elem_of_fmap. reflexivity.
Defined.

Lemma ordered_waiting r names :
  contains_key r "p/B" = true -> ordered r (map ex_A names).
Proof.
  revert r. induction names as [|n names IH]; intros r Hr; [done|]. split.
  - unfold all_deps_resolved. cbn. change ("p" ++ "/" ++ "B") with "p/B". by rewrite Hr, orb_true_r.
  - apply IH. apply contains_store. by right.
Qed.

Lemma waiting_is_solvable : ordered ex_new (ex_B :: ex_waiting).
Proof.
  split; [done|]. unfold ex_waiting. rewrite <- (map_map (fun i => "A" ++ Z_dec (Z.of_nat i)) ex_A).
  by apply ordered_waiting.
Qed.

Lemma service_dependencies_closed_witness :
  let r := store_description (store_description ex_new ex_B) (ex_A "A") in
  let m := ex_message "q" "C" [ex_field "A" (Some "p") "a"] in
  exists c', nested_deps (type_descriptions r) (type_description m) ∅ = Ok c' /\ ∅ ⊆ c' /\
    closed_fields (type_descriptions r) (td_fields (type_description m)) c' /\
    forall name d, c' !! name = Some d ->
      (∅ : gmap string TypeDescription) !! name = Some d \/
      (exists k, type_descriptions r !! k = Some d) /\ closed_fields (type_descriptions r) (td_fields d) c'.
Proof.
  apply (service_dependencies_closed (store_description (store_description ex_new ex_B) (ex_A "A"))
    (ex_message "q" "C" [ex_field "A" (Some "p") "a"]) ∅).
  - do 2 (apply described_store; [apply ex_plain|]). apply ex_described.
  - split_and!; [done..|]. by repeat constructor.
Defined.

(** A message whose own name ends in Goal is described as a part of an action, but
    the hash of a message that has it as a field names it as a message: the
    hashed description refers to a type that is not among its references. *)
Lemma goal_message_dangling :
  let goal := ex_message "p" "NavGoal" [ex_field "int32" None "x"] in
  let user := ex_message "p" "User" [ex_field "NavGoal" (Some "p") "g"] in
  let deps := <[message_key goal := type_description goal]> ∅ in
  build_type_description_msg user deps =
    Ok (mkTDM (mkTD "p/msg/User" [mkFD "g" (ftd_nested 1 "p/msg/NavGoal") ""])
          [mkTD "p/action/Nav_Goal" [mkFD "x" (ftd_primitive 6) ""]]).
Proof. by vm_compute. Qed.

(** Without the description of ServiceEventInfo, which external packages keep
    away, every action fails to resolve, unless for Humble; a service gets the
    zero hash. *)
Lemma action_needs_event_info {HA : HashApi} {HL : HashLaws} r a :
  resolver_ok r -> is_humble r = false ->
  let r' := store_optional (store_optional (store_description r (pa_goal a)) (pa_result a)) (pa_feedback a) in
  type_descriptions r' !! "service_msgs/ServiceEventInfo" = None ->
  resolve_action r a = Err (Bail event_info_missing).
Proof.
  intros Hr Hh r' Hn. unfold resolve_action.
  assert (forall o, exists o', resolve_optional r o = Ok o') as Ho.
  { intros [m|]; [|by eexists]. cbn. destruct (resolve_message_ok r m Hr) as (rm & -> & _). by eexists. }
  destruct (resolve_message_ok r (pa_goal a) Hr) as (g & -> & _). destruct (Ho (pa_result a)) as [res ->].
  destruct (Ho (pa_feedback a)) as [fb ->]. cbn [mbind res_bind]. fold r'.
  assert (is_humble r' = false) as Hh' by (unfold r'; by destruct (pa_result a), (pa_feedback a)).
  unfold calculate_send_goal_hash, event_info. by rewrite Hh', Hn.
Qed.

Lemma external_service_zero {HA : HashApi} {HL : HashLaws} r srv :
  resolver_ok r -> external_packages r <> ∅ ->
  exists r' rs, resolve_service r srv = Ok (r', rs) /\ rs_type_hash rs = schema_hash_zero.
Proof.
  intros Hr Hx. unfold resolve_service. destruct (resolve_message_ok r (ps_request srv) Hr) as (q & -> & _).
  destruct (resolve_message_ok r (ps_response srv) Hr) as (p & -> & _). cbn [mbind res_bind].
  rewrite (bool_decide_eq_false_2 (external_packages _ = ∅)) by done. rewrite orb_true_r.
  by do 2 eexists.
Qed.
