(* ===== verification/RustGen.v ===== *)
(** * The generator of Rust types (crates/ros-z-codegen/src/generator/rust.rs,
    crates/ros-z-msgs/src/size_estimation.rs)

    What the generator emits for a message, a service and an action: the structs
    with their field types, attributes and constants, the type information, and the
    estimate of the serialized size.  A token stream is the construct that is quoted,
    a constructor or a record with what is interpolated; [estimate] is what the
    generated estimate computes on a value, [value_of] which calls of serde the derived
    [Serialize] of a generated type makes. *)
From S2P Require Import Prelude Utf8 RustStr CdrPrimitives CdrSerializer CdrDeserializer SchemaModel MsgParser SrvActionParser Resolver.
Open Scope string_scope.

(** ** Definitions *)

(** What proc_macro2 accepts as an identifier and as a raw one, and syn as a
    literal. *)
Class SynApi := {
  ident_ok : string -> bool;
  raw_ident_ok : string -> bool;
  lit_int_ok : string -> bool;
  lit_float_ok : string -> bool;
}.
Class SynLaws `{SynApi} := {
  ident_no_bound : forall s, ident_ok s = true -> contains_char "<" s = false;
}.

(** *** What is generated *)

Inductive Prim := PBool | PU8 | PI8 | PU16 | PI16 | PU32 | PI32 | PU64 | PI64 | PF32 | PF64.
(** A type: [RSuper] is [super::package::Name], [RExternal] is
    [::krate::ros::package::Name], [RStr] is [&'static str]. *)
Inductive RustType :=
| RPrim (p : Prim)
| RString
| RStr
| RZBuf
| RSuper (package name : string)
| RExternal (krate package name : string)
| RArray (elem : RustType) (n : Z)
| RVec (elem : RustType).

Inductive ConstValue := CvBool (b : bool) | CvInt (lit : string) | CvFloat (lit : string) | CvStr (s : string).
Record ConstDef := mkConstDef { cd_name : string; cd_type : RustType; cd_value : ConstValue }.
(** [fd_big_array]: the attributes of arrays beyond what serde and [Default]
    support, with the code of the default; [fd_zbuf]: the attribute of the Python
    bridge. *)
Record FieldDef := mkFieldDef {
  fd_big_array : option string;
  fd_zbuf : bool;
  fd_name : string;
  fd_type : RustType;
}.
Record StructDef := mkStruct {
  sd_smart_default : bool;
  sd_py_module_path : string;
  sd_name : string;
  sd_fields : list FieldDef;
  sd_consts : list ConstDef;
}.
(** [impl MessageTypeInfo]: the type name, and the hash string that the generated
    code parses and expects to be valid. *)
Record TypeInfoImpl := mkTypeInfoImpl { ti_for : string; ti_type_name : string; ti_hash_str : string }.

(** The statements of [estimated_cdr_size]: [SzStrings] and [SzItems] are loops over
    a field, with [size += 4] before them when they are counted. *)
Inductive SizeStmt :=
| SzAdd (n : Z)
| SzLen (field : string)
| SzLenTimes (field : string) (n : Z)
| SzStrings (counted : bool) (field : string)
| SzNested (field : string)
| SzItems (counted : bool) (field : string).
Record MessageImpl := mkMessageImpl { mi_struct : StructDef; mi_type_info : TypeInfoImpl; mi_size : list SizeStmt }.

Record ServiceImpl := mkServiceImpl {
  si_name : string; si_request : string; si_response : string; si_type_info : string * string;
}.
Record ActionImpl := mkActionImpl {
  ai_name : string; ai_goal : string; ai_result : string; ai_feedback : string;
  ai_type_name : string;
  ai_send_goal : string * string;
  ai_get_result : string * string;
  ai_cancel_goal : string * string;
  ai_feedback_info : string * string;
  ai_status : string * string;
  ai_type_info : string * string;
}.

(** *** The generator *)

Record GenerationContext := mkContext { external_crate : option string; local_packages : list string }.
Definition GenerationContext_default : GenerationContext := mkContext None [].
Definition is_local_package (ctx : GenerationContext) (package : string) : bool :=
  match local_packages ctx with [] => true | l => existsb (String.eqb package) l end.

Definition is_rust_keyword (name : string) : bool :=
  existsb (String.eqb name)
    ["as"; "break"; "const"; "continue"; "crate"; "else"; "enum"; "extern"; "false"; "fn"; "for"; "if"; "impl"; "in";
     "let"; "loop"; "match"; "mod"; "move"; "mut"; "pub"; "ref"; "return"; "self"; "Self"; "static"; "struct"; "super";
     "trait"; "true"; "type"; "unsafe"; "use"; "where"; "while"; "async"; "await"; "dyn"; "abstract"; "become"; "box";
     "do"; "final"; "macro"; "override"; "priv"; "typeof"; "unsized"; "virtual"; "yield"; "try"].

Definition is_one_of (s : string) (l : list string) : bool := existsb (String.eqb s) l.
Definition prim_of (base_type : string) : option Prim :=
  if String.eqb base_type "bool" then Some PBool
  else if is_one_of base_type ["byte"; "uint8"] then Some PU8
  else if is_one_of base_type ["char"; "int8"] then Some PI8
  else if String.eqb base_type "uint16" then Some PU16
  else if String.eqb base_type "int16" then Some PI16
  else if String.eqb base_type "uint32" then Some PU32
  else if String.eqb base_type "int32" then Some PI32
  else if String.eqb base_type "uint64" then Some PU64
  else if String.eqb base_type "int64" then Some PI64
  else if String.eqb base_type "float32" then Some PF32
  else if String.eqb base_type "float64" then Some PF64
  else None.
Definition generate_constant_type (const_type : string) : RustType :=
  match prim_of const_type with Some p => RPrim p | None => RStr end.

Definition is_byte (base_type : string) : bool := is_one_of base_type ["uint8"; "byte"].
(** [is_zbuf_field]. *)
Definition is_zbuf_field (field : PField) : bool :=
  is_byte (base_type (pf_type field)) && match array (pf_type field) with Unbounded => true | _ => false end.
Definition large_array (field : PField) : option Z :=
  match array (pf_type field) with Fixed n => if (32 <? n)%Z then Some n else None | _ => None end.

Definition integer_types : list string :=
  ["byte"; "uint8"; "char"; "int8"; "uint16"; "int16"; "uint32"; "int32"; "uint64"; "int64"].
Definition float_types : list string := ["float32"; "float64"].
(** [generate_array_default_code]. *)
Definition generate_array_default_code (field_type : PFieldType) (size : Z) : res string string :=
  elem_default ← (if String.eqb (base_type field_type) "bool" then Ok "false"
                  else if is_one_of (base_type field_type) integer_types then Ok "0"
                  else if is_one_of (base_type field_type) float_types then Ok "0.0"
                  else Err ("Cannot generate default for large array of type " ++ base_type field_type));
  Ok ("[" ++ elem_default ++ "; " ++ Z_dec size ++ "]").

Section Generator.
Context `{SynApi}.

(** [format_ident!]: a text that is no identifier panics. *)
Definition format_ident {E} (s : string) : res E string :=
  match strip_prefix "r#" s with
  | Some raw => if raw_ident_ok raw then Ok s else Panic
  | None => if ident_ok s then Ok s else Panic
  end.
Definition escape_field_name {E} (name : string) : res E string :=
  format_ident (if is_rust_keyword name then "r#" ++ name else name).

Definition generate_constant_value_from_string {E} (const_type value : string) : res E ConstValue :=
  if String.eqb const_type "bool" then Ok (CvBool (String.eqb value "true"))
  else if is_one_of const_type integer_types then if lit_int_ok value then Ok (CvInt value) else Panic
  else if is_one_of const_type float_types then if lit_float_ok value then Ok (CvFloat value) else Panic
  else Ok (CvStr value).

Definition generate_base_type_tokens_with_context {E} (field_type : PFieldType) (source_package : string)
    (ctx : GenerationContext) : res E RustType :=
  match prim_of (base_type field_type) with
  | Some p => Ok (RPrim p)
  | None =>
      if String.eqb (base_type field_type) "string" then Ok RString else
      let pkg := default source_package (ft_package field_type) in
      pkg_ident ← format_ident pkg;
      type_ident ← format_ident (base_type field_type);
      match external_crate ctx with
      | Some ext_crate =>
          if negb (is_local_package ctx pkg) then
            crate_ident ← format_ident ext_crate; Ok (RExternal crate_ident pkg_ident type_ident)
          else Ok (RSuper pkg_ident type_ident)
      | None => Ok (RSuper pkg_ident type_ident)
      end
  end.
Definition generate_field_type_tokens_with_context {E} (field_type : PFieldType) (source_package : string)
    (ctx : GenerationContext) : res E RustType :=
  base ← generate_base_type_tokens_with_context field_type source_package ctx;
  Ok (match array field_type with
      | Single => base
      | Fixed n => RArray base n
      | Unbounded => if is_byte (base_type field_type) then RZBuf else RVec base
      | Bounded _ => RVec base
      end).

Definition generate_field_def_with_context (field : PField) (source_package : string) (ctx : GenerationContext)
    : res string FieldDef :=
  name ← escape_field_name (pf_name field);
  field_type ← generate_field_type_tokens_with_context (pf_type field) source_package ctx;
  let is_zbuf := is_zbuf_field field in
  serde_attributes ← (match large_array field with
                      | Some n => Some <$> generate_array_default_code (pf_type field) n
                      | None => Ok None
                      end);
  Ok (mkFieldDef serde_attributes is_zbuf name field_type).

Definition generate_const_def (c : Constant) : res string ConstDef :=
  const_name ← format_ident (c_name c);
  const_value ← generate_constant_value_from_string (const_type c) (c_value c);
  Ok (mkConstDef const_name (generate_constant_type (const_type c)) const_value).
Definition generate_struct_with_context (package name : string) (fields : list PField) (constants : list Constant)
    (ctx : GenerationContext) : res string StructDef :=
  name_ident ← format_ident name;
  field_defs ← traverse (fun f => generate_field_def_with_context f package ctx) fields;
  let has_large_array := existsb (fun f => match large_array f with Some _ => true | None => false end) fields in
  const_defs ← traverse generate_const_def constants;
  Ok (mkStruct has_large_array ("ros_z_msgs_py.types." ++ package) name_ident field_defs const_defs).

(** [is_primitive_type] and [get_primitive_size]. *)
Definition primitive_size (base_type : string) : option Z :=
  if is_one_of base_type ["bool"; "byte"; "uint8"; "int8"; "char"] then Some 1%Z
  else if is_one_of base_type ["uint16"; "int16"; "wchar"] then Some 2%Z
  else if is_one_of base_type ["uint32"; "int32"; "float32"] then Some 4%Z
  else if is_one_of base_type ["uint64"; "int64"; "float64"] then Some 8%Z
  else None.
Definition generate_field_size_expr {E} (field : PField) : res E SizeStmt :=
  field_name ← escape_field_name (pf_name field);
  let ft := pf_type field in
  Ok (if is_zbuf_field field then SzLen field_name
      else if String.eqb (base_type ft) "string" then
        match array ft with
        | Single => SzLen field_name
        | Unbounded | Bounded _ => SzStrings true field_name
        | Fixed _ => SzStrings false field_name
        end
      else match primitive_size (base_type ft) with
      | Some elem_size =>
          match array ft with
          | Single => SzAdd elem_size
          | Unbounded | Bounded _ => if (elem_size =? 1)%Z then SzLen field_name else SzLenTimes field_name elem_size
          | Fixed n => SzAdd (wrap_u 64 (n * elem_size))
          end
      | None =>
          match array ft with
          | Single => SzNested field_name
          | Unbounded | Bounded _ => SzItems true field_name
          | Fixed _ => SzItems false field_name
          end
      end).

Context `{HX : HexApi}.
Definition generate_message_type_info {E} (package name : string) (type_hash : SchemaHash) : res E TypeInfoImpl :=
  name_ident ← format_ident name;
  Ok (mkTypeInfoImpl name_ident (package ++ "::msg::dds_::" ++ name ++ "_") (schema_to_rihs_string type_hash)).
Definition generate_message_impl_with_context (msg : ResolvedMessage) (ctx : GenerationContext) : res string MessageImpl :=
  let parsed := rm_parsed msg in
  _ ← format_ident (pm_name parsed);
  struct_def ← generate_struct_with_context (pm_package parsed) (pm_name parsed) (pm_fields parsed) (pm_constants parsed) ctx;
  type_info ← generate_message_type_info (pm_package parsed) (pm_name parsed) (rm_type_hash msg);
  size_estimation_impl ← traverse generate_field_size_expr (pm_fields parsed);
  Ok (mkMessageImpl struct_def type_info size_estimation_impl).
Definition generate_message_impl (msg : ResolvedMessage) : res string MessageImpl :=
  generate_message_impl_with_context msg GenerationContext_default.
(** [generate_package_module]: [pub mod package] with the messages. *)
Definition generate_package_module (package : string) (messages : list ResolvedMessage) : res string (string * list MessageImpl) :=
  package_ident ← format_ident package;
  message_impls ← traverse generate_message_impl messages;
  Ok (package_ident, message_impls).

Definition generate_service_impl {E} (srv : ResolvedService) : res E ServiceImpl :=
  let parsed := rs_parsed srv in
  name ← format_ident (ps_name parsed);
  request_type ← format_ident (ps_name parsed ++ "Request");
  response_type ← format_ident (ps_name parsed ++ "Response");
  Ok (mkServiceImpl name request_type response_type
        (ps_package parsed ++ "::srv::dds_::" ++ ps_name parsed ++ "_", schema_to_rihs_string (rs_type_hash srv))).
Definition generate_action_impl {E} (action : ResolvedAction) : res E ActionImpl :=
  let parsed := ra_parsed action in
  name ← format_ident (pa_name parsed);
  goal_type ← format_ident (pa_name parsed ++ "Goal");
  result_type ← format_ident (pa_name parsed ++ "Result");
  feedback_type ← format_ident (pa_name parsed ++ "Feedback");
  let dds (suffix : string) := pa_package parsed ++ "::action::dds_::" ++ pa_name parsed ++ suffix in
  Ok (mkActionImpl name goal_type result_type feedback_type (dds "_")
        (dds "_SendGoal_", schema_to_rihs_string (ra_send_goal_hash action))
        (dds "_GetResult_", schema_to_rihs_string (ra_get_result_hash action))
        ("action_msgs::srv::dds_::CancelGoal_", schema_to_rihs_string (ra_cancel_goal_hash action))
        (dds "_FeedbackMessage_", schema_to_rihs_string (ra_feedback_message_hash action))
        ("action_msgs::msg::dds_::GoalStatusArray_", schema_to_rihs_string (ra_status_hash action))
        (dds "_", schema_to_rihs_string (ra_type_hash action))).
End Generator.

(** *** The generated code *)

(** The crates that were generated: the message of a crate, package and name. *)
Definition Crates : Type := string -> string -> string -> option MessageImpl.

Section Generated.
Variable crates : Crates.

(** The message that a path stands for in the crate [c], and its crate. *)
Definition resolve_path (c : string) (t : RustType) : option (string * MessageImpl) :=
  match t with
  | RSuper package name => i ← crates c package name; Some (c, i)
  | RExternal krate package name => i ← crates krate package name; Some (krate, i)
  | _ => None
  end.

Definition prim_value (p : Prim) (v : sval) : Prop :=
  match p, v with
  | PBool, VBool _ => True
  | PU8, VU8 z => u_range 8 z | PI8, VI8 z => i_range 8 z
  | PU16, VU16 z => u_range 16 z | PI16, VI16 z => i_range 16 z
  | PU32, VU32 z => u_range 32 z | PI32, VI32 z => i_range 32 z
  | PU64, VU64 z => u_range 64 z | PI64, VI64 z => i_range 64 z
  | PF32, VF32 z => u_range 32 z | PF64, VF64 z => u_range 64 z
  | _, _ => False
  end.

(** The values of a type of the crate [c], as the calls that serde makes for them: an
    array is a tuple, of any length ([serde_big_array] where serde's own stops), a
    [ZBuf] is bytes. *)
Inductive value_of : string -> RustType -> sval -> Prop :=
| vo_prim c p v : prim_value p v -> value_of c (RPrim p) v
| vo_string c s : str_valid s -> (Z.of_nat (str_len s) + 1 < 2 ^ 32)%Z -> value_of c RString (VStr s)
| vo_zbuf c bs : (Z.of_nat (length bs) < 2 ^ 32)%Z -> value_of c RZBuf (VBytes bs)
| vo_array c t n vs : Z.of_nat (length vs) = n -> Forall (value_of c t) vs -> value_of c (RArray t n) (VTuple vs)
| vo_vec c t vs : (Z.of_nat (length vs) <= MAX_SEQUENCE_LENGTH)%Z -> Forall (value_of c t) vs ->
    value_of c (RVec t) (VSeq (Some (length vs)) vs)
| vo_struct c t c' i vs : resolve_path c t = Some (c', i) ->
    Forall2 (fun f v => value_of c' (fd_type f) v) (sd_fields (mi_struct i)) vs -> value_of c t (VStruct vs).

(** What the estimate asks of the value of a field: its [len()], the lengths of its
    strings, its own estimate and those of its items. *)
Record FieldView := mkView { fv_len : Z; fv_strings : list Z; fv_size : Z; fv_items : list Z }.
Definition items (v : sval) : list sval := match v with VTuple vs | VSeq _ vs => vs | _ => [] end.
Definition value_len (v : sval) : Z :=
  match v with
  | VStr s => Z.of_nat (str_len s)
  | VBytes bs => Z.of_nat (length bs)
  | _ => Z.of_nat (length (items v))
  end.
Definition item_type (t : RustType) : RustType := match t with RArray t _ | RVec t => t | _ => t end.

(** [usize] addition of the release profile. *)
Definition add_size (size n : Z) : Z := wrap_u 64 (size + n).
Definition no_view : FieldView := mkView 0 [] 0 [].
Definition view_of (views : list (string * FieldView)) (field : string) : FieldView :=
  match List.find (fun '(name, _) => String.eqb name field) views with Some (_, v) => v | None => no_view end.
Definition size_step (views : list (string * FieldView)) (size : Z) (s : SizeStmt) : Z :=
  match s with
  | SzAdd n => add_size size n
  | SzLen f => add_size size (add_size 4 (fv_len (view_of views f)))
  | SzLenTimes f n => add_size size (add_size 4 (wrap_u 64 (fv_len (view_of views f) * n)))
  | SzStrings counted f =>
      foldl (fun size len => add_size size (add_size 4 len)) (if (counted : bool) then add_size size 4 else size)
        (fv_strings (view_of views f))
  | SzNested f => add_size size (fv_size (view_of views f))
  | SzItems counted f =>
      foldl add_size (if (counted : bool) then add_size size 4 else size) (fv_items (view_of views f))
  end.
Definition run_size (body : list SizeStmt) (views : list (string * FieldView)) : Z :=
  add_size (foldl (size_step views) 0%Z body) 16.

(** [SizeEstimation::estimated_cdr_size] of a value. *)
Fixpoint estimate (c : string) (t : RustType) (v : sval) {struct v} : Z :=
  match v with
  | VBool _ | VU8 _ | VI8 _ => 1
  | VU16 _ | VI16 _ => 2
  | VU32 _ | VI32 _ | VF32 _ => 4
  | VU64 _ | VI64 _ | VF64 _ => 8
  | VStr s => add_size 4 (Z.of_nat (str_len s))
  | VStruct vs =>
      match resolve_path c t with
      | None => 0
      | Some (c', i) =>
          run_size (mi_size i)
            ((fix views (fs : list FieldDef) (vs : list sval) {struct vs} : list (string * FieldView) :=
                match fs, vs with
                | f :: fs, v :: vs =>
                    (fd_name f,
                     mkView (value_len v) (map value_len (items v)) (estimate c' (fd_type f) v)
                       (match v with
                        | VTuple l | VSeq _ l => map (estimate c' (item_type (fd_type f))) l
                        | _ => []
                        end)) :: views fs vs
                | _, _ => []
                end) (sd_fields (mi_struct i)) vs)
      end
  | _ => 0
  end%Z.
(** The views of the fields of a message of the crate [c]. *)
Definition field_view (c : string) (f : FieldDef) (v : sval) : string * FieldView :=
  (fd_name f, mkView (value_len v) (map value_len (items v)) (estimate c (fd_type f) v)
                (map (estimate c (item_type (fd_type f))) (items v))).
(** [estimated_serialized_size]. *)
Definition generated_serialized_size (c : string) (t : RustType) (v : sval) : Z := add_size 4 (estimate c t v).
End Generated.

(** The crates come from the generator: every message is made of a resolved message
    of its package and name, field names differ (the code would not compile), and the
    messages that its fields name exist. *)
Definition generated `{SynApi} `{HexApi} (messages : string -> string -> option ParsedMessage) (crates : Crates) : Prop :=
  forall c p n i, crates c p n = Some i ->
    exists ctx m, messages p n = Some (rm_parsed m) /\ pm_package (rm_parsed m) = p /\ pm_name (rm_parsed m) = n /\
      generate_message_impl_with_context m ctx = Ok i /\
      NoDup (map fd_name (sd_fields (mi_struct i))) /\
      Forall (fun f => forall t, t = fd_type f \/ t = item_type (fd_type f) ->
        match t with RSuper _ _ | RExternal _ _ _ => is_Some (resolve_path crates c t) | _ => True end)
        (sd_fields (mi_struct i)).
