(* ===== verification/RustGenProps.v ===== *)
(** * The generated types: sizes and wire

    About RustGen.v: the estimate that the generator emits accounts for every byte of
    a serialized message but the terminators of strings and the padding, which its
    allowance of sixteen bytes per message must cover; and a message of a generated
    type is published as the same bytes as the dynamic message of the same content. *)
From S2P Require Import Prelude CdrBuffer Utf8 RustStr CdrPrimitives CdrSpec CdrSerializer CdrDeserializer CdrSerde CdrCodec.
From S2P Require Import SchemaModel MsgParser Resolver RustGen.
Open Scope string_scope.

(** ** Definitions *)

(** What a value writes: the alignment and the size of each part. *)
Fixpoint writes (v : sval) : list (nat * nat) :=
  match v with
  | VBool _ | VU8 _ | VI8 _ => [(1, 1)]%nat
  | VU16 _ | VI16 _ => [(2, 2)]%nat
  | VU32 _ | VI32 _ | VF32 _ => [(4, 4)]%nat
  | VU64 _ | VI64 _ | VF64 _ => [(8, 8)]%nat
  | VStr s => [(4, 4); (1, S (str_len s))]%nat
  | VBytes bs => [(4, 4); (1, length bs)]%nat
  | VSeq _ vs => (4, 4)%nat :: concat (map writes vs)
  | VTuple vs | VStruct vs => concat (map writes vs)
  | _ => []
  end.
Definition content_size (ws : list (nat * nat)) : nat := foldr (fun w n => (w.2 + n)%nat) 0%nat ws.
(** The padding of these parts from a position. *)
Fixpoint padding (p : nat) (ws : list (nat * nat)) : nat :=
  match ws with
  | [] => 0%nat
  | (a, n) :: ws => (pad_len p a + padding (p + pad_len p a + n) ws)%nat
  end.
Definition sum (l : list nat) : nat := foldr Nat.add 0%nat l.
(** The strings and the messages in a value, itself included. *)
Fixpoint strings_in (v : sval) : nat :=
  match v with
  | VStr _ => 1%nat
  | VSeq _ vs | VTuple vs | VStruct vs => sum (map strings_in vs)
  | _ => 0%nat
  end.
Fixpoint messages_in (v : sval) : nat :=
  match v with
  | VStruct vs => S (sum (map messages_in vs))
  | VSeq _ vs | VTuple vs => sum (map messages_in vs)
  | _ => 0%nat
  end.
(** The estimate, without overflow. *)
Definition exact (v : sval) : Z :=
  (Z.of_nat (content_size (writes v)) + 16 * Z.of_nat (messages_in v) - Z.of_nat (strings_in v))%Z.

(** ** Lemmas *)

(** *** Values *)

Section ValueInduction.
Context (crates : Crates) (P : string -> RustType -> sval -> Prop).
Context (HPrim : forall c p v, prim_value p v -> P c (RPrim p) v)
  (HString : forall c s, str_valid s -> (Z.of_nat (str_len s) + 1 < 2 ^ 32)%Z -> P c RString (VStr s))
  (HBytes : forall c bs, (Z.of_nat (length bs) < 2 ^ 32)%Z -> P c RZBuf (VBytes bs))
  (HArray : forall c t n vs, Z.of_nat (length vs) = n -> Forall (value_of crates c t) vs -> Forall (P c t) vs ->
     P c (RArray t n) (VTuple vs))
  (HVec : forall c t vs, (Z.of_nat (length vs) <= MAX_SEQUENCE_LENGTH)%Z -> Forall (value_of crates c t) vs -> Forall (P c t) vs ->
     P c (RVec t) (VSeq (Some (length vs)) vs))
  (HStruct : forall c t c' i vs, resolve_path crates c t = Some (c', i) ->
     Forall2 (fun f v => value_of crates c' (fd_type f) v) (sd_fields (mi_struct i)) vs ->
     Forall2 (fun f v => P c' (fd_type f) v) (sd_fields (mi_struct i)) vs -> P c t (VStruct vs)).

Lemma value_nested_ind : forall c t v, value_of crates c t v -> P c t v.
Proof using All.
  fix IH 4. intros c t v H. destruct H as [| | |c t n vs L F|c t vs L F|c t c' i vs R F].
  - by apply HPrim.
  - by apply HString.
  - by apply HBytes.
  - apply HArray; [done..|]. clear L. induction F; constructor; [by apply IH | done].
  - apply HVec; [done..|]. clear L. induction F; constructor; [by apply IH | done].
  - apply (HStruct _ _ _ _ _ R F). clear R. induction F; constructor; [by apply IH | done].
Qed.
End ValueInduction.

Definition prim_size (p : Prim) : nat :=
  match p with
  | PBool | PU8 | PI8 => 1 | PU16 | PI16 => 2 | PU32 | PI32 | PF32 => 4 | PU64 | PI64 | PF64 => 8
  end%nat.
Definition prim_sty (p : Prim) : sty :=
  match p with
  | PBool => TBool | PU8 => TU8 | PI8 => TI8 | PU16 => TU16 | PI16 => TI16 | PU32 => TU32 | PI32 => TI32
  | PU64 => TU64 | PI64 => TI64 | PF32 => TF32 | PF64 => TF64
  end.
Lemma prim_has_sty p v : prim_value p v -> has_sty (prim_sty p) v.
Proof. by destruct p, v. Qed.
Lemma prim_writes p v : prim_value p v -> writes v = [(prim_size p, prim_size p)] /\ strings_in v = 0%nat /\ messages_in v = 0%nat.
Proof. by destruct p, v. Qed.

Section Wire.
Context (crates : Crates) `{BL : ByteOrderLaws}.

Lemma value_serializes {ZBuf B} `{BufL : CdrBufferLaws ZBuf B} c t v :
  value_of crates c t v -> serializes (ZBuf := ZBuf) (B := B) v.
Proof.
  revert c t v. apply value_nested_ind; intros c; intros.
  - apply (scalar_serializes (prim_sty p)); [by destruct p | by apply prim_has_sty].
  - by apply (scalar_serializes TStr).
  - by apply (scalar_serializes TByteBuf).
  - by apply (play_appends serialize enc_sval).
  - apply (appends_bind (fun s => write_sequence_length s (length vs))).
    { apply write_sequence_length_appends. by apply max_sequence_length_u32. }
    by apply (play_appends serialize enc_sval).
  - apply (play_appends serialize enc_sval). by eapply Forall2_Forall_r; [eassumption|]; apply Forall_forall.
Qed.
Lemma value_to_vec {ZBuf} `{ZL : ZBufLaws ZBuf} c t v hint :
  value_of crates c t v -> to_vec (ZBuf := ZBuf) v hint = Ok (enc_sval v 0%nat).
Proof.
  intros V. unfold to_vec, serializer_new.
  assert (buf_ok (ZBuf := ZBuf) (B := list byte) []) as Hb by exact I.
  destruct (appends_run _ _ [] (value_serializes c t v V) Hb) as (w & -> & _ & Hc). cbn in *. by rewrite Hc.
Qed.

Lemma padding_app p l l' : padding p (l ++ l') = (padding p l + padding (p + padding p l + content_size l) l')%nat.
Proof.
  revert p. induction l as [|[a n] l IH]; intros p; [cbn; by rewrite !Nat.add_0_r|]. cbn [app padding].
  change (content_size ((a, n) :: l)) with (n + content_size l)%nat. rewrite IH.
  match goal with |- (_ + (_ + padding ?x _))%nat = (_ + padding ?y _)%nat => replace y with x by lia end. lia.
Qed.
Lemma content_size_app l l' : content_size (l ++ l') = (content_size l + content_size l')%nat.
Proof. induction l as [|[a n] l IH]; cbn in *; [done|]. unfold content_size in *. lia. Qed.

Lemma order_length n v p : length (enc_order n v p) = (pad_len p n + n)%nat.
Proof. unfold enc_order, enc_seq, enc_raw. by rewrite length_app, enc_align_length, bo_write_length. Qed.
Lemma pad_len_1 p : pad_len p 1 = 0%nat.
Proof. unfold pad_len. by rewrite Nat.mod_1_r. Qed.

Definition written (e : encoding) (ws : list (nat * nat)) : Prop := forall p, length (e p) = (content_size ws + padding p ws)%nat.
Lemma written_list vs : Forall (fun v => written (enc_sval v) (writes v)) vs ->
  written (enc_list enc_sval vs) (concat (map writes vs)).
Proof.
  induction 1 as [|v vs W _ IH]; intros p; [done|]. cbn [map concat].
  change (enc_list enc_sval (v :: vs)) with (enc_sval v ;+ enc_list enc_sval vs).
  unfold enc_seq. rewrite length_app, W, IH, padding_app, content_size_app.
  replace (p + (content_size (writes v) + padding p (writes v)))%nat with (p + padding p (writes v) + content_size (writes v))%nat by lia. lia.
Qed.
Lemma written_order n v e ws : written e ws -> written (enc_order n v ;+ e) ((n, n) :: ws).
Proof.
  intros W p. unfold enc_seq. rewrite length_app, order_length, W. change (content_size ((n, n) :: ws)) with (n + content_size ws)%nat.
  cbn [padding]. rewrite (Nat.add_assoc p). lia.
Qed.
Lemma written_raw bs : written (enc_raw bs) [(1, length bs)]%nat.
Proof. intros p. unfold enc_raw, content_size. cbn. rewrite pad_len_1. lia. Qed.
Lemma written_one n v : written (enc_order n v) [(n, n)].
Proof. intros p. rewrite order_length. unfold content_size. cbn. lia. Qed.

(** A value is as long as what it writes with the padding. *)
Lemma value_length c t v : value_of crates c t v -> written (enc_sval v) (writes v).
Proof.
  revert c t v. apply value_nested_ind; intros c; intros.
  - destruct p, v; try done; cbn [enc_sval writes]; first [apply written_one | apply (written_raw [_])].
  - apply written_order. pose proof (written_raw (str_bytes s ++ [x00])) as W. rewrite length_app in W.
    cbn [length] in W. rewrite str_bytes_length, Nat.add_1_r in W. done.
  - apply written_order, written_raw.
  - by apply written_list.
  - apply written_order. by apply written_list.
  - apply written_list. by eapply Forall2_Forall_r; [eassumption|]; apply Forall_forall.
Qed.
End Wire.

(** *** The estimate *)

(** Sizes up to overflow. *)
Definition same_size (a b : Z) : Prop := (a mod 2 ^ 64 = b mod 2 ^ 64)%Z.
#[local] Instance same_size_equiv : Equivalence same_size.
Proof. split; unfold same_size; red; congruence. Qed.
#[local] Instance same_size_add : Proper (same_size ==> same_size ==> same_size) Z.add.
Proof. intros a b H a' b' H'. unfold same_size in *. by rewrite Z.add_mod, H, H', <- Z.add_mod. Qed.
Lemma add_size_same a b : same_size (add_size a b) (a + b).
Proof. unfold same_size, add_size, wrap_u. by rewrite Z.mod_mod. Qed.
Lemma wrap_same a : same_size (wrap_u 64 a) a.
Proof. unfold same_size, wrap_u. by rewrite Z.mod_mod. Qed.

Definition total (l : list Z) : Z := foldr Z.add 0%Z l.
Lemma foldl_same {A} (f : Z -> A -> Z) (g : A -> Z) l a :
  Forall (fun x => forall s, same_size (f s x) (s + g x)) l -> same_size (foldl f a l) (a + total (map g l)).
Proof.
  intros F. revert a. induction F as [|x l Hx _ IH]; intros a; cbn; [by rewrite Z.add_0_r|].
  rewrite IH, Hx. by rewrite Z.add_assoc.
Qed.
Lemma total_ext {A} (f g : A -> Z) l : Forall (fun x => f x = g x) l -> total (map f l) = total (map g l).
Proof. induction 1 as [|x l Hx _ IH]; cbn; [done|]. unfold total in *. by rewrite Hx, IH. Qed.
Lemma total_const {A} (f : A -> Z) k l : Forall (fun x => f x = k) l -> total (map f l) = (Z.of_nat (length l) * k)%Z.
Proof. induction 1 as [|x l Hx _ IH]; [done|]. cbn. unfold total in IH. rewrite Hx, IH. lia. Qed.
Lemma total_same {A} (f g : A -> Z) l : Forall (fun x => same_size (f x) (g x)) l -> same_size (total (map f l)) (total (map g l)).
Proof. induction 1 as [|x l Hx _ IH]; cbn; [done|]. unfold total in *. by rewrite Hx, IH. Qed.

Lemma exact_list vs :
  (Z.of_nat (content_size (concat (map writes vs))) + 16 * Z.of_nat (sum (map messages_in vs)) - Z.of_nat (sum (map strings_in vs))
   = total (map exact vs))%Z.
Proof.
  induction vs as [|v vs IH]; [done|]. cbn [map concat sum foldr total]. rewrite content_size_app.
  unfold total in IH. rewrite <- IH. unfold exact, sum. lia.
Qed.
Lemma exact_tuple vs : exact (VTuple vs) = total (map exact vs).
Proof. rewrite <- exact_list. done. Qed.
Lemma exact_seq h vs : exact (VSeq h vs) = (4 + total (map exact vs))%Z.
Proof.
  rewrite <- exact_list. unfold exact. cbn [writes messages_in strings_in].
  change (content_size ((4, 4)%nat :: concat (map writes vs))) with (4 + content_size (concat (map writes vs)))%nat. lia.
Qed.
Lemma exact_struct vs : exact (VStruct vs) = (16 + total (map exact vs))%Z.
Proof. rewrite <- exact_list. unfold exact. cbn [writes messages_in strings_in]. lia. Qed.
Lemma exact_string s : exact (VStr s) = (4 + Z.of_nat (str_len s))%Z.
Proof. unfold exact, content_size. cbn. lia. Qed.
Lemma exact_bytes bs : exact (VBytes bs) = (4 + Z.of_nat (length bs))%Z.
Proof. unfold exact, content_size. cbn. lia. Qed.
Lemma exact_prim p v : prim_value p v -> exact v = Z.of_nat (prim_size p).
Proof. intros H. destruct (prim_writes p v H) as (W & S & M). unfold exact. rewrite W, S, M. unfold content_size. cbn. lia. Qed.

Section Values.
Context (crates : Crates).
Abbreviation value := (value_of crates).
Lemma value_prim c p v : value c (RPrim p) v -> prim_value p v.
Proof. by inversion 1. Qed.
Lemma value_string c v : value c RString v -> exists s, v = VStr s.
Proof. inversion 1; simplify_eq; by eexists. Qed.
Lemma value_zbuf c v : value c RZBuf v -> exists bs, v = VBytes bs.
Proof. inversion 1; simplify_eq; by eexists. Qed.
Lemma value_array c t n v : value c (RArray t n) v -> exists vs, v = VTuple vs /\ Z.of_nat (length vs) = n /\ Forall (value c t) vs.
Proof. inversion 1; simplify_eq; by eexists. Qed.
Lemma value_vec c t v : value c (RVec t) v -> exists vs, v = VSeq (Some (length vs)) vs /\ Forall (value c t) vs.
Proof. inversion 1; simplify_eq; by eexists. Qed.

Lemma estimate_struct c t c' i vs : resolve_path crates c t = Some (c', i) ->
  estimate crates c t (VStruct vs) = run_size (mi_size i) (zip_with (field_view crates c') (sd_fields (mi_struct i)) vs).
Proof.
  intros R. cbn [estimate]. rewrite R. f_equal. generalize (sd_fields (mi_struct i)).
  induction vs as [|v vs IH]; intros [|f fs]; cbn [zip_with]; [done..|]. rewrite <- IH. unfold field_view. by destruct v.
Qed.
End Values.

(** *** The fields of a generated message *)

Section Fields.
Context `{SA : SynApi}.

Lemma format_ident_same {E} s t : format_ident (E := E) s = Ok t -> t = s.
Proof. unfold format_ident. repeat case_match; by intros [= <-]. Qed.

(** What the type of a field is made of. *)
Inductive base_kind (pkg : string) (ctx : GenerationContext) (ft : PFieldType) : RustType -> Prop :=
| bk_prim p : prim_of (base_type ft) = Some p -> base_kind pkg ctx ft (RPrim p)
| bk_string : base_type ft = "string" -> base_kind pkg ctx ft RString
| bk_path t : prim_of (base_type ft) = None -> base_type ft <> "string" ->
    format_ident (E := string) (base_type ft) = Ok (base_type ft) ->
    (t = RSuper (default pkg (ft_package ft)) (base_type ft) \/
     exists krate, t = RExternal krate (default pkg (ft_package ft)) (base_type ft)) -> base_kind pkg ctx ft t.

Lemma base_type_kind pkg ctx ft t :
  generate_base_type_tokens_with_context (E := string) ft pkg ctx = Ok t -> base_kind pkg ctx ft t.
Proof.
  unfold generate_base_type_tokens_with_context. destruct (prim_of _) as [p|] eqn:P; [intros [= <-]; by constructor|].
  destruct (String.eqb_spec (base_type ft) "string") as [S|S]; [intros [= <-]; by constructor|].
  intros G. destruct (format_ident (E := string) (default pkg (ft_package ft))) as [a| |] eqn:A; [|done..]. cbn in G.
  destruct (format_ident (E := string) (base_type ft)) as [b| |] eqn:B; [|done..]. cbn in G.
  assert (b = base_type ft) as -> by by apply format_ident_same in B.
  apply format_ident_same in A as ->. apply bk_path; [done..|].
  destruct (external_crate ctx) as [k|]; [|left; by simplify_eq]. destruct (negb _); [|left; by simplify_eq].
  destruct (format_ident (E := string) k); simplify_eq/=; eauto.
Qed.

Lemma prim_of_facts b p : prim_of b = Some p -> primitive_size b = Some (Z.of_nat (prim_size p)) /\ b <> "string" /\
  (is_byte b = true -> p = PU8).
Proof.
  unfold prim_of, is_one_of. cbn [existsb].
  repeat (match goal with |- context [String.eqb b ?s] => destruct (String.eqb_spec b s) as [->|] end; cbn [orb]);
    intros [= <-]; done.
Qed.
Lemma prim_of_none b : prim_of b = None -> b <> "wchar" -> primitive_size b = None /\ is_byte b = false.
Proof.
  unfold prim_of, primitive_size, is_byte, is_one_of. cbn [existsb].
  repeat (match goal with |- context [String.eqb b ?s] => destruct (String.eqb_spec b s) as [->|] end; cbn [orb]); done.
Qed.
End Fields.

Section Estimate.
Context `{SA : SynApi} `{HX : HexApi} (messages : string -> string -> option ParsedMessage) (crates : Crates).
Context (HG : generated messages crates) (HW : forall p, messages p "wchar" = None).
Abbreviation value := (value_of crates).
Abbreviation est := (estimate crates).

Lemma path_named c pkg b t i : (t = RSuper pkg b \/ exists krate, t = RExternal krate pkg b) ->
  resolve_path crates c t = Some i -> b <> "wchar".
Proof.
  intros T R ->. assert (exists k, crates k pkg "wchar" = Some i.2) as (k & C).
  { destruct T as [->|[k ->]]; cbn in R; destruct (crates _ pkg "wchar") eqn:K; simplify_eq/=; eauto. }
  apply HG in C as (? & ? & M & _). by rewrite HW in M.
Qed.

Definition estimated (c : string) (t : RustType) (v : sval) : Prop :=
  is_Some (resolve_path crates c t) -> same_size (est c t v) (exact v).

Lemma prims_total c p vs : Forall (value c (RPrim p)) vs -> total (map exact vs) = (Z.of_nat (length vs) * Z.of_nat (prim_size p))%Z.
Proof. intros F. apply total_const. apply (Forall_impl _ _ _ F). intros v V. eapply exact_prim, value_prim, V. Qed.
Lemma strings_total c vs size : Forall (value c RString) vs ->
  same_size (foldl (fun size len => add_size size (add_size 4 len)) size (map value_len vs)) (size + total (map exact vs)).
Proof.
  intros F. rewrite (foldl_same _ (fun len => 4 + len)%Z).
  - rewrite map_map. apply same_size_add; [done|]. apply total_same.
    apply (Forall_impl _ _ _ F). intros v V. destruct (value_string _ _ _ V) as [s ->]. by rewrite exact_string.
  - apply Forall_forall. intros x _ s. by rewrite !add_size_same.
Qed.
Lemma items_total c t vs size : is_Some (resolve_path crates c t) -> Forall (estimated c t) vs ->
  same_size (foldl add_size size (map (est c t) vs)) (size + total (map exact vs)).
Proof.
  intros R F. rewrite (foldl_same _ id).
  - rewrite map_id. apply same_size_add; [done|]. apply total_same. apply (Forall_impl _ _ _ F). intros v E. by apply E.
  - apply Forall_forall. intros x _ s. apply add_size_same.
Qed.

(** A step, by its statement. *)
Lemma step_add views size n : same_size (size_step views size (SzAdd n)) (size + n).
Proof. apply add_size_same. Qed.
Lemma step_len views size f : same_size (size_step views size (SzLen f)) (size + (4 + fv_len (view_of views f))).
Proof. cbn. by rewrite !add_size_same. Qed.
Lemma step_len_times views size f n :
  same_size (size_step views size (SzLenTimes f n)) (size + (4 + fv_len (view_of views f) * n)).
Proof. cbn. by rewrite !add_size_same, wrap_same. Qed.
Lemma counted_same (b : bool) size : same_size (if b then add_size size 4 else size) (size + (if b then 4 else 0)).
Proof. destruct b; [apply add_size_same | by rewrite Z.add_0_r]. Qed.

(** The statement of a field, by the kind of its type: sizes of primitives, strings and
    messages. *)
Lemma prim_field_adds c pf name p views size v :
  prim_of (base_type (pf_type pf)) = Some p ->
  let t := match array (pf_type pf) with
           | Single => RPrim p
           | Fixed n => RArray (RPrim p) n
           | Unbounded => if is_byte (base_type (pf_type pf)) then RZBuf else RVec (RPrim p)
           | Bounded _ => RVec (RPrim p)
           end in
  value c t v -> fv_len (view_of views name) = value_len v -> escape_field_name (E := string) (pf_name pf) = Ok name ->
  forall st, generate_field_size_expr (E := string) pf = Ok st -> same_size (size_step views size st) (size + exact v).
Proof.
  intros P t V L N st. unfold generate_field_size_expr. rewrite N. cbn [mbind res_bind]. intros [= <-].
  destruct (prim_of_facts _ _ P) as (Ps & Ns & Nb). rewrite Ps. destruct (String.eqb_spec (base_type (pf_type pf)) "string") as [|_]; [done|].
  unfold is_zbuf_field. subst t.
  assert (forall vs, v = VSeq (Some (length vs)) vs -> Forall (value c (RPrim p)) vs ->
    same_size (size_step views size (if (Z.of_nat (prim_size p) =? 1)%Z then SzLen name else SzLenTimes name (Z.of_nat (prim_size p))))
      (size + exact v)) as A.
  { intros vs -> F. rewrite exact_seq, (prims_total _ _ _ F). cbn [value_len items] in L.
    destruct (Z.eqb_spec (Z.of_nat (prim_size p)) 1) as [->|_]; [rewrite step_len, L, Z.mul_1_r | rewrite step_len_times, L]; done. }
  destruct (array (pf_type pf)) as [|n|n|]; rewrite ?andb_false_r, ?andb_true_r.
  - rewrite step_add. by rewrite (exact_prim _ _ (value_prim _ _ _ _ V)).
  - destruct (value_array _ _ _ _ _ V) as (vs & -> & <- & F). by rewrite step_add, wrap_same, exact_tuple, (prims_total _ _ _ F).
  - destruct (value_vec _ _ _ _ V) as (vs & -> & F). by apply (A vs).
  - destruct (is_byte _).
    + destruct (value_zbuf _ _ _ V) as [bs ->]. by rewrite step_len, L, exact_bytes.
    + destruct (value_vec _ _ _ _ V) as (vs & -> & F). by apply (A vs).
Qed.

Lemma string_field_adds c pf name views size v :
  base_type (pf_type pf) = "string" ->
  let t := match array (pf_type pf) with Single => RString | Fixed n => RArray RString n | _ => RVec RString end in
  value c t v -> view_of views name = (field_view crates c (mkFieldDef None false name t) v).2 ->
  escape_field_name (E := string) (pf_name pf) = Ok name ->
  forall st, generate_field_size_expr (E := string) pf = Ok st -> same_size (size_step views size st) (size + exact v).
Proof.
  intros P t V L N st. unfold generate_field_size_expr. rewrite N. cbn [mbind res_bind]. intros [= <-].
  unfold is_zbuf_field. rewrite P. cbn [String.eqb is_byte is_one_of existsb orb andb Ascii.eqb Bool.eqb]. subst t.
  assert (forall b vs, v = VTuple vs \/ v = VSeq (Some (length vs)) vs -> Forall (value c RString) vs ->
    same_size (size_step views size (SzStrings b name)) (size + ((if b then 4 else 0) + total (map exact vs)))) as A.
  { intros b vs Vs F. cbn [size_step]. rewrite L. cbn [field_view snd fv_strings].
    replace (items v) with vs by by destruct Vs as [-> | ->]. rewrite (strings_total c), counted_same by done. by rewrite Z.add_assoc. }
  destruct (array (pf_type pf)) as [|n|n|].
  - destruct (value_string _ _ _ V) as [s ->]. by rewrite step_len, L, exact_string.
  - destruct (value_array _ _ _ _ _ V) as (vs & -> & <- & F). rewrite (A false vs) by auto. by rewrite exact_tuple.
  - destruct (value_vec _ _ _ _ V) as (vs & -> & F). rewrite (A true vs) by auto. by rewrite exact_seq.
  - destruct (value_vec _ _ _ _ V) as (vs & -> & F). rewrite (A true vs) by auto. by rewrite exact_seq.
Qed.

Lemma path_field_adds c pf name base views size v :
  prim_of (base_type (pf_type pf)) = None -> base_type (pf_type pf) <> "string" -> base_type (pf_type pf) <> "wchar" ->
  is_Some (resolve_path crates c base) -> item_type base = base ->
  let t := match array (pf_type pf) with Single => base | Fixed n => RArray base n | _ => RVec base end in
  value c t v -> view_of views name = (field_view crates c (mkFieldDef None false name t) v).2 ->
  estimated c t v -> Forall (estimated c base) (items v) ->
  escape_field_name (E := string) (pf_name pf) = Ok name ->
  forall st, generate_field_size_expr (E := string) pf = Ok st -> same_size (size_step views size st) (size + exact v).
Proof.
  intros P Ns Nw R It t V L Ev Ei N st. unfold generate_field_size_expr. rewrite N. cbn [mbind res_bind]. intros [= <-].
  destruct (prim_of_none _ P Nw) as [-> Nb]. destruct (String.eqb_spec (base_type (pf_type pf)) "string") as [|_]; [done|].
  unfold is_zbuf_field. rewrite Nb. cbn [andb]. subst t.
  assert (forall b vs, v = VTuple vs \/ v = VSeq (Some (length vs)) vs -> array (pf_type pf) <> Single ->
    same_size (size_step views size (SzItems b name)) (size + ((if b then 4 else 0) + total (map exact vs)))) as A.
  { intros b vs Vs Na. assert (items v = vs) as I by by destruct Vs as [-> | ->]. rewrite I in Ei.
    cbn [size_step]. rewrite L. cbn [field_view snd fv_items fd_type]. rewrite I.
    replace (item_type _) with base by by destruct (array (pf_type pf)). rewrite (items_total c), counted_same by done.
    by rewrite Z.add_assoc. }
  destruct (array (pf_type pf)) as [|n|n|].
  - cbn [size_step]. rewrite L. cbn [field_view snd fv_size fd_type]. rewrite add_size_same. by rewrite (Ev R).
  - destruct (value_array _ _ _ _ _ V) as (vs & -> & <- & F). rewrite (A false vs) by auto. by rewrite exact_tuple.
  - destruct (value_vec _ _ _ _ V) as (vs & -> & F). rewrite (A true vs) by auto. by rewrite exact_seq.
  - destruct (value_vec _ _ _ _ V) as (vs & -> & F). rewrite (A true vs) by auto. by rewrite exact_seq.
Qed.

Definition path_exists (c : string) (t : RustType) : Prop :=
  match t with RSuper _ _ | RExternal _ _ _ => is_Some (resolve_path crates c t) | _ => True end.

Lemma base_kind_item pkg ctx ft t : base_kind pkg ctx ft t -> item_type t = t.
Proof. destruct 1 as [| |t _ _ _ [->|[k ->]]]; done. Qed.

(** The statement of a field adds what its value is estimated at. *)
Lemma field_adds c pkg ctx pf fd st views size v :
  generate_field_def_with_context pf pkg ctx = Ok fd -> generate_field_size_expr (E := string) pf = Ok st ->
  (forall t, t = fd_type fd \/ t = item_type (fd_type fd) -> path_exists c t) ->
  view_of views (fd_name fd) = (field_view crates c fd v).2 ->
  value c (fd_type fd) v -> estimated c (fd_type fd) v -> Forall (estimated c (item_type (fd_type fd))) (items v) ->
  same_size (size_step views size st) (size + exact v).
Proof.
  unfold generate_field_def_with_context. intros G S.
  destruct (escape_field_name (E := string) (pf_name pf)) as [name| |] eqn:N; [|done..]. cbn [mbind res_bind] in G.
  unfold generate_field_type_tokens_with_context in G.
  destruct (generate_base_type_tokens_with_context (pf_type pf) pkg ctx) as [base| |] eqn:B; [|done..]. cbn [mbind res_bind] in G.
  apply base_type_kind in B. match type of G with (?m ≫= _) = _ => destruct m; [|done..] end. cbn [mbind res_bind] in G.
  injection G as <-. cbn [fd_name fd_type]. intros D View V Ev Ei.
  pose proof (base_kind_item _ _ _ _ B) as It. destruct B as [p P|P|base P Ns _ T].
  - eapply (prim_field_adds c pf name p); [done | done | by rewrite View | done | done].
  - replace (if is_byte (base_type (pf_type pf)) then RZBuf else RVec RString) with (RVec RString) in * by by rewrite P.
    by eapply (string_field_adds c pf name).
  - assert (path_exists c base) as X.
    { destruct (array (pf_type pf)); [by apply D; left | by apply D; right | by apply D; right |].
      destruct (is_byte (base_type (pf_type pf))) eqn:Nb; [|by apply D; right].
      exfalso. revert P Nb. unfold prim_of, is_byte, is_one_of. cbn [existsb].
      destruct (String.eqb_spec (base_type (pf_type pf)) "uint8") as [->|]; [done|].
      destruct (String.eqb_spec (base_type (pf_type pf)) "byte") as [->|]; done. }
    assert (is_Some (resolve_path crates c base)) as R by by destruct T as [->|[k ->]].
    destruct R as [i R]. pose proof (path_named c _ _ base i T R) as Nw.
    destruct (prim_of_none _ P Nw) as [_ Nb]. rewrite Nb in *.
    eapply (path_field_adds c pf name base); try done.
    destruct (array (pf_type pf)); cbn [item_type] in Ei; [|done..]. rewrite It in Ei. done.
Qed.

Lemma views_found c fs vs : NoDup (map fd_name fs) -> length fs = length vs ->
  Forall2 (fun f v => view_of (zip_with (field_view crates c) fs vs) (fd_name f) = (field_view crates c f v).2) fs vs.
Proof.
  revert vs. induction fs as [|f fs IH]; intros [|v vs] D L; try done.
  cbn in D. apply NoDup_cons in D as [Nin D]. cbn [zip_with]. constructor.
  - unfold view_of. cbn. by rewrite String.eqb_refl.
  - assert (forall g, g ∈ fs -> fd_name f <> fd_name g) as Df.
    { intros g Hg Eq. destruct Nin. rewrite Eq. by apply list_elem_of_In, in_map, list_elem_of_In. }
    injection L as L. specialize (IH vs D L). clear Nin D.
    apply Forall2_same_length_lookup in IH as [_ IH]. apply Forall2_same_length_lookup. split; [done|].
    intros k g w Hg Hw. pose proof (IH k g w Hg Hw) as E. apply list_elem_of_lookup_2, Df in Hg.
    unfold view_of in *. cbn. destruct (String.eqb_spec (fd_name f) (fd_name g)) as [Eq|_]; done.
Qed.

Lemma traverse_inv {E A B} (f : A -> res E B) l ys : traverse f l = Ok ys -> Forall2 (fun x y => f x = Ok y) l ys.
Proof.
  revert ys. induction l as [|x l IH]; intros ys H; cbn in H; [by injection H as <-|].
  res_inv. constructor; [done|]. by apply IH.
Qed.

(** What [generated] says of a message, its generator undone. *)
Lemma generated_fields c p n i : crates c p n = Some i ->
  exists ctx pfs, Forall2 (fun pf fd => generate_field_def_with_context pf p ctx = Ok fd) pfs (sd_fields (mi_struct i)) /\
    Forall2 (fun pf st => generate_field_size_expr (E := string) pf = Ok st) pfs (mi_size i) /\
    NoDup (map fd_name (sd_fields (mi_struct i))) /\
    Forall (fun f => forall t, t = fd_type f \/ t = item_type (fd_type f) -> path_exists c t) (sd_fields (mi_struct i)).
Proof.
  intros C. destruct (HG _ _ _ _ C) as (ctx & m & _ & <- & _ & G & ND & D). exists ctx, (pm_fields (rm_parsed m)).
  unfold generate_message_impl_with_context, generate_struct_with_context in G. res_inv.
  cbn [mi_struct sd_fields mi_size] in *.
  split_and!; [by apply traverse_inv | by apply traverse_inv | done | done].
Qed.

Lemma resolved_is_generated c t c' i : resolve_path crates c t = Some (c', i) -> exists p n, crates c' p n = Some i.
Proof. destruct t; cbn; try done; destruct (crates _ _ _) eqn:E; intros; simplify_eq/=; eauto. Qed.

Lemma body_adds c pkg ctx views pfs fds body vs size :
  Forall2 (fun pf fd => generate_field_def_with_context pf pkg ctx = Ok fd) pfs fds ->
  Forall2 (fun pf st => generate_field_size_expr (E := string) pf = Ok st) pfs body ->
  Forall (fun f => forall t, t = fd_type f \/ t = item_type (fd_type f) -> path_exists c t) fds ->
  Forall2 (fun f v => view_of views (fd_name f) = (field_view crates c f v).2) fds vs ->
  Forall2 (fun f v => value c (fd_type f) v) fds vs ->
  Forall2 (fun f v => estimated c (fd_type f) v /\ Forall (estimated c (item_type (fd_type f))) (items v)) fds vs ->
  same_size (foldl (size_step views) size body) (size + total (map exact vs)).
Proof.
  intros G. revert body vs size. induction G as [|pf fd pfs fds Hf G IH]; intros body vs size S D W V Es;
    inversion S; inversion V; simplify_eq; [by cbn; rewrite Z.add_0_r|].
  apply Forall_cons in D as [D Ds]. apply Forall2_cons in W as [W Ws]. apply Forall2_cons in Es as [[E1 E2] Es].
  cbn [foldl map total foldr]. rewrite IH by done. rewrite Z.add_assoc. apply same_size_add; [|done].
  by eapply field_adds.
Qed.

Lemma value_estimated c t v : value c t v -> estimated c t v /\ Forall (estimated c (item_type t)) (items v).
Proof.
  revert c t v. apply value_nested_ind.
  - intros c p v V. split; [intros [? [=]] | by destruct p, v].
  - intros c s _ _. split; [intros [? [=]] | done].
  - intros c bs _. split; [intros [? [=]] | done].
  - intros c t n vs _ _ F. split; [intros [? [=]]|]. cbn. apply (Forall_impl _ _ _ F). by intros v [].
  - intros c t vs _ _ F. split; [intros [? [=]]|]. cbn. apply (Forall_impl _ _ _ F). by intros v [].
  - intros c t c' i vs R V Es. split; [|done]. intros _.
    destruct (resolved_is_generated _ _ _ _ R) as (p & n & C).
    destruct (generated_fields _ _ _ _ C) as (ctx & pfs & Fd & Fs & ND & D).
    rewrite (estimate_struct _ _ _ _ _ _ R), exact_struct. unfold run_size. rewrite add_size_same.
    rewrite (body_adds c' p ctx _ pfs (sd_fields (mi_struct i)) _ vs); try done.
    + by rewrite Z.add_0_l, Z.add_comm.
    + apply views_found; [done|]. by eapply Forall2_length.
Qed.

Lemma exact_length c t v `{BL : ByteOrderLaws} : value c t v ->
  (Z.of_nat (length (enc_sval v 0%nat)) + 16 * Z.of_nat (messages_in v)
   = exact v + Z.of_nat (strings_in v) + Z.of_nat (padding 0 (writes v)))%Z.
Proof. intros V. rewrite (value_length crates c t v V 0%nat). unfold exact. lia. Qed.
Lemma estimate_range c t v : is_Some (resolve_path crates c t) -> value c t v -> (0 <= est c t v < 2 ^ 64)%Z.
Proof.
  intros [[c' i] R] V. destruct V; try done. rewrite (estimate_struct _ _ _ _ _ _ R).
  unfold run_size, add_size. apply wrap_u_range. lia.
Qed.
Lemma exact_nonneg c t v : value c t v -> (0 <= exact v)%Z.
Proof.
  assert (forall vs, Forall (fun v => 0 <= exact v)%Z vs -> (0 <= total (map exact vs))%Z) as T.
  { induction 1 as [|w ws Hv _ IH]; [done|]. cbn. unfold total in IH. lia. }
  revert c t v. apply value_nested_ind; intros c.
  - intros p w V. rewrite (exact_prim p w V). lia.
  - intros s _ _. rewrite exact_string. lia.
  - intros bs _. rewrite exact_bytes. lia.
  - intros t n vs _ _ F. rewrite exact_tuple. by apply T.
  - intros t vs _ _ F. rewrite exact_seq. apply T in F. lia.
  - intros t c' i vs _ _ F. rewrite exact_struct. enough (0 <= total (map exact vs))%Z by lia.
    apply T. by eapply Forall2_Forall_r; [exact F | apply Forall_forall].
Qed.

(** C37 The estimate that the generator emits for a message, against its serialization:
    with the allowance of sixteen bytes that every message in it adds, it accounts for
    every byte but one for each string (its terminator) and the padding; so it is an
    upper bound, as it is meant to be, exactly when these are within the allowance. *)
Theorem estimate_accounts `{BL : ByteOrderLaws} {ZBuf} `{ZL : ZBufLaws ZBuf} c t v hint :
  is_Some (resolve_path crates c t) -> value c t v ->
  exists bytes, to_vec (ZBuf := ZBuf) v hint = Ok bytes /\
    ((Z.of_nat (length bytes) + 16 * Z.of_nat (messages_in v) < 2 ^ 64)%Z ->
     (Z.of_nat (length bytes) + 16 * Z.of_nat (messages_in v)
      = est c t v + Z.of_nat (strings_in v) + Z.of_nat (padding 0 (writes v)))%Z /\
     ((Z.of_nat (length bytes) <= est c t v)%Z <-> (strings_in v + padding 0 (writes v) <= 16 * messages_in v)%nat)).
Proof.
  intros R V. exists (enc_sval v 0%nat). split; [by eapply value_to_vec|]. intros B.
  pose proof (exact_length c t v V) as L.
  assert (est c t v = exact v) as E; [|rewrite E; lia].
  destruct (value_estimated _ _ _ V) as [S _]. specialize (S R). unfold same_size in S.
  pose proof (estimate_range _ _ _ R V).
  pose proof (exact_nonneg _ _ _ V). rewrite !Z.mod_small in S by lia. done.
Qed.
End Estimate.

(** The hash that the generated code expects to parse does. *)
Lemma generated_hash_valid `{SynApi} `{HX : HexApi} `{HL : !HexLaws} {E} package name h i :
  generate_message_type_info (E := E) package name h = Ok i -> Forall (u_range 8) h -> length h = 32%nat ->
  schema_from_rihs_string (ti_hash_str i) = Ok h.
Proof.
  unfold generate_message_type_info. intros G B L. destruct (format_ident (E := E) name); [|done..]. injection G as <-.
  by apply schema_hash_text.
Qed.

(** *** A generated crate *)

Definition ex_ident_char (c : Ascii.ascii) : bool :=
  let n := Ascii.nat_of_ascii c in
  ((48 <=? n) && (n <=? 57) || (65 <=? n) && (n <=? 90) || (97 <=? n) && (n <=? 122) || (n =? 95))%nat.
Definition ex_syn : SynApi := {|
  ident_ok s := negb (String.eqb s "") && forallb ex_ident_char (String.list_ascii_of_string s);
  raw_ident_ok s := negb (String.eqb s "") && forallb ex_ident_char (String.list_ascii_of_string s);
  lit_int_ok s := true;
  lit_float_ok s := contains_char "." s;
|}.
#[local] Existing Instance ex_syn.
#[local] Existing Instance ex_hex.
Definition ex_field (name b : string) (pkg : option string) (a : ArrayType) : PField := mkPField name (mkPFieldType b pkg a None) None.
Definition ex_parsed (name : string) (fs : list PField) : ParsedMessage := mkParsed name "pkg" fs [] "" "".
Definition ex_messages (p n : string) : option ParsedMessage :=
  if negb (String.eqb p "pkg") then None
  else if String.eqb n "Names" then Some (ex_parsed "Names" [ex_field "names" "string" None Unbounded])
  else if String.eqb n "Holder" then Some (ex_parsed "Holder"
    [ex_field "type" "Names" (Some "pkg") (Bounded 4); ex_field "data" "uint8" None Unbounded; ex_field "xs" "float64" None (Fixed 2)])
  else None.
Definition ex_resolved (m : ParsedMessage) : ResolvedMessage := mkResolved m (replicate 32 0%Z) "".
Definition ex_crates : Crates := fun c p n =>
  m ← ex_messages p n;
  match generate_message_impl (ex_resolved m) with Ok i => Some i | _ => None end.
Lemma ex_generated : generated ex_messages ex_crates.
Proof.
  intros c p n i. unfold ex_crates, ex_messages.
  destruct (String.eqb_spec p "pkg") as [->|]; [|done]. cbn [negb].
  destruct (String.eqb_spec n "Names") as [->|]; [|destruct (String.eqb_spec n "Holder") as [->|]; [|done]];
    cbn [mbind option_bind];
    match goal with |- context [generate_message_impl ?m] => intros G; exists GenerationContext_default, m end;
    (split_and!; [reflexivity..| | |]); vm_compute in G; injection G as <-.
  - reflexivity.
  - cbn. apply (bool_decide_unpack _). vm_compute. done.
  - repeat constructor; intros t [->| ->]; exact I.
  - reflexivity.
  - cbn. apply (bool_decide_unpack _). vm_compute. done.
  - repeat constructor; intros t [->| ->]; try exact I; vm_compute; by eexists.
Qed.

Definition ex_abc : sval := VStr "abc".
Definition ex_names (k : nat) : sval := VStruct [VSeq (Some k) (replicate k ex_abc)].
Definition ex_holder : sval :=
  VStruct [VSeq (Some 2%nat) [ex_names 1; ex_names 2]; VBytes [x00; x01; x02]; VTuple [VF64 0; VF64 1]].
Definition ex_path (n : string) : RustType := RSuper "pkg" n.
Lemma ex_names_value k : (Z.of_nat k <= MAX_SEQUENCE_LENGTH)%Z -> value_of ex_crates "c" (ex_path "Names") (ex_names k).
Proof.
  intros L. eapply vo_struct; [vm_compute; reflexivity|]. constructor; [|done]. cbn [fd_type].
  rewrite <- (length_replicate k ex_abc) at 1. apply vo_vec; [by rewrite length_replicate|].
  apply Forall_replicate. by apply vo_string; vm_compute.
Qed.
Lemma ex_holder_value : value_of ex_crates "c" (ex_path "Holder") ex_holder.
Proof.
  eapply vo_struct; [vm_compute; reflexivity|]. repeat constructor; cbn [fd_type].
  - apply (vo_vec _ _ _ [ex_names 1; ex_names 2]); [by vm_compute|]. repeat constructor; by apply ex_names_value; vm_compute.
  - by vm_compute.
  - by vm_compute.
Qed.

Lemma ex_no_wchar p : ex_messages p "wchar" = None.
Proof. unfold ex_messages. by destruct (negb _). Qed.

Lemma estimate_accounts_witness :
  estimate ex_crates "c" (ex_path "Holder") ex_holder = 104%Z /\
  exists bytes, to_vec (BO := LittleEndian) (ZBuf := list (list byte)) ex_holder 256 = Ok bytes /\
    (Z.of_nat (length bytes) <= 104)%Z.
Proof.
  split; [vm_compute; reflexivity|].
  destruct (estimate_accounts (H := LittleEndian) (ZBuf := list (list byte)) ex_messages ex_crates ex_generated ex_no_wchar
    "c" (ex_path "Holder") ex_holder 256 ltac:(vm_compute; by eexists) ex_holder_value) as (bytes & R & A).
  exists bytes. split; [exact R|]. vm_compute in R. injection R as <-. destruct A as [_ A]; [vm_compute; reflexivity|].
  apply A. vm_compute. lia.
Defined.

(** Twenty short strings are more than the estimate. *)
Example names_exceed_estimate :
  estimate ex_crates "c" (ex_path "Names") (ex_names 20) = 160%Z /\
  length <$> to_vec (BO := LittleEndian) (ZBuf := list (list byte)) (ex_names 20) 256 = Ok 164%nat.
Proof. split; vm_compute; reflexivity. Qed.
