(* ===== verification/StaticDynamic.v ===== *)
(** * Generated and dynamic messages on the wire

    A message type is known to the program in two ways: as a struct that the generator
    emitted (RustGen.v), and as a schema that is built from the same definition at run
    time (DynRegistry.v).  Their mappings of the builtin types differ ([byte] is [u8] in
    the one and [int8] in the other, [char] the other way round; [uint8[]] and [byte[]]
    are buffers in the one only), but a message of a generated type that is published is
    read by a dynamic subscription as the message of the same content. *)
From S2P Require Import Prelude CdrBuffer Utf8 RustStr CdrPrimitives CdrSpec CdrSerializer CdrDeserializer CdrSerde CdrCodec.
From S2P Require Import SchemaModel MsgParser Resolver RustGen RustGenProps DynTypes DynCdr DynRegistry.
Open Scope string_scope.

#[local] Existing Instance LittleEndian.

(** ** Definitions *)

Definition inner_type (t : FieldType) : FieldType :=
  match t with TyArray t _ | TySequence t | TyBoundedSequence t _ => t | _ => t end.
(** The dynamic value of the content of a generated one. *)
Definition int8_of_byte (b : byte) : DynamicValue := VlInt8 (wrap_i 8 (u8_of_byte b)).
Fixpoint dynamic_value (t : FieldType) (v : sval) {struct v} : DynamicValue :=
  match v with
  | VBool b => VlBool b
  | VI8 z => match t with TyUint8 => VlUint8 (wrap_u 8 z) | _ => VlInt8 z end
  | VU8 z => match t with TyInt8 => VlInt8 (wrap_i 8 z) | _ => VlUint8 z end
  | VI16 z => VlInt16 z
  | VU16 z => VlUint16 z
  | VI32 z => VlInt32 z
  | VU32 z => VlUint32 z
  | VI64 z => VlInt64 z
  | VU64 z => VlUint64 z
  | VF32 z => VlFloat32 z
  | VF64 z => VlFloat64 z
  | VStr s => VlString s
  | VBytes bs => match inner_type t with TyInt8 => VlArray (map int8_of_byte bs) | _ => VlBytes bs end
  | VTuple vs | VSeq _ vs => VlArray (map (dynamic_value (inner_type t)) vs)
  | VStruct vs =>
      match t with
      | TyMessage s =>
          VlMessage (mkMessage s
            ((fix go (fs : list FieldSchema) (vs : list sval) {struct vs} : list DynamicValue :=
                match fs, vs with
                | f :: fs, v :: vs => dynamic_value (field_type f) v :: go fs vs
                | _, _ => []
                end) (fields s) vs))
      | _ => VlBool false
      end
  | _ => VlBool false
  end.
Definition dynamic_message (s : MessageSchema) (v : sval) : DynamicMessage :=
  match dynamic_value (TyMessage s) v with VlMessage m => m | _ => mkMessage s [] end.

(** The schemas of the resolver are those of the messages. *)
Definition schemas_of (messages : string -> string -> option ParsedMessage) (resolver : string -> string -> option MessageSchema) : Prop :=
  forall p n s, resolver p n = Some s -> exists m, messages p n = Some m /\ parsed_message_to_schema resolver m = Ok s.

(** The decoder's limits: on sequences, which hold at most 10^8 elements, for the
    buffers too, and on fixed arrays, which have to fit in a vector of values. *)
Fixpoint buffers_short `{DL : DynLayout} (v : sval) : Prop :=
  match v with
  | VBytes bs => (Z.of_nat (length bs) <= MAX_SEQUENCE_LENGTH)%Z
  | VTuple vs => vec_fits (length vs) = true /\ all buffers_short vs
  | VSeq _ vs | VStruct vs => all buffers_short vs
  | _ => True
  end.

(** ** Lemmas *)

Section Encodings.
Context `{DL : DynLayout}.

Lemma wrap_u_wrap_i z : wrap_u 8 (wrap_i 8 z) = wrap_u 8 z.
Proof.
  unfold wrap_u, wrap_i. change (2 ^ (8 - 1))%Z with 128%Z. rewrite Zminus_mod_idemp_l. f_equal. lia.
Qed.
Lemma wrap_i_range8 z : i_range 8 (wrap_i 8 z).
Proof. apply wrap_i_range. lia. Qed.
Lemma wrap_i_u8 z : u_range 8 z -> wrap_u 8 (wrap_i 8 z) = z.
Proof. intros H. rewrite wrap_u_wrap_i. by apply wrap_u_id. Qed.
Lemma u8_range b : u_range 8 (u8_of_byte b).
Proof. pose proof (u8_of_byte_range b). unfold u_range. lia. Qed.

Lemma dynamic_struct s vs : dynamic_value (TyMessage s) (VStruct vs) =
  VlMessage (mkMessage s (zip_with (fun f v => dynamic_value (field_type f) v) (fields s) vs)).
Proof.
  cbn [dynamic_value]. do 2 f_equal. generalize (fields s). induction vs as [|v vs IH]; intros [|f fs]; cbn; [done..|].
  by rewrite <- IH.
Qed.

(** The encodings of the two forms agree. *)
Definition agrees (t : FieldType) (v : sval) : Prop :=
  typed false t (dynamic_value t v) /\ forall p, enc_sval v p = enc_value t (dynamic_value t v) p.

Lemma enc_list_ext {A B} (f : A -> encoding) (g : B -> encoding) (h : A -> B) l p :
  Forall (fun a => forall p, f a p = g (h a) p) l -> enc_list f l p = enc_list g (map h l) p.
Proof.
  intros F. revert p. induction F as [|a l Ha _ IH]; intros p; [done|].
  cbn [enc_list foldr map]. unfold enc_seq. rewrite Ha. f_equal. apply IH.
Qed.
Lemma enc_seq_ext e e1 e2 p : (forall p, e1 p = e2 p) -> (e ;+ e1) p = (e ;+ e2) p.
Proof. intros H. unfold enc_seq. by rewrite H. Qed.

Lemma agrees_list t vs : Forall (agrees t) vs ->
  all (typed false t) (map (dynamic_value t) vs) /\ forall p, enc_list enc_sval vs p = enc_list (enc_value t) (map (dynamic_value t) vs) p.
Proof.
  intros F. split.
  - apply all_Forall, Forall_map. apply (Forall_impl _ _ _ F). by intros v [].
  - intros p. apply enc_list_ext. apply (Forall_impl _ _ _ F). by intros v [].
Qed.
Lemma agrees_array t n vs : length vs = n -> vec_fits n = true -> Forall (agrees t) vs -> agrees (TyArray t n) (VTuple vs).
Proof.
  intros L Hf F. destruct (agrees_list t vs F) as [T En]. split; [split; [by rewrite length_map | done]|]. exact En.
Qed.
Lemma agrees_sequence t h vs max : (Z.of_nat (length vs) <= MAX_SEQUENCE_LENGTH)%Z -> Forall (agrees t) vs ->
  agrees (TySequence t) (VSeq h vs) /\ agrees (TyBoundedSequence t max) (VSeq h vs).
Proof.
  intros L F. destruct (agrees_list t vs F) as [T En].
  assert (E' : forall p, enc_sval (VSeq h vs) p =
    (enc_order 4 (Z.of_nat (length (map (dynamic_value t) vs))) ;+ enc_list (enc_value t) (map (dynamic_value t) vs)) p).
  { intros p. rewrite length_map. cbn [enc_sval]. by apply enc_seq_ext. }
  split; (split; [split; [by rewrite length_map | done] | exact E']).
Qed.

Lemma agrees_prim p w v : prim_value p v ->
  (match p, w with
   | PBool, TyBool | PU8, TyInt8 | PU8, TyUint8 | PI8, TyInt8 | PI8, TyUint8 | PU16, TyUint16 | PI16, TyInt16
   | PU32, TyUint32 | PI32, TyInt32 | PU64, TyUint64 | PI64, TyInt64 | PF32, TyFloat32 | PF64, TyFloat64 => True
   | _, _ => False end) -> agrees w v.
Proof.
  intros V W. destruct p, w; try done; destruct v; try done; cbn in V; (split; [done || apply wrap_i_range8 || by apply wrap_u_range|]);
    intros q; cbn [enc_sval enc_value dynamic_value]; try done.
  by rewrite wrap_i_u8.
Qed.

Lemma agrees_bytes t bs : (Z.of_nat (length bs) <= MAX_SEQUENCE_LENGTH)%Z -> t = TyUint8 \/ t = TyInt8 -> agrees (TySequence t) (VBytes bs).
Proof.
  intros L [-> | ->].
  - split; [|done]. split; [done|]. by apply max_sequence_length_u32.
  - split.
    + split; [by rewrite length_map|]. apply all_Forall, Forall_map, Forall_forall. intros b _. apply wrap_i_range8.
    + intros p. cbn [enc_sval enc_value dynamic_value inner_type]. unfold enc_bytes. rewrite length_map. apply enc_seq_ext.
      intros q. unfold enc_raw. revert q. induction bs as [|b bs IH]; intros q; [done|]. cbn [map enc_list foldr]. unfold enc_seq. cbn.
      rewrite wrap_i_u8 by apply u8_range. rewrite byte_of_Z_u8. f_equal. apply IH. cbn in L. lia.
Qed.

End Encodings.

Section Agreement.
Context `{DL : DynLayout} `{SL : SynLaws} `{HX : HexApi} (messages : string -> string -> option ParsedMessage) (crates : Crates).
Context (resolver : string -> string -> option MessageSchema).
Context (HG : generated messages crates) (HS : schemas_of messages resolver).
Abbreviation value := (value_of crates).

Lemma builtin_prim b w : (b, w) ∈ builtin_types ->
  (exists p, prim_of b = Some p /\ forall v, prim_value p v -> agrees w v) \/ (b = "string" /\ w = TyString).
Proof.
  intros B. apply primitive_builtin in B. revert B. unfold primitive_type.
  repeat (match goal with |- context [String.eqb b ?s] => destruct (String.eqb_spec b s) as [->|] end; cbn [orb]);
    intros [= <-]; try (by right); left; eexists; (split; [reflexivity|]); intros v V; by eapply agrees_prim.
Qed.
Lemma byte_builtin b w : is_byte b = true -> (b, w) ∈ builtin_types -> w = TyUint8 \/ w = TyInt8.
Proof.
  unfold is_byte, is_one_of. cbn [existsb]. intros I B. apply primitive_builtin in B. revert I B.
  destruct (String.eqb_spec b "uint8") as [->|]; [intros _ [= <-]; by left|].
  destruct (String.eqb_spec b "byte") as [->|]; [intros _ [= <-]; by right | done].
Qed.

Definition with_single (ft : PFieldType) : PFieldType := mkPFieldType (base_type ft) (ft_package ft) Single (string_bound ft).
Lemma denotes_single ft dt : denotes resolver ft dt -> exists w, dt = of_array (array ft) w /\ denotes resolver (with_single ft) w.
Proof.
  intros [w B|n rest B R|p s P R N1 N2]; eexists; (split; [reflexivity|]).
  - by apply (denotes_builtin _ (with_single ft)).
  - by apply (denotes_bounded _ (with_single ft) n rest).
  - by apply (denotes_message _ (with_single ft) p s).
Qed.

(** The values of a type without its array. *)
Definition single_agrees (w : FieldType) : Prop :=
  forall c pkg ctx ft t v, base_kind pkg ctx ft t -> denotes resolver (with_single ft) w -> path_exists crates c t ->
    value c t v -> buffers_short v -> agrees w v.

Lemma single_scalar w : scalar_type w = true -> single_agrees w.
Proof.
  intros Sc c pkg ctx ft t v K D X V _. inversion D as [w' B E|n rest B R E|p s P R N1 N2 E]; cbn in *; subst; [| |done].
  - destruct (builtin_prim _ _ B) as [(p & P & A)|[S ->]].
    + destruct K as [p' P'|S|t' N _ _ _]; [|by rewrite S in P|by rewrite N in P].
      rewrite P in P'. injection P' as <-. apply A. by eapply value_prim.
    + destruct K as [p' P'|_|t' N Ns _ _]; [by rewrite S in P'| |done].
      inversion V; subst; [|done]. split; [done|]. done.
  - exfalso. destruct K as [p' P'|S|t' N Ns F _].
    + by rewrite B in P'.
    + by rewrite B in S.
    + rewrite B in F. unfold format_ident in F.
      change (RustStr.strip_prefix _ _) with (@None string) in F. cbn iota in F.
      destruct (ident_ok _) eqn:I in F.
      * apply ident_no_bound in I. discriminate I.
      * discriminate F.
Qed.

Lemma array_agrees c pkg ctx pf fd w v :
  generate_field_def_with_context pf pkg ctx = Ok fd -> denotes resolver (with_single (pf_type pf)) w -> single_agrees w ->
  (forall t, t = fd_type fd \/ t = item_type (fd_type fd) -> path_exists crates c t) ->
  value c (fd_type fd) v -> buffers_short v -> agrees (of_array (array (pf_type pf)) w) v.
Proof.
  unfold generate_field_def_with_context. intros G D A X V Sh.
  destruct (escape_field_name (E := string) (pf_name pf)) as [name| |]; [|done..]. cbn [mbind res_bind] in G.
  unfold generate_field_type_tokens_with_context in G.
  destruct (generate_base_type_tokens_with_context (pf_type pf) pkg ctx) as [base| |] eqn:B; [|done..]. cbn [mbind res_bind] in G.
  apply base_type_kind in B. match type of G with (?m ≫= _) = _ => destruct m; [|done..] end. cbn [mbind res_bind] in G.
  injection G as <-. cbn [fd_type] in *.
  assert (forall vs, path_exists crates c base -> Forall (value c base) vs -> all buffers_short vs -> Forall (agrees w) vs) as L.
  { intros vs Xb F S. apply all_Forall in S. apply Forall_forall. intros x Hx. rewrite Forall_forall in F, S.
    apply (A c pkg ctx (pf_type pf) base x); auto. }
  destruct (array (pf_type pf)) as [|n|n|]; cbn [of_array].
  - apply (A c pkg ctx (pf_type pf) base v); auto.
  - destruct (value_array _ _ _ _ _ V) as (vs & -> & <- & F). rewrite Nat2Z.id. destruct Sh as [Sf Sh]. apply agrees_array; [done|done|]. apply L; auto.
  - inversion V; subst; [|done]. apply (agrees_sequence w (Some (length vs)) vs (Z.to_nat n)); [done|]. apply L; auto.
  - destruct (is_byte (base_type (pf_type pf))) eqn:Ib.
    + destruct (value_zbuf _ _ _ V) as [bs ->]. apply agrees_bytes; [done|].
      inversion D as [w' B' E|m rest B' R E|p s P R N1 N2 E]; cbn [with_single base_type ft_package array of_array] in *; subst.
      * by eapply byte_builtin.
      * rewrite B' in Ib. done.
      * exfalso. apply primitive_none in N1. revert Ib N1. unfold is_byte, is_one_of. cbn [existsb].
        destruct (String.eqb_spec (base_type (pf_type pf)) "uint8") as [->|]; [done|].
        by destruct (String.eqb_spec (base_type (pf_type pf)) "byte") as [->|].
    + inversion V; subst; [|done]. apply (agrees_sequence w (Some (length vs)) vs 0%nat); [done|]. apply L; auto.
Qed.

Definition inner_agrees (w : FieldType) : Prop :=
  single_agrees w /\ match w with TyArray i _ | TySequence i | TyBoundedSequence i _ => single_agrees i | _ => True end.

Lemma single_no_array w : scalar_type w = false -> (forall s, w <> TyMessage s) -> single_agrees w.
Proof.
  intros Sc Nm c pkg ctx ft t v _ D. exfalso.
  inversion D as [w' B E|n rest B R E|p s P R N1 N2 E]; cbn in *; subst; [|done|by destruct (Nm s)].
  destruct (builtin_prim _ _ B) as [(p & P & _)|[_ ->]]; [|done].
  apply primitive_builtin in B. unfold primitive_type in B. repeat case_match; simplify_eq.
Qed.

(** The message that a resolved path stands for, and the schema of its name. *)
Lemma message_fields c t c' i p n s : (t = RSuper p n \/ exists krate, t = RExternal krate p n) ->
  resolve_path crates c t = Some (c', i) -> resolver p n = Some s ->
  exists pkg ctx pfs,
    Forall2 (fun pf fd => generate_field_def_with_context pf pkg ctx = Ok fd) pfs (sd_fields (mi_struct i)) /\
    Forall2 (field_denotes resolver) pfs (fields s) /\
    Forall (fun f => forall t, t = fd_type f \/ t = item_type (fd_type f) -> path_exists crates c' t) (sd_fields (mi_struct i)).
Proof.
  intros T R S. assert (C : crates c' p n = Some i).
  { destruct T as [->|[k ->]]; cbn in R; destruct (crates _ p _) eqn:E; by simplify_eq/=. }
  destruct (HG _ _ _ _ C) as (ctx & m & M & <- & _ & G & _ & D).
  destruct (HS _ _ _ S) as (m' & M' & Ps). rewrite M in M'. injection M' as <-.
  exists (pm_package (rm_parsed m)), ctx, (pm_fields (rm_parsed m)).
  unfold generate_message_impl_with_context, generate_struct_with_context in G. res_inv. cbn [mi_struct sd_fields] in *.
  unfold parsed_message_to_schema in Ps. pose proof (convert_fields_spec resolver (pm_fields (rm_parsed m))) as F. cbv zeta in F.
  destruct (traverse _ (pm_fields (rm_parsed m))) as [l| |] in F, Ps; [|done..]. cbn [mbind res_bind] in Ps. injection Ps as <-.
  split_and!; [by apply traverse_inv | done | done].
Qed.

Lemma agrees_fields c pkg ctx pfs fds fs vs :
  Forall2 (fun pf fd => generate_field_def_with_context pf pkg ctx = Ok fd) pfs fds ->
  Forall2 (field_denotes resolver) pfs fs -> Forall (fun f => inner_agrees (field_type f)) fs ->
  Forall (fun f => forall t, t = fd_type f \/ t = item_type (fd_type f) -> path_exists crates c t) fds ->
  Forall2 (fun f v => value c (fd_type f) v) fds vs -> all buffers_short vs ->
  let ds := zip_with (fun f v => dynamic_value (field_type f) v) fs vs in
  all2 (field_typed false) fs ds /\ forall p, enc_list enc_sval vs p = foldr enc_seq enc_nil (zip_with enc_field fs ds) p.
Proof.
  intros G. revert fs vs. induction G as [|pf fd pfs fds Hf G IH]; intros fs vs D A X V Sh;
    inversion D as [|? f ? fs' Hd D']; inversion V as [|? v ? vs' Hv V']; subst; [done|].
  apply Forall_cons in A as [A As]. apply Forall_cons in X as [X Xs]. destruct Sh as [Sv Sh].
  destruct (IH fs' vs' D' As Xs V' Sh) as [T En]. destruct Hd as (_ & _ & Hd).
  destruct (denotes_single _ _ Hd) as (w & Ew & Dw).
  assert (single_agrees w) as Aw.
  { destruct A as [A1 A2]. rewrite Ew in A1, A2. by destruct (array (pf_type pf)). }
  destruct (array_agrees c pkg ctx pf fd w v Hf Dw Aw X Hv Sv) as [Tv Ev]. rewrite <- Ew in Tv, Ev.
  cbn [zip_with all2 foldr]. split.
  - split; [by rewrite field_typed_eq | done].
  - intros p. change (enc_list enc_sval (v :: vs')) with (enc_sval v ;+ enc_list enc_sval vs'). unfold enc_seq at 1 2.
    rewrite enc_field_eq, Ev. f_equal. apply En.
Qed.

Lemma message_agrees c t p n s v : (t = RSuper p n \/ exists krate, t = RExternal krate p n) -> path_exists crates c t ->
  resolver p n = Some s -> Forall (fun f => inner_agrees (field_type f)) (fields s) ->
  value c t v -> buffers_short v -> agrees (TyMessage s) v.
Proof.
  intros T X R IH V Sh.
  assert (is_Some (resolve_path crates c t)) as [[c' i] Rp] by by destruct T as [->|[k ->]].
  destruct (message_fields _ _ _ _ _ _ _ T Rp R) as (pkg & ctx & pfs & Fd & Dn & Xs).
  assert (exists vs, v = VStruct vs /\ Forall2 (fun f v => value c' (fd_type f) v) (sd_fields (mi_struct i)) vs) as (vs & -> & F).
  { destruct T as [->|[k ->]]; inversion V; simplify_eq; eauto. }
  destruct (agrees_fields c' pkg ctx pfs _ (fields s) vs Fd Dn IH Xs F Sh) as [Ty En].
  destruct s as [tn pk nm fs h]. unfold agrees. rewrite dynamic_struct. split; [split; done | exact En].
Qed.

Lemma type_agrees w : inner_agrees w.
Proof.
  induction w as [w Sc|s IH|w n IH|w IH|w n IH] using field_type_nested_ind.
  - split; [by apply single_scalar | by destruct w].
  - split; [|done]. intros c pkg ctx ft t v K D X V Sh.
    inversion D as [w' B E|n rest B R E|p s' P R N1 N2 E]; cbn [with_single base_type ft_package array of_array] in *.
    + destruct (builtin_prim _ _ B) as [(p & P & _)|[_ ->]]; [|done].
      apply primitive_builtin in B. unfold primitive_type in B. repeat case_match; simplify_eq.
    + subst s'. destruct K as [p' P'|S|t N Ns _ T].
      * exfalso. apply primitive_none in N1. revert P' N1. clear. unfold prim_of, primitive_type, is_one_of. cbn [existsb].
        repeat (match goal with |- context [String.eqb ?b ?s] => destruct (String.eqb_spec b s) as [->|] end; cbn [orb]); try done.
        destruct (base_type ft =? "bool")%string; done.
      * exfalso. apply primitive_none in N1. by rewrite S in N1.
      * rewrite P in T. by eapply message_agrees.
  - split; [|apply IH]. by apply single_no_array.
  - split; [|apply IH]. by apply single_no_array.
  - split; [|apply IH]. by apply single_no_array.
Qed.

(** C36 Two views of one type: a message of a generated type, published as CDR, is to a
    dynamic subscription with the schema of the same definition the message of the same
    content; and the dynamic message with that content is published as the same bytes.
    This in spite of [byte] and [char] being signed in one view and not in the other,
    and for values within the decoder's limits: sequences of at most 10^8 elements and
    fixed arrays that fit in a vector. *)
Theorem generated_read_dynamically {ZBuf} `{ZL : ZBufLaws ZBuf} debug_value debug_type c p n s v hint :
  is_Some (crates c p n) -> resolver p n = Some s -> value c (RSuper p n) v -> buffers_short v ->
  let m := dynamic_message s v in
  exists bytes, to_vec (ZBuf := ZBuf) v hint = Ok bytes /\ message_typed false s m /\
    serialize_cdr (ZBuf := ZBuf) debug_value debug_type m = Ok (CDR_HEADER_LE ++ bytes)%list /\
    from_cdr (CDR_HEADER_LE ++ bytes)%list s = Ok (norm_message s m).
Proof.
  intros [i C] R V Sh m. exists (enc_sval v 0%nat). split; [by eapply value_to_vec|].
  assert (agrees (TyMessage s) v) as [T En].
  { eapply (message_agrees c (RSuper p n)); [by left | | done | | done | done].
    - cbn. rewrite C. by eexists.
    - apply Forall_forall. intros f _. apply type_agrees. }
  assert (exists vs, v = VStruct vs) as [vs ->] by (inversion V; eauto).
  unfold m, dynamic_message in *. rewrite dynamic_struct in *.
  split; [exact T|]. rewrite En. split; [by apply serialize_cdr_enc | by apply deserialize_cdr_enc].
Qed.
End Agreement.

(** ** An example *)

#[local] Existing Instance ex_layout.
#[local] Existing Instances ex_syn ex_hex.
#[local] Instance ex_syn_laws : SynLaws.
Proof.
  split. intros s I. apply andb_true_iff in I as [_ I]. induction s as [|a s IH]; [done|].
  apply andb_true_iff in I as [Ia I]. cbn [contains_char]. rewrite IH by done. rewrite orb_false_r.
  destruct (Ascii.eqb_spec a "<") as [->|]; [discriminate Ia | done].
Qed.
(** The resolver of the messages of RustGenProps.v. *)
Definition ex_schema_of (n : string) (resolver : string -> string -> option MessageSchema) : option MessageSchema :=
  m ← ex_messages "pkg" n;
  match parsed_message_to_schema resolver m with Ok s => Some s | _ => None end.
Definition ex_resolver_names : string -> string -> option MessageSchema := fun p n =>
  if String.eqb p "pkg" && String.eqb n "Names" then ex_schema_of "Names" (fun _ _ => None) else None.
Definition ex_resolver : string -> string -> option MessageSchema := fun p n =>
  if String.eqb p "pkg" && String.eqb n "Holder" then ex_schema_of "Holder" ex_resolver_names else ex_resolver_names p n.
Lemma ex_schemas : schemas_of ex_messages ex_resolver.
Proof.
  intros p n s. unfold ex_resolver, ex_resolver_names.
  destruct (String.eqb_spec p "pkg") as [->|]; [|done]. cbn [andb].
  destruct (String.eqb_spec n "Holder") as [->|]; [|destruct (String.eqb_spec n "Names") as [->|]; [|done]];
    intros S; eexists; (split; [reflexivity|]); vm_compute in S; injection S as <-; vm_compute; reflexivity.
Qed.
Definition ex_holder_schema : MessageSchema := default (mkSchema "" "" "" [] None) (ex_resolver "pkg" "Holder").
Lemma generated_read_dynamically_witness :
  exists bytes, to_vec (ZBuf := list (list byte)) ex_holder 256 = Ok bytes /\
    from_cdr (CDR_HEADER_LE ++ bytes)%list ex_holder_schema = Ok (norm_message ex_holder_schema (dynamic_message ex_holder_schema ex_holder)).
Proof.
  destruct (generated_read_dynamically (ZBuf := list (list byte)) ex_messages ex_crates ex_resolver ex_generated ex_schemas
    (fun _ => "") (fun _ => "") "c" "pkg" "Holder" ex_holder_schema ex_holder 256 ltac:(vm_compute; by eexists) eq_refl ex_holder_value)
    as (bytes & T & _ & _ & D); [vm_compute; intuition congruence|].
  by exists bytes.
Defined.
