(* ===== verification/ConsoleText.v ===== *)
(** * Text of the console
    (crates/ros-z-console/src/app/render/common.rs, input.rs, core/events.rs)

    What the console does with strings and numbers: the [char]s of a [str] and
    slicing at byte positions, truncation, the highlighting of what a filter
    matches, rates as text, and the text of a QoS profile.  A binary64 is the
    [spec_float] of the Standard Library; a [char] is its UTF-8 bytes.  The
    lower case of a [str] needs the tables of Unicode and is a parameter
    ([Lowercase]), which is known on ASCII. *)
From stdpp Require Import list strings.
From Stdlib Require Import SpecFloat.
From S2P Require Import Prelude RustStr RustText RustColl ProfileQos.
From S2P Require Qos.
Open Scope string_scope.

(** ** Definitions *)

(** *** [char]s *)

(** A byte that does not start a [char]. *)
Definition is_continuation (a : ascii) : bool := (128 <=? code a)%Z && (code a <? 192)%Z.
Definition starts_char (s : string) : bool :=
  match s with EmptyString => true | String a _ => negb (is_continuation a) end.
(** [s.chars()]; a continuation byte belongs to the [char] before it. *)
Fixpoint chars (s : string) : list string :=
  match s with
  | EmptyString => []
  | String a r =>
      match chars r with
      | c :: cs => if starts_char c then String a "" :: c :: cs else String a c :: cs
      | [] => [String a ""]
      end
  end.
(** [collect::<String>()]. *)
Fixpoint collect (l : list string) : string := match l with [] => "" | c :: l => c ++ collect l end.
(** A value of [char]. *)
Definition is_char (c : string) : Prop := chars c = [c] /\ starts_char c = true.

(** [s.is_char_boundary(i)] *)
Definition is_char_boundary (s : string) (i : nat) : bool :=
  Nat.eqb i 0 ||
  match String.get i s with Some a => negb (is_continuation a) | None => Nat.eqb i (String.length s) end.
(** [&s\[a..b\]], [&s\[a..\]] and [String::insert]. *)
Definition slice_str {E} (s : string) (a b : nat) : res E string :=
  if (a <=? b)%nat && is_char_boundary s a && is_char_boundary s b then Ok (String.substring a (b - a) s) else Panic.
Definition slice_str_from {E} (s : string) (a : nat) : res E string := slice_str s a (String.length s).
Definition string_insert {E} (s : string) (idx : nat) (ch : string) : res E string :=
  if is_char_boundary s idx
  then Ok (String.substring 0 idx s ++ ch ++ String.substring idx (String.length s - idx) s) else Panic.
(** [s.char_indices().map(|(i, _)| i).nth(n)] *)
Definition char_index (s : string) (n : nat) : option nat :=
  if (n <? length (chars s))%nat then Some (String.length (collect (take n (chars s)))) else None.

Class Lowercase := to_lowercase : string -> string.
Class LowercaseLaws `{Lowercase} := {
  to_lowercase_ascii : forall s, all_chars (fun a => (code a <? 128)%Z) s = true -> to_lowercase s = lowercase s;
  to_lowercase_ne : forall s, s <> "" -> to_lowercase s <> "";
}.

(** *** Numbers *)

Definition f64 : Type := spec_float.
(** [n as f64], the operations, the comparisons, and [x as u64]. *)
Definition f64_of_Z (n : Z) : f64 := binary_normalize 53 1024 n 0 false.
Definition f64_add : f64 -> f64 -> f64 := SFadd 53 1024.
Definition f64_sub : f64 -> f64 -> f64 := SFsub 53 1024.
Definition f64_mul : f64 -> f64 -> f64 := SFmul 53 1024.
Definition f64_div : f64 -> f64 -> f64 := SFdiv 53 1024.
Definition f64_ge (x y : f64) : bool := SFleb y x.
Definition f64_gt (x y : f64) : bool := SFltb y x.
Definition f64_as_u64 (x : f64) : Z :=
  match x with
  | S754_zero _ | S754_nan | S754_infinity true | S754_finite true _ _ => 0
  | S754_infinity false => 2 ^ 64 - 1
  | S754_finite false m e => Z.min (2 ^ 64 - 1) (if (0 <=? e)%Z then Z.pos m * 2 ^ e else Z.pos m / 2 ^ (- e))
  end%Z.

(** [format!("{:.k}", x)]: the nearest decimal, ties to even. *)
Definition round_half_even (num den : Z) : Z :=
  let q := (num / den)%Z in
  let r := (2 * (num mod den))%Z in
  if ((den <? r) || ((r =? den) && Z.odd q))%Z then (q + 1)%Z else q.
Fixpoint zeros (n : nat) : string := match n with O => "" | S n => "0" ++ zeros n end.
Definition pad_left (k : nat) (s : string) : string := zeros (k - String.length s) ++ s.
Definition decimals (k : nat) (q : Z) : string :=
  Z_dec (q / 10 ^ Z.of_nat k) ++ match k with O => "" | S _ => "." ++ pad_left k (Z_dec (q mod 10 ^ Z.of_nat k)) end.
Definition f64_fixed (k : nat) (x : f64) : string :=
  let sign (s : bool) := if s then "-" else "" in
  match x with
  | S754_nan => "NaN"
  | S754_infinity s => sign s ++ "inf"
  | S754_zero s => sign s ++ decimals k 0
  | S754_finite s m e =>
      sign s ++ decimals k (round_half_even (Z.pos m * 2 ^ Z.max e 0 * 10 ^ Z.of_nat k) (2 ^ Z.max (- e) 0))
  end.

(** *** common.rs *)

Definition protocol_qos_to_ros_z (qos : Qos.QosProfile) : QosProfile :=
  mkProfile
    match Qos.reliability qos with Qos.Reliable => Reliable | Qos.BestEffort => BestEffort end
    match Qos.durability qos with Qos.TransientLocal => TransientLocal | Qos.Volatile => Volatile end
    match Qos.history qos with Qos.KeepLast depth => from_depth depth | Qos.KeepAll => KeepAll end
    INFINITE INFINITE Automatic INFINITE.
Definition format_qos_detail (qos : Qos.QosProfile) : string :=
  let qos := protocol_qos_to_ros_z qos in
  let unless_infinite (label : string) (d : Duration) :=
    if decide (d <> INFINITE) then ["    " ++ label ++ ": " ++ Duration_fmt d] else [] in
  let fixed := [
    "    Reliability: " ++ QosReliability_fmt (reliability qos);
    "    Durability: " ++ QosDurability_fmt (durability qos);
    "    History: " ++ QosHistory_fmt (history qos);
    "    Liveliness: " ++ QosLiveliness_fmt (liveliness qos)] in
  String.concat (String newline "")
    (fixed ++ unless_infinite "Deadline" (deadline qos) ++ unless_infinite "Lifespan" (lifespan qos)
       ++ unless_infinite "Lease Duration" (liveliness_lease_duration qos))%list.

Definition truncate_with_ellipsis {E} (text : string) (max_len : nat) : res E string :=
  if (String.length text <=? max_len)%nat then Ok text
  else if (max_len <=? 3)%nat then Ok "..."
  else t ← slice_str text 0 (max_len - 3); Ok (t ++ "...").
Definition expand_indicator (expanded : bool) : string := if expanded then "[-]" else "[+]".
Definition section_marker (focused selected : bool) : string := if focused && selected then " > " else "   ".

(** The styles of spans: the one of a list item, selected or not, what a filter
    matches in it, and a colour. *)
Inductive Color := Green | DarkGray | Blue | Magenta | Cyan.
Inductive Style := Item (is_selected : bool) | Match (is_selected : bool) | Fg (c : Color).
#[local] Abbreviation Span := (Style * string)%type.
Definition list_item_style (is_selected : bool) : Style := Item is_selected.
Definition highlight (base_style : Style) : Style :=
  match base_style with Item s => Match s | _ => base_style end.

Section Highlight.
Context `{Lowercase}.
(** The loop, from [start]; its fuel is one more than the length of [text_lower].
    [None] is fuel that was not enough. *)
Fixpoint highlight_loop {E} (fuel : nat) (text text_lower filter_lower : string) (base_style : Style) (start : nat)
    : option (res E (list Span)) :=
  match fuel with
  | O => None
  | S fuel =>
      match slice_str_from text_lower start with
      | Ok rest =>
          match find_str filter_lower rest with
          | None =>
              Some (if (start <? String.length text)%nat
                    then t ← slice_str_from text start; Ok [(base_style, t)] else Ok [])
          | Some pos =>
              let match_start := (start + pos)%nat in
              let match_end := (match_start + String.length filter_lower)%nat in
              let spans := before ← (if (start <? match_start)%nat
                                     then t ← slice_str text start match_start; Ok [(base_style, t)] else Ok []);
                           m ← slice_str text match_start match_end;
                           Ok (before ++ [(highlight base_style, m)])%list in
              match spans with
              | Ok spans =>
                  rest ← highlight_loop fuel text text_lower filter_lower base_style match_end;
                  Some (rest ← rest; Ok (spans ++ rest)%list)
              | Err e => Some (Err e)
              | Panic => Some Panic
              end
          end
      | Err e => Some (Err e)
      | Panic => Some Panic
      end
  end.
(** The loop ends: [highlight_loop_returns]. *)
Definition create_highlighted_spans {E} (text filter_text : string) (base_style : Style) : res E (list Span) :=
  if String.eqb filter_text "" then Ok [(base_style, text)] else
  let text_lower := to_lowercase text in
  default Panic (highlight_loop (S (String.length text_lower)) text text_lower (to_lowercase filter_text) base_style 0).

(** [matches_filter]. *)
Definition contains_str (s pat : string) : bool := match find_str pat s with Some _ => true | None => false end.
Definition matches_filter (filter_text item : string) : bool :=
  String.eqb filter_text "" || contains_str (to_lowercase item) (to_lowercase filter_text).
Definition filter_items {T} (items : list T) (filter_text : string) (extract_fn : T -> list string) : list T :=
  List.filter (fun item => existsb (matches_filter filter_text) (extract_fn item)) items.
End Highlight.

Definition RATE_THRESHOLD_KHZ : f64 := f64_of_Z 1000.
Definition RATE_THRESHOLD_HZ : f64 := f64_of_Z 100.
Definition RATE_THRESHOLD_DHZ : f64 := f64_of_Z 10.
Definition format_rate (rate : f64) (is_fresh : bool) : string * Color :=
  if negb is_fresh then (" " ++ f64_fixed 0 rate ++ "*", DarkGray)
  else if f64_ge rate RATE_THRESHOLD_KHZ then (" " ++ f64_fixed 1 (f64_div rate RATE_THRESHOLD_KHZ) ++ "k", Green)
  else if f64_ge rate RATE_THRESHOLD_HZ then (" " ++ f64_fixed 0 rate, Green)
  else if f64_ge rate RATE_THRESHOLD_DHZ then (" " ++ f64_fixed 1 rate, Green)
  else if f64_gt rate (f64_of_Z 0) then (" " ++ f64_fixed 2 rate, Green)
  else (" 0", DarkGray).

(** ** Properties *)

(** *** [char]s *)

Lemma collect_app l l' : collect (l ++ l')%list = collect l ++ collect l'.
Proof. induction l as [|c l IH]; cbn; [done|]. by rewrite IH, app_assoc_str. Qed.

Lemma collect_chars s : collect (chars s) = s.
Proof.
  induction s as [|a s IH]; [done|]. cbn [chars].
  destruct (chars s) as [|c cs]; cbn in *; [by rewrite <- IH|]. destruct (starts_char c); cbn; congruence.
Qed.

Lemma chars_head a s : exists c cs, chars (String a s) = String a c :: cs.
Proof. cbn. destruct (chars s) as [|c cs]; [eauto|]. destruct (starts_char c); eauto. Qed.

Lemma chars_app c s : starts_char s = true -> chars (c ++ s) = (chars c ++ chars s)%list.
Proof.
  intros H. induction c as [|a c IH]; [done|]. cbn [String.append chars]. rewrite IH.
  destruct c as [|b c].
  - destruct s as [|b s]; [done|]. destruct (chars_head b s) as (d & ds & E). rewrite E.
    cbn in *. by rewrite H.
  - destruct (chars_head b c) as (d & ds & E). rewrite E. cbn. by destruct (negb _).
Qed.

Lemma starts_char_app c s : starts_char c = true -> starts_char s = true -> starts_char (c ++ s) = true.
Proof. by destruct c. Qed.

Lemma starts_char_collect l : Forall is_char l -> starts_char (collect l) = true.
Proof. induction 1 as [|c l [_ Hc] Hl IH]; [done|]. by apply starts_char_app. Qed.

Lemma chars_collect l : Forall is_char l -> chars (collect l) = l.
Proof.
  induction 1 as [|c l [Ec Hc] Hl IH]; [done|]. cbn [collect].
  rewrite chars_app by by apply starts_char_collect. by rewrite Ec, IH.
Qed.

Lemma chars_valid s : starts_char s = true -> Forall is_char (chars s).
Proof.
  enough (A : forall s, Forall is_char (chars s) \/
                   exists c cs, chars s = c :: cs /\ starts_char c = false /\ chars c = [c] /\ Forall is_char cs).
  { intros H. destruct (A s) as [|(c & cs & E & Hc & _)]; [done|].
    destruct s as [|a s]; [done|]. destruct (chars_head a s) as (d & ds & E').
    rewrite E in E'. injection E' as -> ->. cbn in *. congruence. }
  clear s. induction s as [|a s IH]; [by left|]. cbn [chars].
  assert (L : forall cs, chars (String a "") = [String a ""] -> Forall is_char cs ->
              Forall is_char (String a "" :: cs) \/ exists c cs', String a "" :: cs = c :: cs' /\
                starts_char c = false /\ chars c = [c] /\ Forall is_char cs').
  { intros cs E F. destruct (starts_char (String a "")) eqn:S; [left; constructor; done | right; eauto 8]. }
  destruct IH as [F|(c & cs & E & Hc & Ec & F)].
  - destruct (chars s) as [|c cs]; [by apply L|].
    assert (Hc : starts_char c = true) by (apply Forall_cons in F as [[_ ?] _]; done). rewrite Hc. by apply L.
  - rewrite E, Hc.
    assert (Es : chars (String a c) = [String a c]) by (cbn; by rewrite Ec, Hc).
    destruct (starts_char (String a c)) eqn:S; [left; constructor; [by split|done] | right; eauto 8].
Qed.

Lemma is_char_ne c : is_char c -> c <> "".
Proof. by intros [E _] ->. Qed.

Lemma get_length_app a b : String.get (String.length a) (a ++ b) = String.get 0 b.
Proof. by induction a. Qed.

Lemma is_char_boundary_app a b : starts_char b = true -> is_char_boundary (a ++ b) (String.length a) = true.
Proof.
  intros H. unfold is_char_boundary. rewrite get_length_app. apply orb_true_iff. right.
  destruct b as [|x b]; cbn in *; [|done]. by rewrite app_nil_r_str, Nat.eqb_refl.
Qed.

Lemma slice_middle {E} a m b : starts_char m = true -> starts_char b = true ->
  slice_str (E := E) (a ++ m ++ b) (String.length a) (String.length a + String.length m) = Ok m.
Proof.
  intros Hm Hb. unfold slice_str. rewrite is_char_boundary_app by by apply starts_char_app.
  rewrite <- length_app_str, <- app_assoc_str, is_char_boundary_app by done.
  rewrite length_app_str, app_assoc_str. destruct (Nat.leb_spec (String.length a) (String.length a + String.length m)); [|lia].
  cbn [andb]. replace (String.length a + String.length m - String.length a)%nat with (String.length m) by lia.
  f_equal. clear. induction a as [|x a IH]; [exact (substring_front m b)|]. exact IH.
Qed.

Lemma slice_str_from_app {E} a b : starts_char b = true -> slice_str_from (E := E) (a ++ b) (String.length a) = Ok b.
Proof.
  intros H. unfold slice_str_from. pose proof (slice_middle (E := E) a b "" H eq_refl) as S.
  by rewrite app_nil_r_str, <- length_app_str in S.
Qed.

(** [enter_filter_char] inserts before the [n]-th [char]. *)
Lemma string_insert_chars {E} l n c : Forall is_char l -> is_char c ->
  string_insert (E := E) (collect l) (default (String.length (collect l)) (char_index (collect l) n)) c
  = Ok (collect (take n l ++ c :: drop n l)%list).
Proof.
  intros Hl Hc. unfold char_index. rewrite chars_collect by done.
  assert (D : forall k, k = String.length (collect (take n l)) ->
    string_insert (E := E) (collect l) k c = Ok (collect (take n l ++ c :: drop n l)%list)).
  { intros k ->. assert (E' : collect l = collect (take n l) ++ collect (drop n l)) by by rewrite <- collect_app, take_drop.
    unfold string_insert. rewrite E', is_char_boundary_app by (apply starts_char_collect; by apply Forall_drop).
    by rewrite substring_front, length_app_str, Nat.add_comm, Nat.add_sub, substring_back, collect_app. }
  destruct (Nat.ltb_spec n (length l)); apply D; [done|]. cbn. by rewrite take_ge.
Qed.

(** *** Integers as numbers *)

Lemma digits2_pos_log2 p : Z.pos (digits2_pos p) = (Z.log2 (Z.pos p) + 1)%Z.
Proof.
  replace (digits2_pos p) with (Pos.size p) by (induction p as [p IH|p IH|]; cbn; by rewrite ?IH).
  by destruct p; cbn; rewrite ?Pos2Z.inj_succ; try lia.
Qed.

Lemma iter_xO d m : Z.pos (Pos.iter xO m d) = (Z.pos m * 2 ^ Z.pos d)%Z.
Proof.
  rewrite <- (Pos2Z.inj_pow 2 d). revert m. induction d as [|d IH] using Pos.peano_ind; intros m.
  - cbn. lia.
  - rewrite Pos.iter_succ, Pos2Z.inj_xO, IH, Pos.pow_succ_r. lia.
Qed.

(** [n as f64 as u64] is [n] as long as [n] has at most 53 bits. *)
Lemma f64_of_Z_exact n : (0 <= n < 2 ^ 53)%Z -> f64_as_u64 (f64_of_Z n) = n.
Proof.
  intros [H0 H1]. destruct n as [|p|p]; [done | | lia].
  unfold f64_of_Z, binary_normalize, binary_round.
  pose proof (digits2_pos_log2 p) as D. pose proof (Z.log2_nonneg (Z.pos p)) as L0.
  assert (L1 : (Z.log2 (Z.pos p) < 53)%Z) by (apply Z.log2_lt_pow2; lia).
  set (k := (52 - Z.log2 (Z.pos p))%Z).
  assert (F : fexp 53 1024 (Z.pos (digits2_pos p) + 0) = (- k)%Z) by (unfold fexp, emin; lia).
  rewrite F. assert (exists q, shl_align p 0 (- k) = (q, (- k)%Z) /\ Z.pos q = (Z.pos p * 2 ^ k)%Z) as (q & -> & Q).
  { unfold shl_align. rewrite Z.sub_0_r. destruct k as [|d|d] eqn:K; [|cbn..].
    - exists p. split; [done|]. lia.
    - eexists. split; [done|]. apply iter_xO.
    - exfalso. lia. }
  assert (Dq : Z.pos (digits2_pos q) = 53%Z).
  { rewrite digits2_pos_log2, Q, Z.log2_mul_pow2 by lia. lia. }
  unfold binary_round_aux, shr_fexp. cbn [Zdigits2 shr_record_of_loc].
  assert (F' : fexp 53 1024 (Z.pos (digits2_pos q) + - k) = (- k)%Z) by (unfold fexp, emin; lia).
  rewrite F', Z.sub_diag. cbn [shr shr_m loc_of_shr_record round_nearest_even Zdigits2 shr_record_of_loc].
  rewrite F', Z.sub_diag. cbn [shr shr_m].
  destruct (Z.leb_spec (- k) (1024 - 53)); [|lia]. unfold f64_as_u64.
  destruct (Z.leb_spec 0 (- k)).
  - assert (k = 0%Z) as E by lia. rewrite E in *. lia.
  - rewrite Q, Z.opp_involutive, Z.div_mul by (apply Z.pow_nonzero; lia). lia.
Qed.

(** *** Highlighting *)

Definition is_ascii (s : string) : bool := all_chars (fun a => (code a <? 128)%Z) s.

Lemma all_chars_append f a b : all_chars f (a ++ b) = all_chars f a && all_chars f b.
Proof. induction a as [|x a IH]; cbn; [done|]. by rewrite IH, andb_assoc. Qed.

Lemma is_ascii_app a b : is_ascii (a ++ b) = true <-> is_ascii a = true /\ is_ascii b = true.
Proof. unfold is_ascii. rewrite all_chars_append. apply andb_true_iff. Qed.

Lemma is_ascii_starts s : is_ascii s = true -> starts_char s = true.
Proof.
  destruct s as [|a s]; [done|]. unfold is_ascii. cbn. intros [H _]%andb_true_iff.
  apply Z.ltb_lt in H. unfold is_continuation. destruct (Z.leb_spec 128 (code a)); [lia|done].
Qed.

Lemma lowercase_app a b : lowercase (a ++ b) = lowercase a ++ lowercase b.
Proof. induction a as [|x a IH]; cbn; [done|]. by rewrite IH. Qed.

Lemma lowercase_length s : String.length (lowercase s) = String.length s.
Proof. induction s as [|x s IH]; cbn; by rewrite ?IH. Qed.

Lemma to_lower_ascii a : (code a <? 128)%Z = true -> (code (to_lower a) <? 128)%Z = true.
Proof. destruct a as [[] [] [] [] [] [] [] []]; vm_compute; done. Qed.

Lemma is_ascii_lowercase s : is_ascii s = true -> is_ascii (lowercase s) = true.
Proof.
  unfold is_ascii. induction s as [|a s IH]; cbn; [done|]. rewrite !andb_true_iff. intros [H H'].
  split; [by apply to_lower_ascii | by apply IH].
Qed.

Lemma prefix_app pat s : String.prefix pat s = true <-> exists b, s = pat ++ b.
Proof.
  revert s. induction pat as [|a pat IH]; intros s.
  - split; [by exists s | destruct s; done].
  - destruct s as [|b s]; [split; [done | by intros []]|].
    change (String.prefix (String a pat) (String b s)) with (if ascii_dec a b then String.prefix pat s else false).
    destruct (ascii_dec a b) as [->|N].
    + rewrite IH. split; intros [c E]; exists c; cbn in *; congruence.
    + split; [done | intros [c E]; cbn in E; congruence].
Qed.

(** [find_str] cuts its text at the first place where the pattern is. *)
Lemma find_str_Some pat s pos : pat <> "" -> find_str pat s = Some pos ->
  exists a b, s = a ++ pat ++ b /\ String.length a = pos /\ find_str pat a = None.
Proof.
  intros N. unfold find_str. revert pos. induction s as [|x s IH]; intros pos; [by destruct pat|].
  cbn [String.index]. destruct (String.prefix pat (String x s)) eqn:P.
  - intros [= <-]. apply prefix_app in P as [b E]. exists "", b. split; [done|]. split; [done|]. by destruct pat.
  - destruct (String.index 0 pat s) as [p|] eqn:I; [|done]. intros [= <-].
    destruct (IH p eq_refl) as (a & b & -> & <- & Ia). exists (String x a), b. split; [done|]. split; [done|].
    cbn [String.index]. rewrite Ia. destruct (String.prefix pat (String x a)) eqn:P'; [|done].
    apply prefix_app in P' as [c E]. apply not_true_iff_false in P. destruct P. apply prefix_app.
    exists (c ++ pat ++ b). by rewrite <- (app_assoc_str pat c), <- E.
Qed.

Lemma split_string n s : (n <= String.length s)%nat -> exists a b, s = a ++ b /\ String.length a = n.
Proof.
  revert n. induction s as [|x s IH]; intros [|n] H; cbn in H; [by exists "", "" | lia | by exists "", (String x s) |].
  destruct (IH n) as (a & b & -> & <-); [lia|]. by exists (String x a), b.
Qed.

Lemma lowercase_split s a b : lowercase s = a ++ b -> exists a' b', s = a' ++ b' /\ lowercase a' = a /\ lowercase b' = b.
Proof.
  intros E. destruct (split_string (String.length a) s) as (a' & b' & -> & L).
  { apply (f_equal String.length) in E. rewrite lowercase_length, length_app_str in E. lia. }
  exists a', b'. split; [done|]. rewrite lowercase_app in E.
  assert (L' : String.length (lowercase a') = String.length a) by by rewrite lowercase_length.
  revert E L'. generalize (lowercase a'), (lowercase b'). clear. intros x y. revert a.
  induction x as [|c x IH]; intros [|d a] E L; try done. cbn in *. injection E as -> E.
  destruct (IH a E) as [-> ->]; [lia|done].
Qed.

Section HighlightProofs.
Context `{LL : LowercaseLaws}.

(** What the spans of a text show: the matches, and between them text without any. *)
Definition shows (filter_lower : string) (is_selected : bool) (x : Span) : Prop :=
  x.1 = Match is_selected /\ lowercase x.2 = filter_lower \/
  x.1 = Item is_selected /\ find_str filter_lower (lowercase x.2) = None /\ x.2 <> "".

Lemma collect_map_snd_app (l l' : list Span) :
  collect (map snd (l ++ l')) = collect (map snd l) ++ collect (map snd l').
Proof. by rewrite map_app, collect_app. Qed.

Lemma highlight_loop_spec {E} fuel pre rest filter_lower is_selected :
  is_ascii (pre ++ rest) = true -> filter_lower <> "" -> (String.length rest < fuel)%nat ->
  exists spans, highlight_loop (E := E) fuel (pre ++ rest) (lowercase (pre ++ rest)) filter_lower (Item is_selected)
                  (String.length pre) = Some (Ok spans) /\
    collect (map snd spans) = rest /\ Forall (shows filter_lower is_selected) spans.
Proof.
  revert pre rest. induction fuel as [|fuel IH]; intros pre rest A N L; [lia|].
  apply is_ascii_app in A as A'. destruct A' as [Ap Ar]. cbn [highlight_loop].
  assert (Sl : slice_str_from (E := E) (lowercase (pre ++ rest)) (String.length pre) = Ok (lowercase rest)).
  { rewrite lowercase_app, <- (lowercase_length pre). apply slice_str_from_app. by apply is_ascii_starts, is_ascii_lowercase. }
  rewrite Sl. clear Sl. destruct (find_str filter_lower (lowercase rest)) as [pos|] eqn:F.
  - destruct (find_str_Some _ _ _ N F) as (a & b & E' & <- & Fa).
    apply lowercase_split in E' as (x & r & -> & <- & E'). apply lowercase_split in E' as (m & y & -> & Em & <-).
    apply is_ascii_app in Ar as [Ax Ar]. apply is_ascii_app in Ar as [Am Ay].
    assert (Lm : String.length filter_lower = String.length m) by by rewrite <- Em, lowercase_length.
    rewrite lowercase_length, Lm.
    assert (Sm : slice_str (E := E) (pre ++ x ++ m ++ y) (String.length pre + String.length x)
                   (String.length pre + String.length x + String.length m) = Ok m).
    { rewrite <- length_app_str, <- app_assoc_str. apply slice_middle; by apply is_ascii_starts. }
    assert (Sx : (if (String.length pre <? String.length pre + String.length x)%nat
                  then t ← slice_str (pre ++ x ++ m ++ y) (String.length pre) (String.length pre + String.length x);
                       Ok [(Item is_selected, t)] else Ok []) =
                 Ok (E := E) (if String.eqb x "" then [] else [(Item is_selected, x)])).
    { destruct x as [|c x]; cbn [String.length String.eqb].
      - by destruct (Nat.ltb_spec (String.length pre) (String.length pre + 0)); [lia|].
      - destruct (Nat.ltb_spec (String.length pre) (String.length pre + S (String.length x))); [|lia].
        change (S (String.length x)) with (String.length (String c x)).
        rewrite slice_middle; [done | by apply is_ascii_starts | apply starts_char_app; by apply is_ascii_starts]. }
    rewrite Sx, Sm. cbn [mbind res_bind].
    destruct (IH (pre ++ x ++ m) y) as (spans & R & C & Fs).
    { rewrite !app_assoc_str. done. }
    { done. }
    { rewrite !length_app_str in L. assert (String.length m <> 0)%nat by (destruct m; [by destruct N|done]). lia. }
    rewrite !app_assoc_str, !length_app_str, Nat.add_assoc in R.
    exists ((if String.eqb x "" then [] else [(Item is_selected, x)]) ++ [(Match is_selected, m)] ++ spans)%list.
    rewrite R. cbn [mbind option_bind res_bind]. rewrite <- (app_assoc _ _ spans). split; [done|]. split.
    + rewrite !collect_map_snd_app, C. cbn. rewrite app_nil_r_str. f_equal.
      destruct (String.eqb_spec x "") as [->|]; [done|]. cbn. apply app_nil_r_str.
    + apply Forall_app. split.
      * destruct (String.eqb_spec x "") as [->|]; [done|]. apply Forall_singleton. by right.
      * constructor; [by left | done].
  - assert (S' : (if (String.length pre <? String.length (pre ++ rest))%nat
                  then t ← slice_str_from (pre ++ rest) (String.length pre); Ok [(Item is_selected, t)] else Ok []) =
                 Ok (E := E) (if String.eqb rest "" then [] else [(Item is_selected, rest)])).
    { rewrite length_app_str. destruct rest as [|c rest]; cbn [String.length String.eqb].
      - by destruct (Nat.ltb_spec (String.length pre) (String.length pre + 0)); [lia|].
      - destruct (Nat.ltb_spec (String.length pre) (String.length pre + S (String.length rest))); [|lia].
        rewrite slice_str_from_app by by apply is_ascii_starts. done. }
    rewrite S'. eexists. split; [done|]. destruct (String.eqb_spec rest "") as [->|]; [done|]. split.
    + cbn. apply app_nil_r_str.
    + apply Forall_singleton. by right.
Qed.

(** On ASCII the spans make up the text again, the highlighted ones are what
    matches the filter, and no match is left outside them. *)
Lemma create_highlighted_spans_spec {E} text filter_text is_selected :
  is_ascii text = true -> is_ascii filter_text = true -> filter_text <> "" ->
  exists spans, create_highlighted_spans (E := E) text filter_text (Item is_selected) = Ok spans /\
    collect (map snd spans) = text /\ Forall (shows (lowercase filter_text) is_selected) spans.
Proof.
  intros A F N. unfold create_highlighted_spans.
  destruct (String.eqb_spec filter_text "") as [|_]; [done|]. rewrite !to_lowercase_ascii by done.
  destruct (highlight_loop_spec (E := E) (S (String.length (lowercase text))) "" text (lowercase filter_text) is_selected)
    as (spans & R & C & S); [done | by destruct filter_text | rewrite lowercase_length; lia |].
  exists spans. change ("" ++ text) with text in R. change (String.length "") with O in R. by rewrite R.
Qed.

Lemma slice_str_from_length {E} s n t : slice_str_from (E := E) s n = Ok t -> (n <= String.length s)%nat /\ (String.length t <= String.length s - n)%nat.
Proof.
  unfold slice_str_from, slice_str. destruct (Nat.leb_spec n (String.length s)); [|done]. cbn [andb].
  repeat case_match; intros; simplify_eq; split; try done.
  clear. revert n. induction s as [|a s IH]; intros [|n]; cbn; [lia | lia | |].
  - enough (A : forall s, (String.length (String.substring 0 (String.length s) s) <= String.length s)%nat) by (specialize (A s); lia).
    clear. induction s; cbn; lia.
  - apply IH.
Qed.

(** Whatever the text, the loop has fuel enough. *)
Lemma highlight_loop_returns {E} fuel text text_lower filter_lower base_style start :
  filter_lower <> "" -> (start <= String.length text_lower < fuel + start)%nat ->
  is_Some (highlight_loop (E := E) fuel text text_lower filter_lower base_style start).
Proof.
  intros N. revert start. induction fuel as [|fuel IH]; intros start L; [lia|]. cbn [highlight_loop].
  destruct (slice_str_from text_lower start) as [rest| |] eqn:Sl; [|eauto..]. apply slice_str_from_length in Sl as [_ Sl].
  destruct (find_str filter_lower rest) as [pos|] eqn:F; [|eauto].
  destruct (find_str_Some _ _ _ N F) as (a & b & -> & <- & _). rewrite !length_app_str in Sl.
  assert (String.length filter_lower <> 0)%nat by by destruct filter_lower.
  match goal with |- is_Some (match ?x with _ => _ end) => destruct x end; [|eauto..].
  edestruct IH as [x ->]; [|eauto]. lia.
Qed.
End HighlightProofs.

(** *** Truncation *)

Lemma truncate_ascii {E} text max_len : is_ascii text = true ->
  exists t, truncate_with_ellipsis (E := E) text max_len = Ok t /\ is_ascii t = true.
Proof.
  intros A. unfold truncate_with_ellipsis. destruct (Nat.leb_spec (String.length text) max_len); [by exists text|].
  destruct (Nat.leb_spec max_len 3); [by exists "..."|].
  destruct (split_string (max_len - 3) text) as (a & b & -> & L); [lia|]. apply is_ascii_app in A as [Aa Ab].
  pose proof (slice_middle (E := E) "" a b (is_ascii_starts a Aa) (is_ascii_starts b Ab)) as S. cbn in S.
  rewrite L in S. rewrite S. cbn. exists (a ++ "..."). split; [done|]. by apply is_ascii_app.
Qed.

(** A cut inside a [char] panics. *)
Example truncate_splits_a_char : truncate_with_ellipsis (E := unit) "/café/état" 8 = Panic.
Proof. reflexivity. Qed.
