(* ===== verification/Console.v ===== *)
(** * The console: its application
    (crates/ros-z-console/src/app, main.rs)

    The state of the terminal application, what each key does to it, what the loop
    updates between keys, what a sample of a measured topic changes, and what is
    drawn.  The graph is the one of Graph.v; the clock, the file system, the layout
    of the terminal and the answers of the session come with each step ([Outside]),
    the database ([DbApi]) and the matching of key expressions ([KeyExprMatch]) are
    parameters.  A sample is an event with its key: every subscriber whose key
    expression matches it runs its callback.  [files], the files written, is no
    field of the code.  Instants and durations are nanoseconds. *)
From stdpp Require Import gmap strings.
From S2P Require Import Prelude RustStr RustText RustColl Entity RmwZenoh Graph ConsoleText.
From S2P Require Config.
Open Scope string_scope.

(** ** Definitions *)

(** *** state.rs *)

Definition HISTORY_LENGTH : nat := 60.
Definition HASH_TRUNCATE_LEN : nat := 16.
Definition PAGE_SCROLL_AMOUNT : nat := 10.
Definition BYTES_PER_KB : f64 := f64_of_Z 1024.
Definition QUICK_MEASURE_DURATION_SECS : Z := 2.
Definition STATUS_MESSAGE_TIMEOUT_MS : Z := 2000.
Definition EMA_SMOOTHING_FACTOR : f64 := f64_div (f64_of_Z 3) (f64_of_Z 10).
Definition DEFAULT_STATUS_MESSAGE : string :=
  "j/k:nav Enter:drill-in Esc:back r:rate m:measure /:filter Tab:panel e:export w:record ?:help q:quit".
Definition from_secs (n : Z) : Z := (n * 1000000000)%Z.
Definition from_millis (n : Z) : Z := (n * 1000000)%Z.

(** [struct Config]. *)
Record ConsoleConfig := mkConsoleConfig {
  cache_ttl_seconds : Z;
  rate_cache_ttl_seconds : Z;
  graph_cache_update_ms : Z;
}.
Definition ConsoleConfig_default : ConsoleConfig := mkConsoleConfig 30 30 100.

Inductive Panel := Topics | Services | Nodes | Measure.
Inductive FocusPane := List | Detail.
Inductive DetailSection := Publishers | Subscribers | Clients.
#[export] Instance Panel_eq_dec : EqDecision Panel.
Proof. solve_decision. Defined.
#[export] Instance FocusPane_eq_dec : EqDecision FocusPane.
Proof. solve_decision. Defined.
#[export] Instance DetailSection_eq_dec : EqDecision DetailSection.
Proof. solve_decision. Defined.

Record TopicRateCache := mkRateCache { rc_rate : f64; last_updated : Z }.
Record DetailState := mkDetailState {
  publishers_expanded : bool;
  subscribers_expanded : bool;
  clients_expanded : bool;
  selected_section : DetailSection;
}.
Definition DetailState_default : DetailState := mkDetailState true true true Publishers.
Record LiveMetrics := mkLiveMetrics {
  msgs_sec : f64;
  bytes_sec : f64;
  avg_payload : Z;
  samples : list (Z * Z);
  lm_rate_history : list Z;
  lm_bandwidth_history : list Z;
}.
Definition LiveMetrics_default : LiveMetrics := mkLiveMetrics (f64_of_Z 0) (f64_of_Z 0) 0 [] [] [].
Inductive ConnectionStatus := Connected | Disconnected.
Record TopicMetrics := mkTopicMetrics {
  msg_count : Z;
  byte_count : Z;
  last_msg_time : option Z;
  rate_history : list Z;
  bandwidth_history : list Z;
  current_rate : f64;
  current_bandwidth : f64;
  samples_collected : Z;
}.
Definition TopicMetrics_default : TopicMetrics := mkTopicMetrics 0 0 None [] [] (f64_of_Z 0) (f64_of_Z 0) 0.

(** [Backend] of the engine. *)
Inductive Backend := BRmwZenoh | BRos2Dds.

(** [s.trim_start_matches(c)] *)
Fixpoint trim_start_matches (c : ascii) (s : string) : string :=
  match s with
  | String a r => if Ascii.eqb a c then trim_start_matches c r else s
  | EmptyString => s
  end.

(** *** The database *)

(** The statements of rusqlite on its tables; an error is its text. A sample that is
    not inserted is ignored, so that its statement has no error here. *)
Class DbApi := {
  Db : Type;
  insert_recording : Db -> Z -> string -> string + Db * Z;
  end_recording : Db -> Z -> Z -> string + Db;
  insert_sample : Db -> Z -> Z -> string -> f64 -> f64 -> Db;
}.
(** What the statements do to the rows of [recordings] that have no end time yet:
    an insert adds one under an identifier that is not in use (the column is
    AUTOINCREMENT), an update of the end time closes one, and a row of
    [recording_samples] is of another table. *)
Class DbLaws `{DbApi} := {
  open_rows : Db -> gset Z;
  insert_recording_open db t topics db' id : insert_recording db t topics = inr (db', id) ->
    id ∉ open_rows db /\ open_rows db' = {[id]} ∪ open_rows db;
  end_recording_open db t id db' : end_recording db t id = inr db' -> open_rows db' = open_rows db ∖ {[id]};
  insert_sample_open db id t topic rate bandwidth : open_rows (insert_sample db id t topic rate bandwidth) = open_rows db;
}.

(** Whether the session gives a sample on a key to a subscriber of a key expression. *)
Class KeyExprMatch := { ke_matches : string -> string -> bool }.

(** *** [App] *)

(** The fields in groups, as the struct has them. *)
Record Core := mkCore { domain_id : Z; router_addr : string; backend : Backend; config : ConsoleConfig; rate_cache_ttl : Z }.
Record PanelState := mkPanelState {
  current_panel : Panel;
  selected_index : nat;
  focus_pane : FocusPane;
  detail_state : DetailState;
  detail_scroll : nat;
}.
Record ScreenState := mkScreenState {
  quit : bool;
  connection_status : ConnectionStatus;
  spinner_frame : nat;
  take_screenshot : bool;
  show_help : bool;
  status_message : string;
  status_message_time : option Z;
}.
Record FilterState := mkFilter { filter_mode : bool; filter_input : string; filter_cursor : nat }.
Record Caches := mkCaches {
  cached_topics : list (string * string);
  cached_nodes : list (string * string);
  cached_services : list (string * string);
  cache_timestamp : Z;
}.
(** A subscriber: its key expression, and the topic that its callback counts for. *)
Record Subscriber := mkSubscriber { sub_topic : string; sub_key_expr : string }.
Record Measuring := mkMeasuring {
  measuring_topics : gset string;
  topic_metrics : gmap string TopicMetrics;
  multi_subscribers : list Subscriber;
  measure_selected_index : nat;
}.
Record Recording := mkRecording { recording_active : bool; recording_id : option Z }.

Section App.
Context `{ZA : ZenohApi} {SL : SlabApi} {HO : HashOrder} {JA : Config.JsonApi} {LC : Lowercase} {DA : DbApi} {KM : KeyExprMatch}.
Variable parser : string -> option Entity.

(** What the engine and the operating system keep. *)
Record World := mkWorld {
  graph : GraphData;
  is_connected : bool;
  db_conn : Db;
  files : list (string * string);
}.
Record App := mkApp {
  core : Core;
  world : World;
  panels : PanelState;
  screen : ScreenState;
  filter : FilterState;
  caches : Caches;
  live_metrics : LiveMetrics;
  rate_cache : gmap string TopicRateCache;
  measuring : Measuring;
  recording : Recording;
}.

(** What a step finds outside: the instant; the milliseconds since 1970, unless the
    clock is before; the local time as text; why a file is not written; why a
    subscriber is not declared; the samples that the quick measurement counted; and
    from the terminal the width of the list, the height of the detail and the cells
    of the screen. *)
Record Outside := mkOutside {
  now : Z;
  unix_millis : option Z;
  local_time : string;
  write_error : string -> option string;
  declare_error : string -> option string;
  counted : Z;
  list_area_width : nat;
  detail_area_height : nat;
  cells : list (list string);
}.

#[local] Abbreviation step := (App -> App).
Definition with_world (f : World -> World) : step := fun a =>
  mkApp (core a) (f (world a)) (panels a) (screen a) (filter a) (caches a) (live_metrics a) (rate_cache a) (measuring a) (recording a).
Definition with_panels (f : PanelState -> PanelState) : step := fun a =>
  mkApp (core a) (world a) (f (panels a)) (screen a) (filter a) (caches a) (live_metrics a) (rate_cache a) (measuring a) (recording a).
Definition with_screen (f : ScreenState -> ScreenState) : step := fun a =>
  mkApp (core a) (world a) (panels a) (f (screen a)) (filter a) (caches a) (live_metrics a) (rate_cache a) (measuring a) (recording a).
Definition with_filter (f : FilterState -> FilterState) : step := fun a =>
  mkApp (core a) (world a) (panels a) (screen a) (f (filter a)) (caches a) (live_metrics a) (rate_cache a) (measuring a) (recording a).
Definition with_caches (f : Caches -> Caches) : step := fun a =>
  mkApp (core a) (world a) (panels a) (screen a) (filter a) (f (caches a)) (live_metrics a) (rate_cache a) (measuring a) (recording a).
Definition with_live_metrics (f : LiveMetrics -> LiveMetrics) : step := fun a =>
  mkApp (core a) (world a) (panels a) (screen a) (filter a) (caches a) (f (live_metrics a)) (rate_cache a) (measuring a) (recording a).
Definition with_rate_cache (f : gmap string TopicRateCache -> gmap string TopicRateCache) : step := fun a =>
  mkApp (core a) (world a) (panels a) (screen a) (filter a) (caches a) (live_metrics a) (f (rate_cache a)) (measuring a) (recording a).
Definition with_measuring (f : Measuring -> Measuring) : step := fun a =>
  mkApp (core a) (world a) (panels a) (screen a) (filter a) (caches a) (live_metrics a) (rate_cache a) (f (measuring a)) (recording a).
Definition with_recording (r : Recording) : step := fun a =>
  mkApp (core a) (world a) (panels a) (screen a) (filter a) (caches a) (live_metrics a) (rate_cache a) (measuring a) r.

Definition set_graph (d : GraphData) : step := with_world (fun w => mkWorld d (is_connected w) (db_conn w) (files w)).
Definition set_db (db : Db) : step := with_world (fun w => mkWorld (graph w) (is_connected w) db (files w)).
Definition write_file (name contents : string) : step :=
  with_world (fun w => mkWorld (graph w) (is_connected w) (db_conn w) (files w ++ [(name, contents)])%list).
Definition set_panel (p : Panel) : step := with_panels (fun s => mkPanelState p (selected_index s) (focus_pane s) (detail_state s) (detail_scroll s)).
Definition set_selected_index (i : nat) : step :=
  with_panels (fun s => mkPanelState (current_panel s) i (focus_pane s) (detail_state s) (detail_scroll s)).
Definition set_focus_pane (f : FocusPane) : step :=
  with_panels (fun s => mkPanelState (current_panel s) (selected_index s) f (detail_state s) (detail_scroll s)).
Definition with_detail_state (f : DetailState -> DetailState) : step :=
  with_panels (fun s => mkPanelState (current_panel s) (selected_index s) (focus_pane s) (f (detail_state s)) (detail_scroll s)).
Definition set_detail_scroll (n : nat) : step :=
  with_panels (fun s => mkPanelState (current_panel s) (selected_index s) (focus_pane s) (detail_state s) n).
Definition set_quit : step := with_screen (fun s =>
  mkScreenState true (connection_status s) (spinner_frame s) (take_screenshot s) (show_help s) (status_message s) (status_message_time s)).
Definition set_show_help (b : bool) : step := with_screen (fun s =>
  mkScreenState (quit s) (connection_status s) (spinner_frame s) (take_screenshot s) b (status_message s) (status_message_time s)).
Definition set_take_screenshot (b : bool) : step := with_screen (fun s =>
  mkScreenState (quit s) (connection_status s) (spinner_frame s) b (show_help s) (status_message s) (status_message_time s)).
Definition set_status (message : string) (time : option Z) : step := with_screen (fun s =>
  mkScreenState (quit s) (connection_status s) (spinner_frame s) (take_screenshot s) (show_help s) message time).
Definition set_measure_selected_index (i : nat) : step := with_measuring (fun m =>
  mkMeasuring (measuring_topics m) (topic_metrics m) (multi_subscribers m) i).

(** [load_config]: [read] is [fs::read_to_string], [parse_config] is
    [serde_json::from_str]. *)
Definition load_config (read : string -> option string) (parse_config : string -> option ConsoleConfig) : ConsoleConfig :=
  match omap (fun path => content ← read path; parse_config content) ["ros-z-console.json"; ".ros-z-console.json"] with
  | config :: _ => config
  | [] => ConsoleConfig_default
  end.
(** [App::new], once the tables of the database are there. *)
Definition App_new (domain_id : Z) (router_addr : string) (backend : Backend) (config : ConsoleConfig) (w : World) (t : Z) : App :=
  mkApp (mkCore domain_id router_addr backend config (from_secs (rate_cache_ttl_seconds config))) w
    (mkPanelState Topics 0 List DetailState_default 0)
    (mkScreenState false Connected 0 false false DEFAULT_STATUS_MESSAGE None)
    (mkFilter false "" 0) (mkCaches [] [] [] t) LiveMetrics_default ∅ (mkMeasuring ∅ ∅ [] 0) (mkRecording false None).

Definition topic_key_expr (a : App) (topic : string) : string :=
  let topic_name := trim_start_matches "/" topic in
  match backend (core a) with
  | BRmwZenoh => Z_dec (domain_id (core a)) ++ "/" ++ topic_name ++ "/**"
  | BRos2Dds => topic_name ++ "/**"
  end.

Definition update_graph_cache (out : Outside) : step := fun a =>
  let '(d, topics) := get_topic_names_and_types parser (graph (world a)) in
  let '(d, nodes) := get_node_names parser d in
  let '(d, services) := get_service_names_and_types parser d in
  with_caches (fun _ => mkCaches topics nodes services (now out)) (set_graph d a).

(** *** Selection and scrolling *)

Definition panel_items (a : App) : nat :=
  match current_panel (panels a) with
  | Topics => length (cached_topics (caches a))
  | Nodes => length (cached_nodes (caches a))
  | Services => length (cached_services (caches a))
  | Measure => 0
  end.
Definition select_next : step := fun a =>
  match current_panel (panels a) with
  | Measure =>
      let max := size (measuring_topics (measuring a)) in
      if (0 <? max)%nat && (measure_selected_index (measuring a) <? max - 1)%nat
      then set_measure_selected_index (measure_selected_index (measuring a) + 1) a else a
  | _ =>
      let max := panel_items a in
      if (0 <? max)%nat && (selected_index (panels a) <? max - 1)%nat
      then set_detail_scroll 0 (set_selected_index (selected_index (panels a) + 1) a) else a
  end.
Definition select_previous : step := fun a =>
  match current_panel (panels a) with
  | Measure =>
      if (0 <? measure_selected_index (measuring a))%nat
      then set_measure_selected_index (measure_selected_index (measuring a) - 1) a else a
  | _ =>
      if (0 <? selected_index (panels a))%nat
      then set_detail_scroll 0 (set_selected_index (selected_index (panels a) - 1) a) else a
  end.
Definition scroll_detail_up : step := fun a =>
  if (0 <? detail_scroll (panels a))%nat then set_detail_scroll (detail_scroll (panels a) - 1) a else a.
Definition scroll_detail_down : step := fun a => set_detail_scroll (detail_scroll (panels a) + 1) a.

(** *** Status *)

Definition set_temp_status (out : Outside) (message : string) : step := set_status message (Some (now out)).
Definition reset_status : step := set_status DEFAULT_STATUS_MESSAGE None.
Definition check_status_timeout (out : Outside) : step := fun a =>
  match status_message_time (screen a) with
  | Some time => if (from_millis STATUS_MESSAGE_TIMEOUT_MS <? now out - time)%Z then reset_status a else a
  | None => a
  end.

(** *** input.rs *)

Definition set_filter_cursor (n : nat) : step := with_filter (fun f => mkFilter (filter_mode f) (filter_input f) n).
Definition clamp_filter_cursor (a : App) (n : nat) : nat := Nat.min n (length (chars (filter_input (filter a)))).
Definition move_filter_cursor_left : step := fun a => set_filter_cursor (filter_cursor (filter a) - 1) a.
Definition move_filter_cursor_right : step := fun a => set_filter_cursor (clamp_filter_cursor a (filter_cursor (filter a) + 1)) a.
Definition set_filter_input (s : string) : step := with_filter (fun f => mkFilter (filter_mode f) s (filter_cursor f)).
Definition enter_filter_char {E} (new_char : string) (a : App) : res E App :=
  let input := filter_input (filter a) in
  let byte_index := default (String.length input) (char_index input (filter_cursor (filter a))) in
  input ← string_insert input byte_index new_char;
  Ok (set_selected_index 0 (move_filter_cursor_right (set_filter_input input a))).
Definition delete_filter_char : step := fun a =>
  if Nat.eqb (filter_cursor (filter a)) 0 then a else
  let current_index := filter_cursor (filter a) in
  let before_char_to_delete := take (current_index - 1) (chars (filter_input (filter a))) in
  let after_char_to_delete := drop current_index (chars (filter_input (filter a))) in
  set_selected_index 0 (move_filter_cursor_left
    (set_filter_input (collect (before_char_to_delete ++ after_char_to_delete)) a)).
Definition clear_filter : step := fun a => set_selected_index 0 (set_filter_cursor 0 (set_filter_input "" a)).
Definition exit_filter_mode : step := fun a =>
  reset_status (with_filter (fun f => mkFilter false (filter_input f) (filter_cursor f)) a).
Definition enter_filter_mode : step := fun a =>
  set_status "Type to filter | Esc:exit Ctrl+U:clear Enter:apply" (status_message_time (screen a))
    (with_filter (fun f => mkFilter true (filter_input f) (filter_cursor f)) a).

(** *** Rates, recordings and exports *)

Definition duration_since (later earlier : Z) : Z := Z.max 0 (later - earlier).
Definition as_secs_f64 (d : Z) : f64 :=
  f64_add (f64_of_Z (d / 1000000000)) (f64_div (f64_of_Z (d mod 1000000000)) (f64_of_Z 1000000000)).
Definition is_fresh (out : Outside) (a : App) (cache : TopicRateCache) : bool :=
  (duration_since (now out) (last_updated cache) <? rate_cache_ttl (core a))%Z.
Definition cleanup_rate_cache (out : Outside) : step := fun a =>
  with_rate_cache (base.filter (fun kv => is_fresh out a kv.2 = true)) a.
Definition rate_line (out : Outside) (entry : string * TopicRateCache) : string :=
  let '(topic, cache) := entry in
  topic ++ "," ++ f64_fixed 2 (rc_rate cache) ++ ","
    ++ f64_fixed 1 (as_secs_f64 (duration_since (now out) (last_updated cache))) ++ String newline "".
Definition export_metrics (out : Outside) (filename : string) (a : App) : res string App :=
  let csv_content := "topic,rate_hz,last_updated_seconds" ++ String newline ""
    ++ collect (map (rate_line out) (map_order _ (rate_cache a))) in
  match write_error out filename with
  | Some e => Err e
  | None => Ok (write_file filename csv_content a)
  end.

(** [SystemTime::now().duration_since(UNIX_EPOCH)?] *)
Definition since_epoch (out : Outside) : res string Z :=
  ok_or (unix_millis out) "second time provided was later than self".
Definition or_error {A} (x : string + A) : res string A := match x with inl e => Err e | inr a => Ok a end.
Definition start_recording (out : Outside) (a : App) : res string (App * nat) :=
  let topics := measuring_topics (measuring a) in
  if decide (topics = ∅) then Err "No topics to record. Add topics with 'm' in Topics tab first." else
  millis ← since_epoch out;
  topics_json ← Config.json_to_string (Config.strings (set_order topics));
  '(db, recording_id) ← or_error (insert_recording (db_conn (world a)) (millis / 1000) topics_json);
  Ok (with_recording (mkRecording true (Some recording_id)) (set_db db a), size topics).
Definition stop_recording (out : Outside) (a : App) : res string App :=
  db ← match recording_id (recording a) with
       | Some id => millis ← since_epoch out; or_error (end_recording (db_conn (world a)) (millis / 1000) id)
       | None => Ok (db_conn (world a))
       end;
  Ok (with_recording (mkRecording false None) (set_db db a)).
Definition toggle_recording (out : Outside) (a : App) : res string (App * string) :=
  if recording_active (recording a) then
    a ← stop_recording out a; Ok (a, "Recording stopped")
  else
    '(a, count) ← start_recording out a; Ok (a, "Recording " ++ Z_dec (Z.of_nat count) ++ " topics").
Definition record_sample (out : Outside) : step := fun a =>
  if negb (recording_active (recording a)) then a else
  match recording_id (recording a) with
  | None => a
  | Some recording_id =>
      let timestamp := default 0%Z (unix_millis out) in
      set_db (foldl (fun db '(topic, tm) => insert_sample db recording_id timestamp topic (current_rate tm) (current_bandwidth tm))
                (db_conn (world a)) (map_order _ (topic_metrics (measuring a)))) a
  end.

(** *** Measuring *)

Definition stop_multi_monitoring : step := with_measuring (fun m =>
  mkMeasuring (measuring_topics m) (topic_metrics m) [] (measure_selected_index m)).
Definition restart_multi_monitoring (out : Outside) : step := fun a =>
  let a := stop_multi_monitoring a in
  if decide (measuring_topics (measuring a) = ∅) then a else
  let declared := List.filter (fun topic => match declare_error out (topic_key_expr a topic) with None => true | Some _ => false end)
                    (set_order (measuring_topics (measuring a))) in
  with_measuring (fun m => mkMeasuring (measuring_topics m) (topic_metrics m)
    (map (fun topic => mkSubscriber topic (topic_key_expr a topic)) declared) (measure_selected_index m)) a.
Definition toggle_measuring_topic (out : Outside) (topic : string) : step := fun a =>
  let a :=
    if decide (topic ∈ measuring_topics (measuring a)) then
      set_temp_status out ("Removed " ++ topic ++ " from measurement")
        (with_measuring (fun m => mkMeasuring (measuring_topics m ∖ {[topic]}) (delete topic (topic_metrics m))
                                    (multi_subscribers m) (measure_selected_index m)) a)
    else
      set_temp_status out ("Added " ++ topic ++ " to measurement")
        (with_measuring (fun m => mkMeasuring ({[topic]} ∪ measuring_topics m) (<[topic := TopicMetrics_default]> (topic_metrics m))
                                    (multi_subscribers m) (measure_selected_index m)) a) in
  restart_multi_monitoring out a.
Definition clear_measuring_topics (out : Outside) : step := fun a =>
  set_temp_status out "Cleared all measurements"
    (stop_multi_monitoring (with_measuring (fun m => mkMeasuring ∅ ∅ (multi_subscribers m) (measure_selected_index m)) a)).

(** [quick_measure_rate]: [out] is as it is when the time is over. *)
Definition quick_measure_rate (out : Outside) (topic : string) (duration_secs : Z) (a : App) : string + App * f64 :=
  match declare_error out (topic_key_expr a topic) with
  | Some e => inl e
  | None =>
      let rate := f64_div (f64_of_Z (counted out)) (f64_of_Z duration_secs) in
      inr (with_rate_cache (<[topic := mkRateCache rate (now out)]>) a, rate)
  end.

(** The callback of a subscriber of [restart_multi_monitoring]. *)
Definition count_sample (payload_len : Z) (t : Z) (tm : TopicMetrics) : TopicMetrics :=
  mkTopicMetrics (wrap_u 64 (msg_count tm + 1)) (wrap_u 64 (byte_count tm + payload_len)) (Some t) (rate_history tm)
    (bandwidth_history tm) (current_rate tm) (current_bandwidth tm) (samples_collected tm).
(** A sample on the key [ke]: the subscribers whose key expression matches count it,
    each for its topic. *)
Definition on_sample (ke : string) (payload_len : Z) (t : Z) : step := with_measuring (fun m =>
  mkMeasuring (measuring_topics m)
    (foldl (fun metrics s => alter (count_sample payload_len t) (sub_topic s) metrics) (topic_metrics m)
       (List.filter (fun s => ke_matches (sub_key_expr s) ke) (multi_subscribers m)))
    (multi_subscribers m) (measure_selected_index m)).

(** A history keeps its last values. *)
Definition push_history (l : list Z) (v : Z) : list Z :=
  ((if (HISTORY_LENGTH <=? length l)%nat then tail l else l) ++ [v])%list.
Definition ema (new_value old_value : f64) : f64 :=
  f64_add (f64_mul EMA_SMOOTHING_FACTOR new_value) (f64_mul (f64_sub (f64_of_Z 1) EMA_SMOOTHING_FACTOR) old_value).
Definition update_topic_metrics (tm : TopicMetrics) : TopicMetrics :=
  let instant_rate := f64_of_Z (msg_count tm) in
  let instant_bw := f64_div (f64_of_Z (byte_count tm)) BYTES_PER_KB in
  let collected := wrap_u 64 (samples_collected tm + 1) in
  let first := (collected =? 1)%Z in
  mkTopicMetrics 0 0 (last_msg_time tm)
    (push_history (rate_history tm) (f64_as_u64 instant_rate))
    (push_history (bandwidth_history tm) (f64_as_u64 (f64_mul instant_bw (f64_of_Z 10))))
    (if first then instant_rate else ema instant_rate (current_rate tm))
    (if first then instant_bw else ema instant_bw (current_bandwidth tm))
    collected.
Definition update_multi_metrics (out : Outside) : step := fun a =>
  record_sample out (with_measuring (fun m =>
    mkMeasuring (measuring_topics m) (update_topic_metrics <$> topic_metrics m) (multi_subscribers m) (measure_selected_index m)) a).

Definition update_live_metrics (out : Outside) (m : LiveMetrics) : LiveMetrics :=
  let window_start := (now out - from_secs 1)%Z in
  let sizes := map snd (List.filter (fun '(time, _) => (window_start <=? time)%Z) (samples m)) in
  let msg_count := Z.of_nat (length sizes) in
  let byte_sum := foldl (fun sum size => wrap_u 64 (sum + size)) 0%Z sizes in
  let per_sec := f64_of_Z msg_count in
  let kbytes := f64_div (f64_of_Z byte_sum) BYTES_PER_KB in
  mkLiveMetrics per_sec kbytes (if (0 <? msg_count)%Z then byte_sum / msg_count else avg_payload m)%Z (samples m)
    (push_history (lm_rate_history m) (f64_as_u64 per_sec))
    (push_history (lm_bandwidth_history m) (f64_as_u64 (f64_mul kbytes (f64_of_Z 10)))).
Definition update_metrics (out : Outside) : step := fun a =>
  let a := check_status_timeout out a in
  let a := with_screen (fun s => mkScreenState (quit s) (if is_connected (world a) then Connected else Disconnected)
             (spinner_frame s) (take_screenshot s) (show_help s) (status_message s) (status_message_time s)) a in
  let a := cleanup_rate_cache out a in
  let a := with_screen (fun s => mkScreenState (quit s) (connection_status s) ((spinner_frame s + 1) mod 4)
             (take_screenshot s) (show_help s) (status_message s) (status_message_time s)) a in
  with_live_metrics (update_live_metrics out) a.

(** *** Keys (main.rs) *)

(** [KeyCode], as far as it is matched, and whether the modifiers have [CONTROL]. *)
Inductive KeyCode :=
| Esc | Enter | Backspace | Left | Right | Up | Down | PageUp | PageDown | Home | End | Tab | BackTab
| Char (c : string)
| OtherKey.
Record KeyEvent := mkKey { key_code : KeyCode; control : bool }.
#[local] Abbreviation is_key k c := (match k with Char c' => String.eqb c' c | _ => false end).

Definition filter_key {E} (key : KeyEvent) (a : App) : res E App :=
  match key_code key with
  | Esc => Ok (exit_filter_mode a)
  | Enter => Ok (exit_filter_mode a)
  | Backspace => Ok (delete_filter_char a)
  | Left => Ok (move_filter_cursor_left a)
  | Right => Ok (move_filter_cursor_right a)
  | Char c => if String.eqb c "u" && control key then Ok (clear_filter a) else enter_filter_char c a
  | _ => Ok a
  end.
Definition help_key (key : KeyEvent) : step := fun a =>
  match key_code key with
  | Esc => set_show_help false a
  | Char c => if String.eqb c "?" || String.eqb c "q" then set_show_help false a else a
  | _ => a
  end.

Definition previous_section (s : DetailSection) : DetailSection :=
  match s with Publishers => Clients | Subscribers => Publishers | Clients => Subscribers end.
Definition next_section (s : DetailSection) : DetailSection :=
  match s with Publishers => Subscribers | Subscribers => Clients | Clients => Publishers end.
Definition set_section (s : DetailSection) (d : DetailState) : DetailState :=
  mkDetailState (publishers_expanded d) (subscribers_expanded d) (clients_expanded d) s.
Definition toggle_section (s : DetailSection) (d : DetailState) : DetailState :=
  match s with
  | Publishers => mkDetailState (negb (publishers_expanded d)) (subscribers_expanded d) (clients_expanded d) (selected_section d)
  | Subscribers => mkDetailState (publishers_expanded d) (negb (subscribers_expanded d)) (clients_expanded d) (selected_section d)
  | Clients => mkDetailState (publishers_expanded d) (subscribers_expanded d) (negb (clients_expanded d)) (selected_section d)
  end.
Definition in_list (a : App) : bool := bool_decide (focus_pane (panels a) = List).
Definition key_up : step := fun a =>
  if in_list a then select_previous a
  else scroll_detail_up (with_detail_state (fun d => set_section (previous_section (selected_section d)) d) a).
Definition key_down : step := fun a =>
  if in_list a then select_next a
  else scroll_detail_down (with_detail_state (fun d => set_section (next_section (selected_section d)) d) a).
Definition key_page_up : step := fun a =>
  Nat.iter PAGE_SCROLL_AMOUNT (fun a => if in_list a then select_previous a else scroll_detail_up a) a.
Definition key_page_down : step := fun a =>
  Nat.iter PAGE_SCROLL_AMOUNT (fun a => if in_list a then select_next a else scroll_detail_down a) a.
Definition next_panel (p : Panel) : Panel :=
  match p with Topics => Services | Services => Nodes | Nodes => Measure | Measure => Topics end.
Definition previous_panel (p : Panel) : Panel :=
  match p with Topics => Measure | Services => Topics | Nodes => Services | Measure => Nodes end.
Definition key_enter : step := fun a =>
  if in_list a then set_focus_pane Detail a else
  match current_panel (panels a) with
  | Nodes => with_detail_state (toggle_section Publishers) a
  | _ => with_detail_state (fun d => toggle_section (selected_section d) d) a
  end.
Definition to_list_pane : step := fun a => if in_list a then a else set_focus_pane List a.

Definition key_rate (out : Outside) : step := fun a =>
  match current_panel (panels a) with
  | Measure => clear_measuring_topics out a
  | Topics =>
      match cached_topics (caches a) !! selected_index (panels a) with
      | None => a
      | Some (topic, _) =>
          let a := set_status ("Measuring rate for " ++ topic ++ "...") (status_message_time (screen a)) a in
          match quick_measure_rate out topic QUICK_MEASURE_DURATION_SECS a with
          | inr (a, rate) => set_temp_status out (topic ++ ": " ++ f64_fixed 1 rate ++ " Hz") a
          | inl e => set_temp_status out ("Rate measurement failed: " ++ e) a
          end
      end
  | _ => a
  end.
Definition key_measure (out : Outside) : step := fun a =>
  match current_panel (panels a) with
  | Topics =>
      match cached_topics (caches a) !! selected_index (panels a) with
      | Some (topic, _) => toggle_measuring_topic out topic a
      | None => a
      end
  | Services =>
      match cached_services (caches a) !! selected_index (panels a) with
      | Some (service, _) => toggle_measuring_topic out service a
      | None => a
      end
  | Nodes => set_temp_status out "Use Topics tab to add topics to measurement" a
  | Measure => a
  end.
Definition key_export {E} (out : Outside) (a : App) : res E App :=
  let filename := "ros-z-rates_" ++ local_time out ++ ".csv" in
  match export_metrics out filename a with
  | Ok a => Ok (set_temp_status out ("Exported to " ++ filename) a)
  | Err e => Ok (set_temp_status out ("Export failed: " ++ e) a)
  | Panic => Panic
  end.
Definition key_record {E} (out : Outside) (a : App) : res E App :=
  match toggle_recording out a with
  | Ok (a, msg) => Ok (set_temp_status out msg a)
  | Err e => Ok (set_temp_status out e a)
  | Panic => Panic
  end.
Definition jump_to (p : Panel) : step := fun a => set_selected_index 0 (set_panel p a).
Definition cycle_to (p : Panel) : step := fun a => set_detail_scroll 0 (jump_to p a).

Definition char_key {E} (out : Outside) (c : string) (a : App) : res E App :=
  if String.eqb c "q" then Ok (set_quit a)
  else if String.eqb c "?" then Ok (set_show_help true a)
  else if String.eqb c "k" then Ok (key_up a)
  else if String.eqb c "j" then Ok (key_down a)
  else if String.eqb c "h" then Ok (to_list_pane a)
  else if String.eqb c "l" then Ok (if in_list a then set_focus_pane Detail a else a)
  else if String.eqb c "1" then Ok (jump_to Topics a)
  else if String.eqb c "2" then Ok (jump_to Services a)
  else if String.eqb c "3" then Ok (jump_to Nodes a)
  else if String.eqb c "4" then Ok (jump_to Measure a)
  else if String.eqb c " " then Ok (key_enter a)
  else if String.eqb c "/" then Ok (enter_filter_mode a)
  else if String.eqb c "r" then Ok (key_rate out a)
  else if String.eqb c "m" then Ok (key_measure out a)
  else if String.eqb c "S" then Ok (set_take_screenshot true a)
  else if String.eqb c "e" then key_export out a
  else if String.eqb c "w" then key_record out a
  else Ok a.
Definition normal_key {E} (out : Outside) (key : KeyEvent) (a : App) : res E App :=
  match key_code key with
  | Up => Ok (key_up a)
  | Down => Ok (key_down a)
  | Left => Ok (to_list_pane a)
  | Right => Ok (if in_list a then set_focus_pane Detail a else a)
  | PageUp => Ok (key_page_up a)
  | PageDown => Ok (key_page_down a)
  | Home => Ok (set_detail_scroll 0 (set_selected_index 0 a))
  | End => Ok (set_selected_index (panel_items a - 1) a)
  | Tab => Ok (cycle_to (next_panel (current_panel (panels a))) a)
  | BackTab => Ok (cycle_to (previous_panel (current_panel (panels a))) a)
  | Enter => Ok (key_enter a)
  | Esc => Ok (to_list_pane a)
  | Char c => char_key out c a
  | Backspace | OtherKey => Ok a
  end.
Definition handle_key_event {E} (out : Outside) (key : KeyEvent) (a : App) : res E App :=
  if is_key (key_code key) "c" && control key then Ok (set_quit a)
  else if filter_mode (filter a) then filter_key key a
  else if show_help (screen a) then Ok (help_key key a)
  else normal_key out key a.

(** *** Drawing (render/) *)

(** The spans of an item. *)
Definition item_spans {E} (icon : string) (marks : list (Style * string)) (text : string) (max_width : nat)
    (filter_text : string) (style : Style) (after : list (Style * string)) : res E (list (Style * string)) :=
  display ← truncate_with_ellipsis text max_width;
  spans ← create_highlighted_spans display filter_text style;
  Ok ((style, icon) :: marks ++ spans ++ after)%list.
(** Items of a list with their indices, [enumerate] and [map] of a closure that may
    panic. *)
Fixpoint try_imap {E A B} (f : nat -> A -> res E B) (i : nat) (l : list A) : res E (list B) :=
  match l with
  | [] => Ok []
  | x :: l => y ← f i x; ys ← try_imap f (S i) l; Ok (y :: ys)
  end.
Definition both_fields (item : string * string) : list string := [item.1; item.2].

Definition render_topic_list_items {E} (out : Outside) (a : App) (filter_text : string) (list_width : nat)
    : res E (list (list (Style * string))) :=
  try_imap (fun i '(topic, _) =>
    let base_style := list_item_style (Nat.eqb i (selected_index (panels a))) in
    let is_measuring := bool_decide (topic ∈ measuring_topics (measuring a)) in
    let measure_indicator := if is_measuring then "[M] " else "" in
    let '(rate_str, rate_color) :=
      match rate_cache a !! topic with
      | Some cached => format_rate (rc_rate cached) (is_fresh out a cached)
      | None => ("", Blue)
      end in
    item_spans "# " (if is_measuring then [(Fg Magenta, measure_indicator)] else []) topic
      (list_width - (2 + String.length measure_indicator + String.length rate_str)) filter_text base_style [(Fg rate_color, rate_str)])
    0 (filter_items (cached_topics (caches a)) filter_text both_fields).
Definition render_service_list_items {E} (a : App) (filter_text : string) (list_width : nat) : res E (list (list (Style * string))) :=
  try_imap (fun i '(service, _) =>
    item_spans "@ " [] service (list_width - 2) filter_text (list_item_style (Nat.eqb i (selected_index (panels a)))) [])
    0 (filter_items (cached_services (caches a)) filter_text both_fields).
Definition render_node_list_items {E} (a : App) (filter_text : string) (list_width : nat) : res E (list (list (Style * string))) :=
  try_imap (fun i '(name, namespace) =>
    item_spans "* " [] (namespace ++ "/" ++ name) (list_width - 2) filter_text
      (list_item_style (Nat.eqb i (selected_index (panels a)))) [])
    0 (filter_items (cached_nodes (caches a)) filter_text both_fields).
Definition get_sorted_measuring_topics (a : App) : list string :=
  sort_by (fun topic => topic) (set_order (measuring_topics (measuring a))).
Definition render_measure_list_items {E} (a : App) (list_width : nat) : res E (list (list (Style * string))) :=
  try_imap (fun i topic =>
    let style := list_item_style (Nat.eqb i (measure_selected_index (measuring a))) in
    let rate_str := match topic_metrics (measuring a) !! topic with
                    | Some tm => " " ++ f64_fixed 1 (current_rate tm) ++ " Hz"
                    | None => ""
                    end in
    display_topic ← truncate_with_ellipsis topic (list_width - (2 + String.length rate_str));
    Ok [(style, "# "); (style, display_topic); (Fg Cyan, rate_str)])
    0 (get_sorted_measuring_topics a).

(** The list pane: its title and its items. *)
Definition render_list {E} (out : Outside) (a : App) : res E (App * (string * list (list (Style * string)))) :=
  let a := if (from_millis (graph_cache_update_ms (config (core a))) <? now out - cache_timestamp (caches a))%Z
           then update_graph_cache out a else a in
  let filter_text := to_lowercase (filter_input (filter a)) in
  let list_width := (list_area_width out - 4)%nat in
  items ← match current_panel (panels a) with
          | Topics => render_topic_list_items out a filter_text list_width
          | Services => render_service_list_items a filter_text list_width
          | Nodes => render_node_list_items a filter_text list_width
          | Measure => render_measure_list_items a list_width
          end;
  let a := if (0 <? length items)%nat && (length items <=? selected_index (panels a))%nat
           then set_selected_index (length items - 1) a else a in
  let number (n : nat) := Z_dec (Z.of_nat n) in
  let panel_name := match current_panel (panels a) with
                    | Topics => "Topics" | Services => "Services" | Nodes => "Nodes" | Measure => "Monitoring" end in
  let title :=
    match current_panel (panels a) with
    | Measure => " " ++ panel_name ++ " (" ++ number (size (measuring_topics (measuring a))) ++ ") "
    | _ => if negb (String.eqb filter_text "")
           then " " ++ panel_name ++ " (" ++ number (length items) ++ "/" ++ number (panel_items a) ++ " filtered) "
           else " " ++ panel_name ++ " "
    end in
  Ok (a, (title, items)).

(** The detail pane's own filter. *)
Definition detail_filter (filter_text : string) (item : string * string) : bool :=
  if String.eqb filter_text "" then true
  else contains_str (to_lowercase item.1) filter_text || contains_str (to_lowercase item.2) filter_text.
Definition nl : string := String newline "".
(** The text of the entities that a query returned, numbered. *)
Definition entity_lines (label : string) (with_type : bool) (l : list Entity) : string :=
  collect (imap (fun idx entity =>
    match entity_get_endpoint entity with
    | None => ""
    | Some endpoint =>
        "   " ++ label ++ " " ++ Z_dec (Z.of_nat (idx + 1)) ++ ":" ++ nl
        ++ "    Node: " ++ node_namespace (ep_node endpoint) ++ "/" ++ node_name (ep_node endpoint) ++ nl
        ++ (match ep_type_info endpoint with
            | Some ti =>
                if (with_type : bool) then
                  let hash_str := to_rihs_string (ti_hash ti) in
                  let hash_short := if (HASH_TRUNCATE_LEN <? String.length hash_str)%nat
                                    then String.substring 0 HASH_TRUNCATE_LEN hash_str ++ "..." else hash_str in
                  "    Type: " ++ ti_name ti ++ " (" ++ hash_short ++ ")" ++ nl
                else ""
            | None => ""
            end)
        ++ format_qos_detail (ep_qos endpoint) ++ nl ++ nl
    end) l).
Definition entities_of (d : GraphData) (l : list nat) : list Entity := omap (fun arc => heap d !! arc) l.
Definition section_head (a : App) (section : DetailSection) (expanded : bool) (title : string) (n : nat) : string :=
  nl ++ section_marker (negb (in_list a)) (bool_decide (selected_section (detail_state (panels a)) = section))
     ++ expand_indicator expanded ++ " " ++ title ++ " (" ++ Z_dec (Z.of_nat n) ++ "):".
Definition topic_section (a : App) (section : DetailSection) (expanded : bool) (title label : string) (l : list Entity) : string :=
  if Nat.eqb (length l) 0 then "" else
  section_head a section expanded title (length l) ++ (if expanded then nl ++ nl ++ entity_lines label true l else nl).
Definition render_topic_detail {E} (out : Outside) (a : App) : res E (GraphData * string) :=
  let filter_text := to_lowercase (filter_input (filter a)) in
  let '(d, topics) := get_topic_names_and_types parser (graph (world a)) in
  match List.filter (detail_filter filter_text) topics !! selected_index (panels a) with
  | None => Ok (d, "No topic selected")
  | Some (topic, type_name) =>
      let rate :=
        match rate_cache a !! topic with
        | Some cached =>
            let age := Z_dec (duration_since (now out) (last_updated cached) / 1000000000) in
            "Rate: " ++ f64_fixed 1 (rc_rate cached) ++
            (if is_fresh out a cached then " Hz (measured " ++ age ++ "s ago)" else " Hz (stale, " ++ age ++ "s old)") ++ nl
        | None => "Rate: Not measured (press 'r')" ++ nl
        end in
      '(d, pubs) ← get_entities_by_topic parser d KPublisher topic;
      let pubs_text := topic_section a Publishers (publishers_expanded (detail_state (panels a))) "Publishers" "Publisher" (entities_of d pubs) in
      '(d, subs) ← get_entities_by_topic parser d KSubscription topic;
      let subs_text := topic_section a Subscribers (subscribers_expanded (detail_state (panels a))) "Subscribers" "Subscriber" (entities_of d subs) in
      Ok (foldl arc_drop (foldl arc_drop d subs) pubs,
          "Topic: " ++ topic ++ nl ++ "Type: " ++ type_name ++ nl ++ rate ++ pubs_text ++ subs_text)
  end.
(** [get_entities_by_service(..).len()], and with the entities for a text. *)
Definition service_section {E} (a : App) (d : GraphData) (kind : EntityKind) (service : string) (section : DetailSection)
    (expanded : bool) (title label : string) (count : nat) : res E (GraphData * string) :=
  let head := section_head a section expanded title count in
  if expanded then
    '(d, l) ← get_entities_by_service parser d kind service;
    let text := if Nat.eqb (length l) 0 then nl ++ "    (none)" ++ nl else nl ++ nl ++ entity_lines label false (entities_of d l) in
    Ok (foldl arc_drop d l, head ++ text)
  else Ok (d, head ++ nl).
Definition service_len {E} (d : GraphData) (kind : EntityKind) (service : string) : res E (GraphData * nat) :=
  '(d, l) ← get_entities_by_service parser d kind service; Ok (foldl arc_drop d l, length l).
Definition render_service_detail {E} (a : App) : res E (GraphData * string) :=
  let filter_text := to_lowercase (filter_input (filter a)) in
  let '(d, services) := get_service_names_and_types parser (graph (world a)) in
  match List.filter (detail_filter filter_text) services !! selected_index (panels a) with
  | None => Ok (d, "No service selected")
  | Some (service, type_name) =>
      '(d, server_count) ← service_len d KService service;
      '(d, client_count) ← service_len d KClient service;
      '(d, servers) ← service_section a d KService service Publishers (publishers_expanded (detail_state (panels a))) "Servers" "Server" server_count;
      '(d, clients) ← service_section a d KClient service Clients (clients_expanded (detail_state (panels a))) "Clients" "Client" client_count;
      Ok (d, "Service: " ++ service ++ nl ++ "Type: " ++ type_name ++ nl ++ servers ++ clients)
  end.
Definition node_section (show_types : bool) (title : string) (l : list (string * string)) : string :=
  if Nat.eqb (length l) 0 then "" else
  nl ++ (if show_types then "[-]" else "[+]") ++ " " ++ title ++ " (" ++ Z_dec (Z.of_nat (length l)) ++ "):" ++ nl
     ++ collect (map (fun '(name, type_name) => "  +-- " ++ name ++ (if show_types then " (" ++ type_name ++ ")" else "") ++ nl) l).
Definition render_node_detail (a : App) : GraphData * string :=
  let filter_text := to_lowercase (filter_input (filter a)) in
  let '(d, nodes) := get_node_names parser (graph (world a)) in
  match List.filter (detail_filter filter_text) nodes !! selected_index (panels a) with
  | None => (d, "No node selected")
  | Some (name, namespace) =>
      let node_key := (namespace, name) in
      let '(d, publishers) := get_names_and_types_by_node parser d node_key KPublisher in
      let '(d, subscribers) := get_names_and_types_by_node parser d node_key KSubscription in
      let '(d, services) := get_names_and_types_by_node parser d node_key KService in
      let '(d, clients) := get_names_and_types_by_node parser d node_key KClient in
      let show_types := publishers_expanded (detail_state (panels a)) in
      (d, "Node: " ++ namespace ++ "/" ++ name ++ nl
          ++ node_section show_types "Publishers" publishers ++ node_section show_types "Subscribers" subscribers
          ++ node_section show_types "Services" services ++ node_section show_types "Clients" clients
          ++ (if Nat.eqb (length publishers + length subscribers + length services + length clients) 0
              then nl ++ "(No topics or services)" else ""))
  end.

(** The detail pane: a text from a line on, or what is measured of a topic. *)
Inductive DetailPane :=
| DetailText (text : string) (scroll : nat)
| NothingMeasured
| NoneSelected
| WaitingFor (topic : string)
| Sparklines (topic summary : string) (rates bandwidths : list Z).
Definition render_measurement_panel (a : App) : DetailPane :=
  if decide (measuring_topics (measuring a) = ∅) then NothingMeasured else
  match get_sorted_measuring_topics a !! measure_selected_index (measuring a) with
  | None => NoneSelected
  | Some topic =>
      match topic_metrics (measuring a) !! topic with
      | None => WaitingFor topic
      | Some tm =>
          Sparklines topic ("Rate: " ++ f64_fixed 1 (current_rate tm) ++ " Hz  |  Bandwidth: "
            ++ f64_fixed 2 (current_bandwidth tm) ++ " KB/s") (rate_history tm) (bandwidth_history tm)
      end
  end.
Definition render_scrollable_detail (out : Outside) (detail_text : string) (a : App) : App * DetailPane :=
  let total_lines := length (lines detail_text) in
  let visible_lines := (detail_area_height out - 2)%nat in
  let max_scroll := (total_lines - visible_lines)%nat in
  let a := set_detail_scroll (Nat.min (detail_scroll (panels a)) max_scroll) a in
  (a, DetailText detail_text (detail_scroll (panels a))).
Definition save_screenshot (out : Outside) : step := fun a =>
  if negb (take_screenshot (screen a)) then a else
  let screenshot := collect (map (fun row => collect row ++ nl) (cells out)) in
  let a := set_take_screenshot false a in
  let filename := "ros-z-screenshot_" ++ local_time out ++ ".txt" in
  match write_error out filename with
  | None => set_temp_status out ("Screenshot saved to " ++ filename) (write_file filename screenshot a)
  | Some e => set_temp_status out ("Screenshot failed: " ++ e) a
  end.
Definition render_detail {E} (out : Outside) (a : App) : res E (App * DetailPane) :=
  '(a, pane) ← match current_panel (panels a) with
               | Measure => Ok (a, render_measurement_panel a)
               | Topics => '(d, text) ← render_topic_detail out a; Ok (render_scrollable_detail out text (set_graph d a))
               | Services => '(d, text) ← render_service_detail a; Ok (render_scrollable_detail out text (set_graph d a))
               | Nodes => let '(d, text) := render_node_detail a in Ok (render_scrollable_detail out text (set_graph d a))
               end;
  Ok (save_screenshot out a, pane).

Definition get_status_hint (a : App) : string :=
  match current_panel (panels a) with
  | Measure =>
      if decide (measuring_topics (measuring a) = ∅) then "Go to Topics (1) and press 'm' to add topics | ?:help q:quit"
      else if recording_active (recording a) then "j/k:select w:stop recording r:clear | [REC] ?:help q:quit"
      else "j/k:select w:record r:clear | 1-3:panels ?:help q:quit"
  | p =>
      if in_list a then
        "j/k:nav l:detail Enter:drill-in /:filter" ++
        match p with Topics => " r:rate m:measure | Tab:panel ?:help q:quit" | _ => " | Tab:panel ?:help q:quit" end
      else match p with
           | Nodes => "Enter/Space:show/hide types h:list Esc:back PgUp/Dn:scroll | ?:help"
           | _ => "j/k:sections Enter/Space:toggle h:list Esc:back PgUp/Dn:scroll | ?:help"
           end
  end.
Definition status_text (out : Outside) (a : App) : string :=
  match status_message_time (screen a) with
  | Some _ => status_message (screen a)
  | None =>
      let hint := get_status_hint a in
      let fresh_count := length (List.filter (fun kv => is_fresh out a kv.2) (map_order _ (rate_cache a))) in
      if bool_decide (current_panel (panels a) = Topics) && (0 <? fresh_count)%nat
      then hint ++ " | " ++ Z_dec (Z.of_nat fresh_count) ++ " cached" else hint
  end.

(** What is on the screen. *)
Record Screen := mkScreen {
  title_text : string;
  filter_line : option (string * nat);
  list_pane : string * list (list (Style * string));
  detail_pane : DetailPane;
  status_line : string;
  help_shown : bool;
}.
Definition render {E} (out : Outside) (a : App) : res E (App * Screen) :=
  let connection_info := match connection_status (screen a) with
                         | Connected => "Connected to " ++ router_addr (core a)
                         | Disconnected => "Zenoh router: disconnected"
                         end in
  let title := " ros-z-console | Domain: " ++ Z_dec (domain_id (core a)) ++ " | " ++ connection_info ++ " " in
  let filter_line := if filter_mode (filter a) then Some (filter_input (filter a), filter_cursor (filter a)) else None in
  '(a, list_pane) ← render_list out a;
  '(a, detail_pane) ← render_detail out a;
  Ok (a, mkScreen title filter_line list_pane detail_pane (status_text out a) (show_help (screen a))).

(** *** The loop *)

Definition update (out : Outside) : step := fun a => update_multi_metrics out (update_metrics out (update_graph_cache out a)).
(** One turn of [run_tui_loop]; [None] when it returns. *)
Definition tui_turn {E} (out : Outside) (key : option KeyEvent) (a : App) : res E (option App * Screen) :=
  '(a, drawn) ← render out (update out a);
  if quit (screen a) then Ok (None, drawn) else
  match key with
  | Some key => a ← handle_key_event out key a; Ok (Some a, drawn)
  | None => Ok (Some a, drawn)
  end.

(** What happens to the application, in sections that others come between: an
    update, a drawing, a key; a sample, with its key, for the subscribers that match;
    what the threads of the engine do to the graph and the connection. *)
Inductive ConsoleEvent :=
| Update (out : Outside)
| Draw (out : Outside)
| Key (out : Outside) (key : KeyEvent)
| Sample (ke : string) (payload_len t : Z)
| GraphMoved (d : GraphData)
| Routers (connected : bool).
Definition console_step {E} (e : ConsoleEvent) (a : App) : res E App :=
  match e with
  | Update out => Ok (update out a)
  | Draw out => '(a, _) ← render out a; Ok a
  | Key out key => handle_key_event out key a
  | Sample ke payload_len t => Ok (on_sample ke payload_len t a)
  | GraphMoved d => Ok (set_graph d a)
  | Routers connected => Ok (with_world (fun w => mkWorld (graph w) connected (db_conn w) (files w)) a)
  end.
Definition console_run {E} (es : list ConsoleEvent) (a : App) : res E App :=
  foldl (fun a e => a ← a; console_step e a) (Ok a) es.
End App.
