(* ===== verification/ConsoleFormat.v ===== *)
(** * Messages as the console shows them
    (crates/ros-z-console/src/core/message_formatter.rs)

    A dynamic message as a JSON value, and as indented text.  The text of a float is
    the shortest that reads back as it, a parameter ([FloatDisplay]).  The theorem:
    the JSON of a message determines the message as it would be received, when its
    floats are finite and its fields have different names. *)
From stdpp Require Import gmap strings.
From S2P Require Import Prelude Utf8 RustStr CdrDeserializer DynTypes DynCdr Config.
Open Scope string_scope.

(** ** Definitions *)

Class FloatDisplay := { f32_fmt : Z -> string; f64_fmt : Z -> string }.

(** *** JSON *)

(** [x as f64] for the bits of an [f32]. *)
Definition f32_as_f64 (bits : Z) : Z :=
  let sign := Z.shiftl (Z.shiftr bits 31) 63 in
  let e := (Z.shiftr bits 23 mod 2 ^ 8)%Z in
  let m := (bits mod 2 ^ 23)%Z in
  if (e =? 255)%Z then (sign + 2047 * 2 ^ 52 + m * 2 ^ 29)%Z
  else if (e =? 0)%Z then
    if (m =? 0)%Z then sign
    else let k := Z.log2 m in (sign + (k + 874) * 2 ^ 52 + (m - 2 ^ k) * 2 ^ (52 - k))%Z
  else (sign + (e + 896) * 2 ^ 52 + m * 2 ^ 29)%Z.
(** [Number::from_f64(x).map(Value::Number).unwrap_or(Value::Null)]: the exponent of
    an infinity or a NaN is all ones. *)
Definition f64_is_finite (bits : Z) : bool := negb (Z.shiftr bits 52 mod 2 ^ 11 =? 2047)%Z.
Definition json_of_f64 (bits : Z) : Json := if f64_is_finite bits then JFloat bits else JNull.

Fixpoint dynamic_value_to_json (value : DynamicValue) : Json :=
  match value with
  | VlBool b => JBool b
  | VlInt8 i | VlInt16 i | VlInt32 i | VlInt64 i => JNumber i
  | VlUint8 u | VlUint16 u | VlUint32 u | VlUint64 u => JNumber u
  | VlFloat32 f => json_of_f64 (f32_as_f64 f)
  | VlFloat64 f => json_of_f64 f
  | VlString s => JString s
  | VlBytes b => JArray (map (fun byte => JNumber (u8_of_byte byte)) b)
  | VlMessage msg => dynamic_message_to_json msg
  | VlArray arr => JArray (map dynamic_value_to_json arr)
  end
with dynamic_message_to_json (msg : DynamicMessage) : Json :=
  match msg with
  | mkMessage s vs => obj (zip_with (fun f json => (field_name f, json)) (fields s) (map dynamic_value_to_json vs))
  end.

(** *** Text *)

(** [format!("{}", i)] for a signed integer. *)
Definition Z_fmt (i : Z) : string := if (i <? 0)%Z then "-" ++ Z_dec (- i) else Z_dec i.
Fixpoint indentation (n : nat) : string := match n with O => "" | S n => "  " ++ indentation n end.
Definition endl : string := String "010" "".
Definition quote : string := String "034" "".

Section Pretty.
Context `{FloatDisplay}.
(** What [format_value_pretty] pushes. *)
Fixpoint format_value_pretty (value : DynamicValue) (name : string) (indent : nat) : string :=
  let prefix := indentation indent in
  match value with
  | VlBool b => prefix ++ name ++ ": " ++ (if b then "true" else "false") ++ endl
  | VlInt8 i | VlInt16 i | VlInt32 i | VlInt64 i => prefix ++ name ++ ": " ++ Z_fmt i ++ endl
  | VlUint8 u | VlUint16 u | VlUint32 u | VlUint64 u => prefix ++ name ++ ": " ++ Z_fmt u ++ endl
  | VlFloat32 f => prefix ++ name ++ ": " ++ f32_fmt f ++ endl
  | VlFloat64 f => prefix ++ name ++ ": " ++ f64_fmt f ++ endl
  | VlString s => prefix ++ name ++ ": " ++ quote ++ s ++ quote ++ endl
  | VlBytes b => prefix ++ name ++ ": [bytes: " ++ Z_dec (Z.of_nat (length b)) ++ " bytes]" ++ endl
  | VlMessage (mkMessage s vs) =>
      prefix ++ name ++ ":" ++ endl
      ++ String.concat "" (zip_with (fun f show => show (field_name f) (S indent)) (fields s) (map format_value_pretty vs))
  | VlArray arr =>
      if Nat.eqb (length arr) 0 then prefix ++ name ++ "[]: []" ++ endl
      else prefix ++ name ++ "[" ++ Z_dec (Z.of_nat (length arr)) ++ "]:" ++ endl
           ++ String.concat "" (imap (fun i show => show ("[" ++ Z_dec (Z.of_nat i) ++ "]") (S indent)) (map format_value_pretty arr))
  end.
Definition format_message_pretty (msg : DynamicMessage) : string :=
  String.concat "" (map (fun '(name, value) => format_value_pretty value name 0) (message_iter msg)).
End Pretty.

(** ** Properties *)

(** The message's fields are those that [iter] gives. *)
Lemma message_json_iter m : dynamic_message_to_json m = obj (map (fun '(name, value) => (name, dynamic_value_to_json value)) (message_iter m)).
Proof.
  destruct m as [s vs]. unfold message_iter. cbn. f_equal. generalize (fields s). induction vs as [|v vs IH]; intros [|f fs]; cbn; [done..|].
  by rewrite IH.
Qed.

(** All floats are finite. *)
Fixpoint finite_value (value : DynamicValue) : Prop :=
  match value with
  | VlFloat32 f => f64_is_finite (f32_as_f64 f) = true
  | VlFloat64 f => f64_is_finite f = true
  | VlMessage msg => finite_message msg
  | VlArray arr => all finite_value arr
  | _ => True
  end
with finite_message (msg : DynamicMessage) : Prop :=
  match msg with mkMessage _ vs => all finite_value vs end.

(** No two fields of a message have the same name. *)
Fixpoint names_differ (t : FieldType) : Prop :=
  match t with
  | TyMessage s => schema_names_differ s
  | TyArray inner _ | TySequence inner | TyBoundedSequence inner _ => names_differ inner
  | _ => True
  end
with schema_names_differ (s : MessageSchema) : Prop :=
  match s with mkSchema _ _ _ fs _ => NoDup (map field_name fs) /\ all field_names_differ fs end
with field_names_differ (f : FieldSchema) : Prop := match f with mkField _ t _ => names_differ t end.

(** *** Floats *)

Lemma split_f64 s e m s' e' m' :
  (0 <= s <= 1)%Z -> (0 <= s' <= 1)%Z -> (0 <= e < 2048)%Z -> (0 <= e' < 2048)%Z -> (0 <= m < 2 ^ 52)%Z -> (0 <= m' < 2 ^ 52)%Z ->
  (s * 2 ^ 63 + e * 2 ^ 52 + m = s' * 2 ^ 63 + e' * 2 ^ 52 + m')%Z -> s = s' /\ e = e' /\ m = m'.
Proof. lia. Qed.

Lemma f32_as_f64_parts bits : u_range 32 bits -> exists s e m E M,
  (0 <= s <= 1)%Z /\ (0 <= e < 256)%Z /\ (0 <= m < 2 ^ 23)%Z /\ bits = (s * 2 ^ 31 + e * 2 ^ 23 + m)%Z /\
  (0 <= E < 2048)%Z /\ (0 <= M < 2 ^ 52)%Z /\ f32_as_f64 bits = (s * 2 ^ 63 + E * 2 ^ 52 + M)%Z /\
  (e = 255%Z /\ E = 2047%Z \/
   e = 0%Z /\ m = 0%Z /\ E = 0%Z \/
   e = 0%Z /\ (0 < m)%Z /\ E = (Z.log2 m + 874)%Z /\ M = ((m - 2 ^ Z.log2 m) * 2 ^ (52 - Z.log2 m))%Z /\ (Z.log2 m < 23)%Z \/
   (0 < e < 255)%Z /\ E = (e + 896)%Z /\ M = (m * 2 ^ 29)%Z).
Proof.
  intros [H0 H1]. unfold f32_as_f64. rewrite Z.shiftl_mul_pow2, !Z.shiftr_div_pow2 by lia.
  set (s := (bits / 2 ^ 31)%Z). set (e := ((bits / 2 ^ 23) mod 2 ^ 8)%Z). set (m := (bits mod 2 ^ 23)%Z).
  assert (Hs : (0 <= s <= 1)%Z).
  { split; [by apply Z.div_pos|]. enough (s < 2)%Z by lia. apply Z.div_lt_upper_bound; lia. }
  assert (He : (0 <= e < 256)%Z) by by apply (Z.mod_pos_bound _ (2 ^ 8)).
  assert (Hm : (0 <= m < 2 ^ 23)%Z) by by apply (Z.mod_pos_bound _ (2 ^ 23)).
  assert (B : bits = (s * 2 ^ 31 + e * 2 ^ 23 + m)%Z).
  { pose proof (Z.div_mod bits (2 ^ 23) ltac:(lia)) as D1. pose proof (Z.div_mod (bits / 2 ^ 23) (2 ^ 8) ltac:(lia)) as D2.
    rewrite Z.div_div in D2 by lia. change (2 ^ 23 * 2 ^ 8)%Z with (2 ^ 31)%Z in D2. fold s e in D2. fold m in D1. lia. }
  clearbody s e m. exists s, e, m.
  destruct (Z.eqb_spec e 255) as [->|N1]; [exists 2047%Z, (m * 2 ^ 29)%Z; repeat (split; [lia|]); by left|].
  destruct (Z.eqb_spec e 0) as [->|N0]; [|exists (e + 896)%Z, (m * 2 ^ 29)%Z; repeat (split; [lia|]); do 3 right; repeat split; lia].
  destruct (Z.eqb_spec m 0) as [->|Nm]; [exists 0%Z, 0%Z; repeat (split; [lia|]); right; by left|].
  assert (L : (0 <= Z.log2 m < 23)%Z) by (split; [apply Z.log2_nonneg | apply Z.log2_lt_pow2; lia]).
  destruct (Z.log2_spec m) as [L1 L2]; [lia|]. rewrite Z.pow_succ_r in L2 by lia.
  exists (Z.log2 m + 874)%Z, ((m - 2 ^ Z.log2 m) * 2 ^ (52 - Z.log2 m))%Z.
  assert (P : (2 ^ 52 = 2 ^ Z.log2 m * 2 ^ (52 - Z.log2 m))%Z) by (rewrite <- Z.pow_add_r by lia; f_equal; lia).
  assert (0 < 2 ^ (52 - Z.log2 m))%Z by (apply Z.pow_pos_nonneg; lia).
  assert (M : (0 <= (m - 2 ^ Z.log2 m) * 2 ^ (52 - Z.log2 m) < 2 ^ 52)%Z) by (rewrite P; nia).
  repeat (split; [lia|]). right; right; left. repeat split; lia.
Qed.

Lemma f64_finite_exp s E M : (0 <= s <= 1)%Z -> (0 <= E < 2048)%Z -> (0 <= M < 2 ^ 52)%Z ->
  f64_is_finite (s * 2 ^ 63 + E * 2 ^ 52 + M) = true -> E <> 2047%Z.
Proof.
  intros Hs HE HM F ->. unfold f64_is_finite in F. rewrite Z.shiftr_div_pow2 in F by lia.
  assert (D : ((s * 2 ^ 63 + 2047 * 2 ^ 52 + M) / 2 ^ 52 = s * 2 ^ 11 + 2047)%Z).
  { symmetry. apply (Z.div_unique _ _ _ M); lia. }
  assert (R : ((s * 2 ^ 11 + 2047) mod 2 ^ 11 = 2047)%Z) by (symmetry; apply (Z.mod_unique _ _ s); lia).
  by rewrite D, R in F.
Qed.

(** Widening loses no [f32] that is finite. *)
Lemma f32_as_f64_inj x y : u_range 32 x -> u_range 32 y ->
  f64_is_finite (f32_as_f64 x) = true -> f32_as_f64 x = f32_as_f64 y -> x = y.
Proof.
  intros Hx Hy F E.
  destruct (f32_as_f64_parts x Hx) as (s & e & m & E1 & M1 & Hs & He & Hm & -> & HE & HM & R & C).
  destruct (f32_as_f64_parts y Hy) as (s' & e' & m' & E2 & M2 & Hs' & He' & Hm' & -> & HE' & HM' & R' & C').
  rewrite R in F. apply f64_finite_exp in F; [|done..]. rewrite R, R' in E.
  apply split_f64 in E as (-> & -> & ->); [|done..].
  destruct C as [C|[C|[C|C]]], C' as [C'|[C'|[C'|C']]]; try lia.
  - pose proof (Z.log2_nonneg m'). lia.
  - pose proof (Z.log2_nonneg m). lia.
  - destruct C as (-> & Pm & L & Mm & _), C' as (-> & Pm' & L' & Mm' & _).
    assert (K : Z.log2 m = Z.log2 m') by lia. rewrite K in Mm. rewrite Mm in Mm'.
    apply Z.mul_cancel_r in Mm'; [lia|]. apply Z.pow_nonzero; [lia|].
    assert (Z.log2 m' < 23)%Z by (apply Z.log2_lt_pow2; lia). lia.
Qed.

Lemma json_of_f64_inj x y : f64_is_finite x = true -> f64_is_finite y = true -> json_of_f64 x = json_of_f64 y -> x = y.
Proof. unfold json_of_f64. by intros -> -> [= ->]. Qed.

(** *** Objects *)

Lemma map_get_fold k l acc : ~ k ∈ map fst l ->
  map_get k (foldl (fun m kv => map_insert kv.1 kv.2 m) acc l) = map_get k acc.
Proof.
  revert acc. induction l as [|[k' v] l IH]; intros acc N; [done|]. cbn in *. rewrite IH by set_solver.
  apply map_get_insert_ne. set_solver.
Qed.
Lemma map_get_obj l acc i k v : NoDup (map fst l) -> l !! i = Some (k, v) ->
  map_get k (foldl (fun m kv => map_insert kv.1 kv.2 m) acc l) = Some v.
Proof.
  revert acc i. induction l as [|[k' w] l IH]; intros acc i D L; [done|]. cbn in D. apply NoDup_cons in D as [N D].
  destruct i as [|i]; cbn in *; [|by eapply IH]. injection L as -> ->. rewrite map_get_fold by done. apply map_get_insert_eq.
Qed.

Lemma obj_inj (names : list string) (js ks : list Json) : NoDup names -> length js = length names -> length ks = length names ->
  obj (zip_with pair names js) = obj (zip_with pair names ks) -> js = ks.
Proof.
  intros D Lj Lk E. unfold obj in E. injection E as E. apply list_eq_same_length with (length names); [done..|].
  intros i x y Hi Hx Hy. destruct (lookup_lt_is_Some_2 names i Hi) as [k K].
  assert (Z : forall l : list Json, length l = length names -> map fst (zip_with pair names l) = names).
  { intros l Ll. revert Ll. clear. revert l. induction names as [|n names IH]; intros [|j l] Ll; try done. cbn. by rewrite IH by (cbn in Ll; lia). }
  assert (G : forall (l : list Json) z, length l = length names -> l !! i = Some z ->
    map_get k (foldl (fun m kv => map_insert kv.1 kv.2 m) [] (zip_with pair names l)) = Some z).
  { intros l z Ll Hz. apply (map_get_obj _ _ i); [by rewrite Z|]. rewrite lookup_zip_with, K. cbn. by rewrite Hz. }
  pose proof (G js x Lj Hx) as G1. rewrite E, (G ks y Lk Hy) in G1. congruence.
Qed.

(** *** The JSON determines the message *)

Section Determines.
Context `{DL : DynLayout}.

(** Bytes and sequences of [uint8] have the same JSON. *)
Definition json_of_byte (b : byte) : Json := JNumber (u8_of_byte b).
Lemma json_uint8s b vs : all (typed b TyUint8) vs -> map dynamic_value_to_json vs = map json_of_byte (map byte_of_value vs).
Proof.
  induction vs as [|v vs IH]; [done|]. cbn [all]. intros [T A]. cbn [map]. rewrite IH by done. f_equal.
  destruct v; try done. cbn in *. unfold json_of_byte. rewrite u8_of_byte_of_Z, Z.mod_small; [done | by destruct T].
Qed.
Lemma json_of_byte_inj l l' : map json_of_byte l = map json_of_byte l' -> l = l'.
Proof.
  revert l'. induction l as [|b l IH]; intros [|c l'] E; try done. cbn in E. injection E as E1 E2.
  f_equal; [by apply u8_of_byte_inj | by apply IH].
Qed.

(** Values of a type with the same JSON are received as the same. *)
Definition json_determines (t : FieldType) : Prop := names_differ t -> forall v w,
  typed true t v -> typed true t w -> finite_value v -> finite_value w ->
  dynamic_value_to_json v = dynamic_value_to_json w -> norm t v = norm t w.

Lemma json_determines_list t vs ws : json_determines t -> names_differ t ->
  all (typed true t) vs -> all (typed true t) ws -> all finite_value vs -> all finite_value ws ->
  map dynamic_value_to_json vs = map dynamic_value_to_json ws -> map (norm t) vs = map (norm t) ws.
Proof.
  intros J N. revert ws. induction vs as [|v vs IH]; intros [|w ws] Tv Tw Fv Fw E; try done. cbn in *.
  injection E as E1 E2. destruct Tv, Tw, Fv, Fw. f_equal; [by apply J | by apply IH].
Qed.

Lemma json_determines_scalar t : scalar_type t = true -> json_determines t.
Proof.
  intros S _ v w Tv Tw Fv Fw E.
  destruct t; try done; destruct v; try done; destruct w; try done; cbn in E |- *; try congruence; f_equal.
  - exact (f32_as_f64_inj _ _ Tv Tw Fv (json_of_f64_inj _ _ Fv Fw E)).
  - exact (json_of_f64_inj _ _ Fv Fw E).
Qed.

Lemma json_determines_sequence t bounded vs ws : json_determines t -> names_differ t ->
  (match bounded with Some n => typed true (TyBoundedSequence t n) vs | None => typed true (TySequence t) vs end) ->
  (match bounded with Some n => typed true (TyBoundedSequence t n) ws | None => typed true (TySequence t) ws end) ->
  finite_value vs -> finite_value ws -> dynamic_value_to_json vs = dynamic_value_to_json ws ->
  norm (TySequence t) vs = norm (TySequence t) ws.
Proof.
  intros J N Tv Tw Fv Fw E.
  assert (Tv' : typed true (TySequence t) vs) by (destruct bounded; [|done]; destruct vs; try done; by destruct Tv).
  assert (Tw' : typed true (TySequence t) ws) by (destruct bounded; [|done]; destruct ws; try done; by destruct Tw).
  clear Tv Tw. destruct (is_uint8 t) eqn:U.
  - destruct t; try done. destruct vs as [| | | | | | | | | | | |bs| |vs], ws as [| | | | | | | | | | | |cs| |ws]; try done;
      cbn in Tv', Tw'; cbn [dynamic_value_to_json] in E; injection E as E; cbn [norm is_uint8]; f_equal; apply json_of_byte_inj;
      rewrite <- ?(json_uint8s true) by (by destruct Tv', Tw'); done.
  - destruct vs as [| | | | | | | | | | | |bs| |vs], ws as [| | | | | | | | | | | |cs| |ws]; try done;
      try (cbn in Tv'; rewrite U in Tv'; by destruct Tv'); try (cbn in Tw'; rewrite U in Tw'; by destruct Tw').
    cbn [dynamic_value_to_json] in E. injection E as E. cbn [norm]. rewrite U. f_equal.
    destruct Tv' as [_ Tv'], Tw' as [_ Tw']. by apply json_determines_list.
Qed.

Lemma all2_length {A C} (P : A -> C -> Prop) l k : all2 P l k -> length k = length l.
Proof. revert k. induction l as [|x l IH]; intros [|y k] H; try done. cbn in *. destruct H. by rewrite (IH k). Qed.

Lemma json_determines_fields fs vs ws : Forall (fun f => json_determines (field_type f)) fs -> all field_names_differ fs ->
  all2 (field_typed true) fs vs -> all2 (field_typed true) fs ws -> all finite_value vs -> all finite_value ws ->
  map dynamic_value_to_json vs = map dynamic_value_to_json ws -> zip_with norm_field fs vs = zip_with norm_field fs ws.
Proof.
  intros F. revert vs ws. induction F as [|[n t d] fs J F IH]; intros vs ws N Tv Tw Fv Fw E; [done|].
  destruct vs as [|v vs]; [done|]. destruct ws as [|w ws]; [done|]. cbn in *.
  injection E as E1 E2. destruct N, Tv, Tw, Fv, Fw. f_equal; [by apply J | by apply IH].
Qed.

Lemma json_determines_message s m m' : Forall (fun f => json_determines (field_type f)) (fields s) -> schema_names_differ s ->
  message_typed true s m -> message_typed true s m' -> finite_message m -> finite_message m' ->
  dynamic_message_to_json m = dynamic_message_to_json m' -> norm_message s m = norm_message s m'.
Proof.
  destruct s as [tn pk nm fs th], m as [s vs], m' as [s' ws]. cbn. intros F [D N] [-> Tv] [-> Tw] Fv Fw E. f_equal.
  apply json_determines_fields; try done.
  assert (Z : forall js : list Json, zip_with (fun f json => (field_name f, json)) fs js = zip_with pair (map field_name fs) js).
  { clear. induction fs as [|f fs IH]; intros [|j js]; cbn; by rewrite ?IH. }
  cbn [fields] in E. rewrite !Z in E. apply obj_inj in E; [done | done | |]; rewrite !length_map; by eapply all2_length.
Qed.

Lemma json_determines_all : forall t, json_determines t.
Proof.
  apply field_type_nested_ind; [by apply json_determines_scalar | | | |].
  - intros s F N v w Tv Tw Fv Fw E. destruct v as [| | | | | | | | | | | | |m|]; try done.
    destruct w as [| | | | | | | | | | | | |m'|]; try done. cbn [norm]. f_equal. by apply json_determines_message.
  - intros t n J N v w Tv Tw Fv Fw E. destruct v as [| | | | | | | | | | | | | |vs]; try done.
    destruct w as [| | | | | | | | | | | | | |ws]; try done. cbn in Tv, Tw. destruct Tv as [_ Tv], Tw as [_ Tw].
    cbn [dynamic_value_to_json] in E. injection E as E. cbn [norm]. f_equal. by apply json_determines_list.
  - intros t J N v w. by apply (json_determines_sequence t None).
  - intros t n J N v w. by apply (json_determines_sequence t (Some n)).
Qed.

(** C40 The JSON that the console prints for a message says all of it: two messages of
    a schema whose fields have different names, with finite floats, that are printed as
    the same JSON are the same to whoever receives them, nested messages and sequences
    included; only an infinity or a NaN, which is printed as null, is lost. *)
Theorem message_json_determines s m m' :
  schema_names_differ s -> message_typed true s m -> message_typed true s m' ->
  finite_message m -> finite_message m' ->
  dynamic_message_to_json m = dynamic_message_to_json m' -> norm_message s m = norm_message s m'.
Proof.
  intros N Tm Tm' Fm Fm' E. apply json_determines_message; try done.
  apply Forall_forall. intros f _. apply json_determines_all.
Qed.

End Determines.

(** ** An example *)

#[local] Existing Instance ex_layout.

Definition ex_reading : MessageSchema :=
  mkSchema "demo/msg/Reading" "demo" "Reading"
    [mkField "ok" TyBool None; mkField "value" TyFloat32 None; mkField "raw" (TySequence TyUint8) None] None.
(** 0.1, as an [f32]; its bytes once as [Bytes] and once one by one. *)
Definition ex_reading_bytes : DynamicMessage :=
  mkMessage ex_reading [VlBool true; VlFloat32 1036831949; VlBytes [x01; xff]].
Definition ex_reading_array : DynamicMessage :=
  mkMessage ex_reading [VlBool true; VlFloat32 1036831949; VlArray [VlUint8 1; VlUint8 255]].
Lemma message_json_determines_witness :
  dynamic_message_to_json ex_reading_bytes =
    JObject [("ok", JBool true); ("raw", JArray [JNumber 1; JNumber 255]); ("value", JFloat 4591870180174331904)] /\
  norm_message ex_reading ex_reading_bytes = norm_message ex_reading ex_reading_array.
Proof.
  split; [reflexivity|].
  refine (message_json_determines ex_reading _ _ _ _ _ _ _ _).
  - split; [|done]. repeat constructor; set_solver.
  - cbn. repeat split; lia.
  - cbn. repeat split; try lia; done.
  - cbn. repeat split.
  - cbn. repeat split.
  - reflexivity.
Defined.
