(* ===== verification/ConsoleMonitor.v ===== *)
(** * The console: monitoring and exports
    (crates/ros-z-console/src/core/engine.rs, events.rs, metrics.rs, export.rs,
    modes/headless.rs)

    The passes of the monitor, which tell the event bus what topics have come and
    gone since the pass before; the events as text, the lists that the headless mode
    starts with, and the exports of the graph.  The theorem: who replays the events
    knows the topics. *)
From stdpp Require Import gmap strings.
From S2P Require Import Prelude RustStr RustText RustColl Entity RmwZenoh Graph ConsoleText ConsoleFormat.
Open Scope string_scope.

(** ** Definitions *)

(** *** events.rs and metrics.rs *)

Inductive SystemEvent :=
| TopicDiscovered (topic type_name : string) (timestamp : Z)
| TopicRemoved (topic : string) (timestamp : Z)
| RateMeasured (topic : string) (rate_hz bandwidth_kbps : f64) (timestamp : Z)
| NodeDiscovered (namespace name : string) (timestamp : Z)
| NodeRemoved (namespace name : string) (timestamp : Z)
| ServiceDiscovered (service type_name : string) (timestamp : Z)
| MetricsSnapshot (total_topics total_nodes total_services timestamp : Z).
Definition to_human_readable (e : SystemEvent) : string :=
  match e with
  | TopicDiscovered topic type_name _ => "Topic discovered: " ++ topic ++ " (" ++ type_name ++ ")"
  | TopicRemoved topic _ => "Topic removed: " ++ topic
  | RateMeasured topic rate_hz bandwidth_kbps _ =>
      "Topic " ++ topic ++ " rate: " ++ f64_fixed 1 rate_hz ++ " Hz, " ++ f64_fixed 2 bandwidth_kbps ++ " KB/s"
  | NodeDiscovered namespace name _ => "Node discovered: " ++ namespace ++ "/" ++ name
  | NodeRemoved namespace name _ => "Node removed: " ++ namespace ++ "/" ++ name
  | ServiceDiscovered service type_name _ => "Service discovered: " ++ service ++ " (" ++ type_name ++ ")"
  | MetricsSnapshot t n s _ =>
      "Snapshot: " ++ Z_dec t ++ " topics, " ++ Z_dec n ++ " nodes, " ++ Z_dec s ++ " services"
  end.

(** [struct MetricRecord]; the bits of its floats. *)
Record MetricRecord := mkMetricRecord {
  mr_timestamp : Z;
  mr_topic : string;
  rate_hz : Z;
  bandwidth_kbps : Z;
  avg_payload_bytes : Z;
}.

Section Engine.
Context `{ZA : ZenohApi} {SL : SlabApi} {HO : HashOrder}.
Variable parser : string -> option Entity.

(** *** The monitor (engine.rs) *)

(** One pass of the loop of [start_monitoring], after its sleep; [last_state] is the
    topics of the pass before. *)
Definition monitor_pass (now : Z) (d : GraphData) (last_state : gmap string string)
    : GraphData * list SystemEvent * gmap string string :=
  let '(d, current_topics) := get_topic_names_and_types parser d in
  let discovered := omap (fun '(topic, type_name) =>
    if decide (is_Some (last_state !! topic)) then None else Some (TopicDiscovered topic type_name now)) current_topics in
  let removed := omap (fun '(topic, _) =>
    if existsb (fun '(t, _) => String.eqb t topic) current_topics then None else Some (TopicRemoved topic now))
    (map_order _ last_state) in
  (d, (discovered ++ removed)%list, foldl (fun m '(topic, type_name) => <[topic := type_name]> m) ∅ current_topics).
(** The passes: when each is and what the graph is then. *)
Definition monitor_run (passes : list (Z * GraphData)) : list SystemEvent * gmap string string :=
  foldl (fun '(events, last_state) '(now, d) =>
    let '(_, more, last_state) := monitor_pass now d last_state in (events ++ more, last_state)%list)
    ([], ∅) passes.

(** *** The headless mode (modes/headless.rs) *)

Definition line_feed : string := String newline "".
Definition listing {A} (title : string) (entry : A -> string) (l : list A) : string :=
  title ++ line_feed ++ collect (map (fun x => "  " ++ entry x ++ line_feed) l)
  ++ (if Nat.eqb (length l) 0 then "  (none)" ++ line_feed else "").
Definition print_initial_state (d : GraphData) : GraphData * string :=
  let '(d, topics) := get_topic_names_and_types parser d in
  let '(d, services) := get_service_names_and_types parser d in
  let '(d, nodes) := get_node_names parser d in
  (d, listing "Discovered Topics:" (fun '(topic, type_name) => "📡 " ++ topic ++ " (" ++ type_name ++ ")") topics
      ++ listing "Discovered Services:" (fun '(service, type_name) => "🔌 " ++ service ++ " (" ++ type_name ++ ")") services
      ++ listing "Discovered Nodes:" (fun '(name, namespace) => "🤖 " ++ namespace ++ "/" ++ name) nodes).

(** *** Exports (export.rs) *)

(** The endpoints of a topic, and the node of each for a line. *)
Definition dot_edges {E} (d : GraphData) (kind : EntityKind) (topic : string) (edge : string -> string) : res E (GraphData * string) :=
  '(d, l) ← get_entities_by_topic parser d kind topic;
  let text := collect (map (fun endpoint =>
    edge (node_namespace (ep_node endpoint) ++ "/" ++ node_name (ep_node endpoint)) ++ line_feed) (endpoints d l)) in
  Ok (foldl arc_drop d l, text).
Definition quoted (s : string) : string := quote ++ s ++ quote.
Fixpoint dot_topics {E} (d : GraphData) (l : list (string * string)) : res E (GraphData * string) :=
  match l with
  | [] => Ok (d, "")
  | (topic, type_name) :: l =>
      let topic_id := quoted ("topic:" ++ topic) in
      let node := "  " ++ topic_id ++ " [label=" ++ quoted (topic ++ "\n" ++ type_name)
                  ++ ", shape=ellipse, fillcolor=lightgreen, style=filled];" ++ line_feed in
      '(d, pubs) ← dot_edges d KPublisher topic (fun node_id => "  " ++ quoted node_id ++ " -> " ++ topic_id ++ " [color=blue];");
      '(d, subs) ← dot_edges d KSubscription topic (fun node_id => "  " ++ topic_id ++ " -> " ++ quoted node_id ++ " [color=green];");
      '(d, rest) ← dot_topics d l;
      Ok (d, node ++ pubs ++ subs ++ rest)
  end.
Definition export_dot {E} (d : GraphData) : res E (GraphData * string) :=
  let '(d, nodes) := get_node_names parser d in
  let node_lines := collect (map (fun '(name, namespace) =>
    "  " ++ quoted (namespace ++ "/" ++ name) ++ " [label=" ++ quoted name ++ ", fillcolor=lightblue, style=filled];" ++ line_feed) nodes) in
  let '(d, topics) := get_topic_names_and_types parser d in
  '(d, topic_lines) ← dot_topics d topics;
  Ok (d, "digraph ROS_Graph {" ++ line_feed ++ "  rankdir=LR;" ++ line_feed ++ "  node [shape=box];" ++ line_feed ++ line_feed
         ++ node_lines ++ topic_lines ++ "}" ++ line_feed).
Definition export_csv `{FloatDisplay} (history : list MetricRecord) : string :=
  "timestamp,topic,rate_hz,bandwidth_kbps,avg_payload_bytes" ++ line_feed
  ++ collect (map (fun r => Z_dec (mr_timestamp r) ++ "," ++ mr_topic r ++ "," ++ f64_fmt (rate_hz r) ++ ","
                            ++ f64_fmt (bandwidth_kbps r) ++ "," ++ Z_dec (avg_payload_bytes r) ++ line_feed) history).
End Engine.

(** ** Properties *)

Section Proofs.
Context `{ZA : ZenohApi} {SL : SlabApi} {HO : HashOrder} `{HL : !HashOrderLaws}.
Context (parser : string -> option Entity).

(** What a reader of the events knows: a topic comes only when it is not there, and
    goes only when it is. *)
Definition replay_one (known : option (gset string)) (e : SystemEvent) : option (gset string) :=
  known ← known;
  match e with
  | TopicDiscovered topic _ _ => if decide (topic ∈ known) then None else Some ({[topic]} ∪ known)
  | TopicRemoved topic _ => if decide (topic ∈ known) then Some (known ∖ {[topic]}) else None
  | _ => Some known
  end.
Definition replay (known : gset string) (events : list SystemEvent) : option (gset string) := foldl replay_one (Some known) events.

(** The topics of a graph at a pass. *)
Definition topic_names (d : GraphData) : list string := map fst (get_topic_names_and_types parser d).2.

Lemma omap_fst_sublist {A} (f : string * A -> option (string * string)) l :
  (forall x y, f x = Some y -> y.1 = x.1) -> sublist (map fst (omap f l)) (map fst l).
Proof.
  intros H. induction l as [|x l IH]; [constructor|]. cbn. destruct (f x) as [y|] eqn:E; cbn; [|by constructor].
  rewrite (H _ _ E). by constructor.
Qed.

Lemma topic_names_NoDup d : NoDup (topic_names d).
Proof.
  unfold topic_names, get_topic_names_and_types, names_and_types. cbn [snd].
  eapply sublist_NoDup; [|apply omap_fst_sublist].
  - rewrite map_order_perm. apply NoDup_fst_map_to_list.
  - intros [name s] y. cbn. destruct (first_type _ _); [|done]. by intros [= <-].
Qed.

Lemma replay_app known l l' : replay known (l ++ l') = (k ← replay known l; replay k l').
Proof.
  unfold replay. rewrite foldl_app. destruct (foldl replay_one (Some known) l); [done|]. cbn.
  induction l'; done.
Qed.

Lemma replay_discovered (last_state : gmap string string) now l known :
  NoDup (map fst l) -> (forall t, t ∈ map fst l -> t ∈ known <-> is_Some (last_state !! t)) ->
  replay known (omap (fun '(topic, type_name) =>
    if decide (is_Some (last_state !! topic)) then None else Some (TopicDiscovered topic type_name now)) l)
  = Some (known ∪ list_to_set (map fst l)).
Proof.
  revert known. induction l as [|[t ty] l IH]; intros known D K; [cbn; f_equal; set_solver|].
  cbn in D. apply NoDup_cons in D as [N D]. cbn [omap list_omap map fst]. assert (Kt := K t ltac:(set_solver)).
  case_decide as L.
  - rewrite IH; [f_equal; set_solver | done|]. intros t' H. apply K. set_solver.
  - unfold replay. cbn [foldl replay_one mbind option_bind]. rewrite decide_False by tauto.
    change (replay ({[t]} ∪ known) (omap (fun '(topic, type_name) =>
      if decide (is_Some (last_state !! topic)) then None else Some (TopicDiscovered topic type_name now)) l) = Some (known ∪ list_to_set (t :: map fst l))).
    rewrite IH; [f_equal; set_solver | done|]. intros t' H. rewrite <- (K t') by set_solver. set_solver.
Qed.

Lemma replay_removed now (current : list (string * string)) l known :
  NoDup (map fst l) -> (forall t, t ∈ map fst l -> t ∈ known) ->
  replay known (omap (fun '(topic, _) =>
    if existsb (fun '(t, _) => String.eqb t topic) current then None else Some (TopicRemoved topic now)) (l : list (string * string)))
  = Some (known ∖ (list_to_set (map fst l) ∖ list_to_set (map fst current))).
Proof.
  revert known. induction l as [|[t ty] l IH]; intros known D K; [cbn; f_equal; set_solver|].
  cbn in D. apply NoDup_cons in D as [N D]. cbn [omap list_omap map fst].
  assert (C : existsb (fun '(t', _) => String.eqb t' t) current = true <-> t ∈ map fst current).
  { rewrite existsb_exists. split.
    - intros ([t' ty'] & H%list_elem_of_In & ->%String.eqb_eq). by apply (list_elem_of_fmap_2 fst _ (t, ty')).
    - intros H. apply list_elem_of_fmap in H as ([t' ty'] & -> & H%list_elem_of_In). exists (t', ty'). cbn. by rewrite String.eqb_refl. }
  destruct (existsb _ current) eqn:X.
  - assert (t ∈ map fst current) by by apply C. rewrite IH; [f_equal; set_solver | done | set_solver].
  - assert (t ∉ map fst current) by (intros H; apply C in H; congruence).
    unfold replay. cbn [foldl replay_one mbind option_bind]. rewrite decide_True by set_solver.
    change (replay (known ∖ {[t]}) (omap (fun '(topic, _) =>
      if existsb (fun '(t', _) => String.eqb t' topic) current then None else Some (TopicRemoved topic now)) l)
      = Some (known ∖ (list_to_set (t :: map fst l) ∖ list_to_set (map fst current)))).
    rewrite IH; [f_equal; set_solver | done | set_solver].
Qed.

Lemma collected_dom l (m : gmap string string) :
  dom (foldl (fun m '(topic, type_name) => <[topic := type_name]> m) m l) = dom m ∪ list_to_set (map fst l).
Proof.
  revert m. induction l as [|[t ty] l IH]; intros m; cbn; [set_solver|]. rewrite IH, dom_insert_L. set_solver.
Qed.

Lemma keys_dom (m : gmap string string) t : t ∈ map fst (map_to_list m) <-> t ∈ dom m.
Proof.
  rewrite elem_of_dom. unfold is_Some. rewrite list_elem_of_fmap. split.
  - intros ([k v] & -> & H). exists v. by apply elem_of_map_to_list.
  - intros [v H]. exists (t, v). split; [done|]. by apply elem_of_map_to_list.
Qed.

Lemma monitor_pass_replay now d d' last_state events last_state' : monitor_pass parser now d last_state = (d', events, last_state') ->
  dom last_state' = list_to_set (topic_names d) /\ replay (dom last_state) events = Some (dom last_state').
Proof.
  unfold monitor_pass. pose proof (topic_names_NoDup d) as D. unfold topic_names in *.
  destruct (get_topic_names_and_types parser d) as [d1 current]. cbn [snd] in *. intros [= _ <- <-].
  rewrite collected_dom, dom_empty_L, union_empty_l_L. split; [done|].
  rewrite replay_app, replay_discovered by (try done; intros; apply elem_of_dom). cbn [mbind option_bind].
  assert (O : map fst (map_order _ last_state) ≡ₚ map fst (map_to_list last_state)) by (by rewrite map_order_perm).
  rewrite replay_removed.
  - f_equal. assert (E : list_to_set (map fst (map_order _ last_state)) =@{gset string} dom last_state).
    { rewrite O. apply set_eq. intros t. rewrite elem_of_list_to_set. apply keys_dom. }
    rewrite E. apply set_eq. intros t. destruct (decide (t ∈ map fst current)); set_solver.
  - rewrite O. apply NoDup_fst_map_to_list.
  - intros t H. rewrite O in H. apply elem_of_union_l. by apply keys_dom.
Qed.

(** The events of the monitor are the history of the topics: replayed from the
    start, each topic that is announced was not there and each that is removed was,
    and after every pass what the events have left are exactly the topics that the
    graph listed. *)
Theorem monitor_replays passes now d :
  replay ∅ (monitor_run parser (passes ++ [(now, d)])).1 = Some (list_to_set (topic_names d)).
Proof.
  assert (A : forall passes, replay ∅ (monitor_run parser passes).1 = Some (dom (monitor_run parser passes).2)).
  { clear passes now d. intros passes. induction passes as [|[now d] passes IH] using rev_ind; [cbn; by rewrite dom_empty_L|].
    unfold monitor_run in *. rewrite foldl_snoc. destruct (foldl _ _ passes) as [events last_state]. cbn [fst snd] in *.
    destruct (monitor_pass parser now d last_state) as [[d' more] last_state'] eqn:P. cbn [fst snd].
    rewrite replay_app, IH. cbn. by eapply monitor_pass_replay. }
  rewrite A. f_equal. unfold monitor_run. rewrite foldl_snoc. destruct (foldl _ _ passes) as [events last_state].
  destruct (monitor_pass parser now d last_state) as [[d' more] last_state'] eqn:P. by eapply monitor_pass_replay.
Qed.
End Proofs.

(** ** An example *)

(** A publisher that comes and goes again. *)
From S2P Require Import GraphProps.
#[local] Existing Instances ex_zenoh ex_slab ex_order ex_order_laws.
Definition ex_passes : list (Z * GraphData) := [(1%Z, data ex_graph); (2%Z, data ex_graph)].
Lemma monitor_replays_witness :
  (exists type_name, (monitor_run ex_parser (ex_passes ++ [(3%Z, data_new)])).1
    = [TopicDiscovered "/ns/chatter" type_name 1; TopicRemoved "/ns/chatter" 3]) /\
  replay ∅ (monitor_run ex_parser (ex_passes ++ [(3%Z, data_new)])).1 = Some ∅.
Proof.
  split; [eexists; vm_compute; reflexivity|].
  rewrite (monitor_replays ex_parser ex_passes 3 data_new). f_equal; vm_compute; reflexivity.
Defined.
