(* ===== verification/ConsoleProps.v ===== *)
(** * The console: invariants of its application

    A run of the application is any list of updates, drawings, keys and samples.
    The theorems: what holds after every run, that keys and updates do not panic,
    that the filter line is edited as a text with a cursor is, and what the histories
    of a measured topic hold. *)
From stdpp Require Import gmap strings.
From Stdlib Require Import SpecFloat.
From S2P Require Import Prelude RustStr RustText RustColl Entity RmwZenoh Graph ConsoleText Console.
From S2P Require Config.
Open Scope string_scope.

Create HintDb keeps.

#[local] Arguments push_history : simpl never.

Section Proofs.
Context `{ZA : ZenohApi} {SL : SlabApi} {HO : HashOrder} `{HL : !HashOrderLaws} {JA : Config.JsonApi} {LC : Lowercase} {DA : DbApi} `{DBL : !DbLaws} {KM : KeyExprMatch}.
Context (parser : string -> option Entity).
(** The recordings without an end that the application found in the database. *)
Context (unclosed : gset Z).
Implicit Types (a : App) (out : Outside).

(** ** The parts of the state that the invariant is about *)

Definition measured (a : App) := (measuring_topics (measuring a), topic_metrics (measuring a), multi_subscribers (measuring a)).
Definition modes (a : App) := (quit (screen a), show_help (screen a), spinner_frame (screen a)).
Definition recorded (a : App) := (recording a, open_rows (db_conn (world a))).
Definition view (a : App) := (filter a, measured a, recorded a, live_metrics a, modes a).
(** A step of navigation or status leaves them. *)
Definition keeps (f : App -> App) : Prop := forall a, view (f a) = view a.

Lemma keeps_comp f g : keeps f -> keeps g -> keeps (fun a => f (g a)).
Proof. intros F G a. by rewrite F, G. Qed.
Lemma keeps_iter n f : keeps f -> keeps (Nat.iter n f).
Proof. intros F a. induction n as [|n IH]; [done|]. cbn. by rewrite F. Qed.
Lemma keeps_panels f : keeps (with_panels f).
Proof. done. Qed.
Lemma keeps_status m t : keeps (set_status m t).
Proof. done. Qed.
Lemma keeps_graph d : keeps (set_graph d).
Proof. done. Qed.
Lemma keeps_rate_cache f : keeps (with_rate_cache f).
Proof. done. Qed.
Lemma keeps_caches f : keeps (with_caches f).
Proof. done. Qed.
Lemma keeps_measure_index i : keeps (set_measure_selected_index i).
Proof. done. Qed.
#[local] Hint Resolve keeps_panels keeps_status keeps_graph keeps_rate_cache keeps_caches keeps_measure_index : keeps.

(** Straight line steps and case distinctions. *)
Ltac keeps := intros ?a; repeat case_match; reflexivity.
Lemma keeps_select_next : keeps select_next.
Proof. unfold select_next. keeps. Qed.
Lemma keeps_select_previous : keeps select_previous.
Proof. unfold select_previous. keeps. Qed.
Lemma keeps_scroll_up : keeps scroll_detail_up.
Proof. unfold scroll_detail_up. keeps. Qed.
Lemma keeps_scroll_down : keeps scroll_detail_down.
Proof. done. Qed.
#[local] Hint Resolve keeps_select_next keeps_select_previous keeps_scroll_up keeps_scroll_down : keeps.
Lemma keeps_if (b : App -> bool) f g : keeps f -> keeps g -> keeps (fun a => if b a then f a else g a).
Proof. intros F G a. by destruct (b a). Qed.
Lemma keeps_key_up : keeps key_up.
Proof.
  apply (keeps_if in_list); [auto with keeps|]. by apply (keeps_comp scroll_detail_up), keeps_panels; auto with keeps.
Qed.
Lemma keeps_key_down : keeps key_down.
Proof.
  apply (keeps_if in_list); [auto with keeps|]. intros a. reflexivity.
Qed.
Lemma keeps_page_up : keeps key_page_up.
Proof. apply keeps_iter, (keeps_if in_list); auto with keeps. Qed.
Lemma keeps_page_down : keeps key_page_down.
Proof. apply keeps_iter, (keeps_if in_list); auto with keeps. Qed.
Lemma keeps_key_enter : keeps key_enter.
Proof. unfold key_enter. keeps. Qed.
Lemma keeps_to_list_pane : keeps to_list_pane.
Proof. unfold to_list_pane. keeps. Qed.
Lemma keeps_update_graph_cache out : keeps (update_graph_cache parser out).
Proof. unfold update_graph_cache. keeps. Qed.
Lemma keeps_check_status out : keeps (check_status_timeout out).
Proof. unfold check_status_timeout. keeps. Qed.
#[local] Hint Resolve keeps_key_up keeps_key_down keeps_page_up keeps_page_down keeps_key_enter keeps_to_list_pane
  keeps_update_graph_cache keeps_check_status : keeps.

(** ** The invariant *)

(** The histories of a topic: one value for each update, as many as there is room. *)
Record metrics_ok (tm : TopicMetrics) : Prop := {
  history_bounded : (length (rate_history tm) <= HISTORY_LENGTH)%nat;
  histories_aligned : length (bandwidth_history tm) = length (rate_history tm);
}.
Record console_inv (a : App) : Prop := {
  (** The filter is text, with the cursor before, between or after its [char]s. *)
  inv_text : starts_char (filter_input (filter a)) = true;
  inv_cursor : (filter_cursor (filter a) <= length (chars (filter_input (filter a))))%nat;
  (** One overlay at a time. *)
  inv_modes : filter_mode (filter a) = true -> show_help (screen a) = false;
  (** The topics measured are those with metrics; each has at most one subscriber. *)
  inv_metrics : dom (topic_metrics (measuring a)) = measuring_topics (measuring a);
  inv_subscribers : NoDup (map sub_topic (multi_subscribers (measuring a))) /\
    Forall (fun s => sub_topic s ∈ measuring_topics (measuring a)) (multi_subscribers (measuring a));
  inv_histories : map_Forall (fun _ tm => metrics_ok tm) (topic_metrics (measuring a));
  inv_live : (length (lm_rate_history (live_metrics a)) <= HISTORY_LENGTH)%nat /\
    length (lm_bandwidth_history (live_metrics a)) = length (lm_rate_history (live_metrics a));
  (** A recording has its row: the one row without an end in the database, besides
      those found there. *)
  inv_recording : recording_active (recording a) = true <-> is_Some (recording_id (recording a));
  inv_row : match recording_id (recording a) with
            | Some id => id ∉ unclosed /\ open_rows (db_conn (world a)) = {[id]} ∪ unclosed
            | None => open_rows (db_conn (world a)) = unclosed
            end;
  inv_spinner : (spinner_frame (screen a) < 4)%nat;
}.

Lemma inv_view a a' : view a' = view a -> console_inv a -> console_inv a'.
Proof.
  unfold view, measured, recorded, modes. intros E []. injection E as Ef Et Em Es Er Eo El Eq Eh En.
  constructor; rewrite ?Ef, ?Et, ?Em, ?Es, ?Er, ?Eo, ?El, ?Eh, ?En; done.
Qed.
Lemma inv_keeps f a : keeps f -> console_inv a -> console_inv (f a).
Proof. intros F. apply inv_view, F. Qed.

Lemma console_inv_new domain_id router_addr backend config w t :
  open_rows (db_conn w) = unclosed -> console_inv (App_new domain_id router_addr backend config w t).
Proof.
  intros W. split; try done.
  - split; constructor.
  - cbn. split; [lia|done].
  - by split; [|intros []].
  - cbn. lia.
Qed.

(** ** Each step keeps it *)

Lemma push_history_length l v : (length l <= HISTORY_LENGTH)%nat ->
  length (push_history l v) = Nat.min HISTORY_LENGTH (S (length l)).
Proof.
  unfold push_history, HISTORY_LENGTH. intros H. rewrite length_app.
  destruct (Nat.leb_spec 60 (length l)); [destruct l|]; cbn [length tail] in *; lia.
Qed.

Lemma update_topic_metrics_ok tm : metrics_ok tm -> metrics_ok (update_topic_metrics tm).
Proof.
  intros [B A]. split; cbn; rewrite !push_history_length by (unfold HISTORY_LENGTH in *; lia).
  - unfold HISTORY_LENGTH in *. lia.
  - by rewrite A.
Qed.

Lemma record_sample_keeps out : keeps (record_sample out).
Proof.
  intros a. unfold record_sample. destruct (negb _); [done|]. destruct (recording_id _) as [id|]; [|done].
  unfold view, recorded. do 3 f_equal. cbn. generalize (map_order _ (topic_metrics (measuring a))) as l.
  intros l. generalize (db_conn (world a)) as db. induction l as [|[topic tm] l IH]; intros db; [done|].
  cbn. rewrite IH. by rewrite insert_sample_open.
Qed.

Lemma inv_update_multi out a : console_inv a -> console_inv (update_multi_metrics out a).
Proof.
  intros I. apply (inv_keeps (record_sample out)); [apply record_sample_keeps|].
  destruct I; split; try done; cbn.
  - by rewrite dom_fmap_L.
  - apply map_Forall_fmap. eapply map_Forall_impl; [done|]. intros. by apply update_topic_metrics_ok.
Qed.

Lemma inv_update_live out a : console_inv a -> console_inv (with_live_metrics (update_live_metrics out) a).
Proof.
  intros []. split; try done. destruct inv_live0 as [L L']. cbn.
  rewrite !push_history_length by lia. rewrite L'. unfold HISTORY_LENGTH in *. split; [lia|done].
Qed.
Lemma inv_spin a : console_inv a ->
  console_inv (with_screen (fun s => mkScreenState (quit s) (connection_status s) ((spinner_frame s + 1) mod 4)
                 (take_screenshot s) (show_help s) (status_message s) (status_message_time s)) a).
Proof. intros []. split; try done. apply Nat.mod_upper_bound. lia. Qed.
Lemma inv_update_metrics out a : console_inv a -> console_inv (update_metrics out a).
Proof.
  intros I. apply inv_update_live, inv_spin, (inv_keeps (cleanup_rate_cache out)); [done|].
  apply (inv_keeps (with_screen _)); [by intros []|]. apply inv_keeps; auto with keeps.
Qed.

Lemma inv_update out a : console_inv a -> console_inv (update parser out a).
Proof. intros I. apply inv_update_multi, inv_update_metrics, inv_keeps; auto with keeps. Qed.

(** What one sample does to the metrics: those of the topics of a list of subscribers
    count it once, as the topics differ. *)
Lemma count_dom l len t (m : gmap string TopicMetrics) :
  dom (foldl (fun metrics s => alter (count_sample len t) (sub_topic s) metrics) m l) = dom m.
Proof. revert m. induction l as [|s l IH]; intros m; [done|]. cbn. by rewrite IH, dom_alter_L. Qed.
Lemma count_lookup_ne l len t (m : gmap string TopicMetrics) topic : topic ∉ map sub_topic l ->
  foldl (fun metrics s => alter (count_sample len t) (sub_topic s) metrics) m l !! topic = m !! topic.
Proof.
  revert m. induction l as [|s l IH]; intros m H; [done|]. cbn in *. apply not_elem_of_cons in H as [N H].
  rewrite IH by done. by rewrite lookup_alter_ne.
Qed.
Lemma count_lookup l len t (m : gmap string TopicMetrics) topic : NoDup (map sub_topic l) -> topic ∈ map sub_topic l ->
  foldl (fun metrics s => alter (count_sample len t) (sub_topic s) metrics) m l !! topic = count_sample len t <$> m !! topic.
Proof.
  revert m. induction l as [|s l IH]; intros m D H; [by apply elem_of_nil in H|]. cbn in *.
  apply NoDup_cons in D as [N D]. destruct (decide (sub_topic s = topic)) as [<-|Ne].
  - rewrite count_lookup_ne by done. by rewrite lookup_alter_eq.
  - apply elem_of_cons in H as [->|H]; [done|]. rewrite IH by done. by rewrite lookup_alter_ne.
Qed.
Lemma filter_topics_nodup f l : NoDup (map sub_topic l) -> NoDup (map sub_topic (List.filter f l)).
Proof.
  induction l as [|s l IH]; [done|]. cbn. intros [N D]%NoDup_cons. destruct (f s); [|by apply IH]. cbn.
  apply NoDup_cons. split; [|by apply IH]. intros H. apply N. clear N.
  apply list_elem_of_fmap in H as (x & -> & X).
  apply list_elem_of_fmap. exists x. split; [done|]. apply list_elem_of_In in X. apply filter_In in X as [X _]. by apply list_elem_of_In.
Qed.

Lemma inv_sample ke len t a : console_inv a -> console_inv (on_sample ke len t a).
Proof.
  intros I. unfold on_sample. destruct I; split; try done; cbn.
  - by rewrite count_dom.
  - revert inv_histories0. generalize (topic_metrics (measuring a)).
    generalize (List.filter (fun s => ke_matches (sub_key_expr s) ke) (multi_subscribers (measuring a))) as l.
    induction l as [|s l IH]; intros m H; [done|]. cbn. apply IH.
    intros t' tm E. apply lookup_alter_Some in E as [(_ & tm0 & E & ->)|[N E]]; [|by eapply H]. by destruct (H _ _ E).
Qed.

Lemma inv_stop_multi a : console_inv a -> console_inv (stop_multi_monitoring a).
Proof. intros []. split; try done. split; constructor. Qed.

Lemma inv_restart_multi out a : console_inv (stop_multi_monitoring a) -> console_inv (restart_multi_monitoring out a).
Proof.
  unfold restart_multi_monitoring. generalize (stop_multi_monitoring a). clear a. intros a I. case_decide; [done|].
  destruct I; split; try done. cbn. split.
  - rewrite map_map, map_id. apply NoDup_ListNoDup, List.NoDup_filter, NoDup_ListNoDup. rewrite set_order_perm. apply NoDup_elements.
  - apply Forall_map, Forall_forall. intros t Ht. cbn. apply list_elem_of_In, filter_In in Ht as [Ht _].
    apply list_elem_of_In in Ht. rewrite set_order_perm in Ht. by apply elem_of_elements.
Qed.

Lemma metrics_default_ok : metrics_ok TopicMetrics_default.
Proof. split; cbn; [lia|done]. Qed.

Lemma inv_toggle_measuring out topic a : console_inv a -> console_inv (toggle_measuring_topic out topic a).
Proof.
  intros I. unfold toggle_measuring_topic. apply inv_restart_multi. destruct I.
  case_decide; split; try done; cbn.
  - by rewrite dom_delete_L, inv_metrics0.
  - split; constructor.
  - by apply map_Forall_delete.
  - by rewrite dom_insert_L, inv_metrics0.
  - split; constructor.
  - apply map_Forall_insert_2; [apply metrics_default_ok | done].
Qed.

Lemma inv_clear_measuring out a : console_inv a -> console_inv (clear_measuring_topics out a).
Proof.
  intros []. split; try done. split; constructor.
Qed.

Lemma inv_key_rate out a : console_inv a -> console_inv (key_rate out a).
Proof.
  intros I. unfold key_rate. case_match; try done; [|by apply inv_clear_measuring].
  destruct (_ !! _) as [[topic ty]|]; [|done]. unfold quick_measure_rate.
  by destruct (declare_error _ _); apply (inv_view a).
Qed.
Lemma inv_key_measure out a : console_inv a -> console_inv (key_measure out a).
Proof.
  intros I. unfold key_measure. case_match; try done.
  - destruct (_ !! _) as [[topic ty]|]; [|done]. by apply inv_toggle_measuring.
  - destruct (_ !! _) as [[topic ty]|]; [|done]. by apply inv_toggle_measuring.
  - by apply (inv_view a).
Qed.

(** *** The filter line *)

(** A key of the keyboard: its [char] is one. *)
Definition key_ok (key : KeyEvent) : Prop := match key_code key with Char c => is_char c | _ => True end.

(** The text before and after the cursor. *)
Definition line (a : App) : list string * list string :=
  let cs := chars (filter_input (filter a)) in (take (filter_cursor (filter a)) cs, drop (filter_cursor (filter a)) cs).
(** What a key does to it. *)
Definition edit (key : KeyEvent) (l : list string * list string) : list string * list string :=
  let '(before, after) := l in
  match key_code key with
  | Backspace => (removelast before, after)
  | Left => match rev before with c :: cs => (rev cs, c :: after) | [] => l end
  | Right => match after with c :: cs => (before ++ [c], cs)%list | [] => l end
  | Char c => if String.eqb c "u" && control key then ([], []) else (before ++ [c], after)%list
  | _ => l
  end.
Definition leaves_filter (key : KeyEvent) : bool := match key_code key with Esc | Enter => true | _ => false end.

(** The text and the cursor, given by what is before and after it. *)
Definition line_is (a : App) (before after : list string) : Prop :=
  Forall is_char before /\ Forall is_char after /\
  filter_input (filter a) = collect (before ++ after) /\ filter_cursor (filter a) = length before.

Lemma inv_line a : console_inv a -> exists before after, line_is a before after.
Proof.
  intros []. exists (line a).1, (line a).2. unfold line, line_is. cbn.
  apply chars_valid in inv_text0. rewrite <- (take_drop (filter_cursor (filter a)) (chars _)) in inv_text0 at 1.
  apply Forall_app in inv_text0 as [H1 H2]. rewrite take_drop, collect_chars, length_take. split_and!; try done. lia.
Qed.

Lemma line_is_line a before after : line_is a before after -> line a = (before, after).
Proof.
  intros (B & A & E & C). unfold line. rewrite E, C, chars_collect by by apply Forall_app.
  by rewrite take_app_length, drop_app_length.
Qed.

Lemma line_is_inv a before after : line_is a before after ->
  starts_char (filter_input (filter a)) = true /\ (filter_cursor (filter a) <= length (chars (filter_input (filter a))))%nat.
Proof.
  intros (B & A & E & C). assert (F : Forall is_char (before ++ after)) by by apply Forall_app.
  rewrite E, C, chars_collect by done. split; [by apply starts_char_collect | rewrite length_app; lia].
Qed.

(** What the filter's operations leave, besides the line. *)
Definition same_besides_filter (a a' : App) : Prop :=
  measured a' = measured a /\ recorded a' = recorded a /\ live_metrics a' = live_metrics a /\ modes a' = modes a.

Lemma delete_line a before c after : line_is a (before ++ [c]) after -> line_is (delete_filter_char a) before after.
Proof.
  intros (B & A & E & C). assert (F : Forall is_char ((before ++ [c]) ++ after)) by by apply Forall_app.
  unfold delete_filter_char. rewrite E, C, chars_collect, length_app by done. cbn [length].
  destruct (Nat.eqb_spec (length before + 1) 0); [lia|]. apply Forall_app in B as [B _].
  split_and!; [done..| |].
  - cbn. rewrite Nat.add_sub, <- app_assoc, take_app_length, app_assoc.
    by rewrite drop_app_length' by (rewrite length_app; cbn; lia).
  - cbn. rewrite C, length_app. cbn. lia.
Qed.
Lemma left_line a before c after : line_is a (before ++ [c]) after -> line_is (move_filter_cursor_left a) before (c :: after).
Proof.
  intros (B & A & E & C). apply Forall_app in B as [B Hc]. split_and!; [done | | |].
  - apply Forall_cons. split; [by inversion Hc | done].
  - cbn. by rewrite E, <- app_assoc.
  - cbn. rewrite C, length_app. cbn. lia.
Qed.
Lemma right_line a before c after : line_is a before (c :: after) -> line_is (move_filter_cursor_right a) (before ++ [c]) after.
Proof.
  intros (B & A & E & C). assert (F : Forall is_char (before ++ c :: after)) by by apply Forall_app.
  apply Forall_cons in A as [Hc A]. split_and!; [|done|..].
  - apply Forall_app. split; [done | by apply Forall_singleton].
  - cbn. by rewrite E, <- app_assoc.
  - cbn. unfold clamp_filter_cursor. rewrite E, C, chars_collect, !length_app by done. cbn. lia.
Qed.
Lemma right_line_end a before : line_is a before [] -> line_is (move_filter_cursor_right a) before [].
Proof.
  intros (B & A & E & C). split_and!; [done..|]. cbn. unfold clamp_filter_cursor.
  rewrite E, C, chars_collect by (by rewrite app_nil_r). rewrite app_nil_r. lia.
Qed.
Lemma insert_line {E} a before c after : is_char c -> line_is a before after ->
  exists a', enter_filter_char (E := E) c a = Ok a' /\ line_is a' (before ++ [c]) after /\
    filter_mode (filter a') = filter_mode (filter a) /\ same_besides_filter a a'.
Proof.
  intros Hc (B & A & E' & C). assert (F : Forall is_char (before ++ after)) by by apply Forall_app.
  unfold enter_filter_char. rewrite E', C, string_insert_chars by done. cbn [mbind res_bind]. eexists. split; [done|].
  rewrite take_app_length, drop_app_length. split; [|done].
  apply (right_line (set_filter_input _ a)). split_and!; [done | by apply Forall_cons | done | done].
Qed.

(** In filter mode a key edits the line as it edits a text with a cursor; only the
    filter, the selection and the status change. *)
Lemma filter_key_spec {E} key a before after : key_ok key -> line_is a before after ->
  exists a', filter_key (E := E) key a = Ok a' /\
    (let '(before', after') := edit key (before, after) in line_is a' before' after') /\
    filter_mode (filter a') = (if leaves_filter key then false else filter_mode (filter a)) /\ same_besides_filter a a'.
Proof.
  intros K L. unfold filter_key, edit, leaves_filter. destruct key as [code control]. unfold key_ok in K. cbn in *.
  destruct code; try (eexists; split; [done|]; split; [exact L | done]).
  - destruct (nil_or_length_pos before) as [->|N].
    + exists a. split; [|done]. unfold delete_filter_char. destruct L as (_ & _ & _ & ->). done.
    + destruct (exists_last (l := before)) as (before' & c & ->); [by intros ->|]. rewrite removelast_last.
      eexists. split; [done|]. split; [by eapply delete_line|]. unfold delete_filter_char. by destruct (Nat.eqb _ _).
  - destruct (nil_or_length_pos before) as [->|N].
    + eexists. split; [done|]. split; [|done]. destruct L as (B & A & E' & C). split_and!; [done..|]. cbn. by rewrite C.
    + destruct (exists_last (l := before)) as (before' & c & ->); [by intros ->|]. rewrite rev_unit, rev_involutive.
      eexists. split; [done|]. split; [by eapply left_line | done].
  - destruct after as [|c after]; (eexists; split; [done|]; split; [|done]); [by apply right_line_end | by eapply right_line].
  - destruct (String.eqb c "u" && control); [|by apply insert_line].
    eexists. split; [done|]. split; [|done]. split_and!; done.
Qed.

Lemma inv_filter_key {E} key a a' : key_ok key -> show_help (screen a) = false -> console_inv a ->
  filter_key (E := E) key a = Ok a' -> console_inv a'.
Proof.
  intros K M I R. destruct (inv_line a I) as (before & after & L).
  destruct (filter_key_spec (E := E) key a before after K L) as (x & R' & L' & _ & Em & Er & El & Es). rewrite R in R'. injection R' as <-.
  destruct (edit key (before, after)) as [before' after']. destruct (line_is_inv _ _ _ L') as [T C].
  unfold measured, recorded, modes in *. injection Em as E1 E2 E3. injection Es as E4 E5 E6. injection Er as Er Eo.
  destruct I; split; rewrite ?E1, ?E2, ?E3, ?E4, ?E5, ?E6, ?Er, ?Eo, ?El; done.
Qed.

(** *** The other keys *)

(** The text of a JSON value is there: the code only makes lists of strings. *)
Definition json_total : Prop := forall v, exists s, Config.json_to_string v = Ok s.

Lemma key_record_ok {E} out a : json_total -> console_inv a -> exists a', key_record (E := E) out a = Ok a' /\ console_inv a'.
Proof.
  intros J I. unfold key_record, toggle_recording, start_recording, stop_recording, since_epoch.
  assert (D : forall m a', console_inv a' -> exists a'', Ok (E := E) (set_temp_status out m a') = Ok a'' /\ console_inv a'').
  { intros m a' I'. eexists. split; [done|]. by apply (inv_view a'). }
  assert (R : forall b id db, (b = true <-> is_Some id) ->
    match id with Some i => i ∉ unclosed /\ open_rows db = {[i]} ∪ unclosed | None => open_rows db = unclosed end ->
    console_inv (with_recording (mkRecording b id) (set_db db a))).
  { intros b id db H H'. destruct I. by split. }
  pose proof (inv_row a I) as W. pose proof (inv_recording a I) as A.
  destruct (recording_active (recording a)).
  - destruct (recording_id (recording a)) as [id|]; cbn.
    + destruct (unix_millis out); cbn; [|by apply D].
      destruct (end_recording _ _ _) as [e|db] eqn:Ed; cbn; [by apply D|].
      apply D, R; [by split; [|intros []]|]. apply end_recording_open in Ed. destruct W as [N W]. set_solver.
    + apply D, R; [by split; [|intros []]|done].
  - case_decide; [by apply D|]. destruct (unix_millis out); cbn; [|by apply D].
    destruct (J (Config.strings (set_order (measuring_topics (measuring a))))) as [j ->]. cbn.
    destruct (insert_recording _ _ _) as [|[db id]] eqn:Ed; cbn; [by apply D|]. apply D, R; [by split|].
    apply insert_recording_open in Ed.
    destruct (recording_id (recording a)); [by discriminate (proj2 A (mk_is_Some _ _ eq_refl))|]. by rewrite W in Ed.
Qed.

Lemma key_export_ok {E} out a : console_inv a -> exists a', key_export (E := E) out a = Ok a' /\ console_inv a'.
Proof.
  intros I. unfold key_export, export_metrics. destruct (write_error _ _); eexists; (split; [done|]); by apply (inv_view a).
Qed.

(** The keys that do not touch the invariant. *)
Lemma ok_keeps {E} f a : keeps f -> console_inv a -> exists a', Ok (E := E) (f a) = Ok a' /\ console_inv a'.
Proof. intros F I. eexists. split; [done|]. by apply inv_keeps. Qed.
Lemma ok_inv {E} a : console_inv a -> exists a', Ok (E := E) a = Ok a' /\ console_inv a'.
Proof. eauto. Qed.

Lemma inv_quit a : console_inv a -> console_inv (set_quit a).
Proof. by intros []. Qed.
Lemma inv_show_help a b : console_inv a -> (b = true -> filter_mode (filter a) = false) -> console_inv (set_show_help b a).
Proof. intros [] H. split; try done. cbn. destruct b; [|done]. by rewrite H. Qed.
Lemma inv_enter_filter a : console_inv a -> show_help (screen a) = false -> console_inv (enter_filter_mode a).
Proof. intros [] H. by split. Qed.
Lemma right_ok {E} a : console_inv a ->
  exists a', Ok (E := E) (if in_list a then set_focus_pane Detail a else a) = Ok a' /\ console_inv a'.
Proof. intros I. apply ok_inv. destruct (in_list a); [|done]. by apply (inv_view a). Qed.

Lemma char_key_ok {E} out c a : json_total -> filter_mode (filter a) = false -> show_help (screen a) = false -> console_inv a ->
  exists a', char_key (E := E) out c a = Ok a' /\ console_inv a'.
Proof.
  intros J Fm Sh I. unfold char_key.
  repeat match goal with |- context [if String.eqb c ?x then _ else _] => destruct (String.eqb c x) end;
    first [ apply ok_inv; by first [ apply inv_quit | apply inv_show_help | apply inv_enter_filter | apply inv_key_rate | apply inv_key_measure ]
          | by apply key_record_ok | by apply right_ok | by apply key_export_ok | by apply ok_keeps; auto with keeps | by apply ok_inv
          | by eexists; split; [done | apply (inv_view a)] ].
Qed.

Lemma normal_key_ok {E} out key a : json_total -> filter_mode (filter a) = false -> show_help (screen a) = false -> console_inv a ->
  exists a', normal_key (E := E) out key a = Ok a' /\ console_inv a'.
Proof.
  intros J Fm Sh I. unfold normal_key.
  destruct (key_code key);
    first [ by apply char_key_ok | by apply right_ok | by apply ok_keeps; auto with keeps | by apply ok_inv
          | by eexists; split; [done | apply (inv_view a)] ].
Qed.

Lemma handle_key_event_ok {E} out key a : json_total -> key_ok key -> console_inv a ->
  exists a', handle_key_event (E := E) out key a = Ok a' /\ console_inv a'.
Proof.
  intros J K I. unfold handle_key_event.
  match goal with |- context [if ?b then Ok (set_quit a) else _] => destruct b end; [by apply ok_inv, inv_quit|].
  destruct (filter_mode (filter a)) eqn:Fm.
  - destruct (inv_line a I) as (before & after & L).
    destruct (filter_key_spec (E := E) key a before after K L) as (a' & R & _). exists a'. split; [done|].
    eapply inv_filter_key; [done | by apply inv_modes | done | done].
  - destruct (show_help (screen a)) eqn:Sh; [|by apply normal_key_ok].
    apply ok_inv. unfold help_key. destruct (key_code key); try done; [by apply inv_show_help|].
    case_match; [by apply inv_show_help | done].
Qed.

(** *** Drawing *)

Lemma render_keeps {E} out a a' drawn : render (E := E) parser out a = Ok (a', drawn) -> view a' = view a.
Proof.
  unfold render. intros H.
  destruct (render_list _ _ _) as [[a1 l]| |] eqn:L; [|done..]. cbn [mbind res_bind] in H.
  destruct (render_detail _ _ _) as [[a2 p]| |] eqn:D; [|done..]. cbn [mbind res_bind] in H. injection H as <- _.
  assert (E1 : view a1 = view a).
  { revert L. unfold render_list.
    set (b := if (_ <? _)%Z then update_graph_cache _ _ _ else a).
    assert (Eb : view b = view a) by (unfold b; case_match; [apply keeps_update_graph_cache | done]).
    generalize dependent b. intros b Eb H.
    match type of H with context [x ← ?m; _] => destruct m as [items| |]; [|done..] end. cbn [mbind res_bind] in H.
    injection H as <- _. case_match; [|done]. by rewrite <- Eb. }
  rewrite <- E1. clear E1 L. revert D. unfold render_detail. intros H.
  match type of H with context [x ← ?m; _] => destruct m as [[b p']| |] eqn:M; [|done..] end. cbn [mbind res_bind] in H.
  injection H as <- _.
  assert (Eb : view b = view a1).
  { destruct (current_panel (panels a1)).
    - destruct (render_topic_detail _ _ _) as [[d text]| |]; [|done..]. by injection M as <- _.
    - destruct (render_service_detail _ _) as [[d text]| |]; [|done..]. by injection M as <- _.
    - destruct (render_node_detail _ _) as [d text]. by injection M as <- _.
    - by injection M as <- _. }
  rewrite <- Eb. unfold save_screenshot. repeat case_match; done.
Qed.

(** *** Runs *)

Definition event_ok (e : ConsoleEvent) : Prop := match e with Key _ key => key_ok key | _ => True end.

Lemma console_step_inv {E} e a a' : json_total -> event_ok e -> console_inv a -> console_step (E := E) parser e a = Ok a' -> console_inv a'.
Proof.
  intros J K I. destruct e; cbn [console_step].
  - intros [= <-]. by apply inv_update.
  - destruct (render _ _ _) as [[b d]| |] eqn:R; [|done..]. intros [= <-]. apply render_keeps in R. by apply (inv_view a).
  - intros R. destruct (handle_key_event_ok (E := E) out key a J K I) as (x & R' & I'). congruence.
  - intros [= <-]. by apply inv_sample.
  - intros [= <-]. by apply (inv_view a).
  - intros [= <-]. by apply (inv_view a).
Qed.

Lemma run_snoc {E} es e a : console_run (E := E) parser (es ++ [e]) a = (b ← console_run parser es a; console_step parser e b).
Proof. unfold console_run. by rewrite foldl_snoc. Qed.

Lemma run_snoc_Ok {E} es e a a' : console_run (E := E) parser (es ++ [e]) a = Ok a' ->
  exists b, console_run (E := E) parser es a = Ok b /\ console_step (E := E) parser e b = Ok a'.
Proof. rewrite run_snoc. destruct (console_run parser es a); [eauto | done..]. Qed.

Lemma console_run_inv {E} es a a' : json_total -> Forall event_ok es -> console_inv a -> console_run (E := E) parser es a = Ok a' -> console_inv a'.
Proof.
  intros J K I. revert a' K. induction es as [|e es IH] using rev_ind; intros a' K R; [by injection R as <-|].
  apply Forall_app in K as [K Ke]. apply (Forall_inv (P := event_ok)) in Ke.
  apply run_snoc_Ok in R as (b & R & S). eapply console_step_inv; [done | done | by eapply IH | done].
Qed.

(** C39 Whatever keys are pressed, samples arrive and drawings are made between
    updates, in any order from a fresh application: the filter's cursor stays within
    its text, the help and the filter are not both open, the topics that are measured
    are those that have metrics, each with at most one subscriber and histories of at
    most sixty aligned values, and a recording is on exactly when the database has one
    row without an end more than the application found there, which is the row of the
    recording's identifier; and a key or an update never panics, only a drawing can.
    Nobody else writes to the database, and a list of names has its JSON text. *)
Theorem console_invariant {E} domain_id router_addr backend config w t es a :
  json_total -> open_rows (db_conn w) = unclosed -> Forall event_ok es ->
  console_run (E := E) parser es (App_new domain_id router_addr backend config w t) = Ok a ->
  console_inv a /\
  forall e, event_ok e -> (forall out, e <> Draw out) -> exists a', console_step (E := E) parser e a = Ok a'.
Proof.
  intros J W K R. assert (I : console_inv a) by (eapply console_run_inv; [done | done | by apply console_inv_new | done]).
  split; [done|]. intros e Ke Nd. destruct e as [| out | out key | | |]; [by eexists | by destruct (Nd out) | | by eexists ..].
  destruct (handle_key_event_ok (E := E) out key a J Ke I) as (a' & R' & _). by exists a'.
Qed.

(** *** The histories of a topic *)

Definition last_n {A} (n : nat) (l : list A) : list A := drop (length l - n) l.
Fixpoint total (l : list Z) : Z := match l with [] => 0 | x :: l => x + total l end%Z.
(** An average that follows its values. *)
Definition smoothed (l : list f64) : f64 :=
  match l with [] => f64_of_Z 0 | x :: l => foldl (fun old new => ema new old) x l end.
Definition kbytes (n : Z) : f64 := f64_div (f64_of_Z n) BYTES_PER_KB.

(** The payloads of the samples whose key a key expression matches: those between
    updates, and those since the last. *)
Definition note (ke : string) (x : list (list Z) * list Z) (e : ConsoleEvent) : list (list Z) * list Z :=
  match e with
  | Sample key len _ => if ke_matches ke key then (x.1, x.2 ++ [len])%list else x
  | Update _ => (x.1 ++ [x.2], [])%list
  | _ => x
  end.
Definition tally (ke : string) (es : list ConsoleEvent) : list (list Z) * list Z := foldl (note ke) ([], []) es.

(** What the metrics of a topic say of its payloads. *)
Record accounted (x : list (list Z) * list Z) (tm : TopicMetrics) : Prop := {
  acc_msg_count : msg_count tm = Z.of_nat (length x.2);
  acc_byte_count : byte_count tm = total x.2;
  acc_rates : rate_history tm = last_n HISTORY_LENGTH (map (fun p => Z.of_nat (length p)) x.1);
  acc_bandwidths : bandwidth_history tm =
    last_n HISTORY_LENGTH (map (fun p => f64_as_u64 (f64_mul (kbytes (total p)) (f64_of_Z 10))) x.1);
  acc_rate : current_rate tm = smoothed (map (fun p => f64_of_Z (Z.of_nat (length p))) x.1);
  acc_bandwidth : current_bandwidth tm = smoothed (map (fun p => kbytes (total p)) x.1);
  acc_collected : samples_collected tm = Z.of_nat (length x.1);
}.

(** No key that measures or clears, and as many samples and bytes as the counters
    hold. *)
Definition keeps_measuring (e : ConsoleEvent) : Prop :=
  match e with Key _ key => key_code key <> Char "m" /\ key_code key <> Char "r" | _ => True end.
Definition payload (e : ConsoleEvent) : Z := match e with Sample _ len _ => len | _ => 0%Z end.
Definition payload_ok (e : ConsoleEvent) : Prop := (0 <= payload e)%Z.

Lemma last_n_push l v : push_history (last_n HISTORY_LENGTH l) v = last_n HISTORY_LENGTH (l ++ [v]).
Proof.
  unfold push_history, last_n, HISTORY_LENGTH. rewrite length_app. cbn [length].
  destruct (Nat.le_gt_cases 60 (length l)).
  - rewrite length_drop. destruct (Nat.leb_spec 60 (length l - (length l - 60))); [|lia].
    assert (T : forall l : list Z, tail l = drop 1 l) by by intros []. rewrite drop_app_le by lia. f_equal.
    rewrite T, drop_drop. f_equal. lia.
  - replace (length l - 60)%nat with 0%nat by lia. replace (length l + 1 - 60)%nat with 0%nat by lia. rewrite !drop_0.
    destruct (Nat.leb_spec 60 (length l)); [lia|done].
Qed.

Lemma smoothed_snoc l x : l <> [] -> smoothed (l ++ [x]) = ema x (smoothed l).
Proof. destruct l as [|y l]; [done|]. intros _. cbn. by rewrite foldl_snoc. Qed.

Lemma total_app l l' : total (l ++ l') = (total l + total l')%Z.
Proof. induction l as [|x l IH]; cbn; [done|]. rewrite IH. lia. Qed.

Lemma tally_snoc i es e : tally i (es ++ [e]) = note i (tally i es) e.
Proof. unfold tally. by rewrite foldl_snoc. Qed.

Lemma tally_bounds i es : Forall payload_ok es ->
  (length (tally i es).1 + length (tally i es).2 <= length es)%nat /\
  (0 <= total (tally i es).2 <= total (map payload es))%Z.
Proof.
  induction es as [|e es IH] using rev_ind; intros P; [done|].
  apply Forall_app in P as [P Pe]. apply (Forall_inv (P := payload_ok)) in Pe. specialize (IH P).
  rewrite tally_snoc, map_app, total_app, length_app. destruct (tally i es) as [past pending].
  assert (0 <= total (map payload es))%Z by lia. unfold payload_ok in Pe.
  destruct e; cbn in *; try lia.
  - rewrite !length_app. cbn. lia.
  - destruct (ke_matches _ _); cbn; [rewrite total_app, length_app; cbn; lia | lia].
Qed.

Lemma accounted_new : accounted ([], []) TopicMetrics_default.
Proof. by split. Qed.

Lemma accounted_sample past pending tm len t :
  (Z.of_nat (length pending) + 1 < 2 ^ 64)%Z -> (0 <= total pending)%Z -> (0 <= len)%Z -> (total pending + len < 2 ^ 64)%Z ->
  accounted (past, pending) tm -> accounted (past, pending ++ [len])%list (count_sample len t tm).
Proof.
  intros L T0 P T []. split; cbn in *; try done.
  - rewrite acc_msg_count0, wrap_u_id by (split; lia). rewrite length_app. cbn. lia.
  - rewrite acc_byte_count0, wrap_u_id by (split; lia). rewrite total_app. cbn. lia.
Qed.

Lemma accounted_update past pending tm :
  (Z.of_nat (length pending) < 2 ^ 53)%Z -> (Z.of_nat (length past) + 1 < 2 ^ 64)%Z ->
  accounted (past, pending) tm -> accounted (past ++ [pending], [])%list (update_topic_metrics tm).
Proof.
  intros L N []. cbn [fst snd] in *. unfold update_topic_metrics.
  rewrite acc_msg_count0, acc_byte_count0, acc_rates0, acc_bandwidths0, acc_rate0, acc_bandwidth0, acc_collected0.
  rewrite f64_of_Z_exact by lia. rewrite wrap_u_id by (split; lia). fold (kbytes (total pending)).
  split; cbn [msg_count byte_count rate_history bandwidth_history current_rate current_bandwidth samples_collected fst snd];
    rewrite ?last_n_push, ?map_app, ?length_app; try done; cbn [map length]; try lia.
  - destruct past as [|p past]; [done|]. rewrite (smoothed_snoc (map _ _)) by done.
    destruct (Z.eqb_spec (Z.of_nat (length (p :: past)) + 1) 1); [cbn in *; lia | done].
  - destruct past as [|p past]; [done|]. rewrite (smoothed_snoc (map _ _)) by done.
    destruct (Z.eqb_spec (Z.of_nat (length (p :: past)) + 1) 1); [cbn in *; lia | done].
Qed.

(** *** What leaves the measurements alone *)

Lemma keeps_measured f : keeps f -> forall a, measured (f a) = measured a.
Proof. intros K a. specialize (K a). unfold view in K. congruence. Qed.

Lemma filter_key_measured {E} key a a' : filter_key (E := E) key a = Ok a' -> measured a' = measured a.
Proof.
  unfold filter_key. destruct (key_code key); intros H; try (by injection H as <-).
  - injection H as <-. unfold delete_filter_char. by case_match.
  - destruct (_ && _); [by injection H as <-|]. unfold enter_filter_char in H.
    destruct (string_insert _ _ _); [|done..]. by injection H as <-.
Qed.

Lemma key_record_measured {E} out a a' : key_record (E := E) out a = Ok a' -> measured a' = measured a.
Proof.
  unfold key_record, toggle_recording, start_recording, stop_recording, since_epoch, or_error.
  destruct (recording_active _).
  - destruct (recording_id _) as [id|]; cbn; [|by intros [= <-]].
    destruct (unix_millis _); cbn; [|by intros [= <-]]. destruct (end_recording _ _ _); by intros [= <-].
  - case_decide; [by intros [= <-]|]. destruct (unix_millis _); cbn; [|by intros [= <-]].
    destruct (Config.json_to_string _); cbn; [|by intros [= <-]|done]. destruct (insert_recording _ _ _) as [|[]]; by intros [= <-].
Qed.

Lemma key_measured {E} out key a a' : key_code key <> Char "m" -> key_code key <> Char "r" ->
  handle_key_event (E := E) out key a = Ok a' -> measured a' = measured a.
Proof.
  intros M R. unfold handle_key_event.
  match goal with |- context [if ?b then Ok (set_quit a) else _] => destruct b end; [by intros [= <-]|].
  destruct (filter_mode _); [by apply filter_key_measured|]. destruct (show_help _).
  { intros [= <-]. unfold help_key. by repeat case_match. }
  assert (Q : forall f, keeps f -> Ok (E := E) (f a) = Ok a' -> measured a' = measured a).
  { intros f K [= <-]. by apply keeps_measured. }
  unfold normal_key. destruct (key_code key) as [| | | | | | | | | | | | |c|];
    try (by apply Q; auto with keeps); try (by intros [= <-]; repeat case_match).
  unfold char_key.
  repeat match goal with |- context [if String.eqb c ?x then _ else _] => destruct (String.eqb_spec c x) as [->|] end;
    try done; try (by apply Q; auto with keeps); try (by intros [= <-]; repeat case_match); try by apply key_record_measured.
  unfold key_export, export_metrics. destruct (write_error _ _); by intros [= <-].
Qed.

Lemma update_measured out a :
  measured (update parser out a) =
  (measuring_topics (measuring a), update_topic_metrics <$> topic_metrics (measuring a), multi_subscribers (measuring a)).
Proof.
  unfold update. set (b := update_metrics _ _).
  assert (E : measured b = measured a).
  { unfold b, update_metrics. etransitivity; [|exact (keeps_measured _ (keeps_update_graph_cache out) a)].
    exact (keeps_measured _ (keeps_check_status out) (update_graph_cache parser out a)). }
  clearbody b. unfold update_multi_metrics. rewrite (keeps_measured _ (record_sample_keeps out)).
  unfold measured in *. cbn. by injection E as -> -> ->.
Qed.

(** One step for a topic with its subscriber. *)
Lemma step_accounted {E} ke topic e a b past pending tm :
  mkSubscriber topic ke ∈ multi_subscribers (measuring a) -> NoDup (map sub_topic (multi_subscribers (measuring a))) ->
  topic_metrics (measuring a) !! topic = Some tm -> accounted (past, pending) tm ->
  (Z.of_nat (length pending) + 1 < 2 ^ 53)%Z -> (Z.of_nat (length past) + 1 < 2 ^ 64)%Z ->
  (0 <= total pending)%Z -> payload_ok e -> (total pending + payload e < 2 ^ 64)%Z ->
  keeps_measuring e -> console_step (E := E) parser e a = Ok b ->
  multi_subscribers (measuring b) = multi_subscribers (measuring a) /\
  exists tm', topic_metrics (measuring b) !! topic = Some tm' /\ accounted (note ke (past, pending) e) tm'.
Proof.
  intros S D T A L1 L2 P0 Pe B K.
  assert (Same : measured b = measured a -> note ke (past, pending) e = (past, pending) ->
    multi_subscribers (measuring b) = multi_subscribers (measuring a) /\
    exists tm', topic_metrics (measuring b) !! topic = Some tm' /\ accounted (note ke (past, pending) e) tm').
  { unfold measured. intros [= E1 E2 E3] ->. rewrite E2, E3. eauto. }
  destruct e; cbn [console_step keeps_measuring] in *.
  - intros [= <-]. pose proof (update_measured out a) as U. unfold measured in U. injection U as _ U2 U3.
    rewrite U2, U3, lookup_fmap, T. split; [done|]. eexists. split; [done|]. exact (accounted_update past pending tm ltac:(lia) ltac:(lia) A).
  - destruct (render _ _ _) as [[c d]| |] eqn:R; [|done..]. intros [= <-]. apply Same; [|done].
    apply render_keeps in R. unfold view in R. congruence.
  - intros R. apply Same; [|done]. destruct K as [K1 K2]. exact (key_measured out key a b K1 K2 R).
  - intros [= <-]. cbn [note]. unfold on_sample. cbn. split; [done|].
    set (l := List.filter _ _). destruct (ke_matches ke ke0) eqn:M.
    + rewrite count_lookup, T; [|by apply filter_topics_nodup|].
      { eexists. split; [done|]. exact (accounted_sample past pending tm payload_len t ltac:(lia) P0 Pe B A). }
      apply list_elem_of_fmap. exists (mkSubscriber topic ke). split; [done|].
      apply list_elem_of_In, filter_In. split; [by apply list_elem_of_In|done].
    + rewrite count_lookup_ne; [eauto|]. intros (x & E' & X)%list_elem_of_fmap. apply list_elem_of_In, filter_In in X as [X Mx].
      apply list_elem_of_In in X. assert (x = mkSubscriber topic ke) as ->; [|cbn in Mx; congruence].
      apply list_elem_of_lookup in S as [n S], X as [n' X].
      assert (n = n') as <-; [|congruence].
      apply (NoDup_lookup _ n n' topic D); rewrite list_lookup_fmap; [by rewrite S|rewrite X; cbn; by rewrite E'].
  - intros [= <-]. by apply Same.
  - intros [= <-]. by apply Same.
Qed.

(** C38 A topic that is added to the measurement, when it is not measured yet and the
    session declares the subscriber for it, is counted exactly: after any run of fewer
    than 2^53 steps and 2^64 bytes of samples in which the keys [m] and [r], which
    change what is measured, are not pressed, its counters hold the number and the
    bytes of the samples since the last update that the topic's key expression matches,
    its histories the last sixty updates' counts and bandwidths in order, and its
    displayed rates the moving averages of all of them; whatever other samples arrive
    and whatever other keys and drawings come between.  The key expression is the one of
    topic_key_expr, the topic's name with [/**]: a sample of a topic below this one
    matches it and is counted too. *)
Theorem samples_accounted {E} out topic a :
  console_inv a -> topic ∉ measuring_topics (measuring a) -> declare_error out (topic_key_expr a topic) = None ->
  forall es b, Forall keeps_measuring es -> Forall payload_ok es ->
    (Z.of_nat (length es) < 2 ^ 53)%Z -> (total (map payload es) < 2 ^ 64)%Z ->
    console_run (E := E) parser es (toggle_measuring_topic out topic a) = Ok b ->
    exists tm, topic_metrics (measuring b) !! topic = Some tm /\ accounted (tally (topic_key_expr a topic) es) tm.
Proof.
  intros I N De. set (ke := topic_key_expr a topic) in *.
  pose proof (inv_toggle_measuring out topic a I) as I'.
  assert (mkSubscriber topic ke ∈ multi_subscribers (measuring (toggle_measuring_topic out topic a)) /\
    topic_metrics (measuring (toggle_measuring_topic out topic a)) !! topic = Some TopicMetrics_default) as [S T].
  { unfold toggle_measuring_topic. rewrite decide_False by done. unfold restart_multi_monitoring. cbn.
    rewrite decide_False by set_solver. cbn. split; [|by rewrite lookup_insert_eq].
    apply list_elem_of_fmap. exists topic. split; [done|]. apply list_elem_of_In, filter_In. split.
    - apply list_elem_of_In. rewrite set_order_perm. apply elem_of_elements. set_solver.
    - change (topic_key_expr _ topic) with ke. by rewrite De. }
  destruct (inv_subscribers _ I') as [D _]. clearbody ke. clear De N I I'.
  set (a0 := toggle_measuring_topic out topic a) in *. clearbody a0.
  intros es b K P L B R.
  enough (multi_subscribers (measuring b) = multi_subscribers (measuring a0) /\
          exists tm, topic_metrics (measuring b) !! topic = Some tm /\ accounted (tally ke es) tm) as [_ A] by done.
  revert b R. induction es as [|e es IH] using rev_ind; intros b R.
  { injection R as <-. split; [done|]. eexists. split; [done | apply accounted_new]. }
  apply Forall_app in K as [K Ke]. apply Forall_app in P as [P Pe].
  apply (Forall_inv (P := keeps_measuring)) in Ke. apply (Forall_inv (P := payload_ok)) in Pe.
  rewrite length_app in L. rewrite map_app, total_app in B. cbn in L, B.
  apply run_snoc_Ok in R as (c & R & St). unfold payload_ok in Pe.
  destruct (IH K P ltac:(lia) ltac:(lia) c R) as (E' & tm & T' & A). clear IH.
  destruct (tally_bounds ke es P) as [BL BT]. rewrite tally_snoc. destruct (tally ke es) as [past pending]. cbn in BL, BT.
  destruct (step_accounted (E := E) ke topic e c b past pending tm) as (E2 & X); try done; try lia; [by rewrite E'.. |].
  split; [by rewrite E2 | done].
Qed.

(** ** Turns of the loop *)

Lemma try_imap_ok {E A B} (f : nat -> A -> res E B) l i :
  (forall j x, x ∈ l -> exists y, f j x = Ok y) -> exists ys, try_imap f i l = Ok ys /\ length ys = length l.
Proof.
  revert i. induction l as [|x l IH]; intros i H; [by exists []|]. cbn.
  destruct (H i x) as [y ->]; [set_solver|]. destruct (IH (S i)) as (ys & -> & L); [set_solver|].
  exists (y :: ys). cbn. by rewrite L.
Qed.

Section Ascii.
Context `{LL : !LowercaseLaws}.

Definition item_ascii (item : string * string) : Prop := is_ascii item.1 = true /\ is_ascii item.2 = true.

Lemma item_spans_ok {E} icon marks text max_width filter_text selected after :
  is_ascii text = true -> is_ascii filter_text = true ->
  exists l, item_spans (E := E) icon marks text max_width filter_text (Item selected) after = Ok l.
Proof.
  intros A F. unfold item_spans. destruct (truncate_ascii (E := E) text max_width A) as (t & -> & At). cbn.
  destruct (decide (filter_text = "")) as [->|N]; [by eexists|].
  destruct (create_highlighted_spans_spec (E := E) t filter_text selected At F N) as (l & -> & _). by eexists.
Qed.

Lemma filter_items_sub {T} (l : list T) filter_text f x : x ∈ filter_items l filter_text f -> x ∈ l.
Proof. unfold filter_items. intros H%list_elem_of_In. apply list_elem_of_In. by apply filter_In in H as []. Qed.

(** What is cached and measured has ASCII names. *)
Record ascii_names (a : App) : Prop := {
  ascii_topics : Forall item_ascii (cached_topics (caches a));
  ascii_services : Forall item_ascii (cached_services (caches a));
  ascii_nodes : Forall item_ascii (cached_nodes (caches a));
  ascii_measured : forall topic, topic ∈ measuring_topics (measuring a) -> is_ascii topic = true;
  ascii_filter : is_ascii (filter_input (filter a)) = true;
}.

Lemma list_items_ok {E} out a : ascii_names a -> (0 <= graph_cache_update_ms (config (core a)))%Z -> cache_timestamp (caches a) = now out ->
  exists a' l, render_list (E := E) parser out a = Ok (a', l).
Proof.
  intros [At As An Am Af] G T. unfold render_list, from_millis. rewrite T, Z.sub_diag.
  destruct (Z.ltb_spec (graph_cache_update_ms (config (core a)) * 1000000) 0); [lia|].
  assert (Afl : is_ascii (to_lowercase (filter_input (filter a))) = true).
  { rewrite to_lowercase_ascii by done. by apply is_ascii_lowercase. }
  assert (M : forall f l i, (forall j x, x ∈ l -> exists y, f j x = Ok (E := E) y) ->
    exists (ys : list (list (Style * string))), try_imap (A := string * string) f i l = Ok ys).
  { intros f l i H'. destruct (try_imap_ok f l i H') as (ys & -> & _). by exists ys. }
  assert (I : exists items, match current_panel (panels a) with
    | Topics => render_topic_list_items out a (to_lowercase (filter_input (filter a))) (list_area_width out - 4)
    | Services => render_service_list_items a (to_lowercase (filter_input (filter a))) (list_area_width out - 4)
    | Nodes => render_node_list_items a (to_lowercase (filter_input (filter a))) (list_area_width out - 4)
    | Measure => render_measure_list_items a (list_area_width out - 4)
    end = Ok (E := E) items).
  { destruct (current_panel (panels a)).
    - apply M. intros j [topic ty] X. apply filter_items_sub in X. destruct (proj1 (Forall_forall _ _) At _ X) as [X1 _].
      case_match. by apply item_spans_ok.
    - apply M. intros j [service ty] X. apply filter_items_sub in X. destruct (proj1 (Forall_forall _ _) As _ X) as [X1 _].
      by apply item_spans_ok.
    - apply M. intros j [name namespace] X. apply filter_items_sub in X. destruct (proj1 (Forall_forall _ _) An _ X) as [X1 X2].
      apply item_spans_ok; [|done]. apply is_ascii_app. split; [done|]. apply (is_ascii_app "/"). by split.
    - unfold render_measure_list_items.
      match goal with |- exists items, try_imap ?f ?i ?l = _ => destruct (try_imap_ok f l i) as (ys & R & _); [|by exists ys] end.
      intros j topic X. unfold get_sorted_measuring_topics in X. rewrite sort_by_perm, set_order_perm in X.
      apply elem_of_elements, Am in X.
      match goal with |- context [truncate_with_ellipsis topic ?n] => destruct (truncate_ascii (E := E) topic n X) as (t & -> & _) end.
      by eexists. }
  destruct I as [items ->]. cbn. eauto.
Qed.

Lemma detail_ok {E} out a : exists a' p, render_detail (E := E) parser out a = Ok (a', p).
Proof.
  unfold render_detail. destruct (current_panel (panels a)).
  - unfold render_topic_detail. destruct (get_topic_names_and_types parser (graph (world a))) as [d topics].
    destruct (_ !! _) as [[topic ty]|]; [|by do 2 eexists]. cbn [get_entities_by_topic].
    destruct (visit_by_topic _ _ _) as [d1 l1]. cbn. destruct (visit_by_topic _ _ _) as [d2 l2]. by do 2 eexists.
  - unfold render_service_detail, service_len, service_section, get_entities_by_service. cbn [is_service_kind].
    destruct (get_service_names_and_types parser (graph (world a))) as [d services].
    destruct (_ !! _) as [[service ty]|]; [|by do 2 eexists].
    repeat (cbn [mbind res_bind]; match goal with
      | |- context [visit_by_service ?x ?y ?z] => destruct (visit_by_service x y z)
      | |- context [if ?b then _ else _] => destruct b
      end); by do 2 eexists.
  - destruct (render_node_detail parser a). by do 2 eexists.
  - by do 2 eexists.
Qed.

Lemma update_caches out a :
  caches (update parser out a) = caches (update_graph_cache parser out a) /\ core (update parser out a) = core a.
Proof.
  unfold update. set (b := update_graph_cache parser out a).
  assert (C : core b = core a) by (unfold b, update_graph_cache; by repeat case_match). rewrite <- C. clearbody b.
  unfold update_multi_metrics, record_sample, update_metrics, check_status_timeout. by repeat case_match.
Qed.

(** While the names are ASCII a turn of the loop never panics. *)
Theorem turn_returns {E} out key a :
  json_total -> console_inv a -> (forall k, key = Some k -> key_ok k) -> (0 <= graph_cache_update_ms (config (core a)))%Z ->
  ascii_names (update parser out a) ->
  exists r, tui_turn (E := E) parser out key a = Ok r.
Proof.
  intros J I K G A. unfold tui_turn, render. destruct (update_caches out a) as [C1 C2].
  destruct (list_items_ok (E := E) out (update parser out a) A) as (a1 & l & L).
  { by rewrite C2. }
  { rewrite C1. unfold update_graph_cache. by repeat case_match. }
  destruct (detail_ok (E := E) out a1) as (a2 & p & D).
  assert (R : render (E := E) parser out (update parser out a) = Ok (a2, mkScreen
    (" ros-z-console | Domain: " ++ Z_dec (domain_id (core (update parser out a))) ++ " | " ++
     match connection_status (screen (update parser out a)) with
     | Connected => "Connected to " ++ router_addr (core (update parser out a))
     | Disconnected => "Zenoh router: disconnected" end ++ " ")
    (if filter_mode (filter (update parser out a)) then Some (filter_input (filter (update parser out a)), filter_cursor (filter (update parser out a))) else None)
    l p (status_text out a2) (show_help (screen a2)))).
  { unfold render. rewrite L. cbn. rewrite D. done. }
  pose proof (render_keeps _ _ _ _ R) as V.
  assert (I2 : console_inv a2) by (apply (inv_view (update parser out a)); [done | by apply inv_update]).
  rewrite L. cbn [mbind res_bind]. rewrite D. cbn [mbind res_bind].
  destruct (quit (screen a2)); [by eexists|]. destruct key as [k|]; [|by eexists].
  destruct (handle_key_event_ok (E := E) out k a2 J (K k eq_refl) I2) as (a3 & -> & _). by eexists.
Qed.

(** *** What is selected *)

(** The items that are drawn for the topics are those that the filter leaves, in
    their order. *)
Lemma filter_items_all {T} (l : list T) f : (forall x, f x <> []) -> filter_items l "" f = l.
Proof.
  intros N. unfold filter_items. induction l as [|x l IH]; [done|]. cbn. specialize (N x).
  destruct (f x) as [|y ys]; [done|]. cbn. by rewrite IH.
Qed.

Lemma try_imap_lookup {E A B} (f : nat -> A -> res E B) l k ys i y : try_imap f k l = Ok ys -> ys !! i = Some y ->
  exists x, l !! i = Some x /\ f (k + i)%nat x = Ok y.
Proof.
  revert k ys i. induction l as [|x l IH]; intros k ys i; cbn; [by intros [= <-]|].
  destruct (f k x) as [z| |] eqn:F; [|done..]. cbn. destruct (try_imap f (S k) l) as [zs| |] eqn:R; [|done..].
  intros [= <-]. destruct i as [|i]; cbn; [intros [= <-]; exists x; by rewrite Nat.add_0_r|].
  intros Y. destruct (IH (S k) zs i R Y) as (w & W & Fw). exists w. by rewrite Nat.add_succ_r.
Qed.

Lemma detail_keeps_selection {E} out a a' p : render_detail (E := E) parser out a = Ok (a', p) ->
  selected_index (panels a') = selected_index (panels a) /\ current_panel (panels a') = current_panel (panels a) /\ caches a' = caches a.
Proof.
  unfold render_detail. intros H.
  match type of H with context [x ← ?m; _] => destruct m as [[b p']| |] eqn:M; [|done..] end. cbn [mbind res_bind] in H.
  injection H as <- _.
  assert (Eb : selected_index (panels b) = selected_index (panels a) /\ current_panel (panels b) = current_panel (panels a) /\ caches b = caches a).
  { destruct (current_panel (panels a)) eqn:Pa; rewrite <- Pa; clear Pa.
    - destruct (render_topic_detail _ _ _) as [[d text]| |]; [|done..]. by injection M as <- _.
    - destruct (render_service_detail _ _) as [[d text]| |]; [|done..]. by injection M as <- _.
    - destruct (render_node_detail _ _) as [d text]. by injection M as <- _.
    - by injection M as <- _. }
  destruct Eb as (<- & <- & <-). unfold save_screenshot. by repeat case_match.
Qed.

Lemma cache_keeps_panels out a : panels (update_graph_cache parser out a) = panels a.
Proof. unfold update_graph_cache. by repeat case_match. Qed.

(** Without a filter, what is drawn as selected is what [m] measures. *)
Theorem measure_key_selected {E} out out' a a' drawn i item :
  current_panel (panels a) = Topics -> filter_input (filter a) = "" -> filter_mode (filter a) = false -> show_help (screen a) = false ->
  render (E := E) parser out a = Ok (a', drawn) -> (list_pane drawn).2 !! i = Some ((Item true, "# ") :: item) ->
  exists topic ty width display marks after,
    cached_topics (caches a') !! i = Some (topic, ty) /\ truncate_with_ellipsis (E := E) topic width = Ok display /\
    item = (marks ++ (Item true, display) :: after)%list /\
    handle_key_event (E := E) out' (mkKey (Char "m") false) a' = Ok (toggle_measuring_topic out' topic a').
Proof.
  intros P F Fm Sh R. pose proof (render_keeps _ _ _ _ R) as V. revert R. unfold render, render_list.
  set (b := if (_ <? _)%Z then _ else a).
  assert (Pb : panels b = panels a /\ filter b = filter a).
  { unfold b. case_match; [|done]. split; [apply cache_keeps_panels|].
    exact (f_equal (fun v => v.1.1.1.1) (keeps_update_graph_cache out a)). }
  clearbody b. destruct Pb as [Pb Fb]. rewrite Pb, P, Fb, F.
  assert (to_lowercase "" = "") as -> by by rewrite to_lowercase_ascii.
  destruct (render_topic_list_items _ _ _ _) as [items| |] eqn:It; [|done..]. cbn [mbind res_bind].
  set (c := if _ && _ then _ else b).
  destruct (render_detail _ _ c) as [[d p]| |] eqn:D; [|done..]. cbn [mbind res_bind]. intros [= <- <-]. cbn [list_pane snd].
  intros L. destruct (detail_keeps_selection out c d p D) as (D1 & D2 & D3).
  revert It. unfold render_topic_list_items. rewrite filter_items_all by done. intros It.
  destruct (try_imap_lookup _ _ _ _ _ _ It L) as ([topic ty] & T & Y).
  match type of Y with context [match ?x with Some _ => format_rate _ _ | None => _ end] => set (rate := match x with Some c => format_rate (rc_rate c) (is_fresh out b c) | None => ("", Blue) end) in Y end.
  destruct rate as [rate_str rate_color]. unfold item_spans in Y.
  match type of Y with context [truncate_with_ellipsis topic ?n] => set (width := n) in Y end.
  destruct (truncate_with_ellipsis topic width) as [display| |] eqn:Tr; [|done..]. cbn in Y.
  injection Y as Sel Item. apply Nat.eqb_eq in Sel.
  assert (i < length items)%nat by by apply lookup_lt_Some in L.
  assert (C : selected_index (panels c) = i /\ current_panel (panels c) = Topics /\ caches c = caches b).
  { rewrite Pb in Sel. unfold c. destruct (Nat.leb_spec (length items) (selected_index (panels a))) as [Ge|_]; [lia|].
    by rewrite andb_false_r, Pb. }
  destruct C as (C1 & C2 & C3).
  exists topic, ty, width, display. eexists _, _. split; [by rewrite D3, C3|]. split; [done|].
  split; [rewrite <- Item; apply Nat.eqb_eq in Sel; unfold list_item_style; by rewrite Sel|].
  pose proof (f_equal (fun v => v.1.1.1.1) V) as Vf. pose proof (f_equal (fun v => v.2.1.2) V) as Vh.
  cbn [view modes fst snd] in Vf, Vh.
  unfold handle_key_event. cbn [key_code control]. rewrite Vf, Fm, Vh, Sh. cbn.
  unfold key_measure. by rewrite D2, C2, D1, C1, D3, C3, T.
Qed.
End Ascii.
End Proofs.

(** ** A session *)

From S2P Require Import GraphProps.
#[local] Existing Instances ex_zenoh ex_slab ex_order ex_order_laws.
#[local] Instance ex_console_json : Config.JsonApi :=
  {| Config.json_to_string _ := Ok "[]"; Config.json_to_string_pretty _ := Ok "[]" |}.
#[local] Instance ex_lowercase : Lowercase := lowercase.
#[local] Instance ex_lowercase_laws : LowercaseLaws.
Proof. split; [done|]. intros s N. by destruct s. Qed.
(** The next identifier, the open recordings and the samples. *)
#[local] Instance ex_db : DbApi := {|
  Db := nat * gset Z * list (Z * string);
  insert_recording db start topics :=
    let id := fresh db.1.2 in inr ((S db.1.1, {[id]} ∪ db.1.2, db.2), id);
  end_recording db t id := inr (db.1.1, db.1.2 ∖ {[id]}, db.2);
  insert_sample db id t topic rate bandwidth := (db.1, (t, topic) :: db.2);
|}.
#[local] Instance ex_db_laws : DbLaws.
Proof.
  refine {| open_rows := fun db : Db => db.1.2 |}.
  - intros db t topics db' id [= <- <-]. split; [apply fin_sets.is_fresh|done].
  - by intros db t id db' [= <-].
  - done.
Defined.
(** A key expression that ends with [/**] matches its beginning, and what is below. *)
#[local] Instance ex_matches : KeyExprMatch := {|
  ke_matches ke key :=
    let prefix := String.substring 0 (String.length ke - 3) ke in
    String.eqb key prefix || String.prefix (prefix ++ "/") key |}.
Definition ex_no_parser (_ : string) : option Entity := None.
Definition ex_world : World := mkWorld data_new true (0%nat, {[7%Z]}, []) [].
Definition ex_out : Outside :=
  mkOutside 1000 (Some 5000%Z) "now" (fun _ => None) (fun _ => None) 7 40 20 [].
Definition ex_app : App := App_new 0 "tcp/localhost:7447" BRmwZenoh ConsoleConfig_default ex_world 0.
Definition ex_keys (l : list KeyCode) : list ConsoleEvent := map (fun c => Key ex_out (mkKey c false)) l.
Definition ex_ok (r : res unit App) : App := match r with Ok a => a | _ => ex_app end.

Definition ex_events : list ConsoleEvent :=
  (Update ex_out :: ex_keys [Char "/"; Char "b"; Char "a"; Left; Backspace; Esc; Char "?"; Esc; Char "w"; Tab; Down; Enter]
   ++ [Update ex_out; Routers false])%list.
Definition ex_after : App := ex_ok (console_run ex_no_parser ex_events ex_app).
Lemma console_invariant_witness : console_inv {[7%Z]} ex_after /\ filter_input (filter ex_after) = "a".
Proof.
  split; [|vm_compute; reflexivity].
  refine (proj1 (console_invariant (E := unit) ex_no_parser {[7%Z]} 0 "tcp/localhost:7447" BRmwZenoh ConsoleConfig_default ex_world 0
    ex_events ex_after _ _ _ _)).
  - intros v. by exists "[]".
  - reflexivity.
  - repeat constructor.
  - vm_compute. reflexivity.
Defined.

(** Two samples of the topic, one of a topic below it, and one of another. *)
Definition ex_samples : list ConsoleEvent :=
  [Sample "0/chatter/std_msgs::msg::dds_::String_/RIHS01_0" 100 5; Sample "0/chatter/std_msgs::msg::dds_::String_/RIHS01_0" 28 6;
   Update ex_out; Sample "0/chatter/below/std_msgs::msg::dds_::String_/RIHS01_0" 7 8;
   Sample "0/chatters/std_msgs::msg::dds_::String_/RIHS01_0" 9 9; Key ex_out (mkKey Down false)].
Definition ex_counted : App := ex_ok (console_run ex_no_parser ex_samples (toggle_measuring_topic ex_out "/chatter" ex_app)).
Lemma samples_accounted_witness :
  exists tm, topic_metrics (measuring ex_counted) !! "/chatter" = Some tm /\ accounted ([[100; 28]], [7])%Z tm.
Proof.
  refine (samples_accounted (E := unit) ex_no_parser {[7%Z]} ex_out "/chatter" ex_app _ _ _ ex_samples ex_counted _ _ _ _ _).
  - by apply console_inv_new.
  - set_solver.
  - reflexivity.
  - repeat constructor; discriminate.
  - repeat constructor; unfold payload_ok; cbn; lia.
  - cbn. lia.
  - cbn. lia.
  - vm_compute. reflexivity.
Defined.

(** With a filter the topic that is drawn as selected is not the one that [m]
    measures: the key looks in the list that is not filtered. *)
Definition ex_filtered : App :=
  with_filter (fun _ => mkFilter false "b" 1) (with_caches (fun _ => mkCaches [("/a", "T"); ("/b", "T")] [] [] 1000) ex_app).
Example filter_ignored_by_measure :
  (fst <$> render_list (E := unit) ex_no_parser ex_out ex_filtered) = Ok ex_filtered /\
  (snd <$> render_list (E := unit) ex_no_parser ex_out ex_filtered) =
    Ok (" Topics (1/2 filtered) ", [[(Item true, "# "); (Item true, "/"); (Match true, "b"); (Fg Blue, "")]]) /\
  (elements ∘ measuring_topics ∘ measuring) <$> handle_key_event (E := unit) ex_out (mkKey (Char "m") false) ex_filtered = Ok ["/a"].
Proof. split_and!; vm_compute; reflexivity. Qed.
(** Clearing the measurements does not end the recording of them. *)
Example clearing_keeps_recording :
  let a := ex_ok (console_run ex_no_parser [Key ex_out (mkKey (Char "w") false)] (toggle_measuring_topic ex_out "/a" ex_app)) in
  recording_active (recording (clear_measuring_topics ex_out a)) = true.
Proof. vm_compute. reflexivity. Qed.
